(* ===== verification/_CoqProject ===== *)
-Q . S2P
Prelude.v
SchedulerStateMachine.v
SchedulerInvariants.v
SchedulerProperties.v
Scheduler.v
SchedulerWeight.v
SchedulerLoop.v
TimeSource.v
FrameRateController.v
OutputSurface.v
TimeSourceProperties.v
FramePacing.v
Geometry.v
TilingData.v
TilingProperties.v
TilingIterators.v
NumberConversions.v
NumberProperties.v
CArrays.v
Memory.v
Pickle.v
PickleProperties.v
PickleSafety.v
QuicFecGroup.v
QuicFecProperties.v
QuicStreamSequencer.v
QuicStreamProperties.v
QuicStreamDelivery.v
SeekableBuffer.v
SeekableProperties.v
UrlChars.v
UrlIp.v
UrlIpSafety.v
UrlIpText.v
UrlIpProperties.v
UrlPath.v
UrlPathProperties.v
P224.v
P224Field.v
P224Prime.v
P224Properties.v
P224Points.v
P224Text.v
PriorityQueue.v
PriorityQueueProperties.v
PrioritizedDispatcher.v
DispatcherProperties.v
Utf.v
UtfProperties.v
Values.v
ValuesProperties.v
JsonParser.v
JsonWriter.v
JsonLogic.v
JsonSafety.v
JsonReadBack.v
JsonRoundtrip.v
JsonCases.v
BigEndian.v
WebSocketFrame.v
WebSocketFrameParser.v
WebSocketMasking.v
WebSocketProperties.v
WebSocketRoundtrip.v
Dns.v
DnsNames.v
DnsText.v
DnsRecords.v
DnsAddresses.v
DnsMessages.v
Ghash.v
GhashField.v
GhashProperties.v
HttpChunkedDecoder.v
HttpChunkedProperties.v
