(* ===== verification/Prelude.v ===== *)
(** Components of Chromium, verified: parts of the browser that carry their
    own logic (no window system, no sockets, no generated code), modelled from
    their sources under src/ and proved correct.

    * The parts, and the files that hold them

    Every definition that models code has a comment with the source file and
    the lines it translates and keeps the name it has there; an operation of a
    class takes the object as its last argument and returns the new one. For
    each part, one or two files hold the model, and the others what is proved
    of it. Every part is independent of the others, but for what is said here.

    - The compositor's scheduling (cc/scheduler). SchedulerStateMachine.v is
      scheduler_state_machine.cc: six sub-states, the predicates that choose the
      next action ([NextAction]), what each action does ([UpdateState]) and the
      events of the owner. Scheduler.v is scheduler.cc, which runs the state
      machine in a loop ([ProcessScheduledActions]), asks its client for
      frames and arms deadlines; the client is a class of operations,
      [SchedulerClient]. SchedulerInvariants.v makes the events a step relation
      and gives the invariant of the reachable states; SchedulerWeight.v gives
      a measure that every action decreases. Shown (SchedulerProperties.v,
      SchedulerLoop.v): no check fails, at most one swap a frame, a readback
      follows its protocol, no commit is dropped, nothing is stuck, the loop
      ends and leaves nothing to do, frames that are needed are asked for and
      a frame that begins gets a deadline.

    - Where its frames come from (cc/scheduler, cc/output). TimeSource.v is
      delay_based_time_source.cc, with the doubles of IEEE 754 in which it
      compares times; FrameRateController.v is frame_rate_controller.cc and
      OutputSurface.v the part of output_surface.cc that paces frames. Each is
      the client of the one before it, by the classes [TimeSourceClient] and
      [FrameRateControllerClient]; the client of the surface is a class too,
      and answers a frame with calls of the surface. Posted tasks and the calls
      are events at given times. Shown: the next tick is the first of the
      display's grid that leaves half an interval after the last
      (TimeSourceProperties.v); no check fails, ticks do not stop, and frames
      keep their distance (FramePacing.v).

    - Tiling (cc/base/tiling_data.cc) in TilingData.v, on the rectangles of
      ui/gfx (rect_base_impl.h, rect.cc) in Geometry.v. Shown: the operations on
      rectangles are those on their sets of points; the tiles partition the
      layer, lookups find them, and the iterators visit just the tiles of a
      rectangle, once each, in order (TilingProperties.v, TilingIterators.v).

    - Binary messages (base/pickle.cc) in Pickle.v. Shown: reading memory that
      holds anything stays inside it (PickleSafety.v); what is written is read
      back (PickleProperties.v); the end of a message in a stream is found.

    - Numbers as text (base/strings/string_number_conversions.cc) in
      NumberConversions.v. Shown: printing is the numeral, parsing gives it back
      and saturates with the right verdict, for the four integer types; for the
      unsigned ones nothing is stored when the text has a minus sign.

    - QUIC streams and error correction (net/quic). QuicStreamSequencer.v is
      quic_stream_sequencer.cc; the stream it delivers to is a class with a
      contract. Shown: whatever comes in whatever order, what is passed on is
      the stream in order (QuicStreamProperties.v), and when all has come, all
      is passed on (QuicStreamDelivery.v). QuicFecGroup.v is quic_fec_group.cc.
      Shown: the packet that is missing comes back from the parity.

    - WebSocket frames (net/websockets), on the big-endian readers and writers
      of net/base (BigEndian.v). WebSocketFrame.v is websocket_frame.cc,
      WebSocketFrameParser.v is websocket_frame_parser.cc. Shown: masking by
      whole words is masking byte by byte (WebSocketMasking.v); however the
      bytes are cut, the chunks are those of the frames in the stream, errors
      included (WebSocketProperties.v); what is written is read back
      (WebSocketRoundtrip.v).

    - DNS messages (net/dns, net/base/dns_util.cc) in Dns.v, on the same readers
      and writers. Shown: ReadName finds what RFC 1035 means by the bytes and
      ends, whatever they are (DnsNames.v); host names keep their labels on the
      way (DnsText.v); records are read as they lie there (DnsRecords.v); the
      addresses given are those at the end of the chain of aliases
      (DnsAddresses.v), for any response to a query (DnsMessages.v).

    - Chunked HTTP bodies (net/http/http_chunked_decoder.cc) in
      HttpChunkedDecoder.v, on the number conversions. Shown
      (HttpChunkedProperties.v): any bytes are decoded or refused without
      leaving a buffer, and a body gives its data however it is cut.

    - Jobs by priority (net/base). PriorityQueue.v is priority_queue.h,
      PrioritizedDispatcher.v is prioritized_dispatcher.cc on top of it; what a
      job does when it starts is a parameter that may call the dispatcher.
      Shown: the queue is an ordered list whose pointers stay good; jobs start
      when the limits permit and none of those waits, with jobs that call the
      dispatcher as they please; what the limits mean, and that reading and
      setting them again changes nothing.

    - Media data (media/base/seekable_buffer.cc, data_buffer.cc) in
      SeekableBuffer.v. Shown: the queue of blocks is a stream of bytes with a
      position in it, and just the blocks that the capacity asks for are
      forgotten (SeekableProperties.v).

    - Text in Unicode (base/strings/utf_string_conversions.cc, with the macros
      of base/third_party/icu) in Utf.v. Shown (UtfProperties.v): a conversion
      between UTF-8, UTF-16 and UTF-32 takes valid text as it is, replaces what
      is not valid, and tells one from the other.

    - JSON (base/json, with base/values.cc), on top of the numbers and of
      Unicode. Values.v has the values, and the
      library for doubles as a class; JsonParser.v is json_parser.cc and
      json_reader.cc in a monad of the parser's state and failures, JsonWriter.v
      is json_writer.cc and string_escape.cc. JsonLogic.v has the rules by which
      the others reason about that monad: JsonSafety.v shows that the parser
      ends on any text, stays inside it and returns well-formed values, but for
      escapes of numbers that are no characters; JsonReadBack.v and
      JsonRoundtrip.v that it reads what the writer wrote as the value that was
      written, but for denormal doubles. ValuesProperties.v has dictionaries and
      pieces of text; JsonCases.v the texts on which code and comments differ.

    - URLs (url/). UrlChars.v has the ranges, character classes and tables of
      url_canon_internal; UrlIp.v is url_canon_ip.cc, UrlPath.v is
      url_canon_path.cc. Shown: on any text no access leaves a buffer and the
      loops end (UrlIpSafety.v); addresses in canonical form are read back
      (UrlIpText.v has the text, UrlIpProperties.v the theorems); canonical
      paths have no "." and "..", and are stable but for the case named there
      (UrlPathProperties.v).

    - The elliptic curve P224 (crypto/p224.cc) in P224.v. Shown: the arithmetic
      of limbs is exact modulo the prime and never leaves its types
      (P224Field.v, P224Properties.v), the modulus is prime and inversion
      inverts (P224Prime.v), the points follow the group law of the curve, and
      their text is read back, where Contract gives the minimal form
      (P224Points.v, P224Text.v).

    - GHASH (crypto/ghash.cc) in Ghash.v. Shown: products through the table of
      16 multiples are those of the specification of GCM, bit by bit
      (GhashField.v), and so is the hash of a message in any pieces
      (GhashProperties.v).

    This file has what the parts share: integers of a width, records and
    enumerations of C++, checks, loops and automation; CArrays.v has arrays
    with checked access, and Memory.v blocks of bytes with the representation
    of integers in them, for the readers and writers of text and of packets.

    * Conventions

    An integer of a type of w bits is a [Z], with [wrap_u w] or [wrap_s w]
    where an operation can leave the type. A failed [DCHECK] is [None]: the
    models are of the build with checks, but for JSON, whose model has the
    build as a parameter ([Build]). An access out of bounds, where the code
    could make one, is [Failed]. Memory that is allocated is always to be had.

    Loops that are not structural run on fuel, and [NoFuel] is no behaviour of
    the program. A loop over a text or a queue takes one more than its length,
    which its model passes itself, and its theorems say that the result is
    there. The loop of the scheduler takes its fuel as an argument: 43 actions
    and 44 for each request the client makes are enough, by the measure of
    SchedulerWeight.v. That of SetLimits needs one more than the jobs that
    wait. The JSON parser counts down the 100 levels that the source allows.

    * What is not modelled

    Within the parts: tracing and formatting of state for debugging; overloads
    that only forward; the library that prints and reads doubles; the
    transactions that send DNS queries; the
    floating-point rectangles; threads, since each of these classes lives on
    one. The alarms, sockets and graphics around the parts are classes or
    parameters with the documented contract as named hypotheses; each such
    hypothesis has an instance in the witness of the theorem.

    Other parts of the browser are mostly glue between system services,
    generated code, the Blink and V8 submodules, Skia, OpenGL, NSS and FFmpeg,
    none of which is under src/. Parts without such calls that could follow:
    cookies (net/cookies/parsed_cookie.cc), the hash functions of base, queries
    and relative URLs (url/), the compiler of seccomp filters
    (sandbox/linux/seccomp-bpf). *)
From stdpp Require Export prelude strings.
From Stdlib Require Export ZArith Lia.

#[global] Open Scope Z_scope.

(** ** Machine integers

    A C++ integer of [w] bits is a [Z]; [wrap_s w] and [wrap_u w] reduce a
    mathematical result to the signed and the unsigned range, so that every
    operation of the source that can leave its type is written with the
    reduction the compiled code performs. *)
Definition wrap_u (w z : Z) : Z := z `mod` 2 ^ w.
Definition wrap_s (w z : Z) : Z := (z + 2 ^ (w - 1)) `mod` 2 ^ w - 2 ^ (w - 1).
Definition in_u (w z : Z) : Prop := 0 <= z < 2 ^ w.
Definition in_s (w z : Z) : Prop := - 2 ^ (w - 1) <= z < 2 ^ (w - 1).

Abbreviation s32 := (wrap_s 32).
Abbreviation s64 := (wrap_s 64).
Abbreviation u32 := (wrap_u 32).
Abbreviation u64 := (wrap_u 64).

Lemma pow2_split w : 0 < w -> 2 ^ w = 2 * 2 ^ (w - 1).
Proof. intros Hw. rewrite <- Z.pow_succ_r by lia. f_equal; lia. Qed.

Lemma pow2_pos w : 0 <= w -> 0 < 2 ^ w.
Proof. intros Hw. apply Z.pow_pos_nonneg; lia. Qed.

Lemma wrap_u_range w z : 0 <= w -> in_u w (wrap_u w z).
Proof. intros Hw. apply Z.mod_pos_bound, pow2_pos, Hw. Qed.

Lemma wrap_u_id w z : in_u w z -> wrap_u w z = z.
Proof. apply Z.mod_small. Qed.

Lemma wrap_s_range w z : 0 < w -> in_s w (wrap_s w z).
Proof.
  intros Hw. unfold in_s, wrap_s. pose proof (pow2_split w Hw).
  pose proof (Z.mod_pos_bound (z + 2 ^ (w - 1)) (2 ^ w) (pow2_pos w ltac:(lia))). lia.
Qed.

Lemma wrap_s_id w z : 0 < w -> in_s w z -> wrap_s w z = z.
Proof.
  intros Hw Hz. unfold in_s, wrap_s in *. pose proof (pow2_split w Hw).
  rewrite Z.mod_small; lia.
Qed.

(** An increment never keeps the value, wrapped or not. *)
Lemma wrap_s_succ_ne w z : 1 < w -> in_s w z -> wrap_s w (z + 1) <> z.
Proof.
  intros Hw Hz Heq. unfold in_s, wrap_s in *. pose proof (pow2_split w ltac:(lia)).
  pose proof (pow2_split (w - 1) ltac:(lia)). pose proof (pow2_pos (w - 1 - 1) ltac:(lia)).
  destruct (decide (z + 1 = 2 ^ (w - 1))) as [E|E].
  - rewrite E in Heq. replace (2 ^ (w - 1) + 2 ^ (w - 1)) with (2 ^ w) in Heq by lia.
    rewrite Z.mod_same in Heq; lia.
  - rewrite Z.mod_small in Heq; lia.
Qed.

(** *** Arithmetic of the type [int] *)
Declare Scope int_scope.
Delimit Scope int_scope with int.
Notation "a ⊕ b" := (s32 (a + b)) (at level 50, left associativity) : int_scope.
Notation "a ⊖ b" := (s32 (a - b)) (at level 50, left associativity) : int_scope.
Notation "a ⊗ b" := (s32 (a * b)) (at level 40, left associativity) : int_scope.
Notation "a ⊘ b" := (s32 (Z.quot a b)) (at level 40, left associativity) : int_scope.
#[global] Open Scope int_scope.

Lemma s32_id z : - 2147483648 <= z < 2147483648 -> s32 z = z.
Proof. intros Hz. by apply wrap_s_id. Qed.

Lemma u32_id z : 0 <= z < 4294967296 -> u32 z = z.
Proof. intros Hz. apply wrap_u_id. split; lia. Qed.

Lemma s64_id z : - 2 ^ 63 <= z < 2 ^ 63 -> s64 z = z.
Proof. intros Hz. by apply wrap_s_id. Qed.

(** Drop the reductions of [int] results that are in range. *)
Ltac in_range :=
  repeat match goal with
  | |- context [s32 ?z] => rewrite (s32_id z) by lia
  | H : context [s32 ?z] |- _ => rewrite (s32_id z) in H by lia
  end.

(** C++ division truncates, which agrees with the floor on what is not
    negative and never drops below the result that is clamped to zero. *)
Lemma quot_clamp a m : 0 < m -> Z.max (Z.quot a m) 0 = Z.max (a / m) 0.
Proof.
  intros Hm. destruct (Z.le_gt_cases 0 a).
  - by rewrite Z.quot_div_nonneg by lia.
  - assert (a / m < 0) by (apply Z.div_lt_upper_bound; lia).
    assert (Z.quot a m <= 0). { pose proof (Z.quot_rem' a m). pose proof (Z.rem_bound_pos_neg a m). nia. }
    lia.
Qed.

(** Bits that do not overlap add up. *)
Lemma lor_disjoint n a b : 0 <= n -> 0 <= a < 2 ^ n -> Z.lor a (b * 2 ^ n) = a + b * 2 ^ n.
Proof.
  intros Hn Ha. rewrite <- Z.shiftl_mul_pow2 by done.
  assert (E : Z.land a (Z.shiftl b n) = 0).
  { apply Z.bits_inj'. intros m Hm. rewrite Z.land_spec, Z.bits_0. destruct (Z.lt_ge_cases m n).
    - by rewrite Z.shiftl_spec_low, andb_false_r.
    - rewrite <- (Z.mod_small a (2 ^ n)) by done. by rewrite Z.mod_pow2_bits_high. }
  by rewrite <- Z.lxor_lor, <- Z.add_nocarry_lxor.
Qed.

Lemma lxor_mod a b n : 0 <= n -> Z.lxor a b `mod` 2 ^ n = Z.lxor (a `mod` 2 ^ n) (b `mod` 2 ^ n).
Proof.
  intros Hn. rewrite <- !Z.land_ones by done. apply Z.bits_inj'. intros i Hi.
  rewrite !Z.land_spec, !Z.lxor_spec, !Z.land_spec.
  by destruct (Z.testbit a i), (Z.testbit b i), (Z.testbit (Z.ones n) i).
Qed.

(** A fact about all the numbers below a bound, by computing it. *)
Lemma forall_below (n : nat) (P : Z -> Prop) `{Hdec : forall z, Decision (P z)} :
  forallb (fun z => bool_decide (P z)) (map Z.of_nat (seq 0 n)) = true ->
  forall z, 0 <= z < Z.of_nat n -> P z.
Proof.
  intros H z Hz. rewrite forallb_forall in H. eapply bool_decide_eq_true, H. apply in_map_iff.
  exists (Z.to_nat z). split; [lia|]. apply in_seq. lia.
Qed.

(** ** Characters

    A code unit is a [Z]; ["c"%ch] is the unit of the character [c]. *)
Declare Scope ch_scope.
Delimit Scope ch_scope with ch.
Definition ch_parse (l : list Byte.byte) : option Z :=
  match l with [b] => Some (Z.of_N (Byte.to_N b)) | _ => None end.
Definition ch_print (z : Z) : option (list Byte.byte) :=
  match Byte.of_N (Z.to_N z) with Some b => Some [b] | None => None end.
String Notation Z ch_parse ch_print : ch_scope.

(** The code units of a string literal. *)
Definition str (s : string) : list Z :=
  map (fun a => Z.of_N (Ascii.N_of_ascii a)) (String.list_ascii_of_string s).

(** The element of a C array at an index, for the reads the source keeps in
    range; a read out of range has no defined value in C and is [0] here. *)
Definition at_ (l : list Z) (i : Z) : Z :=
  if i <? 0 then 0 else default 0 (l !! Z.to_nat i).

(** The length of a container, as [size()] gives it. *)
Definition zlen {A} (l : list A) : Z := Z.of_nat (length l).

Lemma zlen_app {A} (l1 l2 : list A) : zlen (l1 ++ l2) = zlen l1 + zlen l2.
Proof. unfold zlen. rewrite length_app. lia. Qed.

Lemma zlen_nonneg {A} (l : list A) : 0 <= zlen l.
Proof. unfold zlen. lia. Qed.

Lemma zlen_nil {A} (l : list A) : zlen l = 0 -> l = [].
Proof. destruct l; [done|]. unfold zlen. cbn [length]. lia. Qed.

Lemma zlen_take {A} n (l : list A) : 0 <= n <= zlen l -> zlen (take (Z.to_nat n) l) = n.
Proof. unfold zlen. intros Hn. rewrite length_take. lia. Qed.

Lemma zlen_drop {A} n (l : list A) : 0 <= n <= zlen l -> zlen (drop (Z.to_nat n) l) = zlen l - n.
Proof. unfold zlen. intros Hn. rewrite length_drop. lia. Qed.

(** ** Assertions

    A [DCHECK] of the source ends the process of a checked build when its
    condition is false: code with checks runs in the option monad, and
    [None] is a failed check. *)
Definition DCHECK (b : bool) : option unit := if b then Some tt else None.

Lemma DCHECK_bind {A} (b : bool) (k : option A) :
  (DCHECK b ;; k) = if b then k else None.
Proof. by destruct b. Qed.

(** No check of [r] fails and its result satisfies [Q]. *)
Definition passes {A} (r : option A) (Q : A -> Prop) : Prop :=
  match r with Some a => Q a | None => False end.

Lemma passes_Some {A} (r : option A) (Q : A -> Prop) :
  passes r Q -> exists a, r = Some a /\ Q a.
Proof. destruct r as [a|]; [eauto|done]. Qed.

Lemma passes_bind {A B} (r : option A) (f : A -> option B) (Q : B -> Prop) :
  passes r (fun a => passes (f a) Q) -> passes (r ≫= f) Q.
Proof. by destruct r. Qed.

Lemma passes_then {A B} (r : option A) (f : A -> option B) (P : A -> Prop) (Q : B -> Prop) :
  passes r P -> (forall a, P a -> passes (f a) Q) -> passes (r ≫= f) Q.
Proof. destruct r; cbn; [auto|done]. Qed.

(** ** Loops

    A loop whose length is not known in advance runs on fuel.  [NoFuel] is not
    a result of the program: a theorem says how much fuel rules it out. *)
Inductive res (A : Type) :=
  | Ok (a : A)
  | Failed
  | NoFuel.
Arguments Ok {A}.
Arguments Failed {A}.
Arguments NoFuel {A}.

#[export] Instance res_ret : MRet res := @Ok.
#[export] Instance res_bind : MBind res := fun A B f r =>
  match r with Ok a => f a | Failed => Failed | NoFuel => NoFuel end.

(** Code with checks inside code with loops. *)
Definition checked {A} (r : option A) : res A :=
  match r with Some a => Ok a | None => Failed end.

(** ** Enumerations

    A C++ enumeration is its integer value, and two constants are compared
    through it. *)
Class CxxEnum (T : Type) := {
  enum_val : T -> Z;
  enum_inj :: Inj (=) (=) enum_val
}.

Definition enum_eqb {T} `{CxxEnum T} (a b : T) : bool := enum_val a =? enum_val b.

Declare Scope cxx_scope.
Delimit Scope cxx_scope with cxx.
Notation "a == b" := (enum_eqb a b) (at level 70, no associativity) : cxx_scope.
Notation "a != b" := (negb (enum_eqb a b)) (at level 70, no associativity) : cxx_scope.
Notation "! b" := (negb b) (at level 35, right associativity) : cxx_scope.
#[global] Open Scope cxx_scope.

Lemma enum_eqb_spec {T} `{CxxEnum T} (a b : T) : reflect (a = b) (a == b).
Proof.
  unfold enum_eqb. destruct (Z.eqb_spec (enum_val a) (enum_val b)) as [E|E]; constructor.
  - by apply enum_inj.
  - naive_solver.
Qed.

Lemma enum_eqb_refl {T} `{CxxEnum T} (a : T) : (a == a) = true.
Proof. by destruct (enum_eqb_spec a a). Qed.

Lemma enum_eqb_true {T} `{CxxEnum T} (a b : T) : (a == b) = true -> a = b.
Proof. by destruct (enum_eqb_spec a b). Qed.

Lemma enum_eqb_false {T} `{CxxEnum T} (a b : T) : (a == b) = false -> a <> b.
Proof. by destruct (enum_eqb_spec a b). Qed.

#[export] Instance enum_eq_dec {T} `{CxxEnum T} : EqDecision T.
Proof. intros a b. destruct (enum_eqb_spec a b); [by left | by right]. Defined.

(** ** Record update

    [s <| f := v |>] is [s] with its field [f] set to [v], for a record that
    declares its eta expansion as an instance of [Eta]. *)
Class Eta (R : Type) := eta : R -> R.
Class Setter {R T} (proj : R -> T) := setter : T -> R -> R.
Arguments setter {R T} proj {_}.

Ltac solve_setter :=
  match goal with
  | |- @Setter ?R ?T ?proj =>
      let i := constr:(_ : Eta R) in
      let e := eval hnf in i in
      match eval pattern proj in e with
      | ?F _ => let r := eval cbv beta in (fun v : T => F (fun _ => v)) in exact r
      end
  end.
#[export] Hint Extern 0 (Setter _) => solve_setter : typeclass_instances.

Notation "s <| f := v |>" := (setter f v s)
  (at level 1, left associativity, f at next level, v at level 200).

(** ** Automation *)
Create HintDb chromium.
#[export] Hint Resolve wrap_u_range wrap_u_id wrap_s_range wrap_s_id s32_id : chromium.

(** Turn the boolean tests among the hypotheses and the goal into the
    propositions they decide. *)
Ltac to_prop :=
  repeat match goal with
  | H : (_ && _)%bool = true |- _ => apply andb_true_iff in H; destruct H
  | H : (_ || _)%bool = false |- _ => apply orb_false_iff in H; destruct H
  | H : (_ && _)%bool = false |- _ => apply andb_false_iff in H
  | H : (_ || _)%bool = true |- _ => apply orb_true_iff in H
  | H : negb _ = true |- _ => apply negb_true_iff in H
  | H : negb _ = false |- _ => apply negb_false_iff in H
  | H : (_ == _) = true |- _ => apply enum_eqb_true in H
  | H : (_ == _) = false |- _ => apply enum_eqb_false in H
  | H : (_ =? _) = true |- _ => apply Z.eqb_eq in H
  | H : (_ =? _) = false |- _ => apply Z.eqb_neq in H
  | H : (_ <? _) = true |- _ => apply Z.ltb_lt in H
  | H : (_ <? _) = false |- _ => apply Z.ltb_ge in H
  | H : (_ <=? _) = true |- _ => apply Z.leb_le in H
  | H : (_ <=? _) = false |- _ => apply Z.leb_gt in H
  end.

(** Prove a fact about the numbers below [n] by computing it for each. *)
Ltac compute_below n :=
  match goal with |- forall z, _ -> @?P z =>
    let P := eval cbv beta in P in
    refine (forall_below n P _); vm_compute; reflexivity
  end.

(** Split on the condition of the first [if] of the goal. *)
Ltac case_if :=
  match goal with
  | |- context [if ?b then _ else _] =>
      lazymatch b with context [if _ then _ else _] => fail | _ => destruct b eqn:? end
  end.

(** The same for a hypothesis. *)
Ltac case_if_in H :=
  match type of H with
  | context [if ?b then _ else _] =>
      lazymatch b with context [if _ then _ else _] => fail | _ => destruct b eqn:? end
  end.

(** Follow the early returns of a predicate of the source. *)
Ltac returns H := repeat (case_if_in H; try discriminate H).
