(* ===== verification/SchedulerStateMachine.v ===== *)
(** The compositor's scheduling state machine, cc/scheduler/scheduler_state_machine.{h,cc}:
    its enumerations, its state, the [Should*] predicates, [NextAction],
    [UpdateState] and every entry point its owner calls.  A [DCHECK] that fails
    is [None].  The proofs about reachable states are in SchedulerInvariants. *)
From S2P Require Import Prelude.

(** ** Enumerations *)

(* src: cc/scheduler/scheduler_state_machine.h 39-45 OutputSurfaceState *)
Inductive OutputSurfaceState :=
  | OUTPUT_SURFACE_ACTIVE
  | OUTPUT_SURFACE_LOST
  | OUTPUT_SURFACE_CREATING
  | OUTPUT_SURFACE_WAITING_FOR_FIRST_COMMIT
  | OUTPUT_SURFACE_WAITING_FOR_FIRST_ACTIVATION.

(* src: cc/scheduler/scheduler_state_machine.h 52-57 BeginImplFrameState *)
Inductive BeginImplFrameState :=
  | BEGIN_IMPL_FRAME_STATE_IDLE
  | BEGIN_IMPL_FRAME_STATE_BEGIN_FRAME_STARTING
  | BEGIN_IMPL_FRAME_STATE_INSIDE_BEGIN_FRAME
  | BEGIN_IMPL_FRAME_STATE_INSIDE_DEADLINE.

(* src: cc/scheduler/scheduler_state_machine.h 60-65 CommitState *)
Inductive CommitState :=
  | COMMIT_STATE_IDLE
  | COMMIT_STATE_FRAME_IN_PROGRESS
  | COMMIT_STATE_READY_TO_COMMIT
  | COMMIT_STATE_WAITING_FOR_FIRST_DRAW.

(* src: cc/scheduler/scheduler_state_machine.h 68-72 TextureState *)
Inductive TextureState :=
  | LAYER_TEXTURE_STATE_UNLOCKED
  | LAYER_TEXTURE_STATE_ACQUIRED_BY_MAIN_THREAD
  | LAYER_TEXTURE_STATE_ACQUIRED_BY_IMPL_THREAD.

(* src: cc/scheduler/scheduler_state_machine.h 75-83 SynchronousReadbackState *)
Inductive SynchronousReadbackState :=
  | READBACK_STATE_IDLE
  | READBACK_STATE_NEEDS_BEGIN_MAIN_FRAME
  | READBACK_STATE_WAITING_FOR_COMMIT
  | READBACK_STATE_WAITING_FOR_ACTIVATION
  | READBACK_STATE_WAITING_FOR_DRAW_AND_READBACK
  | READBACK_STATE_WAITING_FOR_REPLACEMENT_COMMIT
  | READBACK_STATE_WAITING_FOR_REPLACEMENT_ACTIVATION.

(* src: cc/scheduler/scheduler_state_machine.h 87-92 ForcedRedrawOnTimeoutState *)
Inductive ForcedRedrawOnTimeoutState :=
  | FORCED_REDRAW_STATE_IDLE
  | FORCED_REDRAW_STATE_WAITING_FOR_COMMIT
  | FORCED_REDRAW_STATE_WAITING_FOR_ACTIVATION
  | FORCED_REDRAW_STATE_WAITING_FOR_DRAW.

(* src: cc/scheduler/scheduler_state_machine.h 104-117 Action *)
Inductive Action :=
  | ACTION_NONE
  | ACTION_SEND_BEGIN_MAIN_FRAME
  | ACTION_COMMIT
  | ACTION_UPDATE_VISIBLE_TILES
  | ACTION_ACTIVATE_PENDING_TREE
  | ACTION_DRAW_AND_SWAP_IF_POSSIBLE
  | ACTION_DRAW_AND_SWAP_FORCED
  | ACTION_DRAW_AND_SWAP_ABORT
  | ACTION_DRAW_AND_READBACK
  | ACTION_BEGIN_OUTPUT_SURFACE_CREATION
  | ACTION_ACQUIRE_LAYER_TEXTURES_FOR_MAIN_THREAD
  | ACTION_MANAGE_TILES.

#[export] Instance OutputSurfaceState_enum : CxxEnum OutputSurfaceState.
Proof.
  refine {| enum_val s := match s with
    | OUTPUT_SURFACE_ACTIVE => 0 | OUTPUT_SURFACE_LOST => 1
    | OUTPUT_SURFACE_CREATING => 2 | OUTPUT_SURFACE_WAITING_FOR_FIRST_COMMIT => 3
    | OUTPUT_SURFACE_WAITING_FOR_FIRST_ACTIVATION => 4 end |}; by intros [] [].
Defined.

#[export] Instance BeginImplFrameState_enum : CxxEnum BeginImplFrameState.
Proof.
  refine {| enum_val s := match s with
    | BEGIN_IMPL_FRAME_STATE_IDLE => 0 | BEGIN_IMPL_FRAME_STATE_BEGIN_FRAME_STARTING => 1
    | BEGIN_IMPL_FRAME_STATE_INSIDE_BEGIN_FRAME => 2
    | BEGIN_IMPL_FRAME_STATE_INSIDE_DEADLINE => 3 end |}; by intros [] [].
Defined.

#[export] Instance CommitState_enum : CxxEnum CommitState.
Proof.
  refine {| enum_val s := match s with
    | COMMIT_STATE_IDLE => 0 | COMMIT_STATE_FRAME_IN_PROGRESS => 1
    | COMMIT_STATE_READY_TO_COMMIT => 2 | COMMIT_STATE_WAITING_FOR_FIRST_DRAW => 3 end |};
    by intros [] [].
Defined.

#[export] Instance TextureState_enum : CxxEnum TextureState.
Proof.
  refine {| enum_val s := match s with
    | LAYER_TEXTURE_STATE_UNLOCKED => 0
    | LAYER_TEXTURE_STATE_ACQUIRED_BY_MAIN_THREAD => 1
    | LAYER_TEXTURE_STATE_ACQUIRED_BY_IMPL_THREAD => 2 end |}; by intros [] [].
Defined.

#[export] Instance SynchronousReadbackState_enum : CxxEnum SynchronousReadbackState.
Proof.
  refine {| enum_val s := match s with
    | READBACK_STATE_IDLE => 0 | READBACK_STATE_NEEDS_BEGIN_MAIN_FRAME => 1
    | READBACK_STATE_WAITING_FOR_COMMIT => 2 | READBACK_STATE_WAITING_FOR_ACTIVATION => 3
    | READBACK_STATE_WAITING_FOR_DRAW_AND_READBACK => 4
    | READBACK_STATE_WAITING_FOR_REPLACEMENT_COMMIT => 5
    | READBACK_STATE_WAITING_FOR_REPLACEMENT_ACTIVATION => 6 end |}; by intros [] [].
Defined.

#[export] Instance ForcedRedraw_enum : CxxEnum ForcedRedrawOnTimeoutState.
Proof.
  refine {| enum_val s := match s with
    | FORCED_REDRAW_STATE_IDLE => 0 | FORCED_REDRAW_STATE_WAITING_FOR_COMMIT => 1
    | FORCED_REDRAW_STATE_WAITING_FOR_ACTIVATION => 2
    | FORCED_REDRAW_STATE_WAITING_FOR_DRAW => 3 end |}; by intros [] [].
Defined.

#[export] Instance Action_enum : CxxEnum Action.
Proof.
  refine {| enum_val a := match a with
    | ACTION_NONE => 0 | ACTION_SEND_BEGIN_MAIN_FRAME => 1 | ACTION_COMMIT => 2
    | ACTION_UPDATE_VISIBLE_TILES => 3 | ACTION_ACTIVATE_PENDING_TREE => 4
    | ACTION_DRAW_AND_SWAP_IF_POSSIBLE => 5 | ACTION_DRAW_AND_SWAP_FORCED => 6
    | ACTION_DRAW_AND_SWAP_ABORT => 7 | ACTION_DRAW_AND_READBACK => 8
    | ACTION_BEGIN_OUTPUT_SURFACE_CREATION => 9
    | ACTION_ACQUIRE_LAYER_TEXTURES_FOR_MAIN_THREAD => 10
    | ACTION_MANAGE_TILES => 11 end |}; by intros [] [].
Defined.

(** ** The settings and the state *)

(* src: cc/scheduler/scheduler_settings.h 12-24 SchedulerSettings *)
Record SchedulerSettings := {
  deadline_scheduling_enabled : bool;
  impl_side_painting : bool;
  timeout_and_draw_when_animation_checkerboards : bool;
  maximum_number_of_failed_draws_before_draw_is_forced_ : Z;
  using_synchronous_renderer_compositor : bool;
  throttle_frame_production : bool;
  switch_to_low_latency_if_possible : bool
}.

(* src: cc/scheduler/scheduler_settings.cc 9-16 SchedulerSettings::SchedulerSettings *)
Definition default_settings : SchedulerSettings := {|
  deadline_scheduling_enabled := true;
  impl_side_painting := false;
  timeout_and_draw_when_animation_checkerboards := true;
  maximum_number_of_failed_draws_before_draw_is_forced_ := 3;
  using_synchronous_renderer_compositor := false;
  throttle_frame_production := true;
  switch_to_low_latency_if_possible := false
|}.

(** Times are microseconds, the representation of [base::TimeTicks] and
    [base::TimeDelta]. *)
(* src: cc/output/begin_frame_args.h 13-50 BeginFrameArgs *)
Record BeginFrameArgs := { frame_time : Z; deadline : Z; interval : Z }.

(* src: cc/output/begin_frame_args.cc 10-14 BeginFrameArgs::BeginFrameArgs *)
Definition invalid_args : BeginFrameArgs :=
  {| frame_time := 0; deadline := 0; interval := -1 |}.

(* src: cc/scheduler/scheduler_state_machine.h 267-299! SchedulerStateMachine *)
Record StateMachine := mkStateMachine {
  output_surface_state_ : OutputSurfaceState;
  begin_impl_frame_state_ : BeginImplFrameState;
  commit_state_ : CommitState;
  texture_state_ : TextureState;
  forced_redraw_state_ : ForcedRedrawOnTimeoutState;
  readback_state_ : SynchronousReadbackState;
  last_begin_impl_frame_args_ : BeginFrameArgs;
  commit_count_ : Z;
  current_frame_number_ : Z;
  last_frame_number_swap_performed_ : Z;
  last_frame_number_begin_main_frame_sent_ : Z;
  last_frame_number_update_visible_tiles_was_called_ : Z;
  last_frame_number_manage_tiles_called_ : Z;
  consecutive_failed_draws_ : Z;
  needs_redraw_ : bool;
  needs_manage_tiles_ : bool;
  swap_used_incomplete_tile_ : bool;
  needs_commit_ : bool;
  main_thread_needs_layer_textures_ : bool;
  inside_poll_for_anticipated_draw_triggers_ : bool;
  visible_ : bool;
  can_start_ : bool;
  can_draw_ : bool;
  has_pending_tree_ : bool;
  pending_tree_is_ready_for_activation_ : bool;
  active_tree_needs_first_draw_ : bool;
  draw_if_possible_failed_ : bool;
  did_create_and_initialize_first_output_surface_ : bool;
  smoothness_takes_priority_ : bool;
  skip_begin_main_frame_to_reduce_latency_ : bool
}.

#[export] Instance eta_StateMachine : Eta StateMachine := fun s =>
  mkStateMachine (output_surface_state_ s) (begin_impl_frame_state_ s) (commit_state_ s)
    (texture_state_ s) (forced_redraw_state_ s) (readback_state_ s)
    (last_begin_impl_frame_args_ s) (commit_count_ s) (current_frame_number_ s)
    (last_frame_number_swap_performed_ s) (last_frame_number_begin_main_frame_sent_ s)
    (last_frame_number_update_visible_tiles_was_called_ s)
    (last_frame_number_manage_tiles_called_ s) (consecutive_failed_draws_ s)
    (needs_redraw_ s) (needs_manage_tiles_ s) (swap_used_incomplete_tile_ s)
    (needs_commit_ s) (main_thread_needs_layer_textures_ s)
    (inside_poll_for_anticipated_draw_triggers_ s) (visible_ s) (can_start_ s)
    (can_draw_ s) (has_pending_tree_ s) (pending_tree_is_ready_for_activation_ s)
    (active_tree_needs_first_draw_ s) (draw_if_possible_failed_ s)
    (did_create_and_initialize_first_output_surface_ s) (smoothness_takes_priority_ s)
    (skip_begin_main_frame_to_reduce_latency_ s).

(* src: cc/scheduler/scheduler_state_machine.cc 16-46 SchedulerStateMachine::SchedulerStateMachine *)
Definition initial_state : StateMachine := {|
  output_surface_state_ := OUTPUT_SURFACE_LOST;
  begin_impl_frame_state_ := BEGIN_IMPL_FRAME_STATE_IDLE;
  commit_state_ := COMMIT_STATE_IDLE;
  texture_state_ := LAYER_TEXTURE_STATE_UNLOCKED;
  forced_redraw_state_ := FORCED_REDRAW_STATE_IDLE;
  readback_state_ := READBACK_STATE_IDLE;
  last_begin_impl_frame_args_ := invalid_args;
  commit_count_ := 0;
  current_frame_number_ := 0;
  last_frame_number_swap_performed_ := -1;
  last_frame_number_begin_main_frame_sent_ := -1;
  last_frame_number_update_visible_tiles_was_called_ := -1;
  last_frame_number_manage_tiles_called_ := -1;
  consecutive_failed_draws_ := 0;
  needs_redraw_ := false;
  needs_manage_tiles_ := false;
  swap_used_incomplete_tile_ := false;
  needs_commit_ := false;
  main_thread_needs_layer_textures_ := false;
  inside_poll_for_anticipated_draw_triggers_ := false;
  visible_ := false;
  can_start_ := false;
  can_draw_ := false;
  has_pending_tree_ := false;
  pending_tree_is_ready_for_activation_ := false;
  active_tree_needs_first_draw_ := false;
  draw_if_possible_failed_ := false;
  did_create_and_initialize_first_output_surface_ := false;
  smoothness_takes_priority_ := false;
  skip_begin_main_frame_to_reduce_latency_ := false
|}.

(** ** Names, as the tracing code prints them *)

(* src: cc/scheduler/scheduler_state_machine.cc 48-64 OutputSurfaceStateToString *)
Definition OutputSurfaceStateToString (state : OutputSurfaceState) : string :=
  match state with
  | OUTPUT_SURFACE_ACTIVE => "OUTPUT_SURFACE_ACTIVE"
  | OUTPUT_SURFACE_LOST => "OUTPUT_SURFACE_LOST"
  | OUTPUT_SURFACE_CREATING => "OUTPUT_SURFACE_CREATING"
  | OUTPUT_SURFACE_WAITING_FOR_FIRST_COMMIT => "OUTPUT_SURFACE_WAITING_FOR_FIRST_COMMIT"
  | OUTPUT_SURFACE_WAITING_FOR_FIRST_ACTIVATION => "OUTPUT_SURFACE_WAITING_FOR_FIRST_ACTIVATION"
  end.

(* src: cc/scheduler/scheduler_state_machine.cc 66-80 BeginImplFrameStateToString *)
Definition BeginImplFrameStateToString (state : BeginImplFrameState) : string :=
  match state with
  | BEGIN_IMPL_FRAME_STATE_IDLE => "BEGIN_IMPL_FRAME_STATE_IDLE"
  | BEGIN_IMPL_FRAME_STATE_BEGIN_FRAME_STARTING => "BEGIN_IMPL_FRAME_STATE_BEGIN_FRAME_STARTING"
  | BEGIN_IMPL_FRAME_STATE_INSIDE_BEGIN_FRAME => "BEGIN_IMPL_FRAME_STATE_INSIDE_BEGIN_FRAME"
  | BEGIN_IMPL_FRAME_STATE_INSIDE_DEADLINE => "BEGIN_IMPL_FRAME_STATE_INSIDE_DEADLINE"
  end.

(* src: cc/scheduler/scheduler_state_machine.cc 82-95 CommitStateToString *)
Definition CommitStateToString (state : CommitState) : string :=
  match state with
  | COMMIT_STATE_IDLE => "COMMIT_STATE_IDLE"
  | COMMIT_STATE_FRAME_IN_PROGRESS => "COMMIT_STATE_FRAME_IN_PROGRESS"
  | COMMIT_STATE_READY_TO_COMMIT => "COMMIT_STATE_READY_TO_COMMIT"
  | COMMIT_STATE_WAITING_FOR_FIRST_DRAW => "COMMIT_STATE_WAITING_FOR_FIRST_DRAW"
  end.

(* src: cc/scheduler/scheduler_state_machine.cc 97-108 TextureStateToString *)
Definition TextureStateToString (state : TextureState) : string :=
  match state with
  | LAYER_TEXTURE_STATE_UNLOCKED => "LAYER_TEXTURE_STATE_UNLOCKED"
  | LAYER_TEXTURE_STATE_ACQUIRED_BY_MAIN_THREAD => "LAYER_TEXTURE_STATE_ACQUIRED_BY_MAIN_THREAD"
  | LAYER_TEXTURE_STATE_ACQUIRED_BY_IMPL_THREAD => "LAYER_TEXTURE_STATE_ACQUIRED_BY_IMPL_THREAD"
  end.

(* src: cc/scheduler/scheduler_state_machine.cc 110-130 SynchronousReadbackStateToString *)
Definition SynchronousReadbackStateToString (state : SynchronousReadbackState) : string :=
  match state with
  | READBACK_STATE_IDLE => "READBACK_STATE_IDLE"
  | READBACK_STATE_NEEDS_BEGIN_MAIN_FRAME => "READBACK_STATE_NEEDS_BEGIN_MAIN_FRAME"
  | READBACK_STATE_WAITING_FOR_COMMIT => "READBACK_STATE_WAITING_FOR_COMMIT"
  | READBACK_STATE_WAITING_FOR_ACTIVATION => "READBACK_STATE_WAITING_FOR_ACTIVATION"
  | READBACK_STATE_WAITING_FOR_DRAW_AND_READBACK => "READBACK_STATE_WAITING_FOR_DRAW_AND_READBACK"
  | READBACK_STATE_WAITING_FOR_REPLACEMENT_COMMIT => "READBACK_STATE_WAITING_FOR_REPLACEMENT_COMMIT"
  | READBACK_STATE_WAITING_FOR_REPLACEMENT_ACTIVATION => "READBACK_STATE_WAITING_FOR_REPLACEMENT_ACTIVATION"
  end.

(* src: cc/scheduler/scheduler_state_machine.cc 132-146 ForcedRedrawOnTimeoutStateToString *)
Definition ForcedRedrawOnTimeoutStateToString (state : ForcedRedrawOnTimeoutState) : string :=
  match state with
  | FORCED_REDRAW_STATE_IDLE => "FORCED_REDRAW_STATE_IDLE"
  | FORCED_REDRAW_STATE_WAITING_FOR_COMMIT => "FORCED_REDRAW_STATE_WAITING_FOR_COMMIT"
  | FORCED_REDRAW_STATE_WAITING_FOR_ACTIVATION => "FORCED_REDRAW_STATE_WAITING_FOR_ACTIVATION"
  | FORCED_REDRAW_STATE_WAITING_FOR_DRAW => "FORCED_REDRAW_STATE_WAITING_FOR_DRAW"
  end.

(* src: cc/scheduler/scheduler_state_machine.cc 148-177 ActionToString *)
Definition ActionToString (state : Action) : string :=
  match state with
  | ACTION_NONE => "ACTION_NONE"
  | ACTION_SEND_BEGIN_MAIN_FRAME => "ACTION_SEND_BEGIN_MAIN_FRAME"
  | ACTION_COMMIT => "ACTION_COMMIT"
  | ACTION_UPDATE_VISIBLE_TILES => "ACTION_UPDATE_VISIBLE_TILES"
  | ACTION_ACTIVATE_PENDING_TREE => "ACTION_ACTIVATE_PENDING_TREE"
  | ACTION_DRAW_AND_SWAP_IF_POSSIBLE => "ACTION_DRAW_AND_SWAP_IF_POSSIBLE"
  | ACTION_DRAW_AND_SWAP_FORCED => "ACTION_DRAW_AND_SWAP_FORCED"
  | ACTION_DRAW_AND_SWAP_ABORT => "ACTION_DRAW_AND_SWAP_ABORT"
  | ACTION_DRAW_AND_READBACK => "ACTION_DRAW_AND_READBACK"
  | ACTION_BEGIN_OUTPUT_SURFACE_CREATION => "ACTION_BEGIN_OUTPUT_SURFACE_CREATION"
  | ACTION_ACQUIRE_LAYER_TEXTURES_FOR_MAIN_THREAD => "ACTION_ACQUIRE_LAYER_TEXTURES_FOR_MAIN_THREAD"
  | ACTION_MANAGE_TILES => "ACTION_MANAGE_TILES"
  end.

(** ** What to do next *)
Section StateMachine.
Variable settings_ : SchedulerSettings.
Implicit Types s : StateMachine.

(* src: cc/scheduler/scheduler_state_machine.h 96-99 CommitPending *)
Definition CommitPending s : bool :=
  (commit_state_ s == COMMIT_STATE_FRAME_IN_PROGRESS) ||
  (commit_state_ s == COMMIT_STATE_READY_TO_COMMIT).

(* src: cc/scheduler/scheduler_state_machine.cc 273-276 HasSentBeginMainFrameThisFrame *)
Definition HasSentBeginMainFrameThisFrame s : bool :=
  current_frame_number_ s =? last_frame_number_begin_main_frame_sent_ s.

(* src: cc/scheduler/scheduler_state_machine.cc 278-281 HasUpdatedVisibleTilesThisFrame *)
Definition HasUpdatedVisibleTilesThisFrame s : bool :=
  current_frame_number_ s =? last_frame_number_update_visible_tiles_was_called_ s.

(* src: cc/scheduler/scheduler_state_machine.cc 283-285 HasSwappedThisFrame *)
Definition HasSwappedThisFrame s : bool :=
  current_frame_number_ s =? last_frame_number_swap_performed_ s.

(* src: cc/scheduler/scheduler_state_machine.cc 1109-1122 HasInitializedOutputSurface *)
Definition HasInitializedOutputSurface s : bool :=
  match output_surface_state_ s with
  | OUTPUT_SURFACE_LOST | OUTPUT_SURFACE_CREATING => false
  | OUTPUT_SURFACE_ACTIVE | OUTPUT_SURFACE_WAITING_FOR_FIRST_COMMIT
  | OUTPUT_SURFACE_WAITING_FOR_FIRST_ACTIVATION => true
  end.

(* src: cc/scheduler/scheduler_state_machine.cc 307-321 PendingActivationsShouldBeForced *)
Definition PendingActivationsShouldBeForced s : bool :=
  if texture_state_ s == LAYER_TEXTURE_STATE_ACQUIRED_BY_MAIN_THREAD then true else
  if output_surface_state_ s == OUTPUT_SURFACE_LOST then true else
  false.

(* src: cc/scheduler/scheduler_state_machine.cc 287-305 PendingDrawsShouldBeAborted *)
Definition PendingDrawsShouldBeAborted s : bool :=
  if PendingActivationsShouldBeForced s then true else
  if !(can_draw_ s) then true else
  if !(visible_ s) then true else
  false.

(* src: cc/scheduler/scheduler_state_machine.cc 323-344 ShouldBeginOutputSurfaceCreation *)
Definition ShouldBeginOutputSurfaceCreation s : bool :=
  if !(can_start_ s) then false else
  if commit_state_ s != COMMIT_STATE_IDLE then false else
  if active_tree_needs_first_draw_ s || has_pending_tree_ s then false else
  output_surface_state_ s == OUTPUT_SURFACE_LOST.

(* src: cc/scheduler/scheduler_state_machine.cc 346-383 ShouldDraw *)
Definition ShouldDraw s : option bool :=
  if (readback_state_ s == READBACK_STATE_WAITING_FOR_REPLACEMENT_COMMIT) ||
     (readback_state_ s == READBACK_STATE_WAITING_FOR_REPLACEMENT_ACTIVATION)
  then Some false else
  if readback_state_ s == READBACK_STATE_WAITING_FOR_DRAW_AND_READBACK then
    DCHECK (commit_state_ s == COMMIT_STATE_WAITING_FOR_FIRST_DRAW) ;;
    Some true
  else
  if PendingDrawsShouldBeAborted s then Some (active_tree_needs_first_draw_ s) else
  if HasSwappedThisFrame s then Some false else
  if begin_impl_frame_state_ s != BEGIN_IMPL_FRAME_STATE_INSIDE_DEADLINE
  then Some false else
  if forced_redraw_state_ s == FORCED_REDRAW_STATE_WAITING_FOR_DRAW then
    DCHECK (commit_state_ s == COMMIT_STATE_WAITING_FOR_FIRST_DRAW) ;;
    Some true
  else Some (needs_redraw_ s).

(* src: cc/scheduler/scheduler_state_machine.cc 385-392 ShouldAcquireLayerTexturesForMainThread *)
Definition ShouldAcquireLayerTexturesForMainThread s : option bool :=
  if !(main_thread_needs_layer_textures_ s) then Some false else
  if texture_state_ s == LAYER_TEXTURE_STATE_UNLOCKED then Some true else
  DCHECK (texture_state_ s == LAYER_TEXTURE_STATE_ACQUIRED_BY_IMPL_THREAD) ;;
  Some false.

(* src: cc/scheduler/scheduler_state_machine.cc 394-411 ShouldActivatePendingTree *)
Definition ShouldActivatePendingTree s : bool :=
  if !(has_pending_tree_ s) then false else
  if active_tree_needs_first_draw_ s then false else
  if PendingActivationsShouldBeForced s then true else
  pending_tree_is_ready_for_activation_ s.

(* src: cc/scheduler/scheduler_state_machine.cc 413-435 ShouldUpdateVisibleTiles *)
Definition ShouldUpdateVisibleTiles s : bool :=
  if !(impl_side_painting settings_) then false else
  if HasUpdatedVisibleTilesThisFrame s then false else
  if !(HasInitializedOutputSurface s) then false else
  if begin_impl_frame_state_ s != BEGIN_IMPL_FRAME_STATE_INSIDE_DEADLINE then false else
  if swap_used_incomplete_tile_ s then true else
  false.

(* src: cc/scheduler/scheduler_state_machine.cc 805-811 SupportsProactiveBeginImplFrame *)
Definition SupportsProactiveBeginImplFrame : bool :=
  !(using_synchronous_renderer_compositor settings_) &&
  throttle_frame_production settings_.

(* src: cc/scheduler/scheduler_state_machine.cc 815-841 BeginImplFrameNeededToDraw *)
Definition BeginImplFrameNeededToDraw s : bool :=
  if !(HasInitializedOutputSurface s) then false else
  if !(can_draw_ s) then false else
  if forced_redraw_state_ s == FORCED_REDRAW_STATE_WAITING_FOR_DRAW then true else
  if !(visible_ s) then false else
  if swap_used_incomplete_tile_ s then true else
  needs_redraw_ s.

(* src: cc/scheduler/scheduler_state_machine.cc 847-881 ProactiveBeginImplFrameWanted *)
Definition ProactiveBeginImplFrameWanted s : bool :=
  if !(HasInitializedOutputSurface s) then false else
  if !(visible_ s) then false else
  if needs_commit_ s || (commit_state_ s != COMMIT_STATE_IDLE) then true else
  if has_pending_tree_ s then true else
  if needs_manage_tiles_ s then true else
  if last_frame_number_swap_performed_ s =? current_frame_number_ s then true else
  false.

(* src: cc/scheduler/scheduler_state_machine.cc 778-789 BeginImplFrameNeeded *)
Definition BeginImplFrameNeeded s : bool :=
  if !SupportsProactiveBeginImplFrame then BeginImplFrameNeededToDraw s else
  BeginImplFrameNeededToDraw s || ProactiveBeginImplFrameWanted s.

(* src: cc/scheduler/scheduler_state_machine.cc 791-803 ShouldPollForAnticipatedDrawTriggers *)
Definition ShouldPollForAnticipatedDrawTriggers s : bool :=
  if !SupportsProactiveBeginImplFrame then
    !(BeginImplFrameNeededToDraw s) && ProactiveBeginImplFrameWanted s
  else false.

(* src: cc/scheduler/scheduler_state_machine.cc 437-498 ShouldSendBeginMainFrame *)
Definition ShouldSendBeginMainFrame s : bool :=
  if !(needs_commit_ s) then false else
  if commit_state_ s != COMMIT_STATE_IDLE then false else
  if has_pending_tree_ s then false else
  if readback_state_ s == READBACK_STATE_NEEDS_BEGIN_MAIN_FRAME
  then !(CommitPending s) else
  if !(visible_ s) then false else
  if output_surface_state_ s == OUTPUT_SURFACE_WAITING_FOR_FIRST_COMMIT then true else
  if deadline_scheduling_enabled settings_ &&
     (begin_impl_frame_state_ s == BEGIN_IMPL_FRAME_STATE_IDLE) &&
     BeginImplFrameNeeded s
  then false else
  if forced_redraw_state_ s == FORCED_REDRAW_STATE_WAITING_FOR_COMMIT then true else
  if HasSentBeginMainFrameThisFrame s then false else
  if !(HasInitializedOutputSurface s) then false else
  if skip_begin_main_frame_to_reduce_latency_ s then false else
  true.

(* src: cc/scheduler/scheduler_state_machine.cc 500-502 ShouldCommit *)
Definition ShouldCommit s : bool := commit_state_ s == COMMIT_STATE_READY_TO_COMMIT.

(* src: cc/scheduler/scheduler_state_machine.cc 504-518 ShouldManageTiles *)
Definition ShouldManageTiles s : bool :=
  if last_frame_number_manage_tiles_called_ s =? current_frame_number_ s then false else
  if (begin_impl_frame_state_ s != BEGIN_IMPL_FRAME_STATE_INSIDE_DEADLINE) &&
     !(inside_poll_for_anticipated_draw_triggers_ s)
  then false else
  needs_manage_tiles_ s.

(* src: cc/scheduler/scheduler_state_machine.cc 520-546 NextAction *)
Definition NextAction s : option Action :=
  acquire ← ShouldAcquireLayerTexturesForMainThread s;
  if acquire : bool then Some ACTION_ACQUIRE_LAYER_TEXTURES_FOR_MAIN_THREAD else
  if ShouldUpdateVisibleTiles s then Some ACTION_UPDATE_VISIBLE_TILES else
  if ShouldActivatePendingTree s then Some ACTION_ACTIVATE_PENDING_TREE else
  if ShouldCommit s then Some ACTION_COMMIT else
  draw ← ShouldDraw s;
  if draw : bool then
    if readback_state_ s == READBACK_STATE_WAITING_FOR_DRAW_AND_READBACK
    then Some ACTION_DRAW_AND_READBACK
    else if PendingDrawsShouldBeAborted s then Some ACTION_DRAW_AND_SWAP_ABORT
    else if forced_redraw_state_ s == FORCED_REDRAW_STATE_WAITING_FOR_DRAW
    then Some ACTION_DRAW_AND_SWAP_FORCED
    else Some ACTION_DRAW_AND_SWAP_IF_POSSIBLE
  else
  if ShouldManageTiles s then Some ACTION_MANAGE_TILES else
  if ShouldSendBeginMainFrame s then Some ACTION_SEND_BEGIN_MAIN_FRAME else
  if ShouldBeginOutputSurfaceCreation s then Some ACTION_BEGIN_OUTPUT_SURFACE_CREATION else
  Some ACTION_NONE.

(* src: cc/scheduler/scheduler_state_machine.cc 548-553 CheckInvariants *)
Definition CheckInvariants s : option unit :=
  DCHECK (!((forced_redraw_state_ s == FORCED_REDRAW_STATE_WAITING_FOR_DRAW) &&
            (readback_state_ s == READBACK_STATE_WAITING_FOR_DRAW_AND_READBACK))).

(* src: cc/scheduler/scheduler_state_machine.cc 909-939 ShouldTriggerBeginImplFrameDeadlineEarly *)
Definition ShouldTriggerBeginImplFrameDeadlineEarly s : bool :=
  if readback_state_ s != READBACK_STATE_IDLE then false else
  if begin_impl_frame_state_ s != BEGIN_IMPL_FRAME_STATE_INSIDE_BEGIN_FRAME then false else
  if active_tree_needs_first_draw_ s then true else
  if !(needs_redraw_ s) then false else
  if (commit_state_ s == COMMIT_STATE_IDLE) && !(has_pending_tree_ s) then true else
  if smoothness_takes_priority_ s then true else
  false.

(* src: cc/scheduler/scheduler_state_machine.cc 941-977 MainThreadIsInHighLatencyMode *)
Definition MainThreadIsInHighLatencyMode s : bool :=
  if (last_frame_number_begin_main_frame_sent_ s =? current_frame_number_ s) &&
     ((begin_impl_frame_state_ s == BEGIN_IMPL_FRAME_STATE_BEGIN_FRAME_STARTING) ||
      (begin_impl_frame_state_ s == BEGIN_IMPL_FRAME_STATE_INSIDE_BEGIN_FRAME))
  then false else
  if (commit_state_ s == COMMIT_STATE_FRAME_IN_PROGRESS) ||
     (commit_state_ s == COMMIT_STATE_READY_TO_COMMIT)
  then true else
  if has_pending_tree_ s then true else
  if begin_impl_frame_state_ s == BEGIN_IMPL_FRAME_STATE_INSIDE_DEADLINE then
    (active_tree_needs_first_draw_ s ||
     (last_frame_number_swap_performed_ s =? current_frame_number_ s)) &&
    !(last_frame_number_begin_main_frame_sent_ s =? current_frame_number_ s)
  else active_tree_needs_first_draw_ s.

(** ** State changes *)

(* src: cc/scheduler/scheduler_state_machine.cc 624-706 UpdateStateOnCommit *)
Definition UpdateStateOnCommit (commit_was_aborted : bool) s : option StateMachine :=
  let s := s <| commit_count_ := s32 (commit_count_ s + 1) |> in
  let pending := impl_side_painting settings_ && !commit_was_aborted in
  let s := s <| has_pending_tree_ := pending |> in
  s ← (if readback_state_ s == READBACK_STATE_WAITING_FOR_COMMIT then
         Some s <| readback_state_ := if pending
                     then READBACK_STATE_WAITING_FOR_ACTIVATION
                     else READBACK_STATE_WAITING_FOR_DRAW_AND_READBACK |>
       else if readback_state_ s == READBACK_STATE_WAITING_FOR_REPLACEMENT_COMMIT then
         Some s <| readback_state_ := if pending
                     then READBACK_STATE_WAITING_FOR_REPLACEMENT_ACTIVATION
                     else READBACK_STATE_IDLE |>
       else DCHECK (readback_state_ s == READBACK_STATE_IDLE) ;; Some s);
  s ← (if (readback_state_ s == READBACK_STATE_IDLE) ||
          (readback_state_ s == READBACK_STATE_WAITING_FOR_REPLACEMENT_ACTIVATION) then
         let s := if forced_redraw_state_ s == FORCED_REDRAW_STATE_WAITING_FOR_COMMIT
                  then s <| forced_redraw_state_ := if pending
                              then FORCED_REDRAW_STATE_WAITING_FOR_ACTIVATION
                              else FORCED_REDRAW_STATE_WAITING_FOR_DRAW |>
                  else s in
         DCHECK (output_surface_state_ s != OUTPUT_SURFACE_WAITING_FOR_FIRST_ACTIVATION) ;;
         Some (if output_surface_state_ s == OUTPUT_SURFACE_WAITING_FOR_FIRST_COMMIT then
                 if pending
                 then s <| output_surface_state_ := OUTPUT_SURFACE_WAITING_FOR_FIRST_ACTIVATION |>
                 else s <| output_surface_state_ := OUTPUT_SURFACE_ACTIVE |>
                        <| needs_redraw_ := true |>
               else s)
       else Some s);
  s ← (if !commit_was_aborted then
         DCHECK (commit_state_ s == COMMIT_STATE_READY_TO_COMMIT) ;;
         Some s <| commit_state_ := COMMIT_STATE_WAITING_FOR_FIRST_DRAW |>
       else if (readback_state_ s != READBACK_STATE_IDLE) ||
               (forced_redraw_state_ s != FORCED_REDRAW_STATE_IDLE)
       then Some s <| commit_state_ := COMMIT_STATE_WAITING_FOR_FIRST_DRAW |>
       else Some s <| commit_state_ := COMMIT_STATE_IDLE |>);
  let s := if !pending &&
              (!commit_was_aborted ||
               (readback_state_ s == READBACK_STATE_WAITING_FOR_DRAW_AND_READBACK) ||
               (forced_redraw_state_ s == FORCED_REDRAW_STATE_WAITING_FOR_DRAW))
           then s <| needs_redraw_ := true |> <| active_tree_needs_first_draw_ := true |>
           else s in
  let s := s <| pending_tree_is_ready_for_activation_ := false |> in
  let s := if draw_if_possible_failed_ s
           then s <| last_frame_number_swap_performed_ := -1 |> else s in
  Some s <| texture_state_ := if has_pending_tree_ s || needs_redraw_ s
              then LAYER_TEXTURE_STATE_ACQUIRED_BY_IMPL_THREAD
              else LAYER_TEXTURE_STATE_UNLOCKED |>.

(* src: cc/scheduler/scheduler_state_machine.cc 708-727 UpdateStateOnActivation *)
Definition UpdateStateOnActivation s : StateMachine :=
  let s := if output_surface_state_ s == OUTPUT_SURFACE_WAITING_FOR_FIRST_ACTIVATION
           then s <| output_surface_state_ := OUTPUT_SURFACE_ACTIVE |> else s in
  let s := if forced_redraw_state_ s == FORCED_REDRAW_STATE_WAITING_FOR_ACTIVATION
           then s <| forced_redraw_state_ := FORCED_REDRAW_STATE_WAITING_FOR_DRAW |> else s in
  let s := if readback_state_ s == READBACK_STATE_WAITING_FOR_ACTIVATION
           then s <| readback_state_ := READBACK_STATE_WAITING_FOR_DRAW_AND_READBACK |>
           else if readback_state_ s == READBACK_STATE_WAITING_FOR_REPLACEMENT_ACTIVATION
           then s <| readback_state_ := READBACK_STATE_IDLE |>
           else s in
  s <| has_pending_tree_ := false |>
    <| pending_tree_is_ready_for_activation_ := false |>
    <| active_tree_needs_first_draw_ := true |>
    <| needs_redraw_ := true |>.

(* src: cc/scheduler/scheduler_state_machine.cc 729-762 UpdateStateOnDraw *)
Definition UpdateStateOnDraw (did_swap : bool) s : option StateMachine :=
  DCHECK ((readback_state_ s != READBACK_STATE_WAITING_FOR_REPLACEMENT_COMMIT) &&
          (readback_state_ s != READBACK_STATE_WAITING_FOR_REPLACEMENT_ACTIVATION)) ;;
  s ← (if readback_state_ s == READBACK_STATE_WAITING_FOR_DRAW_AND_READBACK then
         DCHECK (commit_state_ s == COMMIT_STATE_WAITING_FOR_FIRST_DRAW) ;;
         DCHECK (!(has_pending_tree_ s)) ;;
         Some s <| commit_state_ := COMMIT_STATE_FRAME_IN_PROGRESS |>
                <| readback_state_ := READBACK_STATE_WAITING_FOR_REPLACEMENT_COMMIT |>
       else if forced_redraw_state_ s == FORCED_REDRAW_STATE_WAITING_FOR_DRAW then
         DCHECK (commit_state_ s == COMMIT_STATE_WAITING_FOR_FIRST_DRAW) ;;
         Some s <| commit_state_ := COMMIT_STATE_IDLE |>
                <| forced_redraw_state_ := FORCED_REDRAW_STATE_IDLE |>
       else if (commit_state_ s == COMMIT_STATE_WAITING_FOR_FIRST_DRAW) &&
               !(has_pending_tree_ s)
       then Some s <| commit_state_ := COMMIT_STATE_IDLE |>
       else Some s);
  let s := if texture_state_ s == LAYER_TEXTURE_STATE_ACQUIRED_BY_IMPL_THREAD
           then s <| texture_state_ := LAYER_TEXTURE_STATE_UNLOCKED |> else s in
  let s := s <| needs_redraw_ := false |> <| draw_if_possible_failed_ := false |>
             <| active_tree_needs_first_draw_ := false |> in
  Some (if did_swap
        then s <| last_frame_number_swap_performed_ := current_frame_number_ s |> else s).

(* src: cc/scheduler/scheduler_state_machine.cc 764-766 UpdateStateOnManageTiles *)
Definition UpdateStateOnManageTiles s : StateMachine := s <| needs_manage_tiles_ := false |>.

(* src: cc/scheduler/scheduler_state_machine.cc 555-622 UpdateState *)
Definition UpdateState (action : Action) s : option StateMachine :=
  match action with
  | ACTION_NONE => Some s
  | ACTION_UPDATE_VISIBLE_TILES =>
      Some s <| last_frame_number_update_visible_tiles_was_called_ := current_frame_number_ s |>
  | ACTION_ACTIVATE_PENDING_TREE => Some (UpdateStateOnActivation s)
  | ACTION_SEND_BEGIN_MAIN_FRAME =>
      DCHECK (!(has_pending_tree_ s)) ;;
      DCHECK (visible_ s || (readback_state_ s == READBACK_STATE_NEEDS_BEGIN_MAIN_FRAME)) ;;
      let s := s <| commit_state_ := COMMIT_STATE_FRAME_IN_PROGRESS |>
                 <| needs_commit_ := false |> in
      let s := if readback_state_ s == READBACK_STATE_NEEDS_BEGIN_MAIN_FRAME
               then s <| readback_state_ := READBACK_STATE_WAITING_FOR_COMMIT |> else s in
      Some s <| last_frame_number_begin_main_frame_sent_ := current_frame_number_ s |>
  | ACTION_COMMIT => UpdateStateOnCommit false s
  | ACTION_DRAW_AND_SWAP_FORCED | ACTION_DRAW_AND_SWAP_IF_POSSIBLE => UpdateStateOnDraw true s
  | ACTION_DRAW_AND_SWAP_ABORT | ACTION_DRAW_AND_READBACK => UpdateStateOnDraw false s
  | ACTION_BEGIN_OUTPUT_SURFACE_CREATION =>
      DCHECK (output_surface_state_ s == OUTPUT_SURFACE_LOST) ;;
      let s := s <| output_surface_state_ := OUTPUT_SURFACE_CREATING |> in
      DCHECK (commit_state_ s == COMMIT_STATE_IDLE) ;;
      DCHECK (!(has_pending_tree_ s)) ;;
      DCHECK (!(active_tree_needs_first_draw_ s)) ;;
      Some s
  | ACTION_ACQUIRE_LAYER_TEXTURES_FOR_MAIN_THREAD =>
      Some s <| texture_state_ := LAYER_TEXTURE_STATE_ACQUIRED_BY_MAIN_THREAD |>
             <| main_thread_needs_layer_textures_ := false |>
  | ACTION_MANAGE_TILES => Some (UpdateStateOnManageTiles s)
  end.

(** ** Entry points *)

(* src: cc/scheduler/scheduler_state_machine.cc 768-772 SetMainThreadNeedsLayerTextures *)
Definition SetMainThreadNeedsLayerTextures s : option StateMachine :=
  DCHECK (!(main_thread_needs_layer_textures_ s)) ;;
  DCHECK (texture_state_ s != LAYER_TEXTURE_STATE_ACQUIRED_BY_MAIN_THREAD) ;;
  Some s <| main_thread_needs_layer_textures_ := true |>.

(* src: cc/scheduler/scheduler_state_machine.cc 774-776 SetSkipBeginMainFrameToReduceLatency *)
Definition SetSkipBeginMainFrameToReduceLatency (skip : bool) s : StateMachine :=
  s <| skip_begin_main_frame_to_reduce_latency_ := skip |>.

(* src: cc/scheduler/scheduler_state_machine.cc 883-888 OnBeginImplFrame *)
Definition OnBeginImplFrame (args : BeginFrameArgs) s : option StateMachine :=
  let s := s <| current_frame_number_ := s32 (current_frame_number_ s + 1) |>
             <| last_begin_impl_frame_args_ := args |> in
  DCHECK (begin_impl_frame_state_ s == BEGIN_IMPL_FRAME_STATE_IDLE) ;;
  Some s <| begin_impl_frame_state_ := BEGIN_IMPL_FRAME_STATE_BEGIN_FRAME_STARTING |>.

(* src: cc/scheduler/scheduler_state_machine.cc 890-895 OnBeginImplFrameDeadlinePending *)
Definition OnBeginImplFrameDeadlinePending s : option StateMachine :=
  DCHECK (begin_impl_frame_state_ s == BEGIN_IMPL_FRAME_STATE_BEGIN_FRAME_STARTING) ;;
  Some s <| begin_impl_frame_state_ := BEGIN_IMPL_FRAME_STATE_INSIDE_BEGIN_FRAME |>.

(* src: cc/scheduler/scheduler_state_machine.cc 897-901 OnBeginImplFrameDeadline *)
Definition OnBeginImplFrameDeadline s : option StateMachine :=
  DCHECK (begin_impl_frame_state_ s == BEGIN_IMPL_FRAME_STATE_INSIDE_BEGIN_FRAME) ;;
  Some s <| begin_impl_frame_state_ := BEGIN_IMPL_FRAME_STATE_INSIDE_DEADLINE |>.

(* src: cc/scheduler/scheduler_state_machine.cc 903-907 OnBeginImplFrameIdle *)
Definition OnBeginImplFrameIdle s : option StateMachine :=
  DCHECK (begin_impl_frame_state_ s == BEGIN_IMPL_FRAME_STATE_INSIDE_DEADLINE) ;;
  Some s <| begin_impl_frame_state_ := BEGIN_IMPL_FRAME_STATE_IDLE |>.

(* src: cc/scheduler/scheduler_state_machine.cc 979-982 DidEnterPollForAnticipatedDrawTriggers *)
Definition DidEnterPollForAnticipatedDrawTriggers s : StateMachine :=
  s <| current_frame_number_ := s32 (current_frame_number_ s + 1) |>
    <| inside_poll_for_anticipated_draw_triggers_ := true |>.

(* src: cc/scheduler/scheduler_state_machine.cc 984-986 DidLeavePollForAnticipatedDrawTriggers *)
Definition DidLeavePollForAnticipatedDrawTriggers s : StateMachine :=
  s <| inside_poll_for_anticipated_draw_triggers_ := false |>.

(* src: cc/scheduler/scheduler_state_machine.h 214-214 SetCanStart *)
Definition SetCanStart s : StateMachine := s <| can_start_ := true |>.

(* src: cc/scheduler/scheduler_state_machine.cc 988-988 SetVisible *)
Definition SetVisible (visible : bool) s : StateMachine := s <| visible_ := visible |>.

(* src: cc/scheduler/scheduler_state_machine.cc 990-990 SetCanDraw *)
Definition SetCanDraw (can_draw : bool) s : StateMachine := s <| can_draw_ := can_draw |>.

(* src: cc/scheduler/scheduler_state_machine.cc 992-992 SetNeedsRedraw *)
Definition SetNeedsRedraw s : StateMachine := s <| needs_redraw_ := true |>.

(* src: cc/scheduler/scheduler_state_machine.cc 994-1000 SetNeedsManageTiles *)
Definition SetNeedsManageTiles s : StateMachine :=
  if !(needs_manage_tiles_ s) then s <| needs_manage_tiles_ := true |> else s.

(* src: cc/scheduler/scheduler_state_machine.cc 1002-1005 SetSwapUsedIncompleteTile *)
Definition SetSwapUsedIncompleteTile (used_incomplete_tile : bool) s : StateMachine :=
  s <| swap_used_incomplete_tile_ := used_incomplete_tile |>.

(* src: cc/scheduler/scheduler_state_machine.cc 1007-1010 SetSmoothnessTakesPriority *)
Definition SetSmoothnessTakesPriority (smoothness_takes_priority : bool) s : StateMachine :=
  s <| smoothness_takes_priority_ := smoothness_takes_priority |>.

(* src: cc/scheduler/scheduler_state_machine.cc 1012-1036 DidDrawIfPossibleCompleted *)
Definition DidDrawIfPossibleCompleted (success : bool) s : StateMachine :=
  let s := s <| draw_if_possible_failed_ := !success |> in
  if draw_if_possible_failed_ s then
    let s := s <| needs_redraw_ := true |> in
    if forced_redraw_state_ s != FORCED_REDRAW_STATE_IDLE then s else
    let s := s <| needs_commit_ := true |>
               <| consecutive_failed_draws_ := s32 (consecutive_failed_draws_ s + 1) |> in
    if timeout_and_draw_when_animation_checkerboards settings_ &&
       (maximum_number_of_failed_draws_before_draw_is_forced_ settings_ <=?
        consecutive_failed_draws_ s)
    then s <| consecutive_failed_draws_ := 0 |>
           <| forced_redraw_state_ := FORCED_REDRAW_STATE_WAITING_FOR_COMMIT |>
    else s
  else
    s <| consecutive_failed_draws_ := 0 |>
      <| forced_redraw_state_ := FORCED_REDRAW_STATE_IDLE |>.

(* src: cc/scheduler/scheduler_state_machine.cc 1038-1038 SetNeedsCommit *)
Definition SetNeedsCommit s : StateMachine := s <| needs_commit_ := true |>.

(* src: cc/scheduler/scheduler_state_machine.cc 1040-1059 SetNeedsForcedCommitForReadback *)
Definition SetNeedsForcedCommitForReadback s : option StateMachine :=
  DCHECK ((readback_state_ s == READBACK_STATE_IDLE) ||
          (readback_state_ s == READBACK_STATE_WAITING_FOR_REPLACEMENT_COMMIT)) ;;
  if commit_state_ s == COMMIT_STATE_FRAME_IN_PROGRESS
  then Some s <| readback_state_ := READBACK_STATE_WAITING_FOR_COMMIT |>
  else Some s <| readback_state_ := READBACK_STATE_NEEDS_BEGIN_MAIN_FRAME |>.

(* src: cc/scheduler/scheduler_state_machine.cc 1061-1064 FinishCommit *)
Definition FinishCommit s : option StateMachine :=
  DCHECK (commit_state_ s == COMMIT_STATE_FRAME_IN_PROGRESS) ;;
  Some s <| commit_state_ := COMMIT_STATE_READY_TO_COMMIT |>.

(* src: cc/scheduler/scheduler_state_machine.cc 1066-1076 BeginMainFrameAborted *)
Definition BeginMainFrameAborted (did_handle : bool) s : option StateMachine :=
  DCHECK (commit_state_ s == COMMIT_STATE_FRAME_IN_PROGRESS) ;;
  if did_handle then UpdateStateOnCommit true s
  else
    DCHECK (readback_state_ s != READBACK_STATE_WAITING_FOR_COMMIT) ;;
    Some (SetNeedsCommit s <| commit_state_ := COMMIT_STATE_IDLE |>).

(* src: cc/scheduler/scheduler_state_machine.cc 1078-1081 DidManageTiles *)
Definition DidManageTiles s : StateMachine :=
  s <| needs_manage_tiles_ := false |>
    <| last_frame_number_manage_tiles_called_ := current_frame_number_ s |>.

(* src: cc/scheduler/scheduler_state_machine.cc 1083-1090 DidLoseOutputSurface *)
Definition DidLoseOutputSurface s : StateMachine :=
  if (output_surface_state_ s == OUTPUT_SURFACE_LOST) ||
     (output_surface_state_ s == OUTPUT_SURFACE_CREATING)
  then s
  else s <| output_surface_state_ := OUTPUT_SURFACE_LOST |>
         <| needs_redraw_ := false |>
         <| begin_impl_frame_state_ := BEGIN_IMPL_FRAME_STATE_IDLE |>.

(* src: cc/scheduler/scheduler_state_machine.cc 1092-1095 NotifyReadyToActivate *)
Definition NotifyReadyToActivate s : StateMachine :=
  if has_pending_tree_ s then s <| pending_tree_is_ready_for_activation_ := true |> else s.

(* src: cc/scheduler/scheduler_state_machine.cc 1097-1107 DidCreateAndInitializeOutputSurface *)
Definition DidCreateAndInitializeOutputSurface s : option StateMachine :=
  DCHECK (output_surface_state_ s == OUTPUT_SURFACE_CREATING) ;;
  let s := s <| output_surface_state_ := OUTPUT_SURFACE_WAITING_FOR_FIRST_COMMIT |> in
  let s := if did_create_and_initialize_first_output_surface_ s
           then s <| needs_commit_ := true |> else s in
  Some s <| did_create_and_initialize_first_output_surface_ := true |>.

End StateMachine.
