(* ===== verification/SchedulerProperties.v ===== *)
(** What the invariant of the scheduling state machine gives its owner: no
    check fails, drawing happens when it may, a readback follows its protocol,
    and a quiescent state is not stuck. *)
From S2P Require Import Prelude SchedulerStateMachine SchedulerInvariants.
From stdpp Require Import relations.

Section Properties.
Variable settings_ : SchedulerSettings.
Implicit Types s t : StateMachine.

(** *** What a quiescent state looks like *)

Lemma no_tree_when_quiet s :
  Inv s -> NextAction settings_ s = Some ACTION_NONE ->
  commit_state_ s <> COMMIT_STATE_READY_TO_COMMIT /\
  readback_state_ s <> READBACK_STATE_WAITING_FOR_DRAW_AND_READBACK /\
  (PendingActivationsShouldBeForced s = true ->
   has_pending_tree_ s = false /\ active_tree_needs_first_draw_ s = false).
Proof.
  intros HI. unfold NextAction.
  destruct (ShouldAcquireLayerTexturesForMainThread s) as [[]|]; cbn; [done| |done].
  case_if; [done|]. destruct (ShouldActivatePendingTree s) eqn:HAct; [done|].
  unfold ShouldCommit. case_if; [done|]. to_prop.
  destruct (ShouldDraw s) as [d|] eqn:HD; cbn; [|done]. destruct d; [repeat case_if; done|].
  intros _. split; [done|]. unfold ShouldDraw in HD. rewrite !DCHECK_bind in HD.
  pose proof (inv_readback s HI) as HR.
  split.
  { intros E. rewrite E in HD, HR. cbn in HD. destruct HR as [HR _].
    rewrite (inv_active s HI HR) in HD. done. }
  intros HF. unfold ShouldActivatePendingTree in HAct. rewrite HF in HAct.
  assert (has_pending_tree_ s = false) as HP.
  { destruct (has_pending_tree_ s) eqn:E; [|done].
    apply (inv_pending s HI) in E as [_ E]. by rewrite E in HAct. }
  split; [done|]. destruct (active_tree_needs_first_draw_ s) eqn:HA; [|done].
  pose proof (inv_active s HI HA) as HC.
  unfold PendingDrawsShouldBeAborted in HD. rewrite HF in HD.
  destruct (readback_state_ s); cbn in *; try congruence; by rewrite HC in HD.
Qed.

(** *** Which way a readback moves *)

(** The edges of the readback protocol. *)
Inductive readback_edge : SynchronousReadbackState -> SynchronousReadbackState -> Prop :=
  | edge_request : readback_edge READBACK_STATE_IDLE READBACK_STATE_NEEDS_BEGIN_MAIN_FRAME
  | edge_behind_frame : readback_edge READBACK_STATE_IDLE READBACK_STATE_WAITING_FOR_COMMIT
  | edge_frame_sent :
      readback_edge READBACK_STATE_NEEDS_BEGIN_MAIN_FRAME READBACK_STATE_WAITING_FOR_COMMIT
  | edge_commit_tree :
      readback_edge READBACK_STATE_WAITING_FOR_COMMIT READBACK_STATE_WAITING_FOR_ACTIVATION
  | edge_commit :
      readback_edge READBACK_STATE_WAITING_FOR_COMMIT READBACK_STATE_WAITING_FOR_DRAW_AND_READBACK
  | edge_activate :
      readback_edge READBACK_STATE_WAITING_FOR_ACTIVATION
        READBACK_STATE_WAITING_FOR_DRAW_AND_READBACK
  | edge_draw :
      readback_edge READBACK_STATE_WAITING_FOR_DRAW_AND_READBACK
        READBACK_STATE_WAITING_FOR_REPLACEMENT_COMMIT
  | edge_replaced_tree :
      readback_edge READBACK_STATE_WAITING_FOR_REPLACEMENT_COMMIT
        READBACK_STATE_WAITING_FOR_REPLACEMENT_ACTIVATION
  | edge_replaced : readback_edge READBACK_STATE_WAITING_FOR_REPLACEMENT_COMMIT READBACK_STATE_IDLE
  | edge_back_to_back :
      readback_edge READBACK_STATE_WAITING_FOR_REPLACEMENT_COMMIT READBACK_STATE_WAITING_FOR_COMMIT
  | edge_back_to_back_idle :
      readback_edge READBACK_STATE_WAITING_FOR_REPLACEMENT_COMMIT
        READBACK_STATE_NEEDS_BEGIN_MAIN_FRAME
  | edge_replacement_active :
      readback_edge READBACK_STATE_WAITING_FOR_REPLACEMENT_ACTIVATION READBACK_STATE_IDLE.

Definition readback_moves s t : Prop :=
  readback_state_ t = readback_state_ s \/ readback_edge (readback_state_ s) (readback_state_ t).

Hint Constructors readback_edge : core.
Ltac close_edge := first [by left | right; cbn; constructor].

Lemma commit_readback s (aborted : bool) :
  passes (UpdateStateOnCommit settings_ aborted s) (fun _ => True) ->
  passes (UpdateStateOnCommit settings_ aborted s) (readback_moves s).
Proof.
  destruct settings_ as [? isp ? ? ? ? ?]. open_state s. unfold readback_moves.
  destruct R, isp, aborted, F, O, C; run_state; try done; intros _; destruct df, nr; close_edge.
Qed.

Lemma draw_readback s (did_swap : bool) t :
  UpdateStateOnDraw did_swap s = Some t -> readback_moves s t.
Proof.
  unfold readback_moves. open_state s. unfold UpdateStateOnDraw.
  destruct R, C, F, P; cbn; intros [= <-]; destruct X, did_swap; close_edge.
Qed.

Lemma activation_readback s : readback_moves s (UpdateStateOnActivation s).
Proof. open_state s. unfold readback_moves. destruct R, F, O; close_edge. Qed.

Lemma action_readback s a t :
  UpdateState settings_ a s = Some t -> readback_moves s t.
Proof.
  destruct a; cbn; intros H; try (injection H as <-; by left).
  - rewrite !DCHECK_bind in H. returns H; injection H as <-;
    unfold readback_moves; open_state s; destruct R; try discriminate; close_edge.
  - pose proof (commit_readback s false) as Hc. rewrite H in Hc. by apply Hc.
  - injection H as <-. apply activation_readback.
  - by eapply draw_readback.
  - by eapply draw_readback.
  - by eapply draw_readback.
  - by eapply draw_readback.
  - rewrite !DCHECK_bind in H. returns H; injection H as <-; by left.
Qed.

Lemma event_readback s e t :
  allowed e s = true -> handle settings_ e s = Some t -> readback_moves s t.
Proof.
  destruct e; cbn; intros Ha H; try (injection H as <-; by left).
  - injection H as <-. unfold SetNeedsManageTiles. case_if; by left.
  - injection H as <-. unfold DidDrawIfPossibleCompleted.
    destruct success; cbn; repeat case_if; by left.
  - apply andb_true_iff in Ha as [Ha _]. unfold SetNeedsForcedCommitForReadback in H.
    rewrite Ha in H. unfold readback_moves. open_state s.
    destruct R; try discriminate Ha; destruct C; injection H as <-; close_edge.
  - unfold FinishCommit in H. rewrite DCHECK_bind in H. returns H; injection H as <-; by left.
  - apply andb_true_iff in Ha as [Ha _]. unfold BeginMainFrameAborted in H. rewrite Ha in H.
    destruct did_handle; cbn in H.
    + pose proof (commit_readback s true) as Hc. rewrite H in Hc. by apply Hc.
    + rewrite DCHECK_bind in H. returns H; injection H as <-; by left.
  - unfold SetMainThreadNeedsLayerTextures in H. rewrite !DCHECK_bind in H. returns H; injection H as <-; by left.
  - injection H as <-. unfold NotifyReadyToActivate. case_if; by left.
  - injection H as <-. unfold DidLoseOutputSurface. case_if; by left.
  - unfold DidCreateAndInitializeOutputSurface in H. rewrite DCHECK_bind in H. returns H; injection H as <-; by left.
  - unfold OnBeginImplFrame in H. rewrite DCHECK_bind in H. returns H; injection H as <-; by left.
  - unfold OnBeginImplFrameDeadlinePending in H. rewrite DCHECK_bind in H. returns H; injection H as <-; by left.
  - unfold OnBeginImplFrameDeadline in H. rewrite DCHECK_bind in H. returns H; injection H as <-; by left.
  - unfold OnBeginImplFrameIdle in H. rewrite DCHECK_bind in H. returns H; injection H as <-; by left.
Qed.

(** *** One swap a frame *)

(** A run with the calls and actions it is made of. *)
Inductive run s : list (Event + Action) -> StateMachine -> Prop :=
  | run_nil : run s [] s
  | run_event e t l u :
      allowed e s = true -> handle settings_ e s = Some t -> run t l u -> run s (inl e :: l) u
  | run_action a t l u :
      NextAction settings_ s = Some a -> UpdateState settings_ a s = Some t ->
      run t l u -> run s (inr a :: l) u.

Definition starts_frame (e : Event) : bool :=
  match e with EvOnBeginImplFrame _ | EvDidEnterPoll => true | _ => false end.

Definition swaps (a : Action) : bool :=
  match a with
  | ACTION_DRAW_AND_SWAP_IF_POSSIBLE | ACTION_DRAW_AND_SWAP_FORCED => true
  | _ => false
  end.

(** Neither a new frame nor the report of a failed draw. *)
Definition same_frame (x : Event + Action) : bool :=
  match x with
  | inl (EvDidDrawIfPossibleCompleted success) => success
  | inl e => !(starts_frame e)
  | inr _ => true
  end.

Definition swapped s : Prop :=
  HasSwappedThisFrame s = true /\ draw_if_possible_failed_ s = false.

Lemma commit_swapped s (aborted : bool) t :
  swapped s -> UpdateStateOnCommit settings_ aborted s = Some t -> swapped t.
Proof.
  unfold swapped, HasSwappedThisFrame. intros [Hs Hf].
  destruct settings_ as [? isp ? ? ? ? ?]. open_state s. subst df.
  destruct R, isp, aborted, F, O, C; run_state; try discriminate; intros [= <-]; auto.
Qed.

Lemma draw_swapped s (did_swap : bool) t :
  swapped s \/ did_swap = true -> UpdateStateOnDraw did_swap s = Some t -> swapped t.
Proof.
  unfold swapped, HasSwappedThisFrame. open_state s. unfold UpdateStateOnDraw.
  destruct R, C, F, P; cbn; intros Hs [= <-]; destruct X, did_swap; cbn;
    rewrite ?Z.eqb_refl; try done; (destruct Hs as [[Hs _]|]; [by rewrite Hs|discriminate]).
Qed.

Lemma action_swapped s a t :
  swapped s -> UpdateState settings_ a s = Some t -> swapped t.
Proof.
  intros Hs H. destruct a; cbn in H; try (injection H as <-; exact Hs).
  - rewrite !DCHECK_bind in H. returns H; injection H as <-; exact Hs.
  - by eapply commit_swapped.
  - injection H as <-. unfold UpdateStateOnActivation. repeat case_if; exact Hs.
  - eapply draw_swapped; [by left|exact H].
  - eapply draw_swapped; [by left|exact H].
  - eapply draw_swapped; [by left|exact H].
  - eapply draw_swapped; [by left|exact H].
  - rewrite !DCHECK_bind in H. returns H; injection H as <-; exact Hs.
Qed.

Lemma event_swapped s e t :
  swapped s -> same_frame (inl e) = true -> handle settings_ e s = Some t -> swapped t.
Proof.
  intros Hs He H.
  destruct e; cbn in He, H; try discriminate He; try (injection H as <-; exact Hs);
    try (progress (unfold FinishCommit, SetMainThreadNeedsLayerTextures,
           SetNeedsForcedCommitForReadback, DidCreateAndInitializeOutputSurface,
           OnBeginImplFrameDeadlinePending, OnBeginImplFrameDeadline, OnBeginImplFrameIdle in H);
         rewrite !DCHECK_bind in H; returns H; injection H as <-; exact Hs).
  - injection H as <-. unfold SetNeedsManageTiles. case_if; exact Hs.
  - injection H as <-. rewrite He. split; [exact (proj1 Hs)|done].
  - unfold BeginMainFrameAborted in H. rewrite DCHECK_bind in H. returns H.
    + by eapply commit_swapped.
    + rewrite DCHECK_bind in H. returns H; injection H as <-; exact Hs.
  - injection H as <-. unfold NotifyReadyToActivate. case_if; exact Hs.
  - injection H as <-. unfold DidLoseOutputSurface. case_if; exact Hs.
Qed.

Lemma swapped_no_swap s a :
  swapped s -> NextAction settings_ s = Some a -> swaps a = false.
Proof.
  intros [Hs _] Ha. apply NextAction_chosen in Ha.
  destruct a; try done; cbn in Ha; destruct Ha as (_ & _ & _ & _ & Ha & _); congruence.
Qed.

Lemma run_swapped s l t :
  run s l t -> swapped s -> forallb same_frame l = true ->
  forall a, In (inr a) l -> swaps a = false.
Proof.
  induction 1 as [s|s e t l u Ha Ht Hr IH|s b t l u Ha Ht Hr IH]; cbn; intros Hs Hl a Hin.
  - done.
  - apply andb_true_iff in Hl as [He Hl]. destruct Hin as [|Hin]; [done|].
    eapply IH; eauto using event_swapped.
  - destruct Hin as [[= ->]|Hin]; [by eapply swapped_no_swap|].
    eapply IH; eauto using action_swapped.
Qed.

(** ** Frames and output surfaces

    [Scheduler::BeginImplFrame] checks that the output surface is initialized
    before it tells the state machine that a frame begins: [scheduled] states
    are reached by calls in which that check holds. *)
Definition begins_with_surface (e : Event) s : bool :=
  match e with EvOnBeginImplFrame _ => HasInitializedOutputSurface s | _ => true end.

Inductive scheduled_step s : StateMachine -> Prop :=
  | scheduled_event e t :
      allowed e s = true -> begins_with_surface e s = true -> handle settings_ e s = Some t ->
      scheduled_step s t
  | scheduled_action a t :
      NextAction settings_ s = Some a -> UpdateState settings_ a s = Some t -> scheduled_step s t.
Definition scheduled s : Prop := rtc scheduled_step initial_state s.

(** A frame is open only while the output surface is initialized. *)
Definition framed s : Prop :=
  begin_impl_frame_state_ s = BEGIN_IMPL_FRAME_STATE_IDLE \/ HasInitializedOutputSurface s = true.

Lemma commit_framed s (aborted : bool) t :
  UpdateStateOnCommit settings_ aborted s = Some t -> framed s -> framed t.
Proof.
  destruct settings_ as [? isp ? ? ? ? ?]. open_state s. unfold framed.
  destruct R, isp, aborted, F, O, C; run_state; try discriminate; destruct df, nr; run_state;
    intros [= <-]; cbn; intuition congruence.
Qed.

Lemma draw_framed s (did_swap : bool) t :
  UpdateStateOnDraw did_swap s = Some t -> framed s -> framed t.
Proof.
  unfold framed. open_state s. unfold UpdateStateOnDraw.
  destruct R, C, F, P; cbn; intros [= <-]; destruct X, did_swap; cbn; auto.
Qed.

Lemma action_framed s a t :
  NextAction settings_ s = Some a -> UpdateState settings_ a s = Some t -> framed s -> framed t.
Proof.
  intros Ha%NextAction_chosen H.
  destruct a; cbn in Ha, H; try (by eapply commit_framed); try (by eapply draw_framed);
    try (injection H as <-; done).
  - rewrite !DCHECK_bind in H. returns H; injection H as <-; done.
  - injection H as <-. unfold framed. open_state s. destruct R, F, O; cbn; auto.
  - rewrite !DCHECK_bind in H. returns H; injection H as <-.
    destruct Ha as (_ & Hl & _). unfold framed, HasInitializedOutputSurface. rewrite Hl. cbn.
    intros [?|?]; [by left|done].
Qed.

Lemma event_framed s e t :
  begins_with_surface e s = true -> handle settings_ e s = Some t -> framed s -> framed t.
Proof.
  intros He H Hs.
  destruct e; cbn in He, H; try (injection H as <-; exact Hs);
    try (progress (unfold FinishCommit, SetMainThreadNeedsLayerTextures,
           SetNeedsForcedCommitForReadback, DidCreateAndInitializeOutputSurface,
           OnBeginImplFrameDeadlinePending, OnBeginImplFrameDeadline, OnBeginImplFrameIdle,
           OnBeginImplFrame in H);
         rewrite !DCHECK_bind in H; returns H; injection H as <-;
         first [exact Hs | by left | by right | destruct Hs; [by to_prop; congruence | by right]]).
  - injection H as <-. unfold SetNeedsManageTiles. case_if; exact Hs.
  - injection H as <-. unfold DidDrawIfPossibleCompleted. unfold framed in *. open_state s.
    destruct success, F, R; cbn; repeat case_if; exact Hs.
  - unfold BeginMainFrameAborted in H. rewrite DCHECK_bind in H. returns H.
    + by eapply commit_framed.
    + rewrite DCHECK_bind in H. returns H; injection H as <-; exact Hs.
  - injection H as <-. unfold NotifyReadyToActivate. case_if; exact Hs.
  - injection H as <-. unfold DidLoseOutputSurface. case_if; [exact Hs|by left].
Qed.

Lemma scheduled_framed s : scheduled s -> framed s.
Proof.
  unfold scheduled. intros H. revert H. apply rtc_ind_r; [by left|].
  intros x y _ [e t _ He Ht|a t Ha Ht] Hx; [by eapply event_framed|by eapply action_framed].
Qed.

(** ** The properties *)

(** C1. No check of the state machine can fail: in every state reached by
    allowed calls and by carrying out the chosen actions, each allowed call
    succeeds, [CheckInvariants] holds, and [NextAction] and the [UpdateState]
    of the action it returns succeed. *)
Theorem reachable_no_failed_check s :
  reachable settings_ s ->
  (forall e, allowed e s = true -> exists t, handle settings_ e s = Some t) /\
  CheckInvariants s = Some tt /\
  exists a t, NextAction settings_ s = Some a /\ UpdateState settings_ a s = Some t.
Proof.
  intros Hs%reachable_Inv. split_and!.
  - intros e He. pose proof (Inv_event settings_ s e Hs He) as [t [? _]]%passes_Some. eauto.
  - unfold CheckInvariants. pose proof (inv_readback s Hs) as HR.
    destruct (readback_state_ s), (forced_redraw_state_ s); try done.
    by destruct HR as [_ [|]].
  - destruct (NextAction_defined settings_ s Hs) as [a Ha]. exists a.
    pose proof (Inv_action settings_ s a Hs Ha) as [t [? _]]%passes_Some. eauto.
Qed.

(** C2. At most one swap a frame, and only when it is allowed.  In any state, an
    action that swaps is chosen only inside the deadline of a frame that has not
    swapped, for a visible compositor that can draw, while the output surface is
    not lost, the main thread does not hold the layer textures and no readback is
    waiting for its replacement commit or its activation.  In the states that
    are reached when frames begin only with an initialized output surface, as
    the scheduler checks, the surface is initialized when a swap is chosen.
    After it, no later action swaps before a new frame starts or a failed draw
    is reported. *)
Theorem one_swap_per_frame s a :
  swaps a = true ->
  (NextAction settings_ s = Some a ->
   begin_impl_frame_state_ s = BEGIN_IMPL_FRAME_STATE_INSIDE_DEADLINE /\
   HasSwappedThisFrame s = false /\ visible_ s = true /\ can_draw_ s = true /\
   output_surface_state_ s <> OUTPUT_SURFACE_LOST /\
   texture_state_ s <> LAYER_TEXTURE_STATE_ACQUIRED_BY_MAIN_THREAD /\
   readback_state_ s <> READBACK_STATE_WAITING_FOR_REPLACEMENT_COMMIT /\
   readback_state_ s <> READBACK_STATE_WAITING_FOR_REPLACEMENT_ACTIVATION) /\
  (scheduled s -> NextAction settings_ s = Some a -> HasInitializedOutputSurface s = true) /\
  (forall t l u, UpdateState settings_ a s = Some t -> run t l u ->
   forallb same_frame l = true -> forall b, In (inr b) l -> swaps b = false).
Proof.
  intros Hsw. split_and!.
  - intros Ha%NextAction_chosen.
    assert (PendingDrawsShouldBeAborted s = false ->
            visible_ s = true /\ can_draw_ s = true /\
            output_surface_state_ s <> OUTPUT_SURFACE_LOST /\
            texture_state_ s <> LAYER_TEXTURE_STATE_ACQUIRED_BY_MAIN_THREAD) as HP.
    { unfold PendingDrawsShouldBeAborted, PendingActivationsShouldBeForced.
      repeat case_if; try done; intros _; to_prop; done. }
    destruct a; try discriminate Hsw; cbn in Ha; naive_solver.
  - intros [Hi|Hi]%scheduled_framed Ha%NextAction_chosen; [|done].
    destruct a; try discriminate Hsw; cbn in Ha; destruct Ha as (_ & _ & _ & _ & _ & Hd & _);
      congruence.
  - intros t l u Hu Hr Hl. eapply run_swapped; [done| |done].
    destruct a; try discriminate Hsw; cbn in Hu;
      by (eapply draw_swapped; [right|exact Hu]).
Qed.

(** C5. A commit never drops a frame: when [ACTION_COMMIT] is chosen in a
    reachable state, the tree of the previous commit has been activated and
    drawn, and a pending tree and an undrawn active tree never exist at once. *)
Theorem commit_never_drops_a_frame s :
  reachable settings_ s ->
  ~ (has_pending_tree_ s = true /\ active_tree_needs_first_draw_ s = true) /\
  (NextAction settings_ s = Some ACTION_COMMIT ->
   has_pending_tree_ s = false /\ active_tree_needs_first_draw_ s = false).
Proof.
  intros HI%reachable_Inv. pose proof (inv_pending s HI). pose proof (inv_active s HI).
  split; [naive_solver congruence|]. intros Ha%NextAction_chosen. cbn in Ha.
  split; apply not_true_is_false; naive_solver congruence.
Qed.

(** C3. A quiescent state is not deadlocked: when there is nothing to do, no
    finished commit and no readback draw is left pending, and if the output
    surface is lost after the start, the only thing that keeps its replacement
    from being created is a frame the main thread still owes. *)
Theorem quiescent_not_stuck s :
  reachable settings_ s -> NextAction settings_ s = Some ACTION_NONE ->
  commit_state_ s <> COMMIT_STATE_READY_TO_COMMIT /\
  readback_state_ s <> READBACK_STATE_WAITING_FOR_DRAW_AND_READBACK /\
  (output_surface_state_ s = OUTPUT_SURFACE_LOST -> can_start_ s = true ->
   commit_state_ s = COMMIT_STATE_FRAME_IN_PROGRESS).
Proof.
  intros HI%reachable_Inv Hn. destruct (no_tree_when_quiet s HI Hn) as (HC & HR & HF).
  split_and!; [done..|]. intros HO Hst.
  destruct HF as [HP HA].
  { unfold PendingActivationsShouldBeForced. rewrite HO. by case_if. }
  destruct (commit_state_ s) eqn:E; try done.
  - exfalso. assert (ShouldBeginOutputSurfaceCreation s = true) as HB.
    { unfold ShouldBeginOutputSurfaceCreation. by rewrite Hst, E, HP, HA, HO. }
    unfold NextAction in Hn. rewrite HB in Hn.
    destruct (ShouldAcquireLayerTexturesForMainThread s) as [[]|],
      (ShouldDraw s) as [[]|]; cbn in Hn; repeat case_if_in Hn; done.
  - destruct (inv_waiting s HI E); congruence.
Qed.

(** C4. Readbacks follow their protocol: every step, from any state, either
    leaves the readback state alone or moves it along an edge of
    [readback_edge], the cycle the source documents. *)
Theorem readback_protocol s t :
  step settings_ s t -> readback_moves s t.
Proof.
  intros [e t' Ha Ht|a t' Ha Ht].
  - by eapply event_readback.
  - by eapply action_readback.
Qed.

End Properties.

(** ** Concrete runs *)

(** Replay a script: [Some e] is a call of the owner, [None] the next action. *)
Fixpoint replay (cfg : SchedulerSettings) (script : list (option Event)) (s : StateMachine)
    : option (list (Event + Action) * StateMachine) :=
  match script with
  | [] => Some ([], s)
  | Some e :: script =>
      t ← (if allowed e s then handle cfg e s else None);
      '(l, u) ← replay cfg script t;
      Some (inl e :: l, u)
  | None :: script =>
      a ← NextAction cfg s;
      t ← UpdateState cfg a s;
      '(l, u) ← replay cfg script t;
      Some (inr a :: l, u)
  end.

Lemma replay_run cfg script s l u : replay cfg script s = Some (l, u) -> run cfg s l u.
Proof.
  revert s l. induction script as [|[e|] script IH]; intros s l H; cbn in H.
  - injection H as <- <-. constructor.
  - destruct (allowed e s) eqn:Ha; [|done]. destruct (handle cfg e s) as [t|] eqn:Ht; [|done].
    cbn in H. destruct (replay cfg script t) as [[l' u']|] eqn:Hr; [|done].
    injection H as <- <-. by econstructor; eauto.
  - destruct (NextAction cfg s) as [a|] eqn:Ha; [|done]. cbn in H.
    destruct (UpdateState cfg a s) as [t|] eqn:Ht; [|done].
    cbn in H. destruct (replay cfg script t) as [[l' u']|] eqn:Hr; [|done].
    injection H as <- <-. by econstructor; eauto.
Qed.

Lemma run_reachable cfg s l u : run cfg s l u -> reachable cfg s -> reachable cfg u.
Proof.
  induction 1 as [s|s e t l u Ha Ht Hr IH|s a t l u Ha Ht Hr IH]; intros Hs; [done| |];
    apply IH; eapply reachable_step; eauto using step_event, step_action.
Qed.

(** The state a script ends in. *)
Definition after cfg script : StateMachine :=
  match replay cfg script initial_state with Some (_, u) => u | None => initial_state end.

Lemma after_reachable cfg script :
  match replay cfg script initial_state with Some _ => true | None => false end = true ->
  reachable cfg (after cfg script).
Proof.
  unfold after. destruct (replay cfg script initial_state) as [[l u]|] eqn:H; [intros _|done].
  apply replay_run in H. eapply run_reachable; [exact H|]. apply rtc_refl.
Qed.

(** The scripts whose frames begin with an initialized surface. *)
Fixpoint surfaces_at_frames cfg (script : list (option Event)) s : bool :=
  match script with
  | [] => true
  | Some e :: script =>
      begins_with_surface e s &&
      match handle cfg e s with Some t => surfaces_at_frames cfg script t | None => true end
  | None :: script =>
      match (a ← NextAction cfg s; UpdateState cfg a s) with
      | Some t => surfaces_at_frames cfg script t
      | None => true
      end
  end.

Lemma replay_scheduled cfg script s l u :
  replay cfg script s = Some (l, u) -> surfaces_at_frames cfg script s = true ->
  scheduled cfg s -> scheduled cfg u.
Proof.
  revert s l. induction script as [|[e|] script IH]; intros s l H Hb Hs; cbn in H, Hb.
  - by injection H as <- <-.
  - destruct (allowed e s) eqn:Ha; [|done]. destruct (handle cfg e s) as [t|] eqn:Ht; [|done].
    cbn in H. destruct (replay cfg script t) as [[l' u']|] eqn:Hr; [|done].
    injection H as <- <-. apply andb_true_iff in Hb as [Hb ?].
    eapply IH; [exact Hr|done|]. eapply rtc_r; [exact Hs|by eapply scheduled_event].
  - destruct (NextAction cfg s) as [a|] eqn:Ha; [|done]. cbn in H, Hb.
    destruct (UpdateState cfg a s) as [t|] eqn:Ht; [|done].
    cbn in H. destruct (replay cfg script t) as [[l' u']|] eqn:Hr; [|done].
    injection H as <- <-. eapply IH; [exact Hr|done|].
    eapply rtc_r; [exact Hs|by eapply scheduled_action].
Qed.

Lemma after_scheduled cfg script :
  match replay cfg script initial_state with Some _ => true | None => false end = true ->
  surfaces_at_frames cfg script initial_state = true -> scheduled cfg (after cfg script).
Proof.
  unfold after. destruct (replay cfg script initial_state) as [[l u]|] eqn:H; [intros _ Hb|done].
  eapply replay_scheduled; [exact H|exact Hb|apply rtc_refl].
Qed.

(** Start up, get an output surface, commit, and reach the deadline of the
    first frame with impl-side painting. *)
Definition painting_settings : SchedulerSettings :=
  {| deadline_scheduling_enabled := true; impl_side_painting := true;
     timeout_and_draw_when_animation_checkerboards := true;
     maximum_number_of_failed_draws_before_draw_is_forced_ := 3;
     using_synchronous_renderer_compositor := false; throttle_frame_production := true;
     switch_to_low_latency_if_possible := false |}.

Definition sample_args : BeginFrameArgs :=
  {| frame_time := 100000; deadline := 110000; interval := 16666 |}.

Definition start_script : list (option Event) :=
  [Some EvSetCanStart; Some (EvSetVisible true); Some (EvSetCanDraw true); None;
   Some EvDidCreateAndInitializeOutputSurface; Some EvSetNeedsCommit; None].
Definition commit_script : list (option Event) :=
  start_script ++ [Some EvFinishCommit; None].
Definition deadline_script : list (option Event) :=
  commit_script ++ [Some EvNotifyReadyToActivate; None;
    Some (EvOnBeginImplFrame sample_args);
    Some EvOnBeginImplFrameDeadlinePending; Some EvOnBeginImplFrameDeadline].

Lemma reachable_no_failed_check_witness :
  reachable painting_settings (after painting_settings deadline_script) /\
  exists a t, NextAction painting_settings (after painting_settings deadline_script) = Some a /\
    UpdateState painting_settings a (after painting_settings deadline_script) = Some t.
Proof.
  assert (reachable painting_settings (after painting_settings deadline_script)) as H
    by (apply after_reachable; vm_compute; reflexivity).
  split; [exact H|]. apply (reachable_no_failed_check painting_settings _ H).
Defined.

Definition after_swap : StateMachine :=
  match UpdateState painting_settings ACTION_DRAW_AND_SWAP_IF_POSSIBLE
          (after painting_settings deadline_script) with
  | Some t => t | None => initial_state end.
Definition rest_of_frame : list (Event + Action) * StateMachine :=
  match replay painting_settings
          [Some (EvDidDrawIfPossibleCompleted true); Some EvSetNeedsRedraw; None; None]
          after_swap with
  | Some r => r | None => ([], initial_state) end.

Lemma one_swap_per_frame_witness :
  NextAction painting_settings (after painting_settings deadline_script)
    = Some ACTION_DRAW_AND_SWAP_IF_POSSIBLE /\
  needs_redraw_ (snd rest_of_frame) = true /\
  HasInitializedOutputSurface (after painting_settings deadline_script) = true /\
  In (inr ACTION_NONE) (fst rest_of_frame) /\ swaps ACTION_NONE = false.
Proof.
  split; [vm_compute; reflexivity|]. split; [vm_compute; reflexivity|].
  split.
  { apply (one_swap_per_frame painting_settings (after painting_settings deadline_script)
             ACTION_DRAW_AND_SWAP_IF_POSSIBLE eq_refl); [|vm_compute; reflexivity].
    apply after_scheduled; vm_compute; reflexivity. }
  assert (In (inr ACTION_NONE) (fst rest_of_frame)) as Hin by (vm_compute; auto 6).
  split; [exact Hin|].
  apply (proj2 (proj2 (one_swap_per_frame painting_settings
                  (after painting_settings deadline_script)
                  ACTION_DRAW_AND_SWAP_IF_POSSIBLE eq_refl)))
    with (t := after_swap) (l := fst rest_of_frame) (u := snd rest_of_frame);
    [vm_compute; reflexivity| |vm_compute; reflexivity|exact Hin].
  apply (replay_run painting_settings
    [Some (EvDidDrawIfPossibleCompleted true); Some EvSetNeedsRedraw; None; None]).
  vm_compute. reflexivity.
Defined.

Lemma commit_never_drops_a_frame_witness :
  ~ (has_pending_tree_ (after painting_settings commit_script) = true /\
     active_tree_needs_first_draw_ (after painting_settings commit_script) = true).
Proof.
  apply (commit_never_drops_a_frame painting_settings).
  apply after_reachable. vm_compute. reflexivity.
Defined.

(** The surface is lost while the main thread prepares a frame. *)
Definition lost_script : list (option Event) :=
  start_script ++ [Some EvDidLoseOutputSurface].

Lemma quiescent_not_stuck_witness :
  commit_state_ (after painting_settings lost_script) = COMMIT_STATE_FRAME_IN_PROGRESS.
Proof.
  apply (quiescent_not_stuck painting_settings);
    [apply after_reachable; vm_compute; reflexivity | vm_compute; reflexivity..].
Defined.

Lemma readback_protocol_witness :
  readback_moves (after painting_settings start_script)
    (after painting_settings (start_script ++ [Some EvSetNeedsForcedCommitForReadback])) /\
  readback_state_ (after painting_settings (start_script ++ [Some EvSetNeedsForcedCommitForReadback]))
    = READBACK_STATE_WAITING_FOR_COMMIT.
Proof.
  split; [|vm_compute; reflexivity]. apply (readback_protocol painting_settings).
  apply (step_event painting_settings _ EvSetNeedsForcedCommitForReadback); vm_compute; reflexivity.
Defined.
