(* ===== verification/Scheduler.v ===== *)
(** The scheduler that drives the state machine, cc/scheduler/scheduler.{h,cc}:
    its action loop, its requests for frames, its deadlines, and its client as
    an interface. *)
From S2P Require Import Prelude SchedulerStateMachine.

(** ** The client *)

(* src: cc/scheduler/scheduler.h 24-31! DrawSwapReadbackResult *)
Record DrawSwapReadbackResult := { did_draw : bool; did_swap : bool; did_readback : bool }.

(** The virtual functions of the client that the scheduler calls to have
    something done, with their arguments, and the delayed task it posts. *)
(* src: cc/scheduler/scheduler.h 33-55! SchedulerClient *)
Inductive ClientCall :=
  | SetNeedsBeginImplFrame (enable : bool)
  | ScheduledActionSendBeginMainFrame
  | ScheduledActionDrawAndSwapIfPossible
  | ScheduledActionDrawAndSwapForced
  | ScheduledActionDrawAndReadback
  | ScheduledActionCommit
  | ScheduledActionUpdateVisibleTiles
  | ScheduledActionActivatePendingTree
  | ScheduledActionBeginOutputSurfaceCreation
  | ScheduledActionAcquireLayerTexturesForMainThread
  | ScheduledActionManageTiles
  | DidAnticipatedDrawTimeChange (time : Z)
  | PostBeginImplFrameDeadlineTask (deadline : Z)
  | DidBeginImplFrameDeadline
  | PostPollTask (delay : Z).

(** The public functions a client may call, also from inside a callback. *)
Inductive SchedulerCall :=
  | CallSetCanStart
  | CallSetVisible (visible : bool)
  | CallSetCanDraw (can_draw : bool)
  | CallNotifyReadyToActivate
  | CallSetNeedsCommit
  | CallSetNeedsForcedCommitForReadback
  | CallSetNeedsRedraw
  | CallSetNeedsManageTiles
  | CallSetSwapUsedIncompleteTile (used : bool)
  | CallSetSmoothnessTakesPriority (b : bool)
  | CallSetMainThreadNeedsLayerTextures
  | CallFinishCommit
  | CallBeginMainFrameAborted (did_handle : bool)
  | CallDidManageTiles
  | CallDidLoseOutputSurface
  | CallDidCreateAndInitializeOutputSurface.

(** A client with a state of its own.  A call made while the scheduler runs
    its actions may call back into the scheduler: [client_call] gives the
    result of a draw and the calls made, in order.  Tasks posted and the
    notification at the end of a frame call nothing back. *)
Class SchedulerClient (CS : Type) := {
  client_call : ClientCall -> CS -> CS * DrawSwapReadbackResult * list SchedulerCall;
  client_notify : ClientCall -> CS -> CS;
  DrawDurationEstimate : CS -> Z;
  BeginMainFrameToCommitDurationEstimate : CS -> Z;
  CommitToActivateDurationEstimate : CS -> Z;
  FrameTime_Now : CS -> Z
}.

Section Scheduler.
Context {CS : Type} `{SchedulerClient CS}.
Variable settings_ : SchedulerSettings.

(** ** The state

    A closure that is not cancelled is [true].  [calls_] records what the
    client was asked, the latest first. *)
(* src: cc/scheduler/scheduler.h 139-154! Scheduler *)
Record Scheduler := mkScheduler {
  client_ : CS;
  last_set_needs_begin_impl_frame_ : bool;
  scheduler_args_ : BeginFrameArgs;
  begin_impl_frame_deadline_closure_ : bool;
  poll_for_draw_triggers_closure_ : bool;
  state_machine_ : StateMachine;
  inside_process_scheduled_actions_ : bool;
  inside_action_ : Action;
  calls_ : list ClientCall
}.

#[local] Instance eta_Scheduler : Eta Scheduler := fun c =>
  mkScheduler (client_ c) (last_set_needs_begin_impl_frame_ c) (scheduler_args_ c)
    (begin_impl_frame_deadline_closure_ c) (poll_for_draw_triggers_closure_ c)
    (state_machine_ c) (inside_process_scheduled_actions_ c) (inside_action_ c) (calls_ c).

(* src: cc/scheduler/scheduler.cc 16-27 Scheduler *)
Definition initial_scheduler (client : CS) : Scheduler := {|
  client_ := client;
  last_set_needs_begin_impl_frame_ := false;
  scheduler_args_ := invalid_args;
  begin_impl_frame_deadline_closure_ := false;
  poll_for_draw_triggers_closure_ := false;
  state_machine_ := initial_state;
  inside_process_scheduled_actions_ := false;
  inside_action_ := ACTION_NONE;
  calls_ := []
|}.

(* src: cc/scheduler/scheduler.h 124-126 IsInsideAction *)
Definition IsInsideAction (action : Action) (c : Scheduler) : bool := inside_action_ c == action.

(** Run an operation of the state machine. *)
Definition on_machine (f : StateMachine -> option StateMachine) (c : Scheduler) : res Scheduler :=
  s ← checked (f (state_machine_ c));
  Ok c <| state_machine_ := s |>.

(** ** Calls of the client *)

(** What a public function does before [ProcessScheduledActions]. *)
(* src: cc/scheduler/scheduler.cc 31-122! Scheduler::SetCanStart *)
Definition scheduler_call (call : SchedulerCall) (c : Scheduler) : res Scheduler :=
  match call with
  | CallSetCanStart => on_machine (fun s => Some (SetCanStart s)) c
  | CallSetVisible b => on_machine (fun s => Some (SetVisible b s)) c
  | CallSetCanDraw b => on_machine (fun s => Some (SetCanDraw b s)) c
  | CallNotifyReadyToActivate => on_machine (fun s => Some (NotifyReadyToActivate s)) c
  | CallSetNeedsCommit => on_machine (fun s => Some (SetNeedsCommit s)) c
  | CallSetNeedsForcedCommitForReadback =>
      on_machine (fun s => SetNeedsForcedCommitForReadback (SetNeedsCommit s)) c
  | CallSetNeedsRedraw => on_machine (fun s => Some (SetNeedsRedraw s)) c
  | CallSetNeedsManageTiles =>
      checked (DCHECK (!(IsInsideAction ACTION_MANAGE_TILES c))) ;;
      on_machine (fun s => Some (SetNeedsManageTiles s)) c
  | CallSetSwapUsedIncompleteTile b => on_machine (fun s => Some (SetSwapUsedIncompleteTile b s)) c
  | CallSetSmoothnessTakesPriority b =>
      on_machine (fun s => Some (SetSmoothnessTakesPriority b s)) c
  | CallSetMainThreadNeedsLayerTextures => on_machine SetMainThreadNeedsLayerTextures c
  | CallFinishCommit => on_machine FinishCommit c
  | CallBeginMainFrameAborted b => on_machine (BeginMainFrameAborted settings_ b) c
  | CallDidManageTiles => on_machine (fun s => Some (DidManageTiles s)) c
  | CallDidLoseOutputSurface =>
      let c := c <| last_set_needs_begin_impl_frame_ := false |>
                 <| begin_impl_frame_deadline_closure_ := false |> in
      on_machine (fun s => Some (DidLoseOutputSurface s)) c
  | CallDidCreateAndInitializeOutputSurface =>
      checked (DCHECK (!(last_set_needs_begin_impl_frame_ c))) ;;
      checked (DCHECK (!(begin_impl_frame_deadline_closure_ c))) ;;
      on_machine DidCreateAndInitializeOutputSurface c
  end.

Fixpoint scheduler_calls (calls : list SchedulerCall) (c : Scheduler) : res Scheduler :=
  match calls with
  | [] => Ok c
  | call :: calls => c ← scheduler_call call c; scheduler_calls calls c
  end.

(** Ask the client, and serve the calls it makes meanwhile: they change the
    state machine, and the nested [ProcessScheduledActions] of each returns at
    once because one is running. *)
Definition ask (call : ClientCall) (c : Scheduler) : res (DrawSwapReadbackResult * Scheduler) :=
  let '(cs, result, back) := client_call call (client_ c) in
  c ← scheduler_calls back (c <| client_ := cs |> <| calls_ := call :: calls_ c |>);
  Ok (result, c).

Definition ask_ (call : ClientCall) (c : Scheduler) : res Scheduler :=
  '(_, c) ← ask call c; Ok c.

Definition notify (call : ClientCall) (c : Scheduler) : Scheduler :=
  c <| client_ := client_notify call (client_ c) |> <| calls_ := call :: calls_ c |>.

(** ** Times *)

(* src: cc/scheduler/scheduler.cc 124-137 AnticipatedDrawTime *)
Definition AnticipatedDrawTime (c : Scheduler) : Z :=
  let args := scheduler_args_ c in
  if !(last_set_needs_begin_impl_frame_ c) || (interval args <=? 0) then 0 else
  let now := FrameTime_Now (client_ c) in
  let timebase := Z.max (frame_time args) (deadline args) in
  let intervals := s64 (1 + s64 (now - timebase) `quot` interval args) in
  s64 (timebase + s64 (interval args * intervals)).

(* src: cc/scheduler/scheduler.cc 139-141 LastBeginImplFrameTime *)
Definition LastBeginImplFrameTime (c : Scheduler) : Z := frame_time (scheduler_args_ c).

(* src: cc/scheduler/scheduler.cc 358-367 CanCommitAndActivateBeforeDeadline *)
Definition CanCommitAndActivateBeforeDeadline (c : Scheduler) : bool :=
  let estimated_draw_time :=
    s64 (s64 (frame_time (scheduler_args_ c) +
              BeginMainFrameToCommitDurationEstimate (client_ c)) +
         CommitToActivateDurationEstimate (client_ c)) in
  estimated_draw_time <? deadline (scheduler_args_ c).

(* src: cc/scheduler/scheduler.cc 354-356 WillDrawIfNeeded *)
Definition WillDrawIfNeeded (c : Scheduler) : bool :=
  !(PendingDrawsShouldBeAborted (state_machine_ c)).

(** ** The action loop *)

(* src: cc/scheduler/scheduler.cc 236-243 PostBeginImplFrameDeadline *)
Definition PostBeginImplFrameDeadline (time : Z) (c : Scheduler) : Scheduler :=
  notify (PostBeginImplFrameDeadlineTask time)
    (c <| begin_impl_frame_deadline_closure_ := true |>).

(* src: cc/scheduler/scheduler.cc 143-181 SetupNextBeginImplFrameIfNeeded *)
Definition SetupNextBeginImplFrameIfNeeded (c : Scheduler) : res Scheduler :=
  let needs_begin_impl_frame := BeginImplFrameNeeded settings_ (state_machine_ c) in
  let at_end_of_deadline :=
    begin_impl_frame_state_ (state_machine_ c) == BEGIN_IMPL_FRAME_STATE_INSIDE_DEADLINE in
  let should_call_set_needs_begin_impl_frame :=
    (needs_begin_impl_frame && !(last_set_needs_begin_impl_frame_ c)) || at_end_of_deadline in
  c ← (if should_call_set_needs_begin_impl_frame then
         c ← ask_ (SetNeedsBeginImplFrame needs_begin_impl_frame) c;
         Ok c <| last_set_needs_begin_impl_frame_ := needs_begin_impl_frame |>
       else Ok c);
  if ShouldPollForAnticipatedDrawTriggers settings_ (state_machine_ c) then
    checked (DCHECK (!(SupportsProactiveBeginImplFrame settings_))) ;;
    checked (DCHECK (!needs_begin_impl_frame)) ;;
    if !(poll_for_draw_triggers_closure_ c) then
      Ok (notify (PostPollTask (interval (scheduler_args_ c)))
            (c <| poll_for_draw_triggers_closure_ := true |>))
    else Ok c
  else Ok c <| poll_for_draw_triggers_closure_ := false |>.

(* src: cc/scheduler/scheduler.cc 273-277 DrawAndSwapIfPossible *)
Definition DrawAndSwapIfPossible (c : Scheduler) : res Scheduler :=
  '(result, c) ← ask ScheduledActionDrawAndSwapIfPossible c;
  on_machine (fun s => Some (DidDrawIfPossibleCompleted settings_ (did_draw result) s)) c.

(* src: cc/scheduler/scheduler.cc 283-286 DrawAndReadback *)
Definition DrawAndReadback (c : Scheduler) : res Scheduler :=
  '(result, c) ← ask ScheduledActionDrawAndReadback c;
  checked (DCHECK (!(did_swap result))) ;;
  Ok c.

(** The [switch] of the loop. *)
(* src: cc/scheduler/scheduler.cc 306-344! ProcessScheduledActions *)
Definition perform (action : Action) (c : Scheduler) : res Scheduler :=
  match action with
  | ACTION_NONE => Ok c
  | ACTION_SEND_BEGIN_MAIN_FRAME => ask_ ScheduledActionSendBeginMainFrame c
  | ACTION_COMMIT => ask_ ScheduledActionCommit c
  | ACTION_UPDATE_VISIBLE_TILES => ask_ ScheduledActionUpdateVisibleTiles c
  | ACTION_ACTIVATE_PENDING_TREE => ask_ ScheduledActionActivatePendingTree c
  | ACTION_DRAW_AND_SWAP_IF_POSSIBLE => DrawAndSwapIfPossible c
  | ACTION_DRAW_AND_SWAP_FORCED => ask_ ScheduledActionDrawAndSwapForced c
  | ACTION_DRAW_AND_SWAP_ABORT => Ok c
  | ACTION_DRAW_AND_READBACK => DrawAndReadback c
  | ACTION_BEGIN_OUTPUT_SURFACE_CREATION => ask_ ScheduledActionBeginOutputSurfaceCreation c
  | ACTION_ACQUIRE_LAYER_TEXTURES_FOR_MAIN_THREAD =>
      ask_ ScheduledActionAcquireLayerTexturesForMainThread c
  | ACTION_MANAGE_TILES => ask_ ScheduledActionManageTiles c
  end.

(** One pass of the loop body. *)
(* src: cc/scheduler/scheduler.cc 295-306! ProcessScheduledActions *)
Definition loop_body (c : Scheduler) : res (Action * Scheduler) :=
  checked (CheckInvariants (state_machine_ c)) ;;
  action ← checked (NextAction settings_ (state_machine_ c));
  c ← on_machine (UpdateState settings_ action) c;
  let outer := inside_action_ c in
  c ← perform action (c <| inside_action_ := action |>);
  Ok (action, c <| inside_action_ := outer |>).

Fixpoint action_loop (fuel : nat) (c : Scheduler) : res Scheduler :=
  match fuel with
  | O => NoFuel
  | S fuel =>
      '(action, c) ← loop_body c;
      if action == ACTION_NONE then Ok c else action_loop fuel c
  end.

(* src: cc/scheduler/scheduler.cc 288-352 ProcessScheduledActions *)
Definition ProcessScheduledActions (fuel : nat) (c : Scheduler) : res Scheduler :=
  if inside_process_scheduled_actions_ c then Ok c else
  c ← action_loop fuel (c <| inside_process_scheduled_actions_ := true |>);
  c ← SetupNextBeginImplFrameIfNeeded c;
  c ← ask_ (DidAnticipatedDrawTimeChange (AnticipatedDrawTime c)) c;
  let c := if ShouldTriggerBeginImplFrameDeadlineEarly (state_machine_ c)
           then PostBeginImplFrameDeadline 0 c else c in
  Ok c <| inside_process_scheduled_actions_ := false |>.

(** ** Entry points *)

(** A public function: every one but [DidManageTiles] runs the actions. *)
(* src: cc/scheduler/scheduler.cc 31-122! Scheduler::SetCanStart *)
Definition public_call (fuel : nat) (call : SchedulerCall) (c : Scheduler) : res Scheduler :=
  c ← scheduler_call call c;
  match call with
  | CallDidManageTiles => Ok c
  | _ => ProcessScheduledActions fuel c
  end.

(* src: cc/scheduler/scheduler.cc 245-262 OnBeginImplFrameDeadline *)
Definition SchedulerOnBeginImplFrameDeadline (fuel : nat) (c : Scheduler) : res Scheduler :=
  checked (DCHECK (HasInitializedOutputSurface (state_machine_ c))) ;;
  let c := c <| begin_impl_frame_deadline_closure_ := false |> in
  c ← on_machine OnBeginImplFrameDeadline c;
  c ← ProcessScheduledActions fuel c;
  c ← (if HasInitializedOutputSurface (state_machine_ c)
       then on_machine OnBeginImplFrameIdle c else Ok c);
  Ok (notify DidBeginImplFrameDeadline c).

(* src: cc/scheduler/scheduler.cc 183-234 BeginImplFrame *)
Definition BeginImplFrame (fuel : nat) (args : BeginFrameArgs) (c : Scheduler) : res Scheduler :=
  checked (DCHECK (begin_impl_frame_state_ (state_machine_ c) == BEGIN_IMPL_FRAME_STATE_IDLE)) ;;
  checked (DCHECK (HasInitializedOutputSurface (state_machine_ c))) ;;
  let args := {| frame_time := frame_time args;
                 deadline := s64 (deadline args - DrawDurationEstimate (client_ c));
                 interval := interval args |} in
  let c := c <| scheduler_args_ := args |> in
  c ← on_machine (OnBeginImplFrame args) c;
  c ← (if switch_to_low_latency_if_possible settings_ then
         on_machine (fun s => Some (SetSkipBeginMainFrameToReduceLatency
           (MainThreadIsInHighLatencyMode s && CanCommitAndActivateBeforeDeadline c) s)) c
       else Ok c);
  c ← ProcessScheduledActions fuel c;
  if !(HasInitializedOutputSurface (state_machine_ c)) then Ok c else
  c ← on_machine OnBeginImplFrameDeadlinePending c;
  if using_synchronous_renderer_compositor settings_ then
    SchedulerOnBeginImplFrameDeadline fuel c
  else if !(deadline_scheduling_enabled settings_) then
    Ok (PostBeginImplFrameDeadline 0 c)
  else if ShouldTriggerBeginImplFrameDeadlineEarly (state_machine_ c) then
    Ok (PostBeginImplFrameDeadline 0 c)
  else if needs_redraw_ (state_machine_ c) then
    Ok (PostBeginImplFrameDeadline (deadline (scheduler_args_ c)) c)
  else
    Ok (PostBeginImplFrameDeadline
          (s64 (frame_time (scheduler_args_ c) + interval (scheduler_args_ c))) c).

(* src: cc/scheduler/scheduler.cc 264-271 PollForAnticipatedDrawTriggers *)
Definition PollForAnticipatedDrawTriggers (fuel : nat) (c : Scheduler) : res Scheduler :=
  c ← on_machine (fun s => Some (DidEnterPollForAnticipatedDrawTriggers s)) c;
  c ← ProcessScheduledActions fuel c;
  c ← on_machine (fun s => Some (DidLeavePollForAnticipatedDrawTriggers s)) c;
  Ok c <| poll_for_draw_triggers_closure_ := false |>.

End Scheduler.

#[export] Existing Instance eta_Scheduler.
