(* ===== verification/SchedulerWeight.v ===== *)
(** A measure that every action of the scheduling state machine decreases. *)
From S2P Require Import Prelude SchedulerStateMachine SchedulerInvariants.

(** ** A measure for the loop

    An upper bound of the actions a state still has to run when nobody calls
    in.  Commit, activation and draw enable further actions, so each weighs
    more than what it enables. *)
Definition weight (s : StateMachine) : nat :=
  let one (b : bool) := Nat.b2n b in
  one (main_thread_needs_layer_textures_ s) + one (!(HasUpdatedVisibleTilesThisFrame s)) +
  20 * one (commit_state_ s == COMMIT_STATE_READY_TO_COMMIT) + 10 * one (has_pending_tree_ s) +
  4 * one (!(HasSwappedThisFrame s)) + one (needs_redraw_ s) +
  one (active_tree_needs_first_draw_ s) +
  one (readback_state_ s == READBACK_STATE_WAITING_FOR_DRAW_AND_READBACK) +
  one (forced_redraw_state_ s == FORCED_REDRAW_STATE_WAITING_FOR_DRAW) +
  one (needs_manage_tiles_ s) + one (needs_commit_ s) +
  one (output_surface_state_ s == OUTPUT_SURFACE_LOST).

Arguments weight : simpl never.

Lemma weight_bound s : (weight s <= 43)%nat.
Proof.
  unfold weight. repeat match goal with |- context [Nat.b2n ?b] =>
    let H := fresh in assert (Nat.b2n b <= 1)%nat as H by (destruct b; cbn; lia);
    revert H; generalize (Nat.b2n b) end. lia.
Qed.

(** [t] is in the same part of the frame as [s], unless the output surface was
    lost meanwhile, which ends the frame. *)
Definition keeps_frame (s t : StateMachine) : Prop :=
  HasInitializedOutputSurface t = HasInitializedOutputSurface s /\
  begin_impl_frame_state_ t = begin_impl_frame_state_ s \/
  HasInitializedOutputSurface s = true /\ HasInitializedOutputSurface t = false /\
  begin_impl_frame_state_ t = BEGIN_IMPL_FRAME_STATE_IDLE.

Lemma keeps_frame_trans s1 s2 s3 :
  keeps_frame s1 s2 -> keeps_frame s2 s3 -> keeps_frame s1 s3.
Proof. unfold keeps_frame. intros [[]|(?&?&?)] [[]|(?&?&?)]; [left|right..]; intuition congruence. Qed.

Ltac same_frame := left; split; done.

Section Weight.
Variable settings_ : SchedulerSettings.
Implicit Types s t : StateMachine.

Ltac weigh :=
  unfold weight, HasUpdatedVisibleTilesThisFrame, HasSwappedThisFrame in *; cbn in *;
  repeat match goal with
  | |- context [Nat.b2n ?b] =>
    let H := fresh in assert (Nat.b2n b <= 1)%nat as H by (destruct b; cbn; lia);
    revert H; generalize (Nat.b2n b); intros ? H end;
  lia.

Lemma weight_commit s :
  commit_state_ s = COMMIT_STATE_READY_TO_COMMIT ->
  passes (UpdateStateOnCommit settings_ false s) (fun _ => True) ->
  passes (UpdateStateOnCommit settings_ false s)
    (fun t => (weight t < weight s)%nat /\ keeps_frame s t).
Proof.
  destruct settings_ as [? isp ? ? ? ? ?]. open_state s. intros ->.
  destruct R, isp, F; try (intros []; fail); destruct O, df, nr;
    lazy -[wrap_s Z.add weight keeps_frame lt]; intros []; (split; [weigh|same_frame]).
Qed.

(** The part of [UpdateStateOnDraw] before the textures are unlocked. *)
Lemma weight_draw_states s t :
  (if readback_state_ s == READBACK_STATE_WAITING_FOR_DRAW_AND_READBACK then
     DCHECK (commit_state_ s == COMMIT_STATE_WAITING_FOR_FIRST_DRAW) ;;
     DCHECK (!(has_pending_tree_ s)) ;;
     Some s <| commit_state_ := COMMIT_STATE_FRAME_IN_PROGRESS |>
            <| readback_state_ := READBACK_STATE_WAITING_FOR_REPLACEMENT_COMMIT |>
   else if forced_redraw_state_ s == FORCED_REDRAW_STATE_WAITING_FOR_DRAW then
     DCHECK (commit_state_ s == COMMIT_STATE_WAITING_FOR_FIRST_DRAW) ;;
     Some s <| commit_state_ := COMMIT_STATE_IDLE |>
            <| forced_redraw_state_ := FORCED_REDRAW_STATE_IDLE |>
   else if (commit_state_ s == COMMIT_STATE_WAITING_FOR_FIRST_DRAW) && !(has_pending_tree_ s)
   then Some s <| commit_state_ := COMMIT_STATE_IDLE |>
   else Some s) = Some t ->
  (weight t + Nat.b2n (readback_state_ s == READBACK_STATE_WAITING_FOR_DRAW_AND_READBACK)
     <= weight s)%nat /\
  HasSwappedThisFrame t = HasSwappedThisFrame s /\
  active_tree_needs_first_draw_ t = active_tree_needs_first_draw_ s /\ keeps_frame s t.
Proof.
  rewrite !DCHECK_bind. intros H. open_state s.
  repeat (case_if_in H; try discriminate); injection H as <-; (split; [|split; [done|split; [done|same_frame]]]);
    to_prop; subst; cbn; weigh.
Qed.

(** What it does then. *)
Lemma weight_drawn_tree s (did_swap : bool) :
  (if did_swap then HasSwappedThisFrame s = false else True) ->
  let t := s <| needs_redraw_ := false |> <| draw_if_possible_failed_ := false |>
             <| active_tree_needs_first_draw_ := false |> in
  let t := if did_swap
           then t <| last_frame_number_swap_performed_ := current_frame_number_ s |> else t in
  (weight t + (if did_swap then 4 else Nat.b2n (active_tree_needs_first_draw_ s)) <= weight s)%nat.
Proof.
  intros Hs. unfold weight, HasUpdatedVisibleTilesThisFrame, HasSwappedThisFrame in *.
  destruct did_swap; cbn; rewrite ?Z.eqb_refl, ?Hs; cbn; weigh.
Qed.

Lemma weight_draw s (did_swap : bool) t :
  UpdateStateOnDraw did_swap s = Some t ->
  (if did_swap then HasSwappedThisFrame s = false
   else active_tree_needs_first_draw_ s = true \/
        readback_state_ s = READBACK_STATE_WAITING_FOR_DRAW_AND_READBACK) ->
  (weight t + (if did_swap then 4 else 1)%nat <= weight s)%nat /\ keeps_frame s t.
Proof.
  intros H Hs. unfold UpdateStateOnDraw in H. rewrite DCHECK_bind in H. case_if_in H; [|done].
  apply bind_Some in H as (s1 & H1 & [= <-]). apply weight_draw_states in H1 as (Hw & Hsw & HA & Hk).
  set (x := if texture_state_ s1 == LAYER_TEXTURE_STATE_ACQUIRED_BY_IMPL_THREAD 
            then LAYER_TEXTURE_STATE_UNLOCKED else texture_state_ s1).
  replace (if texture_state_ s1 == LAYER_TEXTURE_STATE_ACQUIRED_BY_IMPL_THREAD
    then s1 <| texture_state_ := LAYER_TEXTURE_STATE_UNLOCKED |> else s1) with (s1 <| texture_state_ := x |>)
    by (subst x; case_if; by destruct s1).
  pose proof (weight_drawn_tree (s1 <| texture_state_ := x |>) did_swap) as Ht.
  split; [|destruct did_swap; exact Hk].
  change (weight (s1 <| texture_state_ := x |>)) with (weight s1) in Ht.
  destruct did_swap; [specialize (Ht ltac:(by rewrite <- Hs))|specialize (Ht I)].
  - cbn in Ht |- *. lia.
  - cbn in Ht |- *. rewrite HA in Ht. destruct Hs as [Hs|Hs]; rewrite Hs in *; cbn in *; lia.
Qed.

Lemma weight_action s a t :
  NextAction settings_ s = Some a -> UpdateState settings_ a s = Some t -> a <> ACTION_NONE ->
  (weight t + (if a == ACTION_DRAW_AND_SWAP_IF_POSSIBLE then 2 else 0)%nat < weight s)%nat /\
  keeps_frame s t.
Proof.
  intros Ha Ht Hn. apply NextAction_chosen in Ha. destruct a; cbn in Ha, Ht |- *; [done|..].
  - destruct Ha as (Hnc & HC & HP & _). rewrite !DCHECK_bind in Ht. returns Ht;
      injection Ht as <-; (split; [|same_frame]); open_state s; subst; [|weigh].
    to_prop. subst. weigh.
  - pose proof (weight_commit s Ha) as Hw. rewrite Ht in Hw. destruct (Hw I). split; [lia|assumption].
  - injection Ht as <-. destruct Ha as [Hf _]. split; [|same_frame].
    unfold weight. rewrite Hf. unfold HasUpdatedVisibleTilesThisFrame, HasSwappedThisFrame.
    cbn. rewrite Z.eqb_refl. cbn. lia.
  - injection Ht as <-. destruct Ha as [HP HA]. open_state s. subst.
    destruct R, F, O; cbn; (split; [weigh|same_frame]).
  - destruct (weight_draw s true t Ht) as [??]; [by destruct Ha as (?&?&?&?&?&_)|].
    split; [lia|assumption].
  - destruct (weight_draw s true t Ht) as [??]; [by destruct Ha as (?&?&?&?&?&_)|].
    split; [lia|assumption].
  - destruct (weight_draw s false t Ht) as [??]; [by left; destruct Ha as (?&?&?&?&?)|].
    split; [lia|assumption].
  - destruct (weight_draw s false t Ht) as [??]; [by right|]. split; [lia|assumption].
  - destruct Ha as (_ & HO & HC & HP & HA). rewrite HO, HC, HP, HA in Ht.
    cbn in Ht. rewrite ?HC, ?HP, ?HA in Ht. injection Ht as <-. open_state s. subst. split; [weigh|same_frame].
  - injection Ht as <-. destruct Ha as [Hm HX]. open_state s. subst. split; [weigh|same_frame].
  - injection Ht as <-. open_state s. subst. split; [weigh|same_frame].
Qed.

Lemma weight_drawn s b :
  (weight (DidDrawIfPossibleCompleted settings_ b s) <= weight s + 2)%nat /\
  keeps_frame s (DidDrawIfPossibleCompleted settings_ b s).
Proof.
  unfold DidDrawIfPossibleCompleted. open_state s.
  destruct b, F; cbn; repeat case_if; (split; [weigh|same_frame]).
Qed.

End Weight.
