(* ===== verification/SchedulerLoop.v ===== *)
(** The action loop of the scheduler ends, leaves nothing to do, and asks for
    the frames that are needed; a frame that is begun gets its deadline. *)
From S2P Require Import Prelude SchedulerStateMachine SchedulerInvariants Scheduler SchedulerWeight.


Lemma below_plus n s t : weight t = weight s -> (weight t <= weight s + 43 * n)%nat.
Proof. lia. Qed.

Lemma weight_any s t : (weight t <= weight s + 43 * 1)%nat.
Proof. pose proof (weight_bound t). lia. Qed.

Lemma weight_manage s : (weight (DidManageTiles s) <= weight s)%nat.
Proof.
  unfold weight. change (needs_manage_tiles_ (DidManageTiles s)) with false.
  apply Nat.add_le_mono_r, Nat.add_le_mono_r, Nat.add_le_mono; [done|apply Nat.le_0_l].
Qed.

(** A calm event keeps the weight, a request may raise it to its bound. *)
Ltac calm := intros ? [= <-]; split; [try by apply below_plus|try same_frame].
Ltac request := intros ? [= <-]; split; [apply weight_any|try same_frame].

Section Loop.
Context {CS : Type} `{SchedulerClient CS}.
Variable settings_ : SchedulerSettings.
Implicit Types c : @Scheduler CS.
Implicit Types s t : StateMachine.


(** ** The contract of a client

    The calls a client may make at any time, and those among them that never
    enable an action. *)
Definition safe_call (asked : ClientCall) (call : SchedulerCall) : bool :=
  match call with
  | CallSetCanStart | CallSetVisible _ | CallSetCanDraw _ | CallNotifyReadyToActivate
  | CallSetNeedsCommit | CallSetNeedsRedraw | CallSetSwapUsedIncompleteTile _
  | CallSetSmoothnessTakesPriority _ | CallDidManageTiles | CallDidLoseOutputSurface => true
  | CallSetNeedsManageTiles =>
      match asked with ScheduledActionManageTiles => false | _ => true end
  | _ => false
  end.

Definition calm_call (call : SchedulerCall) : bool :=
  match call with
  | CallSetCanStart | CallSetVisible _ | CallSetCanDraw _ | CallNotifyReadyToActivate
  | CallSetSwapUsedIncompleteTile _ | CallSetSmoothnessTakesPriority _ | CallDidManageTiles => true
  | _ => false
  end.

Definition client_next (call : ClientCall) (cs : CS) : CS := (client_call call cs).1.1.
Definition client_result (call : ClientCall) (cs : CS) : DrawSwapReadbackResult :=
  (client_call call cs).1.2.
Definition client_back (call : ClientCall) (cs : CS) : list SchedulerCall :=
  (client_call call cs).2.

(** How many of the calls a client makes may enable an action. *)
Definition requests (calls : list SchedulerCall) : nat :=
  length (filter (fun call => calm_call call = false) calls).
Arguments requests : simpl never.

(** [credit] bounds the requests a client still makes from inside its
    callbacks: one that answers every action with a new request keeps the loop
    running for ever. *)
Record cooperative (credit : CS -> nat) : Prop := {
  coop_safe call cs : Forall (fun b => safe_call call b = true) (client_back call cs);
  coop_credit call cs :
    (credit (client_next call cs) + requests (client_back call cs) <= credit cs)%nat;
  coop_readback cs : did_swap (client_result ScheduledActionDrawAndReadback cs) = false;
  coop_enable b cs : client_back (SetNeedsBeginImplFrame b) cs = [];
  coop_draw_time time cs : client_back (DidAnticipatedDrawTimeChange time) cs = []
}.

(** What the calls made from inside a callback may change. *)
Record follows (n : nat) c c' : Prop := {
  fo_client : client_ c' = client_ c;
  fo_inv : Inv (state_machine_ c) -> Inv (state_machine_ c');
  fo_weight : (weight (state_machine_ c') <= weight (state_machine_ c) + 43 * n)%nat;
  fo_frame : keeps_frame (state_machine_ c) (state_machine_ c');
  fo_args : scheduler_args_ c' = scheduler_args_ c;
  fo_inside : inside_process_scheduled_actions_ c' = inside_process_scheduled_actions_ c;
  fo_action : inside_action_ c' = inside_action_ c
}.

Lemma follows_refl c : follows 0 c c.
Proof. constructor; try done; [lia|same_frame]. Qed.

Lemma follows_trans n m c1 c2 c3 : follows n c1 c2 -> follows m c2 c3 -> follows (n + m) c1 c3.
Proof.
  intros [] []. constructor; try congruence; [by auto|lia|by eapply keeps_frame_trans].
Qed.

(** An event handled by the state machine. *)
Lemma follows_event n c (e : Event) (f : StateMachine -> option StateMachine) :
  allowed e (state_machine_ c) = true -> f (state_machine_ c) = handle settings_ e (state_machine_ c) ->
  (forall t, handle settings_ e (state_machine_ c) = Some t ->
   (weight t <= weight (state_machine_ c) + 43 * n)%nat /\ keeps_frame (state_machine_ c) t) ->
  Inv (state_machine_ c) ->
  exists c', on_machine f c = Ok c' /\ follows n c c'.
Proof.
  intros Ha Hf Hw HI. unfold on_machine. rewrite Hf.
  pose proof (Inv_event settings_ _ e HI Ha) as Hp.
  destruct (handle settings_ e _) as [t|]; [|done].
  destruct (Hw t eq_refl). eexists; split; [reflexivity|]. by constructor.
Qed.

Lemma safe_call_follows asked call c :
  safe_call asked call = true ->
  (inside_action_ c = ACTION_MANAGE_TILES -> asked = ScheduledActionManageTiles) ->
  Inv (state_machine_ c) ->
  exists c', scheduler_call settings_ call c = Ok c' /\
    follows (if calm_call call then 0 else 1) c c'.
Proof.
  intros Hs Hin HI.
  destruct call; try discriminate Hs; cbn [calm_call scheduler_call].
  - apply follows_event with EvSetCanStart; try done. calm.
  - apply follows_event with (EvSetVisible visible); try done. calm.
  - apply follows_event with (EvSetCanDraw can_draw); try done. calm.
  - apply follows_event with EvNotifyReadyToActivate; try done.
    intros t [= <-]. unfold NotifyReadyToActivate. case_if; (split; [|same_frame]).
    + by apply below_plus.
    + lia.
  - apply follows_event with EvSetNeedsCommit; try done. request.
  - apply follows_event with EvSetNeedsRedraw; try done. request.
  - replace (IsInsideAction _ _) with false.
    + apply follows_event with EvSetNeedsManageTiles; try done. request. cbn.
      unfold SetNeedsManageTiles. case_if; same_frame.
    + symmetry. apply not_true_iff_false. intros E%enum_eqb_true. apply Hin in E. by subst.
  - apply follows_event with (EvSetSwapUsedIncompleteTile used); try done. calm.
  - apply follows_event with (EvSetSmoothnessTakesPriority b); try done. calm.
  - apply follows_event with EvDidManageTiles; try done. calm.
    transitivity (weight (state_machine_ c)); [|lia]. apply weight_manage.
  - set (c1 := c <| last_set_needs_begin_impl_frame_ := false |>
                 <| begin_impl_frame_deadline_closure_ := false |>).
    destruct (follows_event 1 c1 EvDidLoseOutputSurface (fun s => Some (DidLoseOutputSurface s)))
      as (c' & Hc & Hf); try done.
    { request. unfold DidLoseOutputSurface. case_if; [same_frame|].
      right. split; [|done]. cbn in *.
      unfold HasInitializedOutputSurface. by destruct (output_surface_state_ _). }
    exists c'. split; [done|]. by destruct Hf.
Qed.

Lemma requests_cons call calls :
  requests (call :: calls) = ((if calm_call call then 0 else 1) + requests calls)%nat.
Proof. unfold requests. rewrite filter_cons. destruct (calm_call call); by case_decide. Qed.

Lemma safe_calls_follow asked calls c :
  Forall (fun b => safe_call asked b = true) calls ->
  (inside_action_ c = ACTION_MANAGE_TILES -> asked = ScheduledActionManageTiles) ->
  Inv (state_machine_ c) ->
  exists c', scheduler_calls settings_ calls c = Ok c' /\ follows (requests calls) c c'.
Proof.
  intros Hs. revert c. induction Hs as [|call calls Hcall _ IH]; intros c Hin HI; cbn [scheduler_calls].
  { exists c. split; [done|apply follows_refl]. }
  destruct (safe_call_follows asked call c Hcall Hin HI) as (c1 & -> & F1). cbn [mbind res_bind].
  destruct (IH c1) as (c2 & -> & F2).
  - intros E. apply Hin. by rewrite <- (fo_action _ _ _ F1).
  - by apply (fo_inv _ _ _ F1).
  - exists c2. split; [done|]. rewrite requests_cons. by eapply follows_trans.
Qed.

(** ** One action *)

Section Cooperative.
Variable credit : CS -> nat.
Hypothesis coop : cooperative credit.

(** What bounds the actions still to come, requests of the client included. *)
Definition potential c : nat := weight (state_machine_ c) + 44 * credit (client_ c).

Record serves (n : nat) c c' : Prop := {
  se_inv : Inv (state_machine_ c');
  se_potential : (potential c' <= potential c + n)%nat;
  se_frame : keeps_frame (state_machine_ c) (state_machine_ c');
  se_args : scheduler_args_ c' = scheduler_args_ c;
  se_inside : inside_process_scheduled_actions_ c' = inside_process_scheduled_actions_ c;
  se_action : inside_action_ c' = inside_action_ c
}.

Lemma ask_serves call c :
  (inside_action_ c = ACTION_MANAGE_TILES -> call = ScheduledActionManageTiles) ->
  Inv (state_machine_ c) ->
  exists c', ask settings_ call c = Ok (client_result call (client_ c), c') /\ serves 0 c c'.
Proof.
  intros Hin HI. pose proof (coop_safe _ coop call (client_ c)) as Hs.
  pose proof (coop_credit _ coop call (client_ c)) as Hc.
  unfold ask, client_result, client_next, client_back in *.
  destruct (client_call call (client_ c)) as [[cs result] back]; cbn in *.
  destruct (safe_calls_follow call back (c <| client_ := cs |> <| calls_ := call :: calls_ c |>))
    as (c' & -> & F); try done.
  exists c'. split; [done|]. destruct F as [Fc FI Fw Ff Fa Fi Fx]. cbn in *.
  constructor; [by apply FI| |done..]. unfold potential. rewrite Fc. lia.
Qed.

Lemma ask__serves call c :
  (inside_action_ c = ACTION_MANAGE_TILES -> call = ScheduledActionManageTiles) ->
  Inv (state_machine_ c) ->
  exists c', ask_ settings_ call c = Ok c' /\ serves 0 c c'.
Proof.
  intros Hin HI. destruct (ask_serves call c Hin HI) as (c' & E & F).
  exists c'. split; [|done]. unfold ask_. by rewrite E.
Qed.

Lemma perform_serves a c :
  inside_action_ c = a -> a <> ACTION_NONE -> Inv (state_machine_ c) ->
  exists c', perform settings_ a c = Ok c' /\
    serves (if a == ACTION_DRAW_AND_SWAP_IF_POSSIBLE then 2 else 0) c c'.
Proof.
  intros Hin Hn HI. destruct a; try done; cbn [perform];
    try (apply ask__serves; [by rewrite Hin|done]).
  - unfold DrawAndSwapIfPossible.
    destruct (ask_serves ScheduledActionDrawAndSwapIfPossible c) as (c1 & -> & F);
      [by rewrite Hin|done|].
    cbn [mbind res_bind].
    set (b := did_draw (client_result _ _)).
    pose proof (Inv_event settings_ _ (EvDidDrawIfPossibleCompleted b) (se_inv _ _ _ F) eq_refl) as HI1.
    destruct (weight_drawn settings_ (state_machine_ c1) b) as [Hw Hf].
    eexists; split; [reflexivity|]. destruct F as [FI Fp Ff Fa Fi Fx].
    constructor; try done; cbn.
    + unfold potential in *. cbn. lia.
    + by eapply keeps_frame_trans.
  - exists c. split; [done|]. constructor; try done; [lia|same_frame].
  - unfold DrawAndReadback.
    destruct (ask_serves ScheduledActionDrawAndReadback c) as (c1 & -> & F); [by rewrite Hin|done|].
    cbn. rewrite (coop_readback _ coop). cbn. eauto.
Qed.

Lemma loop_body_serves c :
  Inv (state_machine_ c) ->
  exists a c', loop_body settings_ c = Ok (a, c') /\
    NextAction settings_ (state_machine_ c) = Some a /\
    if a == ACTION_NONE then c' = c
    else serves 0 c c' /\ (potential c' < potential c)%nat.
Proof.
  intros HI. unfold loop_body.
  replace (CheckInvariants _) with (Some tt).
  2:{ unfold CheckInvariants. pose proof (inv_readback _ HI) as HR.
      destruct (readback_state_ (state_machine_ c)), (forced_redraw_state_ (state_machine_ c));
        try done; intuition congruence. }
  destruct (NextAction_defined settings_ _ HI) as [a Ha]. rewrite Ha. cbn.
  pose proof (Inv_action settings_ _ a HI Ha) as Hp. unfold on_machine.
  destruct (UpdateState settings_ a (state_machine_ c)) as [t|] eqn:Ht; [cbn in Hp|done]. cbn.
  destruct (decide (a = ACTION_NONE)) as [->|Hn].
  { injection Ht as <-. exists ACTION_NONE, c. split; [|done]. by destruct c. }
  destruct (weight_action settings_ _ a t Ha Ht Hn) as [Hw Hf].
  destruct (perform_serves a (c <| state_machine_ := t |> <| inside_action_ := a |>))
    as (c' & -> & F); [done..|].
  exists a. eexists. split; [reflexivity|]. split; [done|].
  destruct (enum_eqb_spec a ACTION_NONE); [done|].
  destruct F as [FI Fp Ff Fa Fi Fx]. unfold potential in *. cbn in *.
  split; [|lia]. constructor; try done; unfold potential; cbn; [lia|].
  by eapply keeps_frame_trans.
Qed.

(** ** The whole loop *)

Lemma serves_trans n c1 c2 c3 : serves 0 c1 c2 -> serves n c2 c3 -> serves n c1 c3.
Proof.
  intros [] []. constructor; try congruence; [lia|]. by eapply keeps_frame_trans.
Qed.

Lemma action_loop_serves fuel c :
  (potential c < fuel)%nat -> Inv (state_machine_ c) ->
  exists c', action_loop settings_ fuel c = Ok c' /\ serves 0 c c' /\
    NextAction settings_ (state_machine_ c') = Some ACTION_NONE.
Proof.
  revert c. induction fuel as [|fuel IH]; intros c Hf HI; [lia|]. cbn [action_loop].
  destruct (loop_body_serves c HI) as (a & c1 & -> & Ha & Hc). cbn [mbind res_bind].
  destruct (enum_eqb_spec a ACTION_NONE) as [->|_].
  - subst c1. exists c. split; [done|]. split; [|done]. constructor; try done; [lia|same_frame].
  - destruct Hc as [Hs Hp]. destruct (IH c1) as (c2 & -> & Hs2 & Hn); [lia|apply Hs|].
    exists c2. split; [done|]. split; [|done]. by eapply serves_trans.
Qed.

(** A call that calls nothing back only changes the client. *)
Lemma ask__quiet call c :
  client_back call (client_ c) = [] ->
  ask_ settings_ call c =
    Ok (c <| client_ := client_next call (client_ c) |> <| calls_ := call :: calls_ c |>).
Proof.
  unfold ask_, ask, client_back, client_next.
  destruct (client_call call (client_ c)) as [[cs result] back]; cbn. by intros ->.
Qed.

(** What [SetupNextBeginImplFrameIfNeeded] leaves behind. *)
Lemma SetupNext_spec c :
  exists c', SetupNextBeginImplFrameIfNeeded settings_ c = Ok c' /\
    state_machine_ c' = state_machine_ c /\ scheduler_args_ c' = scheduler_args_ c /\
    (begin_impl_frame_deadline_closure_ c' = begin_impl_frame_deadline_closure_ c /\
     inside_action_ c' = inside_action_ c) /\
    (BeginImplFrameNeeded settings_ (state_machine_ c) = true ->
     last_set_needs_begin_impl_frame_ c' = true) /\
    poll_for_draw_triggers_closure_ c' =
      ShouldPollForAnticipatedDrawTriggers settings_ (state_machine_ c) /\
    inside_process_scheduled_actions_ c' = inside_process_scheduled_actions_ c.
Proof.
  unfold SetupNextBeginImplFrameIfNeeded. set (needs := BeginImplFrameNeeded _ _).
  assert (exists c1, (if (needs && !(last_set_needs_begin_impl_frame_ c))
            || (begin_impl_frame_state_ (state_machine_ c) == BEGIN_IMPL_FRAME_STATE_INSIDE_DEADLINE)
      then c ← ask_ settings_ (SetNeedsBeginImplFrame needs) c;
           Ok c <| last_set_needs_begin_impl_frame_ := needs |>
      else Ok c) = Ok c1 /\
      state_machine_ c1 = state_machine_ c /\ scheduler_args_ c1 = scheduler_args_ c /\
      (begin_impl_frame_deadline_closure_ c1 = begin_impl_frame_deadline_closure_ c /\
       inside_action_ c1 = inside_action_ c) /\
      (needs = true -> last_set_needs_begin_impl_frame_ c1 = true) /\
      inside_process_scheduled_actions_ c1 = inside_process_scheduled_actions_ c)
    as (c1 & -> & Hm & Ha & Hd & Hl & Hi).
  { case_if.
    - rewrite ask__quiet by apply coop. cbn. eexists; split; [reflexivity|]. done.
    - exists c. split_and!; try done. intros ->. cbn in Heqb. by destruct (last_set_needs_begin_impl_frame_ c). }
  cbn [mbind res_bind]. rewrite Hm.
  destruct (ShouldPollForAnticipatedDrawTriggers settings_ (state_machine_ c)) eqn:Hp.
  - unfold ShouldPollForAnticipatedDrawTriggers in Hp. subst needs. unfold BeginImplFrameNeeded in *.
    destruct (SupportsProactiveBeginImplFrame settings_); [done|]. cbn in *. to_prop.
    replace (BeginImplFrameNeededToDraw (state_machine_ c)) with false in * by done. cbn.
    destruct (poll_for_draw_triggers_closure_ c1) eqn:E; cbn; eexists; (split; [reflexivity|]); done.
  - eexists; split; [reflexivity|]. done.
Qed.

Lemma process_spec fuel c :
  inside_process_scheduled_actions_ c = false ->
  (potential c < fuel)%nat -> Inv (state_machine_ c) ->
  exists c', ProcessScheduledActions settings_ fuel c = Ok c' /\
    let s := state_machine_ c' in
    Inv s /\ NextAction settings_ s = Some ACTION_NONE /\ keeps_frame (state_machine_ c) s /\
    scheduler_args_ c' = scheduler_args_ c /\
    inside_process_scheduled_actions_ c' = false /\
    (BeginImplFrameNeeded settings_ s = true -> last_set_needs_begin_impl_frame_ c' = true) /\
    poll_for_draw_triggers_closure_ c' = ShouldPollForAnticipatedDrawTriggers settings_ s /\
    (ShouldTriggerBeginImplFrameDeadlineEarly s = true ->
     begin_impl_frame_deadline_closure_ c' = true).
Proof.
  intros Hin Hf HI. unfold ProcessScheduledActions. rewrite Hin.
  destruct (action_loop_serves fuel (c <| inside_process_scheduled_actions_ := true |>))
    as (c1 & -> & [FI Fp Ff Fa Fi Fx] & Hn); [done..|]. cbn [mbind res_bind].
  destruct (SetupNext_spec c1) as (c2 & -> & Hm & Ha & [Hd Hx] & Hl & Hp & Hi).
  cbn [mbind res_bind]. rewrite ask__quiet by apply coop. cbn.
  rewrite Hm. destruct (ShouldTriggerBeginImplFrameDeadlineEarly (state_machine_ c1)) eqn:HT;
    (eexists; split; [reflexivity|]); cbn; rewrite Hm; split_and!; try done; first [congruence|by rewrite Ha].
Qed.

(** When the tasks it posts do not add to the requests of the client either,
    the actions leave no more of them than there were. *)
Definition quiet_tasks : Prop := forall call cs, (credit (client_notify call cs) <= credit cs)%nat.

Lemma ask_credit call c :
  client_back call (client_ c) = [] ->
  (credit (client_next call (client_ c)) <= credit (client_ c))%nat.
Proof. intros Hb. pose proof (coop_credit _ coop call (client_ c)). rewrite Hb in *. cbn in *. lia. Qed.

Lemma SetupNext_credit c c' :
  quiet_tasks -> SetupNextBeginImplFrameIfNeeded settings_ c = Ok c' ->
  (credit (client_ c') <= credit (client_ c))%nat.
Proof.
  intros Hq HS. unfold SetupNextBeginImplFrameIfNeeded in HS. revert HS.
  set (needs := BeginImplFrameNeeded _ _).
  pose proof (ask_credit (SetNeedsBeginImplFrame needs) c (coop_enable _ coop _ _)) as Ha.
  rewrite ask__quiet by apply coop. unfold notify. cbn [mbind res_bind].
  clearbody needs. repeat (case_if; cbn [mbind res_bind]);
    destruct (SupportsProactiveBeginImplFrame settings_), needs;
    cbn [negb DCHECK checked mbind res_bind]; try discriminate; intros [= <-]; cbn; try lia;
    (etransitivity; [apply Hq|]); cbn; lia.
Qed.

Lemma process_credit fuel c c' :
  quiet_tasks -> inside_process_scheduled_actions_ c = false ->
  (potential c < fuel)%nat -> Inv (state_machine_ c) ->
  ProcessScheduledActions settings_ fuel c = Ok c' ->
  (44 * credit (client_ c') <= potential c)%nat.
Proof.
  intros Hq Hin Hf HI. unfold ProcessScheduledActions. rewrite Hin.
  destruct (action_loop_serves fuel (c <| inside_process_scheduled_actions_ := true |>))
    as (c1 & -> & [FI Fp Ff Fa Fi Fx] & Hn); [done..|]. cbn [mbind res_bind].
  destruct (SetupNextBeginImplFrameIfNeeded settings_ c1) as [c2| |] eqn:E2; [|done..].
  pose proof (SetupNext_credit _ _ Hq E2) as H2.
  unfold potential in *. cbn in Fp. cbn [mbind res_bind]. rewrite ask__quiet by apply coop. cbn.
  pose proof (ask_credit (DidAnticipatedDrawTimeChange (AnticipatedDrawTime c2)) c2
                (coop_draw_time _ coop _ _)) as H3.
  case_if; intros [= <-]; cbn; [|lia].
  pose proof (Hq (PostBeginImplFrameDeadlineTask 0)
    (client_next (DidAnticipatedDrawTimeChange (AnticipatedDrawTime c2)) (client_ c2))). lia.
Qed.

End Cooperative.
End Loop.

(** ** Properties *)

Section Properties.
Context {CS : Type} `{SchedulerClient CS}.
Variable settings_ : SchedulerSettings.
Implicit Types c : @Scheduler CS.

(** The first part of [BeginImplFrame], up to the actions. *)
Lemma actions_of_a_frame credit fuel args c :
  cooperative credit -> inside_process_scheduled_actions_ c = false -> Inv (state_machine_ c) ->
  begin_impl_frame_state_ (state_machine_ c) = BEGIN_IMPL_FRAME_STATE_IDLE ->
  HasInitializedOutputSurface (state_machine_ c) = true ->
  (43 + 44 * credit (client_ c) < fuel)%nat ->
  exists c3,
    BeginImplFrame settings_ fuel args c =
      (if !(HasInitializedOutputSurface (state_machine_ c3)) then Ok c3 else
       c ← on_machine OnBeginImplFrameDeadlinePending c3;
       if using_synchronous_renderer_compositor settings_ then
         SchedulerOnBeginImplFrameDeadline settings_ fuel c
       else if !(deadline_scheduling_enabled settings_) then
         Ok (PostBeginImplFrameDeadline 0 c)
       else if ShouldTriggerBeginImplFrameDeadlineEarly (state_machine_ c) then
         Ok (PostBeginImplFrameDeadline 0 c)
       else if needs_redraw_ (state_machine_ c) then
         Ok (PostBeginImplFrameDeadline (deadline (scheduler_args_ c)) c)
       else
         Ok (PostBeginImplFrameDeadline
               (s64 (frame_time (scheduler_args_ c) + interval (scheduler_args_ c))) c)) /\
    inside_process_scheduled_actions_ c3 = false /\ Inv (state_machine_ c3) /\
    scheduler_args_ c3 =
      {| frame_time := frame_time args;
         deadline := s64 (deadline args - DrawDurationEstimate (client_ c));
         interval := interval args |} /\
    (quiet_tasks credit -> (credit (client_ c3) <= credit (client_ c))%nat) /\
    (HasInitializedOutputSurface (state_machine_ c3) = true /\
     begin_impl_frame_state_ (state_machine_ c3) = BEGIN_IMPL_FRAME_STATE_BEGIN_FRAME_STARTING \/
     HasInitializedOutputSurface (state_machine_ c3) = false /\
     begin_impl_frame_state_ (state_machine_ c3) = BEGIN_IMPL_FRAME_STATE_IDLE).
Proof.
  intros Hc Hin HI Hb Hs Hf. unfold BeginImplFrame. rewrite Hb, Hs. cbn [checked DCHECK enum_eqb enum_val negb mbind res_bind].
  cbn [checked DCHECK mbind res_bind].
  set (args' := {| frame_time := _ |}).
  assert (E0 : on_machine (OnBeginImplFrame args') (c <| scheduler_args_ := args' |>) =
    Ok (c <| scheduler_args_ := args' |>
          <| state_machine_ := (state_machine_ c)
               <| current_frame_number_ := s32 (current_frame_number_ (state_machine_ c) + 1) |>
               <| last_begin_impl_frame_args_ := args' |>
               <| begin_impl_frame_state_ := BEGIN_IMPL_FRAME_STATE_BEGIN_FRAME_STARTING |> |>)).
  { unfold on_machine, OnBeginImplFrame. cbn. by rewrite Hb. }
  rewrite E0. clear E0. cbn [mbind res_bind].
  set (c1 := c <| scheduler_args_ := _ |> <| state_machine_ := _ |>).
  assert (exists c2, (if switch_to_low_latency_if_possible settings_
      then on_machine (fun s => Some (SetSkipBeginMainFrameToReduceLatency
             (MainThreadIsInHighLatencyMode s && CanCommitAndActivateBeforeDeadline c1) s)) c1
      else Ok c1) = Ok c2 /\ Inv (state_machine_ c2) /\ scheduler_args_ c2 = args' /\
      inside_process_scheduled_actions_ c2 = false /\ client_ c2 = client_ c /\
      HasInitializedOutputSurface (state_machine_ c2) = true /\
      begin_impl_frame_state_ (state_machine_ c2) = BEGIN_IMPL_FRAME_STATE_BEGIN_FRAME_STARTING)
    as (c2 & -> & HI2 & Ha2 & Hin2 & Hcl2 & Hs2 & Hb2).
  { assert (Inv (state_machine_ c1)) as HI1 by (destruct HI; by constructor).
    case_if; (eexists; split; [reflexivity|]); split_and!; try done. destruct HI1; by constructor. }
  cbn [mbind res_bind].
  assert (potential credit c2 <= 43 + 44 * credit (client_ c))%nat as Hp.
  { unfold potential. pose proof (weight_bound (state_machine_ c2)). rewrite Hcl2. lia. }
  destruct (process_spec settings_ credit Hc fuel c2 Hin2) as (c3 & E3 & HI3 & _ & Hk & Ha3 & Hin3 & _);
    [lia|done|].
  rewrite E3. exists c3. split_and!; [done|done|done|congruence| |].
  - intros Hq. pose proof (process_credit settings_ credit Hc fuel c2 c3 Hq Hin2 ltac:(lia) HI2 E3). lia.
  - unfold keeps_frame in Hk. rewrite Hb2, Hs2 in Hk. destruct Hk as [?|(_ & ?)]; auto.
Qed.

(** The deadline of a frame, handled at once. *)
Lemma synchronous_deadline credit fuel c :
  cooperative credit -> inside_process_scheduled_actions_ c = false -> Inv (state_machine_ c) ->
  begin_impl_frame_state_ (state_machine_ c) = BEGIN_IMPL_FRAME_STATE_INSIDE_BEGIN_FRAME ->
  HasInitializedOutputSurface (state_machine_ c) = true ->
  (43 + 44 * credit (client_ c) < fuel)%nat ->
  exists c', SchedulerOnBeginImplFrameDeadline settings_ fuel c = Ok c' /\
    if HasInitializedOutputSurface (state_machine_ c') then
      begin_impl_frame_state_ (state_machine_ c') = BEGIN_IMPL_FRAME_STATE_IDLE /\
      head (calls_ c') = Some DidBeginImplFrameDeadline
    else begin_impl_frame_state_ (state_machine_ c') = BEGIN_IMPL_FRAME_STATE_IDLE.
Proof.
  intros Hc Hin HI Hb Hs Hf. unfold SchedulerOnBeginImplFrameDeadline. rewrite Hs.
  cbn [checked DCHECK mbind res_bind].
  set (c1 := c <| begin_impl_frame_deadline_closure_ := false |>
               <| state_machine_ := (state_machine_ c)
                    <| begin_impl_frame_state_ := BEGIN_IMPL_FRAME_STATE_INSIDE_DEADLINE |> |>).
  assert (on_machine OnBeginImplFrameDeadline (c <| begin_impl_frame_deadline_closure_ := false |>)
          = Ok c1) as ->.
  { unfold on_machine, OnBeginImplFrameDeadline. cbn. by rewrite Hb. }
  cbn [mbind res_bind].
  assert (Inv (state_machine_ c1)) as HI1 by (destruct HI; by constructor).
  destruct (process_spec settings_ credit Hc fuel c1) as (c2 & E2 & HI2 & _ & Hk & _);
    [done| |done|].
  { unfold potential. pose proof (weight_bound (state_machine_ c1)). cbn in *. lia. }
  rewrite E2. cbn [mbind res_bind]. unfold keeps_frame in Hk. cbn in Hk.
  destruct Hk as [[Hs2 Hb2]|(_ & Hs2 & Hb2)].
  - change (HasInitializedOutputSurface (_ <| begin_impl_frame_state_ := _ |>))
      with (HasInitializedOutputSurface (state_machine_ c)) in Hs2. rewrite Hs2, Hs. unfold on_machine, OnBeginImplFrameIdle. rewrite Hb2. cbn.
    eexists. split; [reflexivity|]. cbn.
    change (HasInitializedOutputSurface _) with (HasInitializedOutputSurface (state_machine_ c2)).
    by rewrite Hs2, Hs.
  - rewrite Hs2. cbn. eexists. split; [reflexivity|]. cbn. by rewrite Hs2.
Qed.

(** C9. The action loop ends: with a client that makes only a bounded number of
    requests from inside its callbacks, [ProcessScheduledActions] returns after
    at most 43 actions plus 44 for each request, no check of the scheduler or of
    its state machine fails on the way, and no action is left to run. The
    requests made fit the state it leaves: if a frame is needed the client has
    been asked for frames, the poll timer runs exactly when polling replaces
    frames, and a deadline that should come early is armed. *)
Theorem process_actions_ends credit fuel c :
  cooperative credit ->
  inside_process_scheduled_actions_ c = false ->
  Inv (state_machine_ c) ->
  (43 + 44 * credit (client_ c) < fuel)%nat ->
  exists c', ProcessScheduledActions settings_ fuel c = Ok c' /\
    let s := state_machine_ c' in
    NextAction settings_ s = Some ACTION_NONE /\ Inv s /\ inside_process_scheduled_actions_ c' = false /\
    (BeginImplFrameNeeded settings_ s = true -> last_set_needs_begin_impl_frame_ c' = true) /\
    poll_for_draw_triggers_closure_ c' = ShouldPollForAnticipatedDrawTriggers settings_ s /\
    (ShouldTriggerBeginImplFrameDeadlineEarly s = true -> begin_impl_frame_deadline_closure_ c' = true).
Proof.
  intros Hc Hin HI Hf. destruct (process_spec settings_ credit Hc fuel c Hin) as (c' & E & ?).
  - unfold potential. pose proof (weight_bound (state_machine_ c)). lia.
  - done.
  - exists c'. cbn in *. intuition.
Qed.

(** C10. A frame that begins gets its deadline. [BeginImplFrame] returns, and no
    check fails. Unless the output surface was lost meanwhile, the frame is open
    with its deadline armed, as the last thing asked of the client: at once if
    deadlines are not scheduled or one should come early in the state the
    actions left, else at the frame's deadline less the draw estimate if that
    state needs a redraw, else at the start of the next frame. With the
    synchronous compositor the deadline is handled before the return, which
    leaves the frame over and tells the client last. If the surface was lost
    the frame is over. The client is [cooperative]; for the synchronous
    compositor the tasks it is told of do not add to its requests either. *)
Theorem begun_frame_gets_deadline credit fuel args c :
  cooperative credit ->
  inside_process_scheduled_actions_ c = false ->
  Inv (state_machine_ c) ->
  begin_impl_frame_state_ (state_machine_ c) = BEGIN_IMPL_FRAME_STATE_IDLE ->
  HasInitializedOutputSurface (state_machine_ c) = true ->
  (using_synchronous_renderer_compositor settings_ = true -> quiet_tasks credit) ->
  (43 + 44 * credit (client_ c) < fuel)%nat ->
  exists c', BeginImplFrame settings_ fuel args c = Ok c' /\
    let s := state_machine_ c' in
    if HasInitializedOutputSurface s then
      if using_synchronous_renderer_compositor settings_ then
        begin_impl_frame_state_ s = BEGIN_IMPL_FRAME_STATE_IDLE /\
        head (calls_ c') = Some DidBeginImplFrameDeadline
      else
        begin_impl_frame_state_ s = BEGIN_IMPL_FRAME_STATE_INSIDE_BEGIN_FRAME /\
        begin_impl_frame_deadline_closure_ c' = true /\
        head (calls_ c') = Some (PostBeginImplFrameDeadlineTask
          (if !(deadline_scheduling_enabled settings_) || ShouldTriggerBeginImplFrameDeadlineEarly s
           then 0
           else if needs_redraw_ s then s64 (deadline args - DrawDurationEstimate (client_ c))
           else s64 (frame_time args + interval args)))
    else begin_impl_frame_state_ s = BEGIN_IMPL_FRAME_STATE_IDLE.
Proof.
  intros Hc Hin HI Hb Hs Hq Hf.
  destruct (actions_of_a_frame credit fuel args c) as (c3 & E & Hin3 & HI3 & Ha3 & Hcr & Hk); [done..|].
  rewrite E. clear E.
  destruct Hk as [[Hs3 Hb3]|[Hs3 Hb3]]; rewrite Hs3; cbn; [|eexists; split; [done|by rewrite Hs3]].
  unfold on_machine, OnBeginImplFrameDeadlinePending. rewrite Hb3. cbn.
  destruct (using_synchronous_renderer_compositor settings_) eqn:Hsync.
  - apply (synchronous_deadline credit); cbn; auto.
    + destruct HI3. by constructor.
    + specialize (Hcr (Hq eq_refl)). lia.
  - destruct (deadline_scheduling_enabled settings_) eqn:?; cbn;
      repeat match goal with |- context [if ?b then Ok _ else _] => destruct b eqn:? end;
      (eexists; split; [reflexivity|]); cbn;
      change (HasInitializedOutputSurface _) with (HasInitializedOutputSurface (state_machine_ c3));
      rewrite Hs3, ?Ha3; cbn; split_and!; try done;
      repeat match goal with E : _ = ?b |- context [if ?c then _ else _] =>
        rewrite (E : c = b) end; done.
Qed.

(** C11. The anticipated draw time is a tick of the frame clock in the future:
    it lies a whole number of intervals from the timebase, and is the first
    tick after now; while the timebase is still ahead it is the first tick that
    leaves a whole interval. *)
Theorem anticipated_draw_time_is_next_tick c :
  let args := scheduler_args_ c in
  let now := FrameTime_Now (client_ c) in
  let timebase := Z.max (frame_time args) (deadline args) in
  last_set_needs_begin_impl_frame_ c = true ->
  0 < interval args -> 0 <= now -> 0 <= timebase ->
  now + 2 * interval args < 2 ^ 63 -> timebase + 2 * interval args < 2 ^ 63 ->
  (interval args | AnticipatedDrawTime c - timebase) /\
  if timebase <=? now then now < AnticipatedDrawTime c <= now + interval args
  else now + interval args <= AnticipatedDrawTime c < now + 2 * interval args.
Proof.
  cbn. intros Hl Hi Hn Ht Ho1 Ho2. unfold AnticipatedDrawTime. rewrite Hl.
  destruct (Z.leb_spec (interval (scheduler_args_ c)) 0); [lia|]. cbn -[Z.max wrap_s].
  set (timebase := Z.max _ _) in *. set (now := FrameTime_Now _) in *.
  set (i := interval _) in *.
  assert (Hq : if timebase <=? now
    then i * ((now - timebase) ÷ i) <= now - timebase < i * ((now - timebase) ÷ i) + i
    else now - timebase <= i * ((now - timebase) ÷ i) < now - timebase + i).
  { pose proof (Z.quot_rem' (now - timebase) i). destruct (Z.leb_spec timebase now).
    - destruct (Z.rem_bound_pos (now - timebase) i); lia.
    - destruct (Z.rem_bound_pos_neg (now - timebase) i); lia. }
  set (q := (now - timebase) ÷ i) in *.
  assert (Hr : - timebase <= q <= now).
  { destruct (Z.leb_spec timebase now).
    - assert (0 <= q) by nia. split; [lia|]. assert (q <= i * q) by nia. lia.
    - assert (q <= 0) by nia. split; [|lia]. assert (i * q <= q) by nia. lia. }
  assert (Hs : forall z, - 2 ^ 63 <= z < 2 ^ 63 -> s64 z = z).
  { intros z Hz. apply wrap_s_id; [lia|]. unfold in_s. change (64 - 1) with 63. lia. }
  rewrite (Hs (now - timebase)) by lia. fold q. rewrite (Hs (1 + q)) by lia.
  assert (He : i * (1 + q) = i + i * q) by ring. rewrite He.
  rewrite (Hs (i + i * q)) by (destruct (Z.leb_spec timebase now); lia).
  rewrite Hs by (destruct (Z.leb_spec timebase now); lia). split.
  - exists (1 + q). lia.
  - destruct (Z.leb_spec timebase now); lia.
Qed.

(** ** A client *)

End Properties.

(** A client that asks for a redraw after each of its first commits and hides
    itself while it draws. *)
Definition redrawing_client (cs : nat) (call : ClientCall) :
    nat * DrawSwapReadbackResult * list SchedulerCall :=
  match call, cs with
  | ScheduledActionCommit, S cs => (cs, Build_DrawSwapReadbackResult false false false,
                                    [CallSetNeedsRedraw; CallSetCanDraw true])
  | ScheduledActionDrawAndSwapIfPossible, _ =>
      (cs, Build_DrawSwapReadbackResult true true false, [CallSetVisible false])
  | _, _ => (cs, Build_DrawSwapReadbackResult false false false, [])
  end.

#[local] Instance redrawing : SchedulerClient nat := {|
  client_call call cs := redrawing_client cs call;
  client_notify _ cs := cs;
  DrawDurationEstimate _ := 2000;
  BeginMainFrameToCommitDurationEstimate _ := 5000;
  CommitToActivateDurationEstimate _ := 3000;
  FrameTime_Now _ := 50000
|}.

Lemma redrawing_cooperative : cooperative (fun cs => cs).
Proof.
  constructor; try done.
  - intros [] []; cbn; repeat constructor.
  - intros [] []; cbn; unfold requests; cbn; repeat case_decide; cbn; first [done|lia].
Qed.

(** A new output surface, a finished main frame, and a frame not yet begun. *)
Definition ready_machine : StateMachine :=
  initial_state <| can_start_ := true |> <| visible_ := true |> <| can_draw_ := true |>
    <| output_surface_state_ := OUTPUT_SURFACE_WAITING_FOR_FIRST_COMMIT |>
    <| commit_state_ := COMMIT_STATE_READY_TO_COMMIT |>
    <| needs_manage_tiles_ := true |>.

Definition ready_scheduler : @Scheduler nat :=
  (initial_scheduler 2%nat) <| state_machine_ := ready_machine |>.

Definition frame_at_40000 : BeginFrameArgs :=
  {| frame_time := 40000; deadline := 56000; interval := 16000 |}.

Lemma ready_Inv : Inv (state_machine_ ready_scheduler).
Proof. by constructor. Qed.

Lemma process_actions_ends_witness :
  exists c', ProcessScheduledActions default_settings 200 ready_scheduler = Ok c' /\
    NextAction default_settings (state_machine_ c') = Some ACTION_NONE /\
    Inv (state_machine_ c') /\ BeginImplFrameNeeded default_settings (state_machine_ c') = true /\
    last_set_needs_begin_impl_frame_ c' = true.
Proof.
  destruct (process_actions_ends default_settings _ 200 ready_scheduler redrawing_cooperative)
    as (c' & E & Hn & HI & _ & Hneeded & _); [done|apply ready_Inv|cbn; lia|].
  exists c'. split; [exact E|]. split; [exact Hn|]. split; [exact HI|].
  assert (BeginImplFrameNeeded default_settings (state_machine_ c') = true) as Hb.
  { vm_compute in E. injection E as <-. reflexivity. }
  split; [exact Hb|exact (Hneeded Hb)].
Defined.

Lemma begun_frame_gets_deadline_witness :
  exists c', BeginImplFrame default_settings 200 frame_at_40000 ready_scheduler = Ok c' /\
    HasInitializedOutputSurface (state_machine_ c') = true /\
    begin_impl_frame_deadline_closure_ c' = true.
Proof.
  destruct (begun_frame_gets_deadline default_settings _ 200 frame_at_40000 ready_scheduler
    redrawing_cooperative) as (c' & E & Hc); [done|apply ready_Inv|done..|cbn; lia|].
  exists c'. split; [exact E|].
  assert (HasInitializedOutputSurface (state_machine_ c') = true) as Hs.
  { vm_compute in E. injection E as <-. reflexivity. }
  cbv zeta in Hc. rewrite Hs in Hc. split; [exact Hs|apply Hc].
Defined.

Lemma anticipated_draw_time_is_next_tick_witness :
  let c := ready_scheduler <| last_set_needs_begin_impl_frame_ := true |>
                           <| scheduler_args_ := {| frame_time := 10000; deadline := 14000;
                                                    interval := 16000 |} |> in
  AnticipatedDrawTime c = 62000 /\ 50000 < AnticipatedDrawTime c <= 66000.
Proof.
  intros c. split; [reflexivity|].
  destruct (anticipated_draw_time_is_next_tick c) as [_ Ht]; try (vm_compute; congruence).
  vm_compute in Ht |- *. exact Ht.
Defined.
