(* ===== verification/TimeSource.v ===== *)
(** The time source that paces the compositor's frames,
    cc/scheduler/delay_based_time_source.{h,cc}: the next target on the grid of
    the display, the delayed task aimed at it, and changes of the grid.  Times
    are microseconds, as in SchedulerStateMachine; doubles are those of
    IEEE 754 with 53 bits, so every function evaluates. *)
From Stdlib Require Import SpecFloat.
From S2P Require Import Prelude.
#[local] Open Scope Z_scope.
#[local] Open Scope cxx_scope.

(** ** Doubles *)

Definition double := spec_float.
Definition double_of_Z (z : Z) : double := binary_normalize 53 1024 z 0 false.
Definition div_double (x y : double) : double := SFdiv 53 1024 x y.

(** The standard library's [fmod]: the remainder of the quotient rounded
    toward zero, with the sign of [x].  It is exact. *)
Definition fmod (x y : double) : double :=
  match x, y with
  | S754_nan, _ | _, S754_nan | S754_infinity _, _ | _, S754_zero _ => S754_nan
  | S754_zero _, _ | _, S754_infinity _ => x
  | S754_finite s mx ex, S754_finite _ my ey =>
      let e := Z.min ex ey in
      let r := (Z.pos mx * 2 ^ (ex - e)) mod (Z.pos my * 2 ^ (ey - e)) in
      binary_normalize 53 1024 (if s then - r else r) e s
  end.

(* src: base/time/time.cc 32-34 TimeDelta::InSecondsF *)
Definition InSecondsF (delta : Z) : double := div_double (double_of_Z delta) (double_of_Z 1000000).

(** ** The state

    [timer_tasks_] are the delays of the posted tasks whose weak pointer is
    still valid: a task bound to an invalidated pointer does nothing. *)
(* src: cc/scheduler/delay_based_time_source.cc 23-23 kDoubleTickDivisor *)
Definition kDoubleTickDivisor : Z := 2.
(* src: cc/scheduler/delay_based_time_source.cc 31-31 kIntervalChangeThreshold *)
Definition kIntervalChangeThreshold : double := binary_normalize 53 1024 1 (-2) false.
(* src: cc/scheduler/delay_based_time_source.cc 32-32 kPhaseChangeThreshold *)
Definition kPhaseChangeThreshold : double := binary_normalize 53 1024 1 (-2) false.

(* src: cc/scheduler/delay_based_time_source.h 50-55 Parameters *)
Record Parameters := { interval : Z; tick_target : Z }.

(* src: cc/scheduler/delay_based_time_source.h 57-70 DelayBasedTimeSource *)
Record DelayBasedTimeSource := mkTimeSource {
  last_tick_time_ : Z;
  current_parameters_ : Parameters;
  next_parameters_ : Parameters;
  active_ : bool;
  timer_tasks_ : list Z
}.

#[export] Instance eta_TimeSource : Eta DelayBasedTimeSource := fun t =>
  mkTimeSource (last_tick_time_ t) (current_parameters_ t) (next_parameters_ t) (active_ t)
    (timer_tasks_ t).

(* src: cc/scheduler/delay_based_time_source.cc 63-71 DelayBasedTimeSource::DelayBasedTimeSource *)
Definition new_DelayBasedTimeSource (interval : Z) : DelayBasedTimeSource := {|
  last_tick_time_ := s64 (0 - interval);
  current_parameters_ := {| interval := interval; tick_target := 0 |};
  next_parameters_ := {| interval := interval; tick_target := 0 |};
  active_ := false;
  timer_tasks_ := []
|}.

(** ** The next tick

    A division by zero is a failed check. *)
(* src: cc/scheduler/delay_based_time_source.cc 226-257 DelayBasedTimeSource::NextTickTarget *)
Definition NextTickTarget (now : Z) (t : DelayBasedTimeSource) : option Z :=
  let new_interval := interval (next_parameters_ t) in
  let target := tick_target (next_parameters_ t) in
  DCHECK (!(new_interval =? 0)) ;;
  let interval_offset := Z.rem (s64 (target - now)) new_interval in
  let interval_offset :=
    if !(interval_offset =? 0) && (target <? now)
    then s64 (interval_offset + new_interval) else interval_offset in
  let new_tick_target := s64 (now + interval_offset) in
  DCHECK (now <=? new_tick_target) ;;
  Some (if s64 (new_tick_target - last_tick_time_ t) <=? Z.quot new_interval kDoubleTickDivisor
        then s64 (new_tick_target + new_interval) else new_tick_target).

(* src: cc/scheduler/delay_based_time_source.cc 259-273 DelayBasedTimeSource::PostNextTickTask *)
Definition PostNextTickTask (now : Z) (t : DelayBasedTimeSource) : option DelayBasedTimeSource :=
  new_tick_target ← NextTickTarget now t;
  let delay := if now <=? new_tick_target then s64 (new_tick_target - now) else 0 in
  let next := {| interval := interval (next_parameters_ t); tick_target := new_tick_target |} in
  Some t <| timer_tasks_ := timer_tasks_ t ++ [delay] |>
         <| next_parameters_ := next |> <| current_parameters_ := next |>.

(** [SetActive] returns the time of a tick missed while inactive; the null
    time is 0. *)
(* src: cc/scheduler/delay_based_time_source.cc 75-99 DelayBasedTimeSource::SetActive *)
Definition SetActive (now : Z) (active : bool) (t : DelayBasedTimeSource)
  : option (Z * DelayBasedTimeSource) :=
  if Bool.eqb active (active_ t) then Some (0, t)
  else
    let t := t <| active_ := active |> in
    if !(active_ t) then Some (0, t <| timer_tasks_ := [] |>)
    else
      t ← PostNextTickTask now t;
      let last_tick_time_if_always_active :=
        s64 (tick_target (current_parameters_ t) - interval (current_parameters_ t)) in
      let new_tick_time_threshold :=
        s64 (last_tick_time_ t + Z.quot (interval (current_parameters_ t)) kDoubleTickDivisor) in
      if new_tick_time_threshold <? last_tick_time_if_always_active then
        Some (last_tick_time_if_always_active,
              t <| last_tick_time_ := last_tick_time_if_always_active |>)
      else Some (0, t).

(* src: cc/scheduler/delay_based_time_source.cc 103-103 DelayBasedTimeSource::LastTickTime *)
Definition LastTickTime (t : DelayBasedTimeSource) : Z := last_tick_time_ t.

(* src: cc/scheduler/delay_based_time_source.cc 105-107 DelayBasedTimeSource::NextTickTime *)
Definition NextTickTime (t : DelayBasedTimeSource) : Z :=
  if active_ t then tick_target (current_parameters_ t) else 0.

(** ** The timer

    The client of a time source, [TimeSourceClient], is what owns it: a state
    [S] that holds the time source and is told of each tick. *)
(* src: cc/scheduler/time_source.h 14-20 TimeSourceClient *)
Class TimeSourceClient (S : Type) := {
  time_source : S -> option DelayBasedTimeSource;
  with_time_source : DelayBasedTimeSource -> S -> S;
  OnTimerTick : Z -> S -> option S
}.

(** The first posted task runs: it is removed, and the tick fires. *)
(* src: cc/scheduler/delay_based_time_source.cc 109-119 DelayBasedTimeSource::OnTimerFired *)
Definition OnTimerFired {S} `{TimeSourceClient S} (now : Z) (s : S) : option S :=
  t ← time_source s;
  let t := t <| timer_tasks_ := tail (timer_tasks_ t) |> in
  DCHECK (active_ t) ;;
  let t := t <| last_tick_time_ := tick_target (current_parameters_ t) |> in
  t ← PostNextTickTask now t;
  OnTimerTick now (with_time_source t s).

(** ** The grid of the display *)

(** Stop and start again: the pending tick is cancelled and aimed anew. *)
Definition reset_timer (now : Z) (t : DelayBasedTimeSource) : option DelayBasedTimeSource :=
  r ← SetActive now false t;
  r ← SetActive now true (snd r);
  Some (snd r).

(* src: cc/scheduler/delay_based_time_source.cc 137-140 DelayBasedTimeSource::SetTimebaseAndInterval *)
Definition interval_changed (interval_ : Z) (t : DelayBasedTimeSource) : bool :=
  let interval_delta :=
    SFabs (InSecondsF (s64 (interval_ - interval (current_parameters_ t)))) in
  let interval_change := div_double interval_delta (InSecondsF interval_) in
  SFltb kIntervalChangeThreshold interval_change.

(* src: cc/scheduler/delay_based_time_source.cc 154-159 DelayBasedTimeSource::SetTimebaseAndInterval *)
Definition phase_changed (timebase interval_ : Z) (t : DelayBasedTimeSource) : bool :=
  let target_delta :=
    SFabs (InSecondsF (s64 (timebase - tick_target (current_parameters_ t)))) in
  let phase_change :=
    div_double (fmod target_delta (InSecondsF interval_)) (InSecondsF interval_) in
  SFltb kPhaseChangeThreshold phase_change &&
  SFltb phase_change (SFsub 53 1024 (double_of_Z 1) kPhaseChangeThreshold).

(* src: cc/scheduler/delay_based_time_source.cc 125-166 DelayBasedTimeSource::SetTimebaseAndInterval *)
Definition SetTimebaseAndInterval (now timebase interval_ : Z) (t : DelayBasedTimeSource)
  : option DelayBasedTimeSource :=
  let t := t <| next_parameters_ := {| interval := interval_; tick_target := timebase |} |> in
  if !(active_ t) then Some t
  else if interval_changed interval_ t then reset_timer now t
  else if phase_changed timebase interval_ t then reset_timer now t
  else Some t.
