(* ===== verification/FrameRateController.v ===== *)
(** The controller that turns the ticks of a time source into frames,
    cc/scheduler/frame_rate_controller.{h,cc}: it counts the swaps in flight,
    tells its client whether it is throttled, and without a time source ticks
    by tasks it posts to itself. *)
From S2P Require Import Prelude SchedulerStateMachine TimeSource.
#[local] Open Scope Z_scope.
#[local] Open Scope int_scope.
#[local] Open Scope cxx_scope.

(* src: cc/output/begin_frame_args.cc 24-28 BeginFrameArgs::Create *)
Definition Create (frame_time deadline interval : Z) : BeginFrameArgs :=
  {| frame_time := frame_time; deadline := deadline; SchedulerStateMachine.interval := interval |}.

(* src: cc/output/begin_frame_args.cc 58-60 BeginFrameArgs::DefaultDeadlineAdjustment *)
Definition DefaultDeadlineAdjustment : Z := Z.quot (- 16666) 3.
(* src: cc/output/begin_frame_args.cc 62-64 BeginFrameArgs::DefaultInterval *)
Definition DefaultInterval : Z := 16666.
(* src: cc/output/begin_frame_args.cc 66-68 BeginFrameArgs::DefaultRetroactiveBeginFramePeriod *)
Definition DefaultRetroactiveBeginFramePeriod : Z := 4444.
(* src: cc/output/begin_frame_args.h 40-40 BeginFrameArgs::IsValid *)
Definition IsValid (args : BeginFrameArgs) : bool := 0 <=? SchedulerStateMachine.interval args.

(** ** The state

    [manual_ticks_] counts the posted manual ticks whose weak pointer is still
    valid. *)
(* src: cc/scheduler/frame_rate_controller.h 80-92 FrameRateController *)
Record FrameRateController := mkController {
  num_frames_pending_ : Z;
  max_swaps_pending_ : Z;
  interval_ : Z;
  deadline_adjustment_ : Z;
  time_source_ : option DelayBasedTimeSource;
  active_ : bool;
  manual_ticks_ : Z
}.

#[export] Instance eta_FrameRateController : Eta FrameRateController := fun c =>
  mkController (num_frames_pending_ c) (max_swaps_pending_ c) (interval_ c)
    (deadline_adjustment_ c) (time_source_ c) (active_ c) (manual_ticks_ c).

(** A controller of a time source, or with none the one that ticks by itself. *)
(* src: cc/scheduler/frame_rate_controller.cc 39-63 FrameRateController::FrameRateController *)
Definition new_FrameRateController (timer : option DelayBasedTimeSource) : FrameRateController := {|
  num_frames_pending_ := 0;
  max_swaps_pending_ := 0;
  interval_ := DefaultInterval;
  deadline_adjustment_ := 0;
  time_source_ := timer;
  active_ := false;
  manual_ticks_ := 0
|}.

(* src: cc/scheduler/frame_rate_controller.cc 158-163 FrameRateController::NextTickTime *)
Definition NextTickTime (c : FrameRateController) : Z :=
  match time_source_ c with Some t => TimeSource.NextTickTime t | None => 0 end.

(* src: cc/scheduler/frame_rate_controller.cc 165-170 FrameRateController::LastTickTime *)
Definition LastTickTime (now : Z) (c : FrameRateController) : Z :=
  match time_source_ c with Some t => TimeSource.LastTickTime t | None => now end.

(* src: cc/scheduler/frame_rate_controller.cc 131-137 FrameRateController::PostManualTick *)
Definition PostManualTick (c : FrameRateController) : FrameRateController :=
  if active_ c then c <| manual_ticks_ := manual_ticks_ c + 1 |> else c.

(* src: cc/scheduler/frame_rate_controller.cc 70-91 FrameRateController::SetActive *)
Definition SetActive (now : Z) (active : bool) (c : FrameRateController)
  : option (BeginFrameArgs * FrameRateController) :=
  if Bool.eqb (active_ c) active then Some (invalid_args, c)
  else
    let c := c <| active_ := active |> in
    match time_source_ c with
    | Some t =>
        '(missed_tick_time, t) ← TimeSource.SetActive now active t;
        let c := c <| time_source_ := Some t |> in
        if !(missed_tick_time =? 0) then
          Some (Create missed_tick_time (s64 (NextTickTime c + deadline_adjustment_ c))
                  (interval_ c), c)
        else Some (invalid_args, c)
    | None =>
        Some (invalid_args, if active then PostManualTick c else c <| manual_ticks_ := 0 |>)
    end.

(* src: cc/scheduler/frame_rate_controller.cc 93-96 FrameRateController::SetMaxSwapsPending *)
Definition SetMaxSwapsPending (max_swaps_pending : Z) (c : FrameRateController)
  : option FrameRateController :=
  DCHECK (0 <=? max_swaps_pending) ;;
  Some c <| max_swaps_pending_ := max_swaps_pending |>.

(* src: cc/scheduler/frame_rate_controller.cc 98-103 FrameRateController::SetTimebaseAndInterval *)
Definition SetTimebaseAndInterval (now timebase interval : Z) (c : FrameRateController)
  : option FrameRateController :=
  let c := c <| interval_ := interval |> in
  match time_source_ c with
  | Some t =>
      t ← TimeSource.SetTimebaseAndInterval now timebase interval t;
      Some c <| time_source_ := Some t |>
  | None => Some c
  end.

(* src: cc/scheduler/frame_rate_controller.cc 105-107 FrameRateController::SetDeadlineAdjustment *)
Definition SetDeadlineAdjustment (delta : Z) (c : FrameRateController) : FrameRateController :=
  c <| deadline_adjustment_ := delta |>.

(* src: cc/scheduler/frame_rate_controller.cc 143-145 FrameRateController::DidSwapBuffers *)
Definition DidSwapBuffers (c : FrameRateController) : FrameRateController :=
  c <| num_frames_pending_ := num_frames_pending_ c ⊕ 1 |>.

(* src: cc/scheduler/frame_rate_controller.cc 147-152 FrameRateController::DidSwapBuffersComplete *)
Definition DidSwapBuffersComplete (c : FrameRateController) : option FrameRateController :=
  DCHECK (0 <? num_frames_pending_ c) ;;
  let c := c <| num_frames_pending_ := num_frames_pending_ c ⊖ 1 |> in
  Some (match time_source_ c with Some _ => c | None => PostManualTick c end).

(* src: cc/scheduler/frame_rate_controller.cc 154-156 FrameRateController::DidAbortAllPendingFrames *)
Definition DidAbortAllPendingFrames (c : FrameRateController) : FrameRateController :=
  c <| num_frames_pending_ := 0 |>.

(** ** Ticks

    The client of a controller is what owns it: a state [S] that holds the
    controller and is told of each tick. *)
(* src: cc/scheduler/frame_rate_controller.h 22-30 FrameRateControllerClient *)
Class FrameRateControllerClient (S : Type) := {
  controller : S -> option FrameRateController;
  with_controller : FrameRateController -> S -> S;
  FrameRateControllerTick : bool -> BeginFrameArgs -> Z -> S -> option S
}.

(* src: cc/scheduler/frame_rate_controller.cc 113-115 FrameRateController::OnTimerTick *)
Definition is_throttled (c : FrameRateController) : bool :=
  !(max_swaps_pending_ c =? 0) && (max_swaps_pending_ c <=? num_frames_pending_ c).

(* src: cc/scheduler/frame_rate_controller.cc 109-129 FrameRateController::OnTimerTick *)
Definition OnTimerTick {S} `{FrameRateControllerClient S} (now : Z) (s : S) : option S :=
  c ← controller s;
  DCHECK (active_ c) ;;
  let throttled := is_throttled c in
  let args := Create (LastTickTime now c) (s64 (NextTickTime c + deadline_adjustment_ c))
                (interval_ c) in
  s ← FrameRateControllerTick throttled args now s;
  c ← controller s;
  Some (match time_source_ c with
        | None => if !throttled then with_controller (PostManualTick c) s else s
        | Some _ => s
        end).

(** The first posted manual tick runs. *)
(* src: cc/scheduler/frame_rate_controller.cc 139-141 FrameRateController::ManualTick *)
Definition ManualTick {S} `{FrameRateControllerClient S} (now : Z) (s : S) : option S :=
  c ← controller s;
  OnTimerTick now (with_controller (c <| manual_ticks_ := manual_ticks_ c - 1 |>) s).

(** The controller is the client of its time source. *)
(* src: cc/scheduler/frame_rate_controller.cc 18-37 FrameRateControllerTimeSourceAdapter *)
#[export] Instance FrameRateControllerTimeSourceAdapter {S} `{FrameRateControllerClient S}
  : TimeSourceClient S := {
  time_source s := c ← controller s; time_source_ c;
  with_time_source t s :=
    match controller s with
    | Some c => with_controller (c <| time_source_ := Some t |>) s
    | None => s
    end;
  TimeSource.OnTimerTick := OnTimerTick
}.
