(* ===== verification/OutputSurface.v ===== *)
(** The pacing of frames by an output surface, cc/output/output_surface.{h,cc}:
    requests for frames, swaps and their completions, frames that are skipped
    and delivered after all, and the emulation that drives it by a
    FrameRateController.  The context, its buffers and their memory are not
    modelled. *)
From S2P Require Import Prelude SchedulerStateMachine TimeSource FrameRateController.
#[local] Open Scope Z_scope.
#[local] Open Scope int_scope.
#[local] Open Scope cxx_scope.

(** ** The client

    What calls the surface: its client, and the owner that passes on what the
    display says. *)
Inductive SurfaceCall :=
  | CallSetNeedsBeginImplFrame (enable : bool)
  | CallSwapBuffers
  | CallSetMaxFramesPending (max_frames_pending : Z)
  | CallOnVSyncParametersChanged (timebase interval : Z)
  | CallDidLoseOutputSurface.

(** A client with a state of its own, which answers a frame by calls of the
    surface, in order.  The other functions of the client call nothing back. *)
(* src: cc/output/output_surface_client.h 25-52! OutputSurfaceClient *)
Class OutputSurfaceClient (CS : Type) := {
  client_begin_impl_frame : BeginFrameArgs -> CS -> CS * list SurfaceCall
}.

Section OutputSurface.
Context {CS : Type} `{OutputSurfaceClient CS}.
(** [capabilities_.adjust_deadline_for_parent]. *)
Variable adjust_deadline_for_parent : bool.

(** ** The state

    [completions_] counts the posted [OnSwapBuffersComplete]; [frames_] are the
    frames the client was given, the latest first. *)
(* src: cc/output/output_surface.h 168-207! OutputSurface *)
Record OutputSurface := mkSurface {
  frame_rate_controller_ : option FrameRateController;
  max_frames_pending_ : Z;
  pending_swap_buffers_ : Z;
  needs_begin_impl_frame_ : bool;
  client_ready_for_begin_impl_frame_ : bool;
  skipped_begin_impl_frame_args_ : BeginFrameArgs;
  check_for_retroactive_begin_impl_frame_pending_ : bool;
  client_ : CS;
  completions_ : Z;
  frames_ : list BeginFrameArgs
}.

#[local] Instance eta_OutputSurface : Eta OutputSurface := fun s =>
  mkSurface (frame_rate_controller_ s) (max_frames_pending_ s) (pending_swap_buffers_ s)
    (needs_begin_impl_frame_ s) (client_ready_for_begin_impl_frame_ s)
    (skipped_begin_impl_frame_args_ s) (check_for_retroactive_begin_impl_frame_pending_ s)
    (client_ s) (completions_ s) (frames_ s).

(* src: cc/output/output_surface.cc 45-58 OutputSurface::OutputSurface *)
Definition new_OutputSurface (client : CS) : OutputSurface := {|
  frame_rate_controller_ := None;
  max_frames_pending_ := 0;
  pending_swap_buffers_ := 0;
  needs_begin_impl_frame_ := false;
  client_ready_for_begin_impl_frame_ := true;
  skipped_begin_impl_frame_args_ := invalid_args;
  check_for_retroactive_begin_impl_frame_pending_ := false;
  client_ := client;
  completions_ := 0;
  frames_ := []
|}.

(** [if (frame_rate_controller_) frame_rate_controller_->f()] *)
Definition on_controller (f : FrameRateController -> option FrameRateController)
    (s : OutputSurface) : option OutputSurface :=
  match frame_rate_controller_ s with
  | Some c => c ← f c; Some s <| frame_rate_controller_ := Some c |>
  | None => Some s
  end.

(* src: cc/output/output_surface.cc 94-119 OutputSurface::InitializeBeginImplFrameEmulation *)
Definition InitializeBeginImplFrameEmulation (throttle_frame_production : bool) (interval : Z)
    (s : OutputSurface) : option OutputSurface :=
  let c := new_FrameRateController
             (if throttle_frame_production then Some (new_DelayBasedTimeSource interval)
              else None) in
  c ← SetMaxSwapsPending (max_frames_pending_ s) c;
  let c := SetDeadlineAdjustment
             (if adjust_deadline_for_parent then DefaultDeadlineAdjustment else 0) c in
  let c := Nat.iter (Z.to_nat (pending_swap_buffers_ s)) FrameRateController.DidSwapBuffers c in
  Some s <| frame_rate_controller_ := Some c |>.

(* src: cc/output/output_surface.cc 121-125 OutputSurface::SetMaxFramesPending *)
Definition SetMaxFramesPending (max_frames_pending : Z) (s : OutputSurface)
  : option OutputSurface :=
  s ← on_controller (SetMaxSwapsPending max_frames_pending) s;
  Some s <| max_frames_pending_ := max_frames_pending |>.

(* src: cc/output/output_surface.cc 127-134 OutputSurface::OnVSyncParametersChanged *)
Definition OnVSyncParametersChanged (now timebase interval : Z) (s : OutputSurface)
  : option OutputSurface :=
  on_controller (FrameRateController.SetTimebaseAndInterval now timebase interval) s.

(** ** Frames that were skipped *)

(* src: cc/output/output_surface.cc 182-190 OutputSurface::RetroactiveBeginImplFrameDeadline *)
Definition RetroactiveBeginImplFrameDeadline (s : OutputSurface) : Z :=
  let skipped := skipped_begin_impl_frame_args_ s in
  let alternative_deadline := s64 (frame_time skipped + DefaultRetroactiveBeginFramePeriod) in
  Z.max (deadline skipped) alternative_deadline.

(* src: cc/output/output_surface.cc 192-202 OutputSurface::PostCheckForRetroactiveBeginImplFrame *)
Definition PostCheckForRetroactiveBeginImplFrame (s : OutputSurface) : OutputSurface :=
  if !(IsValid (skipped_begin_impl_frame_args_ s)) ||
     check_for_retroactive_begin_impl_frame_pending_ s
  then s
  else s <| check_for_retroactive_begin_impl_frame_pending_ := true |>.

(** ** Requests, swaps and loss *)

(* src: cc/output/output_surface.cc 151-162 OutputSurface::SetNeedsBeginImplFrame *)
Definition SetNeedsBeginImplFrame (now : Z) (enable : bool) (s : OutputSurface)
  : option OutputSurface :=
  let s := s <| needs_begin_impl_frame_ := enable |>
             <| client_ready_for_begin_impl_frame_ := true |> in
  s ← match frame_rate_controller_ s with
      | Some c =>
          '(skipped, c) ← FrameRateController.SetActive now enable c;
          let s := s <| frame_rate_controller_ := Some c |> in
          Some (if IsValid skipped then s <| skipped_begin_impl_frame_args_ := skipped |> else s)
      | None => Some s
      end;
  Some (if needs_begin_impl_frame_ s then PostCheckForRetroactiveBeginImplFrame s else s).

(* src: cc/output/output_surface.cc 211-219 OutputSurface::DidSwapBuffers *)
Definition DidSwapBuffers (s : OutputSurface) : option OutputSurface :=
  let s := s <| pending_swap_buffers_ := pending_swap_buffers_ s ⊕ 1 |> in
  s ← on_controller (fun c => Some (FrameRateController.DidSwapBuffers c)) s;
  Some (PostCheckForRetroactiveBeginImplFrame s).

(** Of a frame in software, or in a context that does not say when a swap is
    complete. *)
(* src: cc/output/output_surface.cc 395-400! OutputSurface::SwapBuffers *)
Definition SwapBuffers (s : OutputSurface) : option OutputSurface :=
  DidSwapBuffers s <| completions_ := completions_ s + 1 |>.

(** A posted completion runs. *)
(* src: cc/output/output_surface.cc 221-229 OutputSurface::OnSwapBuffersComplete *)
Definition OnSwapBuffersComplete (s : OutputSurface) : option OutputSurface :=
  let s := s <| completions_ := completions_ s - 1 |>
             <| pending_swap_buffers_ := pending_swap_buffers_ s ⊖ 1 |> in
  s ← on_controller FrameRateController.DidSwapBuffersComplete s;
  Some (PostCheckForRetroactiveBeginImplFrame s).

(* src: cc/output/output_surface.cc 235-245 OutputSurface::DidLoseOutputSurface *)
Definition DidLoseOutputSurface (now : Z) (s : OutputSurface) : option OutputSurface :=
  let s := s <| client_ready_for_begin_impl_frame_ := true |>
             <| pending_swap_buffers_ := 0 |>
             <| skipped_begin_impl_frame_args_ := invalid_args |> in
  on_controller (fun c => r ← FrameRateController.SetActive now false c; Some (snd r)) s.

Definition surface_call (now : Z) (call : SurfaceCall) (s : OutputSurface)
  : option OutputSurface :=
  match call with
  | CallSetNeedsBeginImplFrame enable => SetNeedsBeginImplFrame now enable s
  | CallSwapBuffers => SwapBuffers s
  | CallSetMaxFramesPending n => SetMaxFramesPending n s
  | CallOnVSyncParametersChanged timebase interval =>
      OnVSyncParametersChanged now timebase interval s
  | CallDidLoseOutputSurface => DidLoseOutputSurface now s
  end.

(** ** Frames *)

Fixpoint run_calls (now : Z) (calls : list SurfaceCall) (s : OutputSurface)
  : option OutputSurface :=
  match calls with
  | [] => Some s
  | call :: calls => s ← surface_call now call s; run_calls now calls s
  end.

(** The client is given the frame and answers with calls of the surface. *)
Definition give_frame (now : Z) (args : BeginFrameArgs) (s : OutputSurface)
  : option OutputSurface :=
  let '(client, calls) := client_begin_impl_frame args (client_ s) in
  run_calls now calls s <| client_ := client |> <| frames_ := args :: frames_ s |>.

(* src: cc/output/output_surface.cc 169-171 OutputSurface::BeginImplFrame *)
Definition must_skip (s : OutputSurface) : bool :=
  !(needs_begin_impl_frame_ s) || !(client_ready_for_begin_impl_frame_ s) ||
  ((max_frames_pending_ s <=? pending_swap_buffers_ s) && (0 <? max_frames_pending_ s)).

(* src: cc/output/output_surface.cc 164-180 OutputSurface::BeginImplFrame *)
Definition BeginImplFrame (now : Z) (args : BeginFrameArgs) (s : OutputSurface)
  : option OutputSurface :=
  if must_skip s then Some s <| skipped_begin_impl_frame_args_ := args |>
  else
    s ← give_frame now args s <| client_ready_for_begin_impl_frame_ := false |>;
    Some s <| skipped_begin_impl_frame_args_ := invalid_args |>.

(** A posted check runs. *)
(* src: cc/output/output_surface.cc 204-209 OutputSurface::CheckForRetroactiveBeginImplFrame *)
Definition CheckForRetroactiveBeginImplFrame (now : Z) (s : OutputSurface)
  : option OutputSurface :=
  let s := s <| check_for_retroactive_begin_impl_frame_pending_ := false |> in
  if now <? RetroactiveBeginImplFrameDeadline s
  then BeginImplFrame now (skipped_begin_impl_frame_args_ s) s else Some s.

(** The surface is the client of its controller. *)
(* src: cc/output/output_surface.cc 136-143 OutputSurface::FrameRateControllerTick *)
#[export] Instance surface_ticks : FrameRateControllerClient OutputSurface := {
  controller s := frame_rate_controller_ s;
  with_controller c s := s <| frame_rate_controller_ := Some c |>;
  FrameRateControllerTick throttled args now s :=
    frame_rate_controller_ s ;;
    if (throttled : bool) then Some s <| skipped_begin_impl_frame_args_ := args |>
    else BeginImplFrame now args s
}.

(** ** What happens to a surface

    A call of its client or owner, or a posted task. *)
Inductive Event :=
  | Call (call : SurfaceCall)
  | RunTimer
  | RunManualTick
  | RunSwapComplete
  | RunCheck.

Definition handle (now : Z) (e : Event) (s : OutputSurface) : option OutputSurface :=
  match e with
  | Call call => surface_call now call s
  | RunTimer => OnTimerFired now s
  | RunManualTick => ManualTick now s
  | RunSwapComplete => OnSwapBuffersComplete s
  | RunCheck => CheckForRetroactiveBeginImplFrame now s
  end.

End OutputSurface.
#[export] Existing Instances eta_OutputSurface surface_ticks.
