(* ===== verification/TimeSourceProperties.v ===== *)
(** The ticks of a time source and of the controller it drives: the next tick is
    the first on the grid of the display that leaves half an interval after the
    last one, one timer is aimed at it while the source is active, and what
    every operation of the source and of the controller keeps. *)
From S2P Require Import Prelude SchedulerStateMachine TimeSource FrameRateController.
#[local] Open Scope Z_scope.
#[local] Open Scope int_scope.
#[local] Open Scope cxx_scope.

(** ** The grid *)

(** [t] is the first tick of the grid through [timebase] at or after [now]
    that is more than half an interval after the tick at [last]. *)
Definition first_tick (now last timebase i t : Z) : Prop :=
  (i | t - timebase) /\ now <= t /\ Z.quot i 2 < t - last /\
  forall u, (i | u - timebase) -> now <= u -> Z.quot i 2 < u - last -> t <= u.

(** Times are below [time_limit], intervals too; a timer fires less than
    [timer_slack] before its time, since its delay may be rounded down to a
    millisecond; and an interval is at least twice that. *)
Definition time_limit : Z := 2 ^ 60.
Definition timer_slack : Z := 1000.
Definition good_interval (i : Z) : Prop := 2 * timer_slack <= i < time_limit.
Definition good_time (t : Z) : Prop := 0 <= t < time_limit.

Lemma first_tick_ext now last b b' i t :
  (i | b - b') -> first_tick now last b i t -> first_tick now last b' i t.
Proof.
  intros Hb (Hg & Hn & Hl & Hf). split_and!; [|done..|].
  - replace (t - b') with ((t - b) + (b - b')) by lia. by apply Z.divide_add_r.
  - intros u Hu. apply Hf. replace (u - b) with ((u - b') - (b - b')) by lia.
    by apply Z.divide_sub_r.
Qed.

(** Points of a grid are an interval apart. *)
Lemma grid_gap i a b c : 0 < i -> (i | a - c) -> (i | b - c) -> b - i < a -> b <= a.
Proof.
  intros Hi [x Hx] [y Hy] H. assert (y - 1 < x) by (apply (Z.mul_lt_mono_pos_r i); lia).
  pose proof (Z.mul_le_mono_nonneg_r y x i ltac:(lia) ltac:(lia)). lia.
Qed.

(** The offset the code adds to [now] leads to the next point of the grid. *)
Lemma next_point now target i :
  0 < i ->
  let r := Z.rem (target - now) i in
  let offset := if !(r =? 0) && (target <? now) then r + i else r in
  0 <= offset < i /\ (i | now + offset - target).
Proof.
  intros Hi r offset.
  pose proof (Z.quot_rem' (target - now) i) as Hq. fold r in Hq.
  assert (i | now + offset - target).
  { unfold offset. case_if;
      [exists (1 - Z.quot (target - now) i)|exists (- Z.quot (target - now) i)]; lia. }
  split; [|done]. unfold offset.
  assert ((0 <= r < i /\ now <= target) \/ (- i < r <= 0 /\ target < now)) as [[? ?]|[? ?]].
  { unfold r. destruct (Z.le_gt_cases now target).
    - left. pose proof (Z.rem_bound_pos (target - now) i). lia.
    - right. pose proof (Z.rem_bound_pos_neg (target - now) i). lia. }
  - rewrite (proj2 (Z.ltb_ge target now)), andb_false_r by lia. lia.
  - rewrite (proj2 (Z.ltb_lt target now)), andb_true_r by lia.
    destruct (r =? 0) eqn:?; cbn; to_prop; lia.
Qed.

(** What [NextTickTarget] returns, and why the tick before it cannot be one
    that was missed twice. *)
Lemma NextTickTarget_first now t :
  good_interval (TimeSource.interval (next_parameters_ t)) ->
  0 <= tick_target (next_parameters_ t) < 4 * time_limit ->
  good_time now -> - time_limit <= last_tick_time_ t < now + timer_slack ->
  let i := TimeSource.interval (next_parameters_ t) in
  exists target, NextTickTarget now t = Some target /\
    first_tick now (last_tick_time_ t) (tick_target (next_parameters_ t)) i target /\
    target < now + 2 * i /\
    (target - i < now \/ target - i - last_tick_time_ t <= Z.quot i 2).
Proof.
  unfold good_interval, good_time, time_limit, timer_slack. intros Hi Ht Hn Hl.
  set (i := TimeSource.interval (next_parameters_ t)) in *. cbn zeta. pose proof (next_point now (tick_target (next_parameters_ t)) i) as Hp.
  cbn zeta in Hp. destruct Hp as [Ho Hg]; [lia|].
  assert (0 <= Z.quot i 2 /\ 2 * Z.quot i 2 <= i) as Hh.
  { rewrite Z.quot_div_nonneg by lia. split; [apply Z.div_pos|apply Z.mul_div_le]; lia. }
  pose proof (Z.quot_rem' (tick_target (next_parameters_ t) - now) i).
  unfold NextTickTarget. fold i. unfold kDoubleTickDivisor.
  rewrite (s64_id (tick_target (next_parameters_ t) - now)) by lia.
  set (r := Z.rem (tick_target (next_parameters_ t) - now) i) in *.
  assert (- i < r < i) as Hr.
  { pose proof (Z.rem_bound_abs (tick_target (next_parameters_ t) - now) i). lia. }
  rewrite (s64_id (r + i)) by lia.
  set (o := if !(r =? 0) && (tick_target (next_parameters_ t) <? now) then r + i else r) in *.
  rewrite (s64_id (now + o)) by lia.
  rewrite (s64_id (now + o - last_tick_time_ t)) by lia.
  rewrite (s64_id (now + o + i)) by lia.
  rewrite (proj2 (Z.leb_le now (now + o))), (proj2 (Z.eqb_neq i 0)) by lia. cbn.
  eexists. split; [reflexivity|].
  case_if; to_prop; (split; [split_and!|]); try lia.
  - replace (now + o + i - _) with ((now + o - tick_target (next_parameters_ t)) + 1 * i) by lia.
    apply Z.divide_add_r; [done|]. apply Z.divide_factor_r.
  - intros u Hu Hnu Hlu.
    pose proof (grid_gap i u (now + o) _ ltac:(lia) Hu Hg ltac:(lia)).
    destruct (Z.eq_dec u (now + o)); [lia|].
    apply (grid_gap i u (now + o + i) (now + o)); [lia|..|lia].
    + replace (u - (now + o)) with
        ((u - tick_target (next_parameters_ t)) - (now + o - tick_target (next_parameters_ t)))
        by lia. by apply Z.divide_sub_r.
    + exists 1. lia.
  - done.
  - intros u Hu Hnu _. exact (grid_gap i u (now + o) _ ltac:(lia) Hu Hg ltac:(lia)).
Qed.

(** ** The time source *)

Section Ticks.
(** The shortest interval. *)
Context {m : Z}.

(** The bounds of the times at [clock], and the grid they are on: the last
    timebase and interval given. *)
Record Timing (clock timebase i : Z) (t : DelayBasedTimeSource) : Prop := {
  tm_clock : good_time clock;
  tm_interval : TimeSource.interval (next_parameters_ t) = i;
  tm_next : good_interval i /\ m <= i;
  tm_target : 0 <= tick_target (next_parameters_ t) < 4 * time_limit;
  tm_grid : (i | tick_target (next_parameters_ t) - timebase);
  tm_last : - time_limit <= last_tick_time_ t < clock + timer_slack;
  tm_current : good_interval (TimeSource.interval (current_parameters_ t)) /\
               m <= TimeSource.interval (current_parameters_ t);
  tm_current_target : 0 <= tick_target (current_parameters_ t) < 4 * time_limit
}.

(** While the source is active one task is posted, for a tick more than half
    an interval after the last; and none otherwise. *)
Definition Armed (t : DelayBasedTimeSource) : Prop :=
  if TimeSource.active_ t then
    (exists delay, timer_tasks_ t = [delay]) /\
    Z.quot (TimeSource.interval (current_parameters_ t)) 2
      < tick_target (current_parameters_ t) - last_tick_time_ t
  else timer_tasks_ t = [].

Lemma good_half i : good_interval i -> m <= i -> Z.quot m 2 <= Z.quot i 2 /\ 0 <= 2 * Z.quot i 2 <= i.
Proof.
  unfold good_interval, timer_slack. intros Hi Hm. split; [by apply Z.quot_le_mono; lia|].
  rewrite Z.quot_div_nonneg by lia. pose proof (Z.mul_div_le i 2). pose proof (Z.div_pos i 2). lia.
Qed.

Lemma Timing_clock clock now b i t :
  Timing clock b i t -> clock <= now -> good_time now -> Timing now b i t.
Proof. intros [] H Hn. split; auto; lia. Qed.

Lemma PostNextTickTask_ok clock b i t :
  Timing clock b i t ->
  passes (PostNextTickTask clock t) (fun t' =>
    Timing clock b i t' /\ TimeSource.active_ t' = TimeSource.active_ t /\
    last_tick_time_ t' = last_tick_time_ t /\
    (exists delay, timer_tasks_ t' = timer_tasks_ t ++ [delay]) /\
    current_parameters_ t' = next_parameters_ t' /\
    let target := tick_target (current_parameters_ t') in
    first_tick clock (last_tick_time_ t) b i target /\
    (target - i < clock \/ target - i - last_tick_time_ t <= Z.quot i 2)).
Proof.
  intros [Hc Hi [Hg Hm] Ht Hb Hl Hcu Hct]. subst i. unfold PostNextTickTask.
  destruct (NextTickTarget_first clock t) as (target & -> & Hf & Hlt & Hmiss); [done..|].
  cbn. pose proof (first_tick_ext _ _ _ b _ _ Hb Hf) as Hfb. destruct Hfb as (Hgrid & Hnow & _).
  unfold good_time, good_interval in *. split_and!; try done; try (by eexists); cycle 1.
  - exact (first_tick_ext _ _ _ b _ _ Hb Hf).
  - split; cbn; try done; lia.
Qed.

Lemma SetActive_ok clock b i active t :
  Timing clock b i t -> Armed t ->
  passes (TimeSource.SetActive clock active t) (fun '(missed, t') =>
    Timing clock b i t' /\ Armed t' /\ TimeSource.active_ t' = active /\
    last_tick_time_ t <= last_tick_time_ t' /\
    (missed = 0 \/
     missed = last_tick_time_ t' /\ last_tick_time_ t + Z.quot m 2 < last_tick_time_ t')).
Proof.
  intros HT HA. unfold TimeSource.SetActive.
  destruct (Bool.eqb active (TimeSource.active_ t)) eqn:He.
  { apply Bool.eqb_prop in He. cbn. split_and!; auto; lia. }
  apply Bool.eqb_false_iff in He. unfold Armed in HA.
  destruct active; cbn; [|split_and!; auto using Z.le_refl; destruct HT; split; auto].
  assert (TimeSource.active_ t = false) as Hin by (destruct (TimeSource.active_ t); done).
  rewrite Hin in HA. apply passes_bind.
  assert (Timing clock b i t <| TimeSource.active_ := true |>) as HT' by (destruct HT; by split).
  pose proof (PostNextTickTask_ok _ _ _ _ HT') as HP. clear HT.
  destruct (PostNextTickTask _ _) as [t'|]; [|done]. cbn in HP |- *.
  destruct HP as (HT & Ha & Hla & [delay Hd] & Hcn & (_ & Hnow & Hhalf & _) & Hmiss).
  rewrite HA in Hd. pose proof HT as [Hc Hi [Hg Hm] Ht Hb Hl Hcu Hct].
  pose proof (good_half i Hg Hm). pose proof Hg as Hg'.
  rewrite Hcn, Hi in *. unfold good_time, good_interval, time_limit, timer_slack in *.
  unfold kDoubleTickDivisor. rewrite !s64_id by lia. rewrite Hla.
  case_if; to_prop; cbn.
  - split_and!; try done; try lia.
    + split; cbn; rewrite ?Hcn, ?Hi; auto; unfold good_time, good_interval, time_limit, timer_slack; lia.
    + unfold Armed. cbn. rewrite Ha, Hcn, Hi. split; [by eexists|lia].
  - split_and!; auto; try lia.
    unfold Armed. rewrite Ha, Hcn, Hi, Hla. split; [by eexists|lia].
Qed.

(** The timer fires: the tick is more than half an interval after the last. *)
Lemma fire_ok clock now b i t :
  Timing clock b i t -> Armed t -> TimeSource.active_ t = true ->
  clock <= now -> good_time now -> tick_target (current_parameters_ t) < now + timer_slack ->
  passes (PostNextTickTask now
            t <| timer_tasks_ := tail (timer_tasks_ t) |>
              <| last_tick_time_ := tick_target (current_parameters_ t) |>) (fun t' =>
    Timing now b i t' /\ Armed t' /\ TimeSource.active_ t' = true /\
    last_tick_time_ t + Z.quot m 2 < last_tick_time_ t').
Proof.
  intros HT HA Ha Hcn Hn Hs. unfold Armed in HA. rewrite Ha in HA. destruct HA as [[d Hd] Hh].
  destruct (good_half (TimeSource.interval (current_parameters_ t))) as [? _]; [apply HT..|].
  set (u := _ <| last_tick_time_ := _ |>).
  assert (Timing now b i u) as HT'.
  { apply (Timing_clock _ now) in HT; [|done..]. destruct HT. unfold time_limit in *.
    split; cbn; auto; unfold time_limit; lia. }
  pose proof (PostNextTickTask_ok _ _ _ _ HT') as HP.
  destruct (PostNextTickTask now u) as [t'|]; [|done].
  cbn in HP |- *. destruct HP as (HT'' & Ha' & Hl & [d' Hd'] & Hc & (_ & _ & Hhalf & _) & _).
  rewrite Hd in Hd'. rewrite Ha in Ha'. split_and!; [done| |done|].
  - unfold Armed. rewrite Ha', Hl. split; [by exists d'|].
    rewrite Hc, (tm_interval _ _ _ _ HT''). rewrite Hc in Hhalf. exact Hhalf.
  - rewrite Hl. lia.
Qed.

Lemma reset_timer_ok clock b i t :
  Timing clock b i t -> Armed t ->
  passes (reset_timer clock t) (fun t' =>
    Timing clock b i t' /\ Armed t' /\ TimeSource.active_ t' = true /\
    last_tick_time_ t <= last_tick_time_ t').
Proof.
  intros HT HA. eapply passes_then; [exact (SetActive_ok _ _ _ false _ HT HA)|].
  intros [x t1] (HT1 & HA1 & _ & Hl1 & _). eapply passes_then; [exact (SetActive_ok _ _ _ true _ HT1 HA1)|].
  intros [y t2] (HT2 & HA2 & Ha2 & Hl2 & _). cbn. split_and!; auto. lia.
Qed.

Lemma SetTimebaseAndInterval_ok clock b i b' i' t :
  Timing clock b i t -> Armed t -> good_time b' -> good_interval i' -> m <= i' ->
  passes (TimeSource.SetTimebaseAndInterval clock b' i' t) (fun t' =>
    Timing clock b' i' t' /\ Armed t' /\ TimeSource.active_ t' = TimeSource.active_ t /\
    last_tick_time_ t <= last_tick_time_ t').
Proof.
  intros HT HA Hb Hi Hm. unfold TimeSource.SetTimebaseAndInterval.
  set (u := t <| next_parameters_ := _ |>).
  assert (Timing clock b' i' u) as HT'.
  { destruct HT, Hb. unfold time_limit in *. split; cbn; auto; [unfold time_limit; lia|].
    rewrite Z.sub_diag. apply Z.divide_0_r. }
  assert (Armed u) as HA' by exact HA.
  change (TimeSource.active_ t) with (TimeSource.active_ u).
  change (last_tick_time_ t) with (last_tick_time_ u). clearbody u.
  pose proof (reset_timer_ok _ _ _ _ HT' HA') as HR.
  repeat case_if; to_prop; try (cbn; split_and!; auto; lia).
  all: destruct (reset_timer clock u) as [t'|]; [|done]; cbn in HR |- *;
    destruct HR as (? & ? & -> & ?); auto.
Qed.

(** ** The controller *)

(** Whether the controller has a time source. *)
Context {throttle : bool}.

Definition swap_limit : Z := 2 ^ 30.

(** The controller of a surface with [n] completions posted. *)
Record ControllerOk (clock b i n : Z) (c : FrameRateController) : Prop := {
  co_interval : 0 <= interval_ c;
  co_max : 0 <= max_swaps_pending_ c;
  co_num : num_frames_pending_ c = n;
  co_manual : 0 <= manual_ticks_ c;
  co_idle : active_ c = false -> manual_ticks_ c = 0;
  co_timer : match time_source_ c with
             | Some t => throttle = true /\ Timing clock b i t /\ Armed t /\
                         TimeSource.active_ t = active_ c /\ manual_ticks_ c = 0
             | None => throttle = false
             end
}.

(** An active controller without a time source has a tick posted, or waits for
    a swap to complete. *)
Definition Live (c : FrameRateController) : Prop :=
  active_ c = true -> time_source_ c = None -> 0 < manual_ticks_ c \/ 0 < num_frames_pending_ c.

Definition last_of (c : FrameRateController) : Z :=
  match time_source_ c with Some t => last_tick_time_ t | None => 0 end.

Lemma ControllerOk_clock clock now b i n c :
  ControllerOk clock b i n c -> clock <= now -> good_time now -> ControllerOk now b i n c.
Proof.
  intros [] Hn Hg. split; auto. destruct (time_source_ c); [|done].
  destruct co_timer0 as (? & ? & ?). eauto using Timing_clock.
Qed.

Lemma PostManualTick_ok clock b i n c :
  time_source_ c = None ->
  ControllerOk clock b i n c -> ControllerOk clock b i n (PostManualTick c).
Proof.
  intros Hs []. rewrite Hs in *. unfold PostManualTick.
  destruct (active_ c) eqn:E; split; cbn; rewrite ?E, ?Hs; auto; try lia.
Qed.

Lemma PostManualTick_live c : 0 <= manual_ticks_ c -> Live (PostManualTick c).
Proof.
  unfold PostManualTick, Live. intros. destruct (active_ c) eqn:E; cbn in *; [lia|congruence].
Qed.

Lemma frc_SetActive_ok clock b i n active c :
  ControllerOk clock b i n c ->
  passes (FrameRateController.SetActive clock active c) (fun '(args, c') =>
    ControllerOk clock b i n c' /\ (Live c -> Live c') /\ last_of c <= last_of c' /\
    (args = invalid_args \/
     IsValid args = true /\ frame_time args = last_of c' /\
     (throttle = true -> last_of c + Z.quot m 2 < last_of c'))).
Proof.
  intros HC. unfold FrameRateController.SetActive.
  destruct (Bool.eqb (active_ c) active) eqn:He; [cbn; auto with lia|].
  apply Bool.eqb_false_iff in He. pose proof HC as [Hi Hm Hn Hk Hidle Ht]. cbn [time_source_ setter].
  destruct (time_source_ c) as [t|] eqn:Es.
  - destruct Ht as (Hth & HT & HA & Ha & Hz).
    eapply passes_then; [exact (SetActive_ok _ _ _ active _ HT HA)|].
    intros [missed t'] (HT' & HA' & Ha' & Hl & Hmiss).
    assert (ControllerOk clock b i n c <| active_ := active |> <| time_source_ := Some t' |>)
      by (split; cbn; auto).
    destruct (negb (missed =? 0)) eqn:Hnz; cbn; unfold last_of, Live; rewrite Es; cbn;
      (split_and!; [done|done|done|]); [right|by left].
    split_and!; [by apply Z.leb_le|..]; to_prop; naive_solver.
  - cbn. unfold last_of, Live. destruct active; cbn; rewrite ?Es; cbn.
    + split_and!; [|lia..|by left]. split; cbn; rewrite ?Es; auto; [lia|discriminate].
    + split_and!; [|discriminate|lia|by left]. split; cbn; rewrite ?Es; auto; lia.
Qed.

Lemma frc_SetTimebaseAndInterval_ok clock b i b' i' n c :
  ControllerOk clock b i n c -> good_time b' -> good_interval i' -> m <= i' ->
  passes (FrameRateController.SetTimebaseAndInterval clock b' i' c) (fun c' =>
    ControllerOk clock b' i' n c' /\ (Live c -> Live c') /\ last_of c <= last_of c').
Proof.
  intros [Hi Hm Hn Hk Hidle Ht] Hb Hi' Hm'. unfold good_interval, timer_slack in Hi'.
  unfold FrameRateController.SetTimebaseAndInterval. cbn. unfold last_of, Live.
  destruct (time_source_ c) as [t|] eqn:Es; cbn.
  - destruct Ht as (Hth & HT & HA & Ha & Hz).
    eapply passes_then; [by apply (SetTimebaseAndInterval_ok _ _ _ b' i' _ HT HA)|].
    intros t' (HT' & HA' & Ha' & Hl). cbn. split_and!; [|done..].
    split; cbn; auto; [lia|]. by rewrite Ha'.
  - split_and!; [|by rewrite Es|by rewrite Es]. split; cbn; rewrite ?Es; auto; lia.
Qed.

Lemma frc_DidSwapBuffers_ok clock b i n c :
  ControllerOk clock b i n c -> 0 <= n < 2 * swap_limit - 1 ->
  ControllerOk clock b i (n + 1) (FrameRateController.DidSwapBuffers c) /\
  Live (FrameRateController.DidSwapBuffers c).
Proof.
  intros [Hi Hm Hn Hk Hidle Ht] Hb. unfold swap_limit in Hb.
  assert (num_frames_pending_ (FrameRateController.DidSwapBuffers c) = n + 1) as H.
  { cbn. rewrite Hn. apply s32_id. lia. }
  split; [by split|]. intros _ _. right. rewrite H. lia.
Qed.

Lemma frc_DidSwapBuffersComplete_ok clock b i n c :
  ControllerOk clock b i n c -> 0 < n < 2 * swap_limit ->
  passes (FrameRateController.DidSwapBuffersComplete c) (fun c' =>
    ControllerOk clock b i (n - 1) c' /\ Live c' /\ last_of c' = last_of c).
Proof.
  intros [Hi Hm Hn Hk Hidle Ht] Hb. unfold swap_limit in Hb.
  unfold FrameRateController.DidSwapBuffersComplete. rewrite DCHECK_bind.
  rewrite (proj2 (Z.ltb_lt 0 _)) by lia. cbn. rewrite Hn, s32_id by lia.
  set (c' := c <| num_frames_pending_ := n - 1 |>).
  assert (ControllerOk clock b i (n - 1) c') as H by by split.
  destruct (time_source_ c) as [t|] eqn:Es.
  - split_and!; [done| |done]. intros _ Hs. cbn in Hs. congruence.
  - split_and!; [by apply PostManualTick_ok|by apply PostManualTick_live|].
    unfold PostManualTick, last_of. by destruct (active_ c').
Qed.

End Ticks.
