(* ===== verification/FramePacing.v ===== *)
(** The pacing of frames from the time source to the client of an output
    surface: no check of the surface, its controller or its time source fails,
    ticks never stop, and frames are never closer than half of the shortest
    interval. *)
From S2P Require Import Prelude SchedulerStateMachine TimeSource FrameRateController OutputSurface.
From S2P Require Import TimeSourceProperties.
#[local] Open Scope Z_scope.
#[local] Open Scope int_scope.
#[local] Open Scope cxx_scope.

Section Pacing.
(** The shortest interval, and whether frames are throttled by a time source. *)
Variable m : Z.
Variable throttle : bool.
#[local] Abbreviation Timing := (TimeSourceProperties.Timing (m := m)).
#[local] Abbreviation ControllerOk := (TimeSourceProperties.ControllerOk (m := m) (throttle := throttle)).

(** ** The surface *)

Context {CS : Type} `{OutputSurfaceClient CS}.
Variable adjust_deadline_for_parent : bool.
Implicit Types s : OutputSurface (CS := CS).

(** What holds between the events, and while the client answers a frame. *)
Record SurfaceOk (clock b i : Z) s : Prop := {
  so_controller : exists c, frame_rate_controller_ s = Some c /\
                            ControllerOk clock b i (completions_ s) c;
  so_swaps : 0 <= completions_ s < 2 * swap_limit /\
             - 2 * swap_limit < pending_swap_buffers_ s - completions_ s <= 0
}.

(** What a call of the surface may do to its last tick, its liveness, and the
    frames given and skipped. *)
Definition last_tick s : Z := from_option last_of 0 (frame_rate_controller_ s).
Definition live s : Prop := forall c, frame_rate_controller_ s = Some c -> Live c.

(** A fact about the controller of a surface. *)
Definition controlled (P : FrameRateController -> Prop) s : Prop :=
  exists c, frame_rate_controller_ s = Some c /\ P c.

Record call_effect s s' : Prop := {
  ce_frames : frames_ s' = frames_ s;
  ce_live : live s -> live s';
  ce_last : last_tick s <= last_tick s';
  ce_completions : completions_ s' <= completions_ s + 1;
  ce_skipped : skipped_begin_impl_frame_args_ s' = skipped_begin_impl_frame_args_ s \/
    skipped_begin_impl_frame_args_ s' = invalid_args \/
    IsValid (skipped_begin_impl_frame_args_ s') = true /\
    frame_time (skipped_begin_impl_frame_args_ s') = last_tick s' /\
    (throttle = true -> last_tick s + Z.quot m 2 < last_tick s')
}.

(** The calls a client may make when it is given a frame, and those that may be
    made at any time. *)
Definition is_answer (call : SurfaceCall) : bool :=
  match call with
  | CallSetMaxFramesPending n => 0 <=? n
  | CallOnVSyncParametersChanged _ _ => false
  | _ => true
  end.

Lemma PostCheck_same s :
  let s' := PostCheckForRetroactiveBeginImplFrame s in
  frame_rate_controller_ s' = frame_rate_controller_ s /\ completions_ s' = completions_ s /\
  pending_swap_buffers_ s' = pending_swap_buffers_ s /\ frames_ s' = frames_ s /\
  skipped_begin_impl_frame_args_ s' = skipped_begin_impl_frame_args_ s.
Proof. unfold PostCheckForRetroactiveBeginImplFrame. by case_if. Qed.

Lemma PostCheck_ok clock b i s0 s :
  SurfaceOk clock b i s -> call_effect s0 s ->
  SurfaceOk clock b i (PostCheckForRetroactiveBeginImplFrame s) /\
  call_effect s0 (PostCheckForRetroactiveBeginImplFrame s).
Proof.
  destruct (PostCheck_same s) as (Hc & Hn & Hp & Hf & Hs).
  intros [] []. unfold last_tick, live in *.
  split; split; unfold last_tick, live; rewrite ?Hc, ?Hn, ?Hp, ?Hf, ?Hs; auto.
Qed.

Lemma SetNeedsBeginImplFrame_ok clock b i enable s :
  SurfaceOk clock b i s ->
  passes (SetNeedsBeginImplFrame clock enable s) (fun s' =>
    SurfaceOk clock b i s' /\ call_effect s s').
Proof.
  intros [(c & Ec & HC) Hsw]. unfold SetNeedsBeginImplFrame. cbn. rewrite Ec.
  apply passes_bind.
  eapply passes_then; [exact (frc_SetActive_ok _ _ _ _ enable _ HC)|].
  intros [args c'] (HC' & Hlive & Hl & Hargs). cbn [passes].
  set (s' := if IsValid args then _ else _).
  assert (SurfaceOk clock b i s' /\ call_effect s s') as [].
  { unfold s'. unfold last_tick, live.
    assert (forall t : OutputSurface (CS := CS), frame_rate_controller_ t = Some c' -> live s -> live t).
    { intros t Et Hs c1 Hc1. rewrite Et in Hc1. injection Hc1 as <-. apply Hlive, Hs, Ec. }
    case_if; (split; split; cbn; [eauto|done|done|eauto|unfold last_tick; cbn; rewrite Ec; done|lia|]);
      unfold last_tick; cbn; rewrite Ec; cbn; [|by left].
    naive_solver. }
  case_if; [by apply PostCheck_ok|done].
Qed.

(** An operation of the controller alone. *)
Lemma on_controller_ok clock b i f s :
  controlled (fun c => passes (f c) (fun c' =>
    ControllerOk clock b i (completions_ s) c' /\ (Live c -> Live c') /\
    last_of c <= last_of c')) s ->
  0 <= completions_ s < 2 * swap_limit ->
  - 2 * swap_limit < pending_swap_buffers_ s - completions_ s <= 0 ->
  passes (on_controller f s) (fun s' =>
    SurfaceOk clock b i s' /\ exists c', s' = s <| frame_rate_controller_ := Some c' |> /\
      (live s -> live s') /\ last_tick s <= last_tick s').
Proof.
  intros (c & Ec & Hf) Hn Hp. unfold on_controller. rewrite Ec.
  eapply passes_then; [exact Hf|]. intros c' (HC & Hl & Hla). split; [by split; [exists c'|]|].
  exists c'. split_and!; [done| |unfold last_tick; cbn; by rewrite Ec].
  intros Hs c1 [= <-]. apply Hl, Hs, Ec.
Qed.

(** The same after fields of [s0] changed that the controller does not see. *)
Lemma on_controller_effect clock b i f s0 s :
  controlled (fun c => passes (f c) (fun c' =>
    ControllerOk clock b i (completions_ s) c' /\ (Live c -> Live c') /\
    last_of c <= last_of c')) s ->
  0 <= completions_ s < 2 * swap_limit ->
  - 2 * swap_limit < pending_swap_buffers_ s - completions_ s <= 0 ->
  frame_rate_controller_ s = frame_rate_controller_ s0 -> frames_ s = frames_ s0 ->
  completions_ s <= completions_ s0 + 1 ->
  skipped_begin_impl_frame_args_ s = skipped_begin_impl_frame_args_ s0 \/
  skipped_begin_impl_frame_args_ s = invalid_args ->
  passes (on_controller f s) (fun s' => SurfaceOk clock b i s' /\ call_effect s0 s').
Proof.
  intros Hf Hn Hp Hc Hfr Hle Hs. pose proof (on_controller_ok _ _ _ _ _ Hf Hn Hp) as HP.
  destruct (on_controller f s) as [s'|]; [|done]. destruct HP as (HS & c' & -> & Hl & Hla).
  split; [done|]. unfold last_tick, live in *. rewrite Hc in *.
  split; unfold last_tick, live; cbn in *; auto. naive_solver.
Qed.

Lemma SwapBuffers_ok clock b i s :
  SurfaceOk clock b i s -> completions_ s < 2 * swap_limit - 1 ->
  passes (SwapBuffers s) (fun s' => SurfaceOk clock b i s' /\ call_effect s s').
Proof.
  intros [(c & Ec & HC) [Hn Hp]] Hlt. unfold SwapBuffers, DidSwapBuffers. cbn.
  unfold swap_limit in *. rewrite s32_id by lia.
  eapply (passes_then _ _ (fun s' => SurfaceOk clock b i s' /\ call_effect s s')).
  - apply on_controller_effect; cbn; unfold swap_limit; try lia; auto.
    exists c. split; [done|]. destruct (frc_DidSwapBuffers_ok _ _ _ _ _ HC); [unfold swap_limit; lia|].
    split_and!; [done|done|]. unfold last_of. cbn. lia.
  - intros s' []. by apply PostCheck_ok.
Qed.

Lemma OnSwapBuffersComplete_ok clock b i s :
  SurfaceOk clock b i s -> 0 < completions_ s ->
  passes (OnSwapBuffersComplete s) (fun s' => SurfaceOk clock b i s' /\ call_effect s s').
Proof.
  intros [(c & Ec & HC) [Hn Hp]] Hlt. unfold OnSwapBuffersComplete. cbn.
  unfold swap_limit in *. rewrite s32_id by lia.
  eapply (passes_then _ _ (fun s' => SurfaceOk clock b i s' /\ call_effect s s')).
  - apply on_controller_effect; cbn; unfold swap_limit; try lia; auto.
    exists c. split; [done|].
    pose proof (frc_DidSwapBuffersComplete_ok _ _ _ _ _ HC) as HD. unfold swap_limit in HD.
    destruct (FrameRateController.DidSwapBuffersComplete c) as [c'|]; cbn in *;
      [|by apply HD; lia]. destruct HD as (? & ? & ->); auto with lia.
  - intros s' []. by apply PostCheck_ok.
Qed.

Lemma SetMaxFramesPending_ok clock b i n s :
  SurfaceOk clock b i s -> 0 <= n ->
  passes (SetMaxFramesPending n s) (fun s' => SurfaceOk clock b i s' /\ call_effect s s').
Proof.
  intros [(c & Ec & HC) [Hc Hp]] Hn. unfold SetMaxFramesPending.
  eapply passes_then.
  - apply (on_controller_effect clock b i _ s); auto; [|lia].
    exists c. split; [done|]. unfold SetMaxSwapsPending.
    rewrite DCHECK_bind, (proj2 (Z.leb_le 0 n)) by done. cbn.
    split_and!; [destruct HC; by split|done|unfold last_of; cbn; lia].
  - intros s' [[] []]. by split; split.
Qed.

Lemma OnVSyncParametersChanged_ok clock b i b' i' s :
  SurfaceOk clock b i s -> good_time b' -> good_interval i' -> m <= i' ->
  passes (OnVSyncParametersChanged clock b' i' s) (fun s' =>
    SurfaceOk clock b' i' s' /\ call_effect s s').
Proof.
  intros [(c & Ec & HC) [Hn Hp]] Hb Hi Hm.
  apply (on_controller_effect clock b' i' _ s); auto; [|lia].
  exists c. split; [done|]. by eapply frc_SetTimebaseAndInterval_ok.
Qed.

Lemma DidLoseOutputSurface_ok clock b i s :
  SurfaceOk clock b i s ->
  passes (DidLoseOutputSurface clock s) (fun s' => SurfaceOk clock b i s' /\ call_effect s s').
Proof.
  intros [(c & Ec & HC) [Hn Hp]]. unfold DidLoseOutputSurface.
  apply on_controller_effect; cbn; auto; try lia.
  exists c. split; [done|].
  eapply passes_then; [exact (frc_SetActive_ok _ _ _ _ false _ HC)|].
  intros [args c'] (? & ? & ? & _). by cbn.
Qed.

(** An answer of the client, at the time of the frame. *)
Lemma answer_ok clock b i call s :
  SurfaceOk clock b i s -> is_answer call = true -> completions_ s < 2 * swap_limit - 1 ->
  passes (surface_call clock call s) (fun s' => SurfaceOk clock b i s' /\ call_effect s s').
Proof.
  intros Hs Ha Hn. destruct call; cbn in *; try discriminate; to_prop.
  - by apply SetNeedsBeginImplFrame_ok.
  - by apply SwapBuffers_ok.
  - by apply SetMaxFramesPending_ok.
  - by apply DidLoseOutputSurface_ok.
Qed.

(** ** Frames *)

(** What is asked of the client: it answers a frame only by calls of its own,
    and by fewer than there may be swaps in flight. *)
Definition answers (CS : Type) `{OutputSurfaceClient CS} : Prop :=
  forall args client, let calls := snd (client_begin_impl_frame args client) in
    forallb is_answer calls = true /\ zlen calls < swap_limit.

Hypothesis client_answers : answers CS.

Lemma run_calls_ok clock b i calls s :
  forallb is_answer calls = true -> completions_ s + zlen calls < 2 * swap_limit ->
  SurfaceOk clock b i s ->
  passes (run_calls clock calls s) (fun s' =>
    SurfaceOk clock b i s' /\ frames_ s' = frames_ s /\ last_tick s <= last_tick s' /\
    (live s -> live s')).
Proof.
  revert s. induction calls as [|call calls IH]; cbn; intros s Ha Hn Hs.
  { split_and!; [done|done|lia|done]. }
  apply andb_true_iff in Ha as [Ha Hc]. unfold zlen in *. cbn [length] in Hn.
  eapply passes_then; [apply (answer_ok _ _ _ _ _ Hs Ha); lia|].
  intros s1 [Hs1 [Hf Hlv Hl Hc1 _]].
  specialize (IH s1 Hc ltac:(lia) Hs1). destruct (run_calls clock calls s1); [|done].
  cbn in *. destruct IH as (? & ? & ? & ?). split_and!; [done|congruence|lia|auto].
Qed.

(** A frame is given to a client that is ready, or it is skipped. *)
Lemma BeginImplFrame_ok clock b i args s :
  SurfaceOk clock b i s -> completions_ s < swap_limit ->
  passes (BeginImplFrame clock args s) (fun s' =>
    SurfaceOk clock b i s' /\ (live s -> live s') /\ last_tick s <= last_tick s' /\
    (must_skip s = true /\ s' = s <| skipped_begin_impl_frame_args_ := args |> \/
     must_skip s = false /\ frames_ s' = args :: frames_ s /\
     skipped_begin_impl_frame_args_ s' = invalid_args)).
Proof.
  intros Hs Hn. unfold BeginImplFrame. destruct (must_skip s) eqn:E.
  { cbn. split_and!; [destruct Hs; by split|done|unfold last_tick; cbn; lia|by left]. }
  unfold give_frame. pose proof (client_answers args (client_ s)) as Ha. cbn [client_] in *.
  change (client_ s <| client_ready_for_begin_impl_frame_ := false |>) with (client_ s).
  destruct (client_begin_impl_frame args (client_ s)) as [client calls]. destruct Ha as [Ha Hlen].
  cbn [snd] in *. set (s1 := _ <| frames_ := _ |>).
  assert (SurfaceOk clock b i s1) as Hs1 by (destruct Hs; by split).
  eapply passes_then; [apply (run_calls_ok clock b i calls s1 Ha); [cbn; lia|exact Hs1]|].
  intros s2 (Hs2 & Hf & Hl & Hlv). cbn. split_and!; [destruct Hs2; by split|exact Hlv|exact Hl|].
  right. split_and!; [done|by rewrite Hf|done].
Qed.

(** The tick of an active controller. *)
Lemma OnTimerTick_ok clock b i c s :
  SurfaceOk clock b i s -> completions_ s < swap_limit ->
  frame_rate_controller_ s = Some c -> active_ c = true ->
  passes (FrameRateController.OnTimerTick clock s) (fun s' =>
    SurfaceOk clock b i s' /\ live s' /\ last_tick s <= last_tick s' /\
    exists args, IsValid args = true /\ frame_time args = LastTickTime clock c /\
      (frames_ s' = frames_ s /\ skipped_begin_impl_frame_args_ s' = args \/
       must_skip s = false /\ frames_ s' = args :: frames_ s /\
       skipped_begin_impl_frame_args_ s' = invalid_args)).
Proof.
  intros Hs Hn Ec Ha. unfold FrameRateController.OnTimerTick.
  destruct (so_controller _ _ _ _ Hs) as (c' & Ec' & HC). rewrite Ec in Ec'. injection Ec' as <-.
  cbn [controller surface_ticks]. rewrite Ec. cbn [mbind option_bind]. rewrite Ha. cbn [DCHECK].
  set (args := Create _ _ _).
  assert (IsValid args = true) as Hv by (apply Z.leb_le; apply HC).
  cbn [FrameRateControllerTick surface_ticks]. rewrite Ec. cbn [mbind option_bind].
  destruct (is_throttled c) eqn:Et.
  - cbn. rewrite Ec. cbn. assert (live s) as Hlive.
    { intros c1 Hc1 _ _. rewrite Ec in Hc1. injection Hc1 as <-. right.
      unfold is_throttled in Et. to_prop. pose proof (co_max _ _ _ _ _ HC). lia. }
    assert (SurfaceOk clock b i s <| skipped_begin_impl_frame_args_ := args |>)
      by (destruct Hs; by split).
    destruct (time_source_ c); cbn;
      (split_and!; [done|exact Hlive|unfold last_tick; cbn; lia|]; exists args;
       split_and!; [done|done|by left]).
  - eapply passes_then; [exact (BeginImplFrame_ok _ _ _ args _ Hs Hn)|].
    intros s1 (Hs1 & _ & Hl & Hf). destruct (so_controller _ _ _ _ Hs1) as (c1 & Ec1 & HC1).
    rewrite Ec1. cbn [mbind option_bind negb passes].
    assert (exists args, IsValid args = true /\ frame_time args = LastTickTime clock c /\
      (frames_ s1 = frames_ s /\ skipped_begin_impl_frame_args_ s1 = args \/
       must_skip s = false /\ frames_ s1 = args :: frames_ s /\
       skipped_begin_impl_frame_args_ s1 = invalid_args)) as Hex.
    { exists args. split_and!; [done..|]. destruct Hf as [[_ ->]|]; [by left|by right]. }
    destruct (time_source_ c1) eqn:Es1; cbn [passes].
    + split_and!; [done| |done|done]. intros c2 Hc2 _ Hs2. congruence.
    + split_and!; [| |unfold last_tick in *; rewrite Ec1 in Hl; cbn in *|exact Hex].
      * destruct Hs1. split; [|done]. exists (PostManualTick c1). split; [done|].
        by apply PostManualTick_ok.
      * intros c2 [= <-]. apply PostManualTick_live, HC1.
      * unfold PostManualTick. by destruct (active_ c1).
Qed.

(** ** Spacing *)

(** A frame at [t] is more than half the shortest interval after the latest of
    the frames given. *)
Definition apart (t : Z) (frames : list BeginFrameArgs) : Prop :=
  match frames with a :: _ => frame_time a + Z.quot m 2 < t | [] => True end.
Fixpoint spaced (frames : list BeginFrameArgs) : Prop :=
  match frames with a :: l => apart (frame_time a) l /\ spaced l | [] => True end.
Definition not_before (frames : list BeginFrameArgs) (t : Z) : Prop :=
  match frames with a :: _ => frame_time a <= t | [] => True end.

Record Paced s : Prop := {
  pa_valid : Forall (fun a => IsValid a = true) (frames_ s);
  pa_frames : throttle = true -> spaced (frames_ s) /\ not_before (frames_ s) (last_tick s);
  pa_skipped : skipped_begin_impl_frame_args_ s = invalid_args \/
    IsValid (skipped_begin_impl_frame_args_ s) = true /\
    (throttle = true ->
     frame_time (skipped_begin_impl_frame_args_ s) <= last_tick s /\
     apart (frame_time (skipped_begin_impl_frame_args_ s)) (frames_ s))
}.

Lemma apart_later frames t u : 0 <= m -> not_before frames t -> t + Z.quot m 2 < u -> apart u frames.
Proof. destruct frames; cbn; [done|lia]. Qed.

Lemma not_before_later frames t u : not_before frames t -> t <= u -> not_before frames u.
Proof. destruct frames; cbn; [done|lia]. Qed.

Lemma call_effect_paced s s' : 0 <= m -> call_effect s s' -> Paced s -> Paced s'.
Proof.
  intros Hm [Hf _ Hl _ Hs] [Hv Hp Hk]. split; rewrite Hf; [done| |].
  - intros Ht. destruct (Hp Ht). eauto using not_before_later.
  - destruct Hs as [->|[->|(Hvs & Ht & Hd)]]; [|by left|].
    + destruct Hk as [|[? Hk]]; [by left|right]. split; [done|]. intros Ht. destruct (Hk Ht).
      split; [lia|done].
    + right. split; [done|]. intros Hth. destruct (Hp Hth). rewrite Ht.
      split; [lia|]. eapply apart_later; eauto.
Qed.

(** A frame that comes from the tick at [last_tick s'], or was skipped. *)
Lemma frame_paced s s' args :
  0 <= m -> Paced s -> last_tick s <= last_tick s' -> IsValid args = true ->
  (throttle = true -> frame_time args <= last_tick s' /\ apart (frame_time args) (frames_ s)) ->
  frames_ s' = frames_ s /\ skipped_begin_impl_frame_args_ s' = args \/
  frames_ s' = args :: frames_ s /\ skipped_begin_impl_frame_args_ s' = invalid_args ->
  Paced s'.
Proof.
  intros Hm [Hv Hp Hk] Hl Hva Ht Hc. destruct Hc as [[Hf Hs]|[Hf Hs]]; split; rewrite Hf, ?Hs; auto.
  - intros Hth. destruct (Hp Hth). eauto using not_before_later.
  - intros Hth. destruct (Hp Hth), (Ht Hth). by split.
Qed.

(** ** Events *)

(** What holds between the events. *)
Record Inv (clock b i : Z) s : Prop := {
  inv_surface : SurfaceOk clock b i s;
  inv_live : live s;
  inv_paced : Paced s;
  inv_clock : good_time clock /\ DefaultRetroactiveBeginFramePeriod <= clock;
  inv_min : 2 * timer_slack <= m
}.

(** The time source of a surface. *)
Definition timer s : option DelayBasedTimeSource :=
  c ← frame_rate_controller_ s; time_source_ c.

(** Whether an event may happen at [now]: a call gives times in range, a task
    is posted, a timer is not too early, and not too many swaps are in flight. *)
Definition permitted (clock now : Z) (e : Event) s : bool :=
  (clock <=? now) && (now <? time_limit) && (completions_ s <? swap_limit) &&
  match e with
  | Call (CallOnVSyncParametersChanged b i) =>
      (0 <=? b) && (b <? time_limit) && (2 * timer_slack <=? i) && (m <=? i) && (i <? time_limit)
  | Call call => is_answer call
  | RunTimer =>
      match timer s with
      | Some t => negb (Nat.eqb (length (timer_tasks_ t)) 0) &&
                  (tick_target (current_parameters_ t) <? now + timer_slack)
      | None => false
      end
  | RunManualTick =>
      match frame_rate_controller_ s with Some c => 0 <? manual_ticks_ c | None => false end
  | RunSwapComplete => 0 <? completions_ s
  | RunCheck => check_for_retroactive_begin_impl_frame_pending_ s
  end.

(** The grid after an event. *)
Definition grid_after (e : Event) (grid : Z * Z) : Z * Z :=
  match e with Call (CallOnVSyncParametersChanged b i) => (b, i) | _ => grid end.

(** An event gives the client at most one frame, and only when it waits for one
    and may swap. *)
Definition gives_at_most_one_frame s s' : Prop :=
  frames_ s' = frames_ s \/
  must_skip s = false /\ exists args, frames_ s' = args :: frames_ s.

Lemma clock_ok clock now b i s :
  SurfaceOk clock b i s -> clock <= now -> good_time now -> SurfaceOk now b i s.
Proof. intros [(c & ? & ?) ?] Hn Hg. split; eauto using ControllerOk_clock. Qed.

Lemma call_inv now b i b' i' r s clock :
  Inv clock b i s -> clock <= now -> good_time now ->
  passes r (fun s' => SurfaceOk now b' i' s' /\ call_effect s s') ->
  passes r (fun s' => Inv now b' i' s' /\ gives_at_most_one_frame s s').
Proof.
  intros [Hs Hl Hp [_ Hc] Hm] Hn Hg. destruct r as [s'|]; [|done]. intros [Hs' He].
  unfold timer_slack in *. split; [|left; apply He].
  split; [done|by apply He|by eapply call_effect_paced; [lia|..]|split; [done|lia]|done].
Qed.

Lemma call_event clock now b i call s :
  Inv clock b i s -> permitted clock now (Call call) s = true ->
  passes (handle now (Call call) s) (fun s' =>
    let '(b', i') := grid_after (Call call) (b, i) in
    Inv now b' i' s' /\ gives_at_most_one_frame s s').
Proof.
  intros HI Hp. unfold permitted in Hp. to_prop.
  assert (good_time now) as Hg by (pose proof (inv_clock _ _ _ _ HI) as [[] ?]; split; lia).
  assert (SurfaceOk now b i s) as Hs by (eapply clock_ok; [apply HI|done..]).
  assert (completions_ s < 2 * swap_limit - 1) as Hn by (unfold swap_limit in *; lia).
  destruct call; cbn [grid_after].
  4: { to_prop. eapply call_inv; [done..|].
       eapply OnVSyncParametersChanged_ok; [exact Hs|split; lia|split; lia|done]. }
  all: eapply call_inv; [done..|]; by apply answer_ok.
Qed.

(** A tick of the controller of [s], whose time source has moved on in [s1]. *)
Lemma tick_event clock now b i c s s1 :
  Inv clock b i s -> clock <= now -> good_time now ->
  SurfaceOk now b i s1 -> completions_ s1 < swap_limit ->
  frame_rate_controller_ s1 = Some c -> active_ c = true ->
  frames_ s1 = frames_ s -> must_skip s1 = must_skip s -> last_tick s <= last_tick s1 ->
  (throttle = true ->
   LastTickTime now c = last_tick s1 /\ last_tick s + Z.quot m 2 < last_tick s1) ->
  passes (FrameRateController.OnTimerTick now s1) (fun s' =>
    Inv now b i s' /\ gives_at_most_one_frame s s').
Proof.
  intros [_ _ Hp [_ Hc] Hm] Hn Hg Hs1 Hco Ec Ha Hf Hms Hl Hth. unfold timer_slack in *.
  pose proof (OnTimerTick_ok _ _ _ _ _ Hs1 Hco Ec Ha) as HT.
  destruct (FrameRateController.OnTimerTick now s1) as [s'|]; [|done].
  destruct HT as (Hs' & Hlv & Hl' & args & Hv & Hft & Hcase). rewrite Hf, Hms in Hcase. split.
  - split; [done|done| |split; [done|lia]|done].
    apply (frame_paced s s' args); [lia|done|lia|done| |naive_solver].
    intros Ht. destruct (Hth Ht) as [He Hlt]. rewrite Hft, He. split; [done|].
    eapply apart_later; [lia| |exact Hlt]. by apply Hp.
  - destruct Hcase as [[? _]|(? & ? & _)]; [by left|right; eauto].
Qed.

Lemma timer_event clock now b i s :
  Inv clock b i s -> permitted clock now RunTimer s = true ->
  passes (handle now RunTimer s) (fun s' => Inv now b i s' /\ gives_at_most_one_frame s s').
Proof.
  intros [Hs Hl Hp Hc Hm] Hper. unfold permitted, timer in Hper. to_prop.
  assert (good_time now) as Hg by (destruct Hc as [[] ?]; split; lia).
  destruct (so_controller _ _ _ _ Hs) as (c & Ec & HC). rewrite Ec in *. cbn in *.
  destruct (time_source_ c) as [t|] eqn:Et; [|done]. to_prop.
  pose proof (co_timer _ _ _ _ _ HC) as Hti. rewrite Et in Hti.
  destruct Hti as (Hth & HT & HA & Ha & Hz).
  assert (TimeSource.active_ t = true) as Hact.
  { destruct (TimeSource.active_ t) eqn:E; [done|]. unfold Armed in HA. rewrite E in HA.
    by rewrite HA in *. }
  unfold OnTimerFired. cbn. rewrite Ec. cbn. rewrite Et. cbn. rewrite Hact. cbn.
  eapply passes_then; [by eapply (fire_ok clock now b i t)|].
  intros t' (HT' & HA' & Ha' & Hlt). set (s1 := _ <| frame_rate_controller_ := _ |>).
  change (passes (FrameRateController.OnTimerTick now s1)
            (fun s' => Inv now b i s' /\ gives_at_most_one_frame s s')).
  assert (last_tick s = last_tick_time_ t /\ last_tick s1 = last_tick_time_ t') as [Hl0 Hl1].
  { unfold last_tick. rewrite Ec. cbn. unfold last_of. by rewrite Et. }
  assert (0 <= Z.quot m 2) by (unfold timer_slack in Hm; apply Z.quot_pos; lia).
  eapply (tick_event clock); [by split|done|done| |done|done|cbn; congruence|done|done|lia|].
  - destruct Hs as [_ Hsw]. split; [|exact Hsw]. eexists. split; [done|].
    destruct HC. split; cbn; auto. split_and!; auto; congruence.
  - intros _. rewrite Hl0, Hl1. done.
Qed.

Lemma manual_event clock now b i s :
  Inv clock b i s -> permitted clock now RunManualTick s = true ->
  passes (handle now RunManualTick s) (fun s' => Inv now b i s' /\ gives_at_most_one_frame s s').
Proof.
  intros HI Hper. pose proof HI as [Hs Hl Hp Hc Hm]. unfold permitted in Hper. to_prop.
  assert (good_time now) as Hg by (destruct Hc as [[] ?]; split; lia).
  destruct (so_controller _ _ _ _ Hs) as (c & Ec & HC). rewrite Ec in *. to_prop.
  pose proof (ControllerOk_clock _ now _ _ _ _ HC ltac:(done) Hg) as [Hi Hmx Hnum Hk Hid Ht].
  destruct (time_source_ c) as [t|] eqn:Es; [lia|].
  assert (active_ c = true) as Ha by (destruct (active_ c); [done|lia]).
  cbn. unfold ManualTick. cbn. rewrite Ec.
  change (passes (FrameRateController.OnTimerTick now
            s <| frame_rate_controller_ := Some (c <| manual_ticks_ := manual_ticks_ c - 1 |>) |>)
            (fun s' => Inv now b i s' /\ gives_at_most_one_frame s s')).
  eapply (tick_event clock); [done|done|done| |done|done|exact Ha|done|done| |].
  - destruct Hs as [_ Hsw]. split; [|exact Hsw]. eexists. split; [done|].
    split; cbn; rewrite ?Es; auto; [lia|congruence].
  - unfold last_tick. rewrite Ec. cbn. done.
  - intros Hth. congruence.
Qed.

Lemma complete_event clock now b i s :
  Inv clock b i s -> permitted clock now RunSwapComplete s = true ->
  passes (handle now RunSwapComplete s) (fun s' =>
    Inv now b i s' /\ gives_at_most_one_frame s s').
Proof.
  intros HI Hper. unfold permitted in Hper. to_prop.
  assert (good_time now) as Hg by (pose proof (inv_clock _ _ _ _ HI) as [[] ?]; split; lia).
  eapply call_inv; [done..|]. apply OnSwapBuffersComplete_ok; [|done].
  by eapply clock_ok; [apply HI|..].
Qed.

(** A frame that was skipped is given after all, before its deadline. *)
Lemma check_event clock now b i s :
  Inv clock b i s -> permitted clock now RunCheck s = true ->
  passes (handle now RunCheck s) (fun s' => Inv now b i s' /\ gives_at_most_one_frame s s').
Proof.
  intros HI Hper. pose proof HI as [Hs Hl Hp [[Hc0 _] Hc] Hm]. unfold permitted in Hper. to_prop.
  unfold timer_slack in Hm. assert (good_time now) as Hg by (split; lia).
  assert (SurfaceOk now b i s) as Hs' by (by eapply clock_ok).
  cbn. unfold CheckForRetroactiveBeginImplFrame.
  set (s1 := s <| check_for_retroactive_begin_impl_frame_pending_ := false |>).
  assert (SurfaceOk now b i s1) as Hs1 by (destruct Hs'; by split).
  destruct (now <? RetroactiveBeginImplFrameDeadline s1) eqn:Hd; to_prop.
  - destruct (pa_skipped _ Hp) as [Hsk|[Hv Hsk]].
    { unfold RetroactiveBeginImplFrameDeadline in Hd. cbn in Hd. rewrite Hsk in Hd.
      change (s64 _) with DefaultRetroactiveBeginFramePeriod in Hd. cbn in Hd.
      unfold DefaultRetroactiveBeginFramePeriod in *. lia. }
    change (skipped_begin_impl_frame_args_ s1) with (skipped_begin_impl_frame_args_ s).
    pose proof (BeginImplFrame_ok now b i (skipped_begin_impl_frame_args_ s) s1 Hs1 ltac:(done)) as HB.
    destruct (BeginImplFrame now _ s1) as [s'|]; [|done].
    destruct HB as (Hs2 & Hlv & Hla & Hcase). change (last_tick s1) with (last_tick s) in Hla.
    split; [split; [done|by apply Hlv| |split; [done|lia]|done]|].
    + eapply (frame_paced s s'); [lia|done|done|exact Hv| |].
      * intros Hth. destruct (Hsk Hth). split; [lia|done].
      * destruct Hcase as [[_ ->]|(_ & ? & ?)]; auto.
    + destruct Hcase as [[_ ->]|(? & ? & _)]; [by left|right; eauto].
  - split; [|by left]. destruct Hp. split; [done|done|by split|split; [done|lia]|done].
Qed.

(** Every event that may happen is handled, and keeps the invariant. *)
Lemma event_ok clock now b i e s :
  Inv clock b i s -> permitted clock now e s = true ->
  passes (handle now e s) (fun s' =>
    let '(b', i') := grid_after e (b, i) in
    Inv now b' i' s' /\ gives_at_most_one_frame s s').
Proof.
  destruct e; [apply call_event|apply timer_event|apply manual_event|apply complete_event|
               apply check_event].
Qed.

(** ** What can happen *)

(** A surface whose frames are emulated with intervals of at least [m], after
    events at [clock] or before, with the timebase and interval of its grid. *)
Inductive reachable : Z -> Z * Z -> OutputSurface (CS := CS) -> Prop :=
  | reach_start client i s :
      good_interval i -> m <= i ->
      InitializeBeginImplFrameEmulation adjust_deadline_for_parent throttle i
        (new_OutputSurface client) = Some s ->
      reachable DefaultRetroactiveBeginFramePeriod (0, i) s
  | reach_step clock grid s now e s' :
      reachable clock grid s -> permitted clock now e s = true -> handle now e s = Some s' ->
      reachable now (grid_after e grid) s'.

Lemma start_inv client i s :
  2 * timer_slack <= m -> good_interval i -> m <= i ->
  InitializeBeginImplFrameEmulation adjust_deadline_for_parent throttle i
    (new_OutputSurface client) = Some s ->
  Inv DefaultRetroactiveBeginFramePeriod 0 i s.
Proof.
  intros Hm Hi Hmi Hs. cbn in Hs. injection Hs as <-.
  assert (good_time DefaultRetroactiveBeginFramePeriod) as Hc.
  { unfold good_time, time_limit, DefaultRetroactiveBeginFramePeriod. lia. }
  pose proof Hi as [Hi0 Hi1]. unfold time_limit, timer_slack in *.
  split; [|intros c [= <-] Ha; discriminate Ha|split; cbn|split; [done|lia]|done].
  - split; [|cbn; unfold swap_limit; lia]. eexists. split; [done|].
    split; cbn; [unfold DefaultInterval; lia|lia|done|lia|done|].
    destruct throttle; [|done]. split_and!; auto; [|done].
    unfold DefaultRetroactiveBeginFramePeriod in *.
    split; cbn; auto; unfold time_limit, timer_slack; try lia; [apply Z.divide_0_r|].
    rewrite s64_id by lia. lia.
  - constructor.
  - by split.
  - by left.
Qed.

Lemma reachable_inv clock grid s :
  2 * timer_slack <= m -> reachable clock grid s -> Inv clock (fst grid) (snd grid) s.
Proof.
  intros Hm. induction 1 as [client i s Hi Hmi Hs|clock [b i] s now e s' _ IH Hp Hh].
  - by eapply start_inv.
  - pose proof (event_ok _ _ _ _ _ _ IH Hp) as HE. rewrite Hh in HE. cbn [passes] in HE.
    cbn [fst snd] in *. destruct (grid_after e (b, i)). apply HE.
Qed.

End Pacing.

(** ** The property *)

(** C12. Frames are paced.  For a surface whose frames are emulated, in every
    state that calls and posted tasks can reach, with intervals of at least [m]
    and timers that are less than a millisecond early: no check of the surface,
    of its controller or of its time source fails, and the client is given at
    most one frame at a time, only when it asked for one and may swap.  With a
    time source, any two frames given are more than half of [m] apart, one
    timer is posted exactly while the source is active, and at any time the
    next tick is the first on the grid of the last timebase and interval given
    that is more than half an interval after the last tick.  Without one, an
    active controller has a tick posted or waits for a swap to complete. *)
Theorem frames_are_paced {CS : Type} `{OutputSurfaceClient CS} m throttle adjust clock b i
    (s : OutputSurface (CS := CS)) :
  2 * timer_slack <= m -> answers CS -> reachable m throttle adjust clock (b, i) s ->
  (forall now e, permitted m clock now e s = true ->
     exists s', handle now e s = Some s' /\ gives_at_most_one_frame s s') /\
  Forall (fun args => IsValid args = true) (frames_ s) /\
  (throttle = true ->
     spaced m (frames_ s) /\
     exists t, timer s = Some t /\
       zlen (timer_tasks_ t) = (if TimeSource.active_ t then 1 else 0) /\
       forall now, clock <= now -> good_time now ->
         exists target, NextTickTarget now t = Some target /\
                        first_tick now (last_tick_time_ t) b i target) /\
  (throttle = false -> live s).
Proof.
  intros Hm Ha Hr. pose proof (reachable_inv m throttle adjust Ha _ _ _ Hm Hr) as HI.
  cbn in HI. split_and!.
  - intros now e Hp. pose proof (event_ok _ _ Ha _ _ _ _ _ _ HI Hp) as HE.
    destruct (grid_after e (b, i)). apply passes_Some in HE as (s' & ? & _ & ?). eauto.
  - apply HI.
  - intros Ht. split; [by apply HI|].
    destruct (so_controller _ _ _ _ _ _ (inv_surface _ _ _ _ _ _ HI)) as (c & Ec & HC).
    pose proof (co_timer _ _ _ _ _ HC) as Hti. unfold timer. rewrite Ec. cbn.
    destruct (time_source_ c) as [t|]; [|congruence]. destruct Hti as (_ & HT & HA & _).
    exists t. split_and!; [done| |].
    { unfold Armed in HA. destruct (TimeSource.active_ t); [destruct HA as [[d ->] _]|rewrite HA]; done. }
    intros now Hn Hg. apply (Timing_clock _ now) in HT; [|done..].
    destruct HT as [_ Hi [Hgi _] Htg Hgr Hl _ _]. subst i.
    destruct (NextTickTarget_first now t) as (target & -> & Hf & _); [done..|].
    exists target. split; [done|]. by eapply first_tick_ext.
  - intros _. apply HI.
Qed.

(** ** On concrete surfaces *)

(** A client that swaps on every frame and asks for the next. *)
#[local] Instance swapping_client : OutputSurfaceClient unit := {
  client_begin_impl_frame _ u := (u, [CallSwapBuffers; CallSetNeedsBeginImplFrame true])
}.

(** Run events at the times they happen, each if it may. *)
Fixpoint run_events (m : Z) (l : list (Z * Event)) (clock : Z) (grid : Z * Z)
    (s : OutputSurface (CS := unit)) : option (Z * (Z * Z) * OutputSurface (CS := unit)) :=
  match l with
  | [] => Some (clock, grid, s)
  | (now, e) :: l =>
      if permitted m clock now e s
      then s ← handle now e s; run_events m l now (grid_after e grid) s else None
  end.

Lemma run_events_reachable m throttle adjust l clock grid s r :
  reachable m throttle adjust clock grid s -> run_events m l clock grid s = Some r ->
  reachable m throttle adjust (fst (fst r)) (snd (fst r)) (snd r).
Proof.
  revert clock grid s. induction l as [|[now e] l IH]; cbn; intros clock grid s Hs Hr.
  - by injection Hr as <-.
  - case_if_in Hr; [|done]. destruct (handle now e s) as [s'|] eqn:E; [|done].
    eapply IH; [|exact Hr]. by eapply reach_step.
Qed.

Definition surface_with (throttle : bool) : OutputSurface (CS := unit) :=
  from_option id (new_OutputSurface tt)
    (InitializeBeginImplFrameEmulation true throttle 16667 (new_OutputSurface tt)).

(** Two frames are given, a third is skipped since a swap is in flight, and the
    display moves its grid. *)
Definition display_events : list (Z * Event) :=
  [(10000, Call (CallSetMaxFramesPending 1)); (100000, Call (CallSetNeedsBeginImplFrame true));
   (116300, RunTimer); (116400, RunSwapComplete); (133400, RunTimer); (150100, RunTimer);
   (150200, RunSwapComplete); (150300, RunCheck);
   (151000, Call (CallOnVSyncParametersChanged 140000 16000))].
Definition display_surface : Z * (Z * Z) * OutputSurface (CS := unit) :=
  from_option id (0, (0, 0), surface_with true)
    (run_events 16000 display_events DefaultRetroactiveBeginFramePeriod (0, 16667)
       (surface_with true)).

Lemma swapping_answers : answers unit.
Proof. intros args u. by vm_compute. Qed.

Lemma frames_are_paced_witness :
  zlen (frames_ (snd display_surface)) = 3 /\ spaced 16000 (frames_ (snd display_surface)).
Proof.
  split; [vm_compute; reflexivity|].
  assert (reachable 16000 true true (fst (fst display_surface)) (140000, 16000)
            (snd display_surface)) as Hr.
  { replace (140000, 16000) with (snd (fst display_surface)) by (vm_compute; reflexivity).
    apply (run_events_reachable 16000 true true display_events DefaultRetroactiveBeginFramePeriod
             (0, 16667) (surface_with true) display_surface); [|vm_compute; reflexivity].
    apply (reach_start 16000 true true tt); [split; vm_compute; congruence|vm_compute; congruence|].
    reflexivity. }
  destruct (frames_are_paced 16000 true true _ 140000 16000 _ ltac:(vm_compute; discriminate)
              swapping_answers Hr) as (_ & _ & Hs & _).
  apply Hs. reflexivity.
Defined.

(** Without a time source, a swap that completes posts a tick besides the one
    that renews itself: with swaps that complete before the controller is
    throttled, the posted ticks grow by one with every frame. *)
Definition unthrottled_frame (now : Z) : list (Z * Event) :=
  [(now, RunManualTick); (now, RunSwapComplete)].
Example manual_ticks_pile_up :
  option_map (fun r => option_map manual_ticks_ (frame_rate_controller_ (snd r)))
    (run_events 16000
       ((10000, Call (CallSetNeedsBeginImplFrame true)) ::
        concat (map unthrottled_frame [20000; 20010; 20020; 20030; 20040]))
       DefaultRetroactiveBeginFramePeriod (0, 16667) (surface_with false))
  = Some (Some 6).
Proof. vm_compute. reflexivity. Qed.

(** A swap that completes after the surface was lost leaves a negative number of
    swaps pending, so that one more than the limit may follow. *)
Example lost_swaps_count_below_zero :
  option_map (fun r => pending_swap_buffers_ (snd r))
    (run_events 16000
       [(10000, Call (CallSetNeedsBeginImplFrame true)); (20000, RunTimer);
        (20100, Call CallDidLoseOutputSurface); (20200, RunSwapComplete)]
       DefaultRetroactiveBeginFramePeriod (0, 16667) (surface_with true))
  = Some (-1).
Proof. vm_compute. reflexivity. Qed.

(** The frames say the interval of a 60 Hz display, whatever the interval their
    time source was made with, until the display gives its own. *)
Example frames_carry_the_default_interval :
  forall interval s,
    InitializeBeginImplFrameEmulation true true interval (new_OutputSurface tt) = Some s ->
    option_map interval_ (frame_rate_controller_ s) = Some 16666.
Proof. intros interval s [= <-]. reflexivity. Qed.
