(* ===== verification/Geometry.v ===== *)
(** Integer points, sizes and rectangles, ui/gfx: [SizeBase], [RectBase] at
    [int], and the functions of rect.cc on them.  A rectangle stands for the
    points it [Contains]; the theorems say which set of points each operation
    computes. *)
From S2P Require Import Prelude.
From Stdlib Require Import ZifyBool.

(** ** Data *)
Record Point := mkPoint { pt_x : Z; pt_y : Z }.

(* src: ui/gfx/size_base.h 62-64! SizeBase *)
Record Size := mkSize { width_ : Z; height_ : Z }.

(* src: ui/gfx/rect_base.h 161-164! RectBase *)
Record Rect := mkRect { origin_ : Point; size_ : Size }.

#[export] Instance eta_Size : Eta Size := fun s => mkSize (width_ s) (height_ s).
#[export] Instance eta_Rect : Eta Rect := fun r => mkRect (origin_ r) (size_ r).

(** ** Sizes *)

(* src: ui/gfx/size_base.h 31-33 set_width *)
Definition size_set_width (width : Z) (s : Size) : Size :=
  s <| width_ := if width <? 0 then 0 else width |>.

(* src: ui/gfx/size_base.h 34-36 set_height *)
Definition size_set_height (height : Z) (s : Size) : Size :=
  s <| height_ := if height <? 0 then 0 else height |>.

(* src: ui/gfx/size_base.h 53-56 SizeBase::SizeBase *)
Definition new_Size (width height : Z) : Size :=
  mkSize (if width <? 0 then 0 else width) (if height <? 0 then 0 else height).

(* src: ui/gfx/size_base.h 19-19! GetArea *)
Definition GetArea (s : Size) : Z := width_ s ⊗ height_ s.

(* src: ui/gfx/size_base.h 21-24 SetSize *)
Definition SetSize (width height : Z) (s : Size) : Size :=
  size_set_height height (size_set_width width s).

(* src: ui/gfx/size_base.h 26-29 Enlarge *)
Definition Enlarge (width height : Z) (s : Size) : Size :=
  let s := size_set_width (width_ s ⊕ width) s in
  size_set_height (height_ s ⊕ height) s.

(* src: ui/gfx/size_base.h 38-41 SetToMin *)
Definition SetToMin (other s : Size) : Size :=
  mkSize (if width_ s <=? width_ other then width_ s else width_ other)
         (if height_ s <=? height_ other then height_ s else height_ other).

(* src: ui/gfx/size_base.h 43-46 SetToMax *)
Definition SetToMax (other s : Size) : Size :=
  mkSize (if width_ other <=? width_ s then width_ s else width_ other)
         (if height_ other <=? height_ s then height_ s else height_ other).

(* src: ui/gfx/size_base.h 48-50 IsEmpty *)
Definition size_IsEmpty (s : Size) : bool := (width_ s =? 0) || (height_ s =? 0).

(** ** Rectangles *)

Definition x (r : Rect) : Z := pt_x (origin_ r).
Definition y (r : Rect) : Z := pt_y (origin_ r).
Definition width (r : Rect) : Z := width_ (size_ r).
Definition height (r : Rect) : Z := height_ (size_ r).

(* src: ui/gfx/rect_base.h 47-47! right *)
Definition right (r : Rect) : Z := x r ⊕ width r.
(* src: ui/gfx/rect_base.h 48-48! bottom *)
Definition bottom (r : Rect) : Z := y r ⊕ height r.

(* src: ui/gfx/rect.h 46-48 Rect::Rect *)
Definition new_Rect (x y width height : Z) : Rect := mkRect (mkPoint x y) (new_Size width height).

(* src: ui/gfx/rect.h 58-59 Rect::Rect *)
Definition Rect_of_size (s : Size) : Rect := mkRect (mkPoint 0 0) s.

(* src: ui/gfx/rect_base.h 87-87! IsEmpty *)
Definition IsEmpty (r : Rect) : bool := size_IsEmpty (size_ r).

(* src: ui/gfx/rect_base_impl.h 31-42! SetRect *)
Definition SetRect (x y width height : Z) (r : Rect) : Rect :=
  let r := r <| origin_ := mkPoint x y |> in
  r <| size_ := size_set_height height (size_set_width width (size_ r)) |>.
Arguments SetRect : simpl never.

(* src: ui/gfx/rect_base_impl.h 55-66! Inset *)
Definition Inset (left top right bottom : Z) (r : Rect) : Rect :=
  let r := r <| origin_ := mkPoint (x r ⊕ left) (y r ⊕ top) |> in
  let r := r <| size_ := size_set_width (Z.max (width r ⊖ left ⊖ right) 0) (size_ r) |> in
  r <| size_ := size_set_height (Z.max (height r ⊖ top ⊖ bottom) 0) (size_ r) |>.

(* src: ui/gfx/rect_base_impl.h 68-77! Offset *)
Definition Offset (horizontal vertical : Z) (r : Rect) : Rect :=
  r <| origin_ := mkPoint (x r ⊕ horizontal) (y r ⊕ vertical) |>.

(* src: ui/gfx/rect_base_impl.h 120-130! Contains *)
Definition Contains (point_x point_y : Z) (r : Rect) : bool :=
  (x r <=? point_x) && (point_x <? right r) && (y r <=? point_y) && (point_y <? bottom r).

(* src: ui/gfx/rect_base_impl.h 132-142! Contains *)
Definition ContainsRect (rect r : Rect) : bool :=
  (x r <=? x rect) && (right rect <=? right r) && (y r <=? y rect) && (bottom rect <=? bottom r).

(* src: ui/gfx/rect_base_impl.h 144-155! Intersects *)
Definition Intersects (rect r : Rect) : bool :=
  !(IsEmpty r || IsEmpty rect || (right r <=? x rect) || (right rect <=? x r) ||
    (bottom r <=? y rect) || (bottom rect <=? y r)).

(* src: ui/gfx/rect_base_impl.h 157-179! Intersect *)
Definition Intersect (rect r : Rect) : Rect :=
  if IsEmpty r || IsEmpty rect then SetRect 0 0 0 0 r else
  let rx := Z.max (x r) (x rect) in
  let ry := Z.max (y r) (y rect) in
  let rr := Z.min (right r) (right rect) in
  let rb := Z.min (bottom r) (bottom rect) in
  let '(rx, ry, rr, rb) :=
    if (rr <=? rx) || (rb <=? ry) then (0, 0, 0, 0) else (rx, ry, rr, rb) in
  SetRect rx ry (rr ⊖ rx) (rb ⊖ ry) r.

(* src: ui/gfx/rect_base_impl.h 181-202! Union *)
Definition Union (rect r : Rect) : Rect :=
  if IsEmpty r then rect else
  if IsEmpty rect then r else
  let rx := Z.min (x r) (x rect) in
  let ry := Z.min (y r) (y rect) in
  let rr := Z.max (right r) (right rect) in
  let rb := Z.max (bottom r) (bottom rect) in
  SetRect rx ry (rr ⊖ rx) (rb ⊖ ry) r.

(* src: ui/gfx/rect_base_impl.h 204-240! Subtract *)
Definition Subtract (rect r : Rect) : Rect :=
  if !(Intersects rect r) then r else
  if ContainsRect r rect then SetRect 0 0 0 0 r else
  let rx := x r in
  let ry := y r in
  let rr := right r in
  let rb := bottom r in
  let '(rx, ry, rr, rb) :=
    if (y rect <=? y r) && (bottom r <=? bottom rect) then
      if x rect <=? x r then (right rect, ry, rr, rb)
      else if right r <=? right rect then (rx, ry, x rect, rb)
      else (rx, ry, rr, rb)
    else if (x rect <=? x r) && (right r <=? right rect) then
      if y rect <=? y r then (rx, bottom rect, rr, rb)
      else if bottom r <=? bottom rect then (rx, ry, rr, y rect)
      else (rx, ry, rr, rb)
    else (rx, ry, rr, rb) in
  SetRect rx ry (rr ⊖ rx) (rb ⊖ ry) r.

(* src: ui/gfx/rect_base_impl.h 18-25! AdjustAlongAxis *)
Definition AdjustAlongAxis (dst_origin dst_size origin size : Z) : Z * Z :=
  let size := Z.min dst_size size in
  (if origin <? dst_origin then dst_origin
   else Z.min (dst_origin ⊕ dst_size) (origin ⊕ size) ⊖ size, size).

(* src: ui/gfx/rect_base_impl.h 242-257! AdjustToFit *)
Definition AdjustToFit (rect r : Rect) : Rect :=
  let '(new_x, new_width) := AdjustAlongAxis (x rect) (width rect) (x r) (width r) in
  let '(new_y, new_height) := AdjustAlongAxis (y rect) (height rect) (y r) (height r) in
  SetRect new_x new_y new_width new_height r.

(* src: ui/gfx/rect_base_impl.h 259-268! CenterPoint *)
Definition CenterPoint (r : Rect) : Point :=
  mkPoint (x r ⊕ (width r ⊘ 2)) (y r ⊕ (height r ⊘ 2)).

(* src: ui/gfx/rect_base_impl.h 270-283! ClampToCenteredSize *)
Definition ClampToCenteredSize (size : Size) (r : Rect) : Rect :=
  let new_width := Z.min (width r) (width_ size) in
  let new_height := Z.min (height r) (height_ size) in
  let new_x := x r ⊕ ((width r ⊖ new_width) ⊘ 2) in
  let new_y := y r ⊕ ((height r ⊖ new_height) ⊘ 2) in
  SetRect new_x new_y new_width new_height r.

(* src: ui/gfx/rect_base_impl.h 285-301! SplitVertically *)
Definition SplitVertically (left_half right_half r : Rect) : Rect * Rect :=
  let left_half := SetRect (x r) (y r) (width r ⊘ 2) (height r) left_half in
  (left_half,
   SetRect (right left_half) (y r) (width r ⊖ width left_half) (height r) right_half).

(* src: ui/gfx/rect_base_impl.h 303-315! SharesEdgeWith *)
Definition SharesEdgeWith (rect r : Rect) : bool :=
  ((y r =? y rect) && (height r =? height rect) &&
     ((x r =? right rect) || (right r =? x rect))) ||
  ((x r =? x rect) && (width r =? width rect) &&
     ((y r =? bottom rect) || (bottom r =? y rect))).

(* src: ui/gfx/rect_base_impl.h 317-331! ManhattanDistanceToPoint *)
Definition ManhattanDistanceToPoint (point : Point) (r : Rect) : Z :=
  let x_distance := Z.max 0 (Z.max (x r ⊖ pt_x point) (pt_x point ⊖ right r)) in
  let y_distance := Z.max 0 (Z.max (y r ⊖ pt_y point) (pt_y point ⊖ bottom r)) in
  x_distance ⊕ y_distance.

(* src: ui/gfx/rect.cc 102-108 BoundingRect *)
Definition BoundingRect (p1 p2 : Point) : Rect :=
  let rx := Z.min (pt_x p1) (pt_x p2) in
  let ry := Z.min (pt_y p1) (pt_y p2) in
  let rr := Z.max (pt_x p1) (pt_x p2) in
  let rb := Z.max (pt_y p1) (pt_y p2) in
  new_Rect rx ry (rr ⊖ rx) (rb ⊖ ry).

(** ** The points of a rectangle *)

(** The rectangles an [int] can describe: no negative size, and both corners
    within the type.  Every constructor and setter clamps a negative size. *)
Definition wf (r : Rect) : Prop :=
  (0 <= width r < 2 ^ 31 /\ x r + width r < 2 ^ 31 /\ - 2 ^ 31 <= x r) /\
  (0 <= height r < 2 ^ 31 /\ y r + height r < 2 ^ 31 /\ - 2 ^ 31 <= y r).

Definition inside (p : Z * Z) (r : Rect) : Prop := Contains p.1 p.2 r = true.

Lemma right_wf r : wf r -> right r = x r + width r.
Proof. intros [??]. unfold right. rewrite s32_id; lia. Qed.

Lemma bottom_wf r : wf r -> bottom r = y r + height r.
Proof. intros [??]. unfold bottom. rewrite s32_id; lia. Qed.

(** The same without the arithmetic of the type. *)
Definition within (p : Z * Z) (r : Rect) : Prop :=
  x r <= p.1 < x r + width r /\ y r <= p.2 < y r + height r.

Lemma inside_spec p r : wf r -> inside p r <-> within p r.
Proof.
  intros Hr. unfold inside, within, Contains. rewrite right_wf, bottom_wf by done.
  rewrite !andb_true_iff, !Z.leb_le, !Z.ltb_lt. lia.
Qed.

Lemma IsEmpty_spec r : wf r -> IsEmpty r = true <-> forall p, ~ inside p r.
Proof.
  intros Hr. pose proof Hr as [??]. unfold IsEmpty, size_IsEmpty.
  change (width_ (size_ r)) with (width r). change (height_ (size_ r)) with (height r).
  rewrite orb_true_iff, !Z.eqb_eq. split.
  - intros H' p. rewrite inside_spec by done. unfold within. lia.
  - intros H'. specialize (H' (x r, y r)). rewrite inside_spec in H' by done. unfold within in H'. cbn in H'. lia.
Qed.

Lemma IsEmpty_false r : wf r -> IsEmpty r = false <-> 0 < width r /\ 0 < height r.
Proof.
  intros [??]. unfold IsEmpty, size_IsEmpty.
  change (width_ (size_ r)) with (width r). change (height_ (size_ r)) with (height r). lia.
Qed.

Lemma SetRect_spec a b w h r :
  0 <= w -> 0 <= h -> SetRect a b w h r = mkRect (mkPoint a b) (mkSize w h).
Proof.
  intros Hw Hh. unfold SetRect, size_set_width, size_set_height. cbn.
  destruct (Z.ltb_spec w 0), (Z.ltb_spec h 0); try lia. reflexivity.
Qed.

(** Open the rectangles of a goal into four numbers each. *)
Ltac open_rects :=
  repeat match goal with r : Rect |- _ => destruct r as [[? ?] [? ?]] end;
  unfold wf, x, y, width, height in *; cbn in *.

Ltac open_tests :=
  repeat match goal with
  | |- context [(?a =? ?b)] => destruct (Z.eqb_spec a b)
  | |- context [(?a <=? ?b)] => destruct (Z.leb_spec a b)
  | |- context [(?a <? ?b)] => destruct (Z.ltb_spec a b)
  end; cbn.

Lemma Intersect_wf a b : wf a -> wf b -> wf (Intersect b a).
Proof.
  intros Ha Hb. unfold Intersect, IsEmpty, size_IsEmpty.
  rewrite !right_wf, !bottom_wf by done. open_rects. open_tests;
    in_range; rewrite SetRect_spec; cbn; lia.
Qed.

Lemma Intersects_spec a b :
  wf a -> wf b ->
  Intersects b a = true <->
  x a < x b + width b /\ x b < x a + width a /\ y a < y b + height b /\
  y b < y a + height a /\ 0 < width a /\ 0 < width b /\ 0 < height a /\ 0 < height b.
Proof.
  intros Ha Hb. unfold Intersects, IsEmpty, size_IsEmpty. rewrite !right_wf, !bottom_wf by done.
  open_rects. lia.
Qed.

(** What [Intersect] leaves. *)
Lemma Intersect_spec a b p : wf a -> wf b -> within p (Intersect b a) <-> within p a /\ within p b.
Proof.
  intros Ha Hb. unfold Intersect. destruct (IsEmpty a || IsEmpty b) eqn:E.
  - rewrite SetRect_spec by lia. apply orb_true_iff in E as [E|E];
      [apply (IsEmpty_spec a Ha) with p in E|apply (IsEmpty_spec b Hb) with p in E];
      rewrite inside_spec in E by done; unfold within, x, y, width, height in *; cbn; lia.
  - rewrite !right_wf, !bottom_wf by done. case_if; unfold wf, within in *; in_range;
      rewrite SetRect_spec by lia; unfold x, y, width, height in *; cbn; lia.
Qed.

Lemma Intersect_empty a b :
  wf a -> wf b -> IsEmpty (Intersect b a) = true ->
  Intersect b a = mkRect (mkPoint 0 0) (mkSize 0 0).
Proof.
  intros Ha Hb. unfold Intersect. case_if; [by rewrite SetRect_spec by lia|].
  rewrite !right_wf, !bottom_wf by done. unfold wf in *. case_if; in_range; rewrite SetRect_spec by lia.
  - done.
  - unfold IsEmpty, size_IsEmpty. cbn. lia.
Qed.

Lemma Intersects_points a b :
  wf a -> wf b -> Intersects b a = true <-> exists p, within p a /\ within p b.
Proof.
  intros Ha Hb. rewrite Intersects_spec by done. split.
  - intros Hi. exists (Z.max (x a) (x b), Z.max (y a) (y b)). unfold within. cbn. lia.
  - intros (p & Hp). unfold within in Hp. lia.
Qed.

(** [Intersect] computes the intersection: for any two rectangles of
    [int]s, a point is inside the result exactly when it is inside both, and
    [Intersects] tells whether there is such a point. *)
Lemma intersect_is_intersection a b :
  wf a -> wf b ->
  (forall p, inside p (Intersect b a) <-> inside p a /\ inside p b) /\
  (Intersects b a = true <-> exists p, inside p a /\ inside p b).
Proof.
  intros Ha Hb. split.
  - intros p. rewrite !inside_spec by auto using Intersect_wf. by apply Intersect_spec.
  - rewrite Intersects_points by done. split; intros (p & Hp); exists p;
      revert Hp; by rewrite !inside_spec by done.
Qed.

(** Extents within half of the type, so that the distance between any two
    edges is an [int] as well. *)
Definition near (r : Rect) : Prop :=
  wf r /\ - 2 ^ 30 <= x r /\ x r + width r < 2 ^ 30 /\
  - 2 ^ 30 <= y r /\ y r + height r < 2 ^ 30.

Lemma Union_wf a b : near a -> near b -> wf (Union b a).
Proof.
  intros [Ha Na] [Hb Nb]. unfold Union. destruct (IsEmpty a), (IsEmpty b); try done.
  rewrite !right_wf, !bottom_wf by done. open_rects. in_range. rewrite SetRect_spec by lia. cbn. lia.
Qed.

(** The rectangle [Subtract] leaves when something is left of it. *)
Lemma Subtract_spec a b :
  wf a -> wf b -> Intersects b a = true -> ContainsRect a b = false ->
  exists l t r d, Subtract b a = mkRect (mkPoint l t) (mkSize (r - l) (d - t)) /\
    x a <= l < r /\ r <= x a + width a /\ y a <= t < d /\ d <= y a + height a /\
    (l = x a /\ r = x a + width a /\ t = y a /\ d = y a + height a /\
       (y a < y b \/ y b + height b < y a + height a \/
        x a < x b /\ x b + width b < x a + width a) /\
       (x a < x b \/ x b + width b < x a + width a \/
        y a < y b /\ y b + height b < y a + height a) \/
     y b <= y a /\ y a + height a <= y b + height b /\ t = y a /\ d = y a + height a /\
       (x b <= x a /\ l = x b + width b /\ r = x a + width a \/
        x a + width a <= x b + width b /\ l = x a /\ r = x b) \/
     x b <= x a /\ x a + width a <= x b + width b /\ l = x a /\ r = x a + width a /\
       (y b <= y a /\ t = y b + height b /\ d = y a + height a \/
        y a + height a <= y b + height b /\ t = y a /\ d = y b)).
Proof.
  intros Ha Hb Hi Hc. unfold Subtract. rewrite Hi, Hc. cbn [negb].
  apply Intersects_spec in Hi; [|done..]. unfold ContainsRect in Hc.
  rewrite !right_wf, !bottom_wf in Hc |- * by done. unfold wf in *.
  repeat case_if; in_range; rewrite SetRect_spec by lia;
    do 4 eexists; (split; [reflexivity|]); lia.
Qed.

Lemma Subtract_wf a b : wf a -> wf b -> wf (Subtract b a).
Proof.
  intros Ha Hb. destruct (Intersects b a) eqn:Hi, (ContainsRect a b) eqn:Hc;
    try (unfold Subtract; rewrite Hi, ?Hc; cbn; [done|rewrite SetRect_spec by lia; done]).
  - unfold Subtract. rewrite Hi, Hc. by rewrite SetRect_spec.
  - destruct (Subtract_spec a b Ha Hb Hi Hc) as (l & t & r & d & -> & ?).
    unfold wf, x, y, width, height in *. cbn. lia.
  - unfold Subtract. by rewrite Hi.
  - unfold Subtract. by rewrite Hi.
Qed.

(** The four corners of a rectangle that has points. *)
Definition corners (r : Rect) : list (Z * Z) :=
  [(x r, y r); (x r, y r + height r - 1); (x r + width r - 1, y r);
   (x r + width r - 1, y r + height r - 1)].

(** [Union] computes the hull: it contains every point of both rectangles,
    and every rectangle that contains these contains it. *)
Lemma union_is_hull a b :
  near a -> near b ->
  (forall p, inside p a \/ inside p b -> inside p (Union b a)) /\
  (forall c, wf c -> (forall p, inside p a \/ inside p b -> inside p c) ->
   forall p, inside p (Union b a) -> inside p c).
Proof.
  intros Ha Hb. pose proof (Union_wf a b Ha Hb) as Hu.
  pose proof (IsEmpty_spec a (proj1 Ha)) as Ea. pose proof (IsEmpty_spec b (proj1 Hb)) as Eb.
  unfold Union in *. destruct (IsEmpty a) eqn:Na0; [|destruct (IsEmpty b) eqn:Nb0].
  - destruct Ea as [Ea _]. specialize (Ea eq_refl). naive_solver.
  - destruct Eb as [Eb _]. specialize (Eb eq_refl). naive_solver.
  - clear Ea Eb. destruct Ha as [Ha Na], Hb as [Hb Nb]. rewrite !right_wf, !bottom_wf in * by done.
    set (u := SetRect _ _ _ _ _) in *.
    assert (Eu : x u = Z.min (x a) (x b) /\ y u = Z.min (y a) (y b) /\
      x u + width u = Z.max (x a + width a) (x b + width b) /\
      y u + height u = Z.max (y a + height a) (y b + height b)).
    { subst u. clear Hu. open_rects. in_range. rewrite SetRect_spec by lia. cbn. lia. }
    split.
    + intros p. rewrite !inside_spec by done. unfold within. lia.
    + intros c Hc Hsub p. rewrite !inside_spec by done.
      rewrite IsEmpty_false in Na0, Nb0 by done.
      assert (forall q, within q a \/ within q b -> within q c) as Hs.
      { intros q Hq. apply inside_spec; [done|]. apply Hsub. by rewrite !inside_spec by done. }
      pose proof (Hs (x a, y a)). pose proof (Hs (x b, y b)).
      pose proof (Hs (x a + width a - 1, y a + height a - 1)).
      pose proof (Hs (x b + width b - 1, y b + height b - 1)). unfold within in *. cbn in *. lia.
Qed.

(** [Subtract] computes the bounding rectangle of a difference: it contains
    every point of the first rectangle outside the second, and every rectangle
    that contains these contains it. *)
Lemma subtract_is_bound a b :
  wf a -> wf b ->
  (forall p, inside p a -> ~ inside p b -> inside p (Subtract b a)) /\
  (forall c, wf c -> (forall p, inside p a -> ~ inside p b -> inside p c) ->
   forall p, inside p (Subtract b a) -> inside p c).
Proof.
  intros Ha Hb. pose proof (Subtract_wf a b Ha Hb) as Hw.
  destruct (Intersects b a) eqn:Hi.
  2:{ assert (Subtract b a = a) as -> by (unfold Subtract; by rewrite Hi).
      split; [done|]. intros c Hc Hsub p Hp. apply Hsub; [done|]. intros Hpb.
      apply not_true_iff_false in Hi. apply Hi. apply Intersects_spec; [done..|].
      apply inside_spec in Hp, Hpb; [|done..]. unfold within in *. lia. }
  apply Intersects_spec in Hi as Hn; [|done..].
  destruct (ContainsRect a b) eqn:Hcon.
  - split.
    + intros p Hp Hnp. exfalso. apply Hnp. apply inside_spec in Hp; [|done].
      apply inside_spec; [done|]. unfold ContainsRect in Hcon.
      rewrite !right_wf, !bottom_wf in Hcon by done. unfold within in *. lia.
    + intros c Hc Hsub p Hp. apply inside_spec in Hp; [|done]. unfold Subtract in Hp.
      rewrite Hi, Hcon in Hp. cbn in Hp. rewrite SetRect_spec in Hp by lia.
      unfold within, x, y, width, height in Hp. cbn in Hp. lia.
  - destruct (Subtract_spec a b Ha Hb Hi Hcon) as (l & t & r & d & E & Hs). rewrite E in *. split.
    + intros p Hp Hnp. rewrite inside_spec in * by done. unfold within in *.
      unfold x, y, width, height in Hs, Hp, Hnp |- *. cbn. lia.
    + intros c Hc Hsub p Hp. apply inside_spec in Hp; [|done]. apply inside_spec; [done|].
      assert (forall q, within q a -> ~ within q b -> within q c) as Hq.
      { intros q. rewrite <- !inside_spec by done. apply Hsub. }
      pose proof (Hq (l, t)). pose proof (Hq (r - 1, t)).
      pose proof (Hq (l, d - 1)). pose proof (Hq (r - 1, d - 1)).
      clear Hq Hsub Hcon Hi E Ha Hb Hc Hw. unfold within in *.
      unfold x, y, width, height in *. cbn in *.
      destruct Hs as (? & ? & ? & ? & [Hs|[Hs|Hs]]); lia.
Qed.

(** [AdjustToFit] moves a rectangle into another and cuts it only as far as
    it must: the result lies within, its sides are the shorter of the two, and
    a rectangle that was already within stays where it is. *)
Lemma adjust_to_fit_fits a b :
  wf a -> wf b ->
  let r := AdjustToFit b a in
  ContainsRect r b = true /\
  width r = Z.min (width a) (width b) /\ height r = Z.min (height a) (height b) /\
  (ContainsRect a b = true -> r = a).
Proof.
  intros Ha Hb. cbn. unfold AdjustToFit, AdjustAlongAxis, ContainsRect.
  rewrite !(right_wf a), !(bottom_wf a), !(right_wf b), !(bottom_wf b) by done.
  assert (exists l t, SetRect
     (if x a <? x b then x b
      else Z.min (x b ⊕ width b) (x a ⊕ Z.min (width b) (width a)) ⊖ Z.min (width b) (width a))
     (if y a <? y b then y b
      else Z.min (y b ⊕ height b) (y a ⊕ Z.min (height b) (height a)) ⊖ Z.min (height b) (height a))
     (Z.min (width b) (width a)) (Z.min (height b) (height a)) a =
     mkRect (mkPoint l t) (mkSize (Z.min (width b) (width a)) (Z.min (height b) (height a))) /\
     x b <= l /\ l + Z.min (width b) (width a) <= x b + width b /\
     y b <= t /\ t + Z.min (height b) (height a) <= y b + height b /\
     (x b <= x a -> x a + width a <= x b + width b -> l = x a) /\
     (y b <= y a -> y a + height a <= y b + height b -> t = y a)) as (l & t & -> & Hs).
  { unfold wf in *. rewrite SetRect_spec by lia. do 2 eexists. split; [reflexivity|].
    in_range. repeat case_if; lia. }
  unfold wf, right, bottom in *. unfold x, y, width, height in *. cbn. in_range.
  split_and!; [lia..|]. intros Hc. destruct a as [[ax ay] [aw ah]]. cbn in *.
  f_equal; f_equal; lia.
Qed.

(** C15. The operations on rectangles are those on the sets of their points.
    [Intersect] is the intersection, for any two rectangles of [int]s, and
    [Intersects] tells whether it has a point. [Union] is the hull, for
    rectangles within half of the type: it contains both, and any rectangle
    that contains both contains it. [Subtract] is the hull of the points of the
    first outside the second. [AdjustToFit] moves a rectangle into another and
    cuts it only as far as it must: the result lies within, its sides are the
    shorter of the two, and what was already within stays where it is. *)
Theorem rectangles_are_sets_of_points a b :
  wf a -> wf b ->
  (forall p, inside p (Intersect b a) <-> inside p a /\ inside p b) /\
  (Intersects b a = true <-> exists p, inside p a /\ inside p b) /\
  (near a -> near b ->
     (forall p, inside p a \/ inside p b -> inside p (Union b a)) /\
     forall c, wf c -> (forall p, inside p a \/ inside p b -> inside p c) ->
       forall p, inside p (Union b a) -> inside p c) /\
  (forall p, inside p a -> ~ inside p b -> inside p (Subtract b a)) /\
  (forall c, wf c -> (forall p, inside p a -> ~ inside p b -> inside p c) ->
     forall p, inside p (Subtract b a) -> inside p c) /\
  let r := AdjustToFit b a in
  ContainsRect r b = true /\
  width r = Z.min (width a) (width b) /\ height r = Z.min (height a) (height b) /\
  (ContainsRect a b = true -> r = a).
Proof.
  intros Ha Hb. destruct (intersect_is_intersection a b Ha Hb) as [H1 H2].
  destruct (subtract_is_bound a b Ha Hb) as [H3 H4].
  exact (conj H1 (conj H2 (conj (union_is_hull a b) (conj H3 (conj H4 (adjust_to_fit_fits a b Ha Hb)))))).
Qed.

(** ** A witness *)

Definition rect_a : Rect := new_Rect 0 0 10 10.
Definition rect_b : Rect := new_Rect 4 (-2) 20 20.

Lemma rect_a_near : near rect_a.
Proof. unfold near, wf. cbn. lia. Qed.

Lemma rect_b_near : near rect_b.
Proof. unfold near, wf. cbn. lia. Qed.

Lemma rectangles_are_sets_of_points_witness :
  Intersect rect_b rect_a = new_Rect 4 0 6 10 /\ Union rect_b rect_a = new_Rect 0 (-2) 24 20 /\
  Subtract rect_b rect_a = new_Rect 0 0 4 10 /\ AdjustToFit rect_b rect_a = new_Rect 4 0 10 10 /\
  (inside (5, 9) (Intersect rect_b rect_a) <-> inside (5, 9) rect_a /\ inside (5, 9) rect_b) /\
  inside (1, 1) (Union rect_b rect_a) /\ inside (3, 9) (Subtract rect_b rect_a) /\
  ContainsRect (AdjustToFit rect_b rect_a) rect_b = true.
Proof.
  destruct (rectangles_are_sets_of_points rect_a rect_b (proj1 rect_a_near) (proj1 rect_b_near)) as (HI & _ & HU & HS & _ & HA & _).
  refine (conj eq_refl (conj eq_refl (conj eq_refl (conj eq_refl (conj (HI (5, 9)) (conj _ (conj _ HA))))))).
  - apply (proj1 (HU rect_a_near rect_b_near)). by left.
  - by apply HS.
Defined.
