(* ===== verification/TilingData.v ===== *)
(** The tiling of a layer, cc/base/tiling_data.{h,cc}: tiles with borders over
    a size, the maps between positions and tile indices, and the iterators over
    the tiles of a rectangle. *)
From S2P Require Import Prelude Geometry.
From Stdlib Require Import ZifyBool.

(** ** Data *)

(* src: cc/base/tiling_data.h 137-143! TilingData *)
Record TilingData := mkTilingData {
  max_texture_size_ : Size;
  total_size_ : Size;
  border_texels_ : Z;
  num_tiles_x_ : Z;
  num_tiles_y_ : Z
}.

#[export] Instance eta_TilingData : Eta TilingData := fun t =>
  mkTilingData (max_texture_size_ t) (total_size_ t) (border_texels_ t)
    (num_tiles_x_ t) (num_tiles_y_ t).

(* src: cc/base/tiling_data.cc 14-24 ComputeNumTiles *)
Definition ComputeNumTiles (max_texture_size total_size border_texels : Z) : Z :=
  if max_texture_size ⊖ (2 ⊗ border_texels) <=? 0
  then if (0 <? total_size) && (total_size <=? max_texture_size) then 1 else 0
  else
    let num_tiles :=
      Z.max 1 (1 ⊕ ((total_size ⊖ 1 ⊖ (2 ⊗ border_texels)) ⊘
                    (max_texture_size ⊖ (2 ⊗ border_texels)))) in
    if 0 <? total_size then num_tiles else 0.

(* src: cc/base/tiling_data.cc 262-267 RecomputeNumTiles *)
Definition RecomputeNumTiles (t : TilingData) : TilingData :=
  t <| num_tiles_x_ := ComputeNumTiles (width_ (max_texture_size_ t)) (width_ (total_size_ t))
                         (border_texels_ t) |>
    <| num_tiles_y_ := ComputeNumTiles (height_ (max_texture_size_ t)) (height_ (total_size_ t))
                         (border_texels_ t) |>.

(* src: cc/base/tiling_data.cc 41-49 TilingData::TilingData *)
Definition new_TilingData (max_texture_size total_size : Size) (border_texels : Z) : TilingData :=
  RecomputeNumTiles (mkTilingData max_texture_size total_size border_texels 0 0).

(* src: cc/base/tiling_data.cc 26-39! TilingData::TilingData *)
Definition new_TilingData_with_border (max_texture_size total_size : Size) (has_border_texels : bool)
    : TilingData :=
  RecomputeNumTiles
    (mkTilingData max_texture_size total_size (if has_border_texels then 1 else 0) 0 0).

(* src: cc/base/tiling_data.cc 51-54 SetTotalSize *)
Definition SetTotalSize (total_size : Size) (t : TilingData) : TilingData :=
  RecomputeNumTiles (t <| total_size_ := total_size |>).

(* src: cc/base/tiling_data.cc 56-59 SetMaxTextureSize *)
Definition SetMaxTextureSize (max_texture_size : Size) (t : TilingData) : TilingData :=
  RecomputeNumTiles (t <| max_texture_size_ := max_texture_size |>).

(* src: cc/base/tiling_data.cc 61-64 SetHasBorderTexels *)
Definition SetHasBorderTexels (has_border_texels : bool) (t : TilingData) : TilingData :=
  RecomputeNumTiles (t <| border_texels_ := if has_border_texels then 1 else 0 |>).

(* src: cc/base/tiling_data.cc 66-69 SetBorderTexels *)
Definition SetBorderTexels (border_texels : Z) (t : TilingData) : TilingData :=
  RecomputeNumTiles (t <| border_texels_ := border_texels |>).

(* src: cc/base/tiling_data.h 44-44! has_empty_bounds *)
Definition has_empty_bounds (t : TilingData) : bool :=
  (num_tiles_x_ t =? 0) || (num_tiles_y_ t =? 0).

(** ** One axis

    The source writes every function twice, for the width and for the height.
    An [Axis] holds what one of the two copies reads. *)
Record Axis := mkAxis { ax_max : Z; ax_total : Z; ax_border : Z; ax_num : Z }.

Definition x_axis (t : TilingData) : Axis :=
  mkAxis (width_ (max_texture_size_ t)) (width_ (total_size_ t)) (border_texels_ t) (num_tiles_x_ t).
Definition y_axis (t : TilingData) : Axis :=
  mkAxis (height_ (max_texture_size_ t)) (height_ (total_size_ t)) (border_texels_ t) (num_tiles_y_ t).

(** The texels of a tile that are not border. *)
(* src: cc/base/tiling_data.cc 133-134! TileBounds *)
Definition inner_size (a : Axis) : Z := ax_max a ⊖ (2 ⊗ ax_border a).

(** The common shape of the index functions: [position] divided by the inner
    size, clamped to the tiles there are. *)
(* src: cc/base/tiling_data.cc 71-79! TileXIndexFromSrcCoord *)
Definition clamped_index (a : Axis) (position : Z) : option Z :=
  if ax_num a <=? 1 then Some 0 else
  DCHECK (0 <? inner_size a) ;;
  Some (Z.min (Z.max (position ⊘ inner_size a) 0) (ax_num a ⊖ 1)).

(* src: cc/base/tiling_data.cc 71-79! TileXIndexFromSrcCoord *)
Definition IndexFromSrcCoord (a : Axis) (src_position : Z) : option Z :=
  clamped_index a (src_position ⊖ ax_border a).
(* src: cc/base/tiling_data.cc 91-99! FirstBorderTileXIndexFromSrcCoord *)
Definition FirstBorderIndex (a : Axis) (src_position : Z) : option Z :=
  clamped_index a (src_position ⊖ (2 ⊗ ax_border a)).
(* src: cc/base/tiling_data.cc 111-119! LastBorderTileXIndexFromSrcCoord *)
Definition LastBorderIndex (a : Axis) (src_position : Z) : option Z :=
  clamped_index a src_position.

(** The two edges of a tile, without and with its border. *)
(* src: cc/base/tiling_data.cc 138-144! TileBounds *)
Definition tile_lo (a : Axis) (i : Z) : Z :=
  let lo := inner_size a ⊗ i in
  if !(i =? 0) then lo ⊕ ax_border a else lo.
(* src: cc/base/tiling_data.cc 146-155! TileBounds *)
Definition tile_hi (a : Axis) (i : Z) : Z :=
  let hi := (inner_size a ⊗ (i ⊕ 1)) ⊕ ax_border a in
  let hi := if i ⊕ 1 =? ax_num a then hi ⊕ ax_border a else hi in
  Z.min hi (ax_total a).
(* src: cc/base/tiling_data.cc 177-178! TileBoundsWithBorder *)
Definition border_lo (a : Axis) (i : Z) : Z := inner_size a ⊗ i.
(* src: cc/base/tiling_data.cc 180-184! TileBoundsWithBorder *)
Definition border_hi (a : Axis) (i : Z) : Z :=
  Z.min (border_lo a i ⊕ inner_size a ⊕ (2 ⊗ ax_border a)) (ax_total a).

(* src: cc/base/tiling_data.h 128-133! AssertTile *)
Definition AssertIndex (a : Axis) (i : Z) : option unit :=
  DCHECK (0 <=? i) ;; DCHECK (i <? ax_num a).

(* src: cc/base/tiling_data.cc 199-208! TilePositionX *)
Definition TilePosition (a : Axis) (i : Z) : option Z :=
  AssertIndex a i ;;
  let pos := inner_size a ⊗ i in
  Some (if !(i =? 0) then pos ⊕ ax_border a else pos).

(* src: cc/base/tiling_data.cc 221-236! TileSizeX *)
Definition TileSize (a : Axis) (i : Z) : option Z :=
  AssertIndex a i ;;
  if (i =? 0) && (ax_num a =? 1) then Some (ax_total a) else
  if (i =? 0) && (1 <? ax_num a) then Some (ax_max a ⊖ ax_border a) else
  if i <? ax_num a ⊖ 1 then Some (inner_size a) else
  if i =? ax_num a ⊖ 1 then
    pos ← TilePosition a i;
    Some (ax_total a ⊖ pos)
  else None.

(** The checks at the end of the two functions that compute bounds. *)
(* src: cc/base/tiling_data.cc 157-167! TileBounds *)
Definition checked_bounds (t : TilingData) (lo_x lo_y hi_x hi_y : Z) : option Rect :=
  let width := hi_x ⊖ lo_x in
  let height := hi_y ⊖ lo_y in
  DCHECK (0 <=? lo_x) ;;
  DCHECK (0 <=? lo_y) ;;
  DCHECK (0 <=? width) ;;
  DCHECK (0 <=? height) ;;
  DCHECK (lo_x <=? width_ (total_size_ t)) ;;
  DCHECK (lo_y <=? height_ (total_size_ t)) ;;
  Some (new_Rect lo_x lo_y width height).

(** ** The functions of the class *)

(* src: cc/base/tiling_data.cc 71-79 TileXIndexFromSrcCoord *)
Definition TileXIndexFromSrcCoord (t : TilingData) : Z -> option Z := IndexFromSrcCoord (x_axis t).
(* src: cc/base/tiling_data.cc 81-89 TileYIndexFromSrcCoord *)
Definition TileYIndexFromSrcCoord (t : TilingData) : Z -> option Z := IndexFromSrcCoord (y_axis t).
(* src: cc/base/tiling_data.cc 91-99 FirstBorderTileXIndexFromSrcCoord *)
Definition FirstBorderTileXIndexFromSrcCoord (t : TilingData) : Z -> option Z :=
  FirstBorderIndex (x_axis t).
(* src: cc/base/tiling_data.cc 101-109 FirstBorderTileYIndexFromSrcCoord *)
Definition FirstBorderTileYIndexFromSrcCoord (t : TilingData) : Z -> option Z :=
  FirstBorderIndex (y_axis t).
(* src: cc/base/tiling_data.cc 111-119 LastBorderTileXIndexFromSrcCoord *)
Definition LastBorderTileXIndexFromSrcCoord (t : TilingData) : Z -> option Z :=
  LastBorderIndex (x_axis t).
(* src: cc/base/tiling_data.cc 121-129 LastBorderTileYIndexFromSrcCoord *)
Definition LastBorderTileYIndexFromSrcCoord (t : TilingData) : Z -> option Z :=
  LastBorderIndex (y_axis t).

(* src: cc/base/tiling_data.h 128-133 AssertTile *)
Definition AssertTile (t : TilingData) (i j : Z) : option unit :=
  AssertIndex (x_axis t) i ;; AssertIndex (y_axis t) j.

(* src: cc/base/tiling_data.cc 131-168 TileBounds *)
Definition TileBounds (t : TilingData) (i j : Z) : option Rect :=
  AssertTile t i j ;;
  checked_bounds t (tile_lo (x_axis t) i) (tile_lo (y_axis t) j)
                   (tile_hi (x_axis t) i) (tile_hi (y_axis t) j).

(* src: cc/base/tiling_data.cc 170-197 TileBoundsWithBorder *)
Definition TileBoundsWithBorder (t : TilingData) (i j : Z) : option Rect :=
  AssertTile t i j ;;
  checked_bounds t (border_lo (x_axis t) i) (border_lo (y_axis t) j)
                   (border_hi (x_axis t) i) (border_hi (y_axis t) j).

(* src: cc/base/tiling_data.cc 199-208 TilePositionX *)
Definition TilePositionX (t : TilingData) : Z -> option Z := TilePosition (x_axis t).
(* src: cc/base/tiling_data.cc 210-219 TilePositionY *)
Definition TilePositionY (t : TilingData) : Z -> option Z := TilePosition (y_axis t).
(* src: cc/base/tiling_data.cc 221-236 TileSizeX *)
Definition TileSizeX (t : TilingData) : Z -> option Z := TileSize (x_axis t).
(* src: cc/base/tiling_data.cc 238-253 TileSizeY *)
Definition TileSizeY (t : TilingData) : Z -> option Z := TileSize (y_axis t).

(* src: cc/base/tiling_data.cc 255-260 TextureOffset *)
Definition TextureOffset (t : TilingData) (x_index y_index : Z) : Point :=
  mkPoint (if (x_index =? 0) || (num_tiles_x_ t =? 1) then 0 else border_texels_ t)
          (if (y_index =? 0) || (num_tiles_y_ t =? 1) then 0 else border_texels_ t).

(** ** Iterators *)

(** What both iterators inherit: [index()] is a pair of indices, both [-1]
    when the iterator is exhausted. *)
(* src: cc/base/tiling_data.h 67-87! BaseIterator *)
Definition valid (index : Z * Z) : bool := !(index.1 =? -1) && !(index.2 =? -1).

(* src: cc/base/tiling_data.h 90-99 Iterator *)
Record Iterator := mkIterator { it_index : Z * Z; left_ : Z; right_ : Z; bottom_ : Z }.

(* src: cc/base/tiling_data.cc 275-297! TilingData::Iterator::Iterator *)
Definition new_Iterator (t : TilingData) (rect : Rect) : option Iterator :=
  if (num_tiles_x_ t <=? 0) || (num_tiles_y_ t <=? 0)
  then Some (mkIterator (-1, -1) (-1) (-1) (-1)) else
  let rect := Intersect (Rect_of_size (total_size_ t)) rect in
  index_x ← FirstBorderTileXIndexFromSrcCoord t (x rect);
  index_y ← FirstBorderTileYIndexFromSrcCoord t (y rect);
  right_ ← LastBorderTileXIndexFromSrcCoord t (right rect ⊖ 1);
  bottom_ ← LastBorderTileYIndexFromSrcCoord t (bottom rect ⊖ 1);
  new_rect ← TileBoundsWithBorder t index_x index_y;
  Some (mkIterator (if !(Intersects rect new_rect) then (-1, -1) else (index_x, index_y))
                   index_x right_ bottom_).

(* src: cc/base/tiling_data.cc 299-312! TilingData::Iterator::operator++ *)
Definition it_next (it : Iterator) : Iterator :=
  if !(valid (it_index it)) then it else
  let '(index_x, index_y) := it_index it in
  let index_x := index_x ⊕ 1 in
  if right_ it <? index_x then
    let index_x := left_ it in
    let index_y := index_y ⊕ 1 in
    mkIterator (if bottom_ it <? index_y then (-1, -1) else (index_x, index_y))
               (left_ it) (right_ it) (bottom_ it)
  else mkIterator (index_x, index_y) (left_ it) (right_ it) (bottom_ it).

(* src: cc/base/tiling_data.h 103-125! DifferenceIterator *)
Record DifferenceIterator := mkDifferenceIterator {
  di_index : Z * Z;
  consider_left_ : Z; consider_top_ : Z; consider_right_ : Z; consider_bottom_ : Z;
  ignore_left_ : Z; ignore_top_ : Z; ignore_right_ : Z; ignore_bottom_ : Z
}.

#[export] Instance eta_DifferenceIterator : Eta DifferenceIterator := fun d =>
  mkDifferenceIterator (di_index d) (consider_left_ d) (consider_top_ d) (consider_right_ d)
    (consider_bottom_ d) (ignore_left_ d) (ignore_top_ d) (ignore_right_ d) (ignore_bottom_ d).

(* src: cc/base/tiling_data.h 112-115 in_ignore_rect *)
Definition in_ignore_rect (d : DifferenceIterator) : bool :=
  (ignore_left_ d <=? (di_index d).1) && ((di_index d).1 <=? ignore_right_ d) &&
  (ignore_top_ d <=? (di_index d).2) && ((di_index d).2 <=? ignore_bottom_ d).

(* src: cc/base/tiling_data.cc 379-406! TilingData::DifferenceIterator::operator++ *)
Definition di_next (d : DifferenceIterator) : DifferenceIterator :=
  if !(valid (di_index d)) then d else
  let d := d <| di_index := ((di_index d).1 ⊕ 1, (di_index d).2) |> in
  let d := if in_ignore_rect d
           then d <| di_index := (ignore_right_ d ⊕ 1, (di_index d).2) |> else d in
  if consider_right_ d <? (di_index d).1 then
    let d := d <| di_index := (consider_left_ d, (di_index d).2 ⊕ 1) |> in
    let d :=
      if in_ignore_rect d then
        let d := d <| di_index := (ignore_right_ d ⊕ 1, (di_index d).2) |> in
        if in_ignore_rect d || (consider_right_ d <? (di_index d).1)
        then d <| di_index := (consider_left_ d, ignore_bottom_ d ⊕ 1) |>
        else d
      else d in
    if consider_bottom_ d <? (di_index d).2 then d <| di_index := (-1, -1) |> else d
  else d.

(* src: cc/base/tiling_data.cc 314-377! TilingData::DifferenceIterator::DifferenceIterator *)
Definition new_DifferenceIterator (t : TilingData) (consider ignore : Rect)
    : option DifferenceIterator :=
  let d := mkDifferenceIterator (-1, -1) (-1) (-1) (-1) (-1) (-1) (-1) (-1) (-1) in
  if (num_tiles_x_ t <=? 0) || (num_tiles_y_ t <=? 0) then Some d else
  let bounds := Rect_of_size (total_size_ t) in
  let consider := Intersect bounds consider in
  let ignore := Intersect bounds ignore in
  if IsEmpty consider then Some d else
  cl ← FirstBorderTileXIndexFromSrcCoord t (x consider);
  ct ← FirstBorderTileYIndexFromSrcCoord t (y consider);
  cr ← LastBorderTileXIndexFromSrcCoord t (right consider ⊖ 1);
  cb ← LastBorderTileYIndexFromSrcCoord t (bottom consider ⊖ 1);
  let d := mkDifferenceIterator (-1, -1) cl ct cr cb (-1) (-1) (-1) (-1) in
  d ← (if !(IsEmpty ignore) then
         il ← FirstBorderTileXIndexFromSrcCoord t (x ignore);
         it ← FirstBorderTileYIndexFromSrcCoord t (y ignore);
         ir ← LastBorderTileXIndexFromSrcCoord t (right ignore ⊖ 1);
         ib ← LastBorderTileYIndexFromSrcCoord t (bottom ignore ⊖ 1);
         Some (mkDifferenceIterator (-1, -1) cl ct cr cb
                 (Z.max il cl) (Z.max it ct) (Z.min ir cr) (Z.min ib cb))
       else Some d);
  if (ignore_left_ d =? consider_left_ d) && (ignore_right_ d =? consider_right_ d) &&
     (ignore_top_ d =? consider_top_ d) && (ignore_bottom_ d =? consider_bottom_ d)
  then Some d else
  let d := d <| di_index := (consider_left_ d, consider_top_ d) |> in
  Some (if in_ignore_rect d then di_next d else d).

(** The loop [for (; it; ++it)] of the iterators' users, with the indices it
    visits. *)
Fixpoint visited {It : Type} (index : It -> Z * Z) (next : It -> It) (fuel : nat) (it : It)
    : res (list (Z * Z)) :=
  match fuel with
  | O => NoFuel
  | S fuel =>
      if valid (index it) then
        l ← visited index next fuel (next it);
        Ok (index it :: l)
      else Ok []
  end.
