(* ===== verification/TilingProperties.v ===== *)
(** The tiles partition the layer, lookups find the tile of a position, and
    the iterators visit the tiles of a rectangle once each, row by row. *)
From S2P Require Import Prelude Geometry TilingData.
From Stdlib Require Import ZifyBool.

(** ** One axis *)

(** Sizes that leave room in an [int], and the number of tiles the class
    computes for them. *)
Definition axis_ok (a : Axis) : Prop :=
  0 <= ax_border a /\ 0 <= ax_max a /\ 0 <= ax_total a /\
  ax_max a + ax_total a + 2 * ax_border a < 2 ^ 31 /\
  ax_num a = ComputeNumTiles (ax_max a) (ax_total a) (ax_border a).

Section Axis.
Variable a : Axis.
Hypothesis Hok : axis_ok a.

Let m := ax_max a - 2 * ax_border a.

Lemma inner_eq : inner_size a = m.
Proof. destruct Hok as (?&?&?&?&?). unfold inner_size, m. in_range. lia. Qed.

(** There are no tiles, there is one that covers all, or there are several
    whose inner parts cover all but the last of the texels. *)
Lemma num_cases :
  ax_num a = 0 \/
  (0 < ax_total a <= ax_max a /\ ax_num a = 1) \/
  (0 < m /\ 1 < ax_num a /\
   m * (ax_num a - 1) + 2 * ax_border a < ax_total a <= m * ax_num a + 2 * ax_border a).
Proof.
  destruct Hok as (?&?&?&?&E). rewrite E. unfold ComputeNumTiles. subst m.
  set (b := ax_border a) in *. set (n := ax_total a) in *. set (k := ax_max a) in *.
  in_range. destruct (Z.leb_spec (k - 2 * b) 0).
  { case_if; lia. }
  destruct (Z.ltb_spec 0 n); [|by left]. right.
  set (q := (n - 1 - 2 * b) ÷ (k - 2 * b)).
  assert (Hq : n - 1 - 2 * b < 0 /\ n - 1 - 2 * b <= q <= 0 \/
    0 <= q <= n - 1 - 2 * b /\ (k - 2 * b) * q <= n - 1 - 2 * b < (k - 2 * b) * q + (k - 2 * b)).
  { pose proof (Z.quot_rem' (n - 1 - 2 * b) (k - 2 * b)) as Hd. fold q in Hd.
    destruct (Z.ltb_spec (n - 1 - 2 * b) 0); [left|right].
    - pose proof (Z.rem_bound_pos_neg (n - 1 - 2 * b) (k - 2 * b)). split; [done|nia].
    - pose proof (Z.rem_bound_pos (n - 1 - 2 * b) (k - 2 * b)). split; [nia|lia]. }
  rewrite (s32_id q) by lia. rewrite s32_id by lia.
  destruct (Z.leb_spec q 0); [left; nia|right]. rewrite Z.max_r by lia. nia.
Qed.

Lemma num_small : ax_num a < 2 ^ 31.
Proof.
  pose proof Hok as (?&?&?&?&_). assert (m = ax_max a - 2 * ax_border a) by done.
  destruct num_cases as [?|[?|(?&?&?)]]; nia.
Qed.

(** Where the edges of a tile lie. *)
Definition lo (i : Z) : Z := if i =? 0 then 0 else m * i + ax_border a.
Definition hi (i : Z) : Z :=
  if i =? ax_num a - 1 then ax_total a else m * (i + 1) + ax_border a.
Definition outer_hi (i : Z) : Z :=
  if i =? ax_num a - 1 then ax_total a else m * (i + 1) + 2 * ax_border a.

Lemma tile_products i :
  0 <= i < ax_num a ->
  0 <= m * i /\ (i = 0 \/ 1 < ax_num a /\ 0 < m) /\
  (i = ax_num a - 1 \/ m * (i + 1) <= m * (ax_num a - 1)) /\ m * i <= m * (ax_num a - 1) /\
  m * (i + 1) = m * i + m /\ m * ax_num a = m * (ax_num a - 1) + m.
Proof.
  intros Hi. destruct num_cases as [E|[[? E]|(Hm & Hn & _)]]; [lia| |].
  - assert (i = 0) as -> by lia. rewrite E. lia.
  - split_and!; nia.
Qed.

Ltac tile_arith i Hi :=
  pose proof (tile_products i Hi); pose proof num_cases as Hcases;
  pose proof Hok as (Hb & Hmax & Htot & Hfit & _).

Lemma tile_lo_eq i : 0 <= i < ax_num a -> tile_lo a i = lo i.
Proof.
  intros Hi. tile_arith i Hi. unfold tile_lo, lo. rewrite inner_eq.
  rewrite (s32_id (m * i)) by lia. destruct (Z.eqb_spec i 0) as [->|]; cbn; [lia|].
  apply s32_id. lia.
Qed.

Lemma border_lo_eq i : 0 <= i < ax_num a -> border_lo a i = m * i.
Proof. intros Hi. tile_arith i Hi. unfold border_lo. rewrite inner_eq. apply s32_id. lia. Qed.

Lemma tile_hi_eq i : 0 <= i < ax_num a -> tile_hi a i = hi i.
Proof.
  intros Hi. tile_arith i Hi. unfold tile_hi, hi. rewrite inner_eq. 
  assert (m = ax_max a - 2 * ax_border a) by done.
  assert (ax_num a < 2 ^ 31) by nia.
  rewrite (s32_id (i + 1)) by lia. rewrite (s32_id (m * (i + 1))) by lia.
  rewrite (s32_id (m * (i + 1) + ax_border a)) by lia.
  replace (i + 1 =? ax_num a) with (i =? ax_num a - 1) by lia.
  destruct (Z.eqb_spec i (ax_num a - 1)); [|lia].
  rewrite s32_id by lia. subst i. replace (ax_num a - 1 + 1) with (ax_num a) by lia. lia.
Qed.

Lemma border_hi_eq i : 0 <= i < ax_num a -> border_hi a i = outer_hi i.
Proof.
  intros Hi. unfold border_hi. rewrite border_lo_eq, inner_eq by done. tile_arith i Hi.
  assert (m = ax_max a - 2 * ax_border a) by done. unfold outer_hi.
  in_range. destruct (Z.eqb_spec i (ax_num a - 1)); lia.
Qed.

(** A position divided by the inner size, against the multiples of it. *)
Lemma division p k : 0 < m -> (m * k <= p <-> k <= p / m) /\ (p < m * (k + 1) <-> p / m <= k).
Proof.
  intros Hm. pose proof (Z.div_mod p m ltac:(lia)). pose proof (Z.mod_pos_bound p m Hm).
  set (q := p / m) in *. split; split; intros; nia.
Qed.

Lemma clamped_index_eq p :
  - 2 ^ 31 <= p < 2 ^ 31 ->
  clamped_index a p =
    Some (if ax_num a <=? 1 then 0 else Z.min (Z.max (p / m) 0) (ax_num a - 1)).
Proof.
  intros Hp. unfold clamped_index. destruct (Z.leb_spec (ax_num a) 1); [done|].
  destruct num_cases as [?|[?|(Hm & Hn & ?)]]; [lia..|].
  rewrite inner_eq, DCHECK_bind. replace (0 <? m) with true by lia.
  pose proof Hok as (?&?&?&?&_). assert (m = ax_max a - 2 * ax_border a) by done.
  assert (ax_num a < 2 ^ 31) by nia.
  assert (- 2 ^ 31 <= p ÷ m < 2 ^ 31).
  { pose proof (Z.quot_rem' p m). destruct (Z.ltb_spec p 0).
    - pose proof (Z.rem_bound_pos_neg p m). nia.
    - pose proof (Z.rem_bound_pos p m). nia. }
  rewrite (s32_id (p ÷ m)) by lia. rewrite (s32_id (ax_num a - 1)) by lia.
  by rewrite quot_clamp.
Qed.

Lemma clamped_index_range p :
  0 < ax_num a -> - 2 ^ 31 <= p < 2 ^ 31 ->
  exists i, clamped_index a p = Some i /\ 0 <= i < ax_num a.
Proof.
  intros Hn Hp. rewrite clamped_index_eq by done. eexists; split; [reflexivity|]. case_if; lia.
Qed.

(** Exactly one tile contains a texel in its inner part, and it is the one the
    lookup finds. *)
Lemma IndexFromSrcCoord_spec p :
  0 < ax_num a -> 0 <= p < ax_total a ->
  exists i, IndexFromSrcCoord a p = Some i /\ 0 <= i < ax_num a /\
    forall k, 0 <= k < ax_num a -> (tile_lo a k <= p < tile_hi a k <-> k = i).
Proof.
  intros Hn Hp. pose proof Hok as (?&?&?&?&_). unfold IndexFromSrcCoord.
  rewrite s32_id by lia. rewrite clamped_index_eq by lia.
  eexists; split; [reflexivity|]. split; [case_if; lia|]. intros k Hk.
  rewrite tile_lo_eq, tile_hi_eq by done. unfold lo, hi.
  destruct num_cases as [?|[?|(Hm & Hn' & ?)]]; [lia|repeat case_if; lia|].
  replace (ax_num a <=? 1) with false by lia.
  destruct (division (p - ax_border a) k Hm) as [D1 D2].
  destruct (division (p - ax_border a) (ax_num a - 1) Hm) as [D3 _].
  destruct (division (p - ax_border a) 0 Hm) as [_ D6].
  destruct (Z.eqb_spec k 0) as [->|];
    [destruct (Z.eqb_spec 0 (ax_num a - 1))|destruct (Z.eqb_spec k (ax_num a - 1))]; lia.
Qed.

(** The tiles that meet an interval, borders included, are those between the
    two border lookups of its ends. *)
Lemma border_lookup_spec p q :
  0 < ax_num a -> 0 <= p <= q -> q < ax_total a ->
  exists f l, FirstBorderIndex a p = Some f /\ LastBorderIndex a q = Some l /\
    0 <= f <= l /\ l < ax_num a /\
    forall k, 0 <= k < ax_num a ->
      (border_lo a k <= q /\ p < border_hi a k <-> f <= k <= l).
Proof.
  intros Hn Hp Hq. pose proof Hok as (?&?&?&?&_).
  unfold FirstBorderIndex, LastBorderIndex. rewrite (s32_id (2 * _)) by lia.
  rewrite s32_id by lia. rewrite !clamped_index_eq by lia.
  do 2 eexists; split; [reflexivity|]; split; [reflexivity|].
  destruct num_cases as [?|[?|(Hm & Hn' & ?)]]; [lia| |].
  { replace (ax_num a <=? 1) with true by lia. split_and!; [lia..|]. intros k Hk.
    rewrite border_lo_eq, border_hi_eq by done. unfold outer_hi.
    assert (k = 0) as -> by lia. replace (0 =? ax_num a - 1) with true by lia. lia. }
  replace (ax_num a <=? 1) with false by lia.
  assert ((p - 2 * ax_border a) / m <= q / m) by (apply Z.div_le_mono; lia).
  split_and!; [lia..|]. intros k Hk.
  rewrite border_lo_eq, border_hi_eq by done. unfold outer_hi.
  destruct (division (p - 2 * ax_border a) k Hm) as [_ D2]. destruct (division q k Hm) as [D3 _].
  destruct (division (p - 2 * ax_border a) (ax_num a - 1) Hm) as [D4 D5].
  destruct (division q (ax_num a - 1) Hm) as [D6 D7].
  destruct (Z.eqb_spec k (ax_num a - 1)); lia.
Qed.

(** Position and size of a tile are its edges. *)
Lemma TilePosition_eq i : 0 <= i < ax_num a -> TilePosition a i = Some (lo i).
Proof.
  intros Hi. unfold TilePosition, AssertIndex. rewrite !DCHECK_bind.
  replace (0 <=? i) with true by lia. cbn. replace (i <? ax_num a) with true by lia. cbn.
  f_equal. by apply tile_lo_eq.
Qed.

Lemma TileSize_eq i : 0 <= i < ax_num a -> TileSize a i = Some (hi i - lo i).
Proof.
  intros Hi. unfold TileSize. rewrite TilePosition_eq by done. tile_arith i Hi.
  unfold AssertIndex. rewrite !DCHECK_bind.
  replace (0 <=? i) with true by lia. cbn. replace (i <? ax_num a) with true by lia. cbn.
  rewrite inner_eq. assert (m = ax_max a - 2 * ax_border a) by done.
  assert (ax_num a < 2 ^ 31) by (destruct Hcases as [?|[?|(?&?&?)]]; nia).
  assert (i = 0 -> m * i = 0) by (intros ->; lia). unfold lo, hi. in_range.
  repeat case_if; first [lia|f_equal; in_range; lia].
Qed.

Lemma edges_ok i :
  0 <= i < ax_num a ->
  0 <= lo i <= hi i /\ hi i <= ax_total a /\
  0 <= m * i <= outer_hi i /\ outer_hi i <= ax_total a.
Proof. intros Hi. tile_arith i Hi. unfold lo, hi, outer_hi. repeat case_if; lia. Qed.

Lemma border_nonempty i : 0 <= i < ax_num a -> border_lo a i < border_hi a i.
Proof.
  intros Hi. rewrite border_lo_eq, border_hi_eq by done. tile_arith i Hi.
  assert (i = 0 -> m * i = 0) by (intros ->; lia).
  assert (m = ax_max a - 2 * ax_border a) by done. unfold outer_hi. case_if; [|lia].
  assert (i = ax_num a - 1) as -> by lia. destruct Hcases as [?|[?|?]]; lia.
Qed.

Lemma border_around i :
  0 <= i < ax_num a ->
  lo i = m * i + (if (i =? 0) || (ax_num a =? 1) then 0 else ax_border a) /\
  hi i <= outer_hi i.
Proof.
  intros Hi. tile_arith i Hi. assert (i = 0 -> m * i = 0) by (intros ->; lia).
  unfold lo, hi, outer_hi. repeat case_if; lia.
Qed.

End Axis.

(** ** The tiling *)

(** The sizes fit the type and the numbers of tiles are up to date, which every
    constructor and setter sees to. *)
Definition tiling_ok (t : TilingData) : Prop := axis_ok (x_axis t) /\ axis_ok (y_axis t).

Definition tile (t : TilingData) (c : Z * Z) : Prop :=
  0 <= c.1 < num_tiles_x_ t /\ 0 <= c.2 < num_tiles_y_ t.

Lemma new_Rect_fields a b w h :
  0 <= w -> 0 <= h ->
  x (new_Rect a b w h) = a /\ y (new_Rect a b w h) = b /\
  width (new_Rect a b w h) = w /\ height (new_Rect a b w h) = h.
Proof.
  intros Hw Hh. unfold x, y, width, height. cbn.
  destruct (Z.ltb_spec w 0), (Z.ltb_spec h 0); (lia || done).
Qed.

Section Tiles.
Variable t : TilingData.
Hypothesis Hok : tiling_ok t.

Let X := x_axis t.
Let Y := y_axis t.
Let HX : axis_ok X := proj1 Hok.
Let HY : axis_ok Y := proj2 Hok.

Lemma total_fits :
  0 <= ax_total X < 2 ^ 31 /\ 0 <= ax_total Y < 2 ^ 31.
Proof. destruct HX as (?&?&?&?&_), HY as (?&?&?&?&_). lia. Qed.

Lemma checked_bounds_eq lx ly hx hy :
  0 <= lx <= hx -> hx <= ax_total X -> 0 <= ly <= hy -> hy <= ax_total Y ->
  checked_bounds t lx ly hx hy = Some (new_Rect lx ly (hx - lx) (hy - ly)).
Proof.
  intros H1 H2 H3 H4. pose proof total_fits. unfold checked_bounds. rewrite !DCHECK_bind.
  change (width_ (total_size_ t)) with (ax_total X). change (height_ (total_size_ t)) with (ax_total Y).
  rewrite (s32_id (hx - lx)), (s32_id (hy - ly)) by lia.
  repeat match goal with |- (if ?b then _ else _) = _ => replace b with true by lia end. done.
Qed.

Lemma AssertTile_eq i j : tile t (i, j) -> AssertTile t i j = Some tt.
Proof.
  intros [Hi Hj]. cbn in *. unfold AssertTile, AssertIndex. rewrite !DCHECK_bind. cbn.
  replace (0 <=? i) with true by lia. replace (i <? num_tiles_x_ t) with true by lia.
  replace (0 <=? j) with true by lia. replace (j <? num_tiles_y_ t) with true by lia. done.
Qed.

Lemma TileBounds_eq i j :
  tile t (i, j) ->
  TileBounds t i j =
    Some (new_Rect (lo X i) (lo Y j) (hi X i - lo X i) (hi Y j - lo Y j)).
Proof.
  intros Ht. unfold TileBounds. rewrite AssertTile_eq by done. cbn. destruct Ht as [Hi Hj].
  rewrite !tile_lo_eq, !tile_hi_eq by done.
  destruct (edges_ok X HX i Hi) as (?&?&_), (edges_ok Y HY j Hj) as (?&?&_).
  by apply checked_bounds_eq.
Qed.

Lemma TileBoundsWithBorder_eq i j :
  tile t (i, j) ->
  TileBoundsWithBorder t i j =
    Some (new_Rect (border_lo X i) (border_lo Y j) (border_hi X i - border_lo X i)
                   (border_hi Y j - border_lo Y j)).
Proof.
  intros Ht. unfold TileBoundsWithBorder. rewrite AssertTile_eq by done. cbn.
  destruct Ht as [Hi Hj]. fold X Y. rewrite !border_lo_eq, !border_hi_eq by done.
  destruct (edges_ok X HX i Hi) as (_&_&?&?), (edges_ok Y HY j Hj) as (_&_&?&?).
  by apply checked_bounds_eq.
Qed.

(** Membership in the rectangles those functions return. *)
Lemma within_bounds p lx ly hx hy :
  0 <= lx <= hx -> hx < 2 ^ 31 -> 0 <= ly <= hy -> hy < 2 ^ 31 ->
  wf (new_Rect lx ly (hx - lx) (hy - ly)) /\
  (within p (new_Rect lx ly (hx - lx) (hy - ly)) <-> lx <= p.1 < hx /\ ly <= p.2 < hy).
Proof.
  intros. destruct (new_Rect_fields lx ly (hx - lx) (hy - ly)) as (E1&E2&E3&E4); [lia..|].
  unfold wf, within. rewrite E1, E2, E3, E4. lia.
Qed.

End Tiles.

(** Lookups, and the bounds of all tiles. *)
Lemma texel_has_its_tile t p :
  tiling_ok t -> has_empty_bounds t = false ->
  0 <= p.1 < width_ (total_size_ t) -> 0 <= p.2 < height_ (total_size_ t) ->
  exists i j, TileXIndexFromSrcCoord t p.1 = Some i /\ TileYIndexFromSrcCoord t p.2 = Some j /\
    tile t (i, j) /\
    forall k l, tile t (k, l) ->
      exists r, TileBounds t k l = Some r /\ (inside p r <-> k = i /\ l = j).
Proof.
  intros Hok He Hx Hy. pose proof (num_cases _ (proj1 Hok)) as Nx.
  pose proof (num_cases _ (proj2 Hok)) as Ny. unfold has_empty_bounds in He. cbn in Nx, Ny.
  destruct (IndexFromSrcCoord_spec _ (proj1 Hok) p.1) as (i & Ei & Hi & Ui); [cbn; lia|done|].
  destruct (IndexFromSrcCoord_spec _ (proj2 Hok) p.2) as (j & Ej & Hj & Uj); [cbn; lia|done|].
  exists i, j. split; [done|]. split; [done|]. split; [done|]. intros k l Ht.
  rewrite TileBounds_eq by done. eexists; split; [reflexivity|]. destruct Ht as [Hk Hl].
  destruct (edges_ok _ (proj1 Hok) k Hk) as (?&?&_), (edges_ok _ (proj2 Hok) l Hl) as (?&?&_).
  pose proof (total_fits t Hok).
  destruct (within_bounds p (lo (x_axis t) k) (lo (y_axis t) l) (hi (x_axis t) k) (hi (y_axis t) l))
    as [Hw Hin]; [lia..|].
  rewrite inside_spec, Hin by done. rewrite <- (Ui k Hk), <- (Uj l Hl).
  rewrite !tile_lo_eq, !tile_hi_eq by (done || apply Hok). done.
Qed.

(** The three ways to ask for the geometry of a tile. *)
Lemma tile_geometry_agrees t i j :
  tiling_ok t -> tile t (i, j) ->
  exists px py sx sy r rb,
    TilePositionX t i = Some px /\ TilePositionY t j = Some py /\
    TileSizeX t i = Some sx /\ TileSizeY t j = Some sy /\
    TileBounds t i j = Some r /\ TileBoundsWithBorder t i j = Some rb /\
    r = new_Rect px py sx sy /\
    x r = x rb + pt_x (TextureOffset t i j) /\ y r = y rb + pt_y (TextureOffset t i j) /\
    ContainsRect r rb = true.
Proof.
  intros Hok Ht. pose proof Ht as [Hi Hj]. cbn in Hi, Hj.
  destruct (edges_ok _ (proj1 Hok) i Hi) as (?&?&?&?), (edges_ok _ (proj2 Hok) j Hj) as (?&?&?&?).
  pose proof (total_fits t Hok). pose proof (border_lo_eq _ (proj1 Hok) i Hi) as Bx.
  pose proof (border_lo_eq _ (proj2 Hok) j Hj) as By.
  pose proof (border_hi_eq _ (proj1 Hok) i Hi) as Cx. pose proof (border_hi_eq _ (proj2 Hok) j Hj) as Cy.
  exists (lo (x_axis t) i), (lo (y_axis t) j), (hi (x_axis t) i - lo (x_axis t) i),
    (hi (y_axis t) j - lo (y_axis t) j).
  do 2 eexists. split; [by apply TilePosition_eq, Hi; apply Hok|].
  split; [by apply TilePosition_eq, Hj; apply Hok|].
  split; [by apply TileSize_eq, Hi; apply Hok|]. split; [by apply TileSize_eq, Hj; apply Hok|].
  split; [by apply TileBounds_eq|]. split; [by apply TileBoundsWithBorder_eq|].
  split; [done|]. unfold ContainsRect. rewrite Bx, By, Cx, Cy.
  destruct (new_Rect_fields (lo (x_axis t) i) (lo (y_axis t) j) (hi (x_axis t) i - lo (x_axis t) i)
    (hi (y_axis t) j - lo (y_axis t) j)) as (E1&E2&E3&E4); [lia..|].
  set (r := new_Rect _ _ _ _) in *.
  destruct (new_Rect_fields ((ax_max (x_axis t) - 2 * ax_border (x_axis t)) * i)
    ((ax_max (y_axis t) - 2 * ax_border (y_axis t)) * j)
    (outer_hi (x_axis t) i - (ax_max (x_axis t) - 2 * ax_border (x_axis t)) * i)
    (outer_hi (y_axis t) j - (ax_max (y_axis t) - 2 * ax_border (y_axis t)) * j))
    as (F1&F2&F3&F4); [lia..|].
  set (rb := new_Rect _ _ (outer_hi _ _ - _) _) in *.
  unfold right, bottom. rewrite E1, E2, E3, E4, F1, F2, F3, F4. rewrite !s32_id by lia.
  destruct (border_around _ (proj1 Hok) i Hi) as [Lx Lx'], (border_around _ (proj2 Hok) j Hj) as [Ly Ly'].
  cbn [TextureOffset pt_x pt_y]. change (num_tiles_x_ t) with (ax_num (x_axis t)).
  change (num_tiles_y_ t) with (ax_num (y_axis t)).
  change (border_texels_ t) with (ax_border (x_axis t)) at 1.
  split; [exact Lx|]. split; [exact Ly|]. destruct Hok as [(?&_) (?&_)].
  revert Lx Ly. repeat case_if; lia.
Qed.

(** ** Witnesses *)

(** Three by two tiles of ten texels with a border of one. *)
Definition tiling_3x2 : TilingData := new_TilingData (new_Size 10 10) (new_Size 25 15) 1.

Lemma tiling_3x2_ok : tiling_ok tiling_3x2.
Proof. split; (split_and!; [vm_compute; congruence..|reflexivity]). Qed.

(** C13. The tiles partition the layer, and lookups find them: for every texel of
    a tiling that has tiles, [TileXIndexFromSrcCoord] and
    [TileYIndexFromSrcCoord] return the indices of a tile, and of all the
    tiles' bounds, none of which fails a check, exactly that one contains it.
    The three ways to ask for the geometry of a tile agree: the position and
    size functions give its bounds, and the texture offset is what separates
    the bounds from the bounds with border, which contain them. *)
Theorem tiles_partition t :
  tiling_ok t ->
  (forall p, has_empty_bounds t = false ->
     0 <= p.1 < width_ (total_size_ t) -> 0 <= p.2 < height_ (total_size_ t) ->
     exists i j, TileXIndexFromSrcCoord t p.1 = Some i /\ TileYIndexFromSrcCoord t p.2 = Some j /\
       tile t (i, j) /\
       forall k l, tile t (k, l) ->
         exists r, TileBounds t k l = Some r /\ (inside p r <-> k = i /\ l = j)) /\
  (forall i j, tile t (i, j) ->
     exists px py sx sy r rb,
       TilePositionX t i = Some px /\ TilePositionY t j = Some py /\
       TileSizeX t i = Some sx /\ TileSizeY t j = Some sy /\
       TileBounds t i j = Some r /\ TileBoundsWithBorder t i j = Some rb /\
       r = new_Rect px py sx sy /\
       x r = x rb + pt_x (TextureOffset t i j) /\ y r = y rb + pt_y (TextureOffset t i j) /\
       ContainsRect r rb = true).
Proof. intros Hok. split; [intros p; by apply texel_has_its_tile|intros i j; by apply tile_geometry_agrees]. Qed.

Lemma tiles_partition_witness :
  (exists i j, TileXIndexFromSrcCoord tiling_3x2 17 = Some i /\
    TileYIndexFromSrcCoord tiling_3x2 3 = Some j /\ (i, j) = (2, 0) /\
    exists r, TileBounds tiling_3x2 2 0 = Some r /\ (inside (17, 3) r <-> 2 = i /\ 0 = j)) /\
  exists px sx r rb, TilePositionX tiling_3x2 1 = Some px /\ TileSizeX tiling_3x2 1 = Some sx /\
    (px, sx) = (9, 8) /\ TileBounds tiling_3x2 1 1 = Some r /\
    TileBoundsWithBorder tiling_3x2 1 1 = Some rb /\ ContainsRect r rb = true.
Proof.
  destruct (tiles_partition tiling_3x2 tiling_3x2_ok) as [Hp Hg]. split.
  - destruct (Hp (17, 3)) as (i & j & E1 & E2 & _ & Hr); [reflexivity|split; vm_compute; congruence..|].
    exists i, j. split; [exact E1|]. split; [exact E2|]. split.
    + vm_compute in E1, E2. congruence.
    + apply Hr. split; split; vm_compute; congruence.
  - destruct (Hg 1 1) as (px & py & sx & sy & r & rb & E1 & _ & E3 & _ & E5 & E6 & _ & _ & _ & H);
      [split; split; vm_compute; congruence|].
    exists px, sx, r, rb. split; [exact E1|]. split; [exact E3|]. split.
    + vm_compute in E1, E3. congruence.
    + split; [exact E5|]. split; [exact E6|exact H].
Defined.
