(* ===== verification/TilingIterators.v ===== *)
(** The iterators of a tiling visit the tiles of a rectangle once each, row by
    row, and end. *)
From S2P Require Import Prelude Geometry TilingData TilingProperties.
From Stdlib Require Import ZifyBool Sorting.Sorted.

(** ** Visiting in order *)

(** Rows first, then columns. *)
Definition before (c d : Z * Z) : Prop := c.2 < d.2 \/ c.2 = d.2 /\ c.1 < d.1.

(** An iterator over the cells of a grid that satisfy [P]: while it is valid it
    stands on such a cell, and its step goes to the next one. *)
Section Visit.
Context {It : Type} (index : It -> Z * Z) (next : It -> It).
Variables (Inv : It -> Prop) (P : Z * Z -> Prop) (l r t b : Z).
Hypothesis P_grid : forall c, P c -> l <= c.1 <= r /\ t <= c.2 <= b.
Hypothesis Inv_valid : forall it, Inv it -> valid (index it) = true -> P (index it).
Hypothesis Inv_next : forall it, Inv it -> valid (index it) = true -> Inv (next it).
Hypothesis next_after : forall it, Inv it -> valid (index it) = true ->
  valid (index (next it)) = true -> before (index it) (index (next it)).
Hypothesis next_first : forall it c, Inv it -> valid (index it) = true ->
  P c -> before (index it) c ->
  valid (index (next it)) = true /\ ~ before c (index (next it)).

(** The cells that are left, as many as the fuel must be. *)
Definition remaining (c : Z * Z) : Z := (b - c.2) * (r - l + 1) + (r - c.1) + 1.

Lemma remaining_before c d : P c -> P d -> before c d -> 0 < remaining d < remaining c.
Proof.
  intros Hc%P_grid Hd%P_grid [Hb|[Hb Hb']]; unfold remaining; [|nia].
  assert ((b - d.2) * (r - l + 1) + (r - l + 1) <= (b - c.2) * (r - l + 1)) by nia. nia.
Qed.

Lemma visited_spec fuel it :
  Inv it -> (valid (index it) = true -> remaining (index it) < Z.of_nat fuel) ->
  (0 < fuel)%nat ->
  exists cells, visited index next fuel it = Ok cells /\
    StronglySorted before cells /\
    forall c, c ∈ cells <-> P c /\ valid (index it) = true /\ ~ before c (index it).
Proof.
  revert it. induction fuel as [|fuel IH]; intros it HI Hf Hpos; [lia|]. cbn [visited].
  destruct (valid (index it)) eqn:Hv.
  2:{ exists []. split; [done|]. split; [constructor|]. intros c. rewrite elem_of_nil. naive_solver. }
  specialize (Hf eq_refl). pose proof (Inv_valid it HI Hv) as HP.
  pose proof (P_grid _ HP). assert (0 < remaining (index it)) by (unfold remaining; nia).
  destruct (IH (next it)) as (cells & -> & Hs & Hin); [by apply Inv_next| |lia|].
  { intros Hv'. pose proof (remaining_before _ _ HP (Inv_valid _ (Inv_next _ HI Hv) Hv')
      (next_after it HI Hv Hv')). lia. }
  cbn. eexists; split; [reflexivity|]. split.
  - constructor; [done|]. apply Forall_forall. intros c Hc. apply Hin in Hc as (Pc & Hv' & Hb).
    pose proof (next_after it HI Hv Hv'). unfold before in *. lia.
  - intros c. rewrite elem_of_cons, Hin. split.
    + intros [->|(Pc & Hv' & Hb)].
      * split; [done|]. split; [done|]. unfold before. lia.
      * split; [done|]. split; [done|]. pose proof (next_after it HI Hv Hv'). unfold before in *. lia.
    + intros (Pc & _ & Hb).
      destruct (decide (c = index it)) as [|Hne]; [by left|right].
      assert (before (index it) c) as Hbc.
      { unfold before in *. destruct c as [c1 c2], (index it) as [i1 i2]; cbn in *.
        destruct (Z.lt_trichotomy c2 i2) as [?|[?|?]]; [lia| |lia].
        destruct (Z.lt_trichotomy c1 i1) as [?|[?|?]]; [lia| |lia]. congruence. }
      destruct (next_first it c HI Hv Pc Hbc). done.
Qed.

Lemma visited_all fuel it :
  Inv it -> (valid (index it) = false -> forall c, ~ P c) ->
  (forall c, P c -> ~ before c (index it)) -> 
  (Z.max 0 ((b - t + 1) * (r - l + 1)) + 1 < Z.of_nat fuel) ->
  exists cells, visited index next fuel it = Ok cells /\
    StronglySorted before cells /\ forall c, c ∈ cells <-> P c.
Proof.
  intros HI Hno Hfirst Hf. destruct (visited_spec fuel it) as (cells & E & Hs & Hin); [done| |lia|].
  { intros Hv. pose proof (P_grid _ (Inv_valid it HI Hv)). unfold remaining. nia. }
  exists cells. split; [done|]. split; [done|]. intros c. rewrite Hin.
  split; [naive_solver|]. intros Hc. split; [done|]. split; [|by apply Hfirst].
  destruct (valid (index it)) eqn:Hv; [done|]. by destruct (Hno eq_refl c).
Qed.

End Visit.

(** ** The tiles that meet a rectangle *)

Definition grid (l r t b : Z) (c : Z * Z) : Prop := l <= c.1 <= r /\ t <= c.2 <= b.

(** The bounds of the tile, border included, have a point in common with
    [rect]. *)
Definition meets (t : TilingData) (rect : Rect) (c : Z * Z) : Prop :=
  tile t c /\ exists rc, TileBoundsWithBorder t c.1 c.2 = Some rc /\ Intersects rect rc = true.

Section Lookup.
Variable t : TilingData.
Hypothesis Hok : tiling_ok t.

Let X := x_axis t.
Let Y := y_axis t.

(** The part of [rect] inside the layer. *)
Let clip (rect : Rect) : Rect := Intersect (Rect_of_size (total_size_ t)) rect.

Lemma bounds_wf : wf (Rect_of_size (total_size_ t)).
Proof.
  pose proof (total_fits t Hok) as Hf. unfold wf, x, y, width, height. cbn in *. lia.
Qed.

Lemma clip_wf rect : wf rect -> wf (clip rect).
Proof. intros Hr. apply Intersect_wf; [done|apply bounds_wf]. Qed.

Lemma clip_within rect p :
  wf rect ->
  within p (clip rect) <-> within p rect /\ 0 <= p.1 < ax_total X /\ 0 <= p.2 < ax_total Y.
Proof.
  intros Hr. unfold clip. rewrite Intersect_spec by (done || apply bounds_wf).
  unfold within at 2. unfold x, y, width, height. cbn. tauto.
Qed.

(** A rectangle with points that lies in the layer. *)
Definition in_layer (q : Rect) : Prop :=
  wf q /\ 0 < width q /\ 0 < height q /\
  0 <= x q /\ x q + width q <= ax_total X /\ 0 <= y q /\ y q + height q <= ax_total Y.

Lemma clip_in_layer rect : wf rect -> IsEmpty (clip rect) = false -> in_layer (clip rect).
Proof.
  intros Hr He. pose proof (clip_wf rect Hr) as Hw. apply IsEmpty_false in He; [|done].
  set (q := clip rect) in *.
  destruct (proj1 (clip_within rect (x q, y q) Hr)) as (_ & H1 & H2);
    [fold q; unfold within; cbn; lia|].
  destruct (proj1 (clip_within rect (x q + width q - 1, y q + height q - 1) Hr)) as (_ & H3 & H4);
    [fold q; unfold within; cbn; lia|].
  cbn in H1, H2, H3, H4. unfold in_layer, X, Y. cbn. split; [done|]. lia.
Qed.

Lemma lookup_rect q :
  has_empty_bounds t = false -> in_layer q ->
  exists l tp r b,
    FirstBorderTileXIndexFromSrcCoord t (x q) = Some l /\
    FirstBorderTileYIndexFromSrcCoord t (y q) = Some tp /\
    LastBorderTileXIndexFromSrcCoord t (right q ⊖ 1) = Some r /\
    LastBorderTileYIndexFromSrcCoord t (bottom q ⊖ 1) = Some b /\
    (0 <= l <= r /\ r < num_tiles_x_ t /\ 0 <= tp <= b /\ b < num_tiles_y_ t) /\
    forall c, tile t c -> exists rc, TileBoundsWithBorder t c.1 c.2 = Some rc /\
      (Intersects q rc = true <-> l <= c.1 <= r /\ tp <= c.2 <= b).
Proof.
  intros He (Hw & Hqw & Hqh & Hx & Hx' & Hy & Hy').
  pose proof (num_cases _ (proj1 Hok)) as Nx. pose proof (num_cases _ (proj2 Hok)) as Ny.
  pose proof (total_fits t Hok) as Hf. unfold has_empty_bounds in He. cbn in Nx, Ny, Hf.
  destruct (border_lookup_spec X (proj1 Hok) (x q) (x q + width q - 1))
    as (l & r & El & Er & Hl & Hr & Ux); [unfold X; cbn; lia|lia|unfold X in *; cbn in *; lia|].
  destruct (border_lookup_spec Y (proj2 Hok) (y q) (y q + height q - 1))
    as (tp & b & Et & Eb & Htp & Hb & Uy); [unfold Y; cbn; lia|lia|unfold Y in *; cbn in *; lia|].
  exists l, tp, r, b. rewrite right_wf, bottom_wf by done.
  rewrite (s32_id (_ - 1)), (s32_id (y q + _ - 1)) by (unfold X, Y in *; cbn in *; lia).
  do 4 (split; [done|]). split; [unfold X, Y in *; cbn in *; lia|]. intros c Ht.
  destruct c as [i j]. pose proof Ht as [Hi Hj]. cbn in Hi, Hj |- *.
  rewrite TileBoundsWithBorder_eq by done. eexists; split; [reflexivity|].
  rewrite <- (Ux i Hi), <- (Uy j Hj).
  destruct (edges_ok X (proj1 Hok) i Hi) as (_&_&?&?), (edges_ok Y (proj2 Hok) j Hj) as (_&_&?&?).
  pose proof (border_lo_eq X (proj1 Hok) i Hi). pose proof (border_lo_eq Y (proj2 Hok) j Hj).
  pose proof (border_hi_eq X (proj1 Hok) i Hi). pose proof (border_hi_eq Y (proj2 Hok) j Hj).
  pose proof (border_nonempty X (proj1 Hok) i Hi). pose proof (border_nonempty Y (proj2 Hok) j Hj).
  destruct (new_Rect_fields (border_lo X i) (border_lo Y j) (border_hi X i - border_lo X i)
    (border_hi Y j - border_lo Y j)) as (E1&E2&E3&E4); [lia..|].
  rewrite Intersects_spec.
  - fold X Y. rewrite E1, E2, E3, E4. lia.
  - fold X Y. unfold wf. rewrite E1, E2, E3, E4. unfold X, Y in *. cbn in *. lia.
  - done.
Qed.

(** A tile meets a rectangle where it meets the part inside the layer. *)
Lemma clip_meets rect c :
  wf rect -> tile t c -> exists rc, TileBoundsWithBorder t c.1 c.2 = Some rc /\
    Intersects rect rc = Intersects (clip rect) rc.
Proof.
  intros Hr Ht. destruct c as [i j]. pose proof Ht as [Hi Hj]. cbn in Hi, Hj |- *.
  rewrite TileBoundsWithBorder_eq by done. eexists; split; [reflexivity|].
  destruct (edges_ok X (proj1 Hok) i Hi) as (_&_&?&?), (edges_ok Y (proj2 Hok) j Hj) as (_&_&?&?).
  pose proof (border_lo_eq X (proj1 Hok) i Hi). pose proof (border_lo_eq Y (proj2 Hok) j Hj).
  pose proof (border_hi_eq X (proj1 Hok) i Hi). pose proof (border_hi_eq Y (proj2 Hok) j Hj).
  pose proof (total_fits t Hok) as Hf. fold X Y in Hf |- *.
  assert (Hin : forall p, _ /\ _) by exact (fun p => within_bounds p (border_lo X i) (border_lo Y j)
    (border_hi X i) (border_hi Y j) ltac:(lia) ltac:(lia) ltac:(lia) ltac:(lia)).
  set (rc := new_Rect _ _ _ _) in *. destruct (Hin (0, 0)) as [Hw _].
  apply eq_true_iff_eq. rewrite !Intersects_points by auto using clip_wf.
  split; intros (p & M1 & M2); exists p; (split; [done|]); destruct (Hin p) as [_ Hp].
  - apply clip_within; [done|]. split; [done|]. apply Hp in M1. lia.
  - apply clip_within in M2; tauto.
Qed.

(** A rectangle outside the layer meets no tile. *)
Lemma clip_empty rect :
  wf rect -> IsEmpty (clip rect) = true ->
  clip rect = mkRect (mkPoint 0 0) (mkSize 0 0) /\
  forall c rc, tile t c -> TileBoundsWithBorder t c.1 c.2 = Some rc -> Intersects rect rc = false.
Proof.
  intros Hr He. apply Intersect_empty in He as Hz; [|done|apply bounds_wf]. split; [done|].
  intros c rc Ht E. destruct (clip_meets rect c Hr Ht) as (rc' & E' & Hm).
  rewrite E in E'. injection E' as <-. rewrite Hm. unfold clip. rewrite Hz. unfold Intersects. cbn.
  by rewrite !orb_true_r.
Qed.

Lemma rect_tiles rect :
  wf rect -> has_empty_bounds t = false -> IsEmpty (clip rect) = false ->
  exists l tp r b,
    FirstBorderTileXIndexFromSrcCoord t (x (clip rect)) = Some l /\
    FirstBorderTileYIndexFromSrcCoord t (y (clip rect)) = Some tp /\
    LastBorderTileXIndexFromSrcCoord t (right (clip rect) ⊖ 1) = Some r /\
    LastBorderTileYIndexFromSrcCoord t (bottom (clip rect) ⊖ 1) = Some b /\
    (0 <= l <= r /\ r < num_tiles_x_ t /\ 0 <= tp <= b /\ b < num_tiles_y_ t) /\
    (forall c, meets t rect c <-> grid l r tp b c) /\
    exists rc, TileBoundsWithBorder t l tp = Some rc /\ Intersects (clip rect) rc = true.
Proof.
  intros Hr Hb Hq. pose proof (clip_in_layer rect Hr Hq) as Hin.
  destruct (lookup_rect _ Hb Hin) as (l & tp & r & b & E1 & E2 & E3 & E4 & Hl & Hm).
  exists l, tp, r, b. do 5 (split; [done|]). split.
  - intros c. split.
    + intros (Htc & rc & E & Hi). destruct (clip_meets rect c Hr Htc) as (rc2 & E2' & Ei).
      rewrite E in E2'. injection E2' as <-. destruct (Hm c Htc) as (rc2 & E2' & Hi2).
      rewrite E in E2'. injection E2' as <-. apply Hi2. congruence.
    + intros Hg. assert (Htc : tile t c) by (unfold tile, grid in *; lia). split; [done|].
      destruct (clip_meets rect c Hr Htc) as (rc & E & Ei). exists rc. split; [done|].
      destruct (Hm c Htc) as (rc2 & E2' & Hi2). rewrite E in E2'. injection E2' as <-.
      rewrite Ei. by apply Hi2.
  - destruct (Hm (l, tp)) as (rc & E & Hi); [unfold tile; cbn; lia|].
    exists rc. split; [done|]. apply Hi. cbn. lia.
Qed.

Lemma no_tiles c :
  (num_tiles_x_ t <=? 0) || (num_tiles_y_ t <=? 0) = true -> ~ tile t c.
Proof. unfold tile. lia. Qed.

Lemma has_tiles :
  (num_tiles_x_ t <=? 0) || (num_tiles_y_ t <=? 0) = false ->
  has_empty_bounds t = false /\ 0 < num_tiles_x_ t /\ 0 < num_tiles_y_ t /\
  num_tiles_x_ t < 2 ^ 31 /\ num_tiles_y_ t < 2 ^ 31.
Proof.
  intros H. unfold has_empty_bounds.
  pose proof (num_small X (proj1 Hok)). pose proof (num_small Y (proj2 Hok)).
  unfold X, Y in *. cbn in *. lia.
Qed.

Lemma zero_lookups :
  0 < num_tiles_x_ t -> 0 < num_tiles_y_ t ->
  exists i j r b, FirstBorderTileXIndexFromSrcCoord t 0 = Some i /\
    FirstBorderTileYIndexFromSrcCoord t 0 = Some j /\
    LastBorderTileXIndexFromSrcCoord t (0 ⊖ 1) = Some r /\
    LastBorderTileYIndexFromSrcCoord t (0 ⊖ 1) = Some b /\ tile t (i, j).
Proof.
  intros Hx Hy.
  destruct (clamped_index_range X (proj1 Hok) (0 ⊖ (2 ⊗ ax_border X))) as (i & Ei & Hi);
    [done|by apply (wrap_s_range 32)|].
  destruct (clamped_index_range Y (proj2 Hok) (0 ⊖ (2 ⊗ ax_border Y))) as (j & Ej & Hj);
    [done|by apply (wrap_s_range 32)|].
  destruct (clamped_index_range X (proj1 Hok) (0 ⊖ 1)) as (r & Er & _); [done|done|].
  destruct (clamped_index_range Y (proj2 Hok) (0 ⊖ 1)) as (b & Eb & _); [done|done|].
  by exists i, j, r, b.
Qed.

End Lookup.

(** ** The iterator *)

Section Iterate.
Variables l r t b : Z.
Hypothesis bounds : -1 < l /\ r < 2 ^ 31 - 1 /\ -1 < t /\ b < 2 ^ 31 - 1.

Definition it_inv (it : Iterator) : Prop :=
  left_ it = l /\ right_ it = r /\ bottom_ it = b /\
  (valid (it_index it) = true -> grid l r t b (it_index it)).

Lemma it_next_spec it :
  it_inv it -> valid (it_index it) = true ->
  it_inv (it_next it) /\
  (valid (it_index (it_next it)) = true -> before (it_index it) (it_index (it_next it))) /\
  forall c, grid l r t b c -> before (it_index it) c ->
    valid (it_index (it_next it)) = true /\ ~ before c (it_index (it_next it)).
Proof.
  destruct it as [[i j] l' r' b']. unfold it_inv, grid, before. cbn.
  intros (-> & -> & -> & Hg) Hv. specialize (Hg Hv). unfold it_next. cbn. rewrite Hv. cbn.
  rewrite (s32_id (i + 1)), (s32_id (j + 1)) by lia.
  destruct (Z.ltb_spec r (i + 1)); cbn; [destruct (Z.ltb_spec b (j + 1)); cbn|]; unfold valid; cbn;
    (split_and!; [lia..|]); intros [ci cj]; cbn; lia.
Qed.

End Iterate.

(** The iterator over a rectangle. *)
Lemma rectangle_is_visited t rect fuel :
  tiling_ok t -> wf rect ->
  (Z.to_nat (num_tiles_x_ t * num_tiles_y_ t) + 1 < fuel)%nat ->
  exists it cells, new_Iterator t rect = Some it /\
    visited it_index it_next fuel it = Ok cells /\ StronglySorted before cells /\
    forall c, c ∈ cells <-> meets t rect c.
Proof.
  intros Hok Hr Hf. unfold new_Iterator.
  destruct ((num_tiles_x_ t <=? 0) || (num_tiles_y_ t <=? 0)) eqn:He.
  { exists (mkIterator (-1, -1) (-1) (-1) (-1)), []. split; [done|]. destruct fuel; [lia|].
    split; [done|]. split; [constructor|]. intros c. rewrite elem_of_nil.
    split; [done|]. intros [Hc _]. by destruct (no_tiles t c He). }
  destruct (has_tiles t Hok He) as (Hb & Hnx & Hny & Hsx & Hsy).
  set (q := Intersect _ rect). destruct (IsEmpty q) eqn:Hq.
  - destruct (clip_empty t Hok rect Hr Hq) as [Hz Hno]. fold q in Hz. rewrite Hz.
    destruct (zero_lookups t Hok Hnx Hny) as (i & j & r & b & E1 & E2 & E3 & E4 & Ht).
    cbn [x y origin_ pt_x pt_y]. change (right (mkRect _ _)) with 0. change (bottom (mkRect _ _)) with 0.
    rewrite E1, E2, E3, E4. cbn. rewrite TileBoundsWithBorder_eq by done. cbn.
    unfold Intersects at 1. cbn. rewrite !orb_true_r. cbn.
    eexists _, []. split; [reflexivity|]. destruct fuel; [lia|]. split; [done|]. split; [constructor|].
    intros c. rewrite elem_of_nil. split; [done|]. intros (Hc & rc & E & Hi).
    rewrite (Hno c rc Hc E) in Hi. done.
  - destruct (rect_tiles t Hok rect Hr Hb Hq)
      as (l & tp & r & b & E1 & E2 & E3 & E4 & Hl & Hm & rc & Erc & Hrc).
    fold q in E1, E2, E3, E4, Hrc. rewrite E1, E2, E3, E4. cbn. rewrite Erc. cbn. rewrite Hrc. cbn.
    assert (Hbd : -1 < l /\ r < 2 ^ 31 - 1 /\ -1 < tp /\ b < 2 ^ 31 - 1) by lia.
    eexists. destruct (visited_all it_index it_next (it_inv l r tp b) (grid l r tp b) l r tp b)
      with (fuel := fuel) (it := mkIterator (l, tp) l r b) as (cells & E & Hs & Hc).
    + done.
    + intros it (_ & _ & _ & Hg). done.
    + intros it H1 H2. apply (it_next_spec l r tp b Hbd it H1 H2).
    + intros it H1 H2. apply (it_next_spec l r tp b Hbd it H1 H2).
    + intros it c H1 H2. apply (it_next_spec l r tp b Hbd it H1 H2).
    + unfold it_inv, grid. cbn. lia.
    + unfold valid. cbn. lia.
    + intros c. unfold grid, before. cbn. lia.
    + assert ((r - l + 1) * (b - tp + 1) <= num_tiles_x_ t * num_tiles_y_ t)
        by (apply Z.mul_le_mono_nonneg; lia). lia.
    + exists cells. split; [done|]. split; [done|]. split; [done|]. intros c. by rewrite Hc, Hm.
Qed.

(** ** The difference iterator *)

Section Difference.
Variables cl ct cr cb il it ir ib : Z.
Hypothesis bounds : -1 < cl /\ cr < 2 ^ 31 - 1 /\ -1 < ct /\ cb < 2 ^ 31 - 1.
Hypothesis clamped :
  il = -1 /\ it = -1 /\ ir = -1 /\ ib = -1 \/ cl <= il /\ ir <= cr /\ ct <= it /\ ib <= cb.

Definition wanted (c : Z * Z) : Prop := grid cl cr ct cb c /\ ~ grid il ir it ib c.

Definition di_fields (d : DifferenceIterator) : Prop :=
  d = mkDifferenceIterator (di_index d) cl ct cr cb il it ir ib.

Definition di_inv (d : DifferenceIterator) : Prop :=
  di_fields d /\ (valid (di_index d) = true -> wanted (di_index d)).

(** The step goes to the first wanted cell after any cell of the grid. *)
Lemma di_next_spec d :
  di_fields d -> valid (di_index d) = true -> grid cl cr ct cb (di_index d) ->
  di_inv (di_next d) /\
  (valid (di_index (di_next d)) = true -> before (di_index d) (di_index (di_next d))) /\
  forall c, wanted c -> before (di_index d) c ->
    valid (di_index (di_next d)) = true /\ ~ before c (di_index (di_next d)).
Proof.
  intros Hd Hv Hg. destruct d as [[i j] ? ? ? ? ? ? ? ?]. injection Hd as -> -> -> -> -> -> -> ->.
  unfold grid in Hg. cbn in Hg, Hv. unfold di_next. cbn [di_index]. rewrite Hv. cbn [negb].
  unfold in_ignore_rect, di_inv, wanted, di_fields, grid, before, valid. cbn.
  repeat (case_if; cbn); in_range; (split; [split; [done|lia]|]); (split; [lia|]);
    intros [ci cj]; cbn; lia.
Qed.

End Difference.

(** The iteration from its first cell: the corner of the considered tiles, or
    the first wanted cell after it. *)
Lemma difference_visits cl ct cr cb il it ir ib nx ny fuel :
  0 <= cl <= cr /\ cr < nx /\ 0 <= ct <= cb /\ cb < ny -> nx < 2 ^ 31 -> ny < 2 ^ 31 ->
  il = -1 /\ it = -1 /\ ir = -1 /\ ib = -1 \/ cl <= il /\ ir <= cr /\ ct <= it /\ ib <= cb ->
  (Z.to_nat (nx * ny) + 1 < fuel)%nat ->
  let d := mkDifferenceIterator (cl, ct) cl ct cr cb il it ir ib in
  exists cells,
    visited di_index di_next fuel (if in_ignore_rect d then di_next d else d) = Ok cells /\
    StronglySorted before cells /\ forall c, c ∈ cells <-> wanted cl ct cr cb il it ir ib c.
Proof.
  intros Hb Hnx Hny Hc Hf d.
  assert (Hbd : -1 < cl /\ cr < 2 ^ 31 - 1 /\ -1 < ct /\ cb < 2 ^ 31 - 1) by lia.
  assert (Hd : di_fields cl ct cr cb il it ir ib d) by done.
  assert (Hv : valid (di_index d) = true) by (unfold valid; cbn; lia).
  assert (Hg : grid cl cr ct cb (di_index d)) by (unfold grid; cbn; lia).
  pose proof (di_next_spec cl ct cr cb il it ir ib Hbd Hc) as Hstep.
  assert (Hin : in_ignore_rect d = true <-> grid il ir it ib (cl, ct))
    by (unfold in_ignore_rect, grid; cbn; lia).
  assert (Hfirst : forall c, wanted cl ct cr cb il it ir ib c -> ~ before c (cl, ct))
    by (intros c [? _]; unfold grid, before in *; cbn; lia).
  apply (visited_all di_index di_next (di_inv cl ct cr cb il it ir ib)
    (wanted cl ct cr cb il it ir ib) cl cr ct cb).
  - by intros c [? _].
  - by intros d' [_ ?].
  - intros d' [H1 H2] H3. by apply (Hstep d' H1 H3), H2.
  - intros d' [H1 H2] H3. by apply (Hstep d' H1 H3), H2.
  - intros d' c [H1 H2] H3. by apply (Hstep d' H1 H3), H2.
  - destruct (in_ignore_rect d) eqn:E; [by apply Hstep|]. split; [done|]. intros _.
    split; [done|]. intros Hg'%Hin. congruence.
  - destruct (in_ignore_rect d) eqn:E; [|congruence]. intros Hn c Hw.
    destruct (Hstep d Hd Hv Hg) as (_ & _ & Hs). destruct (Hs c Hw) as [? _]; [|congruence].
    assert (c <> (cl, ct)) as Hne by (intros ->; apply Hw; by apply Hin).
    destruct Hw as [Hgc _]. destruct c as [c1 c2]. unfold grid, before in *. cbn in *.
    assert (c1 <> cl \/ c2 <> ct) by (destruct (decide (c1 = cl)); [right; congruence|by left]). lia.
  - destruct (in_ignore_rect d) eqn:E; [|done]. intros c Hw.
    destruct (Hstep d Hd Hv Hg) as (_ & _ & Hs). apply (Hs c Hw).
    assert (c <> (cl, ct)) as Hne by (intros ->; apply Hw; by apply Hin).
    destruct Hw as [Hgc _]. destruct c as [c1 c2]. unfold grid, before in *. cbn in *.
    assert (c1 <> cl \/ c2 <> ct) by (destruct (decide (c1 = cl)); [right; congruence|by left]). lia.
  - assert ((cr - cl + 1) * (cb - ct + 1) <= nx * ny) by (apply Z.mul_le_mono_nonneg; lia). lia.
Qed.

(** The iterator over what is in one rectangle and not in another. *)
Lemma difference_is_visited t consider ignore fuel :
  tiling_ok t -> wf consider -> wf ignore ->
  (Z.to_nat (num_tiles_x_ t * num_tiles_y_ t) + 1 < fuel)%nat ->
  exists d cells, new_DifferenceIterator t consider ignore = Some d /\
    visited di_index di_next fuel d = Ok cells /\ StronglySorted before cells /\
    forall c, c ∈ cells <-> meets t consider c /\ ~ meets t ignore c.
Proof.
  intros Hok Hcon Hign Hf. unfold new_DifferenceIterator.
  assert (Hnone : forall d, di_index d = (-1, -1) -> (forall c, meets t consider c -> meets t ignore c) ->
    exists cells, visited di_index di_next fuel d = Ok cells /\ StronglySorted before cells /\
      forall c, c ∈ cells <-> meets t consider c /\ ~ meets t ignore c).
  { intros d Hd Hno. exists []. destruct fuel; [lia|]. cbn. rewrite Hd. split; [done|].
    split; [constructor|]. intros c. rewrite elem_of_nil. naive_solver. }
  destruct ((num_tiles_x_ t <=? 0) || (num_tiles_y_ t <=? 0)) eqn:He.
  { eexists. destruct (Hnone (mkDifferenceIterator (-1, -1) (-1) (-1) (-1) (-1) (-1) (-1) (-1) (-1)))
      as (cells & H1); [done| |by exists cells].
    intros c [Hc _]. by destruct (no_tiles t c He). }
  destruct (has_tiles t Hok He) as (Hb & Hnx & Hny & Hsx & Hsy).
  set (q := Intersect _ consider). destruct (IsEmpty q) eqn:Hq.
  { eexists. destruct (Hnone (mkDifferenceIterator (-1, -1) (-1) (-1) (-1) (-1) (-1) (-1) (-1) (-1)))
      as (cells & H1); [done| |by exists cells].
    intros c (Hc & rc & E & Hi). destruct (clip_empty t Hok consider Hcon Hq) as [_ Hno].
    by rewrite (Hno c rc Hc E) in Hi. }
  destruct (rect_tiles t Hok consider Hcon Hb Hq)
    as (cl & ct & cr & cb & E1 & E2 & E3 & E4 & Hl & Hm & _). fold q in E1, E2, E3, E4.
  rewrite E1, E2, E3, E4. cbn [mbind option_bind].
  set (qi := Intersect _ ignore). destruct (IsEmpty qi) eqn:Hqi; cbn [negb].
  - cbn [mbind option_bind ignore_left_ consider_left_].
    replace (-1 =? cl) with false by lia. cbn [andb].
    destruct (difference_visits cl ct cr cb (-1) (-1) (-1) (-1) (num_tiles_x_ t) (num_tiles_y_ t) fuel)
      as (cells & E & Hs & Hc); [done..|by left|done|].
    eexists _, cells. split; [reflexivity|]. split; [exact E|]. split; [done|]. intros c.
    rewrite Hc, Hm. unfold wanted. split; intros [Hg _]; (split; [done|]).
    + intros (Htc & rc & Erc & Hi). destruct (clip_empty t Hok ignore Hign Hqi) as [_ Hno].
      by rewrite (Hno c rc Htc Erc) in Hi.
    + unfold grid in *. lia.
  - destruct (rect_tiles t Hok ignore Hign Hb Hqi)
      as (il & itp & ir & ib & F1 & F2 & F3 & F4 & Hil & Him & _). fold qi in F1, F2, F3, F4.
    rewrite F1, F2, F3, F4. cbn [mbind option_bind].
    cbn [ignore_left_ consider_left_ ignore_right_ consider_right_ ignore_top_ consider_top_
         ignore_bottom_ consider_bottom_].
    assert (Hw : forall c, wanted cl ct cr cb (Z.max il cl) (Z.max itp ct) (Z.min ir cr) (Z.min ib cb) c
      <-> meets t consider c /\ ~ meets t ignore c).
    { intros c. rewrite Hm, Him. unfold wanted, grid. lia. }
    case_if.
    + eexists. destruct (Hnone (mkDifferenceIterator (-1, -1) cl ct cr cb (Z.max il cl) (Z.max itp ct)
        (Z.min ir cr) (Z.min ib cb))) as (cells & H1); [done| |by exists cells].
      intros c. rewrite Hm, Him. unfold grid. lia.
    + destruct (difference_visits cl ct cr cb (Z.max il cl) (Z.max itp ct) (Z.min ir cr) (Z.min ib cb)
        (num_tiles_x_ t) (num_tiles_y_ t) fuel) as (cells & E & Hs & Hc); [done..|right; lia|done|].
      eexists _, cells. split; [reflexivity|]. split; [exact E|]. split; [done|]. intros c.
      by rewrite Hc, Hw.
Qed.

(** C14. The iterators visit just the tiles that they are for, each once, row by
    row from the left, and end. Over a rectangle, these are the tiles whose
    bounds with border meet it; over the difference of two rectangles, those
    that meet the one to consider and not the one to ignore. *)
Theorem iterators_visit_their_tiles t consider ignore fuel :
  tiling_ok t -> wf consider -> wf ignore ->
  (Z.to_nat (num_tiles_x_ t * num_tiles_y_ t) + 1 < fuel)%nat ->
  (exists it cells, new_Iterator t consider = Some it /\
     visited it_index it_next fuel it = Ok cells /\ StronglySorted before cells /\
     forall c, c ∈ cells <-> meets t consider c) /\
  (exists d cells, new_DifferenceIterator t consider ignore = Some d /\
     visited di_index di_next fuel d = Ok cells /\ StronglySorted before cells /\
     forall c, c ∈ cells <-> meets t consider c /\ ~ meets t ignore c).
Proof. intros Ht Hc Hi Hf. split; [by apply rectangle_is_visited|by apply difference_is_visited]. Qed.

(** ** Witnesses *)

Lemma iterators_visit_their_tiles_witness :
  let consider := new_Rect 0 0 25 15 in let ignore := new_Rect 12 2 2 4 in
  (exists it cells, new_Iterator tiling_3x2 consider = Some it /\
     visited it_index it_next 20 it = Ok cells /\ StronglySorted before cells /\
     forall c, c ∈ cells <-> meets tiling_3x2 consider c) /\
  (exists d cells, new_DifferenceIterator tiling_3x2 consider ignore = Some d /\
     visited di_index di_next 20 d = Ok cells /\ cells = [(0, 0); (2, 0); (0, 1); (1, 1); (2, 1)] /\
     forall c, c ∈ cells <-> meets tiling_3x2 consider c /\ ~ meets tiling_3x2 ignore c).
Proof.
  destruct (iterators_visit_their_tiles tiling_3x2 (new_Rect 0 0 25 15) (new_Rect 12 2 2 4) 20
    tiling_3x2_ok) as [H1 (d & cells & E1 & E2 & _ & H2)]; [unfold wf; cbn; lia..|vm_compute; lia|].
  split; [exact H1|]. exists d, cells. split; [exact E1|]. split; [exact E2|]. split; [|exact H2].
  vm_compute in E1. injection E1 as <-. vm_compute in E2. congruence.
Defined.
