(* ===== verification/NumberConversions.v ===== *)
(** Integers to text and back, base/strings/string_number_conversions.cc. *)
From S2P Require Import Prelude.

(** ** Integer types

    [std::numeric_limits] of the integer types the templates are used at. *)
Record IntType := mkIntType { bits : Z; is_signed : bool }.

Definition Int : IntType := mkIntType 32 true.
Definition UInt : IntType := mkIntType 32 false.
Definition Int64 : IntType := mkIntType 64 true.
Definition UInt64 : IntType := mkIntType 64 false.

Definition numeric_min (ty : IntType) : Z := if is_signed ty then - 2 ^ (bits ty - 1) else 0.
Definition numeric_max (ty : IntType) : Z :=
  if is_signed ty then 2 ^ (bits ty - 1) - 1 else 2 ^ bits ty - 1.
Definition wrap_int (ty : IntType) (z : Z) : Z :=
  if is_signed ty then wrap_s (bits ty) z else wrap_u (bits ty) z.

(** ** Integers to text *)

(* src: base/strings/string_number_conversions.cc 42-47! ToUnsignedT::ToUnsigned *)
Definition ToUnsigned (ty : IntType) (value : Z) : Z :=
  if is_signed ty
  then wrap_u (bits ty) (if value <? 0 then wrap_s (bits ty) (- value) else value)
  else value.

(* src: base/strings/string_number_conversions.cc 59-65! TestNegT::TestNeg *)
Definition TestNeg (ty : IntType) (value : Z) : bool := if is_signed ty then value <? 0 else false.

(** The loop that writes digits back to front.  [room] is the distance of the
    iterator from the start of the buffer, [written] what lies after it; [None]
    is a failed check, or an iterator moved before the buffer. *)
(* src: base/strings/string_number_conversions.cc 81-96! IntToStringT::IntToString *)
Fixpoint write_digits (is_neg : bool) (room : nat) (res : Z) (written : list Z)
    : option (list Z) :=
  match room with
  | O => None
  | S room =>
      DCHECK (!(Nat.eqb room 0)) ;;
      let written := (res mod 10 + "0"%ch) :: written in
      let res := res / 10 in
      if res =? 0 then
        if is_neg then
          match room with
          | O => None
          | S room =>
              DCHECK (!(Nat.eqb room 0)) ;;
              Some ("-"%ch :: written)
          end
        else Some written
      else write_digits is_neg room res written
  end.

(* src: base/strings/string_number_conversions.cc 67-99! IntToStringT::IntToString *)
Definition IntToStringT (ty : IntType) (value : Z) : option (list Z) :=
  let kOutputBufSize := Z.to_nat (3 * (bits ty / 8) + 1) in
  let is_neg := TestNeg ty value in
  let res := ToUnsigned ty value in
  write_digits is_neg kOutputBufSize res [].

(* src: base/strings/string_number_conversions.cc 375-383! IntToString *)
Definition IntToString : Z -> option (list Z) := IntToStringT Int.
(* src: base/strings/string_number_conversions.cc 385-393! UintToString *)
Definition UintToString : Z -> option (list Z) := IntToStringT UInt.
(* src: base/strings/string_number_conversions.cc 395-402! Int64ToString *)
Definition Int64ToString : Z -> option (list Z) := IntToStringT Int64.
(* src: base/strings/string_number_conversions.cc 404-412! Uint64ToString *)
Definition Uint64ToString : Z -> option (list Z) := IntToStringT UInt64.

(** ** Text to integers *)

(* src: base/strings/string_number_conversions.cc 102-137! BaseCharToDigit::Convert *)
Definition CharToDigit (base c : Z) : option Z :=
  if base <=? 10 then
    if ("0"%ch <=? c) && (c <? "0"%ch + base) then Some (c - "0"%ch) else None
  else
    if ("0"%ch <=? c) && (c <=? "9"%ch) then Some (c - "0"%ch)
    else if ("a"%ch <=? c) && (c <? "a"%ch + base - 10) then Some (c - "a"%ch + 10)
    else if ("A"%ch <=? c) && (c <? "A"%ch + base - 10) then Some (c - "A"%ch + 10)
    else None.

(** [isspace] of the C locale, for [char] strings. *)
(* src: base/strings/string_number_conversions.cc 146-151! WhitespaceHelper::Invoke *)
Definition isspace (c : Z) : bool := (c =? 32) || ((9 <=? c) && (c <=? 13)).

(** The two classes [Positive] and [Negative] that append a digit. *)
Inductive Sign := Positive | Negative.

(* src: base/strings/string_number_conversions.cc 251-281! CheckBounds *)
Definition CheckBounds (sign : Sign) (ty : IntType) (base output new_digit : Z) : bool * Z :=
  match sign with
  | Positive =>
      let max := numeric_max ty in
      if (Z.quot max base <? output) ||
         ((output =? Z.quot max base) && (Z.rem max base <? new_digit))
      then (false, max) else (true, output)
  | Negative =>
      let min := numeric_min ty in
      if (output <? Z.quot min base) ||
         ((output =? Z.quot min base) && (0 - Z.rem min base <? new_digit))
      then (false, min) else (true, output)
  end.

(* src: base/strings/string_number_conversions.cc 262-264! Increment *)
Definition Increment (sign : Sign) (ty : IntType) (increment output : Z) : Z :=
  match sign with
  | Positive => wrap_int ty (output + increment)
  | Negative => wrap_int ty (output - increment)
  end.

(** The loop over the digits; [first] tells whether [current] is [begin]. *)
(* src: base/strings/string_number_conversions.cc 231-247! Base::Invoke *)
Fixpoint parse_digits (sign : Sign) (ty : IntType) (base : Z) (first : bool) (input : list Z)
    (output : Z) : bool * Z :=
  match input with
  | [] => (true, output)
  | c :: input =>
      match CharToDigit base c with
      | None => (false, output)
      | Some new_digit =>
          let '(within, output) :=
            if !first then CheckBounds sign ty base output new_digit else (true, output) in
          if !within then (false, output) else
          let output := if !first then wrap_int ty (output * base) else output in
          parse_digits sign ty base false input (Increment sign ty new_digit output)
      end
  end.

(* src: base/strings/string_number_conversions.cc 216-248! Base::Invoke *)
Definition Base_Invoke (sign : Sign) (ty : IntType) (base : Z) (input : list Z) : bool * Z :=
  let output := 0 in
  match input with
  | [] => (false, output)
  | _ =>
      let input :=
        if (base =? 16) && (2 <? Z.of_nat (length input)) && (at_ input 0 =? "0"%ch) &&
           ((at_ input 1 =? "x"%ch) || (at_ input 1 =? "X"%ch))
        then drop 2 input else input in
      parse_digits sign ty base true input output
  end.

Section Invoke.
(** Which units count as white space is up to the locale of the process. *)
Variable LocalIsWhitespace : Z -> bool.

(* src: base/strings/string_number_conversions.cc 184-187! IteratorRangeToNumber::Invoke *)
Fixpoint skip_whitespace (input : list Z) (valid : bool) : list Z * bool :=
  match input with
  | c :: rest => if LocalIsWhitespace c then skip_whitespace rest false else (input, valid)
  | [] => ([], valid)
  end.

(** The value [*output] has before the call is [output]. *)
(* src: base/strings/string_number_conversions.cc 179-205! IteratorRangeToNumber::Invoke *)
Definition Invoke (ty : IntType) (base : Z) (input : list Z) (output : Z) : bool * Z :=
  let '(input, valid) := skip_whitespace input true in
  match input with
  | c :: rest =>
      if c =? "-"%ch then
        if !(is_signed ty) then (false, output)
        else
          let '(ok, output) := Base_Invoke Negative ty base rest in
          (if !ok then false else valid, output)
      else
        let '(ok, output) := Base_Invoke Positive ty base (if c =? "+"%ch then rest else input) in
        (if !ok then false else valid, output)
  | [] =>
      let '(ok, output) := Base_Invoke Positive ty base [] in
      (if !ok then false else valid, output)
  end.

(* src: base/strings/string_number_conversions.cc 421-427! StringToInt *)
Definition StringToInt : list Z -> Z -> bool * Z := Invoke Int 10.
(* src: base/strings/string_number_conversions.cc 429-435! StringToUint *)
Definition StringToUint : list Z -> Z -> bool * Z := Invoke UInt 10.
(* src: base/strings/string_number_conversions.cc 437-443! StringToInt64 *)
Definition StringToInt64 : list Z -> Z -> bool * Z := Invoke Int64 10.
(* src: base/strings/string_number_conversions.cc 445-459! StringToUint64 *)
Definition StringToUint64 : list Z -> Z -> bool * Z := Invoke UInt64 10.
(* src: base/strings/string_number_conversions.cc 505-508! HexStringToInt *)
Definition HexStringToInt : list Z -> Z -> bool * Z := Invoke Int 16.
(* src: base/strings/string_number_conversions.cc 510-513! HexStringToUInt *)
Definition HexStringToUInt : list Z -> Z -> bool * Z := Invoke UInt 16.
(* src: base/strings/string_number_conversions.cc 515-518! HexStringToInt64 *)
Definition HexStringToInt64 : list Z -> Z -> bool * Z := Invoke Int64 16.
(* src: base/strings/string_number_conversions.cc 520-523! HexStringToUInt64 *)
Definition HexStringToUInt64 : list Z -> Z -> bool * Z := Invoke UInt64 16.
End Invoke.

(** ** Bytes to hexadecimal and back *)

(* src: base/strings/string_number_conversions.cc 492-492! HexEncode *)
Definition kHexChars : list Z := str "0123456789ABCDEF".

(** [bytes] are the values of the bytes; the source reads them as [char]. *)
(* src: base/strings/string_number_conversions.cc 491-503 HexEncode *)
Definition HexEncode (bytes : list Z) : list Z :=
  flat_map (fun byte =>
    let b := wrap_s 8 byte in
    [at_ kHexChars (Z.land (Z.shiftr b 4) 15); at_ kHexChars (Z.land b 15)]) bytes.

(* src: base/strings/string_number_conversions.cc 336-344! HexStringToBytesT *)
Fixpoint hex_pairs (input : list Z) (output : list Z) : bool * list Z :=
  match input with
  | hi :: lo :: input =>
      match CharToDigit 16 hi, CharToDigit 16 lo with
      | Some msb, Some lsb =>
          hex_pairs input (output ++ [wrap_u 8 (Z.lor (Z.shiftl msb 4) lsb)])
      | _, _ => (false, output)
      end
  | _ => (true, output)
  end.

(* src: base/strings/string_number_conversions.cc 330-345! HexStringToBytesT *)
Definition HexStringToBytes (input : list Z) : bool * list Z :=
  let count := Z.of_nat (length input) in
  if (count =? 0) || !(count mod 2 =? 0) then (false, [])
  else hex_pairs input [].
