(* ===== verification/NumberProperties.v ===== *)
(** Printing and parsing integers: the text is the numeral, every value comes
    back, and parsing saturates instead of overflowing. *)
From S2P Require Import Prelude NumberConversions.
From Stdlib Require Import ZifyBool.

(** ** Reference definitions *)

(** The value of a numeral, given its digits. *)
Definition num (base : Z) (ds : list Z) (v : Z) : Z := fold_left (fun v d => v * base + d) ds v.

(** The longest prefix of digits, as values, and what follows it. *)
Fixpoint digits_of (base : Z) (input : list Z) : list Z * list Z :=
  match input with
  | [] => ([], [])
  | c :: rest =>
      match CharToDigit base c with
      | Some d => let '(ds, r) := digits_of base rest in (d :: ds, r)
      | None => ([], input)
      end
  end.

(** The largest magnitude of a type on one side of zero. *)
Definition limit (sign : Sign) (ty : IntType) : Z :=
  match sign with Positive => numeric_max ty | Negative => - numeric_min ty end.
Definition signed_value (sign : Sign) (v : Z) : Z :=
  match sign with Positive => v | Negative => - v end.

Definition is_nil {A} (l : list A) : bool := match l with [] => true | _ => false end.

(** What a conversion is to return for the digits of [input]. *)
Definition parse_result (sign : Sign) (ty : IntType) (base : Z) (input : list Z) : bool * Z :=
  let '(ds, rest) := digits_of base input in
  (!(is_nil ds) && is_nil rest && (num base ds 0 <=? limit sign ty),
   signed_value sign (Z.min (limit sign ty) (num base ds 0))).

(** ** Types *)

Definition int_type (ty : IntType) : Prop := bits ty = 32 \/ bits ty = 64.
Definition in_type (ty : IntType) (z : Z) : Prop := numeric_min ty <= z <= numeric_max ty.

Section Type_.
Variable ty : IntType.
Hypothesis Hty : int_type ty.

Lemma numeric_bounds :
  numeric_min ty <= 0 /\ 2 ^ 31 - 1 <= numeric_max ty /\
  (is_signed ty = true -> numeric_min ty = - numeric_max ty - 1).
Proof.
  unfold numeric_min, numeric_max. destruct Hty as [-> | ->], (is_signed ty); cbn; lia.
Qed.

Lemma wrap_int_id z : in_type ty z -> wrap_int ty z = z.
Proof.
  unfold in_type, wrap_int, numeric_min, numeric_max. intros Hz.
  destruct (is_signed ty); [apply wrap_s_id|apply wrap_u_id];
    destruct Hty as [E|E]; rewrite E in *; unfold in_s, in_u; lia.
Qed.

(** ** Parsing *)

Variable base : Z.
Hypothesis Hbase : 2 <= base <= 16.

Lemma CharToDigit_range c d : CharToDigit base c = Some d -> 0 <= d < base.
Proof.
  unfold CharToDigit. intros H. destruct (Z.leb_spec base 10); returns H; injection H as <-;
    to_prop; lia.
Qed.

Lemma num_mono ds v : Forall (fun d => 0 <= d) ds -> 0 <= v -> v <= num base ds v.
Proof.
  intros Hds. revert v. induction Hds as [|d ds Hd _ IH]; intros v Hv; cbn; [lia|].
  etransitivity; [|apply IH; nia]. nia.
Qed.

Lemma digits_of_range input :
  Forall (fun d => 0 <= d < base) (digits_of base input).1.
Proof.
  induction input as [|c rest IH]; cbn; [done|].
  destruct (CharToDigit base c) eqn:E; [|done].
  destruct (digits_of base rest); cbn in *. constructor; [by eapply CharToDigit_range|done].
Qed.

Variable sign : Sign.
Hypothesis Hsign : sign = Negative -> is_signed ty = true.

Let lim := limit sign ty.

Lemma lim_pos : 2 ^ 31 - 1 <= lim.
Proof.
  pose proof numeric_bounds as (H1 & H2 & H3). unfold lim, limit. destruct sign; [done|].
  specialize (H3 (Hsign eq_refl)). lia.
Qed.

Lemma signed_in_type v : 0 <= v <= lim -> in_type ty (signed_value sign v).
Proof.
  pose proof numeric_bounds as (H1 & H2 & H3). unfold lim, limit, signed_value, in_type.
  destruct sign; [lia|]. intros. lia.
Qed.

(** The test before a digit is appended is exact. *)
Lemma CheckBounds_spec v d :
  0 <= v -> 0 <= d < base ->
  CheckBounds sign ty base (signed_value sign v) d =
    (v * base + d <=? lim, signed_value sign (if v * base + d <=? lim then v else lim)).
Proof.
  intros Hv Hd. pose proof lim_pos as Hl.
  assert (Hq : (Z.quot lim base <? v) || ((v =? Z.quot lim base) && (Z.rem lim base <? d)) =
    negb (v * base + d <=? lim)).
  { pose proof (Z.quot_rem' lim base). pose proof (Z.rem_bound_pos lim base).
    set (q := Z.quot lim base) in *. set (r := Z.rem lim base) in *.
    destruct (Z.ltb_spec q v), (Z.eqb_spec v q), (Z.ltb_spec r d), (Z.leb_spec (v * base + d) lim);
      cbn; try done; nia. }
  unfold CheckBounds, signed_value. destruct sign; unfold lim, limit in *.
  - rewrite Hq. by destruct (v * base + d <=? numeric_max ty).
  - assert (Ed : Z.quot (numeric_min ty) base = - Z.quot (- numeric_min ty) base).
    { rewrite Z.quot_opp_l by lia. lia. }
    assert (Er : Z.rem (numeric_min ty) base = - Z.rem (- numeric_min ty) base).
    { rewrite Z.rem_opp_l by lia. lia. }
    rewrite Ed, Er. replace (- v <? - Z.quot (- numeric_min ty) base)
      with (Z.quot (- numeric_min ty) base <? v)
      by (apply eq_true_iff_eq; rewrite !Z.ltb_lt; lia).
    replace (- v =? - Z.quot (- numeric_min ty) base) with (v =? Z.quot (- numeric_min ty) base)
      by (apply eq_true_iff_eq; rewrite !Z.eqb_eq; lia).
    replace (0 - - Z.rem (- numeric_min ty) base) with (Z.rem (- numeric_min ty) base) by lia.
    rewrite Hq. destruct (v * base + d <=? - numeric_min ty); cbn; [done|]. f_equal. lia.
Qed.

Lemma Increment_spec v d :
  0 <= v -> 0 <= d -> v + d <= lim ->
  Increment sign ty d (signed_value sign v) = signed_value sign (v + d).
Proof.
  intros Hv Hd Hl. pose proof (signed_in_type (v + d)) as Hs. unfold Increment.
  destruct sign; cbn in *; rewrite wrap_int_id; try lia; rewrite ?Z.opp_add_distr in Hs;
    try (apply Hs; lia).
Qed.

Lemma parse_digits_spec input v :
  0 <= v <= lim ->
  parse_digits sign ty base false input (signed_value sign v) =
    let '(ds, rest) := digits_of base input in
    (is_nil rest && (num base ds v <=? lim), signed_value sign (Z.min lim (num base ds v))).
Proof.
  revert v. induction input as [|c rest IH]; intros v Hv; cbn.
  - replace (v <=? lim) with true by lia. by rewrite Z.min_r by lia.
  - destruct (CharToDigit base c) as [d|] eqn:E.
    2:{ cbn. by rewrite Z.min_r by lia. }
    apply CharToDigit_range in E. rewrite CheckBounds_spec by lia.
    pose proof (digits_of_range rest) as Hr.
    destruct (Z.leb_spec (v * base + d) lim) as [Hin|Hout]; cbn [negb].
    + replace (wrap_int ty (signed_value sign v * base)) with (signed_value sign (v * base)).
      2:{ rewrite <- (wrap_int_id (signed_value sign (v * base))) at 1 by (apply signed_in_type; nia).
          f_equal. unfold signed_value. destruct sign; lia. }
      rewrite Increment_spec by nia. rewrite IH by nia.
      by destruct (digits_of base rest) as [ds r].
    + destruct (digits_of base rest) as [ds r]. cbn [fst] in Hr. cbn.
      assert (v * base + d <= num base ds (v * base + d)) as Hm.
      { apply num_mono; [|nia]. eapply Forall_impl; [done|]. cbn. lia. }
      unfold num in Hm. replace (fold_left _ ds _ <=? lim) with false by lia.
      rewrite andb_false_r. by rewrite Z.min_l by lia.
Qed.

(** The prefix of a hexadecimal number, which only counts when something
    follows it. *)
Definition strip_prefix (input : list Z) : list Z :=
  if (base =? 16) && (2 <? Z.of_nat (length input)) && (at_ input 0 =? "0"%ch) &&
     ((at_ input 1 =? "x"%ch) || (at_ input 1 =? "X"%ch))
  then drop 2 input else input.

Lemma parse_first input :
  input <> [] -> parse_digits sign ty base true input 0 = parse_result sign ty base input.
Proof.
  intros Hne. destruct input as [|c rest]; [done|]. unfold parse_result. cbn.
  pose proof lim_pos. destruct (CharToDigit base c) as [d|] eqn:E.
  2:{ cbn. unfold lim in *. rewrite Z.min_r by lia. by destruct sign. }
  apply CharToDigit_range in E.
  replace (Increment sign ty d 0) with (signed_value sign d).
  2:{ pose proof (Increment_spec 0 d) as Hi. cbn in Hi. replace (signed_value sign 0) with 0 in Hi
        by (by destruct sign). symmetry. apply Hi; lia. }
  rewrite parse_digits_spec by lia. by destruct (digits_of base rest) as [ds r].
Qed.

Lemma Base_Invoke_spec input :
  Base_Invoke sign ty base input = parse_result sign ty base (strip_prefix input).
Proof.
  unfold Base_Invoke, strip_prefix. destruct input as [|c rest] eqn:Ei.
  - rewrite andb_false_r. cbn. pose proof lim_pos. unfold parse_result, lim in *. cbn.
    rewrite Z.min_r by lia. by destruct sign.
  - rewrite <- Ei. case_if; apply parse_first; [|congruence].
    intros Hd. apply (f_equal length) in Hd. rewrite length_drop in Hd. cbn in Hd. lia.
Qed.

Lemma Base_Invoke_range input : in_type ty (snd (Base_Invoke sign ty base input)).
Proof.
  rewrite Base_Invoke_spec. unfold parse_result. pose proof (digits_of_range (strip_prefix input)) as Hr.
  destruct (digits_of base _) as [ds rest]. cbn [fst snd] in *. pose proof lim_pos. unfold lim in *.
  assert (0 <= num base ds 0).
  { apply num_mono; [|lia]. eapply Forall_impl; [exact Hr|]. cbn. lia. }
  apply signed_in_type. unfold lim. lia.
Qed.

End Type_.

(** ** Printing *)

Definition digit (d : Z) : Z := d + "0"%ch.

Lemma num_snoc base ds d v : num base (ds ++ [d]) v = num base ds v * base + d.
Proof. unfold num. by rewrite fold_left_app. Qed.

(** No needless zero at the front. *)
Definition canonical (ds : list Z) : Prop :=
  match ds with [] => False | [_] => True | d :: _ => d <> 0 end.

Lemma write_digits_spec is_neg k room res written :
  0 <= res < 10 ^ (Z.of_nat k) -> (0 < k)%nat -> (k + 1 < room)%nat ->
  exists ds, write_digits is_neg room res written =
      Some ((if is_neg then ["-"%ch] else []) ++ map digit ds ++ written) /\
    Forall (fun d => 0 <= d < 10) ds /\ num 10 ds 0 = res /\ canonical ds /\
    (res <> 0 -> head ds <> Some 0).
Proof.
  revert room res written. induction k as [|k IH]; intros room res written Hres Hk Hroom; [lia|].
  destruct room as [|room]; [lia|]. cbn [write_digits]. rewrite DCHECK_bind.
  replace (Nat.eqb room 0) with false by (symmetry; apply Nat.eqb_neq; lia). cbn [negb].
  pose proof (Z.mod_pos_bound res 10). pose proof (Z.div_mod res 10).
  destruct (Z.eqb_spec (res / 10) 0) as [E|E].
  - exists [res mod 10]. split.
    { destruct is_neg; [|done]. destruct room as [|room]; [lia|]. rewrite DCHECK_bind.
      replace (Nat.eqb room 0) with false by (symmetry; apply Nat.eqb_neq; lia). done. }
    split; [repeat constructor; lia|]. cbn. split; [lia|]. split; [done|]. intros ? [=]. lia.
  - assert (0 <= res / 10) by (apply Z.div_pos; lia).
    assert (res / 10 < 10 ^ Z.of_nat k).
    { apply Z.div_lt_upper_bound; [lia|]. rewrite Nat2Z.inj_succ, Z.pow_succ_r in Hres by lia. lia. }
    destruct k as [|k]; [cbn in *; lia|].
    change (res mod 10 + "0"%ch) with (digit (res mod 10)).
    destruct (IH room (res / 10) (digit (res mod 10) :: written)) as (ds & -> & Hd & Hn & Hc & Hh);
      [lia|lia|lia|].
    exists (ds ++ [res mod 10]). split.
    { f_equal. rewrite map_app, <- !app_assoc. done. }
    split; [apply Forall_app; split; [done|]; repeat constructor; lia|].
    rewrite num_snoc, Hn. split; [lia|].
    specialize (Hh E). destruct ds as [|d ds]; [done|]. cbn in *.
    split; [|by intros _]. destruct (ds ++ [res mod 10]) eqn:Ea; [done|]. congruence.
Qed.

Lemma ToUnsigned_abs ty v : int_type ty -> in_type ty v -> ToUnsigned ty v = Z.abs v.
Proof.
  unfold ToUnsigned, in_type, numeric_min, numeric_max. intros [E|E] Hv; rewrite E in *;
    destruct (is_signed ty); try lia.
  - destruct (Z.ltb_spec v 0); [|rewrite wrap_u_id; unfold in_u; lia].
    destruct (decide (v = - 2 ^ 31)) as [->|]; [reflexivity|].
    rewrite wrap_s_id by (unfold in_s; lia). rewrite wrap_u_id; unfold in_u; lia.
  - destruct (Z.ltb_spec v 0); [|rewrite wrap_u_id; unfold in_u; lia].
    destruct (decide (v = - 2 ^ 63)) as [->|]; [reflexivity|].
    rewrite wrap_s_id by (unfold in_s; lia). rewrite wrap_u_id; unfold in_u; lia.
Qed.

Lemma IntToStringT_spec ty v :
  int_type ty -> in_type ty v ->
  exists ds, IntToStringT ty v = Some ((if v <? 0 then ["-"%ch] else []) ++ map digit ds) /\
    Forall (fun d => 0 <= d < 10) ds /\ num 10 ds 0 = Z.abs v /\ canonical ds.
Proof.
  intros Hty Hv. unfold IntToStringT. rewrite ToUnsigned_abs by done.
  replace (TestNeg ty v) with (v <? 0).
  2:{ unfold TestNeg, in_type, numeric_min in *. destruct (is_signed ty); [done|]. lia. }
  assert (exists k, Z.abs v < 10 ^ Z.of_nat k /\ (0 < k)%nat /\
    (k + 1 < Z.to_nat (3 * (bits ty / 8) + 1))%nat) as (k & Hk & Hpos & Hroom).
  { unfold in_type, numeric_min, numeric_max in Hv. destruct Hty as [E|E]; rewrite E in *;
      [exists 10%nat|exists 20%nat].
    - change (10 ^ Z.of_nat 10) with 10000000000. change (Z.to_nat _) with 13%nat.
      destruct (is_signed ty); lia.
    - change (10 ^ Z.of_nat 20) with 100000000000000000000. change (Z.to_nat _) with 25%nat.
      destruct (is_signed ty); lia. }
  destruct (write_digits_spec (v <? 0) k (Z.to_nat (3 * (bits ty / 8) + 1)) (Z.abs v) [])
    as (ds & -> & Hd & Hn & Hc & _); [lia..|].
  exists ds. by rewrite app_nil_r.
Qed.

(** ** Printed text is parsed back *)

Lemma CharToDigit_digit d : 0 <= d < 10 -> CharToDigit 10 (digit d) = Some d.
Proof.
  intros Hd. unfold CharToDigit, digit. cbn.
  case_if; [f_equal; lia|lia].
Qed.

Lemma digits_of_map ds :
  Forall (fun d => 0 <= d < 10) ds -> digits_of 10 (map digit ds) = (ds, []).
Proof.
  induction 1 as [|d ds Hd _ IH]; [done|]. cbn [map digits_of].
  by rewrite CharToDigit_digit, IH.
Qed.

(** A locale in which no digit and no sign is white space. *)
Definition sane (ws : Z -> bool) : Prop :=
  ws "-"%ch = false /\ ws "+"%ch = false /\ forall d, 0 <= d < 10 -> ws (digit d) = false.

Lemma isspace_sane : sane isspace.
Proof. split; [done|]. split; [done|]. intros d Hd. unfold isspace, digit. cbn. lia. Qed.

(** ** What a conversion returns *)

Fixpoint drop_while (p : Z -> bool) (l : list Z) : list Z :=
  match l with
  | c :: rest => if p c then drop_while p rest else l
  | [] => []
  end.

(** The reference result: white space at the front is skipped but spoils the
    result; a sign says which side of zero the digits are on. *)
Definition convert (ws : Z -> bool) (ty : IntType) (base : Z) (input : list Z) (old : Z)
    : bool * Z :=
  let body := drop_while ws input in
  let clean := Nat.eqb (length body) (length input) in
  let with_sign sign text :=
    let '(ok, v) := parse_result sign ty base (strip_prefix base text) in (clean && ok, v) in
  match body with
  | c :: rest =>
      if c =? "-"%ch then if is_signed ty then with_sign Negative rest else (false, old)
      else with_sign Positive (if c =? "+"%ch then rest else body)
  | [] => with_sign Positive []
  end.

Lemma skip_whitespace_spec ws input valid :
  skip_whitespace ws input valid =
    (drop_while ws input,
     if Nat.eqb (length (drop_while ws input)) (length input) then valid else false).
Proof.
  assert (Hle : forall l, (length (drop_while ws l) <= length l)%nat).
  { induction l as [|c l IH]; [done|]. cbn. destruct (ws c); cbn; lia. }
  revert valid. induction input as [|c rest IH]; intros valid; [done|]. cbn.
  destruct (ws c).
  - rewrite IH. pose proof (Hle rest). destruct (Nat.eqb_spec (length (drop_while ws rest)) (length rest)),
      (Nat.eqb_spec (length (drop_while ws rest)) (S (length rest))); lia || done.
  - cbn. by rewrite Nat.eqb_refl.
Qed.

Lemma Invoke_range ws ty base input old :
  int_type ty -> 2 <= base <= 16 -> in_type ty old -> in_type ty (snd (Invoke ws ty base input old)).
Proof.
  intros Hty Hbase Hold. unfold Invoke. destruct (skip_whitespace ws input true) as [rest valid].
  assert (Hr : forall sign text, (sign = Negative -> is_signed ty = true) ->
    in_type ty (snd (let '(ok, output) := Base_Invoke sign ty base text in (if !ok then false else valid, output)))).
  { intros sign text Hsign. pose proof (Base_Invoke_range ty Hty base Hbase sign Hsign text). by destruct (Base_Invoke _ _ _ _). }
  destruct rest as [|c rest]; [by apply Hr|]. case_match; [|by apply Hr]. destruct (is_signed ty); cbn [negb]; [by apply Hr|done].
Qed.

Lemma Invoke_convert ws ty base input old :
  int_type ty -> base = 10 \/ base = 16 -> Invoke ws ty base input old = convert ws ty base input old.
Proof.
  intros Hty Hbase. unfold Invoke, convert. rewrite skip_whitespace_spec.
  assert (2 <= base <= 16) as Hb by lia.
  destruct (drop_while ws input) as [|c rest] eqn:E.
  - rewrite Base_Invoke_spec by done. destruct (parse_result _ _ _ _) as [[] v]; [|by rewrite andb_false_r].
    rewrite andb_true_r. by destruct (Nat.eqb _ _).
  - destruct (c =? "-"%ch).
    + destruct (is_signed ty) eqn:Es; [|done]. cbn [negb]. rewrite Base_Invoke_spec by done.
      destruct (parse_result _ _ _ _) as [[] v]; [|by rewrite andb_false_r].
      rewrite andb_true_r. by destruct (Nat.eqb _ _).
    + rewrite Base_Invoke_spec by done.
      destruct (parse_result _ _ _ _) as [[] v]; [|by rewrite andb_false_r].
      rewrite andb_true_r. by destruct (Nat.eqb _ _).
Qed.

(** C39. A conversion returns what the text says: with the white space at the
    front skipped, the result is the value of the longest run of digits, cut
    off at the bounds of the type instead of overflowing, zero when there are
    none, and it is reported as perfect exactly when there was no white space,
    there are digits, nothing follows them and the value fits. There is one
    exception: for an unsigned type, of text with a minus sign in front nothing
    is converted, and the output keeps the value that it had, whatever follows
    (string_number_conversions.h says that it is set to 0). In all the other
    cases the result does not depend on that value. *)
Theorem conversion_saturates ws ty base input old :
  int_type ty -> base = 10 \/ base = 16 ->
  Invoke ws ty base input old = convert ws ty base input old /\
  if negb (is_signed ty) && bool_decide (head (drop_while ws input) = Some "-"%ch)
  then Invoke ws ty base input old = (false, old)
  else forall old', Invoke ws ty base input old' = Invoke ws ty base input old.
Proof.
  intros Hty Hbase. rewrite Invoke_convert by done. split; [done|]. unfold convert at 1.
  destruct (drop_while ws input) as [|c rest] eqn:E; cbn [head].
  - rewrite bool_decide_eq_false_2, andb_false_r by done. intros old'. rewrite !Invoke_convert by done. unfold convert. by rewrite E.
  - destruct (Z.eqb_spec c "-"%ch) as [->|Hc].
    + rewrite bool_decide_eq_true_2, andb_true_r by done. destruct (is_signed ty) eqn:Es; cbn [negb]; [|done].
      intros old'. rewrite !Invoke_convert by done. unfold convert. by rewrite E, Es.
    + rewrite bool_decide_eq_false_2, andb_false_r by congruence. intros old'. rewrite !Invoke_convert by done. unfold convert.
      by rewrite E, (proj2 (Z.eqb_neq c "-"%ch) Hc).
Qed.

(** The numeral of a value is parsed as that value. *)
Lemma Invoke_numeral ws ty v ds old :
  int_type ty -> in_type ty v -> sane ws -> Forall (fun d => 0 <= d < 10) ds -> ds <> [] -> num 10 ds 0 = Z.abs v ->
  Invoke ws ty 10 ((if v <? 0 then ["-"%ch] else []) ++ map digit ds) old = (true, v).
Proof.
  intros Hty Hv (Hm & Hp & Hd) Hds Hne Hn. destruct ds as [|d ds]; [done|]. pose proof (digits_of_map _ Hds) as Hdig.
  assert (Hd0 : 0 <= d < 10) by (by inversion Hds).
  assert (Hres : forall sign, Z.abs v <= limit sign ty ->
    parse_result sign ty 10 (strip_prefix 10 (map digit (d :: ds))) =
      (true, signed_value sign (Z.abs v))).
  { intros sign Hl. change (strip_prefix 10 ?l) with l. unfold parse_result.
    rewrite Hdig, Hn. cbn [is_nil andb negb].
    rewrite Z.min_r by lia. f_equal. lia. }
  unfold Invoke, in_type in *. destruct (Z.ltb_spec v 0).
  - assert (is_signed ty = true) as Es.
    { unfold numeric_min in Hv. destruct (is_signed ty); [done|lia]. }
    cbn [app skip_whitespace]. rewrite Hm. change ("-"%ch =? "-"%ch) with true. cbn match. rewrite Es. cbn [negb].
    rewrite Base_Invoke_spec, Hres; [|unfold limit; lia|done|lia|done]. cbn. f_equal. lia.
  - cbn [app map skip_whitespace]. rewrite Hd by done.
    replace (digit d =? "-"%ch) with false by (unfold digit; lia).
    replace (digit d =? "+"%ch) with false by (unfold digit; lia).
    change (digit d :: map digit ds) with (map digit (d :: ds)).
    rewrite Base_Invoke_spec, Hres; [|unfold limit; lia|done|lia|done]. cbn. f_equal. lia.
Qed.

(** Integers. *)
Lemma integers_round_trip ws ty v old :
  int_type ty -> in_type ty v -> sane ws ->
  exists ds, IntToStringT ty v = Some ((if v <? 0 then ["-"%ch] else []) ++ map digit ds) /\
    Forall (fun d => 0 <= d < 10) ds /\ num 10 ds 0 = Z.abs v /\ canonical ds /\
    Invoke ws ty 10 ((if v <? 0 then ["-"%ch] else []) ++ map digit ds) old = (true, v).
Proof.
  intros Hty Hv Hws. destruct (IntToStringT_spec ty v Hty Hv) as (ds & E & Hds & Hn & Hc).
  exists ds. do 4 (split; [done|]). apply Invoke_numeral; try done. by destruct ds.
Qed.

(** The text is rejected, and nothing is stored, when a negative number is
    converted to an unsigned type. *)
Lemma unsigned_minus_stores_nothing ty base rest old :
  is_signed ty = false -> Invoke isspace ty base ("-"%ch :: rest) old = (false, old).
Proof. intros Hs. unfold Invoke. cbn. by rewrite Hs. Qed.

(** ** Hexadecimal bytes *)

Definition byte (b : Z) : Prop := 0 <= b < 256.

Definition hex_value (c : Z) : option Z := CharToDigit 16 c.

(** The upper-case form of a hexadecimal digit. *)
Definition upper (c : Z) : Z := if ("a"%ch <=? c) && (c <=? "f"%ch) then c - 32 else c.

Lemma byte_digits b :
  byte b ->
  Z.land (Z.shiftr (wrap_s 8 b) 4) 15 = b / 16 /\ Z.land (wrap_s 8 b) 15 = b mod 16 /\
  hex_value (at_ kHexChars (b / 16)) = Some (b / 16) /\
  hex_value (at_ kHexChars (b mod 16)) = Some (b mod 16) /\
  wrap_u 8 (Z.lor (Z.shiftl (b / 16) 4) (b mod 16)) = b.
Proof.
  revert b. compute_below 256%nat.
Qed.

Lemma HexEncode_cons b bs :
  byte b -> HexEncode (b :: bs) = at_ kHexChars (b / 16) :: at_ kHexChars (b mod 16) :: HexEncode bs.
Proof. intros (E1 & E2 & _)%byte_digits. unfold HexEncode. cbn [flat_map app]. by rewrite E1, E2. Qed.

Lemma hex_pairs_encode bs out :
  Forall byte bs -> hex_pairs (HexEncode bs) out = (true, out ++ bs).
Proof.
  intros Hbs. revert out. induction Hbs as [|b bs Hb _ IH]; intros out; [by rewrite app_nil_r|].
  rewrite HexEncode_cons by done. apply byte_digits in Hb as (_ & _ & E3 & E4 & E5).
  cbn [hex_pairs]. unfold hex_value in *. rewrite E3, E4, E5, IH. by rewrite <- app_assoc.
Qed.

Lemma length_HexEncode bs : length (HexEncode bs) = (2 * length bs)%nat.
Proof. unfold HexEncode. induction bs as [|b bs IH]; [done|]. cbn [flat_map]. rewrite length_app, IH. cbn. lia. Qed.

(** A pair of hexadecimal digits is a byte, and encoding it gives the digits
    in upper case. *)
Lemma hex_digit_range c d : CharToDigit 16 c = Some d -> 0 <= d < 16 /\ at_ kHexChars d = upper c.
Proof.
  intros H. unfold CharToDigit in H. cbn in H.
  assert (Hr : 0 <= d < 16) by (returns H; injection H as <-; lia). split; [done|].
  assert (Hk : at_ kHexChars d = if d <? 10 then d + 48 else d + 55).
  { clear H. revert d Hr. compute_below 16%nat. }
  rewrite Hk. unfold upper. returns H; injection H as <-; repeat case_if; lia.
Qed.

Lemma hex_pair_byte m l :
  0 <= m < 16 -> 0 <= l < 16 ->
  let b := wrap_u 8 (Z.lor (Z.shiftl m 4) l) in byte b /\ b / 16 = m /\ b mod 16 = l.
Proof.
  intros Hm Hl.
  assert (Hz : forall z, 0 <= z < 256 ->
    let b := wrap_u 8 (Z.lor (Z.shiftl (z / 16) 4) (z mod 16)) in
    0 <= b < 256 /\ b / 16 = z / 16 /\ b mod 16 = z mod 16).
  { compute_below 256%nat. }
  specialize (Hz (m * 16 + l)). rewrite Z.div_add_l, Z.div_small, Z.add_0_r in Hz by lia.
  rewrite Z.add_comm, Z.mod_add, Z.mod_small in Hz by lia. apply Hz. lia.
Qed.

Lemma hex_pairs_sound n input out bytes :
  (length input <= 2 * n)%nat -> (length input mod 2 = 0)%nat ->
  hex_pairs input out = (true, bytes) ->
  exists bs, bytes = out ++ bs /\ Forall byte bs /\ HexEncode bs = map upper input.
Proof.
  revert input out. induction n as [|n IH]; intros input out Hlen Heven H.
  { destruct input; [|cbn in *; lia]. injection H as <-. exists []. by rewrite app_nil_r. }
  destruct input as [|c1 [|c2 rest]]; [|done|].
  { injection H as <-. exists []. by rewrite app_nil_r. }
  cbn [hex_pairs] in H. destruct (CharToDigit 16 c1) as [m|] eqn:E1; [|done].
  destruct (CharToDigit 16 c2) as [l|] eqn:E2; [|done].
  apply hex_digit_range in E1 as [Hm Em], E2 as [Hl El].
  apply IH in H as (bs & -> & Hbs & He); [|cbn in *; lia|].
  - destruct (hex_pair_byte m l Hm Hl) as (Hb & Hd & Hr). eexists. rewrite <- app_assoc.
    split; [reflexivity|]. cbn [app]. split; [by constructor|].
    rewrite HexEncode_cons by done. rewrite Hd, Hr, Em, El, He. done.
  - cbn [length] in Heven. replace (S (S (length rest))) with (length rest + 1 * 2)%nat in Heven by lia.
    by rewrite Nat.Div0.mod_add in Heven.
Qed.

(** Bytes. *)
Lemma hex_bytes_round_trip :
  (forall bs, Forall byte bs -> bs <> [] -> HexStringToBytes (HexEncode bs) = (true, bs)) /\
  (forall input bs, HexStringToBytes input = (true, bs) ->
     Forall byte bs /\ bs <> [] /\ HexEncode bs = map upper input).
Proof.
  split.
  - intros bs Hbs Hne. unfold HexStringToBytes. rewrite length_HexEncode.
    destruct bs as [|b bs]; [done|]. rewrite hex_pairs_encode by done.
    replace (Z.of_nat (2 * length (b :: bs)) =? 0) with false by (cbn [length]; lia).
    replace (Z.of_nat (2 * length (b :: bs)) mod 2 =? 0) with true; [done|].
    rewrite Nat2Z.inj_mul, Z.mul_comm, Z.mod_mul by lia. done.
  - intros input bs H. unfold HexStringToBytes in H. case_if_in H; [done|]. to_prop.
    assert (Hev : (length input mod 2 = 0)%nat).
    { match goal with H : Z.of_nat _ mod 2 = 0 |- _ => revert H end.
      change 2 with (Z.of_nat 2). rewrite <- Nat2Z.inj_mod. lia. }
    apply hex_pairs_sound with (n := length input) in H as (bs' & -> & Hb & He); [|lia|done].
    split; [done|]. split; [|done]. intros E. rewrite app_nil_l in E. subst bs'.
    destruct input; [done|]. done.
Qed.

(** C40. Numbers and bytes survive as text. Printing an integer of any of the
    four types, the least one included, stays inside its buffer and gives the
    decimal numeral of the value, without needless zeros, and parsing that text
    gives the value back. Every buffer that is not empty is read back from its
    hexadecimal text, and text is accepted only as that of the bytes it is read
    as, up to the case of its letters. *)
Theorem print_parse_roundtrip ws ty v old :
  int_type ty -> in_type ty v -> sane ws ->
  (exists ds, IntToStringT ty v = Some ((if v <? 0 then ["-"%ch] else []) ++ map digit ds) /\
     Forall (fun d => 0 <= d < 10) ds /\ num 10 ds 0 = Z.abs v /\ canonical ds /\
     Invoke ws ty 10 ((if v <? 0 then ["-"%ch] else []) ++ map digit ds) old = (true, v)) /\
  (forall bs, Forall byte bs -> bs <> [] -> HexStringToBytes (HexEncode bs) = (true, bs)) /\
  (forall input bs, HexStringToBytes input = (true, bs) ->
     Forall byte bs /\ bs <> [] /\ HexEncode bs = map upper input).
Proof. intros Hty Hv Hws. split; [by apply integers_round_trip|exact hex_bytes_round_trip]. Qed.

(** ** Witnesses *)

Lemma conversion_saturates_witness :
  Invoke isspace Int 10 (str "-2147483649") 0 = (false, -2147483648) /\
  Invoke isspace Int 10 (str "-2147483649") 0 = convert isspace Int 10 (str "-2147483649") 0 /\
  Invoke isspace UInt 10 (str " -1") 7 = (false, 7).
Proof.
  split; [vm_compute; reflexivity|]. split; [apply conversion_saturates; [by left|by left]|].
  exact (proj2 (conversion_saturates isspace UInt 10 (str " -1") 7 ltac:(by left) ltac:(by left))).
Defined.

Lemma print_parse_roundtrip_witness :
  (exists ds, IntToStringT Int (-2147483648) = Some (["-"%ch] ++ map digit ds) /\
     Invoke isspace Int 10 (["-"%ch] ++ map digit ds) 0 = (true, -2147483648)) /\
  HexStringToBytes (HexEncode [255; 0]) = (true, [255; 0]).
Proof.
  destruct (print_parse_roundtrip isspace Int (-2147483648) 0) as [(ds & E & _ & _ & _ & H) [Hh _]];
    [by left|split; vm_compute; congruence|apply isspace_sane|].
  split; [exists ds; split; [exact E|exact H]|]. apply Hh; [|discriminate]. repeat constructor; unfold byte; lia.
Defined.
