(* ===== verification/CArrays.v ===== *)
(** C arrays with checked access, and the text that lies at a position of an
    array: what the readers of text and of packets share. *)
From S2P Require Import Prelude.

(** The element at an index; [None] is an access out of bounds. *)
Definition get {A} (l : list A) (i : Z) : option A :=
  if i <? 0 then None else l !! Z.to_nat i.

(** The array after a write at an index; [None] is an access out of bounds. *)
Definition put {A} (l : list A) (i : Z) (x : A) : option (list A) :=
  if (i <? 0) || (zlen l <=? i) then None else Some (<[Z.to_nat i := x]> l).

Section arrays.
Context {A : Type}.
Implicit Types (l pre : list A) (x y : A).

Lemma get_some l i : 0 <= i < zlen l -> exists x, get l i = Some x.
Proof.
  intros Hi. unfold get, zlen in *. rewrite (proj2 (Z.ltb_ge i 0)) by lia.
  apply lookup_lt_is_Some_2. lia.
Qed.

Lemma get_range l i x : get l i = Some x -> 0 <= i < zlen l.
Proof.
  unfold get, zlen. destruct (Z.ltb_spec i 0); [done|]. intros Hx.
  apply lookup_lt_Some in Hx. lia.
Qed.

Lemma get_In l i x : get l i = Some x -> x ∈ l.
Proof. unfold get. destruct (i <? 0); [done|]. apply list_elem_of_lookup_2. Qed.

Lemma get_app pre x l : get (pre ++ x :: l) (zlen pre) = Some x.
Proof.
  unfold get, zlen. rewrite (proj2 (Z.ltb_ge _ 0)) by lia.
  rewrite Nat2Z.id. by apply list_lookup_middle.
Qed.

Lemma get_put l l' i x : put l i x = Some l' -> get l' i = Some x.
Proof.
  unfold put, get, zlen. destruct (Z.ltb_spec i 0), (Z.leb_spec (Z.of_nat (length l)) i); try done.
  cbn. intros [= <-]. apply list_lookup_insert_eq. lia.
Qed.

Lemma get_put_ne l l' i j x : put l i x = Some l' -> i <> j -> get l' j = get l j.
Proof.
  unfold put, get, zlen. destruct (Z.ltb_spec i 0), (Z.leb_spec (Z.of_nat (length l)) i); try done.
  cbn. intros [= <-] Hne. destruct (Z.ltb_spec j 0); [done|]. apply list_lookup_insert_ne. lia.
Qed.

Lemma put_some l i x : 0 <= i < zlen l -> exists l', put l i x = Some l' /\ zlen l' = zlen l.
Proof.
  intros Hi. unfold put. rewrite (proj2 (Z.ltb_ge i 0)), (proj2 (Z.leb_gt (zlen l) i)) by lia.
  eexists. split; [done|]. unfold zlen. by rewrite length_insert.
Qed.

Lemma zlen_put l l' i x : put l i x = Some l' -> zlen l' = zlen l.
Proof.
  unfold put. destruct (_ || _); [done|]. intros [= <-]. unfold zlen. by rewrite length_insert.
Qed.

Lemma put_app pre x y l : put (pre ++ x :: l) (zlen pre) y = Some (pre ++ y :: l).
Proof.
  unfold put. rewrite zlen_app. unfold zlen at 3. cbn [length].
  rewrite (proj2 (Z.ltb_ge _ 0)), (proj2 (Z.leb_gt _ _)) by (unfold zlen; lia).
  cbn [orb]. unfold zlen. rewrite Nat2Z.id.
  replace (length pre) with (length pre + 0)%nat by lia. by rewrite insert_app_r.
Qed.

(** [text] lies in the array [spec] from the index [i] on. *)
Definition lies (spec : list A) (i : Z) (text : list A) : Prop :=
  exists pre post, spec = pre ++ text ++ post /\ zlen pre = i.

Lemma lies_all l : lies l 0 l.
Proof. exists [], []. by rewrite app_nil_r. Qed.

Lemma lies_between pre l post : lies (pre ++ l ++ post) (zlen pre) l.
Proof. by exists pre, post. Qed.

Lemma lies_get spec i x l : lies spec i (x :: l) -> get spec i = Some x.
Proof. intros (pre & post & -> & <-). apply get_app. Qed.

Lemma lies_tail spec i x l : lies spec i (x :: l) -> lies spec (i + 1) l.
Proof.
  intros (pre & post & -> & <-). exists (pre ++ [x]), post. rewrite zlen_app.
  split; [by rewrite <- app_assoc|done].
Qed.

Lemma lies_cons (s : list A) i x l : get s i = Some x -> lies s (i + 1) l -> lies s i (x :: l).
Proof.
  intros Hx (pre & post & -> & Hpre). destruct pre as [|y pre _] using rev_ind.
  - unfold zlen in Hpre. cbn in Hpre. apply get_range in Hx. lia.
  - exists pre, post. rewrite zlen_app in Hpre. unfold zlen in *. cbn in Hpre. rewrite <- app_assoc in Hx |- *. cbn in Hx |- *.
    replace i with (zlen pre) in * by (unfold zlen; lia). rewrite get_app in Hx. injection Hx as ->.
    split; [done|]. unfold zlen. lia.
Qed.

Lemma lies_nil (s : list A) i : 0 <= i <= zlen s -> lies s i [].
Proof.
  intros Hi. exists (take (Z.to_nat i) s), (drop (Z.to_nat i) s). cbn. rewrite take_drop. split; [done|]. by apply zlen_take.
Qed.

Lemma lies_app spec i l1 l2 :
  lies spec i (l1 ++ l2) -> lies spec i l1 /\ lies spec (i + zlen l1) l2.
Proof.
  intros (pre & post & -> & <-). split.
  - exists pre, (l2 ++ post). by rewrite <- !app_assoc.
  - exists (pre ++ l1), post. rewrite zlen_app. by rewrite <- !app_assoc.
Qed.

Lemma lies_bounds spec i l : lies spec i l -> 0 <= i /\ i + zlen l <= zlen spec.
Proof.
  intros (pre & post & -> & <-). rewrite !zlen_app.
  pose proof (zlen_nonneg pre). pose proof (zlen_nonneg post). lia.
Qed.

Lemma lies_slice spec i n :
  0 <= i -> 0 <= n -> i + n <= zlen spec ->
  lies spec i (take (Z.to_nat n) (drop (Z.to_nat i) spec)).
Proof.
  intros Hi Hn Hs. exists (take (Z.to_nat i) spec), (drop (Z.to_nat n) (drop (Z.to_nat i) spec)).
  rewrite !take_drop. split; [done|]. apply zlen_take. unfold zlen in *. lia.
Qed.
End arrays.

(** ** Results

    The program ends without a failed check, and its result satisfies [Q]. *)
Definition yields {A} (r : res A) (Q : A -> Prop) : Prop :=
  match r with Ok a => Q a | _ => False end.

Lemma yields_Ok {A} (a : A) (Q : A -> Prop) : Q a -> yields (Ok a) Q.
Proof. done. Qed.

Lemma yields_eq {A} (r : res A) (Q : A -> Prop) : yields r Q -> exists a, r = Ok a /\ Q a.
Proof. destruct r as [a| |]; [eauto|done|done]. Qed.

Lemma yields_impl {A} (r : res A) (P Q : A -> Prop) :
  yields r P -> (forall a, P a -> Q a) -> yields r Q.
Proof. destruct r; cbn; auto. Qed.

Lemma yields_bind {A B} (r : res A) (f : A -> res B) (P : A -> Prop) (Q : B -> Prop) :
  yields r P -> (forall a, P a -> yields (f a) Q) -> yields (r ≫= f) Q.
Proof. destruct r; cbn; auto. Qed.

Lemma yields_get {A B} (l : list A) i (f : A -> res B) (Q : B -> Prop) :
  0 <= i < zlen l -> (forall x, get l i = Some x -> yields (f x) Q) ->
  yields (checked (get l i) ≫= f) Q.
Proof. intros Hi Hf. destruct (get_some l i Hi) as [x Hx]. rewrite Hx. by apply Hf. Qed.

Lemma yields_put {A B} (l : list A) i x (f : list A -> res B) (Q : B -> Prop) :
  0 <= i < zlen l -> (forall l', put l i x = Some l' -> zlen l' = zlen l -> yields (f l') Q) ->
  yields (checked (put l i x) ≫= f) Q.
Proof.
  intros Hi Hf. destruct (put_some l i x Hi) as (l' & Hl & Hn). rewrite Hl. by apply Hf.
Qed.

Lemma checked_get {A B} (l : list A) i x (f : A -> res B) :
  get l i = Some x -> (checked (get l i) ≫= f) = f x.
Proof. by intros ->. Qed.

Lemma Forall_put {A} (P : A -> Prop) (l l' : list A) i x :
  put l i x = Some l' -> P x -> Forall P l -> Forall P l'.
Proof.
  unfold put. destruct (_ || _); [done|]. intros [= <-] Hx Hl. by apply Forall_insert.
Qed.

Lemma get_Forall {A} (P : A -> Prop) (l : list A) i x : get l i = Some x -> Forall P l -> P x.
Proof. intros Hx Hl. eapply Forall_forall in Hl; [done|]. by eapply get_In. Qed.

(** A byte of memory. *)
Definition is_byte (b : Z) : Prop := 0 <= b < 256.

Lemma wrap_u_byte z : is_byte (wrap_u 8 z).
Proof. apply (wrap_u_range 8). lia. Qed.
