(* ===== verification/Memory.v ===== *)
(** Memory as a list of bytes: blocks with checked loads and stores, and the
    bytes of an integer in either order. *)
From S2P Require Import Prelude CArrays.
From Stdlib Require Import ZifyBool.

(** ** Blocks

    A block of memory is the list of its bytes.  An access outside a block is
    [None], like a failed check: the program has no defined behaviour from
    there on. *)
Definition load (block : list Z) (offset size : Z) : option (list Z) :=
  if (0 <=? offset) && (0 <=? size) && (offset + size <=? Z.of_nat (length block))
  then Some (take (Z.to_nat size) (drop (Z.to_nat offset) block)) else None.

Definition store (offset : Z) (bytes : list Z) (block : list Z) : option (list Z) :=
  if (0 <=? offset) && (offset + Z.of_nat (length bytes) <=? Z.of_nat (length block))
  then Some (take (Z.to_nat offset) block ++ bytes ++
             drop (Z.to_nat offset + length bytes) block) else None.

(** The little-endian representation of an integer, as [reinterpret_cast] and
    [memcpy] see it. *)
Fixpoint to_bytes (size : nat) (z : Z) : list Z :=
  match size with
  | O => []
  | S size => z mod 256 :: to_bytes size (z / 256)
  end.
Fixpoint of_bytes (bytes : list Z) : Z :=
  match bytes with
  | [] => 0
  | b :: bytes => b + 256 * of_bytes bytes
  end.

(** The same, the most significant byte in front. *)
Fixpoint be_bytes (n : nat) (v : Z) : list Z :=
  match n with O => [] | S n => be_bytes n (v / 256) ++ [v mod 256] end.

Definition be_value (bytes : list Z) : Z := fold_left (fun v b => v * 256 + b) bytes 0.

#[export] Instance is_byte_dec b : Decision (is_byte b).
Proof. unfold is_byte. apply _. Defined.

(** ** The bytes of an integer *)

Lemma length_to_bytes size z : length (to_bytes size z) = size.
Proof. revert z. induction size as [|size IH]; intros z; cbn; [done|]. by rewrite IH. Qed.

Lemma of_to_bytes size z : 0 <= z < 256 ^ Z.of_nat size -> of_bytes (to_bytes size z) = z.
Proof.
  revert z. induction size as [|size IH]; intros z Hz; cbn.
  - cbn in Hz. lia.
  - rewrite Nat2Z.inj_succ, Z.pow_succ_r in Hz by lia.
    rewrite IH by (split; [apply Z.div_pos; lia|apply Z.div_lt_upper_bound; lia]).
    pose proof (Z.div_mod z 256). lia.
Qed.

Lemma to_bytes_byte size z : Forall is_byte (to_bytes size z).
Proof.
  revert z. induction size as [|size IH]; intros z; cbn; constructor; [|done].
  apply Z.mod_pos_bound. lia.
Qed.

(** Writing the low bytes of a signed value keeps its residue. *)
Lemma to_bytes_mod size z : to_bytes size (z mod 256 ^ Z.of_nat size) = to_bytes size z.
Proof.
  revert z. induction size as [|size IH]; intros z; [done|]. cbn [to_bytes].
  rewrite Nat2Z.inj_succ, Z.pow_succ_r by lia.
  assert (0 < 256 ^ Z.of_nat size) by (apply Z.pow_pos_nonneg; lia).
  rewrite Z.rem_mul_r by lia. f_equal.
  - rewrite Z.mul_comm, Z.mod_add by lia. apply Z.mod_mod. lia.
  - rewrite <- (IH (z / 256)). f_equal.
    rewrite Z.mul_comm, Z.div_add by lia. rewrite Z.div_small; [lia|]. apply Z.mod_pos_bound. lia.
Qed.

Lemma of_to_bytes_signed w size z :
  w = 8 * Z.of_nat size -> 0 < w -> in_s w z -> wrap_s w (of_bytes (to_bytes size z)) = z.
Proof.
  intros -> Hw Hz.
  rewrite <- to_bytes_mod, of_to_bytes.
  2:{ apply Z.mod_pos_bound. apply Z.pow_pos_nonneg; lia. }
  replace (256 ^ Z.of_nat size) with (2 ^ (8 * Z.of_nat size)).
  2:{ change 256 with (2 ^ 8). rewrite <- Z.pow_mul_r by lia. done. }
  rewrite <- (wrap_s_id (8 * Z.of_nat size) z) at 2 by done. unfold wrap_s.
  by rewrite Zplus_mod_idemp_l.
Qed.

Lemma of_bytes_range l : Forall is_byte l -> 0 <= of_bytes l < 256 ^ Z.of_nat (length l).
Proof.
  induction 1 as [|b l Hb _ IH]; cbn [of_bytes length]; [cbn; lia|].
  rewrite Nat2Z.inj_succ, Z.pow_succ_r by lia. unfold is_byte in Hb. lia.
Qed.

Lemma length_be_bytes n v : length (be_bytes n v) = n.
Proof. revert v. induction n as [|n IH]; intros v; [done|]. cbn [be_bytes]. rewrite length_app, IH. cbn. lia. Qed.

Lemma be_bytes_byte n v : Forall is_byte (be_bytes n v).
Proof.
  revert v. induction n as [|n IH]; intros v; [constructor|]. cbn [be_bytes]. apply Forall_app. split; [apply IH|].
  constructor; [apply Z.mod_pos_bound; lia|constructor].
Qed.

Lemma be_value_bytes n v : be_value (be_bytes n v) = v mod 256 ^ Z.of_nat n.
Proof.
  revert v. induction n as [|n IH]; intros v; [cbn; by rewrite Z.mod_1_r|].
  cbn [be_bytes]. unfold be_value in *. rewrite fold_left_app, IH. cbn [fold_left].
  rewrite Nat2Z.inj_succ, Z.pow_succ_r, (Z.rem_mul_r v 256) by lia. ring.
Qed.

(** ** Loads and stores *)

Lemma load_app pre bytes post offset size :
  offset = Z.of_nat (length pre) -> size = Z.of_nat (length bytes) ->
  load (pre ++ bytes ++ post) offset size = Some bytes.
Proof.
  intros -> ->. unfold load. rewrite !length_app.
  replace (_ && _) with true by lia.
  by rewrite !Nat2Z.id, drop_app_length, take_app_length.
Qed.

Lemma store_app pre old post bytes offset :
  offset = Z.of_nat (length pre) -> length old = length bytes ->
  store offset bytes (pre ++ old ++ post) = Some (pre ++ bytes ++ post).
Proof.
  intros -> Hl. unfold store. rewrite !length_app.
  replace (_ && _) with true by lia. rewrite !Nat2Z.id, take_app_length.
  f_equal. f_equal. f_equal. rewrite <- Hl.
  rewrite app_assoc. replace (length pre + length old)%nat with (length (pre ++ old)) by apply length_app.
  apply drop_app_length.
Qed.

Lemma load_head bytes post size :
  size = Z.of_nat (length bytes) -> load (bytes ++ post) 0 size = Some bytes.
Proof. intros Hs. by apply (load_app [] bytes post). Qed.

Lemma load_all bytes : load bytes 0 (Z.of_nat (length bytes)) = Some bytes.
Proof. rewrite <- (app_nil_r bytes) at 1. by apply load_head. Qed.

Lemma store_head old post bytes :
  length old = length bytes -> store 0 bytes (old ++ post) = Some (bytes ++ post).
Proof. intros Hs. by apply (store_app [] old post). Qed.

Lemma load_total block offset size :
  0 <= offset -> 0 <= size -> offset + size <= Z.of_nat (length block) ->
  exists bytes, load block offset size = Some bytes.
Proof. intros. unfold load. replace (_ && _) with true by lia. eauto. Qed.

(** The first [n] elements of a list that is long enough. *)
Lemma split_at {A} (n : nat) (l : list A) :
  (n <= length l)%nat -> exists l1 l2, l = l1 ++ l2 /\ length l1 = n.
Proof.
  intros Hn. exists (take n l), (drop n l). split; [by rewrite take_drop|].
  rewrite length_take. lia.
Qed.

