(* ===== verification/Pickle.v ===== *)
(** Binary serialization, base/pickle.{h,cc}: values appended to a growing
    buffer behind a header, and an iterator that reads them back from memory
    that may hold anything. *)
From S2P Require Import Prelude CArrays Memory.

(** ** The pickle *)

(* src: base/pickle.cc 14-14! kPayloadUnit *)
Definition kPayloadUnit : Z := 64.
(* src: base/pickle.cc 16-16! kCapacityReadOnly *)
Definition kCapacityReadOnly : Z := 2 ^ 64 - 1.
(* src: base/pickle.h 261-263! Header *)
Definition sizeof_Header : Z := 4.
Definition kuint32max : Z := 2 ^ 32 - 1.

(** [header_] is the block that starts with the header; [None] is [NULL]. *)
(* src: base/pickle.h 323-330! Pickle *)
Record Pickle := mkPickle {
  header_ : option (list Z);
  header_size_ : Z;
  capacity_after_header_ : Z;
  write_offset_ : Z
}.
#[export] Instance eta_Pickle : Eta Pickle := fun p =>
  mkPickle (header_ p) (header_size_ p) (capacity_after_header_ p) (write_offset_ p).

(* src: base/pickle.h 307-309 AlignInt *)
Definition AlignInt (i alignment : Z) : Z := u64 (i + (alignment - (i mod alignment)) mod alignment).

(** [header_->payload_size]. *)
(* src: base/pickle.h 280-280! payload_size *)
Definition get_payload_size (p : Pickle) : option Z :=
  block ← header_ p; of_bytes <$> load block 0 4.
Definition set_payload_size (size : Z) (p : Pickle) : option Pickle :=
  block ← header_ p;
  block ← store 0 (to_bytes 4 (u32 size)) block;
  Some p <| header_ := Some block |>.

(* src: base/pickle.h 133-133! size *)
Definition size (p : Pickle) : option Z :=
  n ← get_payload_size p; Some (u64 (header_size_ p + n)).

(** The bytes of [data()], as many as [size()] says. *)
Definition data (p : Pickle) : option (list Z) :=
  block ← header_ p; n ← size p; load block 0 n.

Section Allocator.
(** The bytes that [realloc] finds in memory it did not copy: [fresh i] is the
    one at offset [i]. *)
Variable fresh : nat -> Z.

Definition realloc (block : option (list Z)) (size : Z) : list Z :=
  let n := Z.to_nat size in
  let old := take n (default [] block) in
  old ++ map fresh (seq (length old) (n - length old)).

(* src: base/pickle.cc 272-280 Resize *)
Definition Resize (new_capacity : Z) (p : Pickle) : option Pickle :=
  let new_capacity := AlignInt new_capacity kPayloadUnit in
  DCHECK (!(capacity_after_header_ p =? kCapacityReadOnly)) ;;
  let block := realloc (header_ p) (u64 (header_size_ p + new_capacity)) in
  Some (p <| header_ := Some block |> <| capacity_after_header_ := new_capacity |>).

(* src: base/pickle.cc 153-160! Pickle::Pickle *)
Definition new_Pickle : option Pickle :=
  p ← Resize kPayloadUnit (mkPickle None sizeof_Header 0 0);
  set_payload_size 0 p.

(* src: base/pickle.cc 162-171! Pickle::Pickle *)
Definition new_Pickle_with_header (header_size : Z) : option Pickle :=
  let p := mkPickle None (AlignInt (u64 header_size) 4) 0 0 in
  DCHECK (sizeof_Header <=? u64 header_size) ;;
  DCHECK (header_size <=? kPayloadUnit) ;;
  p ← Resize kPayloadUnit p;
  set_payload_size 0 p.

(* src: base/pickle.cc 173-190! Pickle::Pickle *)
Definition Pickle_of_data (data : list Z) (data_len : Z) : option Pickle :=
  header_size ← (if sizeof_Header <=? data_len then
                   n ← (of_bytes <$> load data 0 4);
                   Some (u32 (data_len - n))
                 else Some 0);
  let header_size := if u32 data_len <? header_size then 0 else header_size in
  let header_size := if !(header_size =? AlignInt header_size 4) then 0 else header_size in
  Some (mkPickle (if header_size =? 0 then None else Some data) header_size kCapacityReadOnly 0).

(* src: base/pickle.cc 192-200! Pickle::Pickle *)
Definition copy_Pickle (other : Pickle) : option Pickle :=
  let p := mkPickle None (header_size_ other) 0 (write_offset_ other) in
  n ← get_payload_size other;
  let payload_size := u64 (header_size_ other + n) in
  p ← Resize payload_size p;
  block ← header_ p;
  source ← header_ other;
  bytes ← load source 0 payload_size;
  block ← store 0 bytes block;
  Some (p <| header_ := Some block |>).

(** Assignment from another object; assignment to itself is a failed check. *)
(* src: base/pickle.cc 207-226! Pickle::operator= *)
Definition assign_Pickle (other p : Pickle) : option Pickle :=
  let p := if capacity_after_header_ p =? kCapacityReadOnly
           then p <| header_ := None |> <| capacity_after_header_ := 0 |> else p in
  let p := if !(header_size_ p =? header_size_ other)
           then p <| header_ := None |> <| header_size_ := header_size_ other |> else p in
  n ← get_payload_size other;
  p ← Resize n p;
  block ← header_ p;
  source ← header_ other;
  bytes ← load source 0 (u64 (header_size_ other + n));
  block ← store 0 bytes block;
  Some (p <| header_ := Some block |> <| write_offset_ := write_offset_ other |>).

(** ** Writing *)

(** [data] are the bytes the pointer argument points to. *)
(* src: base/pickle.cc 307-326 WriteBytesCommon *)
Definition WriteBytesCommon (data : list Z) (length : Z) (p : Pickle) : option Pickle :=
  DCHECK (!(kCapacityReadOnly =? capacity_after_header_ p)) ;;
  let data_len := AlignInt length 4 in
  DCHECK (length <=? data_len) ;;
  DCHECK (data_len <=? kuint32max) ;;
  DCHECK (write_offset_ p <=? kuint32max - data_len) ;;
  let new_size := u64 (write_offset_ p + data_len) in
  p ← (if capacity_after_header_ p <? new_size
       then Resize (Z.max (u64 (capacity_after_header_ p * 2)) new_size) p else Some p);
  let write := header_size_ p + write_offset_ p in
  block ← header_ p;
  bytes ← load data 0 length;
  block ← store write bytes block;
  block ← store (write + length) (repeat 0 (Z.to_nat (data_len - length))) block;
  p ← set_payload_size (write_offset_ p + length) (p <| header_ := Some block |>);
  Some (p <| write_offset_ := new_size |>).

(* src: base/pickle.cc 260-270 Reserve *)
Definition Reserve (length : Z) (p : Pickle) : option Pickle :=
  let data_len := AlignInt length 4 in
  DCHECK (length <=? data_len) ;;
  DCHECK (data_len <=? kuint32max) ;;
  DCHECK (write_offset_ p <=? kuint32max - data_len) ;;
  let new_size := u64 (write_offset_ p + data_len) in
  if capacity_after_header_ p <? new_size
  then Resize (u64 (capacity_after_header_ p * 2 + new_size)) p else Some p.

(** The values there are methods for.  A float is its four bytes. *)
Inductive Value :=
  | VBool (value : bool)
  | VInt (value : Z)
  | VLong (value : Z)
  | VUInt16 (value : Z)
  | VUInt32 (value : Z)
  | VInt64 (value : Z)
  | VUInt64 (value : Z)
  | VFloat (bytes : list Z)
  | VString (value : list Z)
  | VWString (value : list Z)
  | VString16 (value : list Z)
  | VData (data : list Z)
  | VBytes (data : list Z).

(* src: base/pickle.h 336-339 WritePOD *)
Definition WritePOD (size : nat) (value : Z) (p : Pickle) : option Pickle :=
  WriteBytesCommon (to_bytes size value) (Z.of_nat size) p.

(* src: base/pickle.cc 255-258! Pickle::WriteBytes *)
Definition WriteBytes (data : list Z) (length : Z) (p : Pickle) : option Pickle :=
  WriteBytesCommon data (u64 length) p.

Definition WriteInt : Z -> Pickle -> option Pickle := WritePOD 4.

(** [size()] of a standard string. *)
Definition str_size (s : list Z) : Z := Z.of_nat (length s).

(* src: base/pickle.cc 228-233 WriteString *)
Definition WriteString (value : list Z) (p : Pickle) : option Pickle :=
  p ← WriteInt (s32 (str_size value)) p;
  WriteBytes value (s32 (str_size value)) p.

(* src: base/pickle.cc 235-241 WriteWString *)
Definition WriteWString (value : list Z) (p : Pickle) : option Pickle :=
  p ← WriteInt (s32 (str_size value)) p;
  WriteBytes (flat_map (to_bytes 4) value) (s32 (u64 (str_size value * 4))) p.

(* src: base/pickle.cc 243-249 WriteString16 *)
Definition WriteString16 (value : list Z) (p : Pickle) : option Pickle :=
  p ← WriteInt (s32 (str_size value)) p;
  WriteBytes (flat_map (to_bytes 2) value) (s32 (u64 (s32 (str_size value)) * 2)) p.

(** Whether the method returned true, and the pickle after it. *)
(* src: base/pickle.cc 251-253 WriteData *)
Definition WriteData (data : list Z) (length : Z) (p : Pickle) : option (bool * Pickle) :=
  if 0 <=? length then
    p ← WriteInt length p;
    p ← WriteBytes data length p;
    Some (true, p)
  else Some (false, p).

(* src: base/pickle.h 215-243! WriteBool *)
Definition write_value (v : Value) (p : Pickle) : option Pickle :=
  match v with
  | VBool b => WriteInt (if b then 1 else 0) p
  | VInt z => WriteInt z p
  | VLong z => WritePOD 8 z p
  | VUInt16 z => WritePOD 2 z p
  | VUInt32 z => WritePOD 4 z p
  | VInt64 z => WritePOD 8 z p
  | VUInt64 z => WritePOD 8 z p
  | VFloat bytes => WriteBytesCommon bytes 4 p
  | VString s => WriteString s p
  | VWString s => WriteWString s p
  | VString16 s => WriteString16 s p
  | VData d => snd <$> WriteData d (str_size d) p
  | VBytes d => WriteBytes d (str_size d) p
  end.

Fixpoint write_values (vs : list Value) (p : Pickle) : option Pickle :=
  match vs with
  | [] => Some p
  | v :: vs => p ← write_value v p; write_values vs p
  end.
End Allocator.

(** ** Reading *)

(** Pointers into the block of the pickle are offsets; a pickle without a block
    gives two null pointers. *)
(* src: base/pickle.h 80-81! PickleIterator *)
Record PickleIterator := mkPickleIterator {
  block : option (list Z); read_ptr_ : Z; read_end_ptr_ : Z
}.
#[export] Instance eta_PickleIterator : Eta PickleIterator := fun it =>
  mkPickleIterator (block it) (read_ptr_ it) (read_end_ptr_ it).

(* src: base/pickle.cc 18-21! PickleIterator::PickleIterator *)
Definition new_PickleIterator (p : Pickle) : option PickleIterator :=
  match header_ p with
  | None => Some (mkPickleIterator None (header_size_ p) 0)
  | Some b =>
      n ← get_payload_size p;
      Some (mkPickleIterator (Some b) (header_size_ p) (header_size_ p + n))
  end.

(** The pointer to read from, unless it is null, and the iterator after it. *)
Definition current_read_ptr (it : PickleIterator) : option Z :=
  match block it with Some _ => Some (read_ptr_ it) | None => None end.

(* src: base/pickle.cc 35-45! PickleIterator::GetReadPointerAndAdvance *)
Definition GetReadPointerOfType (size : Z) (it : PickleIterator) : option Z * PickleIterator :=
  if read_end_ptr_ it <? read_ptr_ it + size then (None, it) else
  (current_read_ptr it,
   if size <? 4 then it <| read_ptr_ := read_ptr_ it + AlignInt size 4 |>
   else it <| read_ptr_ := read_ptr_ it + size |>).

(* src: base/pickle.cc 47-53! PickleIterator::GetReadPointerAndAdvance *)
Definition GetReadPointerOfBytes (num_bytes : Z) (it : PickleIterator)
    : option Z * PickleIterator :=
  if (num_bytes <? 0) || (read_end_ptr_ it - read_ptr_ it <? num_bytes) then (None, it) else
  (current_read_ptr it, it <| read_ptr_ := read_ptr_ it + AlignInt num_bytes 4 |>).

(* src: base/pickle.cc 55-63! PickleIterator::GetReadPointerAndAdvance *)
Definition GetReadPointerOfElements (num_elements size_element : Z) (it : PickleIterator)
    : option Z * PickleIterator :=
  let num_bytes := s64 (u64 (u64 (s64 num_elements) * size_element)) in
  let num_bytes32 := s32 num_bytes in
  if !(num_bytes =? num_bytes32) then (None, it)
  else GetReadPointerOfBytes num_bytes32 it.

(** A read: outside the block, or a result unless the method returned false,
    with the iterator after it. *)
Definition Read (A : Type) : Type := PickleIterator -> option (option A * PickleIterator).

#[export] Instance Read_ret : MRet Read := fun A a it => Some (Some a, it).
#[export] Instance Read_bind : MBind Read := fun A B f r it =>
  match r it with
  | None => None
  | Some (None, it) => Some (None, it)
  | Some (Some a, it) => f a it
  end.

(** Follow a pointer returned by one of the three functions. *)
Definition fetch (size : Z) (get : PickleIterator -> option Z * PickleIterator) : Read (list Z) :=
  fun it =>
    match get it with
    | (None, it) => Some (None, it)
    | (Some ptr, it') =>
        b ← block it;
        bytes ← load b ptr size;
        Some (Some bytes, it')
    end.

(* src: base/pickle.cc 23-33! PickleIterator::ReadBuiltinType *)
Definition ReadBuiltinType (size : Z) : Read (list Z) := fetch size (GetReadPointerOfType size).

(* src: base/pickle.cc 65-67 ReadBool *)
Definition ReadBool : Read bool :=
  bytes ← ReadBuiltinType 1; mret (negb (of_bytes bytes =? 0)).
(* src: base/pickle.cc 69-71 ReadInt *)
Definition ReadInt : Read Z := bytes ← ReadBuiltinType 4; mret (s32 (of_bytes bytes)).
(* src: base/pickle.cc 73-75 ReadLong *)
Definition ReadLong : Read Z := bytes ← ReadBuiltinType 8; mret (s64 (of_bytes bytes)).
(* src: base/pickle.cc 77-79 ReadUInt16 *)
Definition ReadUInt16 : Read Z := bytes ← ReadBuiltinType 2; mret (of_bytes bytes).
(* src: base/pickle.cc 81-83 ReadUInt32 *)
Definition ReadUInt32 : Read Z := bytes ← ReadBuiltinType 4; mret (of_bytes bytes).
(* src: base/pickle.cc 85-87 ReadInt64 *)
Definition ReadInt64 : Read Z := bytes ← ReadBuiltinType 8; mret (s64 (of_bytes bytes)).
(* src: base/pickle.cc 89-91 ReadUInt64 *)
Definition ReadUInt64 : Read Z := bytes ← ReadBuiltinType 8; mret (of_bytes bytes).
(* src: base/pickle.cc 93-95 ReadFloat *)
Definition ReadFloat : Read (list Z) := ReadBuiltinType 4.

(** The elements of [size] bytes each. *)
Fixpoint elements (size : nat) (count : nat) (bytes : list Z) : list Z :=
  match count with
  | O => []
  | S count => of_bytes (take size bytes) :: elements size count (drop size bytes)
  end.

(* src: base/pickle.cc 143-149 ReadBytes *)
Definition ReadBytes (length : Z) : Read (list Z) := fetch length (GetReadPointerOfBytes length).

(* src: base/pickle.cc 97-107 ReadString *)
Definition ReadString : Read (list Z) :=
  len ← ReadInt; fetch len (GetReadPointerOfBytes len).

(* src: base/pickle.cc 109-119 ReadWString *)
Definition ReadWString : Read (list Z) :=
  len ← ReadInt;
  bytes ← fetch (len * 4) (GetReadPointerOfElements len 4);
  mret (elements 4 (Z.to_nat len) bytes).

(* src: base/pickle.cc 121-131 ReadString16 *)
Definition ReadString16 : Read (list Z) :=
  len ← ReadInt;
  bytes ← fetch (len * 2) (GetReadPointerOfElements len 2);
  mret (elements 2 (Z.to_nat len) bytes).

(* src: base/pickle.cc 133-141 ReadData *)
Definition ReadData : Read (list Z) := len ← ReadInt; ReadBytes len.

(* src: base/pickle.h 46-48 ReadLength *)
Definition ReadLength : Read Z := fun it =>
  match ReadInt it with
  | Some (Some len, it) => Some (if 0 <=? len then Some len else None, it)
  | result => result
  end.

(* src: base/pickle.h 52-54 SkipBytes *)
Definition SkipBytes (num_bytes : Z) : Read unit := fun it =>
  match GetReadPointerOfBytes num_bytes it with
  | (None, it) => Some (None, it)
  | (Some _, it) => Some (Some tt, it)
  end.

(** The reads, by what they return; bytes without a length are read by their
    number. *)
Inductive Kind :=
  | KBool | KInt | KLong | KUInt16 | KUInt32 | KInt64 | KUInt64 | KFloat
  | KString | KWString | KString16 | KData | KBytes (length : Z).

Definition read_value (k : Kind) : Read Value :=
  match k with
  | KBool => v ← ReadBool; mret (VBool v)
  | KInt => v ← ReadInt; mret (VInt v)
  | KLong => v ← ReadLong; mret (VLong v)
  | KUInt16 => v ← ReadUInt16; mret (VUInt16 v)
  | KUInt32 => v ← ReadUInt32; mret (VUInt32 v)
  | KInt64 => v ← ReadInt64; mret (VInt64 v)
  | KUInt64 => v ← ReadUInt64; mret (VUInt64 v)
  | KFloat => v ← ReadFloat; mret (VFloat v)
  | KString => v ← ReadString; mret (VString v)
  | KWString => v ← ReadWString; mret (VWString v)
  | KString16 => v ← ReadString16; mret (VString16 v)
  | KData => v ← ReadData; mret (VData v)
  | KBytes n => v ← ReadBytes n; mret (VBytes v)
  end.

Fixpoint read_values (ks : list Kind) : Read (list Value) :=
  match ks with
  | [] => mret []
  | k :: ks => v ← read_value k; vs ← read_values ks; mret (v :: vs)
  end.

(** ** Framing *)

(** The offset in [range] just behind the pickle it starts with; the outer
    [option] is a failed check, the inner one [NULL]. *)
(* src: base/pickle.cc 283-297 FindNext *)
Definition FindNext (header_size : Z) (range : list Z) : option (option Z) :=
  DCHECK (header_size =? AlignInt header_size 4) ;;
  DCHECK (header_size <=? kPayloadUnit) ;;
  let length := Z.of_nat (length range) in
  if length <? sizeof_Header then Some None else
  n ← (of_bytes <$> load range 0 4);
  if (length <? header_size) || (u64 (length - header_size) <? n) then Some None
  else Some (Some (header_size + n)).
