(* ===== verification/PickleProperties.v ===== *)
(** Pickles keep their memory safe, and give back what was written. *)
From S2P Require Import Prelude CArrays Memory Pickle.
From Stdlib Require Import ZifyBool.

(** ** Alignment *)

Definition aligned (z : Z) : Prop := z mod 4 = 0.
Definition padding (n : Z) : Z := (4 - n mod 4) mod 4.

Lemma AlignInt_4 n :
  0 <= n < 2 ^ 63 ->
  AlignInt n 4 = n + padding n /\ 0 <= padding n < 4 /\ aligned (n + padding n) /\
  (aligned n -> padding n = 0).
Proof.
  intros Hn. unfold AlignInt, padding, aligned.
  assert (0 <= (4 - n mod 4) mod 4 < 4) by (apply Z.mod_pos_bound; lia).
  split; [apply wrap_u_id; unfold in_u; lia|]. split; [done|]. split.
  - pose proof (Z.mod_pos_bound n 4). pose proof (Z.div_mod n 4).
    rewrite Zplus_mod_idemp_r. replace (n + (4 - n mod 4)) with (4 * (n / 4 + 1)) by lia.
    rewrite Z.mul_comm. by apply Z.mod_mul.
  - intros ->. done.
Qed.

Lemma AlignInt_64 n :
  0 <= n < 2 ^ 63 -> exists k, AlignInt n 64 = n + k /\ 0 <= k < 64 /\ (n + k) mod 64 = 0.
Proof.
  intros Hn. unfold AlignInt. exists ((64 - n mod 64) mod 64).
  assert (0 <= (64 - n mod 64) mod 64 < 64) by (apply Z.mod_pos_bound; lia).
  split; [apply wrap_u_id; unfold in_u; lia|]. split; [done|].
  pose proof (Z.mod_pos_bound n 64). pose proof (Z.div_mod n 64).
  rewrite Zplus_mod_idemp_r. replace (n + (64 - n mod 64)) with (64 * (n / 64 + 1)) by lia.
  rewrite Z.mul_comm. by apply Z.mod_mul.
Qed.

(** ** Writing *)

(** The block of a pickle that can be written: its header, the bytes up to the
    write offset, and room after them. *)
Record holds (p : Pickle) (n : Z) (extra w spare : list Z) : Prop := {
  ho_block : header_ p = Some (to_bytes 4 n ++ extra ++ w ++ spare);
  ho_payload : 0 <= n <= Z.of_nat (length w);
  ho_header : header_size_ p = 4 + Z.of_nat (length extra) /\ header_size_ p <= 67;
  ho_capacity : capacity_after_header_ p = Z.of_nat (length w + length spare) /\
                capacity_after_header_ p <= 2 ^ 34;
  ho_offset : write_offset_ p = Z.of_nat (length w) /\ aligned (write_offset_ p) /\
              write_offset_ p < 2 ^ 32
}.

Definition pad (s : list Z) : list Z := s ++ repeat 0 (Z.to_nat (padding (Z.of_nat (length s)))).

Lemma length_pad s : Z.of_nat (length (pad s)) = Z.of_nat (length s) + padding (Z.of_nat (length s)).
Proof.
  unfold pad. rewrite length_app, repeat_length.
  assert (0 <= padding (Z.of_nat (length s))) by (apply Z.mod_pos_bound; lia). lia.
Qed.

Section Allocator.
Variable fresh : nat -> Z.

Lemma realloc_grow (block : list Z) size :
  Z.of_nat (length block) <= size ->
  exists more, realloc fresh (Some block) size = block ++ more /\
    Z.of_nat (length block + length more) = size.
Proof.
  intros Hs. unfold realloc. change (default [] (Some block)) with block. rewrite take_ge by lia.
  eexists; split; [reflexivity|]. rewrite length_map, length_seq. lia.
Qed.

Lemma set_payload_spec n m p extra w spare :
  holds p n extra w spare -> 0 <= m <= Z.of_nat (length w) ->
  exists p', set_payload_size m p = Some p' /\ holds p' m extra w spare.
Proof.
  intros [Hb Hn Hh Hc Ho] Hm. unfold set_payload_size. rewrite Hb. cbn [mbind option_bind].
  rewrite store_head by (by rewrite !length_to_bytes). cbn [mbind option_bind]. eexists; split; [reflexivity|].
  constructor; try done. cbn. rewrite wrap_u_id; [done|]. unfold in_u. lia.
Qed.

Lemma Resize_spec c p n extra w spare :
  holds p n extra w spare -> capacity_after_header_ p <= c <= 2 ^ 34 - 64 ->
  exists p' more, Resize fresh c p = Some p' /\ holds p' n extra w (spare ++ more) /\
    c <= capacity_after_header_ p'.
Proof.
  intros [Hb Hn Hh Hc Ho] Hbound. unfold Resize.
  destruct (AlignInt_64 c) as (k & Ek & Hk & _); [lia|]. change kPayloadUnit with 64. rewrite Ek.
  rewrite DCHECK_bind. replace (negb (capacity_after_header_ p =? kCapacityReadOnly)) with true.
  2:{ unfold kCapacityReadOnly. lia. }
  rewrite wrap_u_id by (unfold in_u; lia). rewrite Hb.
  destruct (realloc_grow (to_bytes 4 n ++ extra ++ w ++ spare) (header_size_ p + (c + k)))
    as (more & -> & Hl).
  { rewrite !length_app, length_to_bytes. lia. }
  rewrite !length_app, length_to_bytes in Hl.
  exists (p <| header_ := Some ((to_bytes 4 n ++ extra ++ w ++ spare) ++ more) |>
            <| capacity_after_header_ := c + k |>), more.
  split; [done|]. split; [|cbn; lia]. constructor; cbn; [|done..| |done].
  - by rewrite <- !app_assoc.
  - rewrite length_app. lia.
Qed.

(** Growing, if it is necessary, makes room for what is to be written. *)
Lemma make_room new_size p n extra w spare :
  holds p n extra w spare -> write_offset_ p <= new_size < 2 ^ 32 ->
  exists p1 spare1, (if capacity_after_header_ p <? new_size
      then Resize fresh (Z.max (u64 (capacity_after_header_ p * 2)) new_size) p else Some p) = Some p1 /\
    holds p1 n extra w spare1 /\ new_size <= capacity_after_header_ p1 /\
    header_size_ p1 = header_size_ p /\ write_offset_ p1 = write_offset_ p.
Proof.
  intros Hp Hn. pose proof Hp as [_ _ Hh Hc Ho].
  destruct (Z.ltb_spec (capacity_after_header_ p) new_size); [|by eauto 10].
  rewrite wrap_u_id by (unfold in_u; lia).
  destruct (Resize_spec (Z.max (capacity_after_header_ p * 2) new_size) p n extra w spare Hp)
    as (p1 & more & -> & H1 & H2); [lia|].
  exists p1, (spare ++ more). split; [done|]. split; [done|]. split; [lia|].
  destruct H1 as [_ _ [H3 _] _ [H4 _]]. split; lia.
Qed.

Lemma WriteBytesCommon_spec s p n extra w spare :
  holds p n extra w spare ->
  Z.of_nat (length w) + Z.of_nat (length s) + 4 < 2 ^ 32 ->
  exists p' spare', WriteBytesCommon fresh s (Z.of_nat (length s)) p = Some p' /\
    holds p' (Z.of_nat (length w) + Z.of_nat (length s)) extra (w ++ pad s) spare' /\
    header_size_ p' = header_size_ p.
Proof.
  intros Hp Hs. pose proof Hp as [Hb Hn Hh Hc Ho]. unfold WriteBytesCommon.
  destruct (AlignInt_4 (Z.of_nat (length s))) as (E & Hpad & Hal & _); [lia|]. rewrite E.
  set (k := padding (Z.of_nat (length s))) in *.
  rewrite !DCHECK_bind.
  replace (negb (kCapacityReadOnly =? capacity_after_header_ p)) with true
    by (unfold kCapacityReadOnly; lia).
  replace (Z.of_nat (length s) <=? Z.of_nat (length s) + k) with true by lia.
  unfold kuint32max. replace (Z.of_nat (length s) + k <=? 2 ^ 32 - 1) with true by lia.
  replace (write_offset_ p <=? 2 ^ 32 - 1 - (Z.of_nat (length s) + k)) with true by lia.
  rewrite (wrap_u_id 64 (write_offset_ p + _)) by (unfold in_u; lia).
  set (new_size := write_offset_ p + (Z.of_nat (length s) + k)) in *.
  destruct (make_room new_size p n extra w spare Hp) as (p1 & spare1 & -> & Hp1 & Hc1 & Eh & Eo); [lia|].
  cbn [mbind option_bind]. pose proof Hp1 as [Hb1 Hn1 Hh1 Hcc1 Ho1]. rewrite Hb1. cbn [mbind option_bind].
  rewrite load_all. cbn [mbind option_bind].
  destruct (split_at (length s) spare1) as (y1 & r1 & -> & Hy1); [lia|].
  rewrite length_app in Hcc1.
  destruct (split_at (Z.to_nat k) r1) as (y2 & r2 & -> & Hy2); [lia|].
  replace (to_bytes 4 n ++ extra ++ w ++ y1 ++ y2 ++ r2)
    with ((to_bytes 4 n ++ extra ++ w) ++ y1 ++ (y2 ++ r2)) by (by rewrite <- !app_assoc).
  rewrite (store_app _ y1 _ s) by (rewrite ?length_app, ?length_to_bytes; lia).
  cbn [mbind option_bind].
  replace (Z.to_nat (Z.of_nat (length s) + k - Z.of_nat (length s))) with (Z.to_nat k) by lia.
  replace ((to_bytes 4 n ++ extra ++ w) ++ s ++ y2 ++ r2)
    with ((to_bytes 4 n ++ extra ++ w ++ s) ++ y2 ++ r2) by (by rewrite <- !app_assoc).
  rewrite (store_app _ y2 _ (repeat 0 (Z.to_nat k)))
    by (rewrite ?length_app, ?length_to_bytes, ?repeat_length; lia).
  cbn [mbind option_bind].
  assert (Hlp : Z.of_nat (length (pad s)) = Z.of_nat (length s) + k) by apply length_pad.
  replace ((to_bytes 4 n ++ extra ++ w ++ s) ++ repeat 0 (Z.to_nat k) ++ r2)
    with (to_bytes 4 n ++ extra ++ (w ++ pad s) ++ r2)
    by (unfold pad; fold k; by rewrite <- !app_assoc).
  unfold set_payload_size. cbn [header_ mbind option_bind].
  change (header_ (p1 <| header_ := ?b |>)) with b. cbn [mbind option_bind].
  rewrite store_head by (by rewrite !length_to_bytes). cbn [mbind option_bind].
  rewrite !length_app in Hcc1.
  eexists _, r2. split; [reflexivity|]. split; [|done]. constructor; cbn.
  - rewrite Eo, (proj1 Ho), wrap_u_id by (unfold in_u; lia). done.
  - rewrite length_app. lia.
  - done.
  - rewrite length_app. lia.
  - rewrite length_app. split; [lia|]. split; [|lia].
    unfold aligned in *. subst new_size. by rewrite Z.add_mod, (proj1 (proj2 Ho)), Hal by lia.
Qed.

Lemma new_Pickle_spec :
  exists p spare, new_Pickle fresh = Some p /\ holds p 0 [] [] spare /\ header_size_ p = 4.
Proof.
  exists (mkPickle (Some (to_bytes 4 0 ++ map fresh (seq 4 64))) 4 64 0), (map fresh (seq 4 64)).
  split; [reflexivity|]. split; [|done]. constructor; cbn; try done; lia.
Qed.

(** A sequence of writes. *)
Fixpoint write_segments (segs : list (list Z)) (p : Pickle) : option Pickle :=
  match segs with
  | [] => Some p
  | s :: segs => p ← WriteBytesCommon fresh s (Z.of_nat (length s)) p; write_segments segs p
  end.

Lemma write_segments_app segs1 segs2 p :
  write_segments (segs1 ++ segs2) p = write_segments segs1 p ≫= write_segments segs2.
Proof.
  revert p. induction segs1 as [|s segs1 IH]; intros p; [done|]. cbn.
  destruct (WriteBytesCommon _ _ _ _); cbn; [apply IH|done].
Qed.

End Allocator.

(** What the payload holds: every segment but the last is padded. *)
Fixpoint wire (segs : list (list Z)) : list Z :=
  match segs with
  | [] => []
  | [s] => s
  | s :: segs => pad s ++ wire segs
  end.

Definition wire_size (segs : list (list Z)) : Z := Z.of_nat (length (wire segs)).
Definition padded_size (segs : list (list Z)) : Z := Z.of_nat (length (flat_map pad segs)).

Lemma wire_prefix segs : exists zeros, flat_map pad segs = wire segs ++ zeros.
Proof.
  induction segs as [|s segs [zeros IH]]; [by exists []|].
  destruct segs as [|s2 segs].
  - exists (repeat 0 (Z.to_nat (padding (Z.of_nat (length s))))). cbn. by rewrite app_nil_r.
  - exists zeros. cbn [flat_map wire] in *. rewrite IH, app_assoc. done.
Qed.

Lemma padded_cons s segs : padded_size (s :: segs) = Z.of_nat (length (pad s)) + padded_size segs.
Proof. unfold padded_size. cbn. rewrite length_app. lia. Qed.

Lemma write_segments_spec fresh segs p n extra w spare :
  holds p n extra w spare -> Z.of_nat (length w) + padded_size segs + 4 < 2 ^ 32 ->
  exists p' spare', write_segments fresh segs p = Some p' /\
    holds p' (match segs with [] => n | _ => Z.of_nat (length w) + wire_size segs end)
      extra (w ++ flat_map pad segs) spare' /\
    header_size_ p' = header_size_ p.
Proof.
  revert p n w spare. induction segs as [|s segs IH]; intros p n w spare Hp Hs; cbn [write_segments].
  { exists p, spare. cbn. by rewrite app_nil_r. }
  rewrite padded_cons in Hs. pose proof (length_pad s) as Hl.
  assert (0 <= padding (Z.of_nat (length s))) by (apply Z.mod_pos_bound; lia).
  assert (0 <= padded_size segs) by (unfold padded_size; lia).
  destruct (WriteBytesCommon_spec fresh s p n extra w spare Hp) as (p1 & sp1 & -> & H1 & E1); [lia|].
  cbn [mbind option_bind].
  destruct (IH p1 _ _ _ H1) as (p2 & sp2 & -> & H2 & E2); [rewrite length_app; lia|].
  exists p2, sp2. split; [done|]. split; [|congruence]. cbn [flat_map]. rewrite app_assoc.
  destruct segs as [|s2 segs]; [done|]. unfold wire_size in *.
  replace (Z.of_nat (length w) + Z.of_nat (length (wire (s :: s2 :: segs))))
    with (Z.of_nat (length (w ++ pad s)) + Z.of_nat (length (wire (s2 :: segs)))); [done|].
  cbn [wire]. rewrite !length_app. lia.
Qed.

(** ** Values *)

(** The writes a value is made of. *)
Definition segments (v : Value) : list (list Z) :=
  match v with
  | VBool b => [to_bytes 4 (if b then 1 else 0)]
  | VInt z | VUInt32 z => [to_bytes 4 z]
  | VLong z | VInt64 z | VUInt64 z => [to_bytes 8 z]
  | VUInt16 z => [to_bytes 2 z]
  | VFloat bytes => [bytes]
  | VString s | VData s => [to_bytes 4 (str_size s); s]
  | VWString s => [to_bytes 4 (str_size s); flat_map (to_bytes 4) s]
  | VString16 s => [to_bytes 4 (str_size s); flat_map (to_bytes 2) s]
  | VBytes s => [s]
  end.

(** The values of the C++ types. *)
Definition valid_value (v : Value) : Prop :=
  match v with
  | VBool _ => True
  | VInt z => in_s 32 z
  | VLong z | VInt64 z => in_s 64 z
  | VUInt16 z => in_u 16 z
  | VUInt32 z => in_u 32 z
  | VUInt64 z => in_u 64 z
  | VFloat bytes => length bytes = 4%nat
  | VString s | VData s | VBytes s => str_size s < 2 ^ 31
  | VWString s => str_size s * 4 < 2 ^ 31 /\ Forall (in_u 32) s
  | VString16 s => str_size s * 2 < 2 ^ 31 /\ Forall (in_u 16) s
  end.

Lemma length_units size s :
  length (flat_map (to_bytes size) s) = (size * length s)%nat.
Proof.
  induction s as [|c s IH]; cbn; [lia|]. rewrite length_app, length_to_bytes, IH. lia.
Qed.

Lemma write_value_segments fresh v p :
  valid_value v -> write_value fresh v p = write_segments fresh (segments v) p.
Proof.
  assert (Hone : forall s, write_segments fresh [s] p = WriteBytesCommon fresh s (Z.of_nat (length s)) p).
  { intros s. cbn. by destruct (WriteBytesCommon _ _ _ _). }
  assert (Hpod : forall size z, WritePOD fresh size z p = write_segments fresh [to_bytes size z] p).
  { intros size z. rewrite Hone, length_to_bytes. done. }
  assert (Htwo : forall n s l, l = Z.of_nat (length s) -> 0 <= l < 2 ^ 31 ->
    (p ← WriteInt fresh n p; WriteBytes fresh s (s32 l) p) =
    write_segments fresh [to_bytes 4 n; s] p).
  { intros n s l -> Hl. cbn [write_segments]. unfold WriteInt, WritePOD. rewrite length_to_bytes.
    destruct (WriteBytesCommon _ _ _ _); cbn [mbind option_bind]; [|done].
    unfold WriteBytes. rewrite s32_id by lia. rewrite wrap_u_id by (unfold in_u; lia).
    by destruct (WriteBytesCommon _ _ _ _). }
  assert (Hsize : forall s : list Z, 0 <= str_size s) by (intros; unfold str_size; lia).
  destruct v; cbn [write_value segments valid_value]; intros Hv; [apply Hpod..| | | | | |].
  - rewrite Hone, Hv. reflexivity.
  - unfold WriteString. rewrite (s32_id (str_size value)) at 1 by (specialize (Hsize value); lia).
    apply Htwo; [done|specialize (Hsize value); lia].
  - unfold WriteWString. specialize (Hsize value).
    rewrite (s32_id (str_size value)) by lia. rewrite (wrap_u_id 64) by (unfold in_u; lia).
    apply Htwo; [|lia]. rewrite length_units. unfold str_size. lia.
  - unfold WriteString16. specialize (Hsize value).
    rewrite !(s32_id (str_size value)) by lia. rewrite (wrap_u_id 64) by (unfold in_u; lia).
    apply Htwo; [|lia]. rewrite length_units. unfold str_size. lia.
  - unfold WriteData. specialize (Hsize data). replace (0 <=? str_size data) with true by lia.
    rewrite <- (Htwo (str_size data) data (str_size data)) by (done || lia).
    rewrite (s32_id (str_size data)) by lia.
    destruct (WriteInt fresh (str_size data) p) as [p1|]; cbn [mbind option_bind]; [|done].
    by destruct (WriteBytes fresh data (str_size data) p1).
  - rewrite Hone. unfold WriteBytes. specialize (Hsize data).
    rewrite wrap_u_id by (unfold in_u; lia). reflexivity.
Qed.

Lemma write_values_segments fresh vs p :
  Forall valid_value vs -> write_values fresh vs p = write_segments fresh (flat_map segments vs) p.
Proof.
  intros Hvs. revert p. induction Hvs as [|v vs Hv _ IH]; intros p; [done|].
  cbn [write_values flat_map]. rewrite write_segments_app, write_value_segments by done.
  destruct (write_segments _ _ _); cbn [mbind option_bind]; [apply IH|done].
Qed.

(** ** Reading back *)

(** The iterator stands in front of what was written as [segs]. *)
Definition it_at (it : PickleIterator) (segs : list (list Z)) : Prop :=
  match segs with
  | [] => True
  | _ => exists pre post, block it = Some (pre ++ wire segs ++ post) /\
           read_ptr_ it = Z.of_nat (length pre) /\
           read_end_ptr_ it = Z.of_nat (length pre) + wire_size segs
  end.

Lemma wire_cons s segs : exists rest, wire (s :: segs) = s ++ rest.
Proof.
  destruct segs as [|s2 segs].
  - exists []. by rewrite app_nil_r.
  - cbn [wire]. unfold pad. eexists. by rewrite <- app_assoc.
Qed.

(** Reading a segment moves to the next one. *)
Lemma it_at_next it s segs :
  it_at it (s :: segs) ->
  it_at (it <| read_ptr_ := read_ptr_ it + Z.of_nat (length (pad s)) |>) segs.
Proof.
  intros (pre & post & Hb & Hp & He). destruct segs as [|s2 segs]; [done|].
  exists (pre ++ pad s), post. cbn [wire] in Hb. cbn. rewrite Hb, Hp, He.
  unfold wire_size. cbn [wire]. rewrite !length_app, <- !app_assoc. split; [done|]. split; lia.
Qed.

Lemma fetch_segment get it s segs size :
  it_at it (s :: segs) -> Z.of_nat (length s) < 2 ^ 31 -> size = Z.of_nat (length s) ->
  get it = GetReadPointerOfBytes size it \/
  get it = GetReadPointerOfType size it /\ (size < 4 \/ aligned size) ->
  exists it', fetch size get it = Some (Some s, it') /\ it_at it' segs.
Proof.
  intros Hit Hs -> Hget. pose proof (it_at_next it s segs Hit) as Hn.
  destruct Hit as (pre & post & Hb & Hp & He). destruct (wire_cons s segs) as [rest Ew].
  assert (Z.of_nat (length s) <= wire_size (s :: segs))
    by (unfold wire_size; rewrite Ew, length_app; lia).
  destruct (AlignInt_4 (Z.of_nat (length s))) as (Ea & Hpad & _ & Hal); [lia|].
  assert (Hgot : get it = (Some (read_ptr_ it),
    it <| read_ptr_ := read_ptr_ it + Z.of_nat (length (pad s)) |>)).
  { rewrite length_pad. destruct Hget as [-> | [-> Hsz]].
    - unfold GetReadPointerOfBytes, current_read_ptr. rewrite Hb, Ea.
      by replace (_ || _) with false by lia.
    - unfold GetReadPointerOfType, current_read_ptr. rewrite Hb, Ea.
      replace (read_end_ptr_ it <? read_ptr_ it + Z.of_nat (length s)) with false by lia.
      destruct (Z.ltb_spec (Z.of_nat (length s)) 4); [done|].
      destruct Hsz as [?|Hsz]; [lia|]. rewrite (Hal Hsz), Z.add_0_r. done. }
  eexists. split; [|exact Hn]. unfold fetch. rewrite Hgot, Hb, Hp, Ew. cbn [mbind option_bind].
  rewrite <- app_assoc. rewrite load_app by done. done.
Qed.

(** What [r] returns in front of [segs], and where it leaves the iterator. *)
Definition reads {A} (r : Read A) (segs : list (list Z)) (a : A) : Prop :=
  forall it rest, it_at it (segs ++ rest) ->
    exists it', r it = Some (Some a, it') /\ it_at it' rest.

Lemma reads_ret {A} (a : A) : reads (mret a) [] a.
Proof. intros it rest Hit. by exists it. Qed.

Lemma reads_bind {A B} (r : Read A) (f : A -> Read B) segs1 segs2 a b :
  reads r segs1 a -> reads (f a) segs2 b -> reads (r ≫= f) (segs1 ++ segs2) b.
Proof.
  intros Hr Hf it rest Hit. rewrite <- app_assoc in Hit.
  destruct (Hr it _ Hit) as (it1 & E1 & H1). destruct (Hf it1 _ H1) as (it2 & E2 & H2).
  exists it2. split; [|done]. unfold mbind, Read_bind. by rewrite E1.
Qed.

(** A method that computes its result from what another one read. *)
Lemma reads_map {A B} (r : Read A) (g : A -> B) segs a b :
  reads r segs a -> g a = b -> reads (a ← r; mret (g a)) segs b.
Proof.
  intros Hr <-. rewrite <- (app_nil_r segs). eapply reads_bind; [exact Hr|apply reads_ret].
Qed.

Lemma reads_type size s :
  size = Z.of_nat (length s) -> size < 4 \/ size = 4 \/ size = 8 ->
  reads (ReadBuiltinType size) [s] s.
Proof.
  intros Hs Hsize it rest Hit. apply (fetch_segment _ it s rest); [done|lia|done|].
  right. split; [done|]. unfold aligned. destruct Hsize as [?|[->| ->]]; [by left|by right..].
Qed.

Lemma reads_bytes len s :
  len = Z.of_nat (length s) -> len < 2 ^ 31 -> reads (ReadBytes len) [s] s.
Proof.
  intros Hs Hlen it rest Hit. apply (fetch_segment _ it s rest); [done|lia|done|]. by left.
Qed.

Lemma GetReadPointerOfElements_small n size it :
  0 < size < 2 ^ 31 -> 0 <= n -> n * size < 2 ^ 31 ->
  GetReadPointerOfElements n size it = GetReadPointerOfBytes (n * size) it.
Proof.
  intros Hsize Hn Hs. unfold GetReadPointerOfElements.
  assert (n < 2 ^ 31) by nia. rewrite (s64_id n) by lia.
  rewrite (wrap_u_id 64 n) by (unfold in_u; lia).
  rewrite wrap_u_id by (unfold in_u; lia). rewrite s64_id by lia. rewrite s32_id by lia.
  by rewrite Z.eqb_refl.
Qed.

Lemma reads_elements n size s :
  0 < size < 2 ^ 31 -> 0 <= n -> n * size < 2 ^ 31 -> n * size = Z.of_nat (length s) ->
  reads (fetch (n * size) (GetReadPointerOfElements n size)) [s] s.
Proof.
  intros Hsize Hn Hs Hl it rest Hit. apply (fetch_segment _ it s rest); [done|lia|done|].
  left. by apply GetReadPointerOfElements_small.
Qed.

Lemma reads_int z : in_s 32 z -> reads ReadInt [to_bytes 4 z] z.
Proof.
  intros Hz. unfold ReadInt. eapply reads_map.
  - apply reads_type; [by rewrite length_to_bytes|lia].
  - by apply (of_to_bytes_signed 32 4).
Qed.

(** The sizes of what was written come back before it. *)
Lemma reads_sized {B} (f : Z -> Read B) n segs b :
  0 <= n < 2 ^ 31 -> reads (f n) segs b -> reads (len ← ReadInt; f len) (to_bytes 4 n :: segs) b.
Proof.
  intros Hn Hf. change (?s :: segs) with ([s] ++ segs). eapply reads_bind; [|exact Hf].
  apply reads_int. unfold in_s. lia.
Qed.

Lemma elements_units size s :
  Forall (fun c => 0 <= c < 256 ^ Z.of_nat size) s ->
  elements size (length s) (flat_map (to_bytes size) s) = s.
Proof.
  induction 1 as [|c s Hc _ IH]; [done|]. cbn [length elements flat_map].
  pose proof (length_to_bytes size c) as Hl.
  rewrite take_app_length', drop_app_length' by done. by rewrite of_to_bytes, IH.
Qed.

(** The first byte of an [int] that holds a [bool]. *)
Lemma reads_bool (b : bool) : reads ReadBool [to_bytes 4 (if b then 1 else 0)] b.
Proof.
  intros it rest Hit. cbn [app] in Hit. set (s := to_bytes 4 (if b then 1 else 0)) in *.
  pose proof (it_at_next it _ _ Hit) as Hn. destruct Hit as (pre & post & Hb & Hp & He).
  destruct (wire_cons s rest) as [tail Ew].
  assert (4 <= wire_size (s :: rest)) by (unfold wire_size; rewrite Ew, length_app; cbn; lia).
  eexists. split; [|exact Hn].
  unfold ReadBool, mbind, Read_bind, ReadBuiltinType, fetch, GetReadPointerOfType, current_read_ptr.
  replace (read_end_ptr_ it <? read_ptr_ it + 1) with false by lia.
  rewrite Hb, Ew, <- app_assoc. cbn [mbind option_bind].
  replace s with ((if b then [1] else [0]) ++ [0; 0; 0]) by (by destruct b).
  rewrite <- app_assoc. rewrite load_app by (by destruct b). cbn [mbind option_bind].
  by destruct b.
Qed.

(** The read that matches a value. *)
Definition kind_of (v : Value) : Kind :=
  match v with
  | VBool _ => KBool | VInt _ => KInt | VLong _ => KLong | VUInt16 _ => KUInt16
  | VUInt32 _ => KUInt32 | VInt64 _ => KInt64 | VUInt64 _ => KUInt64 | VFloat _ => KFloat
  | VString _ => KString | VWString _ => KWString | VString16 _ => KString16 | VData _ => KData
  | VBytes s => KBytes (str_size s)
  end.

Lemma reads_unsigned size w z :
  w = 8 * Z.of_nat size -> (size = 2 \/ size = 4 \/ size = 8)%nat -> in_u w z ->
  reads (bytes ← ReadBuiltinType (Z.of_nat size); mret (of_bytes bytes)) [to_bytes size z] z.
Proof.
  intros -> Hsize Hz. eapply reads_map.
  - apply reads_type; [by rewrite length_to_bytes|lia].
  - apply of_to_bytes. unfold in_u in Hz. rewrite Z.pow_mul_r in Hz by lia. exact Hz.
Qed.

Lemma reads_signed8 z :
  in_s 64 z -> reads (bytes ← ReadBuiltinType 8; mret (s64 (of_bytes bytes))) [to_bytes 8 z] z.
Proof.
  intros Hz. eapply reads_map.
  - apply reads_type; [by rewrite length_to_bytes|lia].
  - by apply (of_to_bytes_signed 64 8).
Qed.

Lemma reads_value v : valid_value v -> reads (read_value (kind_of v)) (segments v) v.
Proof.
  assert (Hsize : forall s : list Z, 0 <= str_size s) by (intros; unfold str_size; lia).
  destruct v as [b|z|z|z|z|z|z|s|s|s|s|s|s]; cbn [read_value kind_of segments valid_value];
    intros Hv; (eapply reads_map; [|reflexivity]); try specialize (Hsize s).
  - apply reads_bool.
  - by apply reads_int.
  - by apply reads_signed8.
  - by apply (reads_unsigned 2 16); [|left|].
  - by apply (reads_unsigned 4 32); [|right; left|].
  - by apply reads_signed8.
  - by apply (reads_unsigned 8 64); [|right; right|].
  - apply reads_type; lia.
  - apply reads_sized; [lia|]. by apply reads_bytes.
  - destruct Hv as [Hs Hc]. apply reads_sized; [lia|]. eapply reads_map.
    { apply (reads_elements _ _ (flat_map (to_bytes 4) s)); rewrite ?length_units; unfold str_size in *; lia. }
    unfold str_size. rewrite Nat2Z.id. by apply elements_units.
  - destruct Hv as [Hs Hc]. apply reads_sized; [lia|]. eapply reads_map.
    { apply (reads_elements _ _ (flat_map (to_bytes 2) s)); rewrite ?length_units; unfold str_size in *; lia. }
    unfold str_size. rewrite Nat2Z.id. by apply elements_units.
  - apply reads_sized; [lia|]. by apply reads_bytes.
  - by apply reads_bytes.
Qed.

Lemma reads_values vs :
  Forall valid_value vs -> reads (read_values (map kind_of vs)) (flat_map segments vs) vs.
Proof.
  induction 1 as [|v vs Hv _ IH]; [apply reads_ret|]. cbn [map read_values flat_map].
  eapply reads_bind; [by apply reads_value|]. by eapply reads_map.
Qed.

(** ** What a written pickle holds *)

(** The bytes of a pickle with these segments. *)
Definition message (segs : list (list Z)) : list Z := to_bytes 4 (wire_size segs) ++ wire segs.

Lemma length_message segs : Z.of_nat (length (message segs)) = 4 + wire_size segs.
Proof. unfold message. rewrite length_app, length_to_bytes. unfold wire_size. lia. Qed.

Lemma wire_size_le segs : 0 <= wire_size segs <= padded_size segs.
Proof.
  destruct (wire_prefix segs) as [zeros E]. unfold wire_size, padded_size. rewrite E, length_app. lia.
Qed.

Lemma written_data fresh vs :
  Forall valid_value vs -> padded_size (flat_map segments vs) + 4 < 2 ^ 32 ->
  exists p, (new_Pickle fresh ≫= write_values fresh vs) = Some p /\
    data p = Some (message (flat_map segments vs)).
Proof.
  intros Hvs Hsize. set (segs := flat_map segments vs) in *.
  destruct (new_Pickle_spec fresh) as (p0 & spare0 & -> & H0 & E0). cbn [mbind option_bind].
  rewrite write_values_segments by done. fold segs.
  destruct (write_segments_spec fresh segs p0 _ _ _ _ H0) as (p & spare & -> & Hp & Eh);
    [cbn [length]; lia|].
  exists p. split; [done|]. cbn [length app] in Hp.
  replace (match segs with [] => 0 | _ => Z.of_nat 0 + wire_size segs end) with (wire_size segs) in Hp
    by (destruct segs; [done|lia]).
  destruct Hp as [Hb Hn Hh Hc Ho]. pose proof (wire_size_le segs).
  unfold data, size, get_payload_size. rewrite Hb. cbn [mbind option_bind].
  rewrite load_head by (by rewrite length_to_bytes). cbn [mbind option_bind fmap option_fmap option_map].
  rewrite of_to_bytes by lia. rewrite wrap_u_id by (unfold in_u; lia).
  destruct (wire_prefix segs) as [zeros ->]. cbn [app]. unfold message.
  rewrite <- app_assoc, app_assoc. apply load_head.
  rewrite length_app, length_to_bytes. unfold wire_size in *. lia.
Qed.

Lemma Pickle_of_message segs :
  wire_size segs + 4 < 2 ^ 31 ->
  exists q it, Pickle_of_data (message segs) (Z.of_nat (length (message segs))) = Some q /\
    new_PickleIterator q = Some it /\ it_at it segs.
Proof.
  intros Hs. pose proof (length_message segs) as Hl. assert (0 <= wire_size segs) by (unfold wire_size; lia).
  assert (Hload : load (message segs) 0 4 = Some (to_bytes 4 (wire_size segs)))
    by (apply load_head; by rewrite length_to_bytes).
  exists (mkPickle (Some (message segs)) 4 kCapacityReadOnly 0),
    (mkPickleIterator (Some (message segs)) 4 (4 + wire_size segs)).
  split; [|split].
  - unfold Pickle_of_data. rewrite Hl. unfold sizeof_Header. replace (4 <=? 4 + wire_size segs) with true by lia.
    rewrite Hload. cbn [mbind option_bind fmap option_fmap option_map]. rewrite of_to_bytes by lia.
    replace (4 + wire_size segs - wire_size segs) with 4 by lia. change (u32 4) with 4.
    rewrite wrap_u_id by (unfold in_u; lia). by replace (4 + wire_size segs <? 4) with false by lia.
  - unfold new_PickleIterator, get_payload_size. cbn [header_ header_size_ mbind option_bind].
    rewrite Hload. cbn [mbind option_bind fmap option_fmap option_map]. by rewrite of_to_bytes by lia.
  - destruct segs as [|s segs]; [done|]. exists (to_bytes 4 (wire_size (s :: segs))), [].
    cbn [block read_ptr_ read_end_ptr_]. rewrite app_nil_r, length_to_bytes. done.
Qed.

(** Values are read as they were written. *)
Lemma values_are_read_back fresh vs :
  Forall valid_value vs -> padded_size (flat_map segments vs) + 4 < 2 ^ 31 ->
  exists p d q it it',
    (new_Pickle fresh ≫= write_values fresh vs) = Some p /\ data p = Some d /\
    Pickle_of_data d (Z.of_nat (length d)) = Some q /\ new_PickleIterator q = Some it /\
    read_values (map kind_of vs) it = Some (Some vs, it').
Proof.
  intros Hvs Hs. destruct (written_data fresh vs Hvs) as (p & Ep & Ed); [lia|].
  pose proof (wire_size_le (flat_map segments vs)).
  destruct (Pickle_of_message (flat_map segments vs)) as (q & it & Eq & Ei & Hit); [lia|].
  destruct (reads_values vs Hvs it []) as (it' & Er & _); [by rewrite app_nil_r|].
  exists p, (message (flat_map segments vs)), q, it, it'. done.
Qed.
