(* ===== verification/PickleSafety.v ===== *)
(** Reading a pickle from memory that may hold anything stays inside that
    memory; finding where a pickle ends in a stream; and what copying a pickle
    does to the bytes that follow. *)
From S2P Require Import Prelude CArrays Memory Pickle PickleProperties.
From Stdlib Require Import ZifyBool.

(** ** Memory safety of reading *)

(** The readable part lies inside the block. *)
Definition it_ok (it : PickleIterator) : Prop :=
  0 <= read_ptr_ it /\
  match block it with Some b => read_end_ptr_ it <= Z.of_nat (length b) | None => True end.

(** [r] never leaves the block, and keeps the iterator that way. *)
Definition safe {A} (r : Read A) : Prop :=
  forall it, it_ok it -> passes (r it) (fun '(_, it') => it_ok it').

Lemma safe_ret {A} (a : A) : safe (mret a).
Proof. intros it Hit. exact Hit. Qed.

Lemma safe_bind {A B} (r : Read A) (f : A -> Read B) :
  safe r -> (forall a, safe (f a)) -> safe (r ≫= f).
Proof.
  intros Hr Hf it Hit. specialize (Hr it Hit). unfold mbind, Read_bind.
  destruct (r it) as [[[a|] it']|]; [|exact Hr|done]. apply Hf, Hr.
Qed.

(** The three ways of getting a pointer check that the bytes are there. *)
Definition gets (size : Z) (get : PickleIterator -> option Z * PickleIterator) : Prop :=
  forall it, it_ok it ->
    let '(ptr, it') := get it in
    it_ok it' /\
    match ptr with
    | Some offset => block it <> None /\ 0 <= size /\ 0 <= offset /\ offset + size <= read_end_ptr_ it
    | None => True
    end.

Lemma safe_fetch size get : gets size get -> safe (fetch size get).
Proof.
  intros Hg it Hit. specialize (Hg it Hit). unfold fetch.
  destruct (get it) as [[ptr|] it']; [|exact (proj1 Hg)].
  destruct Hg as (H' & Hb & Hs & Hp & He). destruct Hit as [_ Hend].
  destruct (block it) as [b|]; [|done]. cbn [mbind option_bind].
  destruct (load_total b ptr size) as [bytes ->]; [lia..|]. exact H'.
Qed.

Lemma it_ok_advance it n : it_ok it -> 0 <= n -> it_ok (it <| read_ptr_ := read_ptr_ it + n |>).
Proof. intros [Hp Hb] Hn. split; [cbn; lia|exact Hb]. Qed.

Lemma AlignInt_nonneg i n : 0 <= AlignInt i n.
Proof. apply (wrap_u_range 64). lia. Qed.

Lemma gets_type size : 0 <= size -> gets size (GetReadPointerOfType size).
Proof.
  intros Hs it Hit. unfold GetReadPointerOfType, current_read_ptr.
  pose proof (AlignInt_nonneg size 4).
  destruct (Z.ltb_spec (read_end_ptr_ it) (read_ptr_ it + size)); [done|].
  split; [case_if; by apply it_ok_advance|]. destruct Hit as [Hp Hb]. by destruct (block it).
Qed.

Lemma gets_bytes size : gets size (GetReadPointerOfBytes size).
Proof.
  intros it Hit. unfold GetReadPointerOfBytes, current_read_ptr. pose proof (AlignInt_nonneg size 4).
  case_if; [done|]. to_prop. split; [by apply it_ok_advance|].
  destruct Hit as [Hp Hb]. destruct (block it); [|done]. repeat split; [done|lia..].
Qed.

Lemma wrap_s_mod w a b :
  0 < w -> a mod 2 ^ w = b mod 2 ^ w -> wrap_s w a = wrap_s w b.
Proof. intros Hw E. unfold wrap_s. by rewrite <- Zplus_mod_idemp_l, E, Zplus_mod_idemp_l. Qed.

Lemma gets_elements n size :
  in_s 32 n -> 0 < size < 2 ^ 31 -> gets (n * size) (GetReadPointerOfElements n size).
Proof.
  intros Hn Hs. unfold in_s in Hn. intros it Hit. unfold GetReadPointerOfElements.
  rewrite (s64_id n) by lia.
  replace (s64 (u64 (u64 n * size))) with (n * size).
  2:{ rewrite <- (s64_id (n * size)) by nia. apply wrap_s_mod; [lia|]. unfold wrap_u.
      by rewrite Z.mod_mod, Z.mul_mod_idemp_l by lia. }
  destruct (Z.eqb_spec (n * size) (s32 (n * size))) as [E|E]; [|done].
  cbn [negb]. rewrite <- E. by apply gets_bytes.
Qed.

Lemma safe_builtin size : 0 <= size -> safe (ReadBuiltinType size).
Proof. intros Hs. by apply safe_fetch, gets_type. Qed.

Lemma safe_bytes len : safe (ReadBytes len).
Proof. apply safe_fetch, gets_bytes. Qed.

Create HintDb pickle.
#[export] Hint Resolve safe_ret safe_bind safe_builtin safe_bytes : pickle.

Lemma safe_ReadInt : safe ReadInt.
Proof. apply safe_bind; [apply safe_builtin; lia|]. auto with pickle. Qed.

(** A length that [ReadInt] returned is an [int]. *)
Lemma safe_sized {B} (f : Z -> Read B) :
  (forall n, in_s 32 n -> safe (f n)) -> safe (len ← ReadInt; f len).
Proof.
  intros Hf it Hit. pose proof (safe_builtin 4 ltac:(lia) it Hit) as H4.
  unfold ReadInt, mbind, Read_bind in *.
  destruct (ReadBuiltinType 4 it) as [[[bytes|] it']|]; [|exact H4|done].
  apply Hf; [|exact H4]. apply wrap_s_range. lia.
Qed.

Lemma safe_value k : safe (read_value k).
Proof.
  destruct k; cbn [read_value]; (apply safe_bind; [|auto with pickle]);
    try (apply safe_bind; [apply safe_builtin; lia|auto with pickle]).
  - apply safe_builtin. lia.
  - apply safe_sized. intros n _. apply safe_bytes.
  - apply safe_sized. intros n Hn. apply safe_bind; [|auto with pickle].
    apply safe_fetch, gets_elements; [done|lia].
  - apply safe_sized. intros n Hn. apply safe_bind; [|auto with pickle].
    apply safe_fetch, gets_elements; [done|lia].
  - apply safe_sized. intros n _. apply safe_bytes.
  - apply safe_bytes.
Qed.

Lemma safe_values ks : safe (read_values ks).
Proof.
  induction ks as [|k ks IH]; [apply safe_ret|]. cbn [read_values].
  apply safe_bind; [apply safe_value|]. intros v. apply safe_bind; [exact IH|auto with pickle].
Qed.

Lemma load_word block offset :
  Forall is_byte block -> 0 <= offset -> offset + 4 <= Z.of_nat (length block) ->
  exists bytes, load block offset 4 = Some bytes /\ 0 <= of_bytes bytes < 2 ^ 32.
Proof.
  intros Hb Ho Hl. unfold load. replace (_ && _) with true by lia. eexists. split; [done|].
  set (bytes := take (Z.to_nat 4) (drop (Z.to_nat offset) block)).
  assert (length bytes = 4%nat) as E.
  { unfold bytes. rewrite length_take, length_drop. lia. }
  pose proof (of_bytes_range bytes) as H. rewrite E in H. apply H. by apply Forall_take, Forall_drop.
Qed.

(** The header of a foreign pickle is believed only when it fits its block. *)
Lemma foreign_iterator block :
  Forall is_byte block -> Z.of_nat (length block) < 2 ^ 31 ->
  exists q it, Pickle_of_data block (Z.of_nat (length block)) = Some q /\
    new_PickleIterator q = Some it /\ it_ok it.
Proof.
  intros Hb Hl. set (n := Z.of_nat (length block)) in *. unfold Pickle_of_data, sizeof_Header.
  destruct (Z.leb_spec 4 n) as [H4|H4].
  2:{ cbn [mbind option_bind]. rewrite wrap_u_id by (unfold in_u; lia).
      replace (n <? 0) with false by lia.
      exists (mkPickle None 0 kCapacityReadOnly 0), (mkPickleIterator None 0 0). done. }
  destruct (load_word block 0 Hb) as (bytes & E & Hw); [lia..|]. rewrite E.
  cbn [mbind option_bind fmap option_fmap option_map]. rewrite (wrap_u_id 32 n) by (unfold in_u; lia).
  set (h := u32 (n - of_bytes bytes)).
  assert (0 <= h < 2 ^ 32) by (apply wrap_u_range; lia).
  set (h1 := if n <? h then 0 else h). set (h2 := if negb (h1 =? AlignInt h1 4) then 0 else h1).
  assert (h2 = 0 \/ h2 = h /\ h <= n) as [-> | [-> Hh]] by (unfold h2, h1; destruct (Z.ltb_spec n h), (negb _); auto).
  { exists (mkPickle None 0 kCapacityReadOnly 0), (mkPickleIterator None 0 0). done. }
  destruct (Z.eqb_spec h 0) as [E0|E0]; [rewrite E0; by exists (mkPickle None 0 kCapacityReadOnly 0),
    (mkPickleIterator None 0 0)|].
  exists (mkPickle (Some block) h kCapacityReadOnly 0),
    (mkPickleIterator (Some block) h (h + of_bytes bytes)).
  split; [done|]. split.
  - unfold new_PickleIterator, get_payload_size. cbn [header_ header_size_ mbind option_bind].
    by rewrite E.
  - split; cbn [read_ptr_ read_end_ptr_ Pickle.block]; [lia|]. fold n.
    destruct (Z.le_gt_cases (of_bytes bytes) n).
    + unfold h. rewrite wrap_u_id; [lia|]. unfold in_u. lia.
    + exfalso. revert Hh. unfold h, wrap_u.
      rewrite <- (Z.mod_add _ 1), Z.mod_small by lia. lia.
Qed.

(** C19. Reading never leaves the memory of a pickle: from any bytes received,
    with any sizes in them, any sequence of reads, whatever types and lengths
    it asks for, ends without reading a byte outside, each read with a value or
    with false. *)
Theorem reading_is_safe block ks :
  Forall is_byte block -> Z.of_nat (length block) < 2 ^ 31 ->
  exists q it result it', Pickle_of_data block (Z.of_nat (length block)) = Some q /\
    new_PickleIterator q = Some it /\ read_values ks it = Some (result, it').
Proof.
  intros Hb Hl. destruct (foreign_iterator block Hb Hl) as (q & it & Eq & Ei & Hit).
  destruct (passes_Some _ _ (safe_values ks it Hit)) as ((r & it') & Er & _). eauto 10.
Qed.

Lemma reading_is_safe_witness :
  let block := [8; 0; 0; 0; 255; 255; 255; 127; 1; 2; 3; 4] in
  Forall is_byte block /\ Z.of_nat (length block) < 2 ^ 31 /\
  exists q it result it', Pickle_of_data block (Z.of_nat (length block)) = Some q /\
    new_PickleIterator q = Some it /\ read_values [KString; KInt] it = Some (result, it').
Proof.
  intros block. assert (Hb : Forall is_byte block) by (repeat constructor; unfold is_byte; lia).
  assert (Hl : Z.of_nat (length block) < 2 ^ 31) by (vm_compute; reflexivity).
  split; [exact Hb|]. split; [exact Hl|]. exact (reading_is_safe block [KString; KInt] Hb Hl).
Defined.

(** ** Framing *)

Lemma FindNext_word range w :
  Forall is_byte range -> 4 <= Z.of_nat (length range) < 2 ^ 63 ->
  load range 0 4 = Some w ->
  FindNext 4 range =
    Some (if Z.of_nat (length range) - 4 <? of_bytes w then None else Some (4 + of_bytes w)).
Proof.
  intros Hb Hl Ew. unfold FindNext, sizeof_Header. rewrite !DCHECK_bind.
  change (4 =? AlignInt 4 4) with true. change (4 <=? kPayloadUnit) with true. cbn [negb].
  replace (Z.of_nat (length range) <? 4) with false by lia. rewrite Ew.
  cbn [mbind option_bind fmap option_fmap option_map].
  rewrite wrap_u_id by (unfold in_u; lia). cbn [orb]. by destruct (_ <? _).
Qed.

Lemma message_byte segs : Forall (Forall is_byte) segs -> Forall is_byte (message segs).
Proof.
  intros Hs. apply Forall_app. split; [apply to_bytes_byte|].
  destruct (wire_prefix segs) as [zeros E].
  assert (Forall is_byte (flat_map pad segs)) as H; [|rewrite E in H; apply Forall_app in H as [H _]; exact H].
  clear E. induction Hs as [|s segs Hs _ IH]; [done|]. cbn [flat_map]. apply Forall_app. split; [|done].
  apply Forall_app. split; [done|]. apply Forall_forall. intros b Hb.
  apply list_elem_of_In, repeat_spec in Hb. subst. unfold is_byte. lia.
Qed.

(** A written pickle is found in front of other bytes. *)
Lemma FindNext_finds fresh vs rest :
  Forall valid_value vs -> Forall (Forall is_byte) (flat_map segments vs) -> Forall is_byte rest ->
  padded_size (flat_map segments vs) + 4 < 2 ^ 31 -> Z.of_nat (length rest) < 2 ^ 32 ->
  exists p d, (new_Pickle fresh ≫= write_values fresh vs) = Some p /\ data p = Some d /\
    FindNext 4 (d ++ rest) = Some (Some (Z.of_nat (length d))) /\
    forall k, (k < length d)%nat -> FindNext 4 (take k d) = Some None.
Proof.
  intros Hvs Hb Hr Hs Hl. destruct (written_data fresh vs Hvs) as (p & Ep & Ed); [lia|].
  set (segs := flat_map segments vs) in *. exists p, (message segs).
  pose proof (length_message segs) as El. pose proof (wire_size_le segs) as Hw.
  pose proof (message_byte segs Hb) as Hm.
  assert (Hword : of_bytes (to_bytes 4 (wire_size segs)) = wire_size segs) by (apply of_to_bytes; lia).
  split; [done|]. split; [done|]. split.
  - rewrite (FindNext_word _ (to_bytes 4 (wire_size segs))); rewrite ?Hword, ?length_app.
    + replace (_ <? _) with false by lia. f_equal. f_equal. lia.
    + by apply Forall_app.
    + lia.
    + unfold message. rewrite <- app_assoc. apply load_head. by rewrite length_to_bytes.
  - intros k Hk. assert (Ek : Z.of_nat (length (take k (message segs))) = Z.of_nat k)
      by (rewrite length_take; lia).
    destruct (Z.le_gt_cases 4 (Z.of_nat k)).
    + rewrite (FindNext_word _ (to_bytes 4 (wire_size segs))); rewrite ?Hword, ?Ek.
      * by replace (_ <? _) with true by lia.
      * by apply Forall_take.
      * lia.
      * unfold message. rewrite take_app_ge by (rewrite length_to_bytes; lia).
        apply load_head. by rewrite length_to_bytes.
    + unfold FindNext. rewrite !DCHECK_bind, Ek.
      change (4 =? AlignInt 4 4) with true. change (4 <=? kPayloadUnit) with true.
      unfold sizeof_Header. by replace (Z.of_nat k <? 4) with true by lia.
Qed.

(** C20. Values survive pickling: whatever sequence of values is written to a
    new pickle, whatever was in the memory it allocated, sending the bytes of
    [data()] and reading the same types in the same order from a pickle made of
    those bytes gives the values back. A stream of pickles is cut where each
    ends: in front of any bytes that follow it, the pickle is found to end at
    its own size, and as long as a byte of it is missing no end is found. *)
Theorem pickle_roundtrip fresh vs :
  Forall valid_value vs -> Forall (Forall is_byte) (flat_map segments vs) ->
  padded_size (flat_map segments vs) + 4 < 2 ^ 31 ->
  exists p d q it it',
    (new_Pickle fresh ≫= write_values fresh vs) = Some p /\ data p = Some d /\
    Pickle_of_data d (Z.of_nat (length d)) = Some q /\ new_PickleIterator q = Some it /\
    read_values (map kind_of vs) it = Some (Some vs, it') /\
    (forall rest, Forall is_byte rest -> Z.of_nat (length rest) < 2 ^ 32 ->
       FindNext 4 (d ++ rest) = Some (Some (Z.of_nat (length d)))) /\
    forall k, (k < length d)%nat -> FindNext 4 (take k d) = Some None.
Proof.
  intros Hvs Hb Hs. destruct (values_are_read_back fresh vs Hvs Hs) as (p & d & q & it & it' & Ep & Ed & Eq & Ei & Er).
  assert (Hfind : forall rest, Forall is_byte rest -> Z.of_nat (length rest) < 2 ^ 32 ->
    FindNext 4 (d ++ rest) = Some (Some (Z.of_nat (length d))) /\
    forall k, (k < length d)%nat -> FindNext 4 (take k d) = Some None).
  { intros rest Hr Hl. destruct (FindNext_finds fresh vs rest Hvs Hb Hr Hs Hl) as (p' & d' & Ep' & Ed' & Hf).
    assert (p' = p) as -> by congruence. by assert (d' = d) as -> by congruence. }
  exists p, d, q, it, it'. do 5 (split; [done|]). split.
  - intros rest Hr Hl. by apply Hfind.
  - by apply (Hfind []).
Qed.

Lemma pickle_roundtrip_witness :
  let vs := [VString (str "key"); VInt (-5); VBool true; VString16 [8364]; VBytes [1; 2; 3]] in
  Forall valid_value vs /\ Forall (Forall is_byte) (flat_map segments vs) /\
  exists p d q it it',
    (new_Pickle (fun _ => 77) ≫= write_values (fun _ => 77) vs) = Some p /\ data p = Some d /\
    Pickle_of_data d (Z.of_nat (length d)) = Some q /\ new_PickleIterator q = Some it /\
    read_values (map kind_of vs) it = Some (Some vs, it') /\
    (forall rest, Forall is_byte rest -> Z.of_nat (length rest) < 2 ^ 32 ->
       FindNext 4 (d ++ rest) = Some (Some (Z.of_nat (length d)))) /\
    forall k, (k < length d)%nat -> FindNext 4 (take k d) = Some None.
Proof.
  intros vs. assert (Hv : Forall valid_value vs) by (repeat constructor; unfold in_s, in_u; cbn; lia).
  assert (Hb : Forall (Forall is_byte) (flat_map segments vs))
    by (apply (bool_decide_unpack _); vm_compute; exact I).
  split; [exact Hv|]. split; [exact Hb|].
  apply (pickle_roundtrip (fun _ => 77) vs Hv Hb). vm_compute. reflexivity.
Defined.

(** ** Copies *)

(** The copy constructor copies the bytes that [size()] counts and the write
    offset, which lies behind the padding those bytes do not include: what is
    written to the copy leaves three bytes of the allocator in the message. *)
Lemma copy_leaks_padding fresh :
  (p ← new_Pickle fresh; p ← write_values fresh [VString (str "h")] p; p ← copy_Pickle fresh p;
   p ← write_value fresh (VInt 3) p; data p) =
  Some [12; 0; 0; 0; 1; 0; 0; 0; 104; fresh 9%nat; fresh 10%nat; fresh 11%nat; 3; 0; 0; 0].
Proof. vm_compute. reflexivity. Qed.
