(* ===== verification/QuicFecGroup.v ===== *)
(** Forward error correction of QUIC, net/quic/quic_fec_group.{h,cc}: the
    parity of a group of packets, kept alike by the side that sends it and by
    the side that gets back a lost packet from it. *)
From stdpp Require Import gmap sets.
From S2P Require Import Prelude.

(* src: net/quic/quic_protocol.h 52-52! kMaxPacketSize *)
Definition kMaxPacketSize : nat := Z.to_nat 1472.
#[global] Arguments kMaxPacketSize : simpl never.
(* src: net/quic/quic_fec_group.cc 18-18! kNoSequenceNumber *)
Definition kNoSequenceNumber : Z := 2 ^ 64 - 1.

(** What the group reads and writes of a packet header. *)
Record QuicPacketHeader := mkQuicPacketHeader {
  packet_sequence_number : Z;
  entropy_flag : bool
}.
#[export] Instance eta_QuicPacketHeader : Eta QuicPacketHeader := fun h =>
  mkQuicPacketHeader (packet_sequence_number h) (entropy_flag h).

(* src: net/quic/quic_protocol.h 731-739! QuicFecData *)
Record QuicFecData := mkQuicFecData {
  fec_group : Z;
  redundancy : list Z
}.

(* src: net/quic/quic_fec_group.h 79-91! QuicFecGroup *)
Record QuicFecGroup := mkQuicFecGroup {
  received_packets_ : gset Z;
  min_protected_packet_ : Z;
  max_protected_packet_ : Z;
  payload_parity_ : list Z;
  payload_parity_len_ : nat;
  entropy_parity_ : bool
}.
#[export] Instance eta_QuicFecGroup : Eta QuicFecGroup := fun g =>
  mkQuicFecGroup (received_packets_ g) (min_protected_packet_ g) (max_protected_packet_ g)
    (payload_parity_ g) (payload_parity_len_ g) (entropy_parity_ g).

(** The constructor leaves the parity array as it finds the memory. *)
(* src: net/quic/quic_fec_group.cc 21-26! QuicFecGroup::QuicFecGroup *)
Definition new_QuicFecGroup (memory : list Z) : QuicFecGroup :=
  mkQuicFecGroup ∅ kNoSequenceNumber kNoSequenceNumber memory 0 false.

(* src: net/quic/quic_fec_group.h 56-58 payload_parity *)
Definition payload_parity (g : QuicFecGroup) : list Z :=
  take (payload_parity_len_ g) (payload_parity_ g).
(* src: net/quic/quic_fec_group.h 68-70 NumReceivedPackets *)
Definition NumReceivedPackets (g : QuicFecGroup) : nat := size (received_packets_ g).

(** The payload on the width of the parity array. *)
Definition padded (payload : list Z) : list Z :=
  payload ++ replicate (kMaxPacketSize - length payload) 0.

(* src: net/quic/quic_fec_group.cc 150-153! UpdateParity *)
Definition xor_bytes : list Z -> list Z -> list Z := zip_with Z.lxor.

(* src: net/quic/quic_fec_group.cc 127-157 UpdateParity *)
Definition UpdateParity (payload : list Z) (entropy : bool) (g : QuicFecGroup)
    : option (bool * QuicFecGroup) :=
  DCHECK (length payload <=? kMaxPacketSize)%nat ;;
  if (kMaxPacketSize <? length payload)%nat then Some (false, g) else
  let g := if (payload_parity_len_ g <? length payload)%nat
           then g <| payload_parity_len_ := length payload |> else g in
  DCHECK (length payload <=? kMaxPacketSize)%nat ;;
  if (size (received_packets_ g) =? 0)%nat && (min_protected_packet_ g =? kNoSequenceNumber) then
    let g := g <| payload_parity_ := payload ++ drop (length payload) (payload_parity_ g) |> in
    let g := if (length payload <? kMaxPacketSize)%nat then
               g <| payload_parity_ := take (length payload) (payload_parity_ g) ++
                                       replicate (kMaxPacketSize - length payload) 0 |>
             else g in
    Some (true, g <| entropy_parity_ := entropy |>)
  else
    let g := g <| payload_parity_ := xor_bytes (payload_parity_ g) (padded payload) |> in
    Some (true, g <| entropy_parity_ := negb (eqb (entropy_parity_ g) entropy) |>).

(* src: net/quic/quic_fec_group.cc 30-48 Update *)
Definition Update (header : QuicPacketHeader) (decrypted_payload : list Z) (g : QuicFecGroup)
    : option (bool * QuicFecGroup) :=
  let number := packet_sequence_number header in
  if bool_decide (number ∈ received_packets_ g) then Some (false, g) else
  if !(min_protected_packet_ g =? kNoSequenceNumber) &&
     !(max_protected_packet_ g =? kNoSequenceNumber) &&
     ((number <? min_protected_packet_ g) || (max_protected_packet_ g <? number))
  then Some (false, g) else
  '(updated, g) ← UpdateParity decrypted_payload (entropy_flag header) g;
  if !updated then Some (false, g) else
  Some (true, g <| received_packets_ := {[number]} ∪ received_packets_ g |>).

(* src: net/quic/quic_fec_group.cc 50-72 UpdateFec *)
Definition UpdateFec (fec_packet_sequence_number : Z) (fec_packet_entropy : bool)
    (fec : QuicFecData) (g : QuicFecGroup) : option (bool * QuicFecGroup) :=
  if !(min_protected_packet_ g =? kNoSequenceNumber) then Some (false, g) else
  if existsb (fun it => (it <? fec_group fec) || (fec_packet_sequence_number <=? it))
       (elements (received_packets_ g))
  then Some (false, g) else
  '(updated, g) ← UpdateParity (redundancy fec) fec_packet_entropy g;
  if !updated then Some (false, g) else
  Some (true, g <| min_protected_packet_ := fec_group fec |>
                <| max_protected_packet_ := u64 (fec_packet_sequence_number - 1) |>).

(* src: net/quic/quic_fec_group.cc 159-164 NumMissingPackets *)
Definition NumMissingPackets (g : QuicFecGroup) : Z :=
  if min_protected_packet_ g =? kNoSequenceNumber then 2 ^ 64 - 1 else
  u64 (max_protected_packet_ g - min_protected_packet_ g + 1 - Z.of_nat (size (received_packets_ g))).

(* src: net/quic/quic_fec_group.cc 74-77 CanRevive *)
Definition CanRevive (g : QuicFecGroup) : bool := NumMissingPackets g =? 1.
(* src: net/quic/quic_fec_group.cc 79-82 IsFinished *)
Definition IsFinished (g : QuicFecGroup) : bool := NumMissingPackets g =? 0.

(** The first of [count] numbers from [i] that was not received. *)
(* src: net/quic/quic_fec_group.cc 93-100! Revive *)
Fixpoint first_missing (received : gset Z) (i : Z) (count : nat) : Z :=
  match count with
  | O => kNoSequenceNumber
  | S count => if bool_decide (i ∈ received) then first_missing received (i + 1) count else i
  end.

(** The number of bytes written, the header, and the buffer after the call. *)
(* src: net/quic/quic_fec_group.cc 84-116 Revive *)
Definition Revive (header : QuicPacketHeader) (decrypted_payload : list Z) (g : QuicFecGroup)
    : option (nat * QuicPacketHeader * list Z * QuicFecGroup) :=
  if !(CanRevive g) then Some (0%nat, header, decrypted_payload, g) else
  let missing := first_missing (received_packets_ g) (min_protected_packet_ g)
                   (Z.to_nat (max_protected_packet_ g - min_protected_packet_ g + 1)) in
  DCHECK (!(kNoSequenceNumber =? missing)) ;;
  let len := payload_parity_len_ g in
  DCHECK (len <=? length decrypted_payload)%nat ;;
  if (length decrypted_payload <? len)%nat then Some (0%nat, header, decrypted_payload, g) else
  let decrypted_payload := take len (payload_parity_ g) ++ drop len decrypted_payload in
  let header := header <| packet_sequence_number := missing |>
                       <| entropy_flag := entropy_parity_ g |> in
  Some (len, header, decrypted_payload,
        g <| received_packets_ := {[missing]} ∪ received_packets_ g |>).

(** [begin()] of a set, the least element; there is none in an empty one. *)
Definition begin_ (s : gset Z) : option Z :=
  match elements s with
  | [] => None
  | x :: rest => Some (fold_right Z.min x rest)
  end.

(* src: net/quic/quic_fec_group.cc 118-125 ProtectsPacketsBefore *)
Definition ProtectsPacketsBefore (num : Z) (g : QuicFecGroup) : option bool :=
  if !(max_protected_packet_ g =? kNoSequenceNumber) then Some (max_protected_packet_ g <? num) else
  first ← begin_ (received_packets_ g); Some (first <? num).
