(* ===== verification/QuicFecProperties.v ===== *)
(** A packet that was lost comes back from the parity of its group. *)
From stdpp Require Import gmap sets sorting.
From S2P Require Import Prelude QuicFecGroup.
From Stdlib Require Import ZifyBool.

(** ** The parity as an abelian group *)

Definition zeros : list Z := replicate kMaxPacketSize 0.
Definition full (l : list Z) : Prop := length l = kMaxPacketSize.

Lemma full_zeros : full zeros.
Proof. apply length_replicate. Qed.

Lemma full_xor a b : full a -> full b -> full (xor_bytes a b).
Proof. unfold full, xor_bytes. intros Ha Hb. rewrite length_zip_with. lia. Qed.

Lemma full_padded p : (length p <= kMaxPacketSize)%nat -> full (padded p).
Proof. intros Hp. unfold full, padded. rewrite length_app, length_replicate. lia. Qed.

Lemma xor_comm a b : xor_bytes a b = xor_bytes b a.
Proof. revert b. induction a as [|x a IH]; intros [|y b]; [done..|]. cbn. by rewrite Z.lxor_comm, IH. Qed.

Lemma xor_assoc a b c : xor_bytes a (xor_bytes b c) = xor_bytes (xor_bytes a b) c.
Proof.
  revert b c. induction a as [|x a IH]; intros [|y b] [|z c]; [done..|]. cbn. by rewrite Z.lxor_assoc, IH.
Qed.

Lemma xor_replicate n a : length a = n -> xor_bytes a (replicate n 0) = a.
Proof. intros <-. induction a as [|x a IH]; [done|]. cbn. by rewrite Z.lxor_0_r, IH. Qed.

Lemma xor_zeros a : full a -> xor_bytes a zeros = a.
Proof. apply xor_replicate. Qed.

Lemma xor_self a : full a -> xor_bytes a a = zeros.
Proof.
  unfold full, zeros. generalize kMaxPacketSize. intros n <-.
  induction a as [|x a IH]; [done|]. cbn. by rewrite Z.lxor_nilpotent, IH.
Qed.

Lemma xor_cancel a b : full a -> full b -> xor_bytes (xor_bytes a b) b = a.
Proof. intros Ha Hb. by rewrite <- xor_assoc, (xor_self b Hb), xor_zeros. Qed.

(** ** What the group accumulates *)

(** A packet: its entropy flag and its payload. *)
Definition Packet : Type := bool * list Z.
Definition fits (packet : Packet) : Prop := (length packet.2 <= kMaxPacketSize)%nat.

Fixpoint parity_of (items : list Packet) : list Z :=
  match items with
  | [] => zeros
  | item :: items => xor_bytes (padded item.2) (parity_of items)
  end.
Fixpoint entropy_of (items : list Packet) : bool :=
  match items with
  | [] => false
  | item :: items => xorb item.1 (entropy_of items)
  end.
Fixpoint len_of (items : list Packet) : nat :=
  match items with
  | [] => 0
  | item :: items => max (length item.2) (len_of items)
  end.

Lemma full_parity items : Forall fits items -> full (parity_of items).
Proof.
  induction 1 as [|item items Hi _ IH]; [apply full_zeros|]. apply full_xor; [by apply full_padded|done].
Qed.

#[export] Instance parity_perm : Proper ((≡ₚ) ==> (=)) parity_of.
Proof.
  intros l l' H. induction H as [|x l l' _ IH|x y l|l1 l2 l3 _ IH1 _ IH2]; [done| | |congruence].
  - cbn. by rewrite IH.
  - cbn. by rewrite !xor_assoc, (xor_comm (padded y.2)).
Qed.

#[export] Instance entropy_perm : Proper ((≡ₚ) ==> (=)) entropy_of.
Proof.
  intros l l' H. induction H as [|x l l' _ IH|x y l|l1 l2 l3 _ IH1 _ IH2]; [done| | |congruence].
  - cbn. by rewrite IH.
  - cbn. by destruct x.1, y.1, (entropy_of l).
Qed.

#[export] Instance len_perm : Proper ((≡ₚ) ==> (=)) len_of.
Proof.
  intros l l' H. induction H as [|x l l' _ IH|x y l|l1 l2 l3 _ IH1 _ IH2]; [done| | |congruence].
  - cbn. by rewrite IH.
  - cbn. lia.
Qed.

Lemma len_of_fits items : Forall fits items -> (len_of items <= kMaxPacketSize)%nat.
Proof. induction 1 as [|item items Hi _ IH]; unfold fits in *; cbn [len_of]; lia. Qed.

(** Behind the longest payload the parity is zero. *)
Lemma parity_tail items k x :
  (len_of items <= k)%nat -> parity_of items !! k = Some x -> x = 0.
Proof.
  revert x. induction items as [|item items IH]; intros x Hk Hx; cbn [parity_of len_of] in *.
  - by apply lookup_replicate in Hx as [-> _].
  - unfold xor_bytes in Hx. apply lookup_zip_with_Some in Hx as (a & b & -> & Ha & Hb).
    unfold padded in Ha. rewrite lookup_app_r in Ha by lia. apply lookup_replicate in Ha as [-> _].
    rewrite Z.lxor_0_l. apply IH; [lia|done].
Qed.

(** The parity is sent without that tail and padded with it again. *)
Lemma padded_parity items :
  Forall fits items -> padded (take (len_of items) (parity_of items)) = parity_of items.
Proof.
  intros Hf. pose proof (full_parity items Hf) as Hl. pose proof (len_of_fits items Hf) as Hn.
  unfold full in Hl. unfold padded. rewrite length_take, Hl, Nat.min_l by done.
  rewrite <- (take_drop (len_of items) (parity_of items)) at 2. f_equal.
  apply replicate_as_elem_of. rewrite length_drop. split; [lia|].
  intros x Hx. apply list_elem_of_lookup in Hx as [j Hj]. rewrite lookup_drop in Hj.
  apply (parity_tail items _ x) in Hj; [done|lia].
Qed.

(** ** One update *)

(** The parity fields hold the parity of [items]. *)
Record holds (g : QuicFecGroup) (items : list Packet) : Prop := {
  ho_full : full (payload_parity_ g);
  ho_len : payload_parity_len_ g = len_of items;
  ho_empty : items = [] <-> received_packets_ g = ∅ /\ min_protected_packet_ g = kNoSequenceNumber;
  ho_parity : items <> [] -> payload_parity_ g = parity_of items;
  ho_entropy : items <> [] -> entropy_parity_ g = entropy_of items
}.

Lemma UpdateParity_spec g items entropy payload :
  holds g items -> (length payload <= kMaxPacketSize)%nat ->
  exists g', UpdateParity payload entropy g = Some (true, g') /\
    received_packets_ g' = received_packets_ g /\
    min_protected_packet_ g' = min_protected_packet_ g /\
    max_protected_packet_ g' = max_protected_packet_ g /\
    payload_parity_len_ g' = len_of ((entropy, payload) :: items) /\
    payload_parity_ g' = parity_of ((entropy, payload) :: items) /\
    entropy_parity_ g' = entropy_of ((entropy, payload) :: items).
Proof.
  intros [Hf Hl He Hp Hn] Hsize. unfold UpdateParity. rewrite !DCHECK_bind.
  replace (length payload <=? kMaxPacketSize)%nat with true by lia.
  replace (kMaxPacketSize <? length payload)%nat with false by lia.
  set (g1 := if (payload_parity_len_ g <? length payload)%nat then _ else g).
  assert (Hg1 : g1 = g <| payload_parity_len_ := max (length payload) (payload_parity_len_ g) |>).
  { unfold g1. destruct (Nat.ltb_spec (payload_parity_len_ g) (length payload)).
    - by rewrite Nat.max_l by lia.
    - rewrite Nat.max_r by lia. by destruct g. }
  clearbody g1. subst g1.
  change (received_packets_ (g <| payload_parity_len_ := ?n |>)) with (received_packets_ g).
  change (min_protected_packet_ (g <| payload_parity_len_ := ?n |>)) with (min_protected_packet_ g).
  destruct (decide (items = [])) as [E|E].
  - destruct (proj1 He E) as [E1 E2]. rewrite E1, E2, size_empty. cbn [Nat.eqb andb]. rewrite Z.eqb_refl.
    subst items. set (g2 := if (length payload <? kMaxPacketSize)%nat then _ else _).
    assert (Hg2 : g2 = g <| payload_parity_len_ := max (length payload) (payload_parity_len_ g) |>
                         <| payload_parity_ := padded payload |>).
    { unfold g2, padded. unfold full in Hf.
      destruct (Nat.ltb_spec (length payload) kMaxPacketSize); cbn [setter payload_parity_].
      - by rewrite take_app_length.
      - replace (kMaxPacketSize - length payload)%nat with 0%nat by lia. by rewrite drop_ge by lia. }
    clearbody g2. subst g2. eexists. split; [reflexivity|]. cbn. rewrite Hl, xorb_false_r.
    rewrite xor_zeros by (by apply full_padded).
    repeat (split; [done|]); done.
  - replace (_ && _) with false.
    2:{ symmetry. apply andb_false_iff. destruct (decide (received_packets_ g = ∅)) as [Er|Er].
        - right. apply Z.eqb_neq. intros Em. apply E, He. done.
        - left. apply Nat.eqb_neq. intros Es. apply Er. by apply size_empty_iff, leibniz_equiv_iff in Es. }
    eexists. split; [reflexivity|]. cbn. rewrite Hl, (Hp E), (Hn E). repeat (split; [done|]).
    split; [apply xor_comm|]. by destruct entropy, (entropy_of items).
Qed.

Definition nothing : Packet := (false, []).

Section Group.
(** A group: the number of its first packet, and its packets in order. *)
Context (lo : Z) (packets : list Packet).
Let n := length packets.
Hypothesis lo_range : 0 <= lo /\ lo + Z.of_nat n < 2 ^ 64 - 1 /\ (0 < n)%nat.
Hypothesis all_fit : Forall fits packets.

Definition number (i : nat) : Z := lo + Z.of_nat i.
Definition packet (i : nat) : Packet := default nothing (packets !! i).
Definition header_of (i : nat) : QuicPacketHeader := mkQuicPacketHeader (number i) (packet i).1.

(** What arrives: a packet of the group, or the packet with its parity. *)
Inductive Event := EvPacket (i : nat) | EvFec.
#[export] Instance Event_eq_dec : EqDecision Event.
Proof. solve_decision. Defined.

Lemma number_inj i j : number i = number j -> i = j.
Proof using. clear. unfold number. lia. Qed.

Lemma packet_fits i : fits (packet i).
Proof using all_fit.
  clear lo_range.
  unfold packet. destruct (packets !! i) eqn:E; cbn; [|unfold fits; cbn; lia].
  by eapply (Forall_lookup_1 _ _ _ _ all_fit).
Qed.

Lemma lo_not_none : lo <> kNoSequenceNumber.
Proof using lo_range. unfold kNoSequenceNumber. lia. Qed.

Section Receiver.
Context (fec : QuicFecData) (fec_entropy : bool).

Definition on_event (event : Event) (g : QuicFecGroup) : option QuicFecGroup :=
  match event with
  | EvPacket i => snd <$> Update (header_of i) (packet i).2 g
  | EvFec => snd <$> UpdateFec (number n) fec_entropy fec g
  end.

Fixpoint on_events (events : list Event) (g : QuicFecGroup) : option QuicFecGroup :=
  match events with
  | [] => Some g
  | event :: events => g ← on_event event g; on_events events g
  end.

Hypothesis fec_of_group : fec_group fec = lo /\ (length (redundancy fec) <= kMaxPacketSize)%nat.

(** After these packets, with or without the parity, in some order. *)
Record seen (g : QuicFecGroup) (l : list nat) (got_fec : bool) (items : list Packet) : Prop := {
  se_holds : holds g items;
  se_items : items ≡ₚ (if got_fec then [(fec_entropy, redundancy fec)] else []) ++ map packet l;
  se_received : received_packets_ g = list_to_set (map number l);
  se_nodup : NoDup l /\ Forall (fun i => (i < n)%nat) l;
  se_min : min_protected_packet_ g = if got_fec then lo else kNoSequenceNumber;
  se_max : max_protected_packet_ g = if got_fec then lo + Z.of_nat n - 1 else kNoSequenceNumber
}.

Lemma in_received g l got_fec items i :
  seen g l got_fec items -> number i ∈ received_packets_ g <-> i ∈ l.
Proof.
  intros Hg. rewrite (se_received _ _ _ _ Hg), elem_of_list_to_set. split.
  - intros (j & Hj & Hin)%list_elem_of_fmap. by apply number_inj in Hj as ->.
  - apply list_elem_of_fmap_2.
Qed.

Lemma items_fit g l got_fec items : seen g l got_fec items -> Forall fits items.
Proof.
  intros Hg. rewrite (se_items _ _ _ _ Hg). apply Forall_app. split.
  - destruct got_fec; [|done]. constructor; [|done]. apply fec_of_group.
  - apply Forall_fmap, Forall_forall. intros i _. apply packet_fits.
Qed.

Lemma Update_seen g l got_fec items i :
  seen g l got_fec items -> (i < n)%nat ->
  exists g' l' items', on_event (EvPacket i) g = Some g' /\ seen g' l' got_fec items' /\
    forall j, j ∈ l' <-> j = i \/ j ∈ l.
Proof.
  intros Hg Hi. unfold on_event, Update. cbn [packet_sequence_number header_of].
  destruct (bool_decide_reflect (number i ∈ received_packets_ g)) as [Hin|Hin].
  { apply (in_received _ _ _ _ _ Hg) in Hin. exists g, l, items.
    split; [done|]. split; [done|]. intros j. split; [by right|]. by intros [->|]. }
  rewrite (in_received _ _ _ _ _ Hg) in Hin. pose proof Hg as [Hh Hp Hr [Hnd Hlt] Hmin Hmax].
  replace (_ && _) with false.
  2:{ rewrite Hmin, Hmax. unfold number. destruct got_fec; [|by rewrite Z.eqb_refl]. lia. }
  destruct (UpdateParity_spec g items (packet i).1 (packet i).2 Hh (packet_fits i))
    as (g' & E & E1 & E2 & E3 & E4 & E5 & E6).
  cbn [entropy_flag header_of]. rewrite E. cbn [mbind option_bind negb fmap option_fmap option_map snd].
  rewrite <- surjective_pairing in *.
  exists (g' <| received_packets_ := {[number i]} ∪ received_packets_ g' |>), (i :: l), (packet i :: items).
  split; [done|]. split; [|by intros j; rewrite elem_of_cons].
  constructor; cbn; rewrite ?E1, ?E2, ?E3; [|..|done|done].
  - constructor; cbn; rewrite ?E1, ?E2; [..|done|done].
    + unfold full. rewrite E5. apply full_parity. constructor; [apply packet_fits|]. by eapply items_fit.
    + done.
    + split; [done|]. intros [H _]. exfalso. set_solver.
  - rewrite Hp. destruct got_fec; [|done]. cbn. by rewrite Permutation_swap.
  - by rewrite Hr.
  - split; constructor; done.
Qed.

Lemma UpdateFec_seen g l got_fec items :
  seen g l got_fec items ->
  exists g' items', on_event EvFec g = Some g' /\ seen g' l true items'.
Proof.
  intros Hg. unfold on_event, UpdateFec. pose proof Hg as [Hh Hp Hr [Hnd Hlt] Hmin Hmax].
  rewrite Hmin. destruct got_fec.
  { destruct (Z.eqb_spec lo kNoSequenceNumber) as [E|E]; [by destruct lo_not_none|]. by exists g, items. }
  rewrite Z.eqb_refl. cbn [negb].
  replace (existsb _ _) with false.
  2:{ symmetry. apply not_true_iff_false. intros (x & Hx & Hb)%existsb_exists.
      apply list_elem_of_In, elem_of_elements in Hx. rewrite Hr, elem_of_list_to_set in Hx.
      apply list_elem_of_fmap in Hx as (j & -> & Hj). rewrite Forall_forall in Hlt.
      specialize (Hlt j Hj). pose proof (proj1 fec_of_group). unfold number in Hb. lia. }
  destruct (UpdateParity_spec g items fec_entropy (redundancy fec) Hh (proj2 fec_of_group))
    as (g' & E & E1 & E2 & E3 & E4 & E5 & E6).
  rewrite E. cbn [mbind option_bind negb fmap option_fmap option_map snd].
  exists (g' <| min_protected_packet_ := fec_group fec |>
             <| max_protected_packet_ := u64 (number n - 1) |>), ((fec_entropy, redundancy fec) :: items).
  split; [done|]. rewrite (proj1 fec_of_group).
  constructor; cbn; rewrite ?E1; [|..|done|].
  - constructor; cbn; rewrite ?E1; [..|done|done].
    + unfold full. rewrite E5. apply full_parity. constructor; [apply fec_of_group|]. by eapply items_fit.
    + done.
    + split; [done|]. intros [_ H]. by destruct lo_not_none.
  - by rewrite Hp.
  - done.
  - done.
  - unfold number. rewrite wrap_u_id; [lia|]. unfold in_u. lia.
Qed.

Lemma seen_new memory : full memory -> seen (new_QuicFecGroup memory) [] false [].
Proof.
  intros Hm. constructor; [constructor| | |split; constructor| |]; done.
Qed.

Lemma on_events_seen events g l got_fec items :
  seen g l got_fec items -> (forall i, EvPacket i ∈ events -> (i < n)%nat) ->
  exists g' l' items', on_events events g = Some g' /\
    seen g' l' (got_fec || bool_decide (EvFec ∈ events)) items' /\
    forall j, j ∈ l' <-> EvPacket j ∈ events \/ j ∈ l.
Proof.
  revert g l got_fec items. induction events as [|[i|] events IH]; intros g l got_fec items Hg He.
  - exists g, l, items. rewrite bool_decide_eq_false_2, orb_false_r by set_solver. set_solver.
  - destruct (Update_seen g l got_fec items i Hg) as (g1 & l1 & items1 & E1 & H1 & Hl1); [set_solver|].
    destruct (IH g1 l1 got_fec items1 H1) as (g2 & l2 & items2 & E2 & H2 & Hl2); [set_solver|].
    exists g2, l2, items2. cbn [on_events]. rewrite E1. split; [done|]. split; [|set_solver].
    replace (bool_decide (EvFec ∈ EvPacket i :: events)) with (bool_decide (EvFec ∈ events)); [done|].
    apply bool_decide_ext. set_solver.
  - destruct (UpdateFec_seen g l got_fec items Hg) as (g1 & items1 & E1 & H1).
    destruct (IH g1 l true items1 H1) as (g2 & l2 & items2 & E2 & H2 & Hl2); [set_solver|].
    exists g2, l2, items2. cbn [on_events]. rewrite E1. split; [done|]. split; [|set_solver].
    rewrite (bool_decide_eq_true_2 (EvFec ∈ EvFec :: events)) by set_solver. by rewrite orb_true_r.
Qed.
End Receiver.

(** The packets that were all protected, one after the other. *)
Definition protect (memory : list Z) : option QuicFecGroup :=
  on_events (mkQuicFecData lo []) false (map EvPacket (seq 0 n)) (new_QuicFecGroup memory).

Lemma map_packet : map packet (seq 0 n) = packets.
Proof using.
  unfold n, packet. generalize packets. induction packets0 as [|p ps IH]; [done|]. cbn. f_equal.
  rewrite <- seq_shift, map_map. exact IH.
Qed.

Lemma protect_spec memory :
  full memory ->
  exists sent, protect memory = Some sent /\
    payload_parity sent = take (len_of packets) (parity_of packets) /\
    entropy_parity_ sent = entropy_of packets.
Proof.
  intros Hm. assert (Hf : fec_group (mkQuicFecData lo []) = lo /\
    (length (redundancy (mkQuicFecData lo [])) <= kMaxPacketSize)%nat) by (cbn; lia).
  assert (Hin : forall i, EvPacket i ∈ map EvPacket (seq 0 n) <-> (i < n)%nat).
  { intros i. rewrite list_elem_of_fmap. setoid_rewrite elem_of_seq. split; [|eexists; split; [done|lia]].
    intros (j & [= ->] & Hj). lia. }
  destruct (on_events_seen (mkQuicFecData lo []) false Hf (map EvPacket (seq 0 n)) _ _ _ _
    (seen_new _ _ _ Hm)) as (g & l & items & E & Hg & Hl); [by intros i ?%Hin|].
  exists g. split; [exact E|]. rewrite bool_decide_eq_false_2 in Hg.
  2:{ intros (j & ? & _)%list_elem_of_fmap. done. }
  destruct Hg as [Hh Hp _ [Hnd _] _ _]. cbn in Hp.
  assert (l ≡ₚ seq 0 n) as Hperm.
  { apply NoDup_Permutation; [done|apply NoDup_seq|]. intros j. rewrite Hl, Hin, elem_of_seq. set_solver by lia. }
  rewrite Hperm, map_packet in Hp.
  assert (items <> []) as Hne.
  { intros ->. apply Permutation_length in Hp. cbn in Hp. unfold n in lo_range. lia. }
  unfold payload_parity. rewrite (ho_len _ _ Hh), (ho_parity _ _ Hh Hne), (ho_entropy _ _ Hh Hne).
  by rewrite Hp.
Qed.

Lemma first_missing_spec received m i count :
  (forall j, (i <= j < m)%nat -> number j ∈ received) -> number m ∉ received ->
  (i <= m < i + count)%nat -> first_missing received (number i) count = number m.
Proof using.
  clear lo_range all_fit. try clear n.
  intros Hr Hm. revert i Hr. induction count as [|count IH]; intros i Hr Hi; [lia|]. cbn.
  destruct (bool_decide_reflect (number i ∈ received)) as [Hin|Hin].
  - assert (i <> m) by (by intros ->). replace (number i + 1) with (number (S i)) by (unfold number; lia).
    apply IH; [|lia]. intros j Hj. apply Hr. lia.
  - destruct (decide (i = m)) as [->|Hne]; [done|]. destruct Hin. apply Hr. lia.
Qed.

(** All the packets but one, and one more than all of them. *)
Lemma all_but_one l m :
  NoDup l -> (forall i, i ∈ l <-> (i < n)%nat /\ i <> m) -> (m < n)%nat -> m :: l ≡ₚ seq 0 n.
Proof using.
  clear lo_range all_fit. try clear n.
  intros Hnd Hl Hm. apply NoDup_Permutation; [|apply NoDup_seq|].
  - constructor; [|done]. rewrite Hl. naive_solver.
  - intros j. rewrite elem_of_cons, Hl, elem_of_seq. destruct (decide (j = m)); naive_solver lia.
Qed.

Lemma size_received l : NoDup l -> size (list_to_set (map number l) : gset Z) = length l.
Proof using.
  clear lo_range all_fit. try clear n.
  intros Hnd. rewrite size_list_to_set; [by rewrite length_map|].
  apply NoDup_fmap_2; [|done]. intros i j. apply number_inj.
Qed.
End Group.

(** The parity of the whole group, less that of the packets that arrived. *)
Lemma revived_values packets (Hfit : Forall fits packets) items l m entropy redundancy :
  m :: l ≡ₚ seq 0 (length packets) ->
  items ≡ₚ (entropy, redundancy) :: map (packet packets) l ->
  redundancy = take (len_of packets) (parity_of packets) -> entropy = entropy_of packets ->
  parity_of items = padded (packet packets m).2 /\ entropy_of items = (packet packets m).1 /\
  len_of items = len_of packets.
Proof.
  intros Hperm Hp -> ->. pose proof (len_of_fits _ Hfit). pose proof (full_parity _ Hfit) as Hfull.
  assert (Hall : packets ≡ₚ packet packets m :: map (packet packets) l).
  { rewrite <- (map_packet packets) at 1. change (?p :: map ?f ?l) with (map f (m :: l)). by rewrite Hperm. }
  assert (Hl : Forall fits (map (packet packets) l)) by (rewrite Hall in Hfit; by inversion Hfit).
  rewrite Hp. cbn [parity_of entropy_of len_of fst snd]. rewrite padded_parity by done.
  pose proof (packet_fits packets Hfit m) as Hm.
  revert Hall Hl Hm. generalize (packet packets m), (map (packet packets) l). intros lost rest Hall Hl Hm.
  split; [|split].
  - rewrite Hall. cbn [parity_of]. apply xor_cancel; [by apply full_padded|by apply full_parity].
  - rewrite Hall. cbn [entropy_of]. by destruct lost.1, (entropy_of rest).
  - rewrite length_take, Hfull, Nat.min_l by done. rewrite Hall. cbn [len_of]. lia.
Qed.

Lemma len_of_packet packets m :
  (m < length packets)%nat -> (length (packet packets m).2 <= len_of packets)%nat.
Proof.
  revert m. induction packets as [|p packets IH]; intros m Hm; [cbn in Hm; lia|].
  destruct m as [|m]; cbn [len_of]; [cbn; lia|]. cbn [length] in Hm. specialize (IH m ltac:(lia)).
  change (packet (p :: packets) (S m)) with (packet packets m). lia.
Qed.

(** C30. A lost packet comes back: when of a group of packets any one is lost and
    the others and the packet with their parity arrive, in any order and some of
    them more than once, the group of the receiver asks to revive a packet, and
    reviving gives the number, the entropy flag and the payload of the one that
    was lost, the payload filled up with zeros to the longest of the group;
    nothing is missing afterwards. *)
Theorem lost_packet_is_revived lo packets memory memory' m events header buffer :
  0 <= lo -> lo + Z.of_nat (length packets) < 2 ^ 64 - 1 -> Forall fits packets ->
  full memory -> full memory' -> (kMaxPacketSize <= length buffer)%nat ->
  (m < length packets)%nat -> EvFec ∈ events ->
  (forall i, EvPacket i ∈ events <-> (i < length packets)%nat /\ i <> m) ->
  exists sent g len header' buffer' g',
    protect lo packets memory = Some sent /\
    on_events lo packets (mkQuicFecData lo (payload_parity sent)) (entropy_parity_ sent) events
      (new_QuicFecGroup memory') = Some g /\
    CanRevive g = true /\ Revive header buffer g = Some (len, header', buffer', g') /\
    packet_sequence_number header' = lo + Z.of_nat m /\
    entropy_flag header' = (packet packets m).1 /\
    take len buffer' = (packet packets m).2 ++ replicate (len - length (packet packets m).2) 0 /\
    len = len_of packets /\ IsFinished g' = true.
Proof.
  intros Hlo Hhi Hfit Hm1 Hm2 Hbuf Hm Hfec Hev.
  assert (Hr : 0 <= lo /\ lo + Z.of_nat (length packets) < 2 ^ 64 - 1 /\ (0 < length packets)%nat) by lia.
  destruct (protect_spec lo packets Hr Hfit memory Hm1) as (sent & Es & Epar & Eent).
  pose proof (len_of_fits _ Hfit) as Hlen. pose proof (full_parity _ Hfit) as Hfull.
  set (fec := mkQuicFecData lo (payload_parity sent)).
  assert (Hf : fec_group fec = lo /\ (length (redundancy fec) <= kMaxPacketSize)%nat).
  { cbn. rewrite Epar, length_take. split; [done|lia]. }
  destruct (on_events_seen lo packets Hr Hfit fec (entropy_parity_ sent) Hf events _ _ _ _
    (seen_new _ _ _ _ _ Hm2)) as (g & l & items & Eg & Hg & Hl); [by intros i [? _]%Hev|].
  rewrite bool_decide_eq_true_2 in Hg by done. cbn [orb] in Hg.
  pose proof Hg as [Hh Hp Hrec [Hnd Hlt] Hmin Hmax].
  assert (Hl' : forall i, i ∈ l <-> (i < length packets)%nat /\ i <> m)
    by (intros i; rewrite Hl, Hev; set_solver).
  pose proof (all_but_one packets l m Hnd Hl' Hm) as Hperm.
  destruct (revived_values packets Hfit items l m (entropy_parity_ sent) (payload_parity sent))
    as (Vp & Ve & Vl); [done|exact Hp|done|done|].
  assert (Hne : items <> []) by (intros ->; by apply Permutation_length in Hp).
  assert (Hsize : size (received_packets_ g) = length l) by (rewrite Hrec; by apply size_received).
  apply Permutation_length in Hperm as Hll. rewrite length_seq in Hll. cbn [length] in Hll.
  assert (Hrevive : CanRevive g = true).
  { unfold CanRevive, NumMissingPackets. rewrite Hmin, Hmax, Hsize.
    rewrite (proj2 (Z.eqb_neq _ _) (lo_not_none lo packets Hr)).
    apply Z.eqb_eq. rewrite wrap_u_id; unfold in_u; lia. }
  set (missing := lo + Z.of_nat m).
  assert (Hfirst : first_missing (received_packets_ g) (min_protected_packet_ g)
    (Z.to_nat (max_protected_packet_ g - min_protected_packet_ g + 1)) = missing).
  { rewrite Hmin, Hmax. replace lo with (number lo 0) at 1 by (unfold number; lia).
    apply first_missing_spec; [..|lia].
    - intros j Hj. apply (in_received _ _ _ _ _ _ _ _ _ Hg), Hl'. lia.
    - rewrite (in_received _ _ _ _ _ _ _ _ _ Hg), Hl'. lia. }
  exists sent, g, (len_of packets), (mkQuicPacketHeader missing (packet packets m).1),
    (take (len_of packets) (padded (packet packets m).2) ++ drop (len_of packets) buffer),
    (g <| received_packets_ := {[missing]} ∪ received_packets_ g |>).
  split; [done|]. split; [done|]. split; [done|].
  pose proof (len_of_packet packets m Hm) as Hlm. pose proof (packet_fits packets Hfit m) as Hfm.
  split; [|repeat (split; [done|])].
  - unfold Revive. rewrite Hrevive, Hfirst. cbn [negb]. rewrite !DCHECK_bind.
    replace (kNoSequenceNumber =? missing) with false by (unfold kNoSequenceNumber, missing; lia).
    rewrite (ho_len _ _ Hh), (ho_parity _ _ Hh Hne), (ho_entropy _ _ Hh Hne), Vp, Ve, Vl.
    replace (len_of packets <=? length buffer)%nat with true by lia.
    by replace (length buffer <? len_of packets)%nat with false by lia.
  - split; [|split; [done|]].
    + rewrite take_app_length' by (rewrite length_take, (full_padded _ Hfm); lia).
      unfold padded. rewrite take_app, take_replicate. f_equal; [by rewrite take_ge by lia|].
      f_equal. unfold fits in Hfm. lia.
    + unfold IsFinished, NumMissingPackets. cbn. rewrite Hmin, Hmax.
      rewrite (proj2 (Z.eqb_neq _ _) (lo_not_none lo packets Hr)).
      rewrite size_union, size_singleton, Hsize.
      2:{ apply disjoint_singleton_l. rewrite Hrec. intros (j & Ej & Hj)%elem_of_list_to_set%list_elem_of_fmap.
          apply Hl' in Hj. unfold number, missing in Ej. lia. }
      apply Z.eqb_eq. rewrite wrap_u_id; unfold in_u; lia.
Qed.

Lemma lost_packet_is_revived_witness :
  let packets := [(true, [1; 2; 3]); (false, [255]); (true, [7; 7])] in
  let events := [EvPacket 2; EvFec; EvPacket 0; EvPacket 2] in
  let buffer := replicate kMaxPacketSize 0 in
  exists sent g len header' buffer' g',
    protect 10 packets (replicate kMaxPacketSize 170) = Some sent /\
    on_events 10 packets (mkQuicFecData 10 (payload_parity sent)) (entropy_parity_ sent) events
      (new_QuicFecGroup (replicate kMaxPacketSize 99)) = Some g /\
    CanRevive g = true /\
    Revive (mkQuicPacketHeader 0 true) buffer g = Some (len, header', buffer', g') /\
    packet_sequence_number header' = 10 + 1 /\ entropy_flag header' = false /\
    take len buffer' = [255] ++ replicate (len - 1) 0 /\ len = 3%nat /\ IsFinished g' = true.
Proof.
  intros packets events buffer.
  refine (lost_packet_is_revived 10 packets (replicate kMaxPacketSize 170)
    (replicate kMaxPacketSize 99) 1 events (mkQuicPacketHeader 0 true) buffer _ _ _ _ _ _ _ _ _).
  - lia.
  - cbn. lia.
  - repeat constructor; apply Nat.leb_le; vm_compute; reflexivity.
  - apply length_replicate.
  - apply length_replicate.
  - unfold buffer. rewrite length_replicate. apply Nat.le_refl.
  - cbn. lia.
  - unfold events. set_solver.
  - intros i. unfold events, packets. cbn [length]. split.
    + intros H%list_elem_of_In. destruct H as [H|[H|[H|[H|[]]]]]; inversion H; subst; lia.
    + intros [Hi Hne]. destruct i as [|[|[|i]]]; [set_solver|lia|set_solver|lia].
Defined.
