(* ===== verification/QuicStreamSequencer.v ===== *)
(** The receiving end of a QUIC stream, net/quic/quic_stream_sequencer.{h,cc}:
    frames that arrive in any order are buffered until the bytes in front of
    them have been passed on. *)
From S2P Require Import Prelude.

(** ** The map of frames

    [std::map] from offsets to data: the entries in the order of their keys. *)
Definition FrameMap : Type := list (Z * list Z).

Fixpoint map_find (k : Z) (m : FrameMap) : option (list Z) :=
  match m with
  | [] => None
  | (k', v) :: m => if k' =? k then Some v else map_find k m
  end.

(** An entry with the key is kept. *)
Fixpoint map_insert (k : Z) (v : list Z) (m : FrameMap) : FrameMap :=
  match m with
  | [] => [(k, v)]
  | (k', v') :: rest =>
      if k <? k' then (k, v) :: m
      else if k =? k' then m
      else (k', v') :: map_insert k v rest
  end.

Fixpoint map_erase (k : Z) (m : FrameMap) : FrameMap :=
  match m with
  | [] => []
  | (k', v') :: rest => if k' =? k then rest else (k', v') :: map_erase k rest
  end.

(** ** The stream above

    The stream that owns the sequencer, as far as the sequencer calls it.
    [ProcessRawData] gets a pointer and a length and returns how many bytes it
    took. *)
(* src: net/quic/reliable_quic_stream.h 75-91! ReliableQuicStream *)
Class ReliableQuicStream (Stream : Type) := {
  ProcessRawData : list Z -> Z -> Stream -> Z * Stream;
  TerminateFromPeer : bool -> Stream -> Stream;
  Close : string -> Stream -> Stream;
  CloseConnectionWithDetails : string -> Stream -> Stream
}.

(* src: net/quic/quic_protocol.h 504-519! QuicStreamFrame *)
Record QuicStreamFrame := mkQuicStreamFrame {
  fin : bool;
  offset : Z;
  frame_data : list Z
}.

Definition kMaxOffset : Z := 2 ^ 64 - 1.

Section Sequencer.
Context {Stream : Type} `{ReliableQuicStream Stream}.

(* src: net/quic/quic_stream_sequencer.h 89-95! QuicStreamSequencer *)
Record QuicStreamSequencer := mkQuicStreamSequencer {
  stream_ : Stream;
  num_bytes_consumed_ : Z;
  frames_ : FrameMap;
  max_frame_memory_ : Z;
  close_offset_ : Z
}.
#[export] Instance eta_QuicStreamSequencer : Eta QuicStreamSequencer := fun s =>
  mkQuicStreamSequencer (stream_ s) (num_bytes_consumed_ s) (frames_ s) (max_frame_memory_ s)
    (close_offset_ s).

(* src: net/quic/quic_stream_sequencer.cc 18-23! QuicStreamSequencer::QuicStreamSequencer *)
Definition new_QuicStreamSequencer (quic_stream : Stream) : QuicStreamSequencer :=
  mkQuicStreamSequencer quic_stream 0 [] (2 ^ 64 - 1) kMaxOffset.

(** Too little memory is only logged. *)
(* src: net/quic/quic_stream_sequencer.cc 25-35! QuicStreamSequencer::QuicStreamSequencer *)
Definition new_QuicStreamSequencer_with_memory (max_frame_memory : Z) (quic_stream : Stream)
    : QuicStreamSequencer :=
  mkQuicStreamSequencer quic_stream 0 [] max_frame_memory kMaxOffset.

(* src: net/quic/quic_stream_sequencer.cc 249-256 IsDuplicate *)
Definition IsDuplicate (frame : QuicStreamFrame) (s : QuicStreamSequencer) : bool :=
  (offset frame <? num_bytes_consumed_ s) ||
  match map_find (offset frame) (frames_ s) with Some _ => true | None => false end.

(* src: net/quic/quic_stream_sequencer.cc 40-64 WillAcceptStreamFrame *)
Definition WillAcceptStreamFrame (frame : QuicStreamFrame) (s : QuicStreamSequencer)
    : option bool :=
  let data_len := zlen (frame_data frame) in
  DCHECK (data_len <=? max_frame_memory_ s) ;;
  if IsDuplicate frame s then Some true else
  let byte_offset := offset frame in
  if max_frame_memory_ s <? data_len then Some false else
  if max_frame_memory_ s <? u64 (byte_offset + data_len - num_bytes_consumed_ s) then Some false else
  Some true.

(* src: net/quic/quic_stream_sequencer.cc 245-247 IsHalfClosed *)
Definition IsHalfClosed (s : QuicStreamSequencer) : bool := close_offset_ s <=? num_bytes_consumed_ s.

(* src: net/quic/quic_stream_sequencer.cc 136-147 MaybeCloseStream *)
Definition MaybeCloseStream (s : QuicStreamSequencer) : bool * QuicStreamSequencer :=
  if IsHalfClosed s then (true, s <| stream_ := TerminateFromPeer true (stream_ s) |>) else (false, s).

(* src: net/quic/quic_stream_sequencer.cc 121-134 CloseStreamAtOffset *)
Definition CloseStreamAtOffset (offset : Z) (s : QuicStreamSequencer) : QuicStreamSequencer :=
  if !(close_offset_ s =? kMaxOffset) && !(offset =? close_offset_ s) then
    s <| stream_ := Close "QUIC_MULTIPLE_TERMINATION_OFFSETS" (stream_ s) |>
  else
    snd (MaybeCloseStream (s <| close_offset_ := offset |>)).

(** One call of [ProcessRawData], and the count of what it took. *)
Definition deliver (data : list Z) (s : QuicStreamSequencer) : Z * QuicStreamSequencer :=
  let '(bytes_consumed, stream) := ProcessRawData data (u32 (zlen data)) (stream_ s) in
  (bytes_consumed,
   s <| stream_ := stream |>
     <| num_bytes_consumed_ := u64 (num_bytes_consumed_ s + bytes_consumed) |>).

(** Every turn of the loop either leaves it or erases a frame. *)
(* src: net/quic/quic_stream_sequencer.cc 258-281! FlushBufferedFrames *)
Fixpoint flush_loop (fuel : nat) (s : QuicStreamSequencer) : res QuicStreamSequencer :=
  match fuel with
  | O => NoFuel
  | S fuel =>
      let it := num_bytes_consumed_ s in
      match map_find it (frames_ s) with
      | None => Ok s
      | Some data =>
          let '(bytes_consumed, s) := deliver data s in
          let '(closed, s) := MaybeCloseStream s in
          if closed then Ok s
          else if zlen data <? bytes_consumed then
            Ok (s <| stream_ := Close "QUIC_ERROR_PROCESSING_STREAM" (stream_ s) |>)
          else if bytes_consumed =? zlen data then
            flush_loop fuel (s <| frames_ := map_erase it (frames_ s) |>)
          else
            let new_data := drop (Z.to_nat bytes_consumed) data in
            let s := s <| frames_ := map_erase it (frames_ s) |> in
            Ok (s <| frames_ := map_insert (num_bytes_consumed_ s) new_data (frames_ s) |>)
      end
  end.
(* src: net/quic/quic_stream_sequencer.cc 258-281! FlushBufferedFrames *)
Definition FlushBufferedFrames (s : QuicStreamSequencer) : res QuicStreamSequencer :=
  flush_loop (S (length (frames_ s))) s.

(* src: net/quic/quic_stream_sequencer.cc 66-119 OnStreamFrame *)
Definition OnStreamFrame (frame : QuicStreamFrame) (s : QuicStreamSequencer)
    : res (bool * QuicStreamSequencer) :=
  accept ← checked (WillAcceptStreamFrame frame s);
  if !accept then Ok (false, s) else
  if IsDuplicate frame s then Ok (true, s) else
  let byte_offset := offset frame in
  let data := frame_data frame in
  let data_len := zlen data in
  if (data_len =? 0) && !(fin frame) then
    Ok (false, s <| stream_ :=
                 CloseConnectionWithDetails "QUIC_INVALID_STREAM_FRAME" (stream_ s) |>)
  else
  let s := if fin frame then CloseStreamAtOffset (u64 (offset frame + data_len)) s else s in
  if fin frame && (data_len =? 0) then Ok (true, s) else
  let buffer (byte_offset : Z) (data : list Z) (s : QuicStreamSequencer) :=
    Ok (true, s <| frames_ := map_insert byte_offset data (frames_ s) |>) in
  if byte_offset =? num_bytes_consumed_ s then
    let '(bytes_consumed, s) := deliver data s in
    let '(closed, s) := MaybeCloseStream s in
    if closed then Ok (true, s)
    else if data_len <? bytes_consumed then
      Ok (false, s <| stream_ := Close "QUIC_ERROR_PROCESSING_STREAM" (stream_ s) |>)
    else if bytes_consumed =? data_len then
      s ← FlushBufferedFrames s; Ok (true, s)
    else buffer (u64 (byte_offset + bytes_consumed)) (drop (Z.to_nat bytes_consumed) data) s
  else buffer byte_offset data s.

(** ** Reading what is buffered *)

(** The regions, as their data. *)
(* src: net/quic/quic_stream_sequencer.cc 149-164! GetReadableRegions *)
Fixpoint readable_regions (it : FrameMap) (offset : Z) (iov_len : nat) : list (list Z) :=
  match it, iov_len with
  | (first, second) :: it, S iov_len =>
      if !(first =? offset) then []
      else second :: readable_regions it (u64 (offset + zlen second)) iov_len
  | _, _ => []
  end.
(* src: net/quic/quic_stream_sequencer.cc 149-165! GetReadableRegions *)
Definition GetReadableRegions (iov_len : nat) (s : QuicStreamSequencer) : list (list Z) :=
  readable_regions (frames_ s) (num_bytes_consumed_ s) iov_len.

(* src: net/quic/quic_stream_sequencer.cc 239-243 HasBytesToRead *)
Definition HasBytesToRead (s : QuicStreamSequencer) : bool :=
  match frames_ s with (first, _) :: _ => first =? num_bytes_consumed_ s | [] => false end.

(** [iov] is the sizes of the buffers; the bytes copied into them, one buffer
    behind the other, are returned.  Every turn ends a buffer or a frame. *)
(* src: net/quic/quic_stream_sequencer.cc 174-198! Readv *)
Fixpoint readv_loop (fuel : nat) (iov : list Z) (iov_offset frame_offset : Z) (copied : list Z)
    (s : QuicStreamSequencer) : res (Z * list Z * QuicStreamSequencer) :=
  match fuel with
  | O => NoFuel
  | S fuel =>
      match iov, frames_ s with
      | iov_len :: iov', (first, second) :: rest =>
          if first =? num_bytes_consumed_ s then
            let bytes_to_read :=
              s32 (Z.min (u64 (iov_len - iov_offset)) (u64 (zlen second - frame_offset))) in
            let copied := copied ++ take (Z.to_nat bytes_to_read)
                                      (drop (Z.to_nat frame_offset) second) in
            let frame_offset := u64 (frame_offset + bytes_to_read) in
            let iov_offset := u64 (iov_offset + bytes_to_read) in
            let '(iov, iov_offset) :=
              if iov_len =? iov_offset then (iov', 0) else (iov, iov_offset) in
            let '(s, frame_offset) :=
              if zlen second =? frame_offset then
                (s <| num_bytes_consumed_ := u64 (num_bytes_consumed_ s + zlen second) |>
                   <| frames_ := rest |>, 0)
              else (s, frame_offset) in
            readv_loop fuel iov iov_offset frame_offset copied s
          else Ok (frame_offset, copied, s)
      | _, _ => Ok (frame_offset, copied, s)
      end
  end.

(* src: net/quic/quic_stream_sequencer.cc 167-207 Readv *)
Definition Readv (iov : list Z) (s : QuicStreamSequencer)
    : res (Z * list Z * QuicStreamSequencer) :=
  let initial_bytes_consumed := num_bytes_consumed_ s in
  '(frame_offset, copied, s) ← readv_loop (S (length iov + length (frames_ s))) iov 0 0 [] s;
  s ← (if !(frame_offset =? 0) then
         match frames_ s with
         | [] => Failed
         | (first, second) :: _ =>
             let s := s <| frames_ := map_insert (u64 (first + frame_offset))
                             (drop (Z.to_nat frame_offset) second) (frames_ s) |> in
             let s := s <| frames_ := tail (frames_ s) |> in
             Ok (s <| num_bytes_consumed_ := u64 (num_bytes_consumed_ s + frame_offset) |>)
         end
       else Ok s);
  Ok (s32 (num_bytes_consumed_ s - initial_bytes_consumed), copied, s).

(** Every turn but the last erases a frame. *)
(* src: net/quic/quic_stream_sequencer.cc 211-236! MarkConsumed *)
Fixpoint mark_loop (fuel : nat) (end_offset : Z) (s : QuicStreamSequencer)
    : res QuicStreamSequencer :=
  match fuel with
  | O => NoFuel
  | S fuel =>
      match frames_ s with
      | [] => Ok s
      | (first, second) :: rest =>
          if end_offset =? num_bytes_consumed_ s then Ok s
          else if !(first =? num_bytes_consumed_ s) then
            Ok (s <| stream_ := Close "QUIC_ERROR_PROCESSING_STREAM" (stream_ s) |>)
          else if u64 (first + zlen second) <=? end_offset then
            mark_loop fuel end_offset
              (s <| num_bytes_consumed_ := u64 (num_bytes_consumed_ s + zlen second) |>
                 <| frames_ := rest |>)
          else
            let delta := u64 (end_offset - first) in
            let s := s <| num_bytes_consumed_ := u64 (num_bytes_consumed_ s + delta) |> in
            let s := s <| frames_ := map_insert end_offset (drop (Z.to_nat delta) second) (frames_ s) |> in
            Ok (s <| frames_ := map_erase first (frames_ s) |>)
      end
  end.

(* src: net/quic/quic_stream_sequencer.cc 209-237 MarkConsumed *)
Definition MarkConsumed (num_bytes_consumed : Z) (s : QuicStreamSequencer)
    : res QuicStreamSequencer :=
  let end_offset := u64 (num_bytes_consumed_ s + num_bytes_consumed) in
  mark_loop (S (length (frames_ s))) end_offset s.
End Sequencer.
Arguments QuicStreamSequencer : clear implicits.
