(* ===== verification/QuicStreamProperties.v ===== *)
(** Whatever the network does to the frames of a stream, what the sequencer
    passes on is the stream. *)
From S2P Require Import Prelude QuicStreamSequencer.
From Stdlib Require Import ZifyBool.

(** ** The contract of the stream above

    What a sequencer needs of the stream it feeds: a call takes no more than it
    is offered, and what was taken, the end of the stream and errors can be
    told apart. *)
Class StreamContract (Stream : Type) `{ReliableQuicStream Stream} := {
  delivered : Stream -> list Z;
  half_closed : Stream -> bool;
  failed : Stream -> bool;
  process_contract data len stream :
    0 <= len <= zlen data ->
    let '(n, stream') := ProcessRawData data len stream in
    0 <= n <= len /\ delivered stream' = delivered stream ++ take (Z.to_nat n) data /\
    half_closed stream' = half_closed stream /\ failed stream' = failed stream;
  terminate_contract b stream :
    let stream' := TerminateFromPeer b stream in
    half_closed stream' = true /\ delivered stream' = delivered stream /\
    failed stream' = failed stream
}.

Section InOrder.
Context {Stream : Type} `{StreamContract Stream}.
Abbreviation Sequencer := (QuicStreamSequencer Stream).

(** The bytes the peer sends. *)
Context (D : list Z).
Hypothesis D_size : zlen D < 2 ^ 31.

(** [v] is what the stream holds from [o] on. *)
Definition slice_at (o : Z) (v : list Z) : Prop :=
  exists pre post, D = pre ++ v ++ post /\ zlen pre = o.

Definition upto (n : Z) : list Z := take (Z.to_nat n) D.

Lemma slice_range o v : slice_at o v -> 0 <= o /\ o + zlen v <= zlen D.
Proof.
  intros (pre & post & -> & <-). rewrite !zlen_app.
  pose proof (zlen_nonneg pre). pose proof (zlen_nonneg post). lia.
Qed.

Lemma slice_drop o v n : slice_at o v -> 0 <= n <= zlen v -> slice_at (o + n) (drop (Z.to_nat n) v).
Proof.
  intros (pre & post & E & <-) Hn. exists (pre ++ take (Z.to_nat n) v), post.
  split; [by rewrite E, <- app_assoc, (app_assoc (take _ _)), take_drop|].
  by rewrite zlen_app, zlen_take.
Qed.

Lemma slice_upto o v n :
  slice_at o v -> 0 <= n <= zlen v -> upto (o + n) = upto o ++ take (Z.to_nat n) v.
Proof.
  intros (pre & post & E & <-) Hn. unfold upto, zlen in *. rewrite E.
  rewrite Z2Nat.inj_add, !Nat2Z.id by lia. rewrite take_app_length, take_app_add. f_equal.
  apply take_app_le. lia.
Qed.

Lemma slice_app o v w : slice_at o v -> slice_at (o + zlen v) w -> slice_at o (v ++ w).
Proof.
  intros (pre & post & E & <-) (pre' & post' & E' & Hl).
  assert (pre' = pre ++ v) as ->.
  { rewrite E in E'. rewrite app_assoc in E'. apply app_inj_1 in E' as [E' _]; [done|].
    rewrite length_app. unfold zlen in Hl. lia. }
  exists pre, post'. split; [|done]. by rewrite E', <- !app_assoc.
Qed.

(** ** The invariant *)

Definition frame_ok : Z * list Z -> Prop := fun '(o, v) => slice_at o v /\ v <> [].

Record ok (s : Sequencer) : Prop := {
  ok_consumed : 0 <= num_bytes_consumed_ s <= zlen D;
  ok_frames : Forall frame_ok (frames_ s);
  ok_close : close_offset_ s = kMaxOffset \/ close_offset_ s = zlen D;
  ok_failed : failed (stream_ s) = false;
  ok_closed : half_closed (stream_ s) = true -> num_bytes_consumed_ s = zlen D
}.

(** From [s] to [s'] the stream above got the bytes in between. *)
Definition advances (s s' : Sequencer) : Prop :=
  exists got, delivered (stream_ s') = delivered (stream_ s) ++ got /\
    upto (num_bytes_consumed_ s') = upto (num_bytes_consumed_ s) ++ got /\
    max_frame_memory_ s' = max_frame_memory_ s.

Lemma advances_refl s : advances s s.
Proof. exists []. by rewrite !app_nil_r. Qed.

#[export] Instance advances_preorder : PreOrder advances.
Proof.
  split; [exact advances_refl|]. intros s1 s2 s3 (g1 & D1 & U1 & M1) (g2 & D2 & U2 & M2).
  exists (g1 ++ g2). rewrite D2, D1, U2, U1, M2, M1, <- !app_assoc. done.
Qed.

Lemma map_find_ok k m v : Forall frame_ok m -> map_find k m = Some v -> frame_ok (k, v).
Proof.
  induction 1 as [|[k' v'] m Hv _ IH]; cbn; [done|]. destruct (Z.eqb_spec k' k) as [->|]; [|done].
  by intros [= ->].
Qed.

Lemma map_insert_ok k v m : frame_ok (k, v) -> Forall frame_ok m -> Forall frame_ok (map_insert k v m).
Proof.
  intros Hv. induction 1 as [|[k' v'] m Hv' Hm IH]; cbn; [by constructor|].
  destruct (k <? k'); [by constructor; [|constructor]|]. destruct (k =? k'); by constructor.
Qed.

Lemma map_erase_ok k m : Forall frame_ok m -> Forall frame_ok (map_erase k m).
Proof.
  induction 1 as [|[k' v'] m Hv' Hm IH]; cbn; [done|]. destruct (k' =? k); [done|by constructor].
Qed.

Lemma map_erase_length k m v : map_find k m = Some v -> (length (map_erase k m) < length m)%nat.
Proof.
  induction m as [|[k' v'] m IH]; cbn; [done|]. destruct (Z.eqb_spec k' k); cbn; [lia|].
  intros Hf. specialize (IH Hf). lia.
Qed.

Lemma frame_size k v : frame_ok (k, v) -> 0 < zlen v.
Proof. intros [_ Hv]. destruct v; [done|]. unfold zlen. cbn. lia. Qed.

Lemma deliver_ok s v :
  ok s -> frame_ok (num_bytes_consumed_ s, v) ->
  exists n s', deliver v s = (n, s') /\ 0 <= n <= zlen v /\ ok s' /\ advances s s' /\
    num_bytes_consumed_ s' = num_bytes_consumed_ s + n /\ frames_ s' = frames_ s /\
    slice_at (num_bytes_consumed_ s') (drop (Z.to_nat n) v).
Proof.
  intros [Hc Hf Hcl Hfail Hclosed] Hv. pose proof (frame_size _ _ Hv). destruct Hv as [Hv _].
  pose proof (slice_range _ _ Hv).
  unfold deliver. rewrite wrap_u_id by (unfold in_u; lia).
  pose proof (process_contract v (zlen v) (stream_ s) ltac:(lia)) as Hp.
  destruct (ProcessRawData v (zlen v) (stream_ s)) as [n stream']. destruct Hp as (Hn & Hd & Hh & Hfa).
  rewrite wrap_u_id by (unfold in_u; lia).
  eexists n, _. split; [done|]. split; [done|]. split; [|split; [|split; [done|split; [done|]]]].
  - constructor; cbn; [lia|done|done|congruence|]. rewrite Hh. intros E. specialize (Hclosed E). lia.
  - exists (take (Z.to_nat n) v). cbn. split; [done|]. split; [|done]. by apply slice_upto.
  - cbn. by apply slice_drop.
Qed.

Lemma MaybeCloseStream_ok s :
  ok s -> exists closed s', MaybeCloseStream s = (closed, s') /\ ok s' /\ advances s s' /\
    num_bytes_consumed_ s' = num_bytes_consumed_ s /\ frames_ s' = frames_ s /\
    (closed = true -> num_bytes_consumed_ s' = zlen D).
Proof.
  intros Hs. pose proof Hs as [Hc Hf Hcl Hfail Hclosed]. unfold MaybeCloseStream, IsHalfClosed.
  destruct (Z.leb_spec (close_offset_ s) (num_bytes_consumed_ s)) as [Hle|Hle].
  2:{ exists false, s. split; [done|]. split; [done|]. split; [reflexivity|]. done. }
  assert (num_bytes_consumed_ s = zlen D) as E.
  { destruct Hcl as [Hcl|Hcl]; rewrite Hcl in Hle; [unfold kMaxOffset in Hle|]; lia. }
  destruct (terminate_contract true (stream_ s)) as (H1 & H2 & H3).
  eexists true, _. split; [done|]. split; [|split; [|done]].
  - constructor; cbn; [done|done|done|congruence|done].
  - exists []. cbn. by rewrite H2, !app_nil_r.
Qed.

(** ** Frames *)

(** The frames a peer may send: pieces of the stream, the end marked where the
    stream ends. *)
Definition valid_frame (memory : Z) (f : QuicStreamFrame) : Prop :=
  slice_at (offset f) (frame_data f) /\ zlen (frame_data f) <= memory /\
  (fin f = true -> offset f + zlen (frame_data f) = zlen D) /\
  (frame_data f = [] -> fin f = true).

Lemma with_frames_ok s m : ok s -> Forall frame_ok m -> ok (s <| frames_ := m |>).
Proof. intros [H1 H2 H3 H4 H5] Hm. by constructor. Qed.

Lemma with_frames_advances s s' m : advances s s' -> advances s (s' <| frames_ := m |>).
Proof. intros (got & H1 & H2 & H3). by exists got. Qed.

Lemma drop_nonempty n (v : list Z) : 0 <= n < zlen v -> drop (Z.to_nat n) v <> [].
Proof. intros Hn E. apply (f_equal length) in E. rewrite length_drop in E. unfold zlen in Hn. cbn in E. lia. Qed.

Lemma flush_ok fuel s :
  ok s -> (length (frames_ s) < fuel)%nat ->
  exists s', flush_loop fuel s = Ok s' /\ ok s' /\ advances s s'.
Proof.
  revert s. induction fuel as [|fuel IH]; intros s Hs Hfuel; [lia|]. cbn [flush_loop].
  destruct (map_find _ _) as [v|] eqn:Ef; [|by exists s; repeat split; try done; apply Hs].
  pose proof (map_find_ok _ _ _ (ok_frames _ Hs) Ef) as Hv.
  destruct (deliver_ok s v Hs Hv) as (n & s1 & E1 & Hn & H1 & A1 & C1 & F1 & Sl). rewrite E1.
  destruct (MaybeCloseStream_ok s1 H1) as (closed & s2 & E2 & H2 & A2 & C2 & F2 & _). rewrite E2.
  assert (A : advances s s2) by by etrans.
  destruct closed; [by exists s2|].
  replace (zlen v <? n) with false by lia.
  pose proof (map_erase_ok (num_bytes_consumed_ s) _ (ok_frames _ H2)) as He.
  destruct (Z.eqb_spec n (zlen v)).
  - destruct (IH (s2 <| frames_ := map_erase (num_bytes_consumed_ s) (frames_ s2) |>))
      as (s3 & E3 & H3 & A3).
    + by apply with_frames_ok.
    + cbn. rewrite F2, F1. pose proof (map_erase_length _ _ _ Ef). lia.
    + exists s3. split; [done|]. split; [done|]. etrans; [|exact A3]. by apply with_frames_advances.
  - eexists. split; [done|]. split; [|by do 2 apply with_frames_advances].
    apply with_frames_ok; [by apply with_frames_ok|]. apply map_insert_ok; [|done].
    cbn. rewrite C2. split; [done|]. apply drop_nonempty. lia.
Qed.

Lemma CloseStreamAtOffset_ok s :
  ok s -> exists s', CloseStreamAtOffset (zlen D) s = s' /\ ok s' /\ advances s s' /\
    num_bytes_consumed_ s' = num_bytes_consumed_ s /\ frames_ s' = frames_ s.
Proof.
  intros Hs. unfold CloseStreamAtOffset.
  replace (_ && _) with false by (destruct (ok_close _ Hs) as [-> | ->]; unfold kMaxOffset; lia).
  destruct (MaybeCloseStream_ok (s <| close_offset_ := zlen D |>)) as (c & s' & E & H1 & H2 & H3 & H4 & _).
  { destruct Hs. constructor; cbn; auto. }
  rewrite E. exists s'. split; [done|]. done.
Qed.

Lemma buffer_ok s s' o v :
  ok s' -> advances s s' -> frame_ok (o, v) ->
  exists b s2, Ok (true, s' <| frames_ := map_insert o v (frames_ s') |>) = Ok (b, s2) /\
    ok s2 /\ advances s s2.
Proof.
  intros H1 A Hv. eexists _, _. split; [done|]. split; [|by apply with_frames_advances].
  apply with_frames_ok; [done|]. apply map_insert_ok; [done|apply H1].
Qed.

Lemma OnStreamFrame_ok f s :
  ok s -> valid_frame (max_frame_memory_ s) f ->
  exists b s', OnStreamFrame f s = Ok (b, s') /\ ok s' /\ advances s s'.
Proof.
  intros Hs (Hf & Hm & Hfin & Hempty). pose proof (slice_range _ _ Hf) as Hrange. unfold OnStreamFrame.
  assert (Hsame : forall b : bool, exists (b' : bool) s', Ok (b, s) = Ok (b', s') /\ ok s' /\ advances s s')
    by (intros b; by exists b, s).
  destruct (WillAcceptStreamFrame f s) as [accept|] eqn:Ea; cbn [checked mbind res_bind].
  2:{ exfalso. revert Ea. unfold WillAcceptStreamFrame. rewrite DCHECK_bind.
      replace (zlen (frame_data f) <=? max_frame_memory_ s) with true by lia. by repeat case_if. }
  destruct accept; cbn [negb]; [|apply Hsame]. destruct (IsDuplicate f s); [apply Hsame|].
  replace (_ && negb (fin f)) with false.
  2:{ destruct (fin f) eqn:E; [by rewrite andb_false_r|].
      destruct (frame_data f) eqn:Ed; [by discriminate Hempty|]. unfold zlen. cbn. lia. }
  set (s0 := if fin f then _ else s).
  assert (exists s1, s0 = s1 /\ ok s1 /\ advances s s1 /\
    num_bytes_consumed_ s1 = num_bytes_consumed_ s /\ frames_ s1 = frames_ s)
    as (s1 & -> & H1 & A1 & C1 & F1).
  { unfold s0. destruct (fin f); [|by exists s]. rewrite Hfin by done.
    rewrite wrap_u_id by (unfold in_u; pose proof (zlen_nonneg D); lia). by apply CloseStreamAtOffset_ok. }
  case_if; [by exists true, s1|].
  assert (Hne : frame_data f <> []).
  { intros E. rewrite E in *. rewrite Hempty in Heqb by done. done. }
  destruct (Z.eqb_spec (offset f) (num_bytes_consumed_ s1)) as [Eo|Eo].
  2:{ apply buffer_ok; [done|done|]. by split. }
  destruct (deliver_ok s1 (frame_data f) H1) as (n & s2 & -> & Hn & H2 & A2 & C2 & F2 & Sl).
  { split; [|done]. by rewrite <- Eo. }
  destruct (MaybeCloseStream_ok s2 H2) as (closed & s3 & -> & H3 & A3 & C3 & F3 & _).
  assert (A : advances s s3) by (do 2 (etrans; [eassumption|]); done).
  destruct closed; [by exists true, s3|].
  replace (zlen (frame_data f) <? n) with false by lia.
  destruct (Z.eqb_spec n (zlen (frame_data f))).
  - destruct (flush_ok (S (length (frames_ s3))) s3 H3) as (s4 & E4 & H4 & A4); [lia|].
    unfold FlushBufferedFrames. rewrite E4. cbn [mbind res_bind]. exists true, s4.
    split; [done|]. split; [done|]. by etrans.
  - apply buffer_ok; [done|done|]. rewrite Eo, wrap_u_id by (unfold in_u; lia). rewrite <- C2.
    split; [done|]. apply drop_nonempty. lia.
Qed.

(** ** Reading what is buffered *)

(** All the bytes the readable regions have. *)
Definition regions (m : FrameMap) (o : Z) : list Z := concat (readable_regions m o (length m)).
Definition readable (s : Sequencer) : list Z := regions (frames_ s) (num_bytes_consumed_ s).

Lemma regions_cons o v m :
  frame_ok (o, v) -> regions ((o, v) :: m) o = v ++ regions m (o + zlen v).
Proof.
  intros [Hv _]. pose proof (slice_range _ _ Hv). pose proof (zlen_nonneg v).
  unfold regions. cbn [length readable_regions]. rewrite Z.eqb_refl. cbn [negb concat].
  by rewrite wrap_u_id by (unfold in_u; lia).
Qed.

Lemma regions_gap o o' v m : o <> o' -> regions ((o, v) :: m) o' = [].
Proof. intros Hne. unfold regions. cbn [length readable_regions]. by rewrite (proj2 (Z.eqb_neq _ _) Hne). Qed.

Lemma slice_nil o : 0 <= o <= zlen D -> slice_at o [].
Proof.
  intros Ho. exists (take (Z.to_nat o) D), (drop (Z.to_nat o) D). cbn.
  split; [by rewrite take_drop|by apply zlen_take].
Qed.

Lemma regions_slice m o : Forall frame_ok m -> 0 <= o <= zlen D -> slice_at o (regions m o).
Proof.
  intros Hm. revert o. induction Hm as [|[o' v] m Hv _ IH]; intros o Ho; [by apply slice_nil|].
  destruct (decide (o' = o)) as [->|Hne]; [|rewrite regions_gap by done; by apply slice_nil].
  rewrite regions_cons by done. destruct Hv as [Hv _]. pose proof (slice_range _ _ Hv).
  pose proof (zlen_nonneg v). apply slice_app; [done|]. apply IH. lia.
Qed.

Lemma readable_slice s : ok s -> slice_at (num_bytes_consumed_ s) (readable s).
Proof. intros Hs. apply regions_slice; apply Hs. Qed.

Lemma ok_move s n m :
  ok s -> 0 <= n <= zlen D -> num_bytes_consumed_ s <= n -> Forall frame_ok m ->
  ok (s <| num_bytes_consumed_ := n |> <| frames_ := m |>).
Proof. intros [H1 H2 H3 H4 H5] Hn Hle Hm. constructor; cbn; try done. intros E. specialize (H5 E). lia. Qed.

(** The total size of the buffers. *)
Definition capacity (iov : list Z) : Z := foldr Z.add 0 iov.

Lemma capacity_nonneg iov : Forall (fun len => 0 <= len < 2 ^ 63) iov -> 0 <= capacity iov.
Proof. induction 1 as [|len iov Hl _ IH]; cbn; [lia|]. fold (capacity iov). lia. Qed.

(** Between two turns: [io] bytes are in the first buffer, [fo] bytes of the
    first frame are copied. *)
Record reading (s : Sequencer) (iov : list Z) (io fo : Z) : Prop := {
  re_ok : ok s;
  re_iov : Forall (fun len => 0 <= len < 2 ^ 63) iov;
  re_io : 0 <= io /\ match iov with [] => io = 0 | len :: _ => io <= len end;
  re_fo : fo = 0 \/ exists v rest, frames_ s = (num_bytes_consumed_ s, v) :: rest /\ 0 < fo < zlen v
}.

(** What the rest of the loop copies. *)
Definition to_copy (s : Sequencer) (iov : list Z) (io fo : Z) : list Z :=
  take (Z.to_nat (capacity iov - io)) (drop (Z.to_nat fo) (readable s)).

(** One turn, when there is a buffer and the next frame. *)
Lemma copy_step s v rest len iov io fo (n := Z.min (len - io) (zlen v - fo)) :
  frame_ok (num_bytes_consumed_ s, v) -> frames_ s = (num_bytes_consumed_ s, v) :: rest ->
  0 <= io <= len -> 0 <= fo < zlen v -> 0 <= capacity iov ->
  to_copy s (len :: iov) io fo =
    take (Z.to_nat n) (drop (Z.to_nat fo) v) ++
    take (Z.to_nat (capacity iov + (len - io - n)))
      (drop (Z.to_nat (fo + n)) v ++ regions rest (num_bytes_consumed_ s + zlen v)).
Proof.
  intros Hv Ef Hio Hfo Hcap. unfold to_copy, readable. rewrite Ef, regions_cons by done.
  cbn [capacity foldr]. fold (capacity iov).
  assert (Hn : 0 <= n <= zlen v - fo) by (unfold n; lia).
  assert (Hl : length (take (Z.to_nat n) (drop (Z.to_nat fo) v)) = Z.to_nat n).
  { unfold zlen in *. rewrite length_take, length_drop. lia. }
  unfold zlen in Hfo, Hn. rewrite (drop_app_le v _ (Z.to_nat fo)) by lia.
  rewrite <- (take_drop (Z.to_nat n) (drop (Z.to_nat fo) v)) at 1. rewrite drop_drop.
  rewrite <- app_assoc. rewrite take_app, Hl. f_equal.
  - apply take_ge. rewrite Hl. unfold n. lia.
  - f_equal; [unfold n; lia|]. f_equal. f_equal. lia.
Qed.

(** What a loop over the frames leaves alone. *)
Definition same_stream (s s' : Sequencer) : Prop :=
  stream_ s' = stream_ s /\ max_frame_memory_ s' = max_frame_memory_ s.

Lemma reading_step s v rest len iov io fo n :
  reading s (len :: iov) io fo -> frames_ s = (num_bytes_consumed_ s, v) :: rest ->
  n = Z.min (len - io) (zlen v - fo) ->
  let '(iov2, io2) := if len =? io + n then (iov, 0) else (len :: iov, io + n) in
  let '(s2, fo2) :=
    if zlen v =? fo + n then
      (s <| num_bytes_consumed_ := num_bytes_consumed_ s + zlen v |> <| frames_ := rest |>, 0)
    else (s, fo + n) in
  reading s2 iov2 io2 fo2 /\ same_stream s s2 /\
  num_bytes_consumed_ s2 + fo2 = num_bytes_consumed_ s + fo + n /\
  (length iov2 + length (frames_ s2) < S (length iov) + S (length rest))%nat /\
  to_copy s (len :: iov) io fo =
    take (Z.to_nat n) (drop (Z.to_nat fo) v) ++ to_copy s2 iov2 io2 fo2.
Proof.
  intros [Hok Hiov Hio Hfo] Ef En. pose proof (ok_frames _ Hok) as Hfr. rewrite Ef in Hfr.
  apply Forall_cons in Hfr as [Hv Hrest]. pose proof (frame_size _ _ Hv) as Hvpos.
  apply Forall_cons in Hiov as [Hlen Hiov].
  assert (Hfo' : 0 <= fo < zlen v).
  { destruct Hfo as [->|(v' & rest' & E & ?)]; [lia|]. rewrite Ef in E. injection E as <- <-. lia. }
  pose proof (slice_range _ _ (proj1 Hv)) as Hr. pose proof (capacity_nonneg _ Hiov) as Hcap.
  rewrite (copy_step s v rest len iov io fo Hv Ef) by lia. rewrite <- En.
  set (copied := take (Z.to_nat n) _).
  assert (Hmove : ok (s <| num_bytes_consumed_ := num_bytes_consumed_ s + zlen v |> <| frames_ := rest |>))
    by (apply ok_move; [done|lia..|done]).
  destruct (Z.eqb_spec len (io + n)) as [E1|E1], (Z.eqb_spec (zlen v) (fo + n)) as [E2|E2]; try lia.
  all: split; [constructor; cbn; try done|split; [done|split; [cbn; lia|split; [cbn [length frames_];
    rewrite ?Ef; cbn; lia|]]]].
  all: try (by left); try (split; [lia|by destruct iov; [|inversion Hiov; lia]]); try lia.
  all: try (by constructor); 
    try (destruct (decide (fo + n = 0)); [by left|right; exists v, rest; split; [done|lia]]).
  all: f_equal; unfold to_copy, readable; f_equal; [f_equal; cbn [capacity foldr]; fold (capacity iov); lia|].
  - rewrite drop_ge by (unfold zlen in *; lia). done.
  - rewrite Ef, regions_cons, (drop_app_le v) by (done || unfold zlen in *; lia). done.
  - rewrite drop_ge by (unfold zlen in *; lia). done.
Qed.

Lemma readv_loop_ok fuel iov io fo copied s :
  reading s iov io fo -> (length iov + length (frames_ s) < fuel)%nat ->
  exists fo' s', readv_loop fuel iov io fo copied s = Ok (fo', copied ++ to_copy s iov io fo, s') /\
    (exists iov' io', reading s' iov' io' fo') /\ same_stream s s' /\
    num_bytes_consumed_ s' + fo' = num_bytes_consumed_ s + fo + zlen (to_copy s iov io fo).
Proof.
  revert iov io fo copied s. induction fuel as [|fuel IH]; intros iov io fo copied s Hr Hfuel; [lia|].
  assert (Hend : to_copy s iov io fo = [] ->
    exists fo' s', Ok (fo, copied, s) = Ok (fo', copied ++ to_copy s iov io fo, s') /\
      (exists iov' io', reading s' iov' io' fo') /\ same_stream s s' /\
      num_bytes_consumed_ s' + fo' = num_bytes_consumed_ s + fo + zlen (to_copy s iov io fo)).
  { intros ->. exists fo, s. rewrite app_nil_r. split; [done|]. split; [by exists iov, io|]. split; [done|].
    unfold zlen. cbn. lia. }
  pose proof Hr as [Hok Hiov Hio Hfo]. cbn [readv_loop]. destruct iov as [|len iov].
  { apply Hend. unfold to_copy. by rewrite (proj2 Hio). }
  destruct (frames_ s) as [|[first v] rest] eqn:Ef.
  { apply Hend. unfold to_copy, readable. rewrite Ef. change (regions [] _) with (@nil Z).
    by rewrite drop_nil, take_nil. }
  destruct (Z.eqb_spec first (num_bytes_consumed_ s)) as [->|Hne].
  2:{ apply Hend. unfold to_copy, readable. rewrite Ef, regions_gap by done. by rewrite drop_nil, take_nil. }
  set (n := Z.min (len - io) (zlen v - fo)).
  pose proof (reading_step s v rest len iov io fo n Hr Ef eq_refl) as Hstep.
  pose proof (ok_frames _ Hok) as Hfr. rewrite Ef in Hfr. apply Forall_cons in Hfr as [Hv _].
  pose proof (slice_range _ _ (proj1 Hv)). apply Forall_cons in Hiov as [Hlen _].
  pose proof (frame_size _ _ Hv).
  assert (Hfo' : 0 <= fo < zlen v).
  { destruct Hfo as [->|(v' & rest' & E & ?)]; [lia|]. injection E as <- <-. lia. }
  rewrite (wrap_u_id 64 (len - io)) by (unfold in_u; lia).
  rewrite (wrap_u_id 64 (zlen v - fo)) by (unfold in_u; lia).
  rewrite s32_id by lia. fold n. rewrite (wrap_u_id 64 (fo + n)) by (unfold in_u; lia).
  rewrite (wrap_u_id 64 (io + n)) by (unfold in_u; lia).
  rewrite (wrap_u_id 64 (num_bytes_consumed_ s + _)) by (unfold in_u; lia).
  destruct (if len =? io + n then _ else _) as [iov2 io2].
  destruct (if zlen v =? fo + n then _ else _) as [s2 fo2].
  destruct Hstep as (Hr2 & Hs2 & Hc2 & Hm & ->).
  destruct (IH iov2 io2 fo2 (copied ++ take (Z.to_nat n) (drop (Z.to_nat fo) v)) s2 Hr2)
    as (fo3 & s3 & E3 & H3 & Hs3 & Hc3); [cbn [length] in Hfuel; lia|].
  exists fo3, s3. rewrite E3, <- app_assoc. split; [done|]. split; [done|].
  split; [destruct Hs2, Hs3; split; congruence|].
  rewrite Hc3, zlen_app. assert (Hn : 0 <= n <= zlen v - fo) by (unfold n; lia).
  rewrite zlen_take by (rewrite zlen_drop; lia). lia.
Qed.

(** Reading returns as much of what is readable as the buffers hold. *)
Lemma Readv_ok iov s :
  ok s -> Forall (fun len => 0 <= len < 2 ^ 63) iov ->
  let copied := take (Z.to_nat (capacity iov)) (readable s) in
  exists s', Readv iov s = Ok (zlen copied, copied, s') /\ ok s' /\ same_stream s s' /\
    num_bytes_consumed_ s' = num_bytes_consumed_ s + zlen copied.
Proof.
  intros Hok Hiov copied. unfold Readv.
  assert (Hr : reading s iov 0 0).
  { constructor; [done|done| |by left]. split; [lia|]. destruct iov; [done|]. inversion Hiov. lia. }
  destruct (readv_loop_ok (S (length iov + length (frames_ s))) iov 0 0 [] s Hr)
    as (fo & s1 & -> & (iov1 & io1 & [Hok1 _ _ Hfo]) & Hs1 & Hc1); [lia|].
  unfold to_copy in *. rewrite Z.sub_0_r in *. change (drop (Z.to_nat 0) (readable s)) with (readable s) in *.
  fold copied in Hc1 |- *. cbn [app mbind res_bind].
  pose proof (readable_slice s Hok) as Hsl. pose proof (ok_consumed _ Hok).
  assert (zlen copied <= zlen D - num_bytes_consumed_ s).
  { pose proof (slice_range _ _ Hsl). unfold copied, zlen in *. rewrite length_take. lia. }
  pose proof (zlen_nonneg copied).
  set (last := if negb (fo =? 0) then _ else _).
  assert (exists s2, last = Ok s2 /\ ok s2 /\ same_stream s1 s2 /\
      num_bytes_consumed_ s2 = num_bytes_consumed_ s1 + fo) as (s2 & -> & Hok2 & Hs2 & Hc2).
  { subst last. destruct (Z.eqb_spec fo 0) as [->|Hne]; cbn [negb]; [exists s1; by rewrite Z.add_0_r|].
    destruct Hfo as [?|(v & rest & Ef & Hfo)]; [done|]. rewrite Ef. cbv zeta.
    pose proof (ok_frames _ Hok1) as Hfr. rewrite Ef in Hfr. apply Forall_cons in Hfr as [Hv Hrest].
    pose proof (slice_range _ _ (proj1 Hv)).
    rewrite !wrap_u_id by (unfold in_u; cbn; lia). eexists. split; [reflexivity|].
    split; [|done]. constructor; cbn; [lia|..|apply Hok1|apply Hok1|].
    - replace (num_bytes_consumed_ s1 + fo <? num_bytes_consumed_ s1) with false by lia.
      replace (num_bytes_consumed_ s1 + fo =? num_bytes_consumed_ s1) with false by lia. cbn [tail].
      apply map_insert_ok; [|done]. split; [apply slice_drop; [apply Hv|lia]|apply drop_nonempty; lia].
    - intros E. pose proof (ok_closed _ Hok1 E). lia. }
  cbn [mbind res_bind]. rewrite s32_id by lia. exists s2.
  replace (num_bytes_consumed_ s2 - num_bytes_consumed_ s) with (zlen copied) by lia.
  split; [done|]. split; [done|]. split; [destruct Hs1, Hs2; split; congruence|lia].
Qed.

Lemma mark_loop_ok fuel n s :
  ok s -> 0 <= n <= zlen (readable s) -> (length (frames_ s) < fuel)%nat ->
  exists s', mark_loop fuel (num_bytes_consumed_ s + n) s = Ok s' /\ ok s' /\ same_stream s s' /\
    num_bytes_consumed_ s' = num_bytes_consumed_ s + n.
Proof.
  revert n s. induction fuel as [|fuel IH]; intros n s Hok Hn Hfuel; [lia|]. cbn [mark_loop].
  pose proof (ok_frames _ Hok) as Hfr. unfold readable in Hn.
  destruct (frames_ s) as [|[first v] rest] eqn:Ef.
  { exists s. unfold zlen in Hn. cbn in Hn. split; [done|]. split; [done|]. split; [done|lia]. }
  apply Forall_cons in Hfr as [Hv Hrest]. destruct (Z.eqb_spec (num_bytes_consumed_ s + n) (num_bytes_consumed_ s)).
  { exists s. split; [done|]. split; [done|]. split; [done|lia]. }
  destruct (Z.eqb_spec first (num_bytes_consumed_ s)) as [->|Hne]; cbn [negb].
  2:{ rewrite regions_gap in Hn by done. unfold zlen in Hn. cbn in Hn. lia. }
  pose proof (slice_range _ _ (proj1 Hv)). pose proof (zlen_nonneg v).
  rewrite regions_cons in Hn by done. rewrite zlen_app in Hn.
  pose proof (ok_consumed _ Hok). rewrite (wrap_u_id 64 (num_bytes_consumed_ s + zlen v)) by (unfold in_u; lia).
  destruct (Z.leb_spec (num_bytes_consumed_ s + zlen v) (num_bytes_consumed_ s + n)).
  - set (s1 := s <| num_bytes_consumed_ := _ |> <| frames_ := rest |>).
    assert (Hok1 : ok s1) by (apply ok_move; [done|lia..|done]).
    destruct (IH (n - zlen v) s1 Hok1) as (s2 & E2 & Hok2 & Hs2 & Hc2).
    + change (readable s1) with (regions rest (num_bytes_consumed_ s + zlen v)). lia.
    + change (frames_ s1) with rest. cbn [length] in Hfuel. lia.
    + exists s2. replace (num_bytes_consumed_ s + n) with (num_bytes_consumed_ s1 + (n - zlen v))
        by (change (num_bytes_consumed_ s1) with (num_bytes_consumed_ s + zlen v); lia).
      split; [done|]. split; [done|]. split; [exact Hs2|]. rewrite Hc2.
      change (num_bytes_consumed_ s1) with (num_bytes_consumed_ s + zlen v). lia.
  - replace (num_bytes_consumed_ s + n - num_bytes_consumed_ s) with n by lia.
    rewrite (wrap_u_id 64 n) by (unfold in_u; lia).
    rewrite (wrap_u_id 64 (num_bytes_consumed_ s + n)) by (unfold in_u; lia).
    eexists. split; [reflexivity|]. split; [|done]. constructor; cbn; [lia|..|apply Hok|apply Hok|].
    + rewrite Ef. apply map_erase_ok, map_insert_ok; [|by constructor].
      split; [apply slice_drop; [apply Hv|lia]|apply drop_nonempty; lia].
    + intros E. pose proof (ok_closed _ Hok E). lia.
Qed.

(** ** Any use of a sequencer *)

(** The states a sequencer can be in, with the bytes that were passed on so far:
    to the stream above, copied out by [Readv], or taken from the readable
    regions and then marked as consumed. *)
Inductive reachable : Sequencer -> list Z -> Prop :=
  | reach_new memory stream :
      delivered stream = [] -> half_closed stream = false -> failed stream = false ->
      reachable (new_QuicStreamSequencer_with_memory memory stream) []
  | reach_frame s log f accepted s' :
      reachable s log -> valid_frame (max_frame_memory_ s) f ->
      OnStreamFrame f s = Ok (accepted, s') ->
      reachable s' (log ++ drop (length (delivered (stream_ s))) (delivered (stream_ s')))
  | reach_read s log iov n copied s' :
      reachable s log -> Forall (fun len => 0 <= len < 2 ^ 63) iov ->
      Readv iov s = Ok (n, copied, s') -> reachable s' (log ++ copied)
  | reach_mark s log iov_len n s' :
      reachable s log -> let taken := concat (GetReadableRegions iov_len s) in
      0 <= n <= zlen taken -> MarkConsumed n s = Ok s' ->
      reachable s' (log ++ take (Z.to_nat n) taken).

(** Fewer regions are the first of all of them. *)
Lemma regions_prefix m o iov_len : concat (readable_regions m o iov_len) `prefix_of` regions m o.
Proof.
  unfold regions. revert o iov_len. induction m as [|[o' v] m IH]; intros o [|iov_len];
    cbn [readable_regions length]; [by apply prefix_nil..|].
  destruct (negb (o' =? o)); [by apply prefix_nil|]. cbn [concat]. by apply prefix_app.
Qed.

Lemma upto_slice s log n :
  ok s -> log = upto (num_bytes_consumed_ s) -> 0 <= n <= zlen (readable s) ->
  log ++ take (Z.to_nat n) (readable s) = upto (num_bytes_consumed_ s + n).
Proof. intros Hs -> Hn. symmetry. apply slice_upto; [by apply readable_slice|done]. Qed.

Lemma reachable_ok s log : reachable s log -> ok s /\ log = upto (num_bytes_consumed_ s).
Proof.
  induction 1 as [memory stream Hd Hh Hf|s log f b s' _ [Hs Hl] Hv E|s log iov n copied s' _ [Hs Hl] Hi E|
    s log iov_len n s' _ [Hs Hl] taken Hn E].
  - split; [|done]. constructor; cbn; [pose proof (zlen_nonneg D); lia|done|by left|done|congruence].
  - destruct (OnStreamFrame_ok f s Hs Hv) as (b' & s2 & E2 & Hs2 & (got & Hd & Hu & _)).
    rewrite E in E2. injection E2 as <- <-. split; [done|]. by rewrite Hd, drop_app_length, Hu, Hl.
  - destruct (Readv_ok iov s Hs Hi) as (s2 & E2 & Hs2 & _ & Hc). rewrite E in E2.
    injection E2 as -> -> <-. split; [done|]. rewrite Hc.
    set (c := capacity iov). pose proof (capacity_nonneg iov Hi). pose proof (zlen_nonneg (readable s)).
    rewrite <- (upto_slice s log) by (done || unfold zlen; rewrite length_take; lia). f_equal.
    unfold zlen. rewrite Nat2Z.id, length_take. destruct (Nat.le_gt_cases (Z.to_nat c) (length (readable s))).
    + f_equal. lia.
    + rewrite !take_ge by lia. done.
  - destruct (regions_prefix (frames_ s) (num_bytes_consumed_ s) iov_len) as [more Em].
    change (regions _ _) with (readable s) in Em. change (concat _) with taken in Em.
    assert (Hn' : 0 <= n <= zlen (readable s)) by (rewrite Em, zlen_app; pose proof (zlen_nonneg more); lia).
    pose proof (slice_range _ _ (readable_slice s Hs)).
    destruct (mark_loop_ok (S (length (frames_ s))) n s Hs Hn') as (s2 & E2 & Hs2 & _ & Hc); [lia|].
    unfold MarkConsumed in E. pose proof (ok_consumed _ Hs).
    rewrite wrap_u_id in E by (unfold in_u; lia). rewrite E in E2. injection E2 as <-.
    split; [done|]. rewrite Hc, <- (upto_slice s log) by done. f_equal. rewrite Em.
    symmetry. apply take_app_le. unfold zlen in *. lia.
Qed.
End InOrder.

(** C21. A stream is passed on in order: however the frames of a stream are cut,
    reordered, repeated, delayed or lost, and however the bytes are taken, by the
    stream above, by copying or in place, what was passed on is at any time the
    first bytes of the stream, as many as are counted; no call fails a check or
    loops, none is reported as an error, and the end is only reported behind the
    last byte. *)
Theorem stream_in_order {Stream} `{StreamContract Stream} (D : list Z) s log :
  zlen D < 2 ^ 31 -> reachable D s log ->
  log = take (Z.to_nat (num_bytes_consumed_ s)) D /\
  failed (stream_ s) = false /\
  (half_closed (stream_ s) = true -> log = D) /\
  (forall f, valid_frame D (max_frame_memory_ s) f -> exists accepted s', OnStreamFrame f s = Ok (accepted, s')) /\
  (forall iov, Forall (fun len => 0 <= len < 2 ^ 63) iov ->
     exists n copied s', Readv iov s = Ok (n, copied, s')) /\
  (forall n, 0 <= n <= zlen (readable s) -> exists s', MarkConsumed n s = Ok s').
Proof.
  intros HD Hr. destruct (reachable_ok D HD s log Hr) as [Hs ->].
  split; [done|]. split; [apply Hs|]. split; [|split; [|split]].
  - intros Hh. rewrite (ok_closed D _ Hs Hh). apply take_ge. unfold zlen. lia.
  - intros f Hf. destruct (OnStreamFrame_ok D HD f s Hs Hf) as (b & s' & E & _). eauto.
  - intros iov Hi. destruct (Readv_ok D HD iov s Hs Hi) as (s' & E & _). eauto.
  - intros n Hn. pose proof (slice_range D HD _ _ (readable_slice D HD s Hs)). pose proof (ok_consumed D _ Hs).
    destruct (mark_loop_ok D HD (S (length (frames_ s))) n s Hs Hn) as (s' & E & _); [lia|].
    unfold MarkConsumed. rewrite wrap_u_id by (unfold in_u; lia). eauto.
Qed.

(** A stream that takes at most two bytes a call. *)
Record Sip := mkSip { sipped : list Z; sip_ended : bool; sip_errors : list string }.
#[export] Instance Sip_stream : ReliableQuicStream Sip := {|
  ProcessRawData data len s :=
    (Z.min 2 len, mkSip (sipped s ++ take (Z.to_nat (Z.min 2 len)) data) (sip_ended s) (sip_errors s));
  TerminateFromPeer _ s := mkSip (sipped s) true (sip_errors s);
  Close e s := mkSip (sipped s) (sip_ended s) (e :: sip_errors s);
  CloseConnectionWithDetails e s := mkSip (sipped s) (sip_ended s) (e :: sip_errors s)
|}.
Definition sip_failed (s : Sip) : bool := match sip_errors s with [] => false | _ => true end.
#[export] Instance Sip_contract : StreamContract Sip.
Proof.
  refine {| delivered := sipped; half_closed := sip_ended; failed := sip_failed |}.
  - intros data len s Hlen. cbn -[Z.min]. split; [lia|done].
  - done.
Defined.

Lemma stream_in_order_witness :
  let D := str "hello, world" in
  exists (s : QuicStreamSequencer Sip) log,
    zlen D < 2 ^ 31 /\ reachable D s log /\
    log = take (Z.to_nat (num_bytes_consumed_ s)) D /\ log = str "hello, w" /\
    failed (stream_ s) = false.
Proof.
  intros D. assert (HD : zlen D < 2 ^ 31) by (vm_compute; reflexivity).
  assert (V1 : valid_frame D 1472 (mkQuicStreamFrame true 5 (str ", world"))).
  { split; [by exists (str "hello"), []|]. by split; [vm_compute|]. }
  assert (V2 : valid_frame D 1472 (mkQuicStreamFrame false 0 (str "hello"))).
  { split; [by exists [], (str ", world")|]. by split; [vm_compute|]. }
  pose proof (reach_new D 1472 (mkSip [] false []) eq_refl eq_refl eq_refl) as R0.
  pose proof (reach_frame D _ _ _ _ _ R0 V1 eq_refl) as R1. cbn in R1.
  pose proof (reach_frame D _ _ _ _ _ R1 V2 eq_refl) as R2. vm_compute in R2.
  pose proof (reach_read D _ _ [4; 2] _ _ _ R2
    ltac:(repeat constructor; lia) ltac:(vm_compute; reflexivity)) as R3. vm_compute in R3.
  eexists _, _. split; [exact HD|]. split; [exact R3|].
  destruct (stream_in_order D _ _ HD R3) as (Hl & Hf & _).
  split; [exact Hl|]. split; [reflexivity|exact Hf].
Defined.
