(* ===== verification/QuicStreamDelivery.v ===== *)
(** When every frame of a stream has arrived, in whatever order, a stream that
    takes what it is offered has been passed all of it and told about the end. *)
From S2P Require Import Prelude QuicStreamSequencer QuicStreamProperties.
From Stdlib Require Import ZifyBool.

(** ** Looking up what was inserted and erased *)

Lemma map_find_insert k v m k' :
  map_find k m = None ->
  map_find k' (map_insert k v m) = if k' =? k then Some v else map_find k' m.
Proof.
  induction m as [|[k1 v1] m IH]; cbn [map_insert map_find]; intros Hk.
  - rewrite (Z.eqb_sym k k'). done.
  - destruct (Z.eqb_spec k1 k); [done|]. destruct (Z.ltb_spec k k1); cbn [map_find].
    + by rewrite (Z.eqb_sym k k').
    + replace (k =? k1) with false by lia. cbn [map_find]. rewrite IH by done.
      destruct (Z.eqb_spec k1 k'), (Z.eqb_spec k' k); try done; lia.
Qed.

Lemma map_find_In k v m : map_find k m = Some v -> In k (map fst m).
Proof.
  induction m as [|[k1 v1] m IH]; cbn; [done|]. destruct (Z.eqb_spec k1 k); [by left|]. intros Hf. right. auto.
Qed.

Lemma map_find_None k m : map_find k m = None <-> ~ In k (map fst m).
Proof.
  induction m as [|[k1 v1] m IH]; cbn; [naive_solver|]. destruct (Z.eqb_spec k1 k); naive_solver.
Qed.

Lemma map_find_erase k m k' :
  NoDup (map fst m) -> map_find k' (map_erase k m) = if k' =? k then None else map_find k' m.
Proof.
  induction m as [|[k1 v1] m IH]; cbn [map_erase map_find map fst]; intros Hnd; [by case_if|].
  apply NoDup_cons in Hnd as [Hk Hnd]. destruct (Z.eqb_spec k1 k) as [E|Hne].
  - destruct (Z.eqb_spec k' k) as [E'|Hne']; [|by rewrite (proj2 (Z.eqb_neq k1 k')) by congruence].
    apply map_find_None. rewrite E', <- E. by rewrite <- list_elem_of_In.
  - cbn [map_find]. rewrite IH by done. destruct (Z.eqb_spec k1 k'), (Z.eqb_spec k' k); congruence.
Qed.

Lemma map_insert_keys k v m : map fst (map_insert k v m) ≡ₚ map fst m \/
  map fst (map_insert k v m) ≡ₚ k :: map fst m.
Proof.
  induction m as [|[k1 v1] m IH]; cbn [map_insert]; [by right|].
  destruct (k <? k1); [by right|]. destruct (k =? k1); [by left|].
  cbn [map fst]. destruct IH as [-> | ->]; [by left|right]. apply Permutation_swap.
Qed.

Lemma NoDup_insert k v m :
  map_find k m = None -> NoDup (map fst m) -> NoDup (map fst (map_insert k v m)).
Proof.
  intros Hk%map_find_None Hnd. destruct (map_insert_keys k v m) as [-> | ->]; [done|].
  constructor; [|done]. by rewrite list_elem_of_In.
Qed.

Lemma map_erase_sub k m : map_erase k m `sublist_of` m.
Proof.
  induction m as [|[k1 v1] m IH]; cbn; [done|]. destruct (k1 =? k); [by constructor|by constructor].
Qed.

Lemma NoDup_erase k m : NoDup (map fst m) -> NoDup (map fst (map_erase k m)).
Proof. intros Hnd. eapply sublist_NoDup; [exact Hnd|]. apply (fmap_sublist fst), map_erase_sub. Qed.

Section Delivery.
Context {Stream : Type} `{StreamContract Stream}.
Abbreviation Sequencer := (QuicStreamSequencer Stream).

(** The stream above takes what it is offered. *)
Hypothesis greedy : forall data len stream,
  0 <= len <= zlen data -> fst (ProcessRawData data len stream) = len.

(** The chunks the peer cut the stream into. *)
Context (chunks : list (list Z)).
Hypothesis chunks_nonempty : Forall (fun c => c <> []) chunks.
Let n := length chunks.
Hypothesis some_chunk : (0 < n)%nat.

Definition stream_of : list Z := concat chunks.
Hypothesis stream_size : zlen stream_of < 2 ^ 31.

Definition off (i : nat) : Z := zlen (concat (take i chunks)).
Definition chunk (i : nat) : list Z := default [] (chunks !! i).
Definition frame (i : nat) : QuicStreamFrame :=
  mkQuicStreamFrame (i =? n - 1)%nat (off i) (chunk i).

Lemma chunk_nonempty i : (i < n)%nat -> 0 < zlen (chunk i).
Proof.
  intros Hi. destruct (lookup_lt_is_Some_2 chunks i Hi) as [c Hc]. unfold chunk. rewrite Hc. cbn.
  pose proof (Forall_lookup_1 _ _ _ _ chunks_nonempty Hc). destruct c; [done|]. unfold zlen. cbn. lia.
Qed.

Lemma off_S i : (i < n)%nat -> off (S i) = off i + zlen (chunk i).
Proof.
  intros Hi. destruct (lookup_lt_is_Some_2 chunks i Hi) as [c Hc]. unfold off, chunk.
  rewrite (take_S_r _ _ c Hc), concat_app, zlen_app, Hc. cbn. by rewrite app_nil_r.
Qed.

Lemma off_end : off n = zlen stream_of.
Proof. unfold off. by rewrite take_ge by done. Qed.

Lemma off_lt i j : (i < j <= n)%nat -> off i < off j.
Proof.
  intros [Hij Hj]. induction j as [|j IH]; [lia|]. rewrite off_S by lia.
  pose proof (chunk_nonempty j ltac:(lia)). destruct (decide (i = j)) as [->|]; [lia|].
  specialize (IH ltac:(lia) ltac:(lia)). lia.
Qed.

Lemma off_lt_iff i j : (i <= n)%nat -> (j <= n)%nat -> off i < off j <-> (i < j)%nat.
Proof.
  intros Hi Hj. split; [|intros; apply off_lt; lia]. intros Ho.
  destruct (decide (i < j)%nat); [done|]. destruct (decide (i = j)) as [->|]; [lia|].
  pose proof (off_lt j i ltac:(lia)). lia.
Qed.

Lemma off_inj i j : (i <= n)%nat -> (j <= n)%nat -> off i = off j -> i = j.
Proof. intros Hi Hj E. pose proof (off_lt_iff i j Hi Hj). pose proof (off_lt_iff j i Hj Hi). lia. Qed.

Lemma frame_slice i : (i < n)%nat -> slice_at stream_of (off i) (chunk i).
Proof.
  intros Hi. destruct (lookup_lt_is_Some_2 chunks i Hi) as [c Hc]. unfold chunk, off. rewrite Hc.
  exists (concat (take i chunks)), (concat (drop (S i) chunks)). split; [|done]. cbn.
  unfold stream_of. rewrite <- (take_drop_middle _ _ _ Hc) at 1. by rewrite concat_app.
Qed.

Abbreviation D := stream_of.

(** The frames in [A] arrived. *)
Record got (A : nat -> Prop) (s : Sequencer) : Prop := {
  g_ok : ok D s;
  g_memory : zlen D <= max_frame_memory_ s;
  g_nodup : NoDup (map fst (frames_ s));
  g_entries : forall k v, map_find k (frames_ s) = Some v ->
    exists i, (i < n)%nat /\ k = off i /\ v = chunk i;
  g_boundary : exists j, (j <= n)%nat /\ num_bytes_consumed_ s = off j;
  g_have : forall i, (i < n)%nat ->
    A i <-> off i < num_bytes_consumed_ s \/ map_find (off i) (frames_ s) <> None;
  g_close : A (n - 1)%nat -> close_offset_ s = zlen D;
  g_closed : close_offset_ s = zlen D -> num_bytes_consumed_ s = zlen D ->
    half_closed (stream_ s) = true;
  g_delivered : delivered (stream_ s) = upto D (num_bytes_consumed_ s)
}.

Definition settled (s : Sequencer) : Prop := map_find (num_bytes_consumed_ s) (frames_ s) = None.

Lemma delivered_advances s s' :
  delivered (stream_ s) = upto D (num_bytes_consumed_ s) -> advances D s s' ->
  delivered (stream_ s') = upto D (num_bytes_consumed_ s').
Proof. intros E (more & -> & -> & _). by rewrite E. Qed.

Lemma chunk_frame_ok i : (i < n)%nat -> frame_ok D (off i, chunk i).
Proof.
  intros Hi. split; [by apply frame_slice|]. intros E. pose proof (chunk_nonempty i Hi) as Hc.
  rewrite E in Hc. done.
Qed.

Lemma deliver_greedy s v :
  ok D s -> frame_ok D (num_bytes_consumed_ s, v) ->
  exists s', deliver v s = (zlen v, s') /\ ok D s' /\ advances D s s' /\
    num_bytes_consumed_ s' = num_bytes_consumed_ s + zlen v /\ frames_ s' = frames_ s /\
    close_offset_ s' = close_offset_ s.
Proof.
  intros Hs Hv. destruct (deliver_ok D stream_size s v Hs Hv) as (m & s' & E & _ & H1 & H2 & H3 & H4 & _).
  destruct Hv as [Hv _]. pose proof (slice_range D stream_size _ _ Hv). pose proof (zlen_nonneg v).
  pose proof E as E'. unfold deliver in E'. rewrite wrap_u_id in E' by (unfold in_u; lia).
  pose proof (greedy v (zlen v) (stream_ s) ltac:(lia)) as Hg.
  destruct (ProcessRawData v (zlen v) (stream_ s)) as [m' stream']. cbn in Hg. subst m'.
  injection E' as <- <-. exists (s <| stream_ := stream' |> <| num_bytes_consumed_ := u64 (num_bytes_consumed_ s + zlen v) |>).
  done.
Qed.

(** Passing on the chunk at the front, and closing behind the last one. *)
Lemma deliver_chunk A s i :
  (i < n)%nat -> ok D s -> zlen D <= max_frame_memory_ s -> NoDup (map fst (frames_ s)) ->
  (forall k v, map_find k (frames_ s) = Some v -> exists i, (i < n)%nat /\ k = off i /\ v = chunk i) ->
  num_bytes_consumed_ s = off i ->
  (forall j, (j < n)%nat -> A j <-> off j < off (S i) \/ map_find (off j) (frames_ s) <> None) ->
  (A (n - 1)%nat -> close_offset_ s = zlen D) ->
  delivered (stream_ s) = upto D (num_bytes_consumed_ s) ->
  exists s1 closed s2, deliver (chunk i) s = (zlen (chunk i), s1) /\
    MaybeCloseStream s1 = (closed, s2) /\ got A s2 /\ num_bytes_consumed_ s2 = off (S i) /\
    frames_ s2 = frames_ s /\ (closed = true -> settled s2).
Proof.
  intros Hi Hok Hmem Hnd Hent Hcons Hhave Hclose Hdel.
  destruct (deliver_greedy s (chunk i) Hok) as (s1 & E1 & H1 & A1 & C1 & F1 & Cl1).
  { rewrite Hcons. by apply chunk_frame_ok. }
  rewrite Hcons, <- off_S in C1 by done.
  destruct (MaybeCloseStream_ok D stream_size s1 H1) as (closed & s2 & E2 & H2 & A2 & C2 & F2 & Hc2).
  exists s1, closed, s2. split; [done|]. split; [done|].
  assert (Hadv : advances D s s2) by by etrans.
  assert (Hmem2 : max_frame_memory_ s2 = max_frame_memory_ s) by (by destruct Hadv as (? & _ & _ & ?)).
  assert (Hcl2 : close_offset_ s2 = close_offset_ s1 /\
    (close_offset_ s1 <= num_bytes_consumed_ s1 -> half_closed (stream_ s2) = true)).
  { unfold MaybeCloseStream, IsHalfClosed in E2.
    destruct (Z.leb_spec (close_offset_ s1) (num_bytes_consumed_ s1)); injection E2 as <- <-; [|split; [done|lia]].
    split; [done|]. intros _. apply (terminate_contract true (stream_ s1)). }
  split; [|split; [congruence|split; [congruence|]]].
  - constructor; rewrite ?F2, ?F1, ?C2, ?C1, ?Hmem2; try done.
    + by exists (S i).
    + rewrite (proj1 Hcl2), Cl1. done.
    + intros Ec Ed. apply Hcl2. rewrite C1, <- (proj1 Hcl2). lia.
    + rewrite <- C1, <- C2. by apply delivered_advances with s.
  - intros Hcl. unfold settled. rewrite (Hc2 Hcl), F2, F1, <- off_end.
    destruct (map_find _ _) eqn:E; [|done]. destruct (Hent _ _ E) as (j & Hj & Eo & _).
    apply off_inj in Eo; lia.
Qed.

(** Passing on chunk [i] moves exactly it from the map to what was consumed. *)
Lemma have_next (A : nat -> Prop) (s : Sequencer) i :
  (i < n)%nat -> num_bytes_consumed_ s = off i ->
  (forall j, (j < n)%nat -> A j <-> off j < num_bytes_consumed_ s \/ map_find (off j) (frames_ s) <> None) ->
  forall j, (j < n)%nat ->
    A j \/ j = i <-> off j < off (S i) \/ map_find (off j) (frames_ s) <> None.
Proof.
  intros Hi Hc Hhave j Hj. rewrite (Hhave j Hj), Hc.
  pose proof (off_lt_iff j i ltac:(lia) ltac:(lia)). pose proof (off_lt_iff j (S i) ltac:(lia) ltac:(lia)).
  destruct (decide (j = i)) as [->|]; [|naive_solver lia]. split; [left; apply off_lt; lia|by right].
Qed.

Lemma flush_got A fuel s :
  got A s -> (length (frames_ s) < fuel)%nat ->
  exists s', flush_loop fuel s = Ok s' /\ got A s' /\ settled s'.
Proof.
  revert s. induction fuel as [|fuel IH]; intros s Hg Hfuel; [lia|]. cbn [flush_loop].
  destruct (map_find _ _) as [v|] eqn:Ef; [|by exists s].
  destruct (g_entries _ _ Hg _ _ Ef) as (i & Hi & Ec & ->).
  assert (Hnext : forall j, (j < n)%nat ->
    A j <-> off j < off (S i) \/ map_find (off j) (frames_ s) <> None).
  { intros j Hj. rewrite <- (have_next A s i Hi Ec (g_have _ _ Hg) j Hj). split; [by left|].
    intros [?| ->]; [done|]. apply (g_have _ _ Hg); [done|]. right. rewrite <- Ec. by rewrite Ef. }
  destruct Hg as [Hok Hmem Hnd Hent Hb Hhave Hclose Hclosed Hdel].
  destruct (deliver_chunk A s i) as (s1 & closed & s2 & E1 & E2 & Hg2 & C2 & F2 & Hset); [done..|].
  rewrite E1, E2. destruct closed; [by exists s2; auto|].
  replace (zlen (chunk i) <? zlen (chunk i)) with false by lia. rewrite Z.eqb_refl, Ec, F2.
  destruct Hg2 as [Hok2 Hmem2 Hnd2 Hent2 Hb2 Hhave2 Hclose2 Hclosed2 Hdel2]. apply IH.
  - assert (Hfind : forall k, map_find k (map_erase (off i) (frames_ s)) =
      if k =? off i then None else map_find k (frames_ s)) by (intros k; by apply map_find_erase).
    constructor; cbn; try done.
    + apply with_frames_ok; [done|]. apply map_erase_ok. apply Hok.
    + by apply NoDup_erase.
    + intros k v. rewrite Hfind. case_if; [done|apply Hent].
    + intros j Hj. rewrite (Hnext j Hj), C2, Hfind.
      destruct (Z.eqb_spec (off j) (off i)) as [E|]; [|done].
      apply off_inj in E as ->; [|lia..]. pose proof (off_lt i (S i)). naive_solver lia.
  - cbn. pose proof (map_erase_length _ _ _ Ef) as Hl. rewrite Ec in Hl. lia.
Qed.

Lemma got_ext (A A' : nat -> Prop) s :
  (forall i, (i < n)%nat -> A i <-> A' i) -> got A s -> got A' s.
Proof.
  intros HA [Hok Hmem Hnd Hent Hb Hhave Hclose Hclosed Hdel]. constructor; try done.
  - intros i Hi. rewrite <- HA by done. by apply Hhave.
  - intros Hl. apply Hclose, HA; [lia|done].
Qed.

Lemma got_consumed_lt A s i : (i < n)%nat -> got A s -> ~ A i -> num_bytes_consumed_ s <= off i.
Proof. intros Hi Hg Hn. pose proof (proj2 (g_have _ _ Hg i Hi)). destruct (Z.le_gt_cases (num_bytes_consumed_ s) (off i)); naive_solver. Qed.

(** The end of the stream is recorded with its last frame, before its data. *)
Lemma close_got A s i :
  (i < n)%nat -> got A s -> ~ A i ->
  exists s1, (if fin (frame i) then CloseStreamAtOffset (u64 (offset (frame i) + zlen (frame_data (frame i)))) s
              else s) = s1 /\ ok D s1 /\ stream_ s1 = stream_ s /\
    num_bytes_consumed_ s1 = num_bytes_consumed_ s /\ frames_ s1 = frames_ s /\
    max_frame_memory_ s1 = max_frame_memory_ s /\
    (A (n - 1)%nat \/ (n - 1)%nat = i -> close_offset_ s1 = zlen D) /\
    (close_offset_ s1 = zlen D -> close_offset_ s = zlen D \/ (n - 1)%nat = i).
Proof.
  intros Hi Hg Hn. pose proof (g_ok _ _ Hg) as Hok. cbn [fin frame frame_data offset].
  destruct (Nat.eqb_spec i (n - 1)) as [E|E].
  2:{ exists s. split; [done|]. split; [done|]. repeat (split; [done|]). split; [|by left].
      intros [H'|?]; [by apply Hg|congruence]. }
  rewrite <- off_S by done. replace (S i) with n by lia. rewrite off_end.
  rewrite wrap_u_id by (unfold in_u; pose proof (zlen_nonneg D); lia).
  pose proof (got_consumed_lt A s i Hi Hg Hn). pose proof (off_lt i n ltac:(lia)). rewrite off_end in *.
  unfold CloseStreamAtOffset.
  replace (_ && _) with false by (destruct (ok_close _ _ Hok) as [-> | ->]; unfold kMaxOffset; lia).
  unfold MaybeCloseStream, IsHalfClosed. cbn [close_offset_ num_bytes_consumed_ setter].
  replace (zlen D <=? num_bytes_consumed_ s) with false by lia.
  exists (s <| close_offset_ := zlen D |>). split; [done|]. split; [|by auto 10].
  destruct Hok. constructor; cbn; auto.
Qed.

Lemma OnStreamFrame_got A s i :
  (i < n)%nat -> got A s -> settled s ->
  exists b s', OnStreamFrame (frame i) s = Ok (b, s') /\ got (fun j => A j \/ j = i) s' /\ settled s'.
Proof.
  intros Hi Hg Hset. pose proof (g_have _ _ Hg i Hi) as Hiff. pose proof (chunk_nonempty i Hi) as Hpos.
  pose proof (slice_range D stream_size _ _ (frame_slice i Hi)) as Hrange.
  pose proof (ok_consumed _ _ (g_ok _ _ Hg)). pose proof (g_memory _ _ Hg) as Hmem.
  unfold OnStreamFrame, WillAcceptStreamFrame. rewrite DCHECK_bind.
  change (frame_data (frame i)) with (chunk i). change (offset (frame i)) with (off i).
  replace (zlen (chunk i) <=? max_frame_memory_ s) with true by lia.
  destruct (IsDuplicate (frame i) s) eqn:Ed; unfold IsDuplicate in Ed;
    change (offset (frame i)) with (off i) in Ed.
  { cbn [checked mbind res_bind negb]. exists true, s. split; [done|]. split; [|done].
    apply (got_ext A); [|done]. intros j Hj. split; [by left|]. intros [?| ->]; [done|]. apply Hiff.
    destruct (map_find _ _); [by right|left; lia]. }
  assert (Hfind : map_find (off i) (frames_ s) = None) by (destruct (map_find _ _); [lia|done]).
  assert (Hn : ~ A i) by (rewrite Hiff; destruct (map_find _ _); [lia|naive_solver lia]).
  replace (max_frame_memory_ s <? zlen (chunk i)) with false by lia.
  rewrite (wrap_u_id 64 (off i + zlen (chunk i) - num_bytes_consumed_ s)) by (unfold in_u; lia).
  replace (max_frame_memory_ s <? off i + zlen (chunk i) - num_bytes_consumed_ s) with false by lia.
  cbn [checked mbind res_bind negb]. replace (zlen (chunk i) =? 0) with false by lia. rewrite andb_false_r.
  cbn [andb]. destruct (close_got A s i Hi Hg Hn) as (s1 & E1 & Hok1 & St1 & C1 & F1 & M1 & Hcl & Hcl').
  change (frame_data (frame i)) with (chunk i) in E1. change (offset (frame i)) with (off i) in E1.
  rewrite E1.
  pose proof (got_consumed_lt A s i Hi Hg Hn) as Hle.
  destruct Hg as [Hok Hmem' Hnd Hent Hb Hhave Hclose Hclosed Hdel].
  destruct (Z.eqb_spec (off i) (num_bytes_consumed_ s1)) as [Eo|Eo].
  - destruct (deliver_chunk (fun j => A j \/ j = i) s1 i) as (s2 & closed & s3 & E2 & E3 & Hg3 & C3 & F3 & Hset3);
      rewrite ?F1, ?C1, ?M1, ?St1; try done; try congruence.
    { intros j Hj. apply have_next; [done|congruence|done|done]. }
    rewrite E2, E3. destruct closed; [by exists true, s3; auto|].
    replace (zlen (chunk i) <? zlen (chunk i)) with false by lia. rewrite Z.eqb_refl.
    destruct (flush_got _ (S (length (frames_ s3))) s3 Hg3) as (s4 & E4 & Hg4 & Hset4); [lia|].
    unfold FlushBufferedFrames. rewrite E4. cbn [mbind res_bind]. by exists true, s4.
  - eexists true, _. split; [done|]. pose proof (map_find_insert (off i) (chunk i) (frames_ s)) as Hins.
    split; [|unfold settled; cbn; rewrite F1, Hins, C1 by done;
             rewrite (proj2 (Z.eqb_neq _ _)) by congruence; exact Hset].
    constructor; cbn; rewrite ?F1, ?C1, ?M1, ?St1; try done.
    + apply with_frames_ok; [done|]. apply map_insert_ok; [by apply chunk_frame_ok|apply Hok].
    + by apply NoDup_insert.
    + intros k v. rewrite Hins by done. case_if; [|apply Hent]. intros [= <-]. exists i. split; [done|]. split; [lia|done].
    + intros j Hj. rewrite Hins by done. rewrite (Hhave j Hj).
      destruct (Z.eqb_spec (off j) (off i)) as [E|Hne].
      * apply off_inj in E; [|lia..]. naive_solver.
      * assert (j <> i) by (by intros ->). naive_solver.
    + intros Ec Ed'. destruct (Hcl' Ec) as [?|<-]; [auto|]. 
      pose proof (off_lt (n - 1) n ltac:(lia)). rewrite off_end in *. lia.
Qed.

(** Frames arriving one after the other. *)
Fixpoint receive (fs : list QuicStreamFrame) (s : Sequencer) : res Sequencer :=
  match fs with
  | [] => Ok s
  | f :: fs => '(_, s) ← OnStreamFrame f s; receive fs s
  end.

Lemma receive_got A arrivals s :
  Forall (fun i => (i < n)%nat) arrivals -> got A s -> settled s ->
  exists s', receive (map frame arrivals) s = Ok s' /\
    got (fun j => A j \/ In j arrivals) s' /\ settled s'.
Proof.
  intros Hall. revert A s. induction Hall as [|i arrivals Hi _ IH]; intros A s Hg Hs.
  - exists s. split; [done|]. split; [|done]. eapply got_ext; [|exact Hg]. intros j _. cbn. tauto.
  - destruct (OnStreamFrame_got A s i Hi Hg Hs) as (b & s1 & E1 & Hg1 & Hs1).
    destruct (IH _ s1 Hg1 Hs1) as (s2 & E2 & Hg2 & Hs2). exists s2. cbn [map receive]. rewrite E1.
    split; [done|]. split; [|done]. eapply got_ext; [|exact Hg2]. intros j _. cbn. naive_solver.
Qed.

Lemma got_new memory stream :
  delivered stream = [] -> half_closed stream = false -> failed stream = false -> zlen D <= memory ->
  got (fun _ => False) (new_QuicStreamSequencer_with_memory memory stream).
Proof.
  intros Hd Hh Hf Hm. pose proof (zlen_nonneg D).
  constructor; cbn; try done.
  - constructor; cbn; [lia|done|by left|done|congruence].
  - constructor.
  - by exists 0%nat; split; [lia|].
  - intros i Hi. split; [done|]. intros [Ho|]; [|done]. pose proof (zlen_nonneg (concat (take i chunks))).
    unfold off in Ho. lia.
  - unfold kMaxOffset. lia.
Qed.

Lemma all_got s :
  got (fun _ => True) s -> settled s ->
  num_bytes_consumed_ s = zlen D /\ delivered (stream_ s) = D /\ half_closed (stream_ s) = true.
Proof.
  intros Hg Hs. destruct (g_boundary _ _ Hg) as (j & Hj & Ec).
  destruct (decide (j = n)) as [->|Hne].
  - rewrite off_end in Ec. split; [done|]. split.
    + rewrite (g_delivered _ _ Hg), Ec. apply take_ge. unfold zlen. lia.
    + by apply Hg; [apply Hg|].
  - destruct (proj1 (g_have _ _ Hg j ltac:(lia)) I) as [Ho|Hf]; [lia|].
    unfold settled in Hs. congruence.
Qed.
End Delivery.

(** C22. Everything arrives: when every frame of a stream has arrived at least
    once, in any order and with any of them repeated, a stream that takes what it
    is offered has been passed all the bytes and told of the end. *)
Theorem stream_is_delivered {Stream} `{StreamContract Stream} chunks memory stream arrivals :
  (forall data len stream, 0 <= len <= zlen data -> fst (ProcessRawData data len stream) = len) ->
  Forall (fun c => c <> []) chunks -> (0 < length chunks)%nat -> zlen (concat chunks) < 2 ^ 31 ->
  delivered stream = [] -> half_closed stream = false -> failed stream = false ->
  zlen (concat chunks) <= memory ->
  (forall i, In i arrivals <-> (i < length chunks)%nat) ->
  exists s, receive (map (frame chunks) arrivals) (new_QuicStreamSequencer_with_memory memory stream) = Ok s /\
    delivered (stream_ s) = concat chunks /\ half_closed (stream_ s) = true.
Proof.
  intros Hgr Hne Hpos Hsz Hd Hh Hf Hm Ha.
  destruct (receive_got Hgr chunks Hne Hpos Hsz (fun _ => False) arrivals
    (new_QuicStreamSequencer_with_memory memory stream)) as (s & E & Hg & Hs).
  - apply List.Forall_forall. intros i Hi. by apply Ha.
  - by apply got_new.
  - done.
  - exists s. split; [done|]. eapply all_got; try eassumption.
    eapply got_ext; [exact Hpos| |exact Hg]. intros i Hi. cbn. rewrite Ha. tauto.
Qed.

(** A stream that takes everything. *)
Record Gulp := mkGulp { gulped : list Z; gulp_ended : bool; gulp_errors : list string }.
#[export] Instance Gulp_stream : ReliableQuicStream Gulp := {|
  ProcessRawData data len s :=
    (len, mkGulp (gulped s ++ take (Z.to_nat len) data) (gulp_ended s) (gulp_errors s));
  TerminateFromPeer _ s := mkGulp (gulped s) true (gulp_errors s);
  Close e s := mkGulp (gulped s) (gulp_ended s) (e :: gulp_errors s);
  CloseConnectionWithDetails e s := mkGulp (gulped s) (gulp_ended s) (e :: gulp_errors s)
|}.
Definition gulp_failed (s : Gulp) : bool := match gulp_errors s with [] => false | _ => true end.
#[export] Instance Gulp_contract : StreamContract Gulp.
Proof.
  refine {| delivered := gulped; half_closed := gulp_ended; failed := gulp_failed |}.
  - intros data len s Hlen. cbn. split; [lia|done].
  - done.
Defined.

Lemma stream_is_delivered_witness :
  let chunks := [str "GET "; str "/index"; str ".html"] in
  let arrivals := [2; 1; 2; 0; 1]%nat in
  exists s, receive (map (frame chunks) arrivals)
      (new_QuicStreamSequencer_with_memory 1472 (mkGulp [] false [])) = Ok s /\
    delivered (stream_ s) = str "GET /index.html" /\ half_closed (stream_ s) = true.
Proof.
  intros chunks arrivals.
  refine (stream_is_delivered chunks 1472 (mkGulp [] false []) arrivals _ _ _ _ _ _ _ _ _).
  - done.
  - by repeat constructor.
  - cbn. lia.
  - vm_compute. reflexivity.
  - reflexivity.
  - reflexivity.
  - reflexivity.
  - vm_compute. discriminate.
  - intros i. subst arrivals chunks. cbn. split; [lia|]. intros Hi. lia.
Defined.

(** A frame that starts in what was consumed and reaches behind it is taken for
    a duplicate: it is accepted, so acknowledged, and its new bytes are dropped. *)
Lemma overlapping_frame_is_dropped :
  let s := new_QuicStreamSequencer_with_memory 1472 (mkGulp [] false []) in
  exists s', OnStreamFrame (mkQuicStreamFrame false 0 (str "ab")) s = Ok (true, s') /\
    OnStreamFrame (mkQuicStreamFrame true 1 (str "bcd")) s' = Ok (true, s') /\
    gulped (stream_ s') = str "ab".
Proof. eexists. split; [vm_compute; reflexivity|]. split; vm_compute; reflexivity. Qed.
