(* ===== verification/SeekableBuffer.v ===== *)
(** The buffer between a source of media data and its reader,
    media/base/seekable_buffer.{h,cc} and media/base/data_buffer.{h,cc}: a queue
    of blocks with a position in it that also moves backwards. *)
From S2P Require Import Prelude.

(** ** Blocks of data *)

(* src: media/base/buffers.h 34-36! kNoTimestamp *)
Definition kNoTimestamp : Z := - 2 ^ 63.

(** [data_] is [None] when the block stands for the end of the stream; times
    are in microseconds, and the default is zero. *)
(* src: media/base/data_buffer.h 101-106! DataBuffer *)
Record DataBuffer := mkDataBuffer {
  timestamp_ : Z;
  duration_ : Z;
  data_ : option (list Z);
  data_size_ : Z
}.
#[export] Instance eta_DataBuffer : Eta DataBuffer := fun b =>
  mkDataBuffer (timestamp_ b) (duration_ b) (data_ b) (data_size_ b).

(* src: media/base/data_buffer.h 87-87! end_of_stream *)
Definition end_of_stream (b : DataBuffer) : bool :=
  match data_ b with None => true | Some _ => false end.
(* src: media/base/data_buffer.h 42-45! timestamp *)
Definition timestamp (b : DataBuffer) : option Z := DCHECK (!(end_of_stream b)) ;; Some (timestamp_ b).
(* src: media/base/data_buffer.h 52-55! duration *)
Definition duration (b : DataBuffer) : option Z := DCHECK (!(end_of_stream b)) ;; Some (duration_ b).
(* src: media/base/data_buffer.h 75-78! data_size *)
Definition data_size (b : DataBuffer) : option Z := DCHECK (!(end_of_stream b)) ;; Some (data_size_ b).
(* src: media/base/data_buffer.h 80-84! set_data_size *)
Definition set_data_size (size : Z) (b : DataBuffer) : option DataBuffer :=
  DCHECK (!(end_of_stream b)) ;;
  DCHECK (size <=? zlen (default [] (data_ b))) ;;
  Some (b <| data_size_ := size |>).

(** The bytes at an offset into the block, within the memory it has. *)
(* src: media/base/data_buffer.h 62-65! data *)
Definition data_at (offset size : Z) (b : DataBuffer) : option (list Z) :=
  d ← data_ b;
  DCHECK ((0 <=? offset) && (0 <=? size) && (offset + size <=? zlen d)) ;;
  Some (take (Z.to_nat size) (drop (Z.to_nat offset) d)).

(* src: media/base/data_buffer.cc 26-37! DataBuffer::DataBuffer *)
Definition new_DataBuffer (data : option (list Z)) : DataBuffer :=
  mkDataBuffer 0 0 data (zlen (default [] data)).
(* src: media/base/data_buffer.cc 42-46! CopyFrom *)
Definition CopyFrom (data : list Z) : DataBuffer := new_DataBuffer (Some data).
(* src: media/base/data_buffer.cc 49-51! CreateEOSBuffer *)
Definition CreateEOSBuffer : DataBuffer := new_DataBuffer None.

(** ** The queue

    An iterator into the list of blocks is the index of its block, and [None] is
    [end()]; erasing the first block takes one from the index of the others. *)
Definition iterator : Type := option nat.

(* src: media/base/seekable_buffer.h 165-177! SeekableBuffer *)
Record SeekableBuffer := mkSeekableBuffer {
  current_buffer_ : iterator;
  buffers_ : list DataBuffer;
  current_buffer_offset_ : Z;
  backward_capacity_ : Z;
  backward_bytes_ : Z;
  forward_capacity_ : Z;
  forward_bytes_ : Z;
  current_time_ : Z
}.
#[export] Instance eta_SeekableBuffer : Eta SeekableBuffer := fun s =>
  mkSeekableBuffer (current_buffer_ s) (buffers_ s) (current_buffer_offset_ s)
    (backward_capacity_ s) (backward_bytes_ s) (forward_capacity_ s) (forward_bytes_ s)
    (current_time_ s).

Definition begin (s : SeekableBuffer) : iterator :=
  match buffers_ s with [] => None | _ => Some 0%nat end.
Definition next (s : SeekableBuffer) (it : nat) : iterator :=
  if (S it <? length (buffers_ s))%nat then Some (S it) else None.

(* src: media/base/seekable_buffer.cc 14-22! SeekableBuffer::SeekableBuffer *)
Definition new_SeekableBuffer (backward_capacity forward_capacity : Z) : SeekableBuffer :=
  mkSeekableBuffer None [] 0 backward_capacity 0 forward_capacity 0 kNoTimestamp.

(* src: media/base/seekable_buffer.cc 27-34! Clear *)
Definition Clear (s : SeekableBuffer) : SeekableBuffer :=
  let s := s <| buffers_ := [] |> in
  s <| current_buffer_ := begin s |> <| current_buffer_offset_ := 0 |>
    <| backward_bytes_ := 0 |> <| forward_bytes_ := 0 |> <| current_time_ := kNoTimestamp |>.

(** A division by zero ends the program, as a failed check does. *)
(* src: media/base/seekable_buffer.cc 264-275! UpdateCurrentTime *)
Definition UpdateCurrentTime (buffer : iterator) (offset : Z) (s : SeekableBuffer)
    : option SeekableBuffer :=
  match buffer with
  | None => Some s
  | Some it =>
      b ← buffers_ s !! it;
      t ← timestamp b;
      if t =? kNoTimestamp then Some s else
      d ← duration b;
      size ← data_size b;
      DCHECK (!(size =? 0)) ;;
      let time_offset := Z.quot (s64 (d * offset)) size in
      Some (s <| current_time_ := s64 (t + time_offset) |>)
  end.

(* src: media/base/seekable_buffer.cc 62-87! Append *)
Definition Append (buffer_in : DataBuffer) (s : SeekableBuffer) : option (bool * SeekableBuffer) :=
  s ← (match buffers_ s with
       | [] =>
           t ← timestamp buffer_in;
           Some (if !(t =? kNoTimestamp) then s <| current_time_ := t |> else s)
       | _ => Some s
       end);
  let s := s <| buffers_ := buffers_ s ++ [buffer_in] |> in
  s ← (match current_buffer_ s with
       | None =>
           DCHECK (0 =? forward_bytes_ s) ;;
           Some (s <| current_buffer_ := begin s |>)
       | Some _ => Some s
       end);
  size ← data_size buffer_in;
  let s := s <| forward_bytes_ := forward_bytes_ s ⊕ size |> in
  Some (!(forward_capacity_ s <=? forward_bytes_ s), s).

(* src: media/base/seekable_buffer.cc 89-97! Append *)
Definition AppendData (data : list Z) (s : SeekableBuffer) : option (bool * SeekableBuffer) :=
  if 0 <? zlen data then Append (CopyFrom data) s
  else Some (forward_bytes_ s <? forward_capacity_ s, s).

(** Every turn erases a block. *)
(* src: media/base/seekable_buffer.cc 168-180! EvictBackwardBuffers *)
Fixpoint evict_loop (fuel : nat) (s : SeekableBuffer) : res SeekableBuffer :=
  match fuel with
  | O => NoFuel
  | S fuel =>
      if backward_capacity_ s <? backward_bytes_ s then
        if bool_decide (begin s = current_buffer_ s) then Ok s else
        match buffers_ s with
        | [] => Failed
        | buffer :: rest =>
            size ← checked (data_size buffer);
            let s := s <| backward_bytes_ := backward_bytes_ s ⊖ size |> in
            checked (DCHECK (0 <=? backward_bytes_ s)) ;;
            evict_loop fuel (s <| buffers_ := rest |>
                               <| current_buffer_ := pred <$> current_buffer_ s |>)
        end
      else Ok s
  end.
(* src: media/base/seekable_buffer.cc 168-180! EvictBackwardBuffers *)
Definition EvictBackwardBuffers (s : SeekableBuffer) : res SeekableBuffer :=
  evict_loop (S (length (buffers_ s))) s.

(** Where a read has come to. *)
Record Reading := mkReading {
  taken : Z;
  out : list Z;
  current_buffer : iterator;
  current_buffer_offset : Z;
  bytes_to_skip : Z
}.

(** [copy] is false when there is no memory to copy to.  A turn consumes a
    block, or ends the skipping, or is the last. *)
(* src: media/base/seekable_buffer.cc 192-244! InternalRead *)
Fixpoint read_loop (fuel : nat) (copy : bool) (size : Z) (advance_position : bool)
    (r : Reading) (s : SeekableBuffer) : res (Reading * SeekableBuffer) :=
  match fuel with
  | O => NoFuel
  | S fuel =>
      if !(taken r <? size) then Ok (r, s) else
      match current_buffer r with
      | None => Ok (r, s)
      | Some it =>
          buffer ← checked (buffers_ s !! it);
          data_size ← checked (data_size buffer);
          let remaining := data_size ⊖ current_buffer_offset r in
          r ← (if bytes_to_skip r =? 0 then
                 let copied := Z.min (size ⊖ taken r) remaining in
                 bytes ← (if copy then checked (data_at (current_buffer_offset r) copied buffer)
                          else Ok []);
                 Ok (mkReading (taken r ⊕ copied) (out r ++ bytes) (Some it)
                       (current_buffer_offset r ⊕ copied) 0)
               else
                 let skipped := Z.min remaining (bytes_to_skip r) in
                 Ok (mkReading (taken r) (out r) (Some it)
                       (current_buffer_offset r ⊕ skipped) (bytes_to_skip r ⊖ skipped)));
          if current_buffer_offset r =? data_size then
            s ← (if advance_position then
                   checked (UpdateCurrentTime (Some it) (current_buffer_offset r) s)
                 else Ok s);
            match next s it with
            | None => Ok (r, s)
            | Some next =>
                read_loop fuel copy size advance_position
                  (mkReading (taken r) (out r) (Some next) 0 (bytes_to_skip r)) s
            end
          else read_loop fuel copy size advance_position r s
      end
  end.

(** The number of bytes, and the bytes where they are copied. *)
(* src: media/base/seekable_buffer.cc 182-262! InternalRead *)
Definition InternalRead (copy : bool) (size : Z) (advance_position : bool) (forward_offset : Z)
    (s : SeekableBuffer) : res (Z * list Z * SeekableBuffer) :=
  '(r, s) ← read_loop (S (S (length (buffers_ s)))) copy size advance_position
    (mkReading 0 [] (current_buffer_ s) (current_buffer_offset_ s) forward_offset) s;
  if advance_position then
    let s := s <| forward_bytes_ := forward_bytes_ s ⊖ taken r |> in
    let s := s <| backward_bytes_ := backward_bytes_ s ⊕ taken r |> in
    checked (DCHECK (0 <=? forward_bytes_ s)) ;;
    checked (DCHECK (match current_buffer_ s with Some _ => true | None => forward_bytes_ s =? 0 end)) ;;
    let s := s <| current_buffer_ := current_buffer r |> in
    let s := s <| current_buffer_offset_ := current_buffer_offset r |> in
    s ← checked (UpdateCurrentTime (current_buffer_ s) (current_buffer_offset_ s) s);
    s ← EvictBackwardBuffers s;
    Ok (taken r, out r, s)
  else Ok (taken r, out r, s).

(* src: media/base/seekable_buffer.cc 36-39! Read *)
Definition Read (size : Z) : SeekableBuffer -> res (Z * list Z * SeekableBuffer) :=
  InternalRead true size true 0.
(* src: media/base/seekable_buffer.cc 41-44! Peek *)
Definition Peek (size forward_offset : Z) : SeekableBuffer -> res (Z * list Z * SeekableBuffer) :=
  InternalRead true size false forward_offset.

(** The rest of the block that is being read, or of the next one with data. *)
(* src: media/base/seekable_buffer.cc 46-60! GetCurrentChunk *)
Fixpoint current_chunk (rest : list DataBuffer) (offset : Z) : option (option (list Z)) :=
  match rest with
  | [] => Some None
  | b :: rest =>
      size ← data_size b;
      if size <=? offset then current_chunk rest 0
      else chunk ← data_at offset (size - offset) b; Some (Some chunk)
  end.
(* src: media/base/seekable_buffer.cc 46-60! GetCurrentChunk *)
Definition GetCurrentChunk (s : SeekableBuffer) : option (option (list Z)) :=
  match current_buffer_ s with
  | None => Some None
  | Some it => current_chunk (drop it (buffers_ s)) (current_buffer_offset_ s)
  end.

(* src: media/base/seekable_buffer.cc 107-116! SeekForward *)
Definition SeekForward (size : Z) (s : SeekableBuffer) : res (bool * SeekableBuffer) :=
  if forward_bytes_ s <? size then Ok (false, s) else
  '(taken, _, s) ← InternalRead false size true 0 s;
  checked (DCHECK (taken =? size)) ;;
  Ok (true, s).

(** Every turn but the last moves to the block before. *)
(* src: media/base/seekable_buffer.cc 124-160! SeekBackward *)
Fixpoint back_loop (fuel : nat) (size taken : Z) (s : SeekableBuffer)
    : res (Z * SeekableBuffer) :=
  match fuel with
  | O => NoFuel
  | S fuel =>
      if !(taken <? size) then Ok (taken, s) else
      match current_buffer_ s with
      | None => Failed
      | Some it =>
          let consumed := Z.min (size ⊖ taken) (current_buffer_offset_ s) in
          let s := s <| current_buffer_offset_ := current_buffer_offset_ s ⊖ consumed |> in
          let taken := taken ⊕ consumed in
          let s := s <| forward_bytes_ := forward_bytes_ s ⊕ consumed |> in
          let s := s <| backward_bytes_ := backward_bytes_ s ⊖ consumed |> in
          checked (DCHECK (0 <=? backward_bytes_ s)) ;;
          if current_buffer_offset_ s =? 0 then
            match it with
            | O => Ok (taken, s)
            | S it =>
                size_before ← checked (buffers_ s !! it ≫= data_size);
                back_loop fuel size taken
                  (s <| current_buffer_ := Some it |> <| current_buffer_offset_ := size_before |>)
            end
          else back_loop fuel size taken s
      end
  end.

(* src: media/base/seekable_buffer.cc 118-166! SeekBackward *)
Definition SeekBackward (size : Z) (s : SeekableBuffer) : res (bool * SeekableBuffer) :=
  if backward_bytes_ s <? size then Ok (false, s) else
  '(taken, s) ← back_loop (S (S (length (buffers_ s)))) size 0 s;
  s ← checked (UpdateCurrentTime (current_buffer_ s) (current_buffer_offset_ s) s);
  checked (DCHECK (taken =? size)) ;;
  Ok (true, s).

(* src: media/base/seekable_buffer.cc 99-105! Seek *)
Definition Seek (offset : Z) (s : SeekableBuffer) : res (bool * SeekableBuffer) :=
  if 0 <? offset then SeekForward offset s
  else if offset <? 0 then SeekBackward (s32 (- offset)) s
  else Ok (true, s).

(* src: media/base/seekable_buffer.h 106-108! set_forward_capacity *)
Definition set_forward_capacity (n : Z) (s : SeekableBuffer) : SeekableBuffer :=
  s <| forward_capacity_ := n |>.
(* src: media/base/seekable_buffer.h 111-113! set_backward_capacity *)
Definition set_backward_capacity (n : Z) (s : SeekableBuffer) : SeekableBuffer :=
  s <| backward_capacity_ := n |>.
