(* ===== verification/SeekableProperties.v ===== *)
(** The queue of blocks is a stream of bytes with a position in it. *)
From S2P Require Import Prelude SeekableBuffer.
From Stdlib Require Import ZifyBool.

(** ** Lists cut at an integer *)

Definition takez {A} (n : Z) (l : list A) : list A := take (Z.to_nat n) l.
Definition dropz {A} (n : Z) (l : list A) : list A := drop (Z.to_nat n) l.

Lemma takez_app_ge {A} n (l1 l2 : list A) :
  zlen l1 <= n -> takez n (l1 ++ l2) = l1 ++ takez (n - zlen l1) l2.
Proof.
  unfold takez, zlen. intros Hn. rewrite take_app, take_ge by lia. f_equal. f_equal. lia.
Qed.

Lemma dropz_app_ge {A} n (l1 l2 : list A) :
  zlen l1 <= n -> dropz n (l1 ++ l2) = dropz (n - zlen l1) l2.
Proof. unfold dropz, zlen. intros Hn. rewrite drop_app, drop_ge by lia. cbn. f_equal. lia. Qed.

Lemma takez_app_le {A} n (l1 l2 : list A) : n <= zlen l1 -> takez n (l1 ++ l2) = takez n l1.
Proof. unfold takez, zlen. intros Hn. apply take_app_le. lia. Qed.

Lemma dropz_app_le {A} n (l1 l2 : list A) : n <= zlen l1 -> dropz n (l1 ++ l2) = dropz n l1 ++ l2.
Proof. unfold dropz, zlen. intros Hn. apply drop_app_le. lia. Qed.

Lemma takez_dropz {A} n (l : list A) : takez n l ++ dropz n l = l.
Proof. apply take_drop. Qed.

Lemma dropz_dropz {A} m n (l : list A) : 0 <= m -> 0 <= n -> dropz m (dropz n l) = dropz (n + m) l.
Proof. unfold dropz. intros Hm Hn. rewrite drop_drop. f_equal. lia. Qed.

Lemma takez_takez_dropz {A} m n (l : list A) :
  0 <= m -> 0 <= n -> takez (m + n) l = takez m l ++ takez n (dropz m l).
Proof.
  unfold takez, dropz. intros Hm Hn. rewrite take_take_drop. f_equal. lia.
Qed.

Lemma zlen_takez {A} n (l : list A) : 0 <= n -> zlen (takez n l) = Z.min n (zlen l).
Proof. unfold takez, zlen. intros Hn. rewrite length_take. lia. Qed.

Lemma zlen_dropz {A} n (l : list A) : 0 <= n -> zlen (dropz n l) = Z.max 0 (zlen l - n).
Proof. unfold dropz, zlen. intros Hn. rewrite length_drop. lia. Qed.

Lemma takez_0 {A} n (l : list A) : n <= 0 -> takez n l = [].
Proof. unfold takez. intros Hn. by rewrite (Z2Nat.nonpos n Hn). Qed.

Lemma dropz_0 {A} n (l : list A) : n <= 0 -> dropz n l = l.
Proof. unfold dropz. intros Hn. by rewrite (Z2Nat.nonpos n Hn). Qed.

Lemma takez_ge {A} n (l : list A) : zlen l <= n -> takez n l = l.
Proof. unfold takez, zlen. intros Hn. apply take_ge. lia. Qed.

Lemma dropz_ge {A} n (l : list A) : zlen l <= n -> dropz n l = [].
Proof. unfold dropz, zlen. intros Hn. apply drop_ge. lia. Qed.

(** ** The bytes of the queue *)

(** The valid bytes of a block. *)
Definition bytes (b : DataBuffer) : list Z := takez (data_size_ b) (default [] (data_ b)).
Definition contents (l : list DataBuffer) : list Z := concat (map bytes l).

(** A block of data; an empty one must not carry a time, which would be
    divided by its size. *)
Record block_ok (b : DataBuffer) : Prop := {
  bo_data : end_of_stream b = false;
  bo_size : 0 <= data_size_ b <= zlen (default [] (data_ b));
  bo_time : timestamp_ b = kNoTimestamp \/ data_size_ b <> 0
}.

Lemma zlen_bytes b : block_ok b -> zlen (bytes b) = data_size_ b.
Proof. intros [_ Hs _]. unfold bytes. rewrite zlen_takez; lia. Qed.

Lemma contents_app l1 l2 : contents (l1 ++ l2) = contents l1 ++ contents l2.
Proof. unfold contents. by rewrite map_app, concat_app. Qed.

Lemma contents_cons b l : contents (b :: l) = bytes b ++ contents l.
Proof. done. Qed.

(** An iterator with an offset cuts the bytes in two. *)
Definition position (l : list DataBuffer) (it : iterator) (offset : Z) (past future : list Z) : Prop :=
  match it with
  | None => l = [] /\ offset = 0 /\ past = [] /\ future = []
  | Some i => exists l1 b l2, l = l1 ++ b :: l2 /\ i = length l1 /\ 0 <= offset <= data_size_ b /\
      past = contents l1 ++ takez offset (bytes b) /\
      future = dropz offset (bytes b) ++ contents l2
  end.

Record holds (s : SeekableBuffer) (past future : list Z) : Prop := {
  ho_blocks : Forall block_ok (buffers_ s);
  ho_position : position (buffers_ s) (current_buffer_ s) (current_buffer_offset_ s) past future;
  ho_backward : backward_bytes_ s = zlen past;
  ho_forward : forward_bytes_ s = zlen future;
  ho_small : zlen past + zlen future < 2 ^ 31
}.

Lemma block_accessors b :
  block_ok b -> timestamp b = Some (timestamp_ b) /\ duration b = Some (duration_ b) /\
  data_size b = Some (data_size_ b).
Proof. intros [E _ _]. unfold timestamp, duration, data_size. by rewrite !DCHECK_bind, E. Qed.

Lemma data_at_ok b offset n :
  block_ok b -> 0 <= offset -> 0 <= n -> offset + n <= data_size_ b ->
  data_at offset n b = Some (takez n (dropz offset (bytes b))).
Proof.
  intros [E Hs _] Ho Hn Hle. unfold data_at, bytes, end_of_stream in *.
  destruct (data_ b) as [d|]; [|done]. change (default [] (Some d)) with d in *. cbn [mbind option_bind].
  rewrite DCHECK_bind. replace (_ && _) with true by lia. f_equal. fold (takez n (dropz offset d)).
  unfold takez, dropz. rewrite skipn_firstn_comm, take_take. f_equal. lia.
Qed.

Lemma UpdateCurrentTime_ok l it offset past future s :
  Forall block_ok (buffers_ s) -> position (buffers_ s) it offset past future -> l = buffers_ s ->
  exists t, UpdateCurrentTime it offset s = Some (s <| current_time_ := t |>).
Proof.
  intros Hb Hp _. assert (Hsame : s = s <| current_time_ := current_time_ s |>) by (by destruct s).
  destruct it as [i|]; cbn; [|exists (current_time_ s); by f_equal].
  destruct Hp as (l1 & b & l2 & El & -> & _). rewrite El in Hb |- *.
  rewrite list_lookup_middle by done. cbn [mbind option_bind].
  apply Forall_app in Hb as [_ Hb]. apply Forall_cons in Hb as [Hb _].
  destruct (block_accessors b Hb) as (-> & -> & ->). cbn [mbind option_bind].
  destruct (Z.eqb_spec (timestamp_ b) kNoTimestamp) as [E|E]; [exists (current_time_ s); by f_equal|].
  rewrite DCHECK_bind. replace (negb _) with true by (destruct (bo_time _ Hb); [done|lia]). eauto.
Qed.

Lemma with_time_holds s t past future :
  holds s past future -> holds (s <| current_time_ := t |>) past future.
Proof. intros [H1 H2 H3 H4 H5]. by constructor. Qed.

(** The end of one block is the beginning of the next. *)
Lemma position_next l l1 b b2 l2 past future :
  Forall block_ok l -> l = l1 ++ b :: b2 :: l2 -> past = contents (l1 ++ [b]) ->
  future = contents (b2 :: l2) -> position l (Some (S (length l1))) 0 past future.
Proof.
  intros Hb El -> ->. exists (l1 ++ [b]), b2, l2. rewrite <- app_assoc. split; [done|].
  split; [rewrite length_app; cbn; lia|]. split.
  - rewrite El in Hb. apply Forall_app in Hb as [_ Hb]. inversion Hb as [|? ? _ Hb2]. inversion Hb2 as [|? ? Hok].
    destruct Hok. lia.
  - rewrite takez_0, dropz_0, app_nil_r by lia. done.
Qed.

(** ** Reading *)

(** Between two turns of a read: the reader stands between [past] and [future],
    [skip] bytes are to be passed over and [k] to be read. *)
Record reading (s : SeekableBuffer) (size : Z) (r : Reading) (past future : list Z) : Prop := {
  rd_blocks : Forall block_ok (buffers_ s);
  rd_position : position (buffers_ s) (current_buffer r) (current_buffer_offset r) past future;
  rd_taken : 0 <= taken r <= size /\ size < 2 ^ 31;
  rd_skip : 0 <= bytes_to_skip r < 2 ^ 31;
  rd_small : zlen past + zlen future < 2 ^ 31
}.

(** How many blocks are left, and one turn more for the end of the skipping. *)
Definition turns (s : SeekableBuffer) (r : Reading) : nat :=
  match current_buffer r with
  | None => 1
  | Some i => length (buffers_ s) - i + (if bytes_to_skip r =? 0 then 1 else 2)
  end.

(** What one turn does to the reading, before the end of the block is seen to. *)
Definition turn (copy : bool) (size : Z) (b : DataBuffer) (it : nat) (r : Reading) : Reading :=
  let remaining := data_size_ b - current_buffer_offset r in
  if bytes_to_skip r =? 0 then
    let copied := Z.min (size - taken r) remaining in
    mkReading (taken r + copied)
      (out r ++ if copy then takez copied (dropz (current_buffer_offset r) (bytes b)) else [])
      (Some it) (current_buffer_offset r + copied) 0
  else
    let skipped := Z.min remaining (bytes_to_skip r) in
    mkReading (taken r) (out r) (Some it) (current_buffer_offset r + skipped)
      (bytes_to_skip r - skipped).

(** The result of a whole read, from where it stands. *)
Definition to_read (size : Z) (r : Reading) (future : list Z) : list Z :=
  takez (size - taken r) (dropz (bytes_to_skip r) future).

Lemma turn_spec copy size s r past future l1 b l2 :
  reading s size r past future -> taken r < size ->
  buffers_ s = l1 ++ b :: l2 -> current_buffer r = Some (length l1) ->
  past = contents l1 ++ takez (current_buffer_offset r) (bytes b) ->
  future = dropz (current_buffer_offset r) (bytes b) ++ contents l2 ->
  0 <= current_buffer_offset r <= data_size_ b ->
  let r' := turn copy size b (length l1) r in
  exists past' future', past ++ future = past' ++ future' /\
    past' = contents l1 ++ takez (current_buffer_offset r') (bytes b) /\
    future' = dropz (current_buffer_offset r') (bytes b) ++ contents l2 /\
    current_buffer r' = Some (length l1) /\
    0 <= current_buffer_offset r' <= data_size_ b /\ 0 <= taken r' <= size /\
    0 <= bytes_to_skip r' < 2 ^ 31 /\
    out r' ++ (if copy then to_read size r' future' else []) =
      out r ++ (if copy then to_read size r future else []) /\
    taken r' + zlen (to_read size r' future') = taken r + zlen (to_read size r future) /\
    (bytes_to_skip r = 0 -> bytes_to_skip r' = 0 /\
       past' ++ to_read size r' future' = past ++ to_read size r future) /\
    (current_buffer_offset r' = data_size_ b \/ taken r' = size \/
     bytes_to_skip r <> 0 /\ bytes_to_skip r' = 0).
Proof.
  intros [Hb Hp [Ht Hsize] Hskip Hsmall] Hlt El Ecur Epast Efut Ho. cbv zeta.
  assert (Hbb : block_ok b) by (rewrite El in Hb; apply Forall_app in Hb as [_ Hb]; by inversion Hb).
  pose proof (zlen_bytes b Hbb) as Hlen.
  set (o := current_buffer_offset r) in *. set (d := dropz o (bytes b)) in *.
  assert (Hd : zlen d = data_size_ b - o) by (unfold d; rewrite zlen_dropz; lia).
  assert (Hmove : forall m, 0 <= m <= zlen d ->
    contents l1 ++ takez (o + m) (bytes b) = past ++ takez m d /\
    dropz (o + m) (bytes b) = dropz m d).
  { intros m Hm. rewrite takez_takez_dropz by lia. fold d. rewrite Epast, <- app_assoc.
    split; [done|]. unfold d. rewrite dropz_dropz by lia. f_equal; lia. }
  unfold turn. fold o d. rewrite <- Hd. unfold to_read.
  destruct (Z.eqb_spec (bytes_to_skip r) 0) as [E0|E0].
  - set (m := Z.min (size - taken r) (zlen d)).
    destruct (Hmove m) as [M1 M2]; [unfold m; lia|].
    exists (past ++ takez m d), (dropz m d ++ contents l2).
    cbn [current_buffer_offset current_buffer taken bytes_to_skip out].
    rewrite M1, M2, E0, !(dropz_0 0), Efut by lia.
    assert (Hread : takez m d ++ takez (size - (taken r + m)) (dropz m d ++ contents l2) =
      takez (size - taken r) (d ++ contents l2)).
    { destruct (Z.le_gt_cases (zlen d) (size - taken r)).
      - replace m with (zlen d) by (unfold m; lia).
        rewrite (takez_ge _ d), (dropz_ge _ d), (takez_app_ge _ d) by lia. cbn. f_equal. f_equal. lia.
      - replace m with (size - taken r) by (unfold m; lia).
        rewrite (takez_0 (size - (taken r + (size - taken r)))), app_nil_r, takez_app_le by lia. done. }
    rewrite <- Hread.
    split; [by rewrite <- !app_assoc, (app_assoc (takez m d)), takez_dropz|].
    split; [done|]. split; [done|]. split; [done|]. split; [unfold m; lia|]. split; [unfold m; lia|].
    split; [lia|]. split; [by destruct copy; rewrite ?app_nil_r, <- ?app_assoc|].
    split; [rewrite zlen_app, (zlen_takez m d) by (unfold m; lia); unfold m; lia|].
    split; [intros _; split; [done|by rewrite <- app_assoc]|]. unfold m. lia.
  - set (m := Z.min (zlen d) (bytes_to_skip r)).
    destruct (Hmove m) as [M1 M2]; [unfold m; lia|].
    exists (past ++ takez m d), (dropz m d ++ contents l2).
    cbn [current_buffer_offset current_buffer taken bytes_to_skip out]. rewrite M1, M2, Efut.
    assert (Hskipped : dropz (bytes_to_skip r - m) (dropz m d ++ contents l2) =
      dropz (bytes_to_skip r) (d ++ contents l2)).
    { destruct (Z.le_gt_cases (zlen d) (bytes_to_skip r)).
      - replace m with (zlen d) by (unfold m; lia).
        rewrite (dropz_ge _ d), (dropz_app_ge _ d) by lia. done.
      - replace m with (bytes_to_skip r) by (unfold m; lia).
        rewrite (dropz_0 (bytes_to_skip r - bytes_to_skip r)), dropz_app_le by lia. done. }
    rewrite Hskipped.
    split; [by rewrite <- !app_assoc, (app_assoc (takez m d)), takez_dropz|].
    split; [done|]. split; [done|]. split; [done|]. split; [unfold m; lia|]. split; [lia|].
    split; [unfold m; lia|]. split; [done|]. split; [done|]. split; [done|]. unfold m. lia.
Qed.

Lemma to_read_done size r future : size <= taken r -> to_read size r future = [].
Proof. intros H. unfold to_read. apply takez_0. lia. Qed.

Lemma to_read_nothing size r : to_read size r [] = [].
Proof. unfold to_read, takez, dropz. by rewrite drop_nil, take_nil. Qed.

(** What a read is to leave, from a reading: the object with another time, and
    the bytes that were asked for, as far as there are so many. *)
Definition read_result (copy : bool) (size : Z) (r : Reading) (s : SeekableBuffer) (past future : list Z)
    (x : res (Reading * SeekableBuffer)) : Prop :=
  exists r' t, x = Ok (r', s <| current_time_ := t |>) /\
    taken r' = taken r + zlen (to_read size r future) /\
    out r' = out r ++ (if copy then to_read size r future else []) /\
    exists past' future', position (buffers_ s) (current_buffer r') (current_buffer_offset r') past' future' /\
      past' ++ future' = past ++ future /\ (bytes_to_skip r = 0 -> past' = past ++ to_read size r future).

Lemma finished copy size r (s : SeekableBuffer) past future :
  to_read size r future = [] -> position (buffers_ s) (current_buffer r) (current_buffer_offset r) past future ->
  read_result copy size r s past future (Ok (r, s)).
Proof.
  intros E Hp. exists r, (current_time_ s). rewrite E. split; [by destruct s|]. change (zlen (@nil Z)) with 0.
  split; [lia|]. split; [by destruct copy; rewrite app_nil_r|]. exists past, future. by rewrite app_nil_r.
Qed.

(** After a turn, what is left to do is what was to be done before it. *)
Lemma read_result_turn (copy : bool) size r r' (s : SeekableBuffer) t past future past' future' x :
  past ++ future = past' ++ future' ->
  out r' ++ (if copy then to_read size r' future' else []) = out r ++ (if copy then to_read size r future else []) ->
  taken r' + zlen (to_read size r' future') = taken r + zlen (to_read size r future) ->
  (bytes_to_skip r = 0 -> bytes_to_skip r' = 0 /\ past' ++ to_read size r' future' = past ++ to_read size r future) ->
  read_result copy size r' (s <| current_time_ := t |>) past' future' x -> read_result copy size r s past future x.
Proof.
  intros Ecat Eout Etk Hz (r2 & t2 & -> & T2 & O2 & past2 & future2 & P2 & C2 & Z2). exists r2, t2.
  split; [done|]. split; [lia|]. split; [congruence|]. exists past2, future2. split; [done|]. split; [congruence|].
  intros Hz0. destruct (Hz Hz0) as [Hz1 Hz2]. by rewrite (Z2 Hz1).
Qed.

Lemma read_turn fuel copy size adv r s b it :
  taken r < size -> current_buffer r = Some it -> buffers_ s !! it = Some b -> block_ok b ->
  data_size_ b < 2 ^ 31 ->
  0 <= current_buffer_offset r <= data_size_ b -> 0 <= taken r -> size < 2 ^ 31 -> 0 <= bytes_to_skip r < 2 ^ 31 ->
  read_loop (S fuel) copy size adv r s =
    let r := turn copy size b it r in
    if current_buffer_offset r =? data_size_ b then
      s ← (if adv then checked (UpdateCurrentTime (Some it) (current_buffer_offset r) s) else Ok s);
      match next s it with
      | None => Ok (r, s)
      | Some next =>
          read_loop fuel copy size adv (mkReading (taken r) (out r) (Some next) 0 (bytes_to_skip r)) s
      end
    else read_loop fuel copy size adv r s.
Proof.
  intros Hlt Ec El Hb Hds Ho Ht Hs Hk. cbn [read_loop]. replace (taken r <? size) with true by lia.
  cbn [negb]. rewrite Ec, El. cbn [checked mbind res_bind].
  destruct (block_accessors b Hb) as (_ & _ & ->). cbn [checked mbind res_bind].
  rewrite (s32_id (data_size_ b - _)) by lia. unfold turn.
  destruct (Z.eqb_spec (bytes_to_skip r) 0).
  - rewrite (s32_id (size - taken r)) by lia. destruct copy.
    + rewrite (data_at_ok b) by (done || lia). cbn [checked mbind res_bind].
      rewrite (s32_id (taken r + _)), (s32_id (current_buffer_offset r + _)) by lia. done.
    + cbn [mbind res_bind]. rewrite (s32_id (taken r + _)), (s32_id (current_buffer_offset r + _)) by lia. done.
  - cbn [mbind res_bind]. rewrite (s32_id (current_buffer_offset r + _)), (s32_id (bytes_to_skip r - _)) by lia.
    done.
Qed.

Lemma read_loop_ok fuel (copy : bool) size (adv : bool) r s past future :
  reading s size r past future -> (1 <= fuel)%nat -> (taken r < size -> (turns s r <= fuel)%nat) ->
  read_result copy size r s past future (read_loop fuel copy size adv r s).
Proof.
  revert r s past future. induction fuel as [|fuel IH]; intros r s past future Hr Hf1 Hfuel; [lia|].
  pose proof Hr as [Hb Hp [Ht Hsize] Hskip Hsmall].
  destruct (Z.lt_ge_cases (taken r) size) as [Hlt|Hge].
  2:{ cbn [read_loop]. replace (taken r <? size) with false by lia. cbn [negb].
      apply finished; [by apply to_read_done|done]. }
  specialize (Hfuel Hlt). unfold turns in Hfuel. destruct (current_buffer r) as [it|] eqn:Ec.
  2:{ cbn [read_loop]. replace (taken r <? size) with true by lia. cbn [negb]. rewrite Ec.
      apply finished; [|by rewrite Ec]. destruct Hp as (_ & _ & _ & ->). apply to_read_nothing. }
  destruct Hp as (l1 & b & l2 & El & -> & Ho & Epast & Efut).
  destruct (turn_spec copy size s r past future l1 b l2) as (p' & f' & Ecat & Ep & Ef & Ec' & Ho' & Ht' & Hk' & Eout & Etk & Hz & Hend);
    try done.
  assert (Hbb : block_ok b) by (rewrite El in Hb; apply Forall_app in Hb as [_ Hb]; by inversion Hb).
  pose proof (zlen_bytes b Hbb) as Hlen.
  assert (Hds : data_size_ b < 2 ^ 31).
  { rewrite Epast, Efut, !zlen_app in Hsmall. rewrite zlen_takez, zlen_dropz in Hsmall by lia.
    pose proof (zlen_nonneg (contents l1)). pose proof (zlen_nonneg (contents l2)). lia. }
  assert (Elook : buffers_ s !! length l1 = Some b) by (rewrite El; by apply list_lookup_middle).
  rewrite (read_turn _ _ _ _ _ _ b (length l1)) by (done || lia).
  cbv zeta. set (r' := turn copy size b (length l1) r) in *.
  assert (Hsmall' : zlen p' + zlen f' < 2 ^ 31) by (rewrite <- zlen_app, <- Ecat, zlen_app; done).
  assert (Hpos : position (buffers_ s) (current_buffer r') (current_buffer_offset r') p' f')
    by (rewrite Ec'; by exists l1, b, l2).
  assert (Hlens : length (buffers_ s) = (length l1 + S (length l2))%nat) by (rewrite El, length_app; done).
  assert (Hturn : forall t x, read_result copy size r' (s <| current_time_ := t |>) p' f' x -> read_result copy size r s past future x)
    by (intros t x; by apply read_result_turn).
  destruct (Z.eqb_spec (current_buffer_offset r') (data_size_ b)) as [Eo|Eo].
  - assert (exists t, (if adv then checked (UpdateCurrentTime (Some (length l1)) (current_buffer_offset r') s)
      else Ok s) = Ok (s <| current_time_ := t |>)) as [t ->].
    { destruct adv; [|exists (current_time_ s); by destruct s].
      destruct (UpdateCurrentTime_ok (buffers_ s) (Some (length l1)) (current_buffer_offset r') p' f' s)
        as [t ->]; [done|by rewrite <- Ec'|done|]. by exists t. }
    cbn [mbind res_bind]. unfold next.
    change (buffers_ (s <| current_time_ := t |>)) with (buffers_ s). rewrite Hlens.
    destruct l2 as [|b2 l2].
    + replace (S (length l1) <? _)%nat with false by (cbn [length]; lia).
      assert (E0 : f' = []) by (rewrite Ef, Eo, dropz_ge by lia; done).
      apply (Hturn t), finished; [by rewrite E0, to_read_nothing|done].
    + replace (S (length l1) <? _)%nat with true by (cbn [length]; lia).
      set (r2 := mkReading (taken r') (out r') (Some (S (length l1))) 0 (bytes_to_skip r')).
      apply (Hturn t), (IH r2 (s <| current_time_ := t |>) p' f').
      * constructor; cbn; try done. apply (position_next _ l1 b b2 l2); try done.
        -- rewrite Ep, Eo, contents_app, takez_ge by lia. cbn. by rewrite app_nil_r.
        -- rewrite Ef, Eo, dropz_ge by lia. done.
      * cbn [length] in Hlens. lia.
      * intros _. unfold turns. cbn. rewrite Hlens. cbn [length].
        cbn [length] in Hlens. revert Hfuel.
        destruct (Z.eqb_spec (bytes_to_skip r) 0) as [E|E]; [rewrite (proj1 (Hz E))|destruct (_ =? _)]; cbn; lia.
  - apply (Hturn (current_time_ s)). replace (s <| current_time_ := current_time_ s |>) with s by (by destruct s).
    apply IH; [by constructor|destruct (_ =? _) in Hfuel; lia|].
    intros Hlt'. unfold turns. rewrite Ec'. destruct Hend as [?|[?|[N1 N2]]]; [done|lia|].
    rewrite N2. rewrite (proj2 (Z.eqb_neq _ _) N1) in Hfuel. cbn. lia.
Qed.

(** ** Evicting *)

(** What is kept behind the position, of the blocks of the queue: the first
    [n] are forgotten, as many as it takes until what is left is within the
    capacity or the position is in the first block that is left, and not one
    more. *)
Definition kept (capacity : Z) (blocks : list (list Z)) (past past' : list Z) : Prop :=
  exists n, past = concat (take n blocks) ++ past' /\
    (zlen past' <= capacity \/ past' `prefix_of` default [] (blocks !! n)) /\
    forall m, (m < n)%nat -> capacity < zlen past - zlen (concat (take m blocks)).

Lemma kept_all capacity blocks past :
  zlen past <= capacity \/ past `prefix_of` default [] (blocks !! 0%nat) -> kept capacity blocks past past.
Proof. intros H. exists 0%nat. split; [done|]. split; [done|]. lia. Qed.

Lemma kept_forget capacity c blocks past past' :
  capacity < zlen (c ++ past) -> kept capacity blocks past past' -> kept capacity (c :: blocks) (c ++ past) past'.
Proof.
  intros Hc (n & -> & Hstop & Hm). exists (S n). cbn [take concat lookup list_lookup]. split; [by rewrite app_assoc|]. split; [exact Hstop|].
  intros [|m] Hmn; cbn [take concat]; [change (zlen (@nil Z)) with 0; lia|]. specialize (Hm m ltac:(lia)).
  rewrite (zlen_app c), (zlen_app c). lia.
Qed.

(** What no operation but one changes. *)
Definition same_capacities (s s' : SeekableBuffer) : Prop :=
  backward_capacity_ s' = backward_capacity_ s /\ forward_capacity_ s' = forward_capacity_ s.

Lemma evict_ok fuel s past future :
  holds s past future -> (length (buffers_ s) < fuel)%nat ->
  exists s' past', evict_loop fuel s = Ok s' /\ holds s' past' future /\
    kept (backward_capacity_ s) (map bytes (buffers_ s)) past past' /\ same_capacities s s'.
Proof.
  revert s past. induction fuel as [|fuel IH]; intros s past Hs Hfuel; [lia|]. cbn [evict_loop].
  pose proof Hs as [Hb Hp Hbw Hfw Hsm].
  destruct (Z.ltb_spec (backward_capacity_ s) (backward_bytes_ s)) as [Hc|Hc].
  2:{ exists s, past. split; [done|]. split; [done|]. split; [apply kept_all; left; lia|done]. }
  assert (Hstop : past `prefix_of` default [] (map bytes (buffers_ s) !! 0%nat) ->
    exists s' past', Ok s = Ok s' /\ holds s' past' future /\
      kept (backward_capacity_ s) (map bytes (buffers_ s)) past past' /\ same_capacities s s')
    by (intros Hl; exists s, past; split; [done|]; split; [done|]; split; [apply kept_all; by right|done]).
  destruct (current_buffer_ s) as [i|] eqn:Ec.
  2:{ destruct Hp as (El & _ & -> & _).
      replace (bool_decide (begin s = None)) with true by (unfold begin; rewrite El; done).
      apply Hstop, prefix_nil. }
  destruct Hp as (l1 & b & l2 & El & -> & Ho & Epast & Efut).
  assert (Hbb : Forall block_ok (l1 ++ b :: l2)) by by rewrite <- El.
  destruct l1 as [|c l1].
  { replace (bool_decide (begin s = Some (length []))) with true by (unfold begin; rewrite El; done).
    apply Hstop. rewrite Epast, El. cbn. exists (dropz (current_buffer_offset_ s) (bytes b)). by rewrite takez_dropz. }
  replace (bool_decide (begin s = Some (length (c :: l1)))) with false
    by (unfold begin; rewrite El; symmetry; by apply bool_decide_eq_false_2).
  rewrite El. cbn [app]. inversion Hbb as [|? ? Hcok Hrest]; subst.
  destruct (block_accessors c Hcok) as (_ & _ & ->). cbn [checked mbind res_bind].
  set (past1 := contents l1 ++ takez (current_buffer_offset_ s) (bytes b)).
  assert (Ep : contents (c :: l1) ++ takez (current_buffer_offset_ s) (bytes b) = bytes c ++ past1)
    by (unfold past1; by rewrite contents_cons, app_assoc).
  set (future := dropz (current_buffer_offset_ s) (bytes b) ++ contents l2) in *.
  rewrite Ep in *. rewrite zlen_app, (zlen_bytes c Hcok) in *.
  destruct (bo_size _ Hcok) as [Hc0 _]. pose proof (zlen_nonneg past1).
  pose proof (zlen_nonneg future). rewrite Hbw, s32_id by lia.
  change (backward_bytes_ (s <| backward_bytes_ := ?x |>)) with x.
  replace (0 <=? data_size_ c + zlen past1 - data_size_ c) with true by lia.
  cbn [DCHECK checked mbind res_bind].
  set (s1 := s <| backward_bytes_ := _ |> <| buffers_ := l1 ++ b :: l2 |> <| current_buffer_ := _ |>).
  destruct (IH s1 past1) as (s2 & past2 & E2 & H2 & K2 & C2).
  - constructor; cbn; [done| |lia|done|lia]. cbn. rewrite Ec. exists l1, b, l2. done.
  - cbn. rewrite El in Hfuel. cbn [app length] in Hfuel. rewrite length_app in *. cbn in *. lia.
  - exists s2, past2. split; [exact E2|]. split; [done|]. split; [|exact C2].
    apply kept_forget; [rewrite zlen_app, (zlen_bytes c Hcok); lia|exact K2].
Qed.

Lemma reading_start s size skip past future :
  holds s past future -> 0 <= size < 2 ^ 31 -> 0 <= skip < 2 ^ 31 ->
  reading s size (mkReading 0 [] (current_buffer_ s) (current_buffer_offset_ s) skip) past future.
Proof. intros [Hb Hp Hbw Hfw Hsm] Hs Hk. constructor; cbn; try done. lia. Qed.

Lemma turns_start s skip past future :
  holds s past future ->
  (turns s (mkReading 0 [] (current_buffer_ s) (current_buffer_offset_ s) skip) <= S (S (length (buffers_ s))))%nat.
Proof. intros _. unfold turns. cbn. destruct (current_buffer_ s), (skip =? 0); lia. Qed.

(** A read that does not move. *)
Lemma InternalRead_peek copy size skip s past future :
  holds s past future -> 0 <= size < 2 ^ 31 -> 0 <= skip < 2 ^ 31 ->
  let got := takez size (dropz skip future) in
  exists s', InternalRead copy size false skip s = Ok (zlen got, if copy then got else [], s') /\
    holds s' past future /\ same_capacities s s'.
Proof.
  intros Hs Hsize Hskip got. unfold InternalRead.
  set (r := mkReading 0 [] (current_buffer_ s) (current_buffer_offset_ s) skip).
  destruct (read_loop_ok (S (S (length (buffers_ s)))) copy size false r s past future)
    as (r' & t & E & Et & Eo & _); [by apply reading_start|lia|intros _; by apply (turns_start s skip past future)|].
  rewrite E. cbn [mbind res_bind]. cbn in Et, Eo. unfold to_read in Et, Eo. cbn in Et, Eo.
  rewrite Z.sub_0_r in Et, Eo. fold got in Et, Eo. rewrite Et, Eo. eexists. split; [done|].
  split; [by apply with_time_holds|done].
Qed.

(** A read that does. *)
Lemma InternalRead_move copy size s past future :
  holds s past future -> 0 <= size < 2 ^ 31 ->
  let got := takez size future in
  exists s' past', InternalRead copy size true 0 s = Ok (zlen got, if copy then got else [], s') /\
    holds s' past' (dropz size future) /\
    kept (backward_capacity_ s) (map bytes (buffers_ s)) (past ++ got) past' /\ same_capacities s s'.
Proof.
  intros Hs Hsize got. pose proof Hs as [Hb Hp Hbw Hfw Hsm]. unfold InternalRead.
  set (r := mkReading 0 [] (current_buffer_ s) (current_buffer_offset_ s) 0).
  destruct (read_loop_ok (S (S (length (buffers_ s)))) copy size true r s past future)
    as (r' & t & E & Et & Eo & past1 & future1 & P1 & C1 & Z1);
    [by apply reading_start|lia|intros _; by apply (turns_start s 0 past future)|].
  assert (Er : to_read size r future = got) by (unfold to_read, r, got; cbn; by rewrite Z.sub_0_r).
  rewrite Er in *. specialize (Z1 eq_refl). cbn in Et, Eo.
  assert (future1 = dropz size future) as ->.
  { rewrite Z1 in C1. rewrite <- (takez_dropz size future), app_assoc in C1 at 1. by apply app_inv_head in C1. }
  rewrite E. cbn [mbind res_bind].
  assert (Hsplit : zlen got + zlen (dropz size future) = zlen future)
    by (unfold got; rewrite <- zlen_app, takez_dropz; done).
  pose proof (zlen_nonneg got). pose proof (zlen_nonneg (dropz size future)). pose proof (zlen_nonneg past).
  change (forward_bytes_ (s <| current_time_ := t |>)) with (forward_bytes_ s).
  change (backward_bytes_ (s <| current_time_ := t |> <| forward_bytes_ := ?f |>)) with (backward_bytes_ s).
  rewrite Z.add_0_l in Et. rewrite Et, Hfw, Hbw.
  rewrite (s32_id (zlen future - zlen got)), (s32_id (zlen past + zlen got)) by lia.
  set (s1 := s <| current_time_ := t |> <| forward_bytes_ := _ |> <| backward_bytes_ := _ |>).
  change (forward_bytes_ s1) with (zlen future - zlen got).
  change (current_buffer_ s1) with (current_buffer_ s).
  replace (0 <=? zlen future - zlen got) with true by lia. cbn [DCHECK checked mbind res_bind].
  replace (match current_buffer_ s with Some _ => true | None => zlen future - zlen got =? 0 end) with true.
  2:{ destruct (current_buffer_ s); [done|]. destruct Hp as (_ & _ & _ & ->). unfold got, takez.
      by rewrite take_nil. }
  cbn [DCHECK checked mbind res_bind].
  set (s2 := s1 <| current_buffer_ := _ |> <| current_buffer_offset_ := _ |>).
  assert (H2 : holds s2 past1 (dropz size future)).
  { constructor; cbn; [done|done|rewrite Z1, zlen_app; lia|lia|rewrite Z1, zlen_app; lia]. }
  destruct (UpdateCurrentTime_ok (buffers_ s2) (current_buffer_ s2) (current_buffer_offset_ s2) past1
    (dropz size future) s2) as [t2 E2]; [apply H2|apply H2|done|].
  rewrite E2. cbn [checked mbind res_bind].
  destruct (evict_ok (S (length (buffers_ (s2 <| current_time_ := t2 |>)))) (s2 <| current_time_ := t2 |>) past1
    (dropz size future)) as (s3 & past3 & E3 & H3 & K3 & Q3); [by apply with_time_holds|lia|].
  unfold EvictBackwardBuffers. rewrite E3. cbn [mbind res_bind]. rewrite Eo. exists s3, past3.
  split; [done|]. split; [done|]. split; [by rewrite <- Z1|done].
Qed.

(** Moving back over [moved], the last bytes behind the position. *)
(** A position at the start of a block is the end of the block before. *)
Lemma previous_end s past future l1 b' b l2 :
  holds s past future -> buffers_ s = l1 ++ b' :: b :: l2 ->
  current_buffer_ s = Some (S (length l1)) -> current_buffer_offset_ s = 0 ->
  holds (s <| current_buffer_ := Some (length l1) |> <| current_buffer_offset_ := data_size_ b' |>) past future.
Proof.
  intros [Hb Hp Hbw Hfw Hsm] El Ec Eo. constructor; try done. rewrite Ec, Eo in Hp.
  destruct Hp as (k1 & c & k2 & Ek & Hk & _ & Epast & Efut).
  assert (E : k1 ++ c :: k2 = (l1 ++ [b']) ++ b :: l2) by (rewrite <- app_assoc; cbn [app]; congruence).
  apply app_inj_1 in E as [-> [= -> ->]]; [|rewrite length_app; cbn [length]; lia].
  assert (Hbb : block_ok b') by (rewrite El in Hb; apply Forall_app in Hb as [_ Hb]; by inversion Hb).
  pose proof (zlen_bytes b' Hbb). change (buffers_ (_ <| current_buffer_ := _ |> <| current_buffer_offset_ := _ |>)) with (buffers_ s).
  exists l1, b', (b :: l2). split; [done|]. split; [done|]. split; [cbn; destruct Hbb; lia|]. cbn [current_buffer_offset_].
  change (current_buffer_offset_ (_ <| current_buffer_offset_ := data_size_ b' |>)) with (data_size_ b').
  rewrite Epast, Efut, contents_app, (takez_ge (data_size_ b')), (dropz_ge (data_size_ b')), (takez_0 0), (dropz_0 0) by lia.
  split; [cbn; by rewrite !app_nil_r|done].
Qed.

(** Going back within a block. *)
Lemma back_step s past moved future l1 b l2 c :
  holds s (past ++ moved) future -> buffers_ s = l1 ++ b :: l2 -> current_buffer_ s = Some (length l1) ->
  0 <= c <= current_buffer_offset_ s -> c <= zlen moved ->
  exists m1 m2, moved = m1 ++ m2 /\ zlen m2 = c /\
    holds (s <| current_buffer_offset_ := current_buffer_offset_ s - c |> <| forward_bytes_ := zlen future + c |>
             <| backward_bytes_ := zlen (past ++ moved) - c |>) (past ++ m1) (m2 ++ future).
Proof.
  intros [Hb Hp Hbw Hfw Hsm] El Ec Hc Hcm. rewrite Ec in Hp. destruct Hp as (k1 & b0 & k2 & Ek & Hk & Ho & Epast & Efut).
  assert (E : k1 ++ b0 :: k2 = l1 ++ b :: l2) by congruence. apply app_inj_1 in E as [-> [= -> ->]]; [|by rewrite <- Hk].
  assert (Hbb : block_ok b) by (rewrite El in Hb; apply Forall_app in Hb as [_ Hb']; by inversion Hb').
  pose proof (zlen_bytes b Hbb) as Hlen. set (o := current_buffer_offset_ s) in *.
  set (m2 := takez c (dropz (o - c) (bytes b))).
  assert (Hm2 : zlen m2 = c) by (unfold m2; rewrite zlen_takez, zlen_dropz; lia).
  assert (Hcut : takez o (bytes b) = takez (o - c) (bytes b) ++ m2) by (unfold m2; rewrite <- takez_takez_dropz by lia; f_equal; lia).
  exists (takez (zlen moved - c) moved), m2. set (m1 := takez _ moved).
  rewrite Hcut, app_assoc in Epast. rewrite <- (takez_dropz (zlen moved - c) moved), app_assoc in Epast.
  apply app_inj_2 in Epast as [E1 E2].
  2:{ assert (zlen (dropz (zlen moved - c) moved) = zlen m2) by (rewrite zlen_dropz, Hm2; lia). unfold zlen in *. lia. }
  assert (Em : moved = m1 ++ m2) by (rewrite <- E2; unfold m1; by rewrite takez_dropz). split; [exact Em|]. split; [exact Hm2|].
  assert (Efront : past ++ m1 = contents l1 ++ takez (o - c) (bytes b)) by exact E1. clear E1 E2. clearbody m1.
  rewrite Em, !zlen_app in *. constructor; cbn; rewrite ?zlen_app; [done| |lia|lia|lia]. rewrite Ec. exists l1, b, l2.
  split; [done|]. split; [done|]. split; [lia|]. split; [done|]. rewrite Efut. fold o. unfold m2.
  rewrite app_assoc. f_equal. replace o with ((o - c) + c) at 2 by lia. rewrite <- dropz_dropz by lia. by rewrite takez_dropz.
Qed.

Lemma back_loop_ok fuel size taken s past moved future :
  holds s (past ++ moved) future -> 0 <= taken -> zlen moved = size - taken -> size < 2 ^ 31 ->
  (1 <= fuel)%nat -> (taken < size -> match current_buffer_ s with None => True | Some i => (i + 2 <= fuel)%nat end) ->
  exists s', back_loop fuel size taken s = Ok (size, s') /\ holds s' past (moved ++ future) /\
    same_capacities s s'.
Proof.
  revert taken s moved future. induction fuel as [|fuel IH];
    intros taken s moved future Hs Ht Hm Hsize Hf1 Hfuel; [lia|].
  cbn [back_loop]. pose proof Hs as [Hb Hp Hbw Hfw Hsm].
  pose proof (zlen_nonneg moved). pose proof (zlen_nonneg past). pose proof (zlen_nonneg future).
  destruct (Z.ltb_spec taken size) as [Hlt|Hge]; cbn [negb].
  2:{ assert (moved = []) as -> by (destruct moved; [done|unfold zlen in *; cbn in *; lia]).
      exists s. rewrite app_nil_r in Hs. replace taken with size by lia. done. }
  specialize (Hfuel Hlt). destruct (current_buffer_ s) as [i|] eqn:Ec.
  2:{ destruct Hp as (_ & _ & E & _). apply app_eq_nil in E as [_ ->]. unfold zlen in Hm. cbn in Hm. lia. }
  destruct Hp as (l1 & b & l2 & El & -> & Ho & Epast & _).
  assert (Hbb : block_ok b) by (rewrite El in Hb; apply Forall_app in Hb as [_ Hb']; by inversion Hb').
  pose proof (zlen_bytes b Hbb) as Hlen. set (o := current_buffer_offset_ s) in *.
  assert (Hsmall_o : o < 2 ^ 31).
  { pose proof (f_equal zlen Epast) as El'. rewrite !zlen_app, zlen_takez in El' by lia.
    rewrite zlen_app in Hsm. pose proof (zlen_nonneg (contents l1)). lia. }
  set (c := Z.min (size - taken) o).
  destruct (back_step s past moved future l1 b l2 c Hs El Ec) as (m1 & m2 & -> & Hm2 & Hs1); [fold o; lia|lia|]. fold o in Hs1.
  rewrite !zlen_app in *. pose proof (zlen_nonneg m1). pose proof (zlen_nonneg m2).
  rewrite (s32_id (size - taken)) by lia. fold c. rewrite (s32_id (taken + c)) by lia.
  rewrite (s32_id (o - c)) by lia.
  change (forward_bytes_ (s <| current_buffer_offset_ := ?x |>)) with (forward_bytes_ s).
  change (backward_bytes_ (s <| current_buffer_offset_ := ?x |> <| forward_bytes_ := ?y |>)) with (backward_bytes_ s).
  rewrite Hfw, (s32_id (zlen future + c)), Hbw, (s32_id (_ - c)) by lia.
  set (s1 := s <| current_buffer_offset_ := _ |> <| forward_bytes_ := _ |> <| backward_bytes_ := _ |>) in *.
  change (backward_bytes_ s1) with (zlen past + (zlen m1 + zlen m2) - c).
  replace (0 <=? _) with true by lia. cbn [DCHECK checked mbind res_bind].
  change (current_buffer_offset_ s1) with (o - c). rewrite <- app_assoc.
  destruct (Z.eqb_spec (o - c) 0) as [E0|E0].
  2:{ destruct (IH (taken + c) s1 m1 (m2 ++ future)) as (s3 & E3 & Hs3 & Q3); try lia; try done. by exists s3. }
  destruct l1 as [|b' l1' _] using rev_ind.
  - apply (f_equal zlen) in Epast. rewrite !zlen_app, zlen_takez in Epast by lia. change (zlen (contents [])) with 0 in Epast.
    assert (m1 = []) as -> by (apply zlen_nil; lia). exists s1. cbn [length]. change (zlen []) with 0 in *. rewrite app_nil_r in Hs1.
    replace (taken + c) with size by lia. done.
  - rewrite <- app_assoc in El. cbn [app] in El. rewrite length_app, Nat.add_1_r in *.
    assert (Elook : buffers_ s1 !! length l1' = Some b') by (change (buffers_ s1) with (buffers_ s); rewrite El; by apply list_lookup_middle).
    rewrite Elook. cbn [mbind option_bind].
    assert (Hbb' : block_ok b') by (rewrite El in Hb; apply Forall_app in Hb as [_ Hb']; by inversion Hb').
    destruct (block_accessors b' Hbb') as (_ & _ & ->). cbn [checked mbind res_bind].
    pose proof (previous_end s1 (past ++ m1) (m2 ++ future) l1' b' b l2 Hs1 El Ec E0) as Hs2.
    destruct (IH (taken + c) _ m1 (m2 ++ future) Hs2) as (s3 & E3 & Hs3 & Q3); try lia; [cbn; lia|]. by exists s3.
Qed.

(** ** Seeking, appending, looking *)

Lemma SeekForward_ok size s past future :
  holds s past future -> 0 < size < 2 ^ 31 -> size <= zlen future ->
  exists s' past', SeekForward size s = Ok (true, s') /\ holds s' past' (dropz size future) /\
    kept (backward_capacity_ s) (map bytes (buffers_ s)) (past ++ takez size future) past'.
Proof.
  intros Hs Hsize Hle. unfold SeekForward. rewrite (ho_forward _ _ _ Hs).
  replace (zlen future <? size) with false by lia.
  destruct (InternalRead_move false size s past future Hs) as (s' & past' & E & H' & K & _); [lia|].
  rewrite E. cbn [mbind res_bind]. rewrite zlen_takez by lia.
  replace (Z.min size (zlen future) =? size) with true by lia. cbn [DCHECK checked mbind res_bind].
  by exists s', past'.
Qed.

Lemma SeekBackward_ok s past moved future :
  holds s (past ++ moved) future -> 0 < zlen moved ->
  exists s', SeekBackward (zlen moved) s = Ok (true, s') /\ holds s' past (moved ++ future).
Proof.
  intros Hs Hm. pose proof Hs as [Hb Hp Hbw Hfw Hsm]. unfold SeekBackward. rewrite Hbw.
  rewrite zlen_app in *. pose proof (zlen_nonneg past). pose proof (zlen_nonneg future).
  replace (zlen past + zlen moved <? zlen moved) with false by lia.
  destruct (back_loop_ok (S (S (length (buffers_ s)))) (zlen moved) 0 s past moved future Hs)
    as (s1 & E1 & H1 & _); try lia.
  { intros _. destruct (current_buffer_ s); [|done]. destruct Hp as (l1 & b & l2 & -> & -> & _).
    rewrite length_app. cbn. lia. }
  rewrite E1. cbn [mbind res_bind].
  destruct (UpdateCurrentTime_ok (buffers_ s1) (current_buffer_ s1) (current_buffer_offset_ s1) past
    (moved ++ future) s1) as [t ->]; [apply H1|apply H1|done|].
  cbn [checked mbind res_bind]. rewrite Z.eqb_refl. cbn [DCHECK checked mbind res_bind].
  eexists. split; [done|]. by apply with_time_holds.
Qed.

Lemma Append_ok b s past future :
  holds s past future -> block_ok b -> zlen past + zlen (future ++ bytes b) < 2 ^ 31 ->
  exists s', Append b s = Some (zlen (future ++ bytes b) <? forward_capacity_ s, s') /\
    holds s' past (future ++ bytes b).
Proof.
  intros Hs Hb Hsize. pose proof Hs as [Hbs Hp Hbw Hfw Hsm]. unfold Append.
  destruct (block_accessors b Hb) as (Et & _ & Ed).
  assert (exists t, match buffers_ s with
     | [] => t ← timestamp b; Some (if negb (t =? kNoTimestamp) then s <| current_time_ := t |> else s)
     | _ => Some s end = Some (s <| current_time_ := t |>)) as [t ->].
  { rewrite Et. cbn [mbind option_bind]. assert (Hsame : s = s <| current_time_ := current_time_ s |>) by by destruct s.
    destruct (buffers_ s); [destruct (negb _)|]; [eauto|eexists; by f_equal..]. }
  cbn [mbind option_bind]. set (s1 := s <| current_time_ := t |> <| buffers_ := _ |>).
  assert (exists it, match current_buffer_ s1 with
     | None => DCHECK (0 =? forward_bytes_ s1) ;; Some (s1 <| current_buffer_ := begin s1 |>)
     | Some _ => Some s1 end = Some (s1 <| current_buffer_ := it |>) /\
     position (buffers_ s ++ [b]) it (current_buffer_offset_ s) past (future ++ bytes b)) as (it & -> & Hit).
  { change (current_buffer_ s1) with (current_buffer_ s). destruct (current_buffer_ s) as [i|] eqn:Ec.
    - exists (Some i). split; [by subst s1; destruct s; cbn in *; subst|].
      destruct Hp as (l1 & b1 & l2 & -> & -> & Ho & -> & ->). exists l1, b1, (l2 ++ [b]).
      rewrite <- app_assoc. split; [done|]. split; [done|]. split; [done|]. split; [done|].
      rewrite contents_app, <- app_assoc. cbn. by rewrite app_nil_r.
    - destruct Hp as (El & Eo & -> & ->). change (forward_bytes_ s1) with (forward_bytes_ s).
      rewrite Hfw, DCHECK_bind. cbn. exists (Some 0%nat). unfold begin. cbn. rewrite El. split; [done|].
      exists [], b, []. rewrite Eo, takez_0, dropz_0 by lia. split; [done|]. split; [done|].
      split; [destruct Hb; lia|]. cbn. by rewrite app_nil_r. }
  cbn [mbind option_bind]. rewrite Ed. cbn [mbind option_bind].
  change (forward_bytes_ (s1 <| current_buffer_ := it |>)) with (forward_bytes_ s).
  pose proof (zlen_nonneg past). pose proof (zlen_nonneg future). pose proof (zlen_bytes b Hb) as Hl.
  rewrite zlen_app in *. pose proof (zlen_nonneg (bytes b)).
  rewrite Hfw, s32_id by lia. rewrite <- Hl.
  eexists. split; [do 2 f_equal; cbn; lia|].
  constructor; cbn; rewrite ?zlen_app; [|done..|lia|lia]. apply Forall_app. split; [done|by constructor].
Qed.

Lemma current_chunk_ok b l2 offset :
  Forall block_ok (b :: l2) -> 0 <= offset <= data_size_ b ->
  exists chunk, current_chunk (b :: l2) offset = Some chunk /\
    match chunk with
    | None => dropz offset (bytes b) ++ contents l2 = []
    | Some c => c <> [] /\ c `prefix_of` (dropz offset (bytes b) ++ contents l2)
    end.
Proof.
  revert b offset. induction l2 as [|b2 l2 IH]; intros b offset Hb Ho;
    apply Forall_cons in Hb as [Hb Hl2]; cbn [current_chunk];
    destruct (block_accessors b Hb) as (_ & _ & ->); cbn [mbind option_bind];
    pose proof (zlen_bytes b Hb); destruct (Z.leb_spec (data_size_ b) offset).
  - exists None. split; [done|]. by rewrite dropz_ge by lia.
  - rewrite data_at_ok by (done || lia). cbn [mbind option_bind]. eexists. split; [done|].
    rewrite takez_ge by (rewrite zlen_dropz; lia). split; [|by apply prefix_app_r].
    intros E. apply (f_equal zlen) in E. rewrite zlen_dropz in E by lia. change (zlen (@nil Z)) with 0 in E. lia.
  - destruct (IH b2 0 Hl2) as (chunk & E & Hc).
    { apply Forall_cons in Hl2 as [Hb2 _]. destruct Hb2. lia. }
    exists chunk. split; [exact E|]. rewrite dropz_0 in Hc by lia. by rewrite dropz_ge by lia.
  - rewrite data_at_ok by (done || lia). cbn [mbind option_bind]. eexists. split; [done|].
    rewrite takez_ge by (rewrite zlen_dropz; lia). split; [|by apply prefix_app_r].
    intros E. apply (f_equal zlen) in E. rewrite zlen_dropz in E by lia. change (zlen (@nil Z)) with 0 in E. lia.
Qed.

(** ** The stream of bytes it is

    The specification: a stream with a position, the bytes behind it, of which
    the oldest may be forgotten, and the bytes in front. *)
Inductive op :=
  | OpAppend (b : DataBuffer)
  | OpAppendData (data : list Z)
  | OpRead (size : Z)
  | OpPeek (size forward_offset : Z)
  | OpChunk
  | OpSeek (offset : Z)
  | OpClear.

Inductive answer :=
  | ABool (b : bool)
  | ABytes (count : Z) (l : list Z)
  | AChunk (chunk : option (list Z))
  | ANone.

Definition run_op (o : op) (s : SeekableBuffer) : res (answer * SeekableBuffer) :=
  match o with
  | OpAppend b => '(r, s) ← checked (Append b s); Ok (ABool r, s)
  | OpAppendData d => '(r, s) ← checked (AppendData d s); Ok (ABool r, s)
  | OpRead size => '(n, l, s) ← Read size s; Ok (ABytes n l, s)
  | OpPeek size offset => '(n, l, s) ← Peek size offset s; Ok (ABytes n l, s)
  | OpChunk => c ← checked (GetCurrentChunk s); Ok (AChunk c, s)
  | OpSeek offset => '(r, s) ← Seek offset s; Ok (ABool r, s)
  | OpClear => Ok (ANone, Clear s)
  end.

Inductive stream_step (backward forward : Z) (blocks : list (list Z)) :
    list Z * list Z -> op -> answer -> list Z * list Z -> Prop :=
  | st_append past future b :
      let future' := future ++ bytes b in
      stream_step backward forward blocks
        (past, future) (OpAppend b) (ABool (zlen future' <? forward)) (past, future')
  | st_append_data past future d :
      let future' := future ++ d in
      stream_step backward forward blocks
        (past, future) (OpAppendData d) (ABool (zlen future' <? forward)) (past, future')
  | st_read past future size past' :
      let got := takez size future in
      kept backward blocks (past ++ got) past' ->
      stream_step backward forward blocks
        (past, future) (OpRead size) (ABytes (zlen got) got) (past', dropz size future)
  | st_peek past future size offset :
      let got := takez size (dropz offset future) in
      stream_step backward forward blocks
        (past, future) (OpPeek size offset) (ABytes (zlen got) got) (past, future)
  | st_no_chunk past :
      stream_step backward forward blocks (past, []) OpChunk (AChunk None) (past, [])
  | st_chunk past chunk rest :
      chunk <> [] ->
      stream_step backward forward blocks
        (past, chunk ++ rest) OpChunk (AChunk (Some chunk)) (past, chunk ++ rest)
  | st_seek_forward past future n past' :
      0 < n <= zlen future -> kept backward blocks (past ++ takez n future) past' ->
      stream_step backward forward blocks
        (past, future) (OpSeek n) (ABool true) (past', dropz n future)
  | st_seek_back past moved future :
      stream_step backward forward blocks
        (past ++ moved, future) (OpSeek (- zlen moved)) (ABool true) (past, moved ++ future)
  | st_seek_fails past future n :
      zlen future < n \/ n < - zlen past ->
      stream_step backward forward blocks (past, future) (OpSeek n) (ABool false) (past, future)
  | st_clear past future :
      stream_step backward forward blocks (past, future) OpClear ANone ([], []).

(** What may be asked of it: blocks with data, sizes that are not negative, and
    no more bytes at a time than an [int] can count. *)
Definition valid_op (past future : list Z) (o : op) : Prop :=
  match o with
  | OpAppend b => block_ok b /\ zlen past + zlen (future ++ bytes b) < 2 ^ 31
  | OpAppendData d => zlen past + zlen (future ++ d) < 2 ^ 31
  | OpRead size => 0 <= size < 2 ^ 31
  | OpPeek size offset => 0 <= size < 2 ^ 31 /\ 0 <= offset < 2 ^ 31
  | OpSeek offset => - 2 ^ 31 < offset < 2 ^ 31
  | OpChunk | OpClear => True
  end.

Lemma CopyFrom_ok d : block_ok (CopyFrom d) <-> 0 < zlen d.
Proof.
  pose proof (zlen_nonneg d). split.
  - intros [_ _ Ht]. cbn in Ht. unfold kNoTimestamp in Ht. lia.
  - intros Hd. constructor; cbn; [done|lia|lia].
Qed.

Lemma bytes_CopyFrom d : bytes (CopyFrom d) = d.
Proof. unfold bytes. cbn. by apply takez_ge. Qed.

Lemma seek_refines offset s past future :
  holds s past future -> - 2 ^ 31 < offset < 2 ^ 31 ->
  exists r s' past' future', Seek offset s = Ok (r, s') /\
    stream_step (backward_capacity_ s) (forward_capacity_ s) (map bytes (buffers_ s))
      (past, future) (OpSeek offset) (ABool r) (past', future') /\ holds s' past' future'.
Proof.
  intros Hs Ho. pose proof (zlen_nonneg past). pose proof (zlen_nonneg future). unfold Seek.
  destruct (Z.ltb_spec 0 offset); [|destruct (Z.ltb_spec offset 0)].
  - destruct (Z.le_gt_cases offset (zlen future)).
    + destruct (SeekForward_ok offset s past future Hs) as (s' & past' & E & H' & K); [lia|done|].
      exists true, s', past', (dropz offset future). split; [done|]. split; [by constructor|done].
    + exists false, s, past, future. unfold SeekForward. rewrite (ho_forward _ _ _ Hs).
      replace (zlen future <? offset) with true by lia. split; [done|]. split; [constructor; lia|done].
  - rewrite s32_id by lia. destruct (Z.le_gt_cases (- offset) (zlen past)).
    + rewrite <- (takez_dropz (zlen past + offset) past) in Hs |- *.
      set (moved := dropz _ past) in *. set (past1 := takez _ past) in *.
      assert (Hm : zlen moved = - offset) by (unfold moved; rewrite zlen_dropz; lia).
      replace offset with (- zlen moved) by lia. rewrite Z.opp_involutive.
      destruct (SeekBackward_ok s past1 moved future Hs) as (s' & E & H'); [lia|].
      exists true, s', past1, (moved ++ future). split; [done|]. split; [constructor|done].
    + exists false, s, past, future. unfold SeekBackward. rewrite (ho_backward _ _ _ Hs).
      replace (zlen past <? - offset) with true by lia. split; [done|]. split; [constructor; lia|done].
  - replace offset with (- zlen (@nil Z)) by (change (zlen (@nil Z)) with 0; lia).
    exists true, s, past, future. split; [done|]. split; [|done].
    rewrite <- (app_nil_r past) at 1. apply st_seek_back.
Qed.

Lemma op_refines o s past future :
  holds s past future -> valid_op past future o ->
  exists a s' past' future', run_op o s = Ok (a, s') /\
    stream_step (backward_capacity_ s) (forward_capacity_ s) (map bytes (buffers_ s))
      (past, future) o a (past', future') /\ holds s' past' future'.
Proof.
  intros Hs Hv. destruct o as [b|d|size|size offset| |offset|]; cbn [run_op valid_op] in *.
  - destruct Hv as [Hb Hsize]. destruct (Append_ok b s past future Hs Hb Hsize) as (s' & -> & H').
    do 4 eexists. split; [done|]. split; [constructor|done].
  - unfold AppendData. destruct (Z.ltb_spec 0 (zlen d)) as [Hd|Hd].
    + destruct (Append_ok (CopyFrom d) s past future Hs) as (s' & -> & H');
        [by apply CopyFrom_ok|by rewrite bytes_CopyFrom|]. rewrite bytes_CopyFrom in *.
      do 4 eexists. split; [done|]. split; [constructor|done].
    + assert (d = []) as -> by (destruct d; [done|unfold zlen in Hd; cbn in Hd; lia]).
      rewrite (ho_forward _ _ _ Hs). exists (ABool (zlen future <? forward_capacity_ s)), s, past, future.
      split; [done|]. split; [|done].
      pose proof (st_append_data (backward_capacity_ s) (forward_capacity_ s) (map bytes (buffers_ s)) past future []) as St.
      cbv zeta in St. by rewrite app_nil_r in St.
  - destruct (InternalRead_move true size s past future Hs Hv) as (s' & past' & E & H' & K & _).
    unfold Read. rewrite E. do 4 eexists. split; [done|]. split; [by constructor|done].
  - destruct (InternalRead_peek true size offset s past future Hs) as (s' & E & H' & _); [apply Hv..|].
    unfold Peek. rewrite E. do 4 eexists. split; [done|]. split; [constructor|done].
  - assert (exists c, GetCurrentChunk s = Some c /\ match c with
      | None => future = [] | Some c => c <> [] /\ c `prefix_of` future end) as (c & -> & Hc).
    { pose proof Hs as [Hb Hp _ _ _]. unfold GetCurrentChunk. destruct (current_buffer_ s).
      - destruct Hp as (l1 & b & l2 & El & -> & Ho & _ & ->). rewrite El in *. rewrite drop_app_length.
        apply Forall_app in Hb as [_ Hb]. by apply current_chunk_ok.
      - destruct Hp as (_ & _ & _ & ->). by exists None. }
    exists (AChunk c), s, past, future. split; [done|]. split; [|done]. destruct c as [c|]; [|subst; constructor].
    destruct Hc as [Hne [rest ->]]. by constructor.
  - destruct (seek_refines offset s past future Hs Hv) as (r & s' & past' & future' & E & St & H').
    rewrite E. do 4 eexists. done.
  - do 4 eexists. split; [done|]. split; [constructor|]. unfold Clear, begin. cbn. constructor; cbn; done.
Qed.

(** C31. The buffer is a stream of bytes with a position: in a new one and after
    every operation the queue of blocks stands for the bytes behind and in front
    of the position, and the operation did to them, and answered, what it says:
    appending adds in front, reading and seeking move the position over exactly
    the bytes asked for, looking does not move it, and what is forgotten behind
    it are the oldest blocks, each as a whole: while there are more bytes behind
    the position than the capacity, and until it is in the first block, and not
    a block more. (So there may be more behind it than the capacity, which
    seekable_buffer.h excludes.) No check fails and every loop ends. *)
Theorem seekable_buffer_refines backward forward :
  holds (new_SeekableBuffer backward forward) [] [] /\
  forall o s past future, holds s past future -> valid_op past future o ->
    exists a s' past' future', run_op o s = Ok (a, s') /\
      stream_step (backward_capacity_ s) (forward_capacity_ s) (map bytes (buffers_ s))
        (past, future) o a (past', future') /\ holds s' past' future'.
Proof. split; [by constructor|]. intros. by apply op_refines. Qed.

Lemma seekable_buffer_refines_witness :
  let s := new_SeekableBuffer 4 100 in
  exists s1 s2 a s3 past future,
    run_op (OpAppendData (str "abc")) s = Ok (ABool true, s1) /\
    run_op (OpAppendData (str "defgh")) s1 = Ok (ABool true, s2) /\
    run_op (OpRead 6) s2 = Ok (a, s3) /\ a = ABytes 6 (str "abcdef") /\
    past = str "def" /\ future = str "gh" /\ holds s3 past future.
Proof.
  intros s. destruct (seekable_buffer_refines 4 100) as [H0 Hstep].
  assert (V1 : valid_op [] [] (OpAppendData (str "abc"))) by (vm_compute; reflexivity).
  destruct (Hstep _ _ _ _ H0 V1) as (a1 & s1 & p1 & f1 & E1 & St1 & H1).
  vm_compute in E1. injection E1 as <- <-. inversion St1; subst. subst future'. vm_compute in H1.
  set (s1 := mkSeekableBuffer _ _ _ _ _ _ _ _) in H1.
  assert (V2 : valid_op [] (str "abc") (OpAppendData (str "defgh"))) by (vm_compute; reflexivity).
  destruct (Hstep _ _ _ _ H1 V2) as (a2 & s2 & p2 & f2 & E2 & St2 & H2).
  vm_compute in E2. injection E2 as <- <-. inversion St2; subst. subst future'. vm_compute in H2.
  set (s2 := mkSeekableBuffer _ _ _ _ _ _ _ _) in H2.
  assert (V3 : valid_op [] (str "abcdefgh") (OpRead 6)) by (cbn; lia).
  destruct (Hstep _ _ _ _ H2 V3) as (a3 & s3 & p3 & f3 & E3 & _ & H3).
  assert (Hpast : p3 = str "def" /\ f3 = str "gh").
  { vm_compute in E3. injection E3 as _ E3. subst s3. destruct H3 as [_ (l1 & b & l2 & El & Ei & _ & Ep & Ef) _ _ _].
    destruct l1; [|discriminate Ei]. cbn in El. injection El as <- <-. subst. split; vm_compute; reflexivity. }
  destruct Hpast as [-> ->]. exists s1, s2, a3, s3, (str "def"), (str "gh").
  split; [vm_compute; reflexivity|]. split; [vm_compute; reflexivity|]. split; [exact E3|].
  split; [|split; [reflexivity|split; [reflexivity|exact H3]]].
  vm_compute in E3. injection E3 as E3 _. subst a3. reflexivity.
Defined.

(** ** Inputs with other results *)

(** The block that is being read is not forgotten: five bytes are behind the
    position where the capacity is two. *)
Lemma capacity_is_exceeded :
  exists s1 s2, AppendData (str "abcdef") (new_SeekableBuffer 2 100) = Some (true, s1) /\
    Read 5 s1 = Ok (5, str "abcde", s2) /\ backward_capacity_ s2 = 2 /\ backward_bytes_ s2 = 5 /\ holds s2 (str "abcde") (str "f").
Proof.
  eexists _, _. split; [vm_compute; reflexivity|]. split; [vm_compute; reflexivity|]. split; [done|]. split; [done|].
  constructor; [|exists [], (CopyFrom (str "abcdef")), []; by vm_compute|done..]. constructor; [|done]. by apply CopyFrom_ok.
Qed.

(** Data appended without a time has the time zero, not none: once it is read
    the current time is zero, whatever the blocks before it said. *)
Lemma raw_data_resets_time :
  let timed := (CopyFrom (str "ab")) <| timestamp_ := 5000 |> <| duration_ := 1000 |> in
  exists s1 s2 s3 s4 s5 r2 r4,
    Append timed (new_SeekableBuffer 10 10) = Some (true, s1) /\
    Read 2 s1 = Ok (2, r2, s2) /\ current_time_ s2 = 6000 /\
    AppendData (str "cd") s2 = Some (true, s3) /\ current_time_ s3 = 6000 /\
    Read 1 s3 = Ok (1, r4, s4) /\ current_time_ s4 = 0 /\ s5 = s4.
Proof.
  do 7 eexists. repeat (split; [vm_compute; reflexivity|]). reflexivity.
Qed.

(** An empty block with a time ends the program when a read comes to it. *)
Lemma empty_timed_block_divides_by_zero :
  let empty := (CopyFrom []) <| timestamp_ := 5000 |> in
  exists s1, Append empty (new_SeekableBuffer 10 10) = Some (true, s1) /\ Read 1 s1 = Failed.
Proof. intros empty. eexists. split; [vm_compute; reflexivity|]. vm_compute. reflexivity. Qed.

(** Seeking back by the least offset: its negation is no [int], and without the
    check a seek that moves nothing reports success. *)
Lemma seek_least_offset s1 :
  AppendData (str "ab") (new_SeekableBuffer 10 10) = Some (true, s1) -> Seek (- 2 ^ 31) s1 = Failed.
Proof. intros E. vm_compute in E. injection E as <-. vm_compute. reflexivity. Qed.
