(* ===== verification/UrlChars.v ===== *)
(** Characters and ranges of characters, as the URL canonicalizer sees them:
    url/url_canon_internal.h, url/url_canon_internal.cc and
    url/third_party/mozilla/url_parse.h.

    The functions are templates over the code unit: [char], read through
    [unsigned char], or [char16].  A text is the list of its units as they
    are without a sign, which are below 2^8 or below 2^16, so one definition
    stands for both instances. *)
From S2P Require Import Prelude CArrays.

(* src: url/third_party/mozilla/url_parse.h 23-56! Component *)
Record Component := mkComponent { begin_ : Z; len : Z }.

(** The default constructor, and [reset]. *)
(* src: url/third_party/mozilla/url_parse.h 24-24! Component *)
Definition no_component : Component := mkComponent 0 (-1).

(** Offsets are indices of a text in memory, so the sums of the source are the
    sums of the integers. *)
(* src: url/third_party/mozilla/url_parse.h 29-31! end *)
Definition end_ (c : Component) : Z := begin_ c + len c.

(* src: url/third_party/mozilla/url_parse.h 35-37! is_valid *)
Definition is_valid (c : Component) : bool := !(len c =? -1).

(* src: url/third_party/mozilla/url_parse.h 41-43! is_nonempty *)
Definition is_nonempty (c : Component) : bool := 0 <? len c.

(** ** Character types *)

(* src: url/url_canon_internal.h 24-47! SharedCharTypes *)
Inductive SharedCharTypes :=
  | CHAR_QUERY | CHAR_USERINFO | CHAR_IPV4 | CHAR_HEX | CHAR_DEC | CHAR_OCT | CHAR_COMPONENT.

(* src: url/url_canon_internal.h 24-47! SharedCharTypes *)
Definition char_type_bit (t : SharedCharTypes) : Z :=
  match t with
  | CHAR_QUERY => 1 | CHAR_USERINFO => 2 | CHAR_IPV4 => 4 | CHAR_HEX => 8
  | CHAR_DEC => 16 | CHAR_OCT => 32 | CHAR_COMPONENT => 64
  end.
Coercion char_type_bit : SharedCharTypes >-> Z.

#[local] Notation "a ||| b" := (Z.lor a b) (at level 50, left associativity).

(* src: url/url_canon_internal.cc 109-216! kSharedCharTypeTable *)
Definition kSharedCharTypeTable : list Z := [
   0; 0; 0; 0; 0; 0; 0; 0; 0; 0; 0; 0; 0; 0; 0; 0;
   0; 0; 0; 0; 0; 0; 0; 0; 0; 0; 0; 0; 0; 0; 0; 0;
   0;
   CHAR_QUERY ||| CHAR_USERINFO ||| CHAR_COMPONENT;
   0;
   0;
   CHAR_QUERY ||| CHAR_USERINFO;
   CHAR_QUERY ||| CHAR_USERINFO;
   CHAR_QUERY ||| CHAR_USERINFO;
   0;
   CHAR_QUERY ||| CHAR_USERINFO ||| CHAR_COMPONENT;
   CHAR_QUERY ||| CHAR_USERINFO ||| CHAR_COMPONENT;
   CHAR_QUERY ||| CHAR_USERINFO ||| CHAR_COMPONENT;
   CHAR_QUERY ||| CHAR_USERINFO;
   CHAR_QUERY ||| CHAR_USERINFO;
   CHAR_QUERY ||| CHAR_USERINFO ||| CHAR_COMPONENT;
   CHAR_QUERY ||| CHAR_USERINFO ||| CHAR_IPV4 ||| CHAR_COMPONENT;
   char_type_bit CHAR_QUERY;
   CHAR_QUERY ||| CHAR_USERINFO ||| CHAR_IPV4 ||| CHAR_HEX ||| CHAR_DEC ||| CHAR_OCT ||| CHAR_COMPONENT;
   CHAR_QUERY ||| CHAR_USERINFO ||| CHAR_IPV4 ||| CHAR_HEX ||| CHAR_DEC ||| CHAR_OCT ||| CHAR_COMPONENT;
   CHAR_QUERY ||| CHAR_USERINFO ||| CHAR_IPV4 ||| CHAR_HEX ||| CHAR_DEC ||| CHAR_OCT ||| CHAR_COMPONENT;
   CHAR_QUERY ||| CHAR_USERINFO ||| CHAR_IPV4 ||| CHAR_HEX ||| CHAR_DEC ||| CHAR_OCT ||| CHAR_COMPONENT;
   CHAR_QUERY ||| CHAR_USERINFO ||| CHAR_IPV4 ||| CHAR_HEX ||| CHAR_DEC ||| CHAR_OCT ||| CHAR_COMPONENT;
   CHAR_QUERY ||| CHAR_USERINFO ||| CHAR_IPV4 ||| CHAR_HEX ||| CHAR_DEC ||| CHAR_OCT ||| CHAR_COMPONENT;
   CHAR_QUERY ||| CHAR_USERINFO ||| CHAR_IPV4 ||| CHAR_HEX ||| CHAR_DEC ||| CHAR_OCT ||| CHAR_COMPONENT;
   CHAR_QUERY ||| CHAR_USERINFO ||| CHAR_IPV4 ||| CHAR_HEX ||| CHAR_DEC ||| CHAR_OCT ||| CHAR_COMPONENT;
   CHAR_QUERY ||| CHAR_USERINFO ||| CHAR_IPV4 ||| CHAR_HEX ||| CHAR_DEC ||| CHAR_COMPONENT;
   CHAR_QUERY ||| CHAR_USERINFO ||| CHAR_IPV4 ||| CHAR_HEX ||| CHAR_DEC ||| CHAR_COMPONENT;
   char_type_bit CHAR_QUERY;
   char_type_bit CHAR_QUERY;
   0;
   char_type_bit CHAR_QUERY;
   0;
   char_type_bit CHAR_QUERY;
   char_type_bit CHAR_QUERY;
   CHAR_QUERY ||| CHAR_USERINFO ||| CHAR_IPV4 ||| CHAR_HEX ||| CHAR_COMPONENT;
   CHAR_QUERY ||| CHAR_USERINFO ||| CHAR_IPV4 ||| CHAR_HEX ||| CHAR_COMPONENT;
   CHAR_QUERY ||| CHAR_USERINFO ||| CHAR_IPV4 ||| CHAR_HEX ||| CHAR_COMPONENT;
   CHAR_QUERY ||| CHAR_USERINFO ||| CHAR_IPV4 ||| CHAR_HEX ||| CHAR_COMPONENT;
   CHAR_QUERY ||| CHAR_USERINFO ||| CHAR_IPV4 ||| CHAR_HEX ||| CHAR_COMPONENT;
   CHAR_QUERY ||| CHAR_USERINFO ||| CHAR_IPV4 ||| CHAR_HEX ||| CHAR_COMPONENT;
   CHAR_QUERY ||| CHAR_USERINFO ||| CHAR_COMPONENT;
   CHAR_QUERY ||| CHAR_USERINFO ||| CHAR_COMPONENT;
   CHAR_QUERY ||| CHAR_USERINFO ||| CHAR_COMPONENT;
   CHAR_QUERY ||| CHAR_USERINFO ||| CHAR_COMPONENT;
   CHAR_QUERY ||| CHAR_USERINFO ||| CHAR_COMPONENT;
   CHAR_QUERY ||| CHAR_USERINFO ||| CHAR_COMPONENT;
   CHAR_QUERY ||| CHAR_USERINFO ||| CHAR_COMPONENT;
   CHAR_QUERY ||| CHAR_USERINFO ||| CHAR_COMPONENT;
   CHAR_QUERY ||| CHAR_USERINFO ||| CHAR_COMPONENT;
   CHAR_QUERY ||| CHAR_USERINFO ||| CHAR_COMPONENT;
   CHAR_QUERY ||| CHAR_USERINFO ||| CHAR_COMPONENT;
   CHAR_QUERY ||| CHAR_USERINFO ||| CHAR_COMPONENT;
   CHAR_QUERY ||| CHAR_USERINFO ||| CHAR_COMPONENT;
   CHAR_QUERY ||| CHAR_USERINFO ||| CHAR_COMPONENT;
   CHAR_QUERY ||| CHAR_USERINFO ||| CHAR_COMPONENT;
   CHAR_QUERY ||| CHAR_USERINFO ||| CHAR_COMPONENT;
   CHAR_QUERY ||| CHAR_USERINFO ||| CHAR_COMPONENT;
   CHAR_QUERY ||| CHAR_USERINFO ||| CHAR_IPV4 ||| CHAR_COMPONENT;
   CHAR_QUERY ||| CHAR_USERINFO ||| CHAR_COMPONENT;
   CHAR_QUERY ||| CHAR_USERINFO ||| CHAR_COMPONENT;
   char_type_bit CHAR_QUERY;
   char_type_bit CHAR_QUERY;
   char_type_bit CHAR_QUERY;
   char_type_bit CHAR_QUERY;
   CHAR_QUERY ||| CHAR_USERINFO ||| CHAR_COMPONENT;
   char_type_bit CHAR_QUERY;
   CHAR_QUERY ||| CHAR_USERINFO ||| CHAR_IPV4 ||| CHAR_HEX ||| CHAR_COMPONENT;
   CHAR_QUERY ||| CHAR_USERINFO ||| CHAR_IPV4 ||| CHAR_HEX ||| CHAR_COMPONENT;
   CHAR_QUERY ||| CHAR_USERINFO ||| CHAR_IPV4 ||| CHAR_HEX ||| CHAR_COMPONENT;
   CHAR_QUERY ||| CHAR_USERINFO ||| CHAR_IPV4 ||| CHAR_HEX ||| CHAR_COMPONENT;
   CHAR_QUERY ||| CHAR_USERINFO ||| CHAR_IPV4 ||| CHAR_HEX ||| CHAR_COMPONENT;
   CHAR_QUERY ||| CHAR_USERINFO ||| CHAR_IPV4 ||| CHAR_HEX ||| CHAR_COMPONENT;
   CHAR_QUERY ||| CHAR_USERINFO ||| CHAR_COMPONENT;
   CHAR_QUERY ||| CHAR_USERINFO ||| CHAR_COMPONENT;
   CHAR_QUERY ||| CHAR_USERINFO ||| CHAR_COMPONENT;
   CHAR_QUERY ||| CHAR_USERINFO ||| CHAR_COMPONENT;
   CHAR_QUERY ||| CHAR_USERINFO ||| CHAR_COMPONENT;
   CHAR_QUERY ||| CHAR_USERINFO ||| CHAR_COMPONENT;
   CHAR_QUERY ||| CHAR_USERINFO ||| CHAR_COMPONENT;
   CHAR_QUERY ||| CHAR_USERINFO ||| CHAR_COMPONENT;
   CHAR_QUERY ||| CHAR_USERINFO ||| CHAR_COMPONENT;
   CHAR_QUERY ||| CHAR_USERINFO ||| CHAR_COMPONENT;
   CHAR_QUERY ||| CHAR_USERINFO ||| CHAR_COMPONENT;
   CHAR_QUERY ||| CHAR_USERINFO ||| CHAR_COMPONENT;
   CHAR_QUERY ||| CHAR_USERINFO ||| CHAR_COMPONENT;
   CHAR_QUERY ||| CHAR_USERINFO ||| CHAR_COMPONENT;
   CHAR_QUERY ||| CHAR_USERINFO ||| CHAR_COMPONENT;
   CHAR_QUERY ||| CHAR_USERINFO ||| CHAR_COMPONENT;
   CHAR_QUERY ||| CHAR_USERINFO ||| CHAR_COMPONENT;
   CHAR_QUERY ||| CHAR_USERINFO ||| CHAR_IPV4 ||| CHAR_COMPONENT;
   CHAR_QUERY ||| CHAR_USERINFO ||| CHAR_COMPONENT;
   CHAR_QUERY ||| CHAR_USERINFO ||| CHAR_COMPONENT;
   char_type_bit CHAR_QUERY;
   char_type_bit CHAR_QUERY;
   char_type_bit CHAR_QUERY;
   CHAR_QUERY ||| CHAR_USERINFO ||| CHAR_COMPONENT;
   0;
   0; 0; 0; 0; 0; 0; 0; 0; 0; 0; 0; 0; 0; 0; 0; 0;
   0; 0; 0; 0; 0; 0; 0; 0; 0; 0; 0; 0; 0; 0; 0; 0;
   0; 0; 0; 0; 0; 0; 0; 0; 0; 0; 0; 0; 0; 0; 0; 0;
   0; 0; 0; 0; 0; 0; 0; 0; 0; 0; 0; 0; 0; 0; 0; 0;
   0; 0; 0; 0; 0; 0; 0; 0; 0; 0; 0; 0; 0; 0; 0; 0;
   0; 0; 0; 0; 0; 0; 0; 0; 0; 0; 0; 0; 0; 0; 0; 0;
   0; 0; 0; 0; 0; 0; 0; 0; 0; 0; 0; 0; 0; 0; 0; 0;
   0; 0; 0; 0; 0; 0; 0; 0; 0; 0; 0; 0; 0; 0; 0; 0
].

(* src: url/url_canon_internal.h 59-61! IsCharOfType *)
Definition IsCharOfType (c : Z) (type : SharedCharTypes) : bool :=
  !(Z.land (at_ kSharedCharTypeTable c) type =? 0).

(* src: url/url_canon_internal.h 65-67! IsIPv4Char *)
Definition IsIPv4Char (c : Z) : bool := IsCharOfType c CHAR_IPV4.

(* src: url/url_canon_internal.h 68-70! IsHexChar *)
Definition IsHexChar (c : Z) : bool := IsCharOfType c CHAR_HEX.
