(* ===== verification/UrlIp.v ===== *)
(** IP addresses in URLs, url/url_canon_ip.cc: finding and reading IPv4 and
    IPv6 literals, and writing them in their canonical form.

    Every access to a text or an array is checked: [Failed] is an access out
    of bounds or a read of memory that was not written. *)
From S2P Require Import Prelude CArrays UrlChars.

(** ** The C library

    [strtoull] on the characters before the terminating zero: white space, a
    sign and the prefix 0x of base 16 are skipped, digits are read while they
    last, and the result stays at the greatest value. *)
Definition is_space (c : Z) : bool := (c =? 32) || ((9 <=? c) && (c <=? 13)).

Definition digit_value (c : Z) : option Z :=
  if ("0"%ch <=? c) && (c <=? "9"%ch) then Some (c - "0"%ch)
  else if ("a"%ch <=? c) && (c <=? "z"%ch) then Some (c - "a"%ch + 10)
  else if ("A"%ch <=? c) && (c <=? "Z"%ch) then Some (c - "A"%ch + 10)
  else None.

Fixpoint skip_space (s : list Z) : list Z :=
  match s with c :: rest => if is_space c then skip_space rest else s | [] => [] end.

Fixpoint digits_value (base acc : Z) (s : list Z) : Z :=
  match s with
  | c :: rest =>
      match digit_value c with
      | Some d => if d <? base then digits_value base (acc * base + d) rest else acc
      | None => acc
      end
  | [] => acc
  end.

Definition skip_prefix (base : Z) (s : list Z) : list Z :=
  match s with
  | z :: x :: d :: rest =>
      if (base =? 16) && (z =? "0"%ch) && ((x =? "x"%ch) || (x =? "X"%ch)) &&
         match digit_value d with Some v => v <? 16 | None => false end
      then d :: rest else s
  | _ => s
  end.

Definition strtoull (s : list Z) (base : Z) : Z :=
  let s := skip_space s in
  let '(negative, s) :=
    match s with
    | c :: rest => if c =? "-"%ch then (true, rest) else if c =? "+"%ch then (false, rest)
                   else (false, s)
    | [] => (false, s)
    end in
  let n := digits_value base 0 (skip_prefix base s) in
  if 2 ^ 64 - 1 <? n then 2 ^ 64 - 1 else if negative : bool then u64 (- n) else n.

(** What [snprintf] writes for a value that is not negative and has less than
    40 digits. *)
Definition digit_char (d : Z) : Z := if d <? 10 then "0"%ch + d else "a"%ch + d - 10.

Fixpoint print_digits (fuel : nat) (radix value : Z) (written : list Z) : list Z :=
  match fuel with
  | O => written
  | S fuel =>
      let written := digit_char (value mod radix) :: written in
      if value / radix =? 0 then written else print_digits fuel radix (value / radix) written
  end.

(** The characters in the buffer before the terminating zero; [None] is an
    error code, which the callers do not look at. *)
(* src: url/url_canon_internal.cc 366-381! _itoa_s *)
Definition itoa_s (value size_in_chars radix : Z) : option (list Z) :=
  if (radix =? 10) || (radix =? 16) then
    let text := if value <? 0 then
                  if radix =? 10 then "-"%ch :: print_digits 40 10 (- value) []
                  else print_digits 40 16 (wrap_u 32 value) []
                else print_digits 40 radix value [] in
    if size_in_chars <=? zlen text then None else Some text
  else None.

(** ** Hosts that are addresses *)
(* src: url/url_canon.h 320-331! CanonHostInfo::Family *)
Inductive Family := NEUTRAL | BROKEN | IPV4 | IPV6.
#[export] Instance Family_enum : CxxEnum Family.
Proof.
  refine {| enum_val f := match f with NEUTRAL => 0 | BROKEN => 1 | IPV4 => 2 | IPV6 => 3 end |};
    by intros [] [].
Defined.

(* src: url/url_canon.h 313-354! CanonHostInfo *)
Record CanonHostInfo := mkCanonHostInfo {
  family : Family;
  num_ipv4_components : Z;
  out_host : Component;
  address : list Z
}.

(* src: url/url_canon.h 317-317! IsIPAddress *)
Definition IsIPAddress (h : CanonHostInfo) : bool :=
  (family h == IPV4) || (family h == IPV6).

(* src: url/url_canon.h 351-353! AddressLength *)
Definition AddressLength (h : CanonHostInfo) : Z :=
  match family h with IPV4 => 4 | IPV6 => 16 | _ => 0 end.

(* src: url/url_canon_ip.cc 17-30! BaseForType *)
Definition BaseForType (type : SharedCharTypes) : Z :=
  match type with CHAR_HEX => 16 | CHAR_DEC => 10 | CHAR_OCT => 8 | _ => 0 end.

(** *** The components of an IPv4 literal *)
(* src: url/url_canon_ip.cc 77-79! DoFindIPv4Components *)
Fixpoint fill_loop (count : nat) (cur_component : Z) (components : list Component)
    : res (bool * list Component) :=
  match count with
  | O => Ok (true, components)
  | S count =>
      components ← checked (put components cur_component no_component);
      fill_loop count (cur_component + 1) components
  end.

Definition fill_unused (cur_component : Z) (components : list Component) :=
  fill_loop (Z.to_nat (4 - cur_component)) cur_component components.

(* src: url/url_canon_ip.cc 42-75! DoFindIPv4Components *)
Fixpoint find_loop (fuel : nat) (spec : list Z) (end_ i cur_component cur_component_begin : Z)
    (components : list Component) : res (bool * list Component) :=
  match fuel with
  | O => NoFuel
  | S fuel =>
      c ← (if end_ <=? i then Ok 0 else checked (get spec i));
      if (end_ <=? i) || (c =? "."%ch) then
        let component_len := i - cur_component_begin in
        components ← checked (put components cur_component
                                (mkComponent cur_component_begin component_len));
        let cur_component_begin := i + 1 in
        let cur_component := cur_component + 1 in
        if (component_len =? 0) && ((i <? end_) || (cur_component =? 1))
        then Ok (false, components)
        else if end_ <=? i then fill_unused cur_component components
        else if cur_component =? 4 then
          if (c =? "."%ch) && (i + 1 =? end_) then fill_unused cur_component components
          else Ok (false, components)
        else find_loop fuel spec end_ (i + 1) cur_component cur_component_begin components
      else if (0x80 <=? c) || !(IsIPv4Char (c mod 256)) then Ok (false, components)
      else find_loop fuel spec end_ (i + 1) cur_component cur_component_begin components
  end.

(* src: url/url_canon_ip.cc 32-81! DoFindIPv4Components *)
Definition DoFindIPv4Components (spec : list Z) (host : Component) (components : list Component)
    : res (bool * list Component) :=
  if !(is_nonempty host) then Ok (false, components) else
  find_loop (S (Z.to_nat (len host))) spec (UrlChars.end_ host) (begin_ host) 0 (begin_ host)
    components.

(** *** The value of a component of an IPv4 literal *)
(* src: url/url_canon_ip.cc 98-115! IPv4ComponentToNumber *)
Definition find_base (spec : list Z) (component : Component) : res (SharedCharTypes * Z) :=
  c ← checked (get spec (begin_ component));
  if c =? "0"%ch then
    if len component =? 1 then Ok (CHAR_DEC, 0)
    else
      x ← checked (get spec (begin_ component + 1));
      if (x =? "X"%ch) || (x =? "x"%ch) then Ok (CHAR_HEX, 2) else Ok (CHAR_OCT, 1)
  else Ok (CHAR_DEC, 0).

(* src: url/url_canon_ip.cc 117-120! IPv4ComponentToNumber *)
Fixpoint zeros_loop (fuel : nat) (spec : list Z) (component : Component) (base_prefix_len : Z)
    : res Z :=
  match fuel with
  | O => NoFuel
  | S fuel =>
      if base_prefix_len <? len component then
        c ← checked (get spec (begin_ component + base_prefix_len));
        if c =? "0"%ch then zeros_loop fuel spec component (base_prefix_len + 1)
        else Ok base_prefix_len
      else Ok base_prefix_len
  end.

(* src: url/url_canon_ip.cc 126-126! IPv4ComponentToNumber *)
Definition kMaxComponentLen : Z := 16.

(** [None] is the early return of NEUTRAL; [buf] is the part of the buffer
    that is filled. *)
(* src: url/url_canon_ip.cc 129-142! IPv4ComponentToNumber *)
Fixpoint digits_loop (fuel : nat) (spec : list Z) (end_ i : Z) (base : SharedCharTypes)
    (buf : list Z) : res (option (list Z)) :=
  match fuel with
  | O => NoFuel
  | S fuel =>
      if i <? end_ then
        c ← checked (get spec i);
        let input := c mod 256 in
        if !(IsCharOfType input base) then Ok None
        else digits_loop fuel spec end_ (i + 1) base
               (if zlen buf <? kMaxComponentLen then buf ++ [input] else buf)
      else Ok (Some buf)
  end.

(** The number is [None] when [*number] is not written. *)
(* src: url/url_canon_ip.cc 93-157! IPv4ComponentToNumber *)
Definition IPv4ComponentToNumber (spec : list Z) (component : Component)
    : res (Family * option Z) :=
  '(base, base_prefix_len) ← find_base spec component;
  base_prefix_len ← zeros_loop (S (Z.to_nat (len component))) spec component base_prefix_len;
  buf ← digits_loop (S (Z.to_nat (len component))) spec (UrlChars.end_ component)
          (begin_ component + base_prefix_len) base [];
  match buf with
  | None => Ok (NEUTRAL, None)
  | Some buf =>
      let num := strtoull buf (BaseForType base) in
      if 2 ^ 32 - 1 <? num then Ok (BROKEN, None) else Ok (IPV4, Some num)
  end.

(** *** IPv4 literals *)
(* src: url/url_canon_ip.cc 172-178! DoIPv4AddressToNumber *)
Record Numbers := mkNumbers {
  component_values : list (option Z);
  existing_components : Z;
  broken : bool
}.

(** The early return is [inr]. *)
(* src: url/url_canon_ip.cc 179-196! DoIPv4AddressToNumber *)
Fixpoint values_loop (spec : list Z) (components : list Component) (n : Numbers)
    : res (Numbers + Family) :=
  match components with
  | [] => Ok (inl n)
  | component :: components =>
      if len component <=? 0 then values_loop spec components n else
      '(family, number) ← IPv4ComponentToNumber spec component;
      component_values ← (match number with
                          | Some number =>
                              checked (put (component_values n) (existing_components n) (Some number))
                          | None => Ok (component_values n)
                          end);
      let next := existing_components n + 1 in
      if family == BROKEN then
        values_loop spec components (mkNumbers component_values next true)
      else if family != IPV4 then Ok (inr family)
      else values_loop spec components (mkNumbers component_values next (broken n))
  end.

Definition value_at (component_values : list (option Z)) (i : Z) : res Z :=
  checked (get component_values i ≫= id).

(** [false] is the early return of BROKEN; [at_index] is where in the array
    the caller's pointer [address] points. *)
(* src: url/url_canon_ip.cc 202-206! DoIPv4AddressToNumber *)
Fixpoint first_bytes (count : nat) (component_values : list (option Z)) (i at_index : Z)
    (address : list Z) : res (bool * list Z) :=
  match count with
  | O => Ok (true, address)
  | S count =>
      value ← value_at component_values i;
      if 255 <? value then Ok (false, address) else
      address ← checked (put address (at_index + i) (wrap_u 8 value));
      first_bytes count component_values (i + 1) at_index address
  end.

(* src: url/url_canon_ip.cc 210-213! DoIPv4AddressToNumber *)
Fixpoint last_bytes (count : nat) (i at_index last_value : Z) (address : list Z)
    : res (Z * list Z) :=
  match count with
  | O => Ok (last_value, address)
  | S count =>
      address ← checked (put address (at_index + i) (wrap_u 8 last_value));
      last_bytes count (i - 1) at_index (Z.shiftr last_value 8) address
  end.

(** The number of components is [None] when it is not written. *)
(* src: url/url_canon_ip.cc 160-224! DoIPv4AddressToNumber *)
Definition DoIPv4AddressToNumber (spec : list Z) (host : Component) (at_index : Z)
    (address : list Z) : res (Family * list Z * option Z) :=
  '(found, components) ← DoFindIPv4Components spec host (repeat no_component 4);
  if negb found then Ok (NEUTRAL, address, None) else
  n ← values_loop spec components (mkNumbers (repeat None 4) 0 false);
  match n with
  | inr family => Ok (family, address, None)
  | inl n =>
      if broken n then Ok (BROKEN, address, None) else
      let existing := existing_components n in
      '(fits, address) ← first_bytes (Z.to_nat (existing - 1)) (component_values n) 0 at_index address;
      if negb fits then Ok (BROKEN, address, None) else
      last_value ← value_at (component_values n) (existing - 1);
      '(last_value, address) ← last_bytes (Z.to_nat (5 - existing)) 3 at_index last_value address;
      if !(last_value =? 0) then Ok (BROKEN, address, None) else
      Ok (IPV4, address, Some existing)
  end.

(** ** IPv6 literals *)
(* src: url/url_canon_ip.cc 289-309! IPv6Parsed *)
Record IPv6Parsed := mkIPv6Parsed {
  hex_components : list Component;
  num_hex_components : Z;
  index_of_contraction : Z;
  ipv4_component : Component
}.
#[export] Instance eta_IPv6Parsed : Eta IPv6Parsed := fun p =>
  mkIPv6Parsed (hex_components p) (num_hex_components p) (index_of_contraction p)
    (ipv4_component p).

(* src: url/url_canon_ip.cc 291-295! reset *)
Definition new_IPv6Parsed : IPv6Parsed :=
  mkIPv6Parsed (repeat no_component 8) 0 (-1) no_component.

(** One character of an IPv6 literal that is not a colon: go on, leave the
    loop, or return false. *)
(* src: url/url_canon_ip.cc 383-400! DoParseIPv6 *)
Definition component_char (c end_ cur_component_begin : Z) (parsed : IPv6Parsed)
    : option (bool * IPv6Parsed) :=
  if 0x80 <=? c then None
  else if !(IsHexChar (c mod 256)) then
    if IsIPv4Char (c mod 256) then
      Some (true, parsed <| ipv4_component :=
                              mkComponent cur_component_begin (end_ - cur_component_begin) |>)
    else None
  else Some (false, parsed).

(** The end of a component; [None] is the early return of false. *)
(* src: url/url_canon_ip.cc 339-364! DoParseIPv6 *)
Definition end_component (begin end_ i cur_component_begin : Z) (is_contraction : bool)
    (parsed : IPv6Parsed) : res (option IPv6Parsed) :=
  let component_len := i - cur_component_begin in
  if 4 <? component_len then Ok None
  else if (component_len =? 0) &&
          negb ((is_contraction && (i =? begin)) ||
                ((i =? end_) && (index_of_contraction parsed =? num_hex_components parsed)))
  then Ok None
  else if 0 <? component_len then
    if 8 <=? num_hex_components parsed then Ok None else
    components ← checked (put (hex_components parsed) (num_hex_components parsed)
                            (mkComponent cur_component_begin component_len));
    Ok (Some (parsed <| hex_components := components |>
                     <| num_hex_components := num_hex_components parsed + 1 |>))
  else Ok (Some parsed).

(* src: url/url_canon_ip.cc 332-402! DoParseIPv6 *)
Fixpoint parse_loop (fuel : nat) (spec : list Z) (begin end_ i cur_component_begin : Z)
    (parsed : IPv6Parsed) : res (bool * IPv6Parsed) :=
  match fuel with
  | O => NoFuel
  | S fuel =>
      c ← checked (get spec i);
      let is_colon := c =? ":"%ch in
      is_contraction ← (if is_colon && (i <? end_ - 1)
                        then c1 ← checked (get spec (i + 1)); Ok (c1 =? ":"%ch)
                        else Ok false);
      ended ← (if is_colon || (i =? end_)
               then end_component begin end_ i cur_component_begin is_contraction parsed
               else Ok (Some parsed));
      match ended with
      | None => Ok (false, parsed)
      | Some parsed =>
          if i =? end_ then Ok (true, parsed) else
          if is_contraction && negb (index_of_contraction parsed =? -1) then Ok (false, parsed) else
          let '(i, parsed) :=
            if is_contraction : bool
            then (i + 1, parsed <| index_of_contraction := num_hex_components parsed |>)
            else (i, parsed) in
          if is_colon then parse_loop fuel spec begin end_ (i + 1) (i + 1) parsed
          else match component_char c end_ cur_component_begin parsed with
               | None => Ok (false, parsed)
               | Some (true, parsed) => Ok (true, parsed)
               | Some (false, parsed) =>
                   parse_loop fuel spec begin end_ (i + 1) cur_component_begin parsed
               end
      end
  end.

(* src: url/url_canon_ip.cc 314-405! DoParseIPv6 *)
Definition DoParseIPv6 (spec : list Z) (host : Component) : res (bool * IPv6Parsed) :=
  if !(is_nonempty host) then Ok (false, new_IPv6Parsed) else
  parse_loop (S (Z.to_nat (len host))) spec (begin_ host) (UrlChars.end_ host) (begin_ host)
    (begin_ host) new_IPv6Parsed.

(* src: url/url_canon_ip.cc 413-437! CheckIPv6ComponentsSize *)
Definition CheckIPv6ComponentsSize (parsed : IPv6Parsed) : option Z :=
  let num_bytes_without_contraction := num_hex_components parsed * 2 in
  let num_bytes_without_contraction :=
    if is_valid (ipv4_component parsed) then num_bytes_without_contraction + 4
    else num_bytes_without_contraction in
  let num_bytes_of_contraction :=
    if !(index_of_contraction parsed =? -1)
    then Z.max 2 (16 - num_bytes_without_contraction) else 0 in
  if !(num_bytes_without_contraction + num_bytes_of_contraction =? 16) then None
  else Some num_bytes_of_contraction.

(* src: url/url_canon_ip.cc 449-451! IPv6HexComponentToNumber *)
Fixpoint copy_loop (count : nat) (spec : list Z) (component : Component) (i : Z) (buf : list Z)
    : res (list Z) :=
  match count with
  | O => Ok buf
  | S count =>
      c ← checked (get spec (begin_ component + i));
      buf ← checked (put buf i (c mod 256));
      copy_loop count spec component (i + 1) buf
  end.

(** [strtoull] reads up to the zero behind the last character copied. *)
(* src: url/url_canon_ip.cc 442-456! IPv6HexComponentToNumber *)
Definition IPv6HexComponentToNumber (spec : list Z) (component : Component) : res Z :=
  checked (DCHECK (len component <=? 4)) ;;
  buf ← copy_loop (Z.to_nat (len component)) spec component 0 (repeat 0 5);
  buf ← checked (put buf (len component) 0);
  Ok (wrap_u 16 (strtoull (take (Z.to_nat (len component)) buf) 16)).

(* src: url/url_canon_ip.cc 491-492! DoIPv6AddressToNumber *)
Fixpoint zero_bytes (count : nat) (cur_index : Z) (address : list Z) : res (Z * list Z) :=
  match count with
  | O => Ok (cur_index, address)
  | S count =>
      address ← checked (put address cur_index 0);
      zero_bytes count (cur_index + 1) address
  end.

(** [count] is the number of turns left, the last of which has no component. *)
(* src: url/url_canon_ip.cc 488-503! DoIPv6AddressToNumber *)
Fixpoint address_loop (count : nat) (spec : list Z) (parsed : IPv6Parsed)
    (num_bytes_of_contraction i cur_index : Z) (address : list Z) : res (Z * list Z) :=
  match count with
  | O => Ok (cur_index, address)
  | S count =>
      '(cur_index, address) ←
        (if i =? index_of_contraction parsed
         then zero_bytes (Z.to_nat num_bytes_of_contraction) cur_index address
         else Ok (cur_index, address));
      '(cur_index, address) ←
        (if !(i =? num_hex_components parsed) then
           component ← checked (get (hex_components parsed) i);
           number ← IPv6HexComponentToNumber spec component;
           address ← checked (put address cur_index (Z.shiftr (Z.land number 0xFF00) 8));
           address ← checked (put address (cur_index + 1) (Z.land number 0x00FF));
           Ok (cur_index + 2, address)
         else Ok (cur_index, address));
      address_loop count spec parsed num_bytes_of_contraction (i + 1) cur_index address
  end.

(* src: url/url_canon_ip.cc 460-519! DoIPv6AddressToNumber *)
Definition DoIPv6AddressToNumber (spec : list Z) (host : Component) (address : list Z)
    : res (bool * list Z) :=
  let end_ := UrlChars.end_ host in
  if !(is_nonempty host) then Ok (false, address) else
  first ← checked (get spec (begin_ host));
  if !(first =? "["%ch) then Ok (false, address) else
  last ← checked (get spec (end_ - 1));
  if !(last =? "]"%ch) then Ok (false, address) else
  '(ok, parsed) ← DoParseIPv6 spec (mkComponent (begin_ host + 1) (len host - 2));
  if negb ok then Ok (false, address) else
  match CheckIPv6ComponentsSize parsed with
  | None => Ok (false, address)
  | Some num_bytes_of_contraction =>
      '(cur_index, address) ← address_loop (S (Z.to_nat (num_hex_components parsed))) spec parsed
                                num_bytes_of_contraction 0 0 address;
      if is_valid (ipv4_component parsed) then
        '(family, address, _) ← DoIPv4AddressToNumber spec (ipv4_component parsed) cur_index address;
        Ok (family == IPV4, address)
      else Ok (true, address)
  end.

(** ** The canonical form *)

(** A range without zeros has the length -1. *)
(* src: url/url_canon_ip.cc 532-551! ChooseIPv6ContractionRange *)
Fixpoint range_loop (count : nat) (address : list Z) (i : Z) (max_range cur_range : Component)
    : res Component :=
  match count with
  | O => Ok max_range
  | S count =>
      a ← checked (get address i);
      is_zero ← (if a =? 0 then b ← checked (get address (i + 1)); Ok (b =? 0) else Ok false);
      let cur_range :=
        if is_zero : bool then
          let cur_range := if !(is_valid cur_range) then mkComponent i 0 else cur_range in
          mkComponent (begin_ cur_range) (len cur_range + 2)
        else cur_range in
      let '(max_range, cur_range) :=
        if negb is_zero || (i =? 14) then
          (if (2 <? len cur_range) && (len max_range <? len cur_range) then cur_range else max_range,
           no_component)
        else (max_range, cur_range) in
      range_loop count address (i + 2) max_range cur_range
  end.

(* src: url/url_canon_ip.cc 524-553! ChooseIPv6ContractionRange *)
Definition ChooseIPv6ContractionRange (address : list Z) : res Component :=
  range_loop 8 address 0 no_component no_component.

(** The buffer of [size] characters is written in full before its characters
    are copied. *)
Definition append_number (value size radix : Z) (output : list Z) : res (list Z) :=
  str ← checked (itoa_s value size radix);
  Ok (output ++ str).

(* src: url/url_canon_ip.cc 594-603! AppendIPv4Address *)
Fixpoint append4_loop (count : nat) (address : list Z) (i : Z) (output : list Z) : res (list Z) :=
  match count with
  | O => Ok output
  | S count =>
      a ← checked (get address i);
      output ← append_number a 16 10 output;
      append4_loop count address (i + 1) (if !(i =? 3) then output ++ ["."%ch] else output)
  end.

(* src: url/url_canon_ip.cc 593-604! AppendIPv4Address *)
Definition AppendIPv4Address (address : list Z) (output : list Z) : res (list Z) :=
  append4_loop 4 address 0 output.

(* src: url/url_canon_ip.cc 614-639! AppendIPv6Address *)
Fixpoint append6_loop (fuel : nat) (address : list Z) (contraction_range : Component) (i : Z)
    (output : list Z) : res (list Z) :=
  match fuel with
  | O => NoFuel
  | S fuel =>
      if !(i <=? 14) then Ok output else
      checked (DCHECK (i mod 2 =? 0)) ;;
      if (i =? begin_ contraction_range) && (0 <? len contraction_range) then
        append6_loop fuel address contraction_range (UrlChars.end_ contraction_range)
          ((if i =? 0 then output ++ [":"%ch] else output) ++ [":"%ch])
      else
        a ← checked (get address i);
        b ← checked (get address (i + 1));
        let x := Z.lor (Z.shiftl a 8) b in
        let i := i + 2 in
        output ← append_number x 5 16 output;
        append6_loop fuel address contraction_range i
          (if i <? 16 then output ++ [":"%ch] else output)
  end.

(* src: url/url_canon_ip.cc 606-640! AppendIPv6Address *)
Definition AppendIPv6Address (address : list Z) (output : list Z) : res (list Z) :=
  contraction_range ← ChooseIPv6ContractionRange address;
  append6_loop 9 address contraction_range 0 output.

(** ** Canonicalization *)

(** The boolean is true when the decision is final. *)
(* src: url/url_canon_ip.cc 228-250! DoCanonicalizeIPv4Address *)
Definition DoCanonicalizeIPv4Address (spec : list Z) (host : Component) (output : list Z)
    (host_info : CanonHostInfo) : res (bool * list Z * CanonHostInfo) :=
  '(fam, addr, num) ← DoIPv4AddressToNumber spec host 0 (address host_info);
  let host_info := mkCanonHostInfo fam (default (num_ipv4_components host_info) num)
                     (out_host host_info) addr in
  match fam with
  | IPV4 =>
      let begin := zlen output in
      output ← AppendIPv4Address addr output;
      Ok (true, output, mkCanonHostInfo fam (num_ipv4_components host_info)
                          (mkComponent begin (zlen output - begin)) addr)
  | BROKEN => Ok (true, output, host_info)
  | _ => Ok (false, output, host_info)
  end.

(* src: url/url_canon_ip.cc 566-573! DoCanonicalizeIPv6Address *)
Fixpoint special_loop (count : nat) (spec : list Z) (i : Z) : res bool :=
  match count with
  | O => Ok false
  | S count =>
      c ← checked (get spec i);
      if (c =? "["%ch) || (c =? "]"%ch) || (c =? ":"%ch) then Ok true
      else special_loop count spec (i + 1)
  end.

(* src: url/url_canon_ip.cc 557-589! DoCanonicalizeIPv6Address *)
Definition DoCanonicalizeIPv6Address (spec : list Z) (host : Component) (output : list Z)
    (host_info : CanonHostInfo) : res (bool * list Z * CanonHostInfo) :=
  '(ok, addr) ← DoIPv6AddressToNumber spec host (address host_info);
  let with_family fam out :=
    mkCanonHostInfo fam (num_ipv4_components host_info) out addr in
  if negb ok then
    special ← special_loop (Z.to_nat (len host)) spec (begin_ host);
    if special : bool then Ok (true, output, with_family BROKEN (out_host host_info))
    else Ok (false, output, with_family NEUTRAL (out_host host_info))
  else
    let begin := zlen output in
    output ← AppendIPv6Address addr (output ++ ["["%ch]);
    let output := output ++ ["]"%ch] in
    Ok (true, output, with_family IPV6 (mkComponent begin (zlen output - begin))).

(* src: url/url_canon_ip.cc 655-665! CanonicalizeIPAddress *)
Definition CanonicalizeIPAddress (spec : list Z) (host : Component) (output : list Z)
    (host_info : CanonHostInfo) : res (list Z * CanonHostInfo) :=
  '(final, output, host_info) ← DoCanonicalizeIPv4Address spec host output host_info;
  if final : bool then Ok (output, host_info) else
  '(final, output, host_info) ← DoCanonicalizeIPv6Address spec host output host_info;
  Ok (output, host_info).

(* src: url/url_canon.h 314-314! CanonHostInfo *)
Definition new_CanonHostInfo (memory : list Z) : CanonHostInfo :=
  mkCanonHostInfo NEUTRAL 0 no_component memory.
