(* ===== verification/UrlIpSafety.v ===== *)
(** Reading an address never leaves the text or the arrays of the reader, and
    never uses a number that was not written, whatever the text is. *)
From S2P Require Import Prelude CArrays UrlChars UrlIp.

(** A component that lies in the text. *)
Definition inside (spec : list Z) (c : Component) : Prop :=
  0 <= begin_ c /\ 0 <= len c /\ UrlChars.end_ c <= zlen spec.

(** ** IPv4 literals *)
Section ipv4.
Context (spec : list Z).

(** A component used or unused; the first one is used. *)
Definition good (k : Z) (c : Component) : Prop :=
  (inside spec c \/ len c = -1) /\ (k = 0 -> 0 < len c).

Definition found (n : Z) (cs : list Component) : Prop :=
  zlen cs = 4 /\ forall k, 0 <= k < n -> exists c, get cs k = Some c /\ good k c.

Lemma found_put n cs cs' c :
  found n cs -> good n c -> put cs n c = Some cs' -> found (n + 1) cs'.
Proof.
  intros [Hl Hf] Hc Hp. split; [by rewrite (zlen_put _ _ _ _ Hp)|].
  intros k Hk. destruct (decide (k = n)) as [->|Hne].
  - exists c. split; [by eapply get_put|done].
  - rewrite (get_put_ne _ _ _ k _ Hp) by congruence. apply Hf. lia.
Qed.

Lemma fill_loop_ok count n cs :
  0 < n -> n + Z.of_nat count = 4 -> found n cs ->
  yields (fill_loop count n cs) (fun r => fst r = true /\ found 4 (snd r)).
Proof.
  revert n cs. induction count as [|count IH]; cbn [fill_loop]; intros n cs Hn Hc Hf.
  - by replace n with 4 in Hf by lia.
  - apply yields_put; [destruct Hf; lia|]. intros cs' Hp _. apply IH; [lia..|].
    eapply found_put; [done| |done]. split; [by right|lia].
Qed.

Lemma find_loop_ok end_ fuel i cur cb cs :
  0 <= cb <= i -> i <= end_ <= zlen spec -> 0 <= cur < 4 -> (Z.to_nat (end_ - i) < fuel)%nat ->
  found cur cs ->
  yields (find_loop fuel spec end_ i cur cb cs) (fun r => fst r = true -> found 4 (snd r)).
Proof.
  revert i cur cb cs. induction fuel as [|fuel IH]; intros i cur cb cs Hcb Hi Hcur Hfuel Hf; [lia|].
  cbn [find_loop].
  apply (yields_bind _ _ (fun _ => True)).
  { destruct (Z.leb_spec end_ i); [done|]. destruct (get_some spec i) as [x ->]; [lia|done]. }
  intros c _. destruct ((end_ <=? i) || (c =? "."%ch)) eqn:Hend.
  - apply yields_put; [destruct Hf; lia|]. intros cs' Hp Hl.
    assert (Hcount : cur + 1 + Z.of_nat (Z.to_nat (4 - (cur + 1))) = 4) by lia.
    case_if; [done|].
    assert (Hf' : found (cur + 1) cs').
    { eapply found_put; [done| |done]. split; [left|cbn [len]; intros ->].
      - unfold inside, UrlChars.end_. cbn [begin_ len]. lia.
      - apply andb_false_iff in Heqb as [Hlen|Hlen]; to_prop; lia. }
    case_if; to_prop.
    + eapply yields_impl; [apply fill_loop_ok; [lia|done|done]|]. by intros r [].
    + case_if; to_prop.
      * case_if; [|done]. eapply yields_impl; [apply fill_loop_ok; [lia|done|done]|]. by intros r [].
      * apply IH; try lia. done.
  - to_prop. case_if; [done|]. apply IH; try lia. done.
Qed.

Lemma DoFindIPv4Components_ok host :
  inside spec host ->
  yields (DoFindIPv4Components spec host (repeat no_component 4))
    (fun r => fst r = true -> found 4 (snd r)).
Proof.
  intros (Hb & Hl & He). unfold DoFindIPv4Components, is_nonempty, UrlChars.end_ in *.
  case_if; [done|]. to_prop. apply find_loop_ok; try lia. split; [done|lia].
Qed.

Lemma zeros_loop_ok component fuel n :
  inside spec component -> 0 <= n -> (Z.to_nat (len component - n) < fuel)%nat ->
  yields (zeros_loop fuel spec component n) (fun m => n <= m).
Proof.
  intros (Hb & Hl & He). unfold UrlChars.end_ in He. revert n.
  induction fuel as [|fuel IH]; intros n Hn Hf; [lia|]. cbn [zeros_loop].
  case_if; [|cbn; lia]. to_prop. apply yields_get; [lia|]. intros c _.
  case_if; [|cbn; lia]. eapply yields_impl; [apply IH; lia|]. cbn. lia.
Qed.

Lemma digits_loop_ok end_ base fuel i buf :
  0 <= i -> end_ <= zlen spec -> (Z.to_nat (end_ - i) < fuel)%nat ->
  yields (digits_loop fuel spec end_ i base buf) (fun _ => True).
Proof.
  intros Hi He. revert i buf Hi. induction fuel as [|fuel IH]; intros i buf Hi Hf; [lia|].
  cbn [digits_loop]. case_if; [|done]. to_prop. apply yields_get; [lia|]. intros c _.
  case_if; [done|]. apply IH; lia.
Qed.

Lemma digits_value_nonneg base acc s : 0 <= base -> 0 <= acc -> 0 <= digits_value base acc s.
Proof.
  intros Hb. revert acc. induction s as [|c s IH]; intros acc Ha; cbn; [done|].
  destruct (digit_value c) as [d|] eqn:Hd; [|done]. case_if; [|done]. apply IH.
  unfold digit_value in Hd. repeat case_if_in Hd; to_prop; simplify_eq; nia.
Qed.

Lemma strtoull_range s base : 0 <= base -> in_u 64 (strtoull s base).
Proof.
  intros Hb. unfold strtoull. destruct (match skip_space s with [] => _ | _ => _ end) as [neg s'].
  pose proof (digits_value_nonneg base 0 (skip_prefix base s') Hb ltac:(lia)).
  case_if; to_prop; [by vm_compute|]. destruct neg; [by apply wrap_u_range|].
  unfold in_u. lia.
Qed.

Lemma IPv4ComponentToNumber_ok component :
  inside spec component -> 0 < len component ->
  yields (IPv4ComponentToNumber spec component) (fun r =>
    match fst r with IPV4 => exists v, snd r = Some v /\ 0 <= v < 2 ^ 32 | _ => snd r = None end).
Proof.
  intros Hin Hlen. pose proof Hin as (Hb & Hl & He). unfold UrlChars.end_ in He.
  unfold IPv4ComponentToNumber. apply (yields_bind _ _ (fun r => 0 <= snd r)).
  { unfold find_base. apply yields_get; [lia|]. intros c _. case_if; [|done]. case_if; [done|].
    to_prop. apply yields_get; [lia|]. intros x _. by case_if. }
  intros [base n] Hn. cbn [snd] in Hn. eapply yields_bind; [apply zeros_loop_ok; [done|lia|lia]|].
  intros m Hm. cbn beta in Hm. eapply yields_bind.
  { apply digits_loop_ok; [lia|unfold UrlChars.end_; lia|unfold UrlChars.end_; lia]. }
  intros [buf|] _; [|done].
  destruct (strtoull_range buf (BaseForType base)); [by destruct base|].
  case_if; [done|]. to_prop. cbn. eexists. split; [done|]. lia.
Qed.

(** The numbers read so far; those of a broken address are not used. *)
Definition numbers_ok (n : Numbers) : Prop :=
  zlen (component_values n) = 4 /\ 0 <= existing_components n <= 4 /\
  (broken n = false -> forall k, 0 <= k < existing_components n ->
     exists v, get (component_values n) k = Some (Some v) /\ 0 <= v < 2 ^ 32).

Lemma values_loop_ok cs n :
  Forall (fun c => inside spec c \/ len c = -1) cs ->
  numbers_ok n -> existing_components n + zlen cs <= 4 ->
  yields (values_loop spec cs n) (fun r =>
    match r with
    | inl m => numbers_ok m /\ existing_components n <= existing_components m /\
               (forall c, get cs 0 = Some c -> 0 < len c -> 1 <= existing_components m)
    | inr f => f = NEUTRAL \/ f = IPV6
    end).
Proof.
  revert n. induction cs as [|c cs IH]; intros n Hcs Hn Hl; cbn [values_loop].
  { by split_and!; [|lia|]. }
  apply Forall_cons in Hcs as [Hc Hcs]. unfold zlen in Hl. cbn [length] in Hl.
  case_if; to_prop.
  { eapply yields_impl; [apply IH; [done|done|unfold zlen; lia]|]. intros [m|f]; [|done].
    intros (? & ? & _). split_and!; [done|lia|]. cbn. intros ? [= <-]. lia. }
  destruct Hc as [Hc|Hc]; [|lia].
  eapply yields_bind; [by apply IPv4ComponentToNumber_ok|]. intros [f number] Hnum. cbn in Hnum.
  destruct Hn as (Hv & He & Hk).
  assert (Hnext : forall vals b, zlen vals = 4 ->
    (b = false -> forall k, 0 <= k < existing_components n + 1 ->
       exists v, get vals k = Some (Some v) /\ 0 <= v < 2 ^ 32) ->
    yields (values_loop spec cs (mkNumbers vals (existing_components n + 1) b)) (fun r =>
      match r with
      | inl m => numbers_ok m /\ existing_components n <= existing_components m /\
                 (forall c', get (c :: cs) 0 = Some c' -> 0 < len c' -> 1 <= existing_components m)
      | inr f => f = NEUTRAL \/ f = IPV6
      end)).
  { intros vals b Hl' Hb. eapply yields_impl; [apply IH; [done| |cbn; unfold zlen; lia]|].
    - split_and!; cbn; [done|lia|lia|done].
    - intros [m|g]; [|done]. cbn. intros (? & ? & _). split_and!; [done|lia|]. intros. lia. }
  destruct f.
  - subst number. cbn. auto.
  - subst number. cbn. apply Hnext; [lia|done].
  - destruct Hnum as (v & -> & Hrange).
    apply yields_put; [lia|]. intros vals Hp Hlen. cbn. apply Hnext; [lia|].
    intros Hbr k Hk'. destruct (decide (k = existing_components n)) as [->|].
    + exists v. split; [by eapply get_put|done].
    + rewrite (get_put_ne _ _ _ k _ Hp) by congruence. apply Hk; [done|lia].
  - subst number. cbn. auto.
Qed.

Lemma value_at_ok n k :
  numbers_ok n -> broken n = false -> 0 <= k < existing_components n ->
  exists v, value_at (component_values n) k = Ok v /\ 0 <= v < 2 ^ 32.
Proof.
  intros (_ & _ & Hn) Hb Hk. destruct (Hn Hb k Hk) as (v & Hv & Hr). exists v.
  unfold value_at. by rewrite Hv.
Qed.

(** An address whose bytes were written stays an address. *)
Definition same_bytes (l l' : list Z) : Prop :=
  zlen l' = zlen l /\ (Forall is_byte l -> Forall is_byte l').

Lemma same_bytes_refl l : same_bytes l l.
Proof. done. Qed.

Lemma same_bytes_put l0 l l' i b :
  same_bytes l0 l -> is_byte b -> put l i b = Some l' -> same_bytes l0 l'.
Proof.
  intros [Hl Hf] Hb Hp. split; [by rewrite (zlen_put _ _ _ _ Hp)|].
  intros ?. eapply Forall_put; eauto.
Qed.

Lemma first_bytes_ok n count i at_index a0 a :
  numbers_ok n -> broken n = false ->
  0 <= i -> i + Z.of_nat count <= existing_components n ->
  0 <= at_index -> at_index + 4 <= zlen a -> same_bytes a0 a ->
  yields (first_bytes count (component_values n) i at_index a)
    (fun r => same_bytes a0 (snd r) /\ zlen (snd r) = zlen a).
Proof.
  intros Hn Hb Hi Hc Hat. revert i a Hi Hc.
  induction count as [|count IH]; intros i a Hi Hc Hl Hs; cbn [first_bytes]; [done|].
  destruct (value_at_ok n i Hn Hb) as (v & Hv & Hr); [lia|]. rewrite Hv. cbn [mbind res_bind].
  case_if; [done|]. pose proof Hn as (_ & He & _). apply yields_put; [lia|]. intros a' Hp Hl'.
  eapply yields_impl; [apply IH; try lia|].
  - eapply same_bytes_put; [done|apply wrap_u_byte|done].
  - cbn. intros r [? ?]. split; [done|lia].
Qed.

Lemma last_bytes_ok count i at_index v a0 a :
  i < 4 -> Z.of_nat count <= i + 1 -> 0 <= at_index -> at_index + 4 <= zlen a -> same_bytes a0 a ->
  yields (last_bytes count i at_index v a) (fun r => same_bytes a0 (snd r)).
Proof.
  intros Hi Hc Hat. revert i v a Hi Hc.
  induction count as [|count IH]; intros i v a Hi Hc Hl Hs; cbn [last_bytes]; [done|].
  apply yields_put; [lia|]. intros a' Hp Hl'. apply IH; try lia.
  eapply same_bytes_put; [done|apply wrap_u_byte|done].
Qed.

Lemma DoIPv4AddressToNumber_ok host at_index a :
  inside spec host -> 0 <= at_index -> at_index + 4 <= zlen a ->
  yields (DoIPv4AddressToNumber spec host at_index a)
    (fun '(f, a', n) => same_bytes a a').
Proof.
  intros Hh Hat Ha. unfold DoIPv4AddressToNumber.
  eapply yields_bind; [by apply DoFindIPv4Components_ok|]. intros [ok cs] Hcs. cbn [fst snd] in Hcs.
  destruct ok; [|done]. cbn [negb]. destruct (Hcs eq_refl) as [Hl Hf].
  assert (Hall : Forall (fun c => inside spec c \/ len c = -1) cs).
  { apply Forall_lookup. intros k c Hc. apply lookup_lt_Some in Hc as Hk.
    destruct (Hf (Z.of_nat k)) as (c' & Hc' & [Hg _]); [unfold zlen in Hl; lia|].
    unfold get in Hc'. rewrite (proj2 (Z.ltb_ge _ 0)), Nat2Z.id in Hc' by lia. congruence. }
  eapply yields_bind.
  { apply values_loop_ok; [done| |cbn; lia]. unfold numbers_ok. cbn. split; [done|]. split; [lia|]. lia. }
  intros [n|f]; [|done]. intros (Hn & _ & Hfirst).
  destruct (broken n) eqn:Hb; [done|].
  assert (1 <= existing_components n).
  { destruct (Hf 0) as (c & Hc & [_ Hpos]); [lia|]. eauto. }
  pose proof Hn as (_ & He & _).
  eapply yields_bind; [apply (first_bytes_ok n _ _ _ a a); try done; lia|].
  intros [fits a'] [Hs' Hl']. cbn [snd] in *. destruct fits; [|done]. cbn [negb].
  destruct (value_at_ok n (existing_components n - 1) Hn Hb) as (v & -> & _); [lia|].
  cbn [mbind res_bind].
  eapply yields_bind; [apply (last_bytes_ok _ _ _ _ a a'); try done; lia|].
  intros [lv a''] Hs''. cbn [snd] in Hs''. by case_if.
Qed.
End ipv4.

(** ** IPv6 literals *)
Section ipv6.
Context (spec : list Z).

Definition parsed_ok (p : IPv6Parsed) : Prop :=
  zlen (hex_components p) = 8 /\ 0 <= num_hex_components p <= 8 /\
  (index_of_contraction p = -1 \/ 0 <= index_of_contraction p <= num_hex_components p) /\
  (forall k, 0 <= k < num_hex_components p ->
     exists c, get (hex_components p) k = Some c /\ inside spec c /\ len c <= 4) /\
  (is_valid (ipv4_component p) = true -> inside spec (ipv4_component p)).

Lemma end_component_ok begin end_ i cb contraction p :
  parsed_ok p -> 0 <= cb <= i -> i <= zlen spec ->
  yields (end_component begin end_ i cb contraction p) (fun r =>
    match r with Some p' => parsed_ok p' | None => True end).
Proof.
  intros (Hl & Hn & Hi & Hk & H4) Hcb Hend. unfold end_component. repeat (case_if; [done|]).
  case_if; [|done]. case_if; [done|]. to_prop. apply yields_put; [lia|]. intros cs Hp Hlen.
  split_and!; cbn; try lia; try done. intros k Hk'.
  destruct (decide (k = num_hex_components p)) as [->|].
  - eexists. split; [by eapply get_put|]. unfold inside, UrlChars.end_. cbn [begin_ len]. lia.
  - rewrite (get_put_ne _ _ _ k _ Hp) by congruence. apply Hk. lia.
Qed.

Lemma component_char_ok c end_ cb p :
  parsed_ok p -> 0 <= cb <= end_ -> end_ <= zlen spec ->
  match component_char c end_ cb p with Some (_, p') => parsed_ok p' | None => True end.
Proof.
  intros (Hl & Hn & Hi & Hk & H4) Hcb Hend. unfold component_char. case_if; [done|].
  repeat (case_if; try done). split_and!; cbn; try done; try lia.
  intros _. unfold inside, UrlChars.end_. cbn. lia.
Qed.

Lemma contraction_ok p :
  parsed_ok p -> parsed_ok (p <| index_of_contraction := num_hex_components p |>).
Proof. intros (Hl & Hn & Hi & Hk & H4). split_and!; cbn; try done; lia. Qed.

Lemma parse_loop_ok begin end_ fuel i cb p :
  parsed_ok p -> 0 <= cb <= i -> i <= end_ < zlen spec -> (Z.to_nat (end_ - i) < fuel)%nat ->
  yields (parse_loop fuel spec begin end_ i cb p) (fun r => fst r = true -> parsed_ok (snd r)).
Proof.
  revert i cb p. induction fuel as [|fuel IH]; intros i cb p Hp Hcb Hi Hf; [lia|].
  cbn [parse_loop]. apply yields_get; [lia|]. intros c _.
  apply (yields_bind _ _ (fun b => b = true -> (c =? ":"%ch) = true /\ i < end_ - 1)).
  { case_if; [|done]. to_prop. apply yields_get; [lia|]. intros c1 _. cbn. intros _.
    split; [by apply Z.eqb_eq|lia]. }
  intros contraction Hcontr.
  eapply (yields_bind _ _ (fun r => match r with Some p' => parsed_ok p' | None => True end)).
  { case_if; [apply end_component_ok; [done|lia|lia]|exact Hp]. }
  intros [p'|] Hp'; [|done]. case_if; [exact (fun _ => Hp')|]. to_prop. case_if; [done|].
  destruct contraction.
  - destruct (Hcontr eq_refl) as [-> ?]. apply IH; try lia. by apply contraction_ok.
  - case_if; [apply IH; try lia; done|].
    pose proof (component_char_ok c end_ cb p' Hp' ltac:(lia) ltac:(lia)) as Hc.
    destruct (component_char _ _ _ _) as [[[] p'']|]; [exact (fun _ => Hc)| |done]. apply IH; try lia. done.
Qed.

Lemma copy_loop_ok component count i buf :
  inside spec component -> 0 <= i -> i + Z.of_nat count <= len component ->
  len component <= zlen buf ->
  yields (copy_loop count spec component i buf) (fun b => zlen b = zlen buf).
Proof.
  intros (Hb & Hl & He). unfold UrlChars.end_ in He. revert i buf.
  induction count as [|count IH]; intros i buf Hi Hc Hbuf; cbn [copy_loop]; [done|].
  apply yields_get; [lia|]. intros c _. apply yields_put; [lia|]. intros b _ Hlen.
  eapply yields_impl; [apply IH; lia|]. cbn. lia.
Qed.

Lemma IPv6HexComponentToNumber_ok component :
  inside spec component -> len component <= 4 ->
  yields (IPv6HexComponentToNumber spec component) (in_u 16).
Proof.
  intros Hin Hlen. unfold IPv6HexComponentToNumber. pose proof Hin as (_ & Hl & _).
  rewrite (proj2 (Z.leb_le _ _) Hlen). cbn [DCHECK checked mbind res_bind].
  eapply yields_bind; [apply copy_loop_ok; [done|lia|lia|change (zlen (repeat 0 5)) with 5; lia]|].
  cbn beta. intros buf Hb. change (zlen (repeat 0 5)) with 5 in Hb. apply yields_put; [lia|]. intros buf' _ _. cbn. apply wrap_u_range. lia.
Qed.

Lemma zero_bytes_ok count cur a0 a :
  0 <= cur -> cur + Z.of_nat count <= zlen a -> same_bytes a0 a ->
  yields (zero_bytes count cur a) (fun r => fst r = cur + Z.of_nat count /\ same_bytes a0 (snd r)
                                            /\ zlen (snd r) = zlen a).
Proof.
  revert cur a. induction count as [|count IH]; intros cur a Hc Hl Hs; cbn [zero_bytes].
  { cbn. split; [lia|]. by split. }
  apply yields_put; [lia|]. intros a' Hp Hl'. eapply yields_impl; [apply IH; try lia|].
  - eapply same_bytes_put; [done| |done]. unfold is_byte. lia.
  - cbn. intros r (? & ? & ?). split; [lia|]. split; [done|lia].
Qed.

Lemma high_byte n : in_u 16 n -> Z.shiftr (Z.land n 0xFF00) 8 = n / 256.
Proof.
  unfold in_u. intros Hn. rewrite Z.shiftr_land. change (Z.shiftr 0xFF00 8) with (Z.ones 8).
  rewrite Z.land_ones, Z.shiftr_div_pow2 by lia. change (2 ^ 8) with 256. apply Z.mod_small.
  split; [apply Z.div_pos; lia|apply Z.div_lt_upper_bound; lia].
Qed.

Lemma low_byte n : Z.land n 0x00FF = n mod 256.
Proof. change 0x00FF with (Z.ones 8). by rewrite Z.land_ones. Qed.

Lemma number_bytes n : in_u 16 n -> is_byte (n / 256) /\ is_byte (n mod 256).
Proof.
  unfold in_u, is_byte. intros Hn. split; [|apply Z.mod_pos_bound; lia].
  split; [apply Z.div_pos; lia|apply Z.div_lt_upper_bound; lia].
Qed.

(** The bytes that turns [i] to the last write. *)
Definition bytes_left (p : IPv6Parsed) (nb i : Z) : Z :=
  2 * (num_hex_components p - i) + if i <=? index_of_contraction p then nb else 0.

Lemma address_loop_ok p nb a0 count i cur a :
  parsed_ok p -> 0 <= nb -> 0 <= i -> i + Z.of_nat count = num_hex_components p + 1 ->
  0 <= cur -> (0 < count)%nat -> cur + bytes_left p nb i <= zlen a -> same_bytes a0 a ->
  yields (address_loop count spec p nb i cur a) (fun r =>
    fst r = cur + bytes_left p nb i /\ same_bytes a0 (snd r)).
Proof.
  intros Hp Hnb. pose proof Hp as (_ & Hn & Hidx & Hk & _). revert i cur a.
  induction count as [|count IH]; intros i cur a Hi Hc Hcur Hpos Hl Hs; [lia|].
  cbn [address_loop]. unfold bytes_left in Hl.
  eapply (yields_bind _ _ (fun r =>
    fst r = cur + (if i =? index_of_contraction p then nb else 0) /\ same_bytes a0 (snd r) /\
    zlen (snd r) = zlen a)).
  { case_if; [|cbn; split; [lia|by split]]. to_prop.
    rewrite (proj2 (Z.leb_le i _)) in Hl by lia.
    eapply yields_impl; [apply (zero_bytes_ok _ _ a0); [lia|lia|done]|].
    cbn. intros r (? & ? & ?). split; [lia|by split]. }
  intros [cur1 a1] (Hcur1 & Hs1 & Hl1). cbn [fst snd] in *.
  destruct (Z.eqb_spec i (num_hex_components p)) as [->|Hne].
  { assert (count = 0%nat) as -> by lia. cbn [address_loop negb mbind res_bind yields fst snd].
    split; [|done]. unfold bytes_left. rewrite Hcur1.
    destruct (Z.eqb_spec (num_hex_components p) (index_of_contraction p)),
             (Z.leb_spec (num_hex_components p) (index_of_contraction p)); lia. }
  cbn [negb]. destruct (Hk i) as (c & Hc' & Hin & Hlen); [lia|].
  assert (Hrest : cur1 + 2 + bytes_left p nb (i + 1) = cur + bytes_left p nb i).
  { unfold bytes_left. rewrite Hcur1.
    destruct (Z.eqb_spec i (index_of_contraction p)), (Z.leb_spec i (index_of_contraction p)),
             (Z.leb_spec (i + 1) (index_of_contraction p)); lia. }
  assert (0 <= bytes_left p nb (i + 1)).
  { unfold bytes_left. case_if; lia. }
  change (2 * (num_hex_components p - i) + (if i <=? index_of_contraction p then nb else 0))
    with (bytes_left p nb i) in Hl.
  eapply (yields_bind _ _ (fun r => fst r = cur1 + 2 /\ same_bytes a0 (snd r) /\ zlen (snd r) = zlen a)).
  - rewrite Hc'. cbn [checked mbind res_bind].
    eapply yields_bind; [by apply IPv6HexComponentToNumber_ok|]. intros n Hn16.
    rewrite high_byte, low_byte by done. destruct (number_bytes n Hn16).
    assert (0 <= cur1) by (rewrite Hcur1; case_if; lia).
    apply yields_put; [lia|]. intros a2 Hp2 Hl2. apply yields_put; [lia|]. intros a3 Hp3 Hl3.
    cbn. split; [lia|]. split; [|lia].
    eapply same_bytes_put; [eapply same_bytes_put; [done| |done]| |done]; done.
  - intros [cur2 a2] (Hcur2 & Hs2 & Hl2). cbn [fst snd] in *.
    assert (0 <= cur2) by (rewrite Hcur2, Hcur1; case_if; lia).
    eapply yields_impl; [apply IH; try lia; done|]. cbn. intros r [Hr ?]. split; [lia|done].
Qed.
End ipv6.
