(* ===== verification/UrlIpText.v ===== *)
(** What the canonical form of an address looks like, and how the readers see
    each part of it. *)
From S2P Require Import Prelude CArrays UrlChars UrlIp UrlIpSafety.

(** A test passed by all the numbers from [z] on, by computing it. *)
Fixpoint passes_from (count : nat) (z : Z) (test : Z -> bool) : bool :=
  match count with O => true | S count => test z && passes_from count (z + 1) test end.

Lemma passes_from_spec count test : forall z, passes_from count z test = true ->
  forall x, z <= x < z + Z.of_nat count -> test x = true.
Proof.
  induction count as [|count IH]; intros z H x Hx; [lia|]. cbn in H. to_prop.
  destruct (decide (x = z)) as [->|]; [done|]. eapply IH; [done|lia].
Qed.

(** ** Numbers as text *)
Definition dec (n : Z) : list Z := print_digits 40 10 n [].
Definition hex (n : Z) : list Z := print_digits 40 16 n [].

Definition dec_char (c : Z) : Prop :=
  0 <= c < 128 /\ c <> "."%ch /\ IsIPv4Char c = true /\ IsCharOfType c CHAR_DEC = true.
Definition hex_char (c : Z) : Prop := 0 <= c < 128 /\ c <> ":"%ch /\ IsHexChar c = true.

#[local] Instance dec_char_dec c : Decision (dec_char c).
Proof. unfold dec_char. apply _. Defined.
#[local] Instance hex_char_dec c : Decision (hex_char c).
Proof. unfold hex_char. apply _. Defined.

(** Prove a decidable fact about the variable [n] by computing it for the
    numbers below [count]. *)
Ltac compute_upto n count :=
  match goal with |- ?P =>
    let test := eval pattern n in (bool_decide P) in
    match test with ?f _ =>
      apply (bool_decide_eq_true_1 P);
      refine (passes_from_spec (Z.to_nat count) f 0 _ n _); [vm_compute; reflexivity|]
    end
  end.

Lemma dec_facts n : is_byte n ->
  Forall dec_char (dec n) /\ 1 <= zlen (dec n) <= 3 /\ strtoull (dec n) 10 = n /\
  (get (dec n) 0 = Some "0"%ch -> dec n = str "0").
Proof. intros Hn. compute_upto n 256. unfold is_byte in Hn. lia. Qed.

Lemma digit_facts d : 0 <= d < 16 ->
  hex_char (digit_char d) /\ digit_value (digit_char d) = Some d /\
  is_space (digit_char d) = false /\
  Forall (fun c => digit_char d <> c) (str "+-xX").
Proof. intros Hd. compute_upto d 16. lia. Qed.

(** [t] is the digits of [n]. *)
Definition digits_of_number (n : Z) (t : list Z) : Prop :=
  Forall (fun c => exists d, 0 <= d < 16 /\ c = digit_char d) t /\ t <> [] /\
  (forall acc w, digits_value 16 acc (t ++ w) = digits_value 16 (acc * 16 ^ zlen t + n) w) /\
  (zlen t = 1 \/ 16 ^ (zlen t - 1) <= n).

Lemma print_digits_spec fuel n :
  0 <= n < 16 ^ Z.of_nat fuel -> (0 < fuel)%nat ->
  exists t, (forall w, print_digits fuel 16 n w = t ++ w) /\ digits_of_number n t.
Proof.
  revert n. induction fuel as [|fuel IH]; intros n Hn Hf; [lia|]. cbn [print_digits].
  rewrite Nat2Z.inj_succ, Z.pow_succ_r in Hn by lia.
  pose proof (Z.div_mod n 16 ltac:(lia)) as Hdiv. pose proof (Z.mod_pos_bound n 16 ltac:(lia)) as Hm.
  destruct (digit_facts (n mod 16) Hm) as (_ & Hv & _).
  assert (Hdv : forall acc w, digits_value 16 acc (digit_char (n mod 16) :: w) =
                              digits_value 16 (acc * 16 + n mod 16) w).
  { intros acc w. cbn [digits_value]. rewrite Hv. by rewrite (proj2 (Z.ltb_lt _ _)) by lia. }
  case_if; to_prop.
  - exists [digit_char (n mod 16)]. split; [done|]. split_and!; [by constructor; eauto|done| |by left].
    intros acc w. cbn [app]. rewrite Hdv. f_equal. change (zlen [_]) with 1. lia.
  - assert (0 <= n / 16) by (apply Z.div_pos; lia).
    destruct (IH (n / 16)) as (t & Ht & Hc & Hne & Hval & Hlen).
    { split; [done|]. apply Z.div_lt_upper_bound; lia. }
    { destruct fuel; [|lia]. cbn in Hn. lia. }
    exists (t ++ [digit_char (n mod 16)]). split; [intros w; rewrite Ht; by rewrite <- app_assoc|].
    assert (Hz : zlen (t ++ [digit_char (n mod 16)]) = Z.succ (zlen t)) by (rewrite zlen_app; by cbn).
    split_and!.
    + apply Forall_app. split; [done|]. constructor; eauto.
    + by destruct t.
    + intros acc w. rewrite <- app_assoc. cbn [app]. rewrite Hval, Hdv, Hz.
      f_equal. rewrite Z.pow_succ_r by apply zlen_nonneg. lia.
    + right. rewrite Hz. destruct Hlen as [Hl|Hl]; [rewrite Hl; change (16 ^ (Z.succ 1 - 1)) with 16; lia|].
      replace (Z.succ (zlen t) - 1) with (Z.succ (zlen t - 1)) by lia.
      assert (0 < zlen t). { destruct t; [done|]. unfold zlen. cbn [length]. lia. }
      rewrite Z.pow_succ_r by lia. lia.
Qed.

Lemma strtoull_digits t :
  Forall (fun c => exists d, 0 <= d < 16 /\ c = digit_char d) t ->
  digits_value 16 0 t < 2 ^ 64 -> strtoull t 16 = digits_value 16 0 t.
Proof.
  intros Ht Hv. unfold strtoull. destruct Ht as [|c s (d & Hd & ->) Hs]; [done|].
  destruct (digit_facts d Hd) as (_ & Hdv & Hsp & Hne). cbn [skip_space]. rewrite Hsp.
  apply Forall_cons in Hne as [Hplus Hne]. apply Forall_cons in Hne as [Hminus Hne].
  rewrite !(proj2 (Z.eqb_neq _ _)) by done.
  replace (skip_prefix 16 (digit_char d :: s)) with (digit_char d :: s).
  { by rewrite (proj2 (Z.ltb_ge _ _)) by lia. }
  destruct Hs as [|x s (d' & Hd' & ->) Hs]; [done|]. destruct s as [|y s]; [done|].
  destruct (digit_facts d' Hd') as (_ & _ & _ & Hx). cbn [skip_prefix].
  apply Forall_cons in Hx as [_ Hx]. apply Forall_cons in Hx as [_ Hx].
  apply Forall_cons in Hx as [Hx HX]. apply Forall_cons in HX as [HX _].
  rewrite !(proj2 (Z.eqb_neq (digit_char d') _)) by done. by rewrite andb_false_r.
Qed.

Lemma hex_facts n : in_u 16 n ->
  Forall hex_char (hex n) /\ 1 <= zlen (hex n) <= 4 /\ strtoull (hex n) 16 = n.
Proof.
  unfold in_u. intros Hn.
  destruct (print_digits_spec 40 n) as (t & Ht & Hc & Hne & Hval & Hlen).
  { split; [lia|]. apply (Z.lt_le_trans _ (2 ^ 16)); [lia|by vm_compute]. }
  { lia. }
  unfold hex. rewrite Ht, app_nil_r.
  assert (Hv : digits_value 16 0 t = n). { rewrite <- (app_nil_r t), Hval. cbn. lia. }
  split_and!.
  - eapply Forall_impl; [exact Hc|]. intros c (d & Hd & ->). by apply digit_facts.
  - destruct t; [done|]. unfold zlen. cbn [length]. lia.
  - destruct Hlen as [->|Hl]; [done|]. destruct (decide (zlen t <= 4)); [done|].
    assert (16 ^ 4 <= 16 ^ (zlen t - 1)) by (apply Z.pow_le_mono_r; lia). lia.
  - rewrite strtoull_digits; [done..|]. rewrite Hv. lia.
Qed.

(** ** The groups of an IPv6 address *)
Definition flat (gs : list Z) : list Z := flat_map (fun g => [g / 256; g mod 256]) gs.

Lemma zlen_flat gs : zlen (flat gs) = 2 * zlen gs.
Proof.
  unfold zlen. induction gs as [|g gs IH]; cbn [flat flat_map app length]; [done|].
  change (flat_map _ gs) with (flat gs). lia.
Qed.

Lemma flat_app gs1 gs2 : flat (gs1 ++ gs2) = flat gs1 ++ flat gs2.
Proof. apply flat_map_app. Qed.

(** Every address is its groups. *)
Lemma flat_exists n a :
  zlen a = 2 * Z.of_nat n -> Forall is_byte a ->
  exists gs, a = flat gs /\ length gs = n /\ Forall (in_u 16) gs.
Proof.
  revert a. induction n as [|n IH]; intros a Hl Ha.
  - destruct a; [by exists []|done].
  - destruct a as [|x [|y a]]; [done| |].
    { unfold zlen in Hl. cbn [length] in Hl. lia. }
    unfold zlen in Hl. cbn [length] in Hl. apply Forall_cons in Ha as [Hx Ha].
    apply Forall_cons in Ha as [Hy Ha]. unfold is_byte in *.
    destruct (IH a) as (gs & -> & Hn & Hgs); [unfold zlen; lia|done|].
    exists (x * 256 + y :: gs). split_and!; [|by cbn; rewrite Hn|constructor; [unfold in_u; lia|done]].
    cbn. f_equal; [|f_equal]; symmetry.
    + rewrite Z.div_add_l by lia. rewrite Z.div_small; lia.
    + rewrite Z.add_comm, Z.mod_add by lia. by apply Z.mod_small.
Qed.

Lemma get_flat gs1 g gs2 :
  get (flat (gs1 ++ g :: gs2)) (2 * zlen gs1) = Some (g / 256) /\
  get (flat (gs1 ++ g :: gs2)) (2 * zlen gs1 + 1) = Some (g mod 256).
Proof.
  rewrite flat_app. cbn [flat flat_map]. change (flat_map _ gs2) with (flat gs2).
  split.
  - rewrite <- zlen_flat. apply get_app.
  - replace (2 * zlen gs1 + 1) with (zlen (flat gs1 ++ [g / 256])).
    + cbn [app]. change (g / 256 :: g mod 256 :: flat gs2)
        with ([g / 256] ++ g mod 256 :: flat gs2). rewrite app_assoc. apply get_app.
    + rewrite zlen_app, zlen_flat. reflexivity.
Qed.

Lemma zero_group g : in_u 16 g -> (g / 256 = 0 /\ g mod 256 = 0) <-> g = 0.
Proof.
  intros _. split; [|intros ->; done]. intros [H1 H2]. pose proof (Z.div_mod g 256). lia.
Qed.

(** *** The range to contract depends on which groups are zero. *)
Fixpoint range_bits (zeros : list bool) (i : Z) (max_range cur_range : Component) : Component :=
  match zeros with
  | [] => max_range
  | is_zero :: zeros =>
      let cur_range :=
        if is_zero : bool then
          let cur_range := if !(is_valid cur_range) then mkComponent i 0 else cur_range in
          mkComponent (begin_ cur_range) (len cur_range + 2)
        else cur_range in
      let '(max_range, cur_range) :=
        if negb is_zero || (i =? 14) then
          (if (2 <? len cur_range) && (len max_range <? len cur_range) then cur_range else max_range,
           no_component)
        else (max_range, cur_range) in
      range_bits zeros (i + 2) max_range cur_range
  end.

Definition zero_bits (gs : list Z) : list bool := map (fun g => g =? 0) gs.

Lemma is_zero_group g :
  in_u 16 g ->
  (if g / 256 =? 0 then b ← checked (Some (g mod 256)); Ok (b =? 0) else Ok false) = Ok (g =? 0).
Proof.
  intros Hg. destruct (zero_group g Hg) as [Hz Hz'].
  destruct (Z.eqb_spec (g / 256) 0), (Z.eqb_spec g 0); cbn; f_equal; try subst g; try done.
  apply Z.eqb_neq. auto.
Qed.

Lemma range_loop_bits gs2 gs1 max cur :
  Forall (in_u 16) gs2 ->
  range_loop (length gs2) (flat (gs1 ++ gs2)) (2 * zlen gs1) max cur =
  Ok (range_bits (zero_bits gs2) (2 * zlen gs1) max cur).
Proof.
  revert gs1 max cur. induction gs2 as [|g gs2 IH]; intros gs1 max cur Hg; [done|].
  apply Forall_cons in Hg as [Hg Hgs]. cbn [length range_loop zero_bits map range_bits].
  destruct (get_flat gs1 g gs2) as [H1 H2]. rewrite (checked_get _ _ _ _ H1), H2.
  rewrite is_zero_group by done. cbn [mbind res_bind].
  replace (2 * zlen gs1 + 2) with (2 * zlen (gs1 ++ [g])).
  2: { rewrite zlen_app. change (zlen [g]) with 1. lia. }
  change (gs1 ++ g :: gs2) with (gs1 ++ [g] ++ gs2). rewrite app_assoc.
  destruct (negb (g =? 0) || (2 * zlen gs1 =? 14)); by rewrite IH.
Qed.

Lemma choose_bits gs :
  length gs = 8%nat -> Forall (in_u 16) gs ->
  ChooseIPv6ContractionRange (flat gs) = Ok (range_bits (zero_bits gs) 0 no_component no_component).
Proof. intros Hl Hg. pose proof (range_loop_bits gs [] no_component no_component Hg). by rewrite Hl in H. Qed.

(** [n] groups from the group [k] on are zero. *)
Definition zero_run (zeros : list bool) (k n : nat) : bool :=
  (k + n <=? length zeros)%nat && forallb id (take n (drop k zeros)).

(** The range is the first of the longest runs of two groups or more. *)
Definition best_run (zeros : list bool) (r : Component) : bool :=
  (if len r =? -1 then true
   else existsb (fun k => existsb (fun n =>
          (begin_ r =? 2 * Z.of_nat k) && (len r =? 2 * Z.of_nat n) && (2 <=? n)%nat &&
          zero_run zeros k n) (seq 0 9)) (seq 0 9)) &&
  forallb (fun k => forallb (fun n =>
    implb ((2 <=? n)%nat && zero_run zeros k n)
          ((2 * Z.of_nat n <? len r) ||
           ((2 * Z.of_nat n =? len r) && (begin_ r <=? 2 * Z.of_nat k)))) (seq 0 9)) (seq 0 9).

Fixpoint all_bits (n : nat) : list (list bool) :=
  match n with
  | O => [[]]
  | S n => flat_map (fun l => [true :: l; false :: l]) (all_bits n)
  end.

Lemma all_bits_spec l : l ∈ all_bits (length l).
Proof.
  induction l as [|b l IH]; cbn [length all_bits]; [by left|].
  apply list_elem_of_In, in_flat_map. exists l. split; [by apply list_elem_of_In|].
  destruct b; cbn; auto.
Qed.

Lemma range_bits_best zeros :
  length zeros = 8%nat -> best_run zeros (range_bits zeros 0 no_component no_component) = true.
Proof.
  intros Hl. pose proof (all_bits_spec zeros) as H. rewrite Hl in H.
  assert (Hall : forallb (fun z => best_run z (range_bits z 0 no_component no_component))
                   (all_bits 8) = true) by (vm_compute; reflexivity).
  rewrite forallb_forall in Hall. by apply Hall, list_elem_of_In.
Qed.

(** ** The text of an IPv6 address *)
Definition colonize (ws : list (list Z)) : list Z := flat_map (fun w => w ++ [":"%ch]) ws.
Fixpoint join (ws : list (list Z)) : list Z :=
  match ws with [] => [] | [w] => w | w :: ws => w ++ ":"%ch :: join ws end.

Lemma group_value g : in_u 16 g -> Z.lor (Z.shiftl (g / 256) 8) (g mod 256) = g.
Proof.
  intros _. rewrite <- Z.shiftr_div_pow2 with (n := 8) by lia.
  change (g mod 256) with (g mod 2 ^ 8). rewrite <- Z.land_ones by lia.
  apply Z.bits_inj'. intros k Hk. rewrite Z.lor_spec, Z.land_spec.
  destruct (Z.lt_ge_cases k 8).
  - rewrite Z.shiftl_spec_low, Z.ones_spec_low by lia. cbn. by rewrite andb_true_r.
  - rewrite Z.shiftl_spec, Z.shiftr_spec, Z.ones_spec_high by lia.
    replace (k - 8 + 8) with k by lia. by rewrite andb_false_r, orb_false_r.
Qed.

Lemma append_number_hex g output : in_u 16 g -> append_number g 5 16 output = Ok (output ++ hex g).
Proof.
  intros Hg. destruct (hex_facts g Hg) as (_ & Hl & _). unfold in_u in Hg.
  unfold append_number, itoa_s. cbn [orb Z.eqb Pos.eqb]. rewrite (proj2 (Z.ltb_ge g 0)) by lia.
  fold (hex g). by rewrite (proj2 (Z.leb_gt 5 _)) by lia.
Qed.

Lemma append6_group fuel gs1 g gs2 r output :
  in_u 16 g -> length (gs1 ++ g :: gs2) = 8%nat ->
  (begin_ r = 2 * zlen gs1 -> len r <= 0) ->
  append6_loop (S fuel) (flat (gs1 ++ g :: gs2)) r (2 * zlen gs1) output =
  append6_loop fuel (flat (gs1 ++ g :: gs2)) r (2 * zlen (gs1 ++ [g]))
    (if 2 * zlen (gs1 ++ [g]) <? 16 then output ++ hex g ++ [":"%ch] else output ++ hex g).
Proof.
  intros Hg Hl Hr. rewrite length_app in Hl. cbn [length] in Hl. cbn [append6_loop].
  rewrite (proj2 (Z.leb_le _ _)) by (unfold zlen; lia). cbn [negb].
  rewrite Z.mul_comm, Z.mod_mul, Z.mul_comm by lia. cbn [DCHECK Z.eqb checked mbind res_bind].
  destruct (get_flat gs1 g gs2) as [H1 H2].
  replace ((2 * zlen gs1 =? begin_ r) && (0 <? len r)) with false.
  2: { symmetry. apply andb_false_iff. destruct (Z.eqb_spec (2 * zlen gs1) (begin_ r)); [|by left].
       right. apply Z.ltb_ge. by apply Hr. }
  rewrite (checked_get _ _ _ _ H1), (checked_get _ _ _ _ H2), group_value, append_number_hex by done.
  cbn [mbind res_bind]. rewrite zlen_app. change (zlen [g]) with 1.
  replace (2 * (zlen gs1 + 1)) with (2 * zlen gs1 + 2) by lia. by rewrite <- app_assoc.
Qed.

Lemma append6_before gs gs1 gs2 fuel r output :
  Forall (in_u 16) gs -> length (gs1 ++ gs ++ gs2) = 8%nat -> gs2 <> [] ->
  (2 * zlen gs1 <= begin_ r < 2 * zlen (gs1 ++ gs) -> len r <= 0) ->
  append6_loop (length gs + fuel) (flat (gs1 ++ gs ++ gs2)) r (2 * zlen gs1) output =
  append6_loop fuel (flat (gs1 ++ gs ++ gs2)) r (2 * zlen (gs1 ++ gs))
    (output ++ colonize (map hex gs)).
Proof.
  revert gs1 output. induction gs as [|g gs IH]; intros gs1 output Hg Hl Hgs2 Hr.
  { cbn. by rewrite !app_nil_r. }
  apply Forall_cons in Hg as [Hg Hgs]. cbn [length Nat.add app] in *.
  assert (0 < zlen gs2). { destruct gs2; [done|]. unfold zlen. cbn [length]. lia. }
  rewrite zlen_app in Hr. unfold zlen in *. cbn [length] in Hr. rewrite !length_app in *. cbn [length] in Hl.
  rewrite length_app in Hl.
  rewrite append6_group; [|done|by rewrite length_app; cbn [length]; rewrite length_app|unfold zlen; lia].
  rewrite (proj2 (Z.ltb_lt _ 16)) by (unfold zlen; rewrite length_app; cbn [length]; lia).
  change (g :: gs ++ gs2) with ([g] ++ gs ++ gs2). rewrite app_assoc.
  rewrite IH; try done.
  - cbn [colonize flat_map map]. change (flat_map _ (map hex gs)) with (colonize (map hex gs)).
    rewrite <- !app_assoc. unfold zlen. do 3 f_equal. rewrite !length_app. cbn [length]. lia.
  - rewrite !length_app. cbn [length]. lia.
  - unfold zlen. rewrite !length_app. cbn [length]. lia.
Qed.

Lemma append6_last gs gs1 fuel r output :
  Forall (in_u 16) gs -> length (gs1 ++ gs) = 8%nat ->
  (2 * zlen gs1 <= begin_ r < 16 -> len r <= 0) ->
  append6_loop (S (length gs) + fuel) (flat (gs1 ++ gs)) r (2 * zlen gs1) output =
  Ok (output ++ join (map hex gs)).
Proof.
  revert gs1 output. induction gs as [|g gs IH]; intros gs1 output Hg Hl Hr.
  { rewrite app_nil_r in *. cbn. rewrite (proj2 (Z.leb_gt _ 14)) by (unfold zlen; lia).
    by rewrite app_nil_r. }
  apply Forall_cons in Hg as [Hg Hgs]. cbn [length Nat.add] in *.
  rewrite length_app in Hl. cbn [length] in Hl.
  rewrite append6_group; [|done|by rewrite length_app|unfold zlen in *; lia].
  change (g :: gs) with ([g] ++ gs). rewrite app_assoc.
  change (S (length gs + fuel)) with (S (length gs) + fuel)%nat.
  rewrite IH; [|done|rewrite !length_app; cbn [length]; lia|].
  2: { rewrite zlen_app. change (zlen [g]) with 1. lia. }
  rewrite zlen_app. change (zlen [g]) with 1. destruct gs as [|g' gs].
  - rewrite (proj2 (Z.ltb_ge _ _)) by (unfold zlen; cbn [length] in Hl; lia). cbn. by rewrite app_nil_r.
  - rewrite (proj2 (Z.ltb_lt _ _)) by (unfold zlen; cbn [length] in Hl; lia).
    cbn [app map join]. by rewrite <- !app_assoc.
Qed.

(** The text between the brackets: with the contraction of [n] groups, which
    stand between [before] and [after], or with none. *)
Definition contracted (before after : list Z) : list Z :=
  (if (length before =? 0)%nat then [":"%ch] else colonize (map hex before)) ++
  [":"%ch] ++ join (map hex after).

Lemma AppendIPv6Address_text gs :
  length gs = 8%nat -> Forall (in_u 16) gs ->
  exists text r, (forall output, AppendIPv6Address (flat gs) output = Ok (output ++ text)) /\
    ChooseIPv6ContractionRange (flat gs) = Ok r /\
    (len r = -1 /\ text = join (map hex gs) \/
     exists before n after, gs = before ++ repeat 0 n ++ after /\ (2 <= n)%nat /\
       begin_ r = 2 * zlen before /\ len r = 2 * Z.of_nat n /\ text = contracted before after).
Proof.
  intros Hl Hg. unfold AppendIPv6Address. rewrite choose_bits by done. cbn [mbind res_bind].
  pose proof (range_bits_best (zero_bits gs)) as Hbest. unfold zero_bits in Hbest at 1.
  rewrite length_map in Hbest. specialize (Hbest Hl). unfold best_run in Hbest.
  set (r := range_bits _ _ _ _) in *. clearbody r.
  apply andb_true_iff in Hbest as [Hbest _].
  destruct (Z.eqb_spec (len r) (-1)) as [Hr|Hr].
  { exists (join (map hex gs)), r. split; [|split; [done|by left]]. intros output. pose proof (append6_last gs [] 0 r output Hg Hl) as Hlast. rewrite Hl in Hlast. apply Hlast. lia. }
  apply existsb_exists in Hbest as (k & _ & H). apply existsb_exists in H as (n & _ & H).
  unfold zero_run, zero_bits in H. rewrite !andb_true_iff, !Z.eqb_eq, !Nat.leb_le in H.
  destruct H as [[[H H3] H2] [H1 H4]]. rewrite length_map, Hl in H1.
  assert (Hgs : gs = take k gs ++ repeat 0 n ++ drop n (drop k gs)).
  { rewrite <- (take_drop k gs) at 1. f_equal. rewrite <- (take_drop n (drop k gs)) at 1. f_equal.
    rewrite skipn_map, firstn_map in H4. clear -H4 H1 Hl.
    assert (length (take n (drop k gs)) = n) as Hn by (rewrite length_take, length_drop; lia).
    revert Hn H4. generalize (take n (drop k gs)) as l. clear. intros l <-.
    induction l as [|x l IH]; cbn; [done|]. intros H. to_prop. unfold id in *. to_prop. subst x.
    f_equal. by apply IH. }
  assert (Hk : length (take k gs) = k) by (rewrite length_take; lia).
  exists (contracted (take k gs) (drop n (drop k gs))), r.
  split; [|split; [done|right; exists (take k gs), n, (drop n (drop k gs)); split_and!; (done || (unfold zlen; rewrite ?Hk; lia))]]. intros output.
  assert (Hk' : zlen (take k gs) = Z.of_nat k) by (unfold zlen; by rewrite Hk).
  assert (Ha : length (drop n (drop k gs)) = (8 - k - n)%nat) by (rewrite !length_drop; lia).
  generalize dependent (take k gs). generalize dependent (drop n (drop k gs)).
  intros after Ha before Hgs Hk Hk'. rewrite Hgs in Hg |- *.
  apply Forall_app in Hg as [Hb Hg]. apply Forall_app in Hg as [_ Hg].
  assert (Hall : length (before ++ repeat 0 n ++ after) = 8%nat).
  { rewrite !length_app, repeat_length. lia. }
  pose proof (append6_before before [] (repeat 0 n ++ after) (9 - k) r output Hb Hall) as Hbefore.
  cbn [app] in Hbefore. rewrite Hk in Hbefore. replace (k + (9 - k))%nat with 9%nat in Hbefore by lia.
  change (2 * zlen []) with 0 in Hbefore. rewrite Hbefore; [|destruct n; [lia|done]|lia].
  replace (9 - k)%nat with (S (S (length after) + (n - 1)))%nat by lia. cbn [append6_loop].
  rewrite (proj2 (Z.leb_le _ 14)), Hk', <- H, Z.eqb_refl by lia. cbn [negb].
  replace (begin_ r mod 2) with 0 by (rewrite H, Z.mul_comm, Z.mod_mul; lia).
  cbn [DCHECK Z.eqb checked mbind res_bind]. rewrite (proj2 (Z.ltb_lt 0 _)) by lia. cbn [andb].
  rewrite app_assoc.
  replace (UrlChars.end_ r) with (2 * zlen (before ++ repeat 0 n)).
  2: { unfold UrlChars.end_. rewrite H, H3, zlen_app, Hk'. unfold zlen. rewrite repeat_length. lia. }
  rewrite append6_last; [|done|by rewrite <- app_assoc|].
  2: { rewrite zlen_app. unfold zlen at 2. rewrite repeat_length. lia. }
  f_equal. unfold contracted. rewrite Hk. destruct k.
  - rewrite (proj2 (Z.eqb_eq _ 0)) by lia. destruct before; [|done]. cbn. by rewrite <- !app_assoc.
  - rewrite (proj2 (Z.eqb_neq _ 0)) by lia. cbn [Nat.eqb]. by rewrite <- !app_assoc.
Qed.

Lemma AppendIPv6Address_spec gs :
  length gs = 8%nat -> Forall (in_u 16) gs ->
  exists text, (forall output, AppendIPv6Address (flat gs) output = Ok (output ++ text)) /\
    (text = join (map hex gs) \/
     exists before n after, gs = before ++ repeat 0 n ++ after /\ (2 <= n)%nat /\
       text = contracted before after).
Proof.
  intros Hl Hg. destruct (AppendIPv6Address_text gs Hl Hg) as (text & r & H & _ & Hcases). exists text. split; [done|].
  destruct Hcases as [[_ ->]|(before & n & after & Eg & Hn & _ & _ & ->)]; [by left|right]. by exists before, n, after.
Qed.
