(* ===== verification/UrlIpProperties.v ===== *)
(** Addresses written in their canonical form are read back, and reading and
    canonicalizing any text is safe. *)
From S2P Require Import Prelude CArrays UrlChars UrlIp UrlIpSafety UrlIpText.

(** ** Reading an IPv6 literal *)
Section parse.
Context (spec : list Z) (begin end_ : Z).

(** The components found are the words [ws] of the text. *)
Definition holds (p : IPv6Parsed) (idx : Z) (ws : list (list Z)) : Prop :=
  zlen (hex_components p) = 8 /\ num_hex_components p = zlen ws /\
  index_of_contraction p = idx /\ ipv4_component p = no_component /\
  forall k w, ws !! k = Some w -> exists c, get (hex_components p) (Z.of_nat k) = Some c /\
    lies spec (begin_ c) w /\ len c = zlen w.

Lemma holds_new : holds new_IPv6Parsed (-1) [].
Proof. split_and!; try done. Qed.

Definition word (w : list Z) : Prop := Forall hex_char w /\ 1 <= zlen w <= 4.

Lemma word_cons w : word w -> exists x w', w = x :: w' /\ x <> ":"%ch.
Proof.
  intros [Hw Hl]. destruct w as [|x w]; [by destruct Hl|]. apply Forall_cons in Hw as [(_ & Hx & _) _].
  eauto.
Qed.

Lemma end_component_word p idx ws i w contraction :
  holds p idx ws -> lies spec i w -> word w -> zlen ws < 8 ->
  exists p', end_component begin end_ (i + zlen w) i contraction p = Ok (Some p') /\
    holds p' idx (ws ++ [w]).
Proof.
  intros (Hl & Hn & Hi & H4 & Hk) Hw [_ Hlen] H8. unfold end_component.
  replace (i + zlen w - i) with (zlen w) by lia.
  rewrite (proj2 (Z.ltb_ge 4 _)), (proj2 (Z.eqb_neq (zlen w) 0)), (proj2 (Z.ltb_lt 0 _)),
    (proj2 (Z.leb_gt 8 _)) by lia. cbn [andb].
  pose proof (zlen_nonneg ws).
  destruct (put_some (hex_components p) (num_hex_components p) (mkComponent i (zlen w)))
    as (cs & Hp & Hlen'); [lia|].
  rewrite Hp. cbn [checked mbind res_bind]. eexists. split; [done|]. split_and!; cbn; try lia; try done.
  - rewrite zlen_app. change (zlen [w]) with 1. lia.
  - intros k v Hv. apply lookup_app_Some in Hv as [Hv|[Hge Hv]].
    + apply lookup_lt_Some in Hv as Hlt. rewrite (get_put_ne _ _ _ _ _ Hp) by (unfold zlen in *; lia).
      by apply Hk.
    + apply list_lookup_singleton_Some in Hv as [Hz <-].
      replace (Z.of_nat k) with (num_hex_components p) by (unfold zlen in *; lia).
      eexists. split; [by eapply get_put|done].
Qed.

Lemma parse_chars fuel w i cb p rest :
  lies spec i (w ++ rest) -> Forall hex_char w -> i + zlen w <= end_ ->
  parse_loop (length w + fuel) spec begin end_ i cb p =
  parse_loop fuel spec begin end_ (i + zlen w) cb p.
Proof.
  revert i. induction w as [|c w IH]; intros i Hl Hw Hi.
  { cbn. by rewrite Z.add_0_r. }
  apply Forall_cons in Hw as [(Hr & Hc & Hx) Hw]. cbn [length Nat.add parse_loop app] in *.
  unfold zlen in Hi. cbn [length] in Hi.
  rewrite (checked_get _ _ _ _ (lies_get _ _ _ _ Hl)), (proj2 (Z.eqb_neq c _) Hc).
  rewrite (proj2 (Z.eqb_neq i end_)) by lia. cbn [andb orb mbind res_bind].
  unfold component_char. rewrite (proj2 (Z.leb_gt _ c)), (Z.mod_small c 256), Hx by lia. cbn [negb].
  rewrite IH; [|by eapply lies_tail|done|unfold zlen; lia].
  f_equal. unfold zlen. cbn [length]. lia.
Qed.

(** A word and the colon behind it. *)
Lemma parse_word fuel p idx ws i w rest c :
  holds p idx ws -> lies spec i (w ++ ":"%ch :: c :: rest) -> word w -> zlen ws < 8 ->
  c <> ":"%ch -> i + zlen w + 1 < end_ ->
  exists p', parse_loop (length w + S fuel) spec begin end_ i i p =
             parse_loop fuel spec begin end_ (i + zlen w + 1) (i + zlen w + 1) p' /\
    holds p' idx (ws ++ [w]).
Proof.
  intros Hp Hl Hw H8 Hc Hi. rewrite (parse_chars _ _ _ _ _ _ Hl) by (apply Hw || lia).
  apply lies_app in Hl as [Hlw Hl]. cbn [parse_loop].
  rewrite (checked_get _ _ _ _ (lies_get _ _ _ _ Hl)). rewrite Z.eqb_refl. cbn [andb].
  rewrite (proj2 (Z.ltb_lt _ (end_ - 1))) by lia.
  rewrite (checked_get _ _ _ _ (lies_get _ _ _ _ (lies_tail _ _ _ _ Hl))).
  rewrite (proj2 (Z.eqb_neq c _) Hc). cbn [orb mbind res_bind].
  destruct (end_component_word p idx ws i w false Hp Hlw Hw H8) as (p' & He & Hp').
  exists p'. split; [|done]. cbn [mbind res_bind] in He |- *. rewrite He.
  rewrite (proj2 (Z.eqb_neq _ end_)) by lia. done.
Qed.

Lemma parse_words fuel ws' p idx ws i c rest :
  holds p idx ws -> lies spec i (colonize ws' ++ c :: rest) -> Forall word ws' ->
  zlen ws + zlen ws' <= 8 -> c <> ":"%ch -> i + zlen (colonize ws') < end_ ->
  exists p', parse_loop (length (colonize ws') + fuel) spec begin end_ i i p =
             parse_loop fuel spec begin end_ (i + zlen (colonize ws')) (i + zlen (colonize ws')) p' /\
    holds p' idx (ws ++ ws').
Proof.
  revert p ws i. induction ws' as [|w ws' IH]; intros p ws i Hp Hl Hw H8 Hc Hi.
  { exists p. cbn. by rewrite Z.add_0_r, app_nil_r. }
  apply Forall_cons in Hw as [Hw Hws]. cbn [colonize flat_map] in *.
  change (flat_map _ ws') with (colonize ws') in *. unfold zlen in H8. cbn [length] in H8.
  rewrite !zlen_app in Hi |- *. change (zlen [":"%ch]) with 1 in *.
  assert (exists c' rest', colonize ws' ++ c :: rest = c' :: rest' /\ c' <> ":"%ch)
    as (c' & rest' & Hrest & Hc').
  { destruct ws' as [|w' ws']; [by exists c, rest|]. apply Forall_cons in Hws as [Hw' _].
    destruct (word_cons _ Hw') as (x & v & -> & Hx).
    exists x, ((v ++ [":"%ch]) ++ colonize ws' ++ c :: rest). split; [|done].
    cbn [colonize flat_map app]. change (flat_map _ ws') with (colonize ws').
    by rewrite <- !app_assoc. }
  pose proof (zlen_nonneg (colonize ws')) as Hnn.
  assert (Hl' := Hl). rewrite <- !app_assoc in Hl'. cbn [app] in Hl'. rewrite Hrest in Hl'.
  destruct (parse_word (length (colonize ws') + fuel) p idx ws i w rest' c' Hp Hl' Hw)
    as (p' & Heq & Hp'); [unfold zlen; lia|done|lia|].
  rewrite !length_app. cbn [length].
  replace (length w + 1 + length (colonize ws') + fuel)%nat
    with (length w + S (length (colonize ws') + fuel))%nat by lia.
  rewrite Heq. rewrite <- Hrest in Hl'. apply lies_app in Hl' as [_ Hl']. apply lies_tail in Hl'.
  destruct (IH p' (ws ++ [w]) _ Hp' Hl' Hws) as (p'' & Heq' & Hp''); try done.
  - unfold zlen. rewrite length_app. cbn [length]. lia.
  - lia.
  - exists p''. rewrite Heq'. rewrite <- app_assoc in Hp''. split; [|done]. f_equal; lia.
Qed.

(** The last word. *)
Lemma parse_last fuel p idx ws i w c :
  holds p idx ws -> lies spec i (w ++ [c]) -> word w -> zlen ws < 8 -> c <> ":"%ch ->
  i + zlen w = end_ ->
  exists p', parse_loop (length w + S fuel) spec begin end_ i i p = Ok (true, p') /\
    holds p' idx (ws ++ [w]).
Proof.
  intros Hp Hl Hw H8 Hc Hi. rewrite (parse_chars _ _ _ _ _ _ Hl) by (apply Hw || lia).
  apply lies_app in Hl as [Hlw Hl]. cbn [parse_loop].
  rewrite (checked_get _ _ _ _ (lies_get _ _ _ _ Hl)), (proj2 (Z.eqb_neq c _) Hc).
  rewrite (proj2 (Z.eqb_eq _ end_)) by lia. cbn [andb orb mbind res_bind].
  destruct (end_component_word p idx ws i w false Hp Hlw Hw H8) as (p' & He & Hp').
  exists p'. split; [|done]. cbn [mbind res_bind] in He. by rewrite He.
Qed.

(** A contraction, behind a word or at the start. *)
Lemma parse_contraction fuel p ws i w rest :
  holds p (-1) ws -> lies spec i (w ++ ":"%ch :: ":"%ch :: rest) ->
  word w \/ (w = [] /\ i = begin) -> zlen ws < 8 -> i + zlen w + 1 < end_ ->
  let ws' := ws ++ if (length w =? 0)%nat then [] else [w] in
  exists p', parse_loop (length w + S fuel) spec begin end_ i i p =
             parse_loop fuel spec begin end_ (i + zlen w + 2) (i + zlen w + 2) p' /\
    holds p' (zlen ws') ws'.
Proof.
  intros Hp Hl Hw H8 Hi ws'.
  assert (Hend : exists p', end_component begin end_ (i + zlen w) i true p = Ok (Some p') /\
                            holds p' (-1) ws').
  { subst ws'. destruct Hw as [Hw|[-> ->]].
    - apply lies_app in Hl as [Hlw _]. destruct (word_cons _ Hw) as (x & v & -> & _).
      by apply end_component_word.
    - exists p. cbn [length Nat.eqb]. rewrite app_nil_r. split; [|done]. change (zlen []) with 0.
      unfold end_component. rewrite Z.add_0_r, Z.sub_diag. cbn. by rewrite Z.eqb_refl. }
  rewrite (parse_chars _ _ _ _ _ _ Hl); [|destruct Hw as [[]|[-> _]]; [done|constructor]|lia].
  apply lies_app in Hl as [_ Hl]. cbn [parse_loop].
  rewrite (checked_get _ _ _ _ (lies_get _ _ _ _ Hl)). rewrite Z.eqb_refl. cbn [andb].
  rewrite (proj2 (Z.ltb_lt _ (end_ - 1))) by lia.
  rewrite (checked_get _ _ _ _ (lies_get _ _ _ _ (lies_tail _ _ _ _ Hl))).
  rewrite Z.eqb_refl. cbn [orb mbind res_bind].
  destruct Hend as (p' & He & (Hl' & Hn & Hx & H4 & Hk)). cbn [mbind res_bind] in He. rewrite He.
  cbn [mbind res_bind]. rewrite (proj2 (Z.eqb_neq _ end_)) by lia. rewrite Hx. cbn [Z.eqb andb negb Z.opp Pos.eqb].
  exists (p' <| index_of_contraction := num_hex_components p' |>).
  replace (i + zlen w + 1 + 1) with (i + zlen w + 2) by lia. split; [done|].
  split_and!; cbn; try done.
Qed.

(** The end of the text behind a contraction. *)
Lemma parse_nothing fuel p idx ws c :
  holds p idx ws -> idx = zlen ws -> lies spec end_ [c] -> c <> ":"%ch ->
  parse_loop (S fuel) spec begin end_ end_ end_ p = Ok (true, p).
Proof.
  intros (_ & Hn & Hi & _) -> Hl Hc. cbn [parse_loop].
  rewrite (checked_get _ _ _ _ (lies_get _ _ _ _ Hl)), (proj2 (Z.eqb_neq c _) Hc), Z.eqb_refl.
  cbn [andb orb mbind res_bind]. unfold end_component.
  rewrite Z.sub_diag, Hi, Hn, !Z.eqb_refl. by rewrite andb_false_r.
Qed.

Lemma join_snoc ws w : join (ws ++ [w]) = colonize ws ++ w.
Proof.
  induction ws as [|v ws IH]; [done|]. cbn [app colonize flat_map].
  change (flat_map _ ws) with (colonize ws). rewrite <- !app_assoc. cbn [app]. rewrite <- IH.
  by destruct ws.
Qed.

(** The words up to the end. *)
Lemma parse_rest fuel p idx ws ws' i c :
  holds p idx ws -> lies spec i (join ws' ++ [c]) -> Forall word ws' -> c <> ":"%ch ->
  zlen ws + zlen ws' <= 8 -> i + zlen (join ws') = end_ -> (ws' = [] -> idx = zlen ws) ->
  exists p', parse_loop (length (join ws') + S fuel) spec begin end_ i i p = Ok (true, p') /\
    holds p' idx (ws ++ ws').
Proof.
  intros Hp Hl Hw Hc H8 Hi Hnil. destruct ws' as [|w us _] using rev_ind.
  { exists p. rewrite app_nil_r. split; [|done]. rewrite Z.add_0_r in Hi. subst i.
    apply (parse_nothing fuel p idx ws c Hp (Hnil eq_refl) Hl Hc). }
  apply Forall_app in Hw as [Hus Hw]. apply Forall_cons in Hw as [Hw _].
  rewrite join_snoc, zlen_app in Hi. rewrite join_snoc in Hl |- *. rewrite <- app_assoc in Hl.
  rewrite zlen_app in H8. change (zlen [w]) with 1 in H8.
  destruct (word_cons _ Hw) as (x & v & Hwx & Hx). assert (0 < zlen w) by (destruct Hw; lia).
  rewrite length_app, <- Nat.add_assoc.
  assert (Hl' := Hl). rewrite Hwx in Hl'.
  destruct (parse_words (length w + S fuel) us p idx ws i x (v ++ [c]) Hp Hl' Hus)
    as (p' & -> & Hp'); [lia|done|lia|].
  apply lies_app in Hl as [_ Hl].
  destruct (parse_last fuel p' idx (ws ++ us) _ w c Hp' Hl Hw) as (p'' & -> & Hp'');
    [rewrite zlen_app; lia|done|lia|].
  exists p''. split; [done|]. by rewrite app_assoc.
Qed.

Lemma hex_words gs : Forall (in_u 16) gs -> Forall word (map hex gs).
Proof.
  intros Hg. apply Forall_map. eapply Forall_impl; [done|]. intros g Hgr.
  destruct (hex_facts g Hgr) as (? & ? & _). by split.
Qed.

Lemma parse_contracted before after fuel c :
  Forall (in_u 16) before -> Forall (in_u 16) after -> (length before + length after <= 8)%nat ->
  lies spec begin (contracted before after ++ [c]) -> c <> ":"%ch -> (length before < 8)%nat ->
  begin + zlen (contracted before after) = end_ ->
  exists p, parse_loop (length (contracted before after) + S fuel) spec begin end_ begin begin
              new_IPv6Parsed = Ok (true, p) /\
    holds p (zlen before) (map hex (before ++ after)).
Proof.
  intros Hb Ha H8 Hl Hc Hlt Hend.
  assert (exists us w, contracted before after = colonize us ++ w ++ ":"%ch :: ":"%ch :: join (map hex after) /\
    map hex before = us ++ (if (length w =? 0)%nat then [] else [w]) /\ Forall word us /\
    (word w \/ (w = [] /\ us = []))) as (us & w & Htext & Hbefore & Hus & Hw).
  { pose proof (hex_words before Hb) as Hwords. unfold contracted.
    destruct before as [|g us _] using rev_ind; [exists [], []; by split_and!; [..|right]|].
    rewrite length_app, Nat.add_comm. cbn [length Nat.add Nat.eqb]. rewrite map_app in *.
    apply Forall_app in Hwords as [Hus Hw]. apply Forall_cons in Hw as [Hw _]. exists (map hex us), (hex g).
    cbn [map]. destruct (word_cons _ Hw) as (x & v & Hx & _).
    split_and!; [|by rewrite Hx|done|by left]. unfold colonize. rewrite flat_map_app. cbn.
    rewrite app_nil_r. by rewrite <- !app_assoc. }
  rewrite Htext in *. rewrite !zlen_app in Hend. unfold zlen at 3 in Hend. cbn [length] in Hend.
  assert (Hlen : zlen us + (if (length w =? 0)%nat then 0 else 1) = zlen before).
  { unfold zlen. rewrite <- (length_map hex before), Hbefore, length_app. by case_if; cbn [length]; lia. }
  assert (Hpw : exists p, parse_loop (length (colonize us) + (length w + S (length (join (map hex after)) + S (S fuel))))
                  spec begin end_ begin begin new_IPv6Parsed =
                parse_loop (length w + S (length (join (map hex after)) + S (S fuel))) spec begin end_
                  (begin + zlen (colonize us)) (begin + zlen (colonize us)) p /\ holds p (-1) us).
  { rewrite <- !app_assoc in Hl. destruct Hw as [Hw|[-> ->]].
    - destruct (word_cons _ Hw) as (x & v & Hx & Hne). rewrite Hx in Hl. cbn [app] in Hl.
      destruct (parse_words (length w + S (length (join (map hex after)) + S (S fuel))) us
        new_IPv6Parsed (-1) [] begin x _ holds_new Hl Hus) as (p & Hp & Hh); try done.
      + change (zlen []) with 0. unfold zlen in *. case_if_in Hlen; lia.
      + destruct Hw. unfold zlen in *. lia.
      + eauto.
    - exists new_IPv6Parsed. cbn. rewrite Z.add_0_r. split; [done|apply holds_new]. }
  destruct Hpw as (p & Hpw & Hp).
  rewrite !length_app. cbn [length].
  replace (length (colonize us) + (length w + S (S (length (join (map hex after))))) + S fuel)%nat
    with (length (colonize us) + (length w + S (length (join (map hex after)) + S (S fuel))))%nat by lia.
  rewrite Hpw. rewrite <- app_assoc in Hl. apply lies_app in Hl as [_ Hl].
  rewrite <- app_assoc in Hl. cbn [app] in Hl.
  destruct (parse_contraction (length (join (map hex after)) + S (S fuel)) p us _ w _ Hp Hl)
    as (p' & Hp1 & Hp').
  - destruct Hw as [|[-> ->]]; [by left|right]. split; [done|]. apply Z.add_0_r.
  - unfold zlen in *. case_if_in Hlen; lia.
  - unfold zlen in *. lia.
  - rewrite Hp1. rewrite <- Hbefore in Hp'. apply lies_app in Hl as [_ Hl].
    do 2 apply lies_tail in Hl.
    replace (zlen (map hex before)) with (zlen before) in Hp' by (unfold zlen; by rewrite length_map).
    destruct (parse_rest (S fuel) p' _ _ (map hex after) (begin + zlen (colonize us) + zlen w + 2) c Hp')
      as (p'' & Hp2 & Hp''); try done.
    + by replace (begin + zlen (colonize us) + zlen w + 2) with
        (begin + zlen (colonize us) + zlen w + 1 + 1) by lia.
    + by apply hex_words.
    + unfold zlen. rewrite !length_map. lia.
    + unfold zlen in *. lia.
    + intros _. unfold zlen. by rewrite length_map.
    + exists p''. rewrite map_app. by split.
Qed.
End parse.

(** ** The bytes of an IPv6 literal *)
Section write.
Context (spec : list Z).

Lemma copy_loop_text component t done_ rest :
  lies spec (begin_ component + zlen done_) t -> (length t <= length rest)%nat ->
  Forall is_byte t ->
  copy_loop (length t) spec component (zlen done_) (done_ ++ rest) =
  Ok (done_ ++ t ++ drop (length t) rest).
Proof.
  revert done_ rest. induction t as [|c t IH]; intros done_ rest Hl Hn Ht; [done|].
  destruct rest as [|x rest]; [cbn in Hn; lia|]. cbn [length copy_loop] in *.
  apply Forall_cons in Ht as [Hc Ht].
  rewrite (checked_get _ _ _ _ (lies_get _ _ _ _ Hl)). rewrite put_app. cbn [checked mbind res_bind].
  rewrite (Z.mod_small c 256) by apply Hc.
  replace (zlen done_ + 1) with (zlen (done_ ++ [c])) by (rewrite zlen_app; reflexivity).
  change (done_ ++ c :: rest) with (done_ ++ [c] ++ rest). rewrite app_assoc, IH.
  - rewrite <- app_assoc. done.
  - rewrite zlen_app. change (zlen [c]) with 1. rewrite Z.add_assoc. by eapply lies_tail.
  - lia.
  - done.
Qed.

Lemma IPv6HexComponentToNumber_hex c g :
  in_u 16 g -> lies spec (begin_ c) (hex g) -> len c = zlen (hex g) ->
  IPv6HexComponentToNumber spec c = Ok g.
Proof.
  intros Hg Hl Hlen. destruct (hex_facts g Hg) as (Hc & Hz & Hv).
  unfold IPv6HexComponentToNumber. rewrite Hlen, (proj2 (Z.leb_le _ 4)) by lia.
  cbn [DCHECK checked mbind res_bind].
  replace (Z.to_nat (zlen (hex g))) with (length (hex g)) by (unfold zlen; lia).
  pose proof (copy_loop_text c (hex g) [] (repeat 0 5)) as Hcopy. rewrite Z.add_0_r in Hcopy.
  change (zlen []) with 0 in Hcopy. cbn [app] in Hcopy. rewrite Hcopy; [|done|..].
  2: { rewrite repeat_length. unfold zlen in Hz. lia. }
  2: { eapply Forall_impl; [exact Hc|]. intros x [Hx _]. unfold is_byte. lia. }
  cbn [mbind res_bind].
  destruct (put_some (hex g ++ drop (length (hex g)) (repeat 0 5)) (zlen (hex g)) 0) as (b & Hp & _).
  { rewrite zlen_app. unfold zlen in *. rewrite length_drop, repeat_length. lia. }
  rewrite Hp. cbn [checked mbind res_bind]. unfold put in Hp. case_if_in Hp; [done|].
  injection Hp as <-. rewrite take_insert_ge by (unfold zlen; lia).
  rewrite take_app_length' by (unfold zlen; lia). rewrite Hv. f_equal. by apply wrap_u_id.
Qed.

(** What the turns from component [i] on write. *)
Fixpoint written (idx nb i : Z) (gs : list Z) : list Z :=
  (if i =? idx then repeat 0 (Z.to_nat nb) else []) ++
  match gs with [] => [] | g :: gs => flat [g] ++ written idx nb (i + 1) gs end.

Lemma zero_bytes_text n pre rest :
  (n <= length rest)%nat ->
  zero_bytes n (zlen pre) (pre ++ rest) = Ok (zlen (pre ++ repeat 0 n), pre ++ repeat 0 n ++ drop n rest).
Proof.
  revert pre rest. induction n as [|n IH]; intros pre rest Hn; [by rewrite app_nil_r|].
  destruct rest as [|x rest]; [cbn in Hn; lia|]. cbn [zero_bytes repeat drop length] in *.
  rewrite put_app. cbn [checked mbind res_bind].
  replace (zlen pre + 1) with (zlen (pre ++ [0])) by (rewrite zlen_app; reflexivity).
  change (pre ++ 0 :: rest) with (pre ++ [0] ++ rest). rewrite app_assoc, IH by lia.
  rewrite <- !app_assoc. done.
Qed.

Lemma put_two pre x y rest a b (k : list Z -> res (Z * list Z)) :
  (m ← checked (put (pre ++ x :: y :: rest) (zlen pre) a);
   m ← checked (put m (zlen pre + 1) b); k m) = k (pre ++ [a; b] ++ rest).
Proof.
  rewrite put_app. cbn [checked mbind res_bind].
  replace (zlen pre + 1) with (zlen (pre ++ [a])) by (rewrite zlen_app; reflexivity).
  change (pre ++ a :: y :: rest) with (pre ++ [a] ++ y :: rest). rewrite app_assoc, put_app.
  cbn [checked mbind res_bind]. by rewrite <- app_assoc.
Qed.

Lemma address_loop_S count p nb i cur a :
  address_loop (S count) spec p nb i cur a =
  ('(cur, a) ← (if i =? index_of_contraction p then zero_bytes (Z.to_nat nb) cur a else Ok (cur, a));
   '(cur, a) ← (if !(i =? num_hex_components p) then
                  component ← checked (get (hex_components p) i);
                  number ← IPv6HexComponentToNumber spec component;
                  a ← checked (put a cur (Z.shiftr (Z.land number 0xFF00) 8));
                  a ← checked (put a (cur + 1) (Z.land number 0x00FF));
                  Ok (cur + 2, a)
                else Ok (cur, a));
   address_loop count spec p nb (i + 1) cur a).
Proof. reflexivity. Qed.

Lemma address_loop_text p idx nb gs0 gs pre rest :
  holds spec p idx (map hex (gs0 ++ gs)) -> Forall (in_u 16) gs -> 0 <= nb ->
  (length (written idx nb (zlen gs0) gs) <= length rest)%nat ->
  address_loop (S (length gs)) spec p nb (zlen gs0) (zlen pre) (pre ++ rest) =
  Ok (zlen (pre ++ written idx nb (zlen gs0) gs),
      pre ++ written idx nb (zlen gs0) gs ++ drop (length (written idx nb (zlen gs0) gs)) rest).
Proof.
  intros Hp. pose proof Hp as (_ & Hn & Hidx & _ & Hk). revert gs0 pre rest Hp Hn Hk.
  induction gs as [|g gs IH]; intros gs0 pre rest Hp Hn Hk Hg Hnb Hrest.
  all: cbn [length written] in Hrest |- *; rewrite address_loop_S, Hidx;
    unfold zlen in Hn at 1; rewrite length_map, length_app in Hn.
  - rewrite Hn. cbn [length]. rewrite Nat.add_0_r. fold (zlen gs0). rewrite Z.eqb_refl. cbn [negb].
    rewrite app_nil_r in *. case_if; cbn [app]; [|by rewrite app_nil_r].
    rewrite zero_bytes_text; [|by rewrite repeat_length in Hrest]. cbn [mbind res_bind].
    by rewrite repeat_length.
  - apply Forall_cons in Hg as [Hg Hgs]. cbn [length] in Hn. rewrite Hn, (proj2 (Z.eqb_neq (zlen gs0) _)) by (unfold zlen; lia).
    cbn [negb]. set (z := if zlen gs0 =? idx then repeat 0 (Z.to_nat nb) else []) in *.
    assert (Hz : (if zlen gs0 =? idx then zero_bytes (Z.to_nat nb) (zlen pre) (pre ++ rest)
                  else Ok (zlen pre, pre ++ rest)) =
                 Ok (zlen (pre ++ z), pre ++ z ++ drop (length z) rest)).
    { subst z. case_if; [|by rewrite app_nil_r]. rewrite length_app, repeat_length in *.
      apply zero_bytes_text. lia. }
    rewrite Hz. cbn [mbind res_bind]. clear Hz.
    destruct (Hk (length gs0) (hex g)) as (c & Hc & Hlies & Hlen).
    { rewrite map_app. by apply list_lookup_middle; rewrite length_map. }
    fold (zlen gs0) in Hc. rewrite (checked_get _ _ _ _ Hc), (IPv6HexComponentToNumber_hex c g Hg Hlies Hlen).
    cbn [mbind res_bind]. rewrite high_byte, low_byte by done.
    rewrite !length_app in Hrest. cbn [length flat flat_map app] in Hrest.
    assert (exists x y rest', drop (length z) rest = x :: y :: rest' /\ rest' = drop (length z + 2) rest)
      as (x & y & rest' & Hd & Hr').
    { destruct (drop (length z) rest) as [|x [|y r]] eqn:Hd.
      - apply (f_equal length) in Hd. rewrite length_drop in Hd. cbn in Hd. lia.
      - apply (f_equal length) in Hd. rewrite length_drop in Hd. cbn in Hd. lia.
      - exists x, y, r. split; [done|]. rewrite <- drop_drop, Hd. done. }
    rewrite Hd, app_assoc, put_two. cbn [mbind res_bind].
    replace (zlen (pre ++ z) + 2) with (zlen ((pre ++ z) ++ flat [g])) by (rewrite zlen_app; reflexivity).
    replace (zlen gs0 + 1) with (zlen (gs0 ++ [g])) in * by (rewrite zlen_app; reflexivity).
    rewrite app_assoc. change [g / 256; g mod 256] with (flat [g]).
    rewrite IH; try done.
    + rewrite <- !app_assoc. do 6 f_equal. rewrite Hr', drop_drop. f_equal.
      rewrite !length_app. cbn [length flat flat_map app]. lia.
    + by rewrite <- app_assoc.
    + rewrite <- app_assoc. cbn [app]. unfold zlen. rewrite length_map, length_app. cbn [length]. lia.
    + intros k w Hkw. apply Hk. by rewrite <- app_assoc in Hkw.
    + rewrite Hr', length_drop. lia.
Qed.
End write.

Lemma written_plain idx nb i gs : idx < i -> written idx nb i gs = flat gs.
Proof.
  revert i. induction gs as [|g gs IH]; intros i Hi; cbn [written];
    rewrite (proj2 (Z.eqb_neq i idx)) by lia; [done|]. rewrite IH by lia. by rewrite <- flat_app.
Qed.

Lemma written_contracted nb i before after :
  written (i + zlen before) nb i (before ++ after) =
  flat before ++ repeat 0 (Z.to_nat nb) ++ flat after.
Proof.
  revert i. induction before as [|g before IH]; intros i.
  - cbn [app]. change (zlen []) with 0. rewrite Z.add_0_r. destruct after as [|g after]; cbn [written];
      rewrite Z.eqb_refl; [done|]. rewrite written_plain by lia. by rewrite <- flat_app.
  - cbn [app written]. replace (zlen (g :: before)) with (1 + zlen before) by (unfold zlen; cbn [length]; lia).
    rewrite (proj2 (Z.eqb_neq i _)) by (pose proof (zlen_nonneg before); lia).
    rewrite Z.add_assoc, IH. change (g :: before) with ([g] ++ before). rewrite flat_app.
    by rewrite <- !app_assoc.
Qed.

Lemma flat_zeros n : flat (repeat 0 n) = repeat 0 (Z.to_nat (2 * Z.of_nat n)).
Proof.
  replace (Z.to_nat _) with (n * 2)%nat by lia.
  induction n as [|n IH]; [done|]. cbn [repeat flat flat_map app Nat.mul Nat.add].
  change (flat_map _ (repeat 0 n)) with (flat (repeat 0 n)). by rewrite IH.
Qed.

Lemma written_groups spec p idx nb gs memory :
  holds spec p idx (map hex gs) -> Forall (in_u 16) gs -> 0 <= nb ->
  length (written idx nb 0 gs) = 16%nat -> zlen memory = 16 ->
  address_loop (S (Z.to_nat (num_hex_components p))) spec p nb 0 0 memory =
  Ok (16, written idx nb 0 gs).
Proof.
  intros Hp Hg Hnb Hw Hm. pose proof (address_loop_text spec p idx nb [] gs [] memory Hp Hg Hnb) as H.
  pose proof Hp as (_ & -> & _). replace (Z.to_nat (zlen (map hex gs))) with (length gs).
  2: { unfold zlen. rewrite length_map. lia. }
  change (zlen []) with 0 in H. cbn [app] in H. rewrite H by (unfold zlen in Hm; lia).
  rewrite drop_ge by (unfold zlen in Hm; lia). rewrite app_nil_r. unfold zlen. by rewrite Hw.
Qed.

Lemma no_ipv4 spec p idx ws : holds spec p idx ws -> is_valid (ipv4_component p) = false.
Proof. by intros (_ & _ & _ & -> & _). Qed.

Lemma words_size spec p idx gs nb :
  holds spec p idx (map hex gs) -> 2 * zlen gs + nb = 16 ->
  nb = (if idx =? -1 then 0 else Z.max 2 (16 - 2 * zlen gs)) ->
  CheckIPv6ComponentsSize p = Some nb.
Proof.
  intros Hh Hsum Hnb. pose proof Hh as (_ & Hnum & Hidx & _). unfold CheckIPv6ComponentsSize.
  rewrite (no_ipv4 _ _ _ _ Hh), Hidx, Hnum.
  replace (zlen (map hex gs)) with (zlen gs) by (unfold zlen; by rewrite length_map).
  replace (zlen gs * 2) with (2 * zlen gs) by lia.
  destruct (idx =? -1); cbn [negb]; rewrite <- Hnb, (proj2 (Z.eqb_eq _ 16)) by lia; done.
Qed.

Lemma IPv6_canonical pre post gs memory text :
  length gs = 8%nat -> Forall (in_u 16) gs -> zlen memory = 16 ->
  AppendIPv6Address (flat gs) [] = Ok text ->
  DoIPv6AddressToNumber (pre ++ ("["%ch :: text ++ ["]"%ch]) ++ post)
    (mkComponent (zlen pre) (zlen text + 2)) memory = Ok (true, flat gs).
Proof.
  intros Hl Hg Hm Htext. set (spec := pre ++ _).
  assert (Hspec : lies spec (zlen pre) ("["%ch :: text ++ ["]"%ch])) by apply lies_between.
  assert (Hin := lies_tail _ _ _ _ Hspec). assert (Hlast := proj2 (lies_app _ _ _ _ Hin)).
  unfold DoIPv6AddressToNumber, is_nonempty, UrlChars.end_. cbn [begin_ len].
  rewrite (proj2 (Z.ltb_lt 0 _)) by (pose proof (zlen_nonneg text); lia). cbn [negb].
  rewrite (checked_get _ _ _ _ (lies_get _ _ _ _ Hspec)). rewrite Z.eqb_refl. cbn [negb].
  replace (zlen pre + (zlen text + 2) - 1) with (zlen pre + 1 + zlen text) by lia.
  rewrite (checked_get _ _ _ _ (lies_get _ _ _ _ Hlast)). rewrite Z.eqb_refl. cbn [negb].
  unfold DoParseIPv6, is_nonempty, UrlChars.end_. cbn [begin_ len].
  replace (zlen text + 2 - 2) with (zlen text) by lia.
  assert (Hfuel : S (Z.to_nat (zlen text)) = (length text + 1)%nat) by (unfold zlen; lia).
  destruct (AppendIPv6Address_spec gs Hl Hg) as (text' & Hout & Hcases).
  rewrite Hout in Htext. injection Htext as ->.
  destruct Hcases as [H|(before & n & after & Hgs & Hn & H)].
  - pose proof (hex_words gs Hg) as Hwords. destruct (map hex gs) as [|w ws] eqn:Hmap.
    { apply (f_equal length) in Hmap. rewrite length_map in Hmap. cbn in Hmap. lia. }
    destruct (word_cons w) as (x & v & Hw & _); [by apply Forall_cons in Hwords as [? _]|].
    rewrite (proj2 (Z.ltb_lt 0 _)).
    2: { rewrite H, Hw. destruct ws; unfold zlen; cbn [join length app]; lia. }
    cbn [negb]. rewrite <- Hmap in *.
    destruct (parse_rest spec (zlen pre + 1) (zlen pre + 1 + zlen text) 0 new_IPv6Parsed (-1) []
      (map hex gs) (zlen pre + 1) "]"%ch) as (p & Hp & Hh);
      [apply holds_new|by rewrite <- H|done|done| |by rewrite H|intros Hnil; by rewrite Hmap in Hnil|].
    { change (zlen []) with 0. unfold zlen. rewrite length_map. lia. }
    rewrite <- H in Hp. rewrite Hfuel, Hp. cbn [mbind res_bind negb]. cbn [app] in Hh.
    rewrite (words_size spec p _ gs 0 Hh); [|unfold zlen; lia|done].
    rewrite (written_groups spec p (-1) 0 gs memory Hh Hg); [|lia| |done].
    + cbn [mbind res_bind]. rewrite (no_ipv4 _ _ _ _ Hh). by rewrite written_plain by lia.
    + rewrite written_plain by lia. pose proof (zlen_flat gs). unfold zlen in *. lia.
  - rewrite (proj2 (Z.ltb_lt 0 _)).
    2: { rewrite H. unfold contracted. rewrite !zlen_app. change (zlen [":"%ch]) with 1.
         pose proof (zlen_nonneg (join (map hex after))).
         match goal with |- context [zlen ?l] => pose proof (zlen_nonneg l) end. lia. }
    cbn [negb]. rewrite Hgs in Hg. apply Forall_app in Hg as [Hb Hg].
    apply Forall_app in Hg as [Hz Ha]. rewrite Hgs, !length_app, repeat_length in Hl.
    destruct (parse_contracted spec (zlen pre + 1) (zlen pre + 1 + zlen text) before after 0 "]"%ch)
      as (p & Hp & Hh); [done|done|lia|by rewrite <- H|done|lia|by rewrite H|].
    rewrite <- H in Hp. rewrite Hfuel, Hp. cbn [mbind res_bind negb].
    rewrite (words_size spec p _ (before ++ after) (2 * Z.of_nat n) Hh).
    2: { rewrite zlen_app. unfold zlen. lia. }
    2: { rewrite (proj2 (Z.eqb_neq (zlen before) _)) by (pose proof (zlen_nonneg before); lia).
         rewrite zlen_app. unfold zlen. lia. }
    assert (Hwr : written (zlen before) (2 * Z.of_nat n) 0 (before ++ after)
                  = flat gs).
    { rewrite <- (Z.add_0_l (zlen before)), written_contracted, Hgs, !flat_app, flat_zeros.
      reflexivity. }
    rewrite (written_groups spec p (zlen before) _ (before ++ after) memory Hh); [|by apply Forall_app|lia| |done].
    + cbn [mbind res_bind]. by rewrite (no_ipv4 _ _ _ _ Hh), Hwr.
    + rewrite Hwr, Hgs, !flat_app, flat_zeros, !length_app, repeat_length.
      pose proof (zlen_flat before). pose proof (zlen_flat after). unfold zlen in *. lia.
Qed.

(** ** IPv4 literals *)
Definition dotted (a b c d : Z) : list Z :=
  dec a ++ ["."%ch] ++ dec b ++ ["."%ch] ++ dec c ++ ["."%ch] ++ dec d.

Lemma append_number_dec n output : is_byte n -> append_number n 16 10 output = Ok (output ++ dec n).
Proof.
  intros Hn. destruct (dec_facts n Hn) as (_ & Hl & _). unfold is_byte in Hn.
  unfold append_number, itoa_s. cbn [orb Z.eqb Pos.eqb]. rewrite (proj2 (Z.ltb_ge n 0)) by lia.
  fold (dec n). by rewrite (proj2 (Z.leb_gt 16 _)) by lia.
Qed.

Lemma AppendIPv4Address_spec a b c d rest output :
  Forall is_byte [a; b; c; d] ->
  AppendIPv4Address (a :: b :: c :: d :: rest) output = Ok (output ++ dotted a b c d).
Proof.
  intros H. rewrite !Forall_cons in H. destruct H as (Ha & Hb & Hc & Hd & _).
  unfold AppendIPv4Address. cbn [append4_loop]. set (m := a :: b :: c :: d :: rest).
  change (get m 0) with (Some a). change (get m (0 + 1)) with (Some b).
  change (get m (0 + 1 + 1)) with (Some c). change (get m (0 + 1 + 1 + 1)) with (Some d).
  cbn [checked mbind res_bind Z.add Pos.add Pos.succ Z.eqb Pos.eqb negb].
  do 4 (rewrite append_number_dec by done; cbn [mbind res_bind]).
  unfold dotted. change (0 + 1 + 1 + 1 =? 3) with true. change (0 + 1 + 1 =? 3) with false.
  change (0 + 1 =? 3) with false. cbn [negb].
  by rewrite <- !app_assoc.
Qed.

Section read4.
Context (spec : list Z).

Lemma find_chars end_ fuel w i cur cb cs rest :
  lies spec i (w ++ rest) -> Forall dec_char w -> i + zlen w <= end_ ->
  find_loop (length w + fuel) spec end_ i cur cb cs =
  find_loop fuel spec end_ (i + zlen w) cur cb cs.
Proof.
  revert i. induction w as [|c w IH]; intros i Hl Hw Hi.
  { cbn. by rewrite Z.add_0_r. }
  apply Forall_cons in Hw as [(Hr & Hc & H4 & _) Hw]. cbn [length Nat.add find_loop app] in *.
  unfold zlen in Hi. cbn [length] in Hi.
  rewrite (proj2 (Z.leb_gt end_ i)) by lia. rewrite (lies_get _ _ _ _ Hl).
  cbn [checked mbind res_bind orb]. rewrite (proj2 (Z.eqb_neq c _) Hc).
  rewrite (proj2 (Z.leb_gt _ c)), (Z.mod_small c 256), H4 by lia. cbn [orb negb].
  rewrite IH; [|by eapply lies_tail|done|unfold zlen; lia].
  f_equal. unfold zlen. cbn [length]. lia.
Qed.

(** A number and the dot behind it, which is not the fourth. *)
Lemma find_number end_ fuel n i cur cs rest cs' :
  is_byte n -> lies spec i (dec n ++ "."%ch :: rest) -> i + zlen (dec n) < end_ -> 0 <= cur < 3 ->
  put cs cur (mkComponent i (zlen (dec n))) = Some cs' ->
  find_loop (length (dec n) + S fuel) spec end_ i cur i cs =
  find_loop fuel spec end_ (i + zlen (dec n) + 1) (cur + 1) (i + zlen (dec n) + 1) cs'.
Proof.
  intros Hn Hl Hi Hcur Hp. destruct (dec_facts n Hn) as (Hw & Hlen & _).
  rewrite (find_chars _ _ _ _ _ _ _ _ Hl Hw) by lia. apply lies_app in Hl as [_ Hl].
  cbn [find_loop]. rewrite (proj2 (Z.leb_gt end_ _)) by lia. rewrite (lies_get _ _ _ _ Hl).
  cbn [checked mbind res_bind orb]. rewrite Z.eqb_refl.
  replace (i + zlen (dec n) - i) with (zlen (dec n)) by lia. rewrite Hp. cbn [checked mbind res_bind].
  rewrite (proj2 (Z.eqb_neq (zlen (dec n)) 0)), (proj2 (Z.eqb_neq (cur + 1) 4)) by lia. done.
Qed.

Lemma find_last end_ fuel n i cs cs' :
  is_byte n -> lies spec i (dec n) -> i + zlen (dec n) = end_ ->
  put cs 3 (mkComponent i (zlen (dec n))) = Some cs' ->
  find_loop (length (dec n) + S fuel) spec end_ i 3 i cs = Ok (true, cs').
Proof.
  intros Hn Hl Hi Hp. destruct (dec_facts n Hn) as (Hw & Hlen & _).
  rewrite (find_chars _ _ (dec n) i _ _ _ []) by (rewrite ?app_nil_r; done || lia).
  cbn [find_loop]. rewrite (proj2 (Z.leb_le end_ _)) by lia. cbn [orb mbind res_bind].
  replace (i + zlen (dec n) - i) with (zlen (dec n)) by lia. rewrite Hp. cbn [checked mbind res_bind].
  rewrite (proj2 (Z.eqb_neq (zlen (dec n)) 0)) by lia. done.
Qed.

Lemma digits_loop_text end_ t i buf :
  lies spec i t -> Forall dec_char t -> i + zlen t = end_ -> zlen buf + zlen t <= 16 ->
  digits_loop (S (length t)) spec end_ i CHAR_DEC buf = Ok (Some (buf ++ t)).
Proof.
  revert i buf. induction t as [|c t IH]; intros i buf Hl Ht Hi Hb.
  { change (zlen []) with 0 in Hi. cbn. rewrite (proj2 (Z.ltb_ge i _)) by lia. by rewrite app_nil_r. }
  apply Forall_cons in Ht as [(Hr & _ & _ & Hd) Ht]. unfold zlen in Hi, Hb. cbn [length] in Hi, Hb.
  change (length (c :: t)) with (S (length t)). remember (S (length t)) as fuel. cbn [digits_loop]. subst fuel.
  rewrite (proj2 (Z.ltb_lt i _)) by lia. rewrite (checked_get _ _ _ _ (lies_get _ _ _ _ Hl)).
  rewrite (Z.mod_small c 256), Hd by lia. cbn [negb].
  unfold kMaxComponentLen. rewrite (proj2 (Z.ltb_lt (zlen buf) _)) by (unfold zlen; lia).
  rewrite IH; [by rewrite <- app_assoc|by eapply lies_tail|done|unfold zlen; lia|].
  rewrite zlen_app. change (zlen [c]) with 1. unfold zlen. lia.
Qed.

Lemma IPv4ComponentToNumber_zero i :
  get spec i = Some "0"%ch -> IPv4ComponentToNumber spec (mkComponent i 1) = Ok (IPV4, Some 0).
Proof.
  intros Hg. unfold IPv4ComponentToNumber, find_base, UrlChars.end_. cbn [begin_ len].
  rewrite (checked_get _ _ _ _ Hg), !Z.eqb_refl. cbn [mbind res_bind].
  change (S (Z.to_nat 1)) with 2%nat. cbn [zeros_loop begin_ len].
  rewrite Z.add_0_r, (checked_get _ _ _ _ Hg), Z.eqb_refl. change (0 <? 1) with true.
  change (0 + 1 <? 1) with false. cbn [mbind res_bind digits_loop].
  by rewrite (proj2 (Z.ltb_ge _ (i + 1))) by lia.
Qed.

Lemma IPv4ComponentToNumber_dec n i :
  is_byte n -> lies spec i (dec n) ->
  IPv4ComponentToNumber spec (mkComponent i (zlen (dec n))) = Ok (IPV4, Some n).
Proof.
  intros Hn Hl. destruct (dec_facts n Hn) as (Hw & Hlen & Hv & Hz).
  destruct (dec n) as [|c t] eqn:Hd; [by destruct Hlen|].
  destruct (Z.eq_dec c "0"%ch) as [->|Hc].
  - rewrite (Hz eq_refl) in *. assert (n = 0) as -> by (by rewrite <- Hv).
    apply (IPv4ComponentToNumber_zero i). exact (lies_get spec i _ [] Hl).
  - unfold IPv4ComponentToNumber, find_base, UrlChars.end_. cbn [begin_ len].
    rewrite (checked_get _ _ _ _ (lies_get _ _ _ _ Hl)), (proj2 (Z.eqb_neq c _) Hc).
    cbn [mbind res_bind zeros_loop]. cbn [len begin_]. rewrite (proj2 (Z.ltb_lt 0 _)) by lia.
    rewrite Z.add_0_r, (checked_get _ _ _ _ (lies_get _ _ _ _ Hl)), (proj2 (Z.eqb_neq c _) Hc).
    cbn [mbind res_bind]. rewrite Z.add_0_r.
    replace (Z.to_nat (zlen (c :: t))) with (length (c :: t)) by (unfold zlen; lia).
    rewrite (digits_loop_text _ (c :: t) i []) by (done || (change (zlen []) with 0; lia)).
    cbn [app mbind res_bind BaseForType]. rewrite Hv. unfold is_byte in Hn.
    by rewrite (proj2 (Z.ltb_ge (2 ^ 32 - 1) n)) by lia.
Qed.
End read4.

Lemma values_dotted spec ca cb cc cd a b c d :
  0 < len ca -> 0 < len cb -> 0 < len cc -> 0 < len cd ->
  IPv4ComponentToNumber spec ca = Ok (IPV4, Some a) ->
  IPv4ComponentToNumber spec cb = Ok (IPV4, Some b) ->
  IPv4ComponentToNumber spec cc = Ok (IPV4, Some c) ->
  IPv4ComponentToNumber spec cd = Ok (IPV4, Some d) ->
  values_loop spec [ca; cb; cc; cd] (mkNumbers (repeat None 4) 0 false) =
  Ok (inl (mkNumbers [Some a; Some b; Some c; Some d] 4 false)).
Proof.
  intros La Lb Lc Ld Ha Hb Hc Hd. cbn [values_loop].
  rewrite !(proj2 (Z.leb_gt _ 0)) by done. rewrite Ha. cbn [mbind res_bind existing_components].
  rewrite Hb. cbn [mbind res_bind existing_components]. rewrite Hc, Hd. reflexivity.
Qed.

Lemma put_four (a b c d m0 m1 m2 m3 : Z) memory :
  put (m0 :: m1 :: m2 :: m3 :: memory) 0 a = Some (a :: m1 :: m2 :: m3 :: memory) /\
  put (a :: m1 :: m2 :: m3 :: memory) 1 b = Some (a :: b :: m2 :: m3 :: memory) /\
  put (a :: b :: m2 :: m3 :: memory) 2 c = Some (a :: b :: c :: m3 :: memory) /\
  put (a :: b :: c :: m3 :: memory) 3 d = Some (a :: b :: c :: d :: memory).
Proof.
  split_and!; [apply (put_app [])|apply (put_app [a])|apply (put_app [a; b])|apply (put_app [a; b; c])].
Qed.

Lemma write_dotted a b c d m0 m1 m2 m3 memory :
  Forall is_byte [a; b; c; d] ->
  first_bytes 3 [Some a; Some b; Some c; Some d] 0 0 (m0 :: m1 :: m2 :: m3 :: memory) =
    Ok (true, a :: b :: c :: m3 :: memory) /\
  last_bytes 1 3 0 d (a :: b :: c :: m3 :: memory) = Ok (0, a :: b :: c :: d :: memory).
Proof.
  intros H. rewrite !Forall_cons in H. destruct H as (Ha & Hb & Hc & Hd & _). unfold is_byte in *.
  destruct (put_four a b c d m0 m1 m2 m3 memory) as (P0 & P1 & P2 & P3).
  split; cbn [first_bytes last_bytes]; unfold value_at.
  - change (get [Some a; Some b; Some c; Some d] 0) with (Some (Some a)).
    change (get [Some a; Some b; Some c; Some d] (0 + 1)) with (Some (Some b)).
    change (get [Some a; Some b; Some c; Some d] (0 + 1 + 1)) with (Some (Some c)).
    cbn [mbind option_bind id checked res_bind].
    rewrite (proj2 (Z.ltb_ge 255 a)), (proj2 (Z.ltb_ge 255 b)), (proj2 (Z.ltb_ge 255 c)) by lia.
    rewrite !wrap_u_id by (unfold in_u; lia).
    change (0 + 0) with 0. change (0 + (0 + 1)) with 1. change (0 + (0 + 1 + 1)) with 2.
    rewrite P0. cbn [checked mbind res_bind]. rewrite P1. cbn [checked mbind res_bind]. by rewrite P2.
  - rewrite wrap_u_id by (unfold in_u; lia). change (0 + 3) with 3. rewrite P3.
    cbn [checked mbind res_bind]. rewrite Z.shiftr_div_pow2 by lia. by rewrite (Z.div_small d) by lia.
Qed.

Lemma IPv4_canonical pre post a b c d m0 m1 m2 m3 memory :
  Forall is_byte [a; b; c; d] ->
  DoIPv4AddressToNumber (pre ++ dotted a b c d ++ post) (mkComponent (zlen pre) (zlen (dotted a b c d)))
    0 (m0 :: m1 :: m2 :: m3 :: memory) = Ok (IPV4, a :: b :: c :: d :: memory, Some 4).
Proof.
  intros H. rewrite !Forall_cons in H. destruct H as (Ha & Hb & Hc & Hd & _).
  set (spec := pre ++ _).
  assert (Hl : lies spec (zlen pre) (dotted a b c d)) by apply lies_between.
  unfold dotted in Hl. assert (La := Hl). apply lies_app in Hl as [Na Hl]. apply lies_tail in Hl.
  assert (Lb := Hl). apply lies_app in Hl as [Nb Hl]. apply lies_tail in Hl.
  assert (Lc := Hl). apply lies_app in Hl as [Nc Nd]. apply lies_tail in Nd.
  assert (Hz : zlen (dotted a b c d) = zlen (dec a) + 1 + zlen (dec b) + 1 + zlen (dec c) + 1 + zlen (dec d)).
  { unfold dotted. rewrite !zlen_app. change (zlen ["."%ch]) with 1. lia. }
  pose proof (zlen_nonneg (dec a)). pose proof (zlen_nonneg (dec b)).
  pose proof (zlen_nonneg (dec c)). pose proof (zlen_nonneg (dec d)).
  unfold DoIPv4AddressToNumber, DoFindIPv4Components, is_nonempty, UrlChars.end_. cbn [begin_ len].
  rewrite (proj2 (Z.ltb_lt 0 _)) by lia. cbn [negb].
  replace (S (Z.to_nat (zlen (dotted a b c d)))) with
    (length (dec a) + S (length (dec b) + S (length (dec c) + S (length (dec d) + 1))))%nat
    by (unfold zlen in *; lia).
  erewrite (find_number spec _ _ a _ _ _ _ _ Ha La); [|lia|lia|reflexivity].
  erewrite (find_number spec _ _ b _ _ _ _ _ Hb Lb); [|lia|lia|reflexivity].
  erewrite (find_number spec _ _ c _ _ _ _ _ Hc Lc); [|lia|lia|reflexivity].
  erewrite (find_last spec _ _ d _ _ _ Hd Nd); [|lia|reflexivity].
  destruct (dec_facts a Ha) as (_ & Za & _), (dec_facts b Hb) as (_ & Zb & _),
    (dec_facts c Hc) as (_ & Zc & _), (dec_facts d Hd) as (_ & Zd & _).
  match goal with |- (Ok (true, ?l) ≫= _) = _ =>
    change l with [mkComponent (zlen pre) (zlen (dec a));
      mkComponent (zlen pre + zlen (dec a) + 1) (zlen (dec b));
      mkComponent (zlen pre + zlen (dec a) + 1 + zlen (dec b) + 1) (zlen (dec c));
      mkComponent (zlen pre + zlen (dec a) + 1 + zlen (dec b) + 1 + zlen (dec c) + 1) (zlen (dec d))]
  end.
  cbn [mbind res_bind negb].
  rewrite (values_dotted spec _ _ _ _ a b c d); cbn [len]; try lia;
    try (by apply IPv4ComponentToNumber_dec).
  cbn [mbind res_bind broken existing_components component_values].
  change (Z.to_nat (4 - 1)) with 3%nat. change (Z.to_nat (5 - 4)) with 1%nat.
  destruct (write_dotted a b c d m0 m1 m2 m3 memory) as [H1' H2']; [by rewrite !Forall_cons|].
  rewrite H1'. cbn [mbind res_bind negb]. unfold value_at.
  change (get [Some a; Some b; Some c; Some d] (4 - 1)) with (Some (Some d)).
  cbn [mbind option_bind id checked res_bind]. by rewrite H2'.
Qed.

(** ** Canonicalization *)

(** *** Canonical text is canonicalized to itself. *)
Lemma bracket_not_ipv4 spec host at_index a :
  get spec (begin_ host) = Some "["%ch -> 0 < len host ->
  DoIPv4AddressToNumber spec host at_index a = Ok (NEUTRAL, a, None).
Proof.
  intros Hg Hl. unfold DoIPv4AddressToNumber, DoFindIPv4Components, is_nonempty, UrlChars.end_.
  rewrite (proj2 (Z.ltb_lt 0 _)) by done. cbn [negb find_loop].
  rewrite (proj2 (Z.leb_gt _ (begin_ host))) by lia. by rewrite Hg.
Qed.

Lemma four_bytes {A} (l : list A) : 4 <= zlen l -> exists a b c d rest, l = a :: b :: c :: d :: rest.
Proof.
  unfold zlen. destruct l as [|a [|b [|c [|d rest]]]]; cbn [length]; try lia. by eauto 6.
Qed.

(** The text of an address of a family. *)
Definition text_of (f : Family) (address text : list Z) : Prop :=
  match f with
  | IPV4 => forall output, AppendIPv4Address address output = Ok (output ++ text)
  | IPV6 => exists inner, text = "["%ch :: inner ++ ["]"%ch] /\
              forall output, AppendIPv6Address address output = Ok (output ++ inner)
  | _ => False
  end.

Lemma text_of_IPV4 a :
  zlen a = 16 -> Forall is_byte a -> exists text, text_of IPV4 a text.
Proof.
  intros Hl Hb. destruct (four_bytes a) as (x & y & z & w & rest & ->); [lia|].
  exists (dotted x y z w). intros output. apply AppendIPv4Address_spec.
  rewrite !Forall_cons in *. naive_solver.
Qed.

Lemma text_of_IPV6 a :
  zlen a = 16 -> Forall is_byte a -> exists text, text_of IPV6 a text.
Proof.
  intros Hl Hb. destruct (flat_exists 8 a) as (gs & -> & Hn & Hg); [done|done|].
  destruct (AppendIPv6Address_spec gs Hn Hg) as (inner & H & _). by eexists; exists inner.
Qed.

(** What the canonicalizer returns for an address. *)
Definition canonical (f : Family) (address text output : list Z)
    (r : res (list Z * CanonHostInfo)) : Prop :=
  exists h, r = Ok (output ++ text, h) /\ family h = f /\
    take (Z.to_nat (AddressLength h)) (UrlIp.address h) = take (Z.to_nat (AddressLength h)) address /\
    zlen (UrlIp.address h) = 16 /\ out_host h = mkComponent (zlen output) (zlen text).

Lemma canonical_IPV4 a text pre post output h :
  zlen a = 16 -> Forall is_byte a -> text_of IPV4 a text -> zlen (UrlIp.address h) = 16 ->
  canonical IPV4 a text output
    (CanonicalizeIPAddress (pre ++ text ++ post) (mkComponent (zlen pre) (zlen text)) output h).
Proof.
  intros Hl Hb Ht Hm. destruct (four_bytes a) as (x & y & z & w & rest & ->); [lia|].
  destruct (four_bytes (UrlIp.address h)) as (m0 & m1 & m2 & m3 & memory & Hmem); [lia|].
  assert (Hxyzw : Forall is_byte [x; y; z; w]) by (rewrite !Forall_cons in *; naive_solver).
  pose proof (Ht []) as Ht0. rewrite AppendIPv4Address_spec in Ht0 by done. injection Ht0 as <-.
  unfold CanonicalizeIPAddress, DoCanonicalizeIPv4Address. rewrite Hmem.
  rewrite IPv4_canonical by done. cbn [mbind res_bind]. rewrite AppendIPv4Address_spec by done.
  cbn [mbind res_bind]. eexists. split; [done|]. cbn. split_and!; [done|done| |].
  - rewrite Hmem in Hm. unfold zlen in *. cbn [length] in *. lia.
  - f_equal. rewrite zlen_app. lia.
Qed.

Lemma canonical_IPV6 a text pre post output h :
  zlen a = 16 -> Forall is_byte a -> text_of IPV6 a text -> zlen (UrlIp.address h) = 16 ->
  canonical IPV6 a text output
    (CanonicalizeIPAddress (pre ++ text ++ post) (mkComponent (zlen pre) (zlen text)) output h).
Proof.
  intros Hl Hb (inner & -> & Hout) Hm.
  destruct (flat_exists 8 a) as (gs & -> & Hn & Hg); [done|done|].
  set (text := "["%ch :: inner ++ ["]"%ch]).
  assert (Hz : zlen text = zlen inner + 2).
  { subst text. unfold zlen. cbn [length]. rewrite length_app. cbn [length]. lia. }
  unfold CanonicalizeIPAddress, DoCanonicalizeIPv4Address.
  rewrite bracket_not_ipv4; [|apply (get_app pre)|cbn [len]; pose proof (zlen_nonneg inner); lia].
  cbn [mbind res_bind]. unfold DoCanonicalizeIPv6Address. cbn [UrlIp.address].
  rewrite Hz. pose proof (IPv6_canonical pre post gs (UrlIp.address h) inner Hn Hg Hm (Hout [])) as H6.
  fold text in H6. rewrite H6.
  cbn [mbind res_bind negb]. rewrite Hout. cbn [mbind res_bind]. eexists.
  split; [by rewrite <- !app_assoc|]. cbn [family UrlIp.address out_host AddressLength].
  split_and!; [done|done|done|]. f_equal.
  change ([91] ++ inner ++ [93]) with text. rewrite zlen_app. lia.
Qed.

(** *** Every text is canonicalized or refused. *)
Lemma special_loop_ok spec count i :
  0 <= i -> i + Z.of_nat count <= zlen spec -> exists b, special_loop count spec i = Ok b.
Proof.
  revert i. induction count as [|count IH]; intros i Hi Hc; cbn [special_loop]; [eauto|].
  destruct (get_some spec i) as [c ->]; [lia|]. cbn [checked mbind res_bind].
  case_if; [eauto|]. apply IH; lia.
Qed.

Lemma CheckIPv6ComponentsSize_ok spec p nb :
  parsed_ok spec p -> CheckIPv6ComponentsSize p = Some nb ->
  0 <= nb /\ bytes_left p nb 0 = 16 - if is_valid (ipv4_component p) then 4 else 0.
Proof.
  intros (_ & Hn & Hidx & _) Hs. unfold CheckIPv6ComponentsSize in Hs. unfold bytes_left.
  destruct (is_valid (ipv4_component p)), (Z.eqb_spec (index_of_contraction p) (-1)) as [->|Hne];
    cbn [negb] in Hs; case_if_in Hs; try done; injection Hs as <-; to_prop;
    rewrite ?(proj2 (Z.leb_le 0 _)) by lia; cbn; lia.
Qed.

Lemma DoIPv6AddressToNumber_ok spec host a :
  inside spec host -> zlen a = 16 ->
  exists b a', DoIPv6AddressToNumber spec host a = Ok (b, a') /\ same_bytes a a'.
Proof.
  intros (Hb & Hlen & He) Ha. unfold UrlChars.end_ in He.
  assert (H : yields (DoIPv6AddressToNumber spec host a) (fun r => same_bytes a (snd r))).
  2: { apply yields_eq in H as ([b a'] & ? & ?). eauto. }
  unfold DoIPv6AddressToNumber, is_nonempty. case_if; [done|]. to_prop.
  apply yields_get; [lia|]. intros c Hc. case_if; [done|]. unfold UrlChars.end_.
  apply yields_get; [lia|]. intros d Hd. case_if; [done|]. to_prop.
  assert (Hlen2 : len host <> 1).
  { intros Hl. rewrite Hl in Hd. replace (begin_ host + 1 - 1) with (begin_ host) in Hd by lia.
    rewrite Hc in Hd. injection Hd as <-. subst c. lia. }
  apply (yields_bind _ _ (fun r => fst r = true -> parsed_ok spec (snd r))).
  { unfold DoParseIPv6, is_nonempty. cbn [len]. case_if; [done|].
    apply parse_loop_ok; unfold UrlChars.end_; cbn [begin_ len]; try lia.
    split_and!; cbn; try done; try lia. }
  intros [[] p]; cbn [fst snd]; [|done]. intros Hp. specialize (Hp eq_refl). cbn [negb].
  pose proof Hp as (_ & Hn & Hidx & _ & H4).
  destruct (CheckIPv6ComponentsSize p) as [nb|] eqn:Hsize; [|done].
  destruct (CheckIPv6ComponentsSize_ok spec p nb Hp Hsize) as [Hnb Htotal].
  eapply yields_bind; [apply (address_loop_ok spec p nb a _ 0 0 a Hp Hnb); try lia|].
  { rewrite Htotal, Ha. case_if; lia. } { by split. }
  intros [cur a'] [Hcur Hs]. cbn [fst snd] in *. rewrite Htotal in Hcur.
  case_if; [|done]. eapply yields_bind.
  { apply DoIPv4AddressToNumber_ok; [by apply H4|lia|]. destruct Hs as [-> _]. lia. }
  intros [[f a''] n] Hs'. cbn. destruct Hs, Hs'. split; [congruence|auto].
Qed.

Lemma DoIPv4AddressToNumber_any spec host a :
  inside spec host \/ len host <= 0 -> zlen a = 16 ->
  exists f a' n, DoIPv4AddressToNumber spec host 0 a = Ok (f, a', n) /\ same_bytes a a'.
Proof.
  intros [Hin|Hneg] Ha.
  - pose proof (DoIPv4AddressToNumber_ok spec host 0 a Hin ltac:(lia) ltac:(lia)) as H.
    apply yields_eq in H as ([[f a'] n] & H & Hs). eauto 6.
  - exists NEUTRAL, a, None. split; [|done]. unfold DoIPv4AddressToNumber, DoFindIPv4Components, is_nonempty.
    by rewrite (proj2 (Z.ltb_ge 0 _)) by done.
Qed.

Lemma DoIPv6AddressToNumber_any spec host a :
  inside spec host \/ len host <= 0 -> zlen a = 16 ->
  exists b a', DoIPv6AddressToNumber spec host a = Ok (b, a') /\ same_bytes a a'.
Proof.
  intros [Hin|Hneg] Ha; [by apply DoIPv6AddressToNumber_ok|].
  exists false, a. split; [|done]. unfold DoIPv6AddressToNumber, is_nonempty.
  by rewrite (proj2 (Z.ltb_ge 0 _)) by done.
Qed.

Lemma append_no_output a text output f :
  text_of f a text -> match f with
                      | IPV4 => AppendIPv4Address a output = Ok (output ++ text)
                      | IPV6 => exists inner, AppendIPv6Address a (output ++ ["["%ch]) = Ok ((output ++ ["["%ch]) ++ inner)
                                  /\ ((output ++ ["["%ch]) ++ inner) ++ ["]"%ch] = output ++ text
                      | _ => False
                      end.
Proof.
  destruct f; try done. intros (inner & -> & H). exists inner.
  split; [apply H|]. by rewrite <- !app_assoc.
Qed.

(** The bytes of the result are bytes, and when the result is an address, its
    canonical text was appended to the output and is canonical: anywhere else
    it gives the same family, address and text. *)
Definition settled (output output' : list Z) (h' : CanonHostInfo) : Prop :=
  zlen (UrlIp.address h') = 16 /\ Forall is_byte (UrlIp.address h') /\
  if IsIPAddress h' then
    exists text, output' = output ++ text /\ out_host h' = mkComponent (zlen output) (zlen text) /\
      forall pre post output2 h2, zlen (UrlIp.address h2) = 16 ->
        canonical (family h') (UrlIp.address h') text output2
          (CanonicalizeIPAddress (pre ++ text ++ post) (mkComponent (zlen pre) (zlen text)) output2 h2)
  else output' = output.

Lemma settled_address output text f n a :
  zlen a = 16 -> Forall is_byte a -> text_of f a text ->
  settled output (output ++ text)
    (mkCanonHostInfo f n (mkComponent (zlen output) (zlen (output ++ text) - zlen output)) a).
Proof.
  intros Hl Hb Ht. split; [done|]. split; [done|].
  assert (IsIPAddress (mkCanonHostInfo f n
    (mkComponent (zlen output) (zlen (output ++ text) - zlen output)) a) = true) as ->.
  { by destruct f. }
  exists text. split; [done|]. split; [cbn; f_equal; rewrite zlen_app; lia|].
  intros. destruct f; try done; [by apply canonical_IPV4|by apply canonical_IPV6].
Qed.

Lemma settles_IPV6 spec host output h :
  inside spec host \/ len host <= 0 ->
  zlen (UrlIp.address h) = 16 -> Forall is_byte (UrlIp.address h) ->
  exists final output' h', DoCanonicalizeIPv6Address spec host output h = Ok (final, output', h') /\
    settled output output' h'.
Proof.
  intros Hh Hl Hb. unfold DoCanonicalizeIPv6Address.
  destruct (DoIPv6AddressToNumber_any spec host _ Hh Hl) as (b & a & -> & Hla & Hba).
  rewrite Hl in Hla. specialize (Hba Hb). cbn [mbind res_bind]. destruct b; cbn [negb].
  - destruct (text_of_IPV6 a Hla Hba) as (text & Ht).
    destruct (append_no_output a text output IPV6 Ht) as (inner & Hin & Hout).
    rewrite Hin. cbn [mbind res_bind]. rewrite Hout. do 3 eexists. split; [done|].
    by apply settled_address.
  - assert (exists s, special_loop (Z.to_nat (len host)) spec (begin_ host) = Ok s) as [s ->].
    { destruct Hh as [(? & ? & He)|Hneg]; [apply special_loop_ok; unfold UrlChars.end_ in He; lia|].
      exists false. by replace (Z.to_nat (len host)) with 0%nat by lia. }
    cbn [mbind res_bind]. destruct s; do 3 eexists; (split; [done|]); by split_and!.
Qed.

(** C32. Whatever the text and the host in it are, canonicalizing an IP address
    ends, and no access leaves the text, the list of components, the numbers
    read or the address.  When the result is an address, its canonical text
    was appended to the output, and canonicalizing that text anywhere else
    gives the same family, the same address and the same text. *)
Theorem ip_canonicalization_settles spec host output h :
  inside spec host \/ len host <= 0 ->
  zlen (UrlIp.address h) = 16 -> Forall is_byte (UrlIp.address h) ->
  exists output' h', CanonicalizeIPAddress spec host output h = Ok (output', h') /\
    settled output output' h'.
Proof.
  intros Hh Hl Hb. unfold CanonicalizeIPAddress, DoCanonicalizeIPv4Address.
  destruct (DoIPv4AddressToNumber_any spec host _ Hh Hl) as (f & a & n & -> & Hla & Hba).
  rewrite Hl in Hla. specialize (Hba Hb). cbn [mbind res_bind].
  assert (H6 : forall g m o, exists output' h',
    ('(final, output, host_info) ← DoCanonicalizeIPv6Address spec host output (mkCanonHostInfo g m o a);
     Ok (output, host_info)) = Ok (output', h') /\ settled output output' h').
  { intros g m o. destruct (settles_IPV6 spec host output (mkCanonHostInfo g m o a) Hh Hla Hba)
      as (final & output' & h' & -> & Hs). by exists output', h'. }
  destruct f; cbn [negb]; [apply H6| | |apply H6].
  - do 2 eexists. split; [done|]. by split_and!.
  - destruct (text_of_IPV4 a Hla Hba) as (text & Ht). rewrite (append_no_output a text output IPV4 Ht).
    cbn [mbind res_bind]. do 2 eexists. split; [done|]. by apply settled_address.
Qed.

(** The groups from [k] to [k + n] of an address are zero. *)
Definition zero_groups (a : list Z) (k n : Z) : Prop :=
  0 <= k /\ k + n <= 8 /\ forall j, 2 * k <= j < 2 * (k + n) -> get a j = Some 0.

Lemma zero_groups_run gs k n :
  length gs = 8%nat -> Forall (in_u 16) gs -> 0 <= n ->
  zero_groups (flat gs) k n <-> 0 <= k /\ zero_run (zero_bits gs) (Z.to_nat k) (Z.to_nat n) = true.
Proof.
  intros Hl Hg Hn. unfold zero_groups, zero_run, zero_bits. rewrite length_map, Hl.
  rewrite andb_true_iff, Nat.leb_le.
  assert (Hget : forall i, 0 <= i < 8 -> exists g, gs !! Z.to_nat i = Some g /\ in_u 16 g /\
            get (flat gs) (2 * i) = Some (g / 256) /\ get (flat gs) (2 * i + 1) = Some (g mod 256)).
  { intros i Hi. destruct (lookup_lt_is_Some_2 gs (Z.to_nat i)) as [g Hi']; [lia|].
    exists g. split; [done|]. split; [by eapply Forall_lookup_1|].
    apply list_elem_of_split_length in Hi' as (g1 & g2 & Heq & Hlen).
    rewrite Heq. replace i with (zlen g1) by (unfold zlen; lia). apply get_flat. }
  rewrite skipn_map, firstn_map, forallb_forall.
  split.
  - intros (Hk & Hkn & Hz). split_and!; [done|lia|]. intros b Hb. apply in_map_iff in Hb as (g & <- & Hb).
    apply list_elem_of_In, list_elem_of_lookup in Hb as (j & Hj).
    apply lookup_take_Some in Hj as [Hj Hlt]. rewrite lookup_drop in Hj.
    destruct (Hget (k + Z.of_nat j)) as (g' & Hg' & Hu & H1 & H2); [lia|].
    replace (Z.to_nat (k + Z.of_nat j)) with (Z.to_nat k + j)%nat in Hg' by lia.
    assert (g' = g) as -> by congruence. rewrite Hz in H1, H2 by lia.
    unfold id. apply Z.eqb_eq, zero_group; [done|]. split; congruence.
  - intros (Hk & Hkn & Hz). split_and!; [done|lia|]. intros j Hj.
    destruct (Hget (j / 2)) as (g & Hg' & Hu & H1 & H2).
    { split; [apply Z.div_pos; lia|apply Z.div_lt_upper_bound; lia]. }
    assert (g = 0) as ->.
    { assert (Hin : id (g =? 0) = true); [|unfold id in Hin; lia]. apply Hz, in_map_iff.
      exists g. split; [done|]. apply list_elem_of_In, list_elem_of_lookup.
      exists (Z.to_nat (j / 2) - Z.to_nat k)%nat.
      assert (k <= j / 2) by (apply Z.div_le_lower_bound; lia).
      assert (j / 2 < k + n) by (apply Z.div_lt_upper_bound; lia).
      apply lookup_take_Some. split; [|lia]. rewrite lookup_drop. by replace (_ + _)%nat with (Z.to_nat (j / 2)) by lia. }
    pose proof (Z.div_mod j 2 ltac:(lia)). pose proof (Z.mod_pos_bound j 2 ltac:(lia)).
    destruct (Z.eq_dec (j mod 2) 0).
    + by replace j with (2 * (j / 2)) by lia.
    + by replace j with (2 * (j / 2) + 1) by lia.
Qed.

(** The range that is written as two colons. *)
Lemma contraction_range a :
  zlen a = 16 -> Forall is_byte a ->
  exists r, ChooseIPv6ContractionRange a = Ok r /\
    (len r = -1 \/ exists k n, begin_ r = 2 * k /\ len r = 2 * n /\ 2 <= n /\ zero_groups a k n) /\
    forall k n, 2 <= n -> zero_groups a k n ->
      2 * n < len r \/ (2 * n = len r /\ begin_ r <= 2 * k).
Proof.
  intros Hl Hb. destruct (flat_exists 8 a) as (gs & -> & Hn & Hg); [done|done|].
  rewrite choose_bits by done. eexists. split; [done|].
  pose proof (range_bits_best (zero_bits gs)) as Hbest. unfold zero_bits in Hbest at 1.
  rewrite length_map in Hbest. specialize (Hbest Hn). unfold best_run in Hbest.
  set (r := range_bits _ _ _ _) in *. clearbody r. apply andb_true_iff in Hbest as [Hsome Hall]. split.
  - destruct (Z.eqb_spec (len r) (-1)); [by left|right].
    apply existsb_exists in Hsome as (k & _ & H). apply existsb_exists in H as (m & _ & H).
    rewrite !andb_true_iff, !Z.eqb_eq, Nat.leb_le in H. destruct H as [[[H1 H2] H3] H4].
    exists (Z.of_nat k), (Z.of_nat m). split_and!; [done|done|lia|]. apply zero_groups_run; [done|done|lia|].
    rewrite !Nat2Z.id. split; [lia|done].
  - intros k n Hn2 Hz. pose proof Hz as (Hk & Hkn & _). apply zero_groups_run in Hz as [_ Hz]; [|done|done|lia].
    rewrite forallb_forall in Hall. specialize (Hall (Z.to_nat k)). rewrite in_seq in Hall.
    specialize (Hall ltac:(lia)). rewrite forallb_forall in Hall. specialize (Hall (Z.to_nat n)).
    rewrite in_seq in Hall. specialize (Hall ltac:(lia)). rewrite Hz, andb_true_r in Hall.
    rewrite (proj2 (Nat.leb_le 2 _)) in Hall by lia. cbn [implb] in Hall.
    rewrite !Z2Nat.id in Hall by lia. rewrite orb_true_iff, andb_true_iff in Hall. lia.
Qed.

(** C33. An IPv6 address of eight groups is written as the hexadecimal digits of
    the groups with colons between them, when no two neighbouring groups are
    zero, and otherwise with two colons in the place of the first of the
    longest runs of zero groups, and the others before and behind them; put
    between brackets, what is written is read back as the same sixteen bytes,
    wherever it is in a text. *)
Theorem ipv6_text_roundtrip a pre post memory :
  zlen a = 16 -> Forall is_byte a -> zlen memory = 16 ->
  exists gs text, a = flat gs /\ length gs = 8%nat /\ Forall (in_u 16) gs /\ AppendIPv6Address a [] = Ok text /\
    (text = join (map hex gs) /\ (forall k n, 2 <= n -> ~ zero_groups a k n) \/
     exists before n after, gs = before ++ repeat 0 n ++ after /\ (2 <= n)%nat /\
       text = (if (length before =? 0)%nat then [":"%ch] else colonize (map hex before)) ++ [":"%ch] ++ join (map hex after) /\
       forall k m, 2 <= m -> zero_groups a k m -> m < Z.of_nat n \/ (m = Z.of_nat n /\ zlen before <= k)) /\
    DoIPv6AddressToNumber (pre ++ ("["%ch :: text ++ ["]"%ch]) ++ post)
      (mkComponent (zlen pre) (zlen text + 2)) memory = Ok (true, a).
Proof.
  intros Hl Hb Hm. destruct (contraction_range a Hl Hb) as (r & Er & _ & Hbest).
  destruct (flat_exists 8 a) as (gs & -> & Hn & Hg); [done|done|].
  destruct (AppendIPv6Address_text gs Hn Hg) as (text & r' & Hout & Er' & Htext). rewrite Er in Er'. injection Er' as <-.
  exists gs, text. split; [done|]. split; [done|]. split; [done|]. split; [apply (Hout [])|].
  split; [|apply IPv6_canonical; [done|done|done|apply (Hout [])]].
  destruct Htext as [[Elen ->]|(before & n & after & Eg & Hn2 & Eb & El & ->)]; [left|right].
  - split; [done|]. intros k n Hn2 Hz. specialize (Hbest k n Hn2 Hz). lia.
  - exists before, n, after. split; [done|]. split; [done|]. split; [done|]. intros k m Hm2 Hz. specialize (Hbest k m Hm2 Hz). lia.
Qed.

(** *** Witnesses *)
Ltac bytes := cbn [repeat app]; rewrite !Forall_cons; unfold is_byte; split_and!; try lia; try constructor.

Lemma ip_canonicalization_settles_witness :
  exists output' h', CanonicalizeIPAddress (str "//[::c0A8:1]:80/") (mkComponent 2 10) (str "x")
    (new_CanonHostInfo (repeat 255 16)) = Ok (output', h') /\
    settled (str "x") output' h'.
Proof.
  apply ip_canonicalization_settles.
  - left. by vm_compute.
  - reflexivity.
  - change (Forall is_byte (repeat 255 16)). by bytes.
Defined.

Lemma ipv6_text_roundtrip_witness :
  let a := [0; 1; 0; 0; 0; 0; 0; 9; 0; 0; 0; 0; 0; 7; 0; 0] in
  AppendIPv6Address a [] = Ok (str "1::9:0:0:7:0") /\
  DoIPv6AddressToNumber (str "http://[1::9:0:0:7:0]/") (mkComponent 7 14) (repeat 7 16) = Ok (true, a).
Proof.
  intros a. assert (E : AppendIPv6Address a [] = Ok (str "1::9:0:0:7:0")) by (vm_compute; reflexivity). split; [exact E|].
  destruct (ipv6_text_roundtrip a (str "http://") (str "/") (repeat 7 16)) as (gs & text & _ & _ & _ & Et & _ & Hread); [reflexivity|unfold a; by bytes|reflexivity|].
  rewrite E in Et. injection Et as <-. exact Hread.
Defined.
