(* ===== verification/UrlPath.v ===== *)
(** The paths of URLs, url/url_canon_path.cc: escaping, and the removal of the
    directories "." and "..". *)
From S2P Require Import Prelude CArrays UrlChars.

(** ** Reading characters that are not ASCII

    ICU is not part of the sources: its macros for code points and UTF-16 are
    operations of a class, and what the path code relies on is its law. *)
Class Icu := {
  U_IS_UNICODE_CHAR : Z -> bool;
  U16_IS_SURROGATE : Z -> bool;
  U16_IS_SURROGATE_LEAD : Z -> bool;
  U16_IS_TRAIL : Z -> bool;
  U16_GET_SUPPLEMENTARY : Z -> Z -> Z
}.

(** Unicode characters are code points. *)
Class IcuLaws `(Icu) := {
  unicode_char_range c : U_IS_UNICODE_CHAR c = true -> 0 <= c <= 0x10FFFF
}.

(* src: url/url_canon_internal.cc 234-234! kUnicodeReplacementCharacter *)
Definition kUnicodeReplacementCharacter : Z := 0xfffd.

(* src: url/url_canon_internal.cc 218-221! kHexCharLookup *)
Definition kHexCharLookup : list Z := str "0123456789ABCDEF".

(* src: url/url_canon_internal.cc 223-232! kCharToHexLookup *)
Definition kCharToHexLookup : list Z := [0; "0"%ch; "A"%ch - 10; "a"%ch - 10; 0; 0; 0; 0].

(* src: url/url_canon_internal.h 99-101! HexCharToValue *)
Definition HexCharToValue (c : Z) : Z := wrap_u 8 (c - at_ kCharToHexLookup (c / 0x20)).

(** The number of characters the dot takes. *)
(* src: url/url_canon_internal.h 106-117! IsDot *)
Definition IsDot (spec : list Z) (offset end_ : Z) : res Z :=
  c ← checked (get spec offset);
  if c =? "."%ch then Ok 1
  else if (c =? "%"%ch) && (offset + 3 <=? end_) then
    c1 ← checked (get spec (offset + 1));
    if c1 =? "2"%ch then
      c2 ← checked (get spec (offset + 2));
      if (c2 =? "e"%ch) || (c2 =? "E"%ch) then Ok 3 else Ok 0
    else Ok 0
  else Ok 0.

(* src: url/url_canon_internal.h 130-136! AppendEscapedChar *)
Definition AppendEscapedChar (ch : Z) (output : list Z) : list Z :=
  output ++ ["%"%ch; at_ kHexCharLookup (Z.land (Z.shiftr ch 4) 0xf);
             at_ kHexCharLookup (Z.land ch 0xf)].

(** With the appender that escapes; a value that is no code point fails a
    check. *)
(* src: url/url_canon_internal.h 162-194! DoAppendUTF8 *)
Definition DoAppendUTF8 (Appender : Z -> list Z -> list Z) (char_value : Z) (output : list Z)
    : res (list Z) :=
  let byte b := wrap_u 8 b in
  if char_value <=? 0x7f then Ok (Appender (byte char_value) output)
  else if char_value <=? 0x7ff then
    let output := Appender (byte (Z.lor 0xC0 (Z.shiftr char_value 6))) output in
    Ok (Appender (byte (Z.lor 0x80 (Z.land char_value 0x3f))) output)
  else if char_value <=? 0xffff then
    let output := Appender (byte (Z.lor 0xe0 (Z.shiftr char_value 12))) output in
    let output := Appender (byte (Z.lor 0x80 (Z.land (Z.shiftr char_value 6) 0x3f))) output in
    Ok (Appender (byte (Z.lor 0x80 (Z.land char_value 0x3f))) output)
  else if char_value <=? 0x10FFFF then
    let output := Appender (byte (Z.lor 0xf0 (Z.shiftr char_value 18))) output in
    let output := Appender (byte (Z.lor 0x80 (Z.land (Z.shiftr char_value 12) 0x3f))) output in
    let output := Appender (byte (Z.lor 0x80 (Z.land (Z.shiftr char_value 6) 0x3f))) output in
    Ok (Appender (byte (Z.lor 0x80 (Z.land char_value 0x3f))) output)
  else Failed.

(* src: url/url_canon_internal.h 214-216! AppendUTF8EscapedValue *)
Definition AppendUTF8EscapedValue : Z -> list Z -> res (list Z) := DoAppendUTF8 AppendEscapedChar.

(** [None] is an invalid escape sequence; otherwise the value, and the index of
    the last character of the sequence.  Every unit of a narrow text is at
    most 255. *)
(* src: url/url_canon_internal.h 304-325! DecodeEscaped *)
Definition DecodeEscaped (spec : list Z) (begin end_ : Z) : res (option (Z * Z)) :=
  if end_ <? begin + 3 then Ok None else
  c1 ← checked (get spec (begin + 1));
  if !(c1 <=? 255) then Ok None else
  c2 ← checked (get spec (begin + 2));
  if !(c2 <=? 255) then Ok None else
  let first := c1 mod 256 in
  let second := c2 mod 256 in
  if !(IsHexChar first) || !(IsHexChar second) then Ok None else
  Ok (Some (wrap_u 8 (Z.shiftl (HexCharToValue first) 4 + HexCharToValue second), begin + 2)).

(** ** The tables *)
(* src: url/url_canon_path.cc 14-40! CharacterFlags *)
Inductive CharacterFlags := PASS | SPECIAL | ESCAPE_BIT | ESCAPE | UNESCAPE | INVALID_BIT | INVALID.

(* src: url/url_canon_path.cc 14-40! CharacterFlags *)
Definition flag_bits (f : CharacterFlags) : Z :=
  match f with
  | PASS => 0 | SPECIAL => 1 | ESCAPE_BIT => 2 | ESCAPE => Z.lor 2 1 | UNESCAPE => 4
  | INVALID_BIT => 8 | INVALID => Z.lor 8 1
  end.

(* src: url/url_canon_path.cc 51-76! kPathCharLookup *)
Definition kPathCharLookup : list Z := map flag_bits [
   INVALID; ESCAPE; ESCAPE; ESCAPE; ESCAPE; ESCAPE; ESCAPE; ESCAPE; ESCAPE; ESCAPE; ESCAPE; ESCAPE; ESCAPE; ESCAPE; ESCAPE; ESCAPE;
   ESCAPE; ESCAPE; ESCAPE; ESCAPE; ESCAPE; ESCAPE; ESCAPE; ESCAPE; ESCAPE; ESCAPE; ESCAPE; ESCAPE; ESCAPE; ESCAPE; ESCAPE; ESCAPE;
   ESCAPE; PASS; ESCAPE; ESCAPE; PASS; ESCAPE; PASS; PASS; PASS; PASS; PASS; PASS; PASS; UNESCAPE; SPECIAL; PASS;
   UNESCAPE; UNESCAPE; UNESCAPE; UNESCAPE; UNESCAPE; UNESCAPE; UNESCAPE; UNESCAPE; UNESCAPE; UNESCAPE; PASS; PASS; ESCAPE; PASS; ESCAPE; ESCAPE;
   PASS; UNESCAPE; UNESCAPE; UNESCAPE; UNESCAPE; UNESCAPE; UNESCAPE; UNESCAPE; UNESCAPE; UNESCAPE; UNESCAPE; UNESCAPE; UNESCAPE; UNESCAPE; UNESCAPE; UNESCAPE;
   UNESCAPE; UNESCAPE; UNESCAPE; UNESCAPE; UNESCAPE; UNESCAPE; UNESCAPE; UNESCAPE; UNESCAPE; UNESCAPE; UNESCAPE; PASS; ESCAPE; PASS; ESCAPE; UNESCAPE;
   ESCAPE; UNESCAPE; UNESCAPE; UNESCAPE; UNESCAPE; UNESCAPE; UNESCAPE; UNESCAPE; UNESCAPE; UNESCAPE; UNESCAPE; UNESCAPE; UNESCAPE; UNESCAPE; UNESCAPE; UNESCAPE;
   UNESCAPE; UNESCAPE; UNESCAPE; UNESCAPE; UNESCAPE; UNESCAPE; UNESCAPE; UNESCAPE; UNESCAPE; UNESCAPE; UNESCAPE; ESCAPE; ESCAPE; ESCAPE; UNESCAPE; ESCAPE;
   ESCAPE; ESCAPE; ESCAPE; ESCAPE; ESCAPE; ESCAPE; ESCAPE; ESCAPE; ESCAPE; ESCAPE; ESCAPE; ESCAPE; ESCAPE; ESCAPE; ESCAPE; ESCAPE;
   ESCAPE; ESCAPE; ESCAPE; ESCAPE; ESCAPE; ESCAPE; ESCAPE; ESCAPE; ESCAPE; ESCAPE; ESCAPE; ESCAPE; ESCAPE; ESCAPE; ESCAPE; ESCAPE;
   ESCAPE; ESCAPE; ESCAPE; ESCAPE; ESCAPE; ESCAPE; ESCAPE; ESCAPE; ESCAPE; ESCAPE; ESCAPE; ESCAPE; ESCAPE; ESCAPE; ESCAPE; ESCAPE;
   ESCAPE; ESCAPE; ESCAPE; ESCAPE; ESCAPE; ESCAPE; ESCAPE; ESCAPE; ESCAPE; ESCAPE; ESCAPE; ESCAPE; ESCAPE; ESCAPE; ESCAPE; ESCAPE;
   ESCAPE; ESCAPE; ESCAPE; ESCAPE; ESCAPE; ESCAPE; ESCAPE; ESCAPE; ESCAPE; ESCAPE; ESCAPE; ESCAPE; ESCAPE; ESCAPE; ESCAPE; ESCAPE;
   ESCAPE; ESCAPE; ESCAPE; ESCAPE; ESCAPE; ESCAPE; ESCAPE; ESCAPE; ESCAPE; ESCAPE; ESCAPE; ESCAPE; ESCAPE; ESCAPE; ESCAPE; ESCAPE;
   ESCAPE; ESCAPE; ESCAPE; ESCAPE; ESCAPE; ESCAPE; ESCAPE; ESCAPE; ESCAPE; ESCAPE; ESCAPE; ESCAPE; ESCAPE; ESCAPE; ESCAPE; ESCAPE;
   ESCAPE; ESCAPE; ESCAPE; ESCAPE; ESCAPE; ESCAPE; ESCAPE; ESCAPE; ESCAPE; ESCAPE; ESCAPE; ESCAPE; ESCAPE; ESCAPE; ESCAPE; ESCAPE
].

(** [flags & f] *)
Definition has_flag (flags : Z) (f : CharacterFlags) : bool := !(Z.land flags (flag_bits f) =? 0).

(* src: url/url_parse_internal.h 15-17! IsURLSlash *)
Definition IsURLSlash (ch : Z) : bool := (ch =? "/"%ch) || (ch =? "\"%ch).

(** ** Dots *)
(* src: url/url_canon_path.cc 78-87! DotDisposition *)
Inductive DotDisposition := NOT_A_DIRECTORY | DIRECTORY_CUR | DIRECTORY_UP.

(** The disposition and the length consumed. *)
(* src: url/url_canon_path.cc 100-132! ClassifyAfterDot *)
Definition ClassifyAfterDot (spec : list Z) (after_dot end_ : Z) : res (DotDisposition * Z) :=
  if after_dot =? end_ then Ok (DIRECTORY_CUR, 0) else
  c ← checked (get spec after_dot);
  if IsURLSlash c then Ok (DIRECTORY_CUR, 1) else
  second_dot_len ← IsDot spec after_dot end_;
  if !(second_dot_len =? 0) then
    let after_second_dot := after_dot + second_dot_len in
    if after_second_dot =? end_ then Ok (DIRECTORY_UP, second_dot_len) else
    d ← checked (get spec after_second_dot);
    if IsURLSlash d then Ok (DIRECTORY_UP, second_dot_len + 1) else Ok (NOT_A_DIRECTORY, 0)
  else Ok (NOT_A_DIRECTORY, 0).

(* src: url/url_canon_path.cc 158-159! BackUpToPreviousSlash *)
Fixpoint back_loop (fuel : nat) (output : list Z) (path_begin i : Z) : res Z :=
  match fuel with
  | O => NoFuel
  | S fuel =>
      c ← checked (get output i);
      if !(c =? "/"%ch) && (path_begin <? i) then back_loop fuel output path_begin (i - 1) else Ok i
  end.

(* src: url/url_canon_path.cc 147-163! BackUpToPreviousSlash *)
Definition BackUpToPreviousSlash (path_begin_in_output : Z) (output : list Z) : res (list Z) :=
  checked (DCHECK (0 <? zlen output)) ;;
  let i := zlen output - 1 in
  c ← checked (get output i);
  checked (DCHECK (c =? "/"%ch)) ;;
  if i =? path_begin_in_output then Ok output else
  i ← back_loop (length output) output path_begin_in_output (i - 1);
  Ok (take (Z.to_nat (i + 1)) output).

(** ** The path *)
Section path.
Context `{Icu}.

(** The code point, the index of the last unit consumed, and whether the
    text was valid. *)
(* src: url/url_canon_icu.cc 204-228! ReadUTFChar *)
Definition ReadUTFChar (spec : list Z) (begin length : Z) : res (Z * Z * bool) :=
  c ← checked (get spec begin);
  r ← (if U16_IS_SURROGATE c then
         if !(U16_IS_SURROGATE_LEAD c) || (length <=? begin + 1) then Ok None else
         d ← checked (get spec (begin + 1));
         if !(U16_IS_TRAIL d) then Ok None
         else Ok (Some (U16_GET_SUPPLEMENTARY c d, begin + 1))
       else Ok (Some (c, begin)));
  match r with
  | None => Ok (kUnicodeReplacementCharacter, begin, false)
  | Some (code_point, begin) =>
      if U_IS_UNICODE_CHAR code_point then Ok (code_point, begin, true)
      else Ok (kUnicodeReplacementCharacter, begin, false)
  end.

(* src: url/url_canon_internal.h 265-274! AppendUTF8EscapedChar *)
Definition AppendUTF8EscapedChar (spec : list Z) (begin length : Z) (output : list Z)
    : res (list Z * Z * bool) :=
  '(char_value, begin, success) ← ReadUTFChar spec begin length;
  output ← AppendUTF8EscapedValue char_value output;
  Ok (output, begin, success).

(** A dot, which takes [dotlen] characters; the index of its last character
    used and the output. *)
(* src: url/url_canon_path.cc 202-237! DoPartialPath *)
Definition append_dot (spec : list Z) (end_ path_begin i dotlen : Z) (output : list Z)
    : res (Z * list Z) :=
  checked (DCHECK (path_begin <? zlen output)) ;;
  slash ← (if path_begin <? zlen output
           then c ← checked (get output (zlen output - 1)); Ok (c =? "/"%ch)
           else Ok false);
  if slash : bool then
    '(disposition, consumed_len) ← ClassifyAfterDot spec (i + dotlen) end_;
    match disposition with
    | NOT_A_DIRECTORY => Ok (i + (dotlen - 1), output ++ ["."%ch])
    | DIRECTORY_CUR => Ok (i + (dotlen + consumed_len - 1), output)
    | DIRECTORY_UP =>
        output ← BackUpToPreviousSlash path_begin output;
        Ok (i + (dotlen + consumed_len - 1), output)
    end
  else Ok (i + (dotlen - 1), output ++ ["."%ch]).

(** A percent sign: the last index, the output, and whether it was valid. *)
(* src: url/url_canon_path.cc 243-276! DoPartialPath *)
Definition append_percent (spec : list Z) (end_ i : Z) (output : list Z) : res (Z * list Z * bool) :=
  decoded ← DecodeEscaped spec i end_;
  match decoded with
  | Some (unescaped_value, i) =>
      let unescaped_flags := at_ kPathCharLookup unescaped_value in
      if has_flag unescaped_flags UNESCAPE then Ok (i, output ++ [unescaped_value], true) else
      a ← checked (get spec (i - 1));
      b ← checked (get spec i);
      let output := output ++ ["%"%ch; a mod 256; b mod 256] in
      Ok (i, output, !(has_flag unescaped_flags INVALID_BIT))
  | None => Ok (i, output ++ ["%"%ch], true)
  end.

(** One turn of the loop.  [wide] is [sizeof(CHAR) > sizeof(char)]. *)
(* src: url/url_canon_path.cc 187-290! DoPartialPath *)
Definition path_turn (wide : bool) (spec : list Z) (end_ path_begin i : Z) (output : list Z)
    : res (Z * list Z * bool) :=
  uch ← checked (get spec i);
  if wide && (0x80 <=? uch) then
    '(output, i, success) ← AppendUTF8EscapedChar spec i end_ output;
    Ok (i, output, success)
  else
    let out_ch := uch mod 256 in
    let flags := at_ kPathCharLookup out_ch in
    if has_flag flags SPECIAL then
      dotlen ← IsDot spec i end_;
      if 0 <? dotlen then
        '(i, output) ← append_dot spec end_ path_begin i dotlen output;
        Ok (i, output, true)
      else if out_ch =? "\"%ch then Ok (i, output ++ ["/"%ch], true)
      else if out_ch =? "%"%ch then append_percent spec end_ i output
      else if has_flag flags INVALID_BIT then Ok (i, AppendEscapedChar out_ch output, false)
      else if has_flag flags ESCAPE_BIT then Ok (i, AppendEscapedChar out_ch output, true)
      else Ok (i, output, true)
    else Ok (i, output ++ [out_ch], true).

(* src: url/url_canon_path.cc 186-292! DoPartialPath *)
Fixpoint path_loop (fuel : nat) (wide : bool) (spec : list Z) (end_ path_begin i : Z)
    (output : list Z) (success : bool) : res (bool * list Z) :=
  match fuel with
  | O => NoFuel
  | S fuel =>
      if i <? end_ then
        '(i, output, ok) ← path_turn wide spec end_ path_begin i output;
        path_loop fuel wide spec end_ path_begin (i + 1) output (success && ok)
      else Ok (success, output)
  end.

(* src: url/url_canon_path.cc 178-294! DoPartialPath *)
Definition DoPartialPath (wide : bool) (spec : list Z) (path : Component)
    (path_begin_in_output : Z) (output : list Z) : res (bool * list Z) :=
  path_loop (S (Z.to_nat (len path))) wide spec (UrlChars.end_ path) path_begin_in_output
    (begin_ path) output true.

(* src: url/url_canon_path.cc 296-318! DoPath *)
Definition DoPath (wide : bool) (spec : list Z) (path : Component) (output : list Z)
    : res (bool * list Z * Component) :=
  let begin := zlen output in
  '(success, output) ←
    (if 0 <? len path then
       c ← checked (get spec (begin_ path));
       let output := if !(IsURLSlash c) then output ++ ["/"%ch] else output in
       DoPartialPath wide spec path begin output
     else Ok (true, output ++ ["/"%ch]));
  Ok (success, output, mkComponent begin (zlen output - begin)).
End path.
