(* ===== verification/UrlPathProperties.v ===== *)
(** Canonical paths: they hold no directories "." and ".." and only the
    characters a path may hold, and canonicalizing them again changes nothing
    unless they hold an escape that should have been resolved. *)
From S2P Require Import Prelude CArrays UrlChars UrlPath.

(** ** Segments *)

(** The directories and the file name of a path. *)
Fixpoint segments_from (cur : list Z) (path : list Z) : list (list Z) :=
  match path with
  | [] => [cur]
  | c :: path => if c =? "/"%ch then cur :: segments_from [] path
                 else segments_from (cur ++ [c]) path
  end.
Definition segments (path : list Z) : list (list Z) := segments_from [] path.

Definition dots (s : list Z) : Prop := s = str "." \/ s = str "..".

(** The segment under construction, when no finished one is a dot segment. *)
Inductive scan : list Z -> list Z -> Prop :=
  | scan_nil : scan [] []
  | scan_slash p s : scan p s -> ~ dots s -> scan (p ++ ["/"%ch]) []
  | scan_char p s c : scan p s -> c <> "/"%ch -> scan (p ++ [c]) (s ++ [c]).

Lemma segments_from_snoc p cur c :
  exists ss s, segments_from cur p = ss ++ [s] /\
    segments_from cur (p ++ [c]) = if c =? "/"%ch then ss ++ [s; []] else ss ++ [s ++ [c]].
Proof.
  revert cur. induction p as [|x p IH]; intros cur; cbn [app segments_from].
  - exists [], cur. split; [done|]. by destruct (c =? "/"%ch).
  - destruct (x =? "/"%ch).
    + destruct (IH []) as (ss & s & H1 & H2). exists (cur :: ss), s. rewrite H1, H2.
      split; [done|]. by destruct (c =? "/"%ch).
    + apply IH.
Qed.

Lemma scan_segments p s :
  scan p s -> exists ss, segments p = ss ++ [s] /\ Forall (fun t => ~ dots t) ss.
Proof.
  intros H. induction H as [|p s H IH Hd|p s c H IH Hc].
  - by exists [].
  - destruct IH as (ss & Hs & Hf). destruct (segments_from_snoc p [] "/"%ch) as (ss' & s' & H1 & H2).
    unfold segments in *. rewrite H1 in Hs. apply app_inj_tail in Hs as [-> ->].
    rewrite H2, Z.eqb_refl. exists (ss ++ [s]). split; [by rewrite <- app_assoc|].
    apply Forall_app. split; [done|by constructor].
  - destruct IH as (ss & Hs & Hf). destruct (segments_from_snoc p [] c) as (ss' & s' & H1 & H2).
    unfold segments in *. rewrite H1 in Hs. apply app_inj_tail in Hs as [-> ->].
    rewrite H2, (proj2 (Z.eqb_neq c _) Hc). by exists ss.
Qed.

Lemma scan_fun p s : scan p s -> forall t, scan p t -> s = t.
Proof.
  intros Hs t Ht. destruct (scan_segments p s Hs) as (ss & Es & _), (scan_segments p t Ht) as (ts & Et & _).
  rewrite Es in Et. by apply app_inj_tail in Et as [_ ->].
Qed.

(** A word without a slash that is not only dots. *)
Lemma scan_word p s w :
  scan p s -> Forall (fun c => c <> "/"%ch) w -> scan (p ++ w) (s ++ w).
Proof.
  intros Hs. revert p s Hs. induction w as [|c w IH]; intros p s Hs Hw.
  - by rewrite !app_nil_r.
  - apply Forall_cons in Hw as [Hc Hw]. change (c :: w) with ([c] ++ w). rewrite !app_assoc.
    apply IH; [by constructor|done].
Qed.

Lemma not_dots s w c : c ∈ w -> c <> "."%ch -> ~ dots (s ++ w).
Proof.
  intros Hin Hc Hd. assert (Hall : Forall (fun x => x = "."%ch) (s ++ w)).
  { destruct Hd as [->| ->]; by repeat constructor. }
  apply Forall_app in Hall as [_ Hw]. by eapply Forall_forall in Hw.
Qed.

(** The segment is empty at the start and behind a slash. *)
Lemma scan_last p s :
  scan p s -> s = [] <-> p = [] \/ exists q, p = q ++ ["/"%ch].
Proof.
  intros H. destruct H as [|p s H Hd|p s c H Hc].
  - by split; [left|].
  - split; [right; eauto|done].
  - split; [by intros Hn; destruct s|]. intros [Hn|[q Hq]]; [by destruct p|].
    apply app_inj_tail in Hq as [_ ->]. done.
Qed.

(** The text up to a slash is finished. *)
Lemma scan_prefix p s : scan p s -> forall q r, p = q ++ "/"%ch :: r -> scan (q ++ ["/"%ch]) [].
Proof.
  intros H. induction H as [|p s H IH Hd|p s c H IH Hc]; intros q r Heq.
  - by destruct q.
  - destruct r as [|x r _] using rev_ind.
    + assert (p = q) as -> by (by apply app_inj_tail in Heq as [-> _]). by econstructor.
    + apply (IH q r). change ("/"%ch :: r ++ [x]) with (("/"%ch :: r) ++ [x]) in Heq.
      rewrite app_assoc in Heq. by apply app_inj_tail in Heq as [-> _].
  - destruct r as [|x r _] using rev_ind.
    + by apply app_inj_tail in Heq as [_ ->].
    + apply (IH q r). change ("/"%ch :: r ++ [x]) with (("/"%ch :: r) ++ [x]) in Heq.
      rewrite app_assoc in Heq. by apply app_inj_tail in Heq as [-> _].
Qed.

(** ** The characters of a canonical path *)
Definition path_char (c : Z) : Prop :=
  0 <= c < 128 /\ (has_flag (at_ kPathCharLookup c) SPECIAL = false \/ c = "."%ch \/ c = "%"%ch).

#[local] Instance path_char_dec c : Decision (path_char c).
Proof. unfold path_char. apply _. Defined.

(** What the table says of each character. *)
Lemma table_facts : forall c,
  0 <= c < 256 ->
  (has_flag (at_ kPathCharLookup c) SPECIAL = false -> path_char c) /\
  (has_flag (at_ kPathCharLookup c) UNESCAPE = true -> path_char c /\ c <> "/"%ch /\ c <> "."%ch) /\
  (IsHexChar c = true -> path_char c /\ c <> "/"%ch) /\
  (c = "."%ch \/ c = "%"%ch \/ c = "\"%ch -> has_flag (at_ kPathCharLookup c) SPECIAL = true) /\
  (has_flag (at_ kPathCharLookup c) SPECIAL = true ->
     c = "."%ch \/ c = "%"%ch \/ c = "\"%ch \/ has_flag (at_ kPathCharLookup c) INVALID_BIT = true \/
     has_flag (at_ kPathCharLookup c) ESCAPE_BIT = true).
Proof. compute_below 256%nat. Qed.

Lemma hex_lookup : forall n, 0 <= n < 16 ->
  path_char (at_ kHexCharLookup n) /\ at_ kHexCharLookup n <> "/"%ch.
Proof. compute_below 16%nat. Qed.

(** A word that is appended: no slash, and not only dots. *)
Definition word (w : list Z) : Prop :=
  Forall (fun c => path_char c /\ c <> "/"%ch) w /\ exists c, c ∈ w /\ c <> "."%ch.

Lemma path_char_percent : path_char "%"%ch.
Proof. by apply (bool_decide_eq_true_1 _). Qed.

Lemma word_escape c d :
  path_char c -> c <> "/"%ch -> path_char d -> d <> "/"%ch -> word ["%"%ch; c; d].
Proof.
  intros. split.
  - rewrite !Forall_cons. by split_and!; [apply path_char_percent|..].
  - exists "%"%ch. split; [by left|done].
Qed.

Lemma word_app w1 w2 : word w1 -> word w2 -> word (w1 ++ w2).
Proof.
  intros [H1 (c & Hc & Hd)] [H2 _]. split; [by apply Forall_app|]. exists c. split; [|done].
  apply elem_of_app. by left.
Qed.

Lemma nibble_range z : 0 <= Z.land z 0xf < 16.
Proof. change 0xf with (Z.ones 4). rewrite Z.land_ones by lia. apply Z.mod_pos_bound. lia. Qed.

Lemma AppendEscapedChar_word ch output :
  exists w, AppendEscapedChar ch output = output ++ w /\ word w.
Proof.
  eexists. split; [done|].
  destruct (hex_lookup _ (nibble_range (Z.shiftr ch 4))), (hex_lookup _ (nibble_range ch)).
  by apply word_escape.
Qed.

(** *** Escaped code points *)
Lemma two_escapes a b output :
  exists w, AppendEscapedChar a (AppendEscapedChar b output) = output ++ w /\ word w.
Proof.
  destruct (AppendEscapedChar_word b output) as (w1 & -> & Hw1).
  destruct (AppendEscapedChar_word a (output ++ w1)) as (w2 & -> & Hw2).
  exists (w1 ++ w2). split; [by rewrite app_assoc|by apply word_app].
Qed.

Lemma AppendUTF8EscapedValue_word v output :
  0 <= v <= 0x10FFFF -> exists w, AppendUTF8EscapedValue v output = Ok (output ++ w) /\ word w.
Proof.
  intros Hv. unfold AppendUTF8EscapedValue, DoAppendUTF8. cbv zeta.
  assert (Hok : forall o o', (exists w, o' = o ++ w /\ word w) -> exists w, Ok o' = Ok (o ++ w) /\ word w).
  { intros o o' (w & -> & Hw). eauto. }
  repeat case_if; to_prop; [| | | |lia]; apply Hok.
  - apply AppendEscapedChar_word.
  - apply two_escapes.
  - match goal with |- exists w, AppendEscapedChar ?a (AppendEscapedChar ?b ?o) = _ /\ _ =>
      destruct (two_escapes a b o) as (w & -> & Hw) end.
    edestruct AppendEscapedChar_word as (w' & -> & Hw').
    exists (w' ++ w). split; [by rewrite app_assoc|by apply word_app].
  - match goal with |- exists w, AppendEscapedChar ?a (AppendEscapedChar ?b ?o) = _ /\ _ =>
      destruct (two_escapes a b o) as (w & -> & Hw) end.
    edestruct two_escapes as (w' & -> & Hw').
    exists (w' ++ w). split; [by rewrite app_assoc|by apply word_app].
Qed.

(** ** Going up one directory *)
Section back.
Context (pre : list Z).

Lemma back_up_loop_ok p fuel i :
  (exists q, p = "/"%ch :: q) -> zlen pre <= i < zlen (pre ++ p) -> (Z.to_nat (i - zlen pre) < fuel)%nat ->
  exists q r, back_loop fuel (pre ++ p) (zlen pre) i = Ok (zlen pre + zlen q) /\
    p = q ++ "/"%ch :: r.
Proof.
  intros Hp. revert i. induction fuel as [|fuel IH]; intros i Hi Hf; [lia|]. cbn [back_loop].
  pose proof (zlen_nonneg pre). destruct (get_some (pre ++ p) i) as [c Hc]; [lia|]. rewrite (checked_get _ _ _ _ Hc).
  assert (Hsplit : exists q r, p = q ++ c :: r /\ i = zlen pre + zlen q).
  { unfold get in Hc. rewrite (proj2 (Z.ltb_ge i 0)) in Hc by (unfold zlen in Hi; lia).
    rewrite lookup_app_r in Hc by (unfold zlen in *; lia).
    apply list_elem_of_split_length in Hc as (q & r & -> & Hl). exists q, r. split; [done|].
    unfold zlen in *. lia. }
  destruct Hsplit as (q & r & Hpq & Hiq).
  destruct (Z.eqb_spec c "/"%ch) as [->|Hne]; cbn [negb andb]; [exists q, r; by rewrite Hiq|].
  case_if; to_prop; [apply IH; lia|]. destruct Hp as [q' ->]. destruct q; [by injection Hpq as <-|].
  unfold zlen in *. cbn [length] in *. lia.
Qed.

Lemma BackUpToPreviousSlash_ok p :
  scan p [] -> (exists q, p = "/"%ch :: q) -> Forall path_char p ->
  exists p', BackUpToPreviousSlash (zlen pre) (pre ++ p) = Ok (pre ++ p') /\
    scan p' [] /\ (exists q, p' = "/"%ch :: q) /\ Forall path_char p'.
Proof.
  intros Hs Hp Hc. unfold BackUpToPreviousSlash.
  destruct (proj1 (scan_last p [] Hs) eq_refl) as [->|[q ->]]; [by destruct Hp|].
  rewrite !zlen_app. change (zlen ["/"%ch]) with 1.
  pose proof (zlen_nonneg pre). pose proof (zlen_nonneg q).
  rewrite (proj2 (Z.ltb_lt 0 _)) by lia. cbn [DCHECK checked mbind res_bind].
  replace (zlen pre + (zlen q + 1) - 1) with (zlen (pre ++ q)) by (rewrite zlen_app; lia).
  rewrite app_assoc, (checked_get _ _ _ _ (get_app (pre ++ q) _ [])). rewrite Z.eqb_refl.
  cbn [DCHECK checked mbind res_bind]. rewrite <- app_assoc.
  destruct (Z.eqb_spec (zlen (pre ++ q)) (zlen pre)); [eauto|].
  rewrite zlen_app in *.
  destruct (back_up_loop_ok (q ++ ["/"%ch]) (length (pre ++ q ++ ["/"%ch])) (zlen pre + zlen q - 1) Hp)
    as (q' & r & Hb & Hq).
  { rewrite !zlen_app. change (zlen ["/"%ch]) with 1. lia. }
  { rewrite !length_app. unfold zlen. cbn [length]. lia. }
  rewrite Hb. cbn [mbind res_bind]. exists (q' ++ ["/"%ch]). split_and!.
  - rewrite Hq. change ("/"%ch :: r) with (["/"%ch] ++ r). rewrite !app_assoc.
    f_equal. apply take_app_length'. rewrite !length_app. cbn [length]. unfold zlen. lia.
  - by eapply scan_prefix.
  - destruct Hp as [x Hx]. rewrite Hx in Hq. destruct q'; [by exists []|].
    injection Hq as -> Hq. eexists. done.
  - rewrite Hq in Hc. change ("/"%ch :: r) with (["/"%ch] ++ r) in Hc. rewrite app_assoc in Hc.
    by apply Forall_app in Hc as [Hc _].
Qed.
End back.

(** ** One turn of the loop *)
Section turns.
Context `{Icu, !IcuLaws _}.
Context (wide : bool) (spec : list Z) (end_ : Z) (pre : list Z).
Hypothesis units : Forall (fun c => 0 <= c < 65536 /\ (wide = false -> c < 256)) spec.
Hypothesis inside_end : end_ <= zlen spec.

(** What follows is not the end of a segment. *)
Definition goes_on (i : Z) : Prop :=
  i < end_ /\ forall c, get spec i = Some c -> IsURLSlash c = false.

(** The same, behind at most one dot. *)
Definition goes_on_dot (i : Z) : Prop :=
  goes_on i /\ forall n, IsDot spec i end_ = Ok n -> 0 < n -> goes_on (i + n).

(** The path written before the index [i] is read. *)
Definition inv (p : list Z) (i : Z) : Prop :=
  (exists q, p = "/"%ch :: q) /\ Forall path_char p /\
  exists s, scan p s /\ (s = str "." -> goes_on_dot i) /\ (s = str ".." -> goes_on i).

Lemma IsDot_ok i :
  0 <= i < end_ -> exists n, IsDot spec i end_ = Ok n /\
    (n = 0 \/ (n = 1 /\ get spec i = Some "."%ch) \/
     (n = 3 /\ get spec i = Some "%"%ch /\ i + 3 <= end_)).
Proof using inside_end.
  intros Hi. unfold IsDot. destruct (get_some spec i) as [c Hc]; [lia|].
  rewrite (checked_get _ _ _ _ Hc). destruct (Z.eqb_spec c "."%ch) as [->|]; [eauto 6|].
  destruct (Z.eqb_spec c "%"%ch) as [->|]; [|cbn; eauto]. cbn [andb].
  case_if; [|eauto]. to_prop. destruct (get_some spec (i + 1)) as [c1 Hc1]; [lia|].
  rewrite (checked_get _ _ _ _ Hc1). case_if; [|eauto].
  destruct (get_some spec (i + 2)) as [c2 Hc2]; [lia|]. rewrite (checked_get _ _ _ _ Hc2).
  case_if; eauto 8.
Qed.

Lemma inv_word p i w j : inv p i -> word w -> inv (p ++ w) j.
Proof.
  intros ((q & ->) & Hp & s & Hs & _) [Hw (c & Hc & Hd)]. split; [by exists (q ++ w)|].
  split; [apply Forall_app; split; [done|eapply Forall_impl; [done|]; by intros ? []]|].
  exists (s ++ w). split; [apply scan_word; [done|eapply Forall_impl; [done|]; by intros ? []]|].
  pose proof (not_dots s w c Hc Hd) as Hn. split; intros Heq; destruct Hn; [by left|by right].
Qed.

Lemma inv_char p i c j : inv p i -> path_char c -> c <> "/"%ch -> c <> "."%ch -> inv (p ++ [c]) j.
Proof.
  intros Hi Hc Hs Hd. eapply inv_word; [done|]. split; [by constructor|].
  exists c. split; [by left|done].
Qed.

(** Behind a slash everything is possible. *)
Lemma inv_empty p i : (exists q, p = "/"%ch :: q) -> Forall path_char p -> scan p [] -> inv p i.
Proof. intros Hq Hp Hs. split; [done|]. split; [done|]. by exists []. Qed.

Lemma path_char_slash : path_char "/"%ch.
Proof. by apply (bool_decide_eq_true_1 _). Qed.

Lemma inv_slash p i c j : inv p i -> get spec i = Some c -> IsURLSlash c = true -> inv (p ++ ["/"%ch]) j.
Proof.
  intros ((q & ->) & Hp & s & Hs & H1 & H2) Hc Hsl. apply inv_empty.
  - by exists (q ++ ["/"%ch]).
  - apply Forall_app. split; [done|]. constructor; [apply path_char_slash|done].
  - econstructor; [done|]. intros [Heq|Heq].
    + destruct (H1 Heq) as [[_ Hn] _]. specialize (Hn c Hc). congruence.
    + destruct (H2 Heq) as [_ Hn]. specialize (Hn c Hc). congruence.
Qed.

Lemma path_char_dot : path_char "."%ch.
Proof. by apply (bool_decide_eq_true_1 _). Qed.

(** A dot that is appended. *)
Lemma inv_dot p s i n :
  inv p i -> scan p s -> IsDot spec i end_ = Ok n -> 0 < n ->
  (s = [] -> goes_on_dot (i + n)) -> inv (p ++ ["."%ch]) (i + n).
Proof.
  intros ((q & ->) & Hp & s' & Hs & H1 & H2) Hs' Hn Hpos Hnil.
  rewrite <- (scan_fun _ _ Hs _ Hs') in Hnil. clear Hs' s.
  split; [by exists (q ++ ["."%ch])|]. split.
  { apply Forall_app. split; [done|]. constructor; [apply path_char_dot|done]. }
  exists (s' ++ ["."%ch]). split; [by constructor|]. split; intros Heq.
  - change (str ".") with ([] ++ ["."%ch]) in Heq. apply app_inj_tail in Heq as [-> _]. by apply Hnil.
  - change (str "..") with (str "." ++ ["."%ch]) in Heq. apply app_inj_tail in Heq as [-> _].
    destruct (H1 eq_refl) as [_ Hg]. by apply Hg.
Qed.

Lemma ClassifyAfterDot_ok i :
  0 <= i <= end_ -> exists d n, ClassifyAfterDot spec i end_ = Ok (d, n) /\ 0 <= n /\ i + n <= end_ /\
    (d = NOT_A_DIRECTORY -> n = 0 /\ goes_on_dot i).
Proof using inside_end.
  intros Hi. unfold ClassifyAfterDot. destruct (Z.eqb_spec i end_) as [->|Hne].
  { exists DIRECTORY_CUR, 0. by split_and!; [|lia|lia|]. }
  destruct (get_some spec i) as [c Hc]; [lia|]. rewrite (checked_get _ _ _ _ Hc).
  destruct (IsURLSlash c) eqn:Hsl. { exists DIRECTORY_CUR, 1. by split_and!; [|lia|lia|]. }
  assert (Hon : goes_on i). { split; [lia|]. intros ? Hc'. congruence. }
  destruct (IsDot_ok i) as (n & Hn & Hcase); [lia|]. rewrite Hn. cbn [mbind res_bind].
  destruct (Z.eqb_spec n 0) as [->|Hn0].
  { exists NOT_A_DIRECTORY, 0. split_and!; [done|lia|lia|]. intros _. split; [done|]. split; [done|].
    intros m Hm Hpos. rewrite Hn in Hm. injection Hm as <-. lia. }
  cbn [negb]. destruct (Z.eqb_spec (i + n) end_).
  { exists DIRECTORY_UP, n. by split_and!; [|lia|lia|]. }
  destruct (get_some spec (i + n)) as [d Hd]; [lia|]. rewrite (checked_get _ _ _ _ Hd).
  destruct (IsURLSlash d) eqn:Hsl'. { exists DIRECTORY_UP, (n + 1). by split_and!; [|lia|lia|]. }
  exists NOT_A_DIRECTORY, 0. split_and!; [done|lia|lia|]. intros _. split; [done|]. split; [done|].
  intros m Hm Hpos. rewrite Hn in Hm. injection Hm as <-. split; [lia|]. intros ? Hd'. congruence.
Qed.

Lemma last_char p i :
  inv p i -> exists c, get (pre ++ p) (zlen (pre ++ p) - 1) = Some c /\
    forall s, scan p s -> (c = "/"%ch <-> s = []).
Proof using.
  intros ((q & ->) & _). destruct ("/"%ch :: q) as [|c r _] eqn:Hq using rev_ind; [done|].
  exists c. split.
  - rewrite app_assoc, zlen_app. change (zlen [c]) with 1.
    replace (zlen (pre ++ r) + 1 - 1) with (zlen (pre ++ r)) by lia. apply get_app.
  - intros s Hs. rewrite (scan_last _ _ Hs). split; [intros ->; right; eauto|].
    intros [Hn|[q' Hq']]; [by destruct r|]. by apply app_inj_tail in Hq' as [_ ->].
Qed.

Lemma append_dot_ok p i n :
  inv p i -> 0 <= i -> IsDot spec i end_ = Ok n -> 0 < n -> i + n <= end_ ->
  exists i' p', append_dot spec end_ (zlen pre) i n (pre ++ p) = Ok (i', pre ++ p') /\
    i <= i' < end_ /\ inv p' (i' + 1).
Proof using inside_end.
  intros Hi H0 Hn Hpos Hend. pose proof Hi as (Hp & Hc & s & Hs & _).
  destruct (last_char p i Hi) as (c & Hlast & Hslash). specialize (Hslash s Hs).
  assert (Hlen : zlen pre < zlen (pre ++ p)).
  { destruct Hp as [q ->]. rewrite zlen_app. unfold zlen at 3. cbn [length]. lia. }
  assert (Hplain : forall j, j = i + (n - 1) -> (s = [] -> goes_on_dot (i + n)) ->
    exists i' p', Ok (j, (pre ++ p) ++ ["."%ch]) = Ok (i', pre ++ p') /\
    i <= i' < end_ /\ inv p' (i' + 1)).
  { intros j -> Hnil. exists (i + (n - 1)), (p ++ ["."%ch]). split; [by rewrite app_assoc|].
    split; [lia|]. replace (i + (n - 1) + 1) with (i + n) by lia. by eapply inv_dot. }
  unfold append_dot. rewrite (proj2 (Z.ltb_lt (zlen pre) _) Hlen).
  cbn [DCHECK checked mbind res_bind]. rewrite (checked_get _ _ _ _ Hlast).
  destruct (Z.eqb_spec c "/"%ch) as [Hc'|Hc']; cbn [mbind res_bind].
  2: { apply Hplain; [done|]. intros ->. by destruct Hc'; apply Hslash. }
  destruct (ClassifyAfterDot_ok (i + n)) as (d & m & -> & Hm & Hme & Hnot); [lia|].
  cbn [mbind res_bind]. pose proof (proj1 Hslash Hc') as ->. destruct d.
  - destruct Hnot as [-> Hg]; [done|]. by apply Hplain.
  - exists (i + (n + m - 1)), p. split; [done|]. split; [lia|]. by apply inv_empty.
  - destruct (BackUpToPreviousSlash_ok pre p Hs Hp Hc) as (p' & -> & Hs' & Hp' & Hc'').
    cbn [mbind res_bind]. exists (i + (n + m - 1)), p'. split; [done|]. split; [lia|].
    by apply inv_empty.
Qed.

(** A turn that consumes up to [i'] and keeps the invariant. *)
Definition stepped (i : Z) (r : res (Z * list Z * bool)) : Prop :=
  exists i' p' ok, r = Ok (i', pre ++ p', ok) /\ i <= i' < end_ /\ inv p' (i' + 1).

Lemma append_percent_ok p i :
  inv p i -> 0 <= i < end_ -> Forall (fun c => 0 <= c < 65536) spec ->
  stepped i (append_percent spec end_ i (pre ++ p)).
Proof using inside_end.
  intros Hi Hr Hu.
  assert (Hplain : stepped i (Ok (i, (pre ++ p) ++ ["%"%ch], true))).
  { exists i, (p ++ ["%"%ch]), true. split; [by rewrite app_assoc|]. split; [lia|].
    eapply inv_char; [done|apply path_char_percent|done|done]. }
  unfold append_percent, DecodeEscaped. case_if; [apply Hplain|]. to_prop.
  destruct (get_some spec (i + 1)) as [a Ha]; [lia|]. rewrite (checked_get _ _ _ _ Ha).
  destruct (get_some spec (i + 2)) as [b Hb]; [lia|].
  case_if; [apply Hplain|]. rewrite (checked_get _ _ _ _ Hb).
  case_if; [apply Hplain|]. case_if; [apply Hplain|]. to_prop. cbn [mbind res_bind].
  set (v := wrap_u 8 _). pose proof (wrap_u_byte (Z.shiftl (HexCharToValue (a mod 256)) 4 + HexCharToValue (b mod 256))) as Hv.
  fold v in Hv. destruct (table_facts v Hv) as (_ & Hun & _).
  case_if.
  - exists (i + 2), (p ++ [v]), true. split; [by rewrite app_assoc|]. split; [lia|].
    destruct (Hun eq_refl) as (Hpc & Hs & Hd). by eapply inv_char.
  - replace (i + 2 - 1) with (i + 1) by lia. rewrite (checked_get _ _ _ _ Ha), (checked_get _ _ _ _ Hb).
    do 3 eexists. split; [by rewrite <- app_assoc|]. split; [lia|]. eapply inv_word; [done|].
    destruct (table_facts (a mod 256)) as (_ & _ & Hha & _); [apply Z.mod_pos_bound; lia|].
    destruct (table_facts (b mod 256)) as (_ & _ & Hhb & _); [apply Z.mod_pos_bound; lia|].
    destruct (Hha ltac:(done)), (Hhb ltac:(done)). by apply word_escape.
Qed.

Lemma ReadUTFChar_ok i :
  0 <= i < end_ -> exists cp j ok, ReadUTFChar spec i end_ = Ok (cp, j, ok) /\
    0 <= cp <= 0x10FFFF /\ i <= j < end_.
Proof using inside_end IcuLaws0.
  intros Hi. unfold ReadUTFChar. destruct (get_some spec i) as [c Hc]; [lia|].
  rewrite (checked_get _ _ _ _ Hc).
  assert (Hr : exists r, (if U16_IS_SURROGATE c then
         if !(U16_IS_SURROGATE_LEAD c) || (end_ <=? i + 1) then Ok None else
         d ← checked (get spec (i + 1));
         if !(U16_IS_TRAIL d) then Ok None
         else Ok (Some (U16_GET_SUPPLEMENTARY c d, i + 1))
       else Ok (Some (c, i))) = Ok r /\ match r with Some (_, j) => i <= j < end_ | None => True end).
  { destruct (U16_IS_SURROGATE c); [|by exists (Some (c, i)); split; [done|lia]].
    destruct (U16_IS_SURROGATE_LEAD c); [|by exists None]. cbn [negb orb].
    destruct (Z.leb_spec end_ (i + 1)); [by exists None|].
    destruct (get_some spec (i + 1)) as [d Hd]; [lia|]. rewrite (checked_get _ _ _ _ Hd).
    destruct (U16_IS_TRAIL d); [|by exists None].
    exists (Some (U16_GET_SUPPLEMENTARY c d, i + 1)). split; [done|lia]. }
  destruct Hr as (r & -> & Hr). cbn [mbind res_bind].
  destruct r as [[cp j]|]; [|do 3 eexists; split; [done|]; unfold kUnicodeReplacementCharacter; lia].
  case_if; do 3 eexists; (split; [done|]).
  - split; [by apply unicode_char_range|done].
  - unfold kUnicodeReplacementCharacter. lia.
Qed.

Lemma path_turn_ok p i :
  inv p i -> 0 <= i < end_ ->
  stepped i (path_turn wide spec end_ (zlen pre) i (pre ++ p)).
Proof.
  intros Hi Hr. unfold path_turn. destruct (get_some spec i) as [c Hc]; [lia|].
  rewrite (checked_get _ _ _ _ Hc). pose proof (get_Forall _ _ _ _ Hc units) as [Hu Hw].
  destruct (wide && (0x80 <=? c)) eqn:Hwide.
  { destruct (ReadUTFChar_ok i Hr) as (cp & j & ok & Hread & Hcp & Hj).
    unfold AppendUTF8EscapedChar. rewrite Hread. cbn [mbind res_bind].
    destruct (AppendUTF8EscapedValue_word cp (pre ++ p) Hcp) as (w & -> & Hword). cbn [mbind res_bind].
    exists j, (p ++ w), ok. split; [by rewrite app_assoc|]. split; [done|]. by eapply inv_word. }
  assert (Hc256 : 0 <= c < 256).
  { destruct wide; cbn in Hwide; [to_prop; lia|]. specialize (Hw eq_refl). lia. }
  cbv zeta. rewrite (Z.mod_small c 256) by done.
  destruct (table_facts c Hc256) as (Hplain & _ & _ & Hspec & Hother).
  assert (Hescape : forall ok, stepped i (Ok (i, AppendEscapedChar c (pre ++ p), ok))).
  { intros ok. destruct (AppendEscapedChar_word c (pre ++ p)) as (w & -> & Hword).
    exists i, (p ++ w), ok. split; [by rewrite app_assoc|]. split; [lia|]. by eapply inv_word. }
  destruct (has_flag (at_ kPathCharLookup c) SPECIAL) eqn:Hflag.
  - destruct (IsDot_ok i Hr) as (n & Hn & Hcase). rewrite Hn. cbn [mbind res_bind]. case_if; to_prop.
    { destruct (append_dot_ok p i n Hi ltac:(lia) Hn) as (i' & p' & -> & H'); [lia|lia|]. by exists i', p', true. }
    destruct (Z.eqb_spec c "\"%ch) as [->|].
    { exists i, (p ++ ["/"%ch]), true. split; [by rewrite app_assoc|]. split; [lia|].
      by eapply inv_slash. }
    destruct (Z.eqb_spec c "%"%ch) as [->|].
    { apply append_percent_ok; [done|done|]. eapply Forall_impl; [exact units|]. by intros ? []. }
    case_if; [apply Hescape|]. case_if; [apply Hescape|]. exfalso.
    destruct (Hother eq_refl) as [->|[?|[?|[?|?]]]]; try congruence.
    unfold IsDot in Hn. rewrite (checked_get _ _ _ _ Hc) in Hn. injection Hn as <-. lia.
  - destruct (Z.eq_dec c "/"%ch) as [->|Hsl].
    + exists i, (p ++ ["/"%ch]), true. split; [by rewrite app_assoc|]. split; [lia|]. by eapply inv_slash.
    + exists i, (p ++ [c]), true. split; [by rewrite app_assoc|]. split; [lia|].
      eapply inv_char; [done|by apply Hplain|done|]. intros ->. discriminate (Hspec ltac:(auto)).
Qed.
Lemma path_loop_ok fuel p i ok :
  inv p i -> 0 <= i <= end_ -> (Z.to_nat (end_ - i) < fuel)%nat ->
  exists ok' p', path_loop fuel wide spec end_ (zlen pre) i (pre ++ p) ok = Ok (ok', pre ++ p') /\
    inv p' end_.
Proof.
  revert p i ok. induction fuel as [|fuel IH]; intros p i ok Hi Hr Hf; [lia|]. cbn [path_loop].
  case_if; to_prop; [|replace i with end_ in Hi by lia; eauto].
  destruct (path_turn_ok p i Hi ltac:(lia)) as (i' & p' & ok' & -> & Hr' & Hi').
  cbn [mbind res_bind]. apply IH; [done|lia|lia].
Qed.

(** The first turn, on a slash. *)
Lemma path_turn_slash i c :
  get spec i = Some c -> IsURLSlash c = true ->
  path_turn wide spec end_ (zlen pre) i pre = Ok (i, pre ++ ["/"%ch], true).
Proof using.
  intros Hc Hs. unfold path_turn. rewrite (checked_get _ _ _ _ Hc). unfold IsURLSlash in Hs.
  assert (c = "/"%ch \/ c = "\"%ch) as [->| ->] by lia; rewrite andb_false_r; [done|].
  cbv zeta. change (has_flag (at_ kPathCharLookup (92 mod 256)) SPECIAL) with true. cbv iota.
  unfold IsDot. by rewrite (checked_get _ _ _ _ Hc).
Qed.

Lemma inv_start i : inv ["/"%ch] i.
Proof using.
  apply inv_empty; [by exists []|by constructor; [apply path_char_slash|]|].
  apply (scan_slash [] []); [constructor|]. by intros [|].
Qed.
End turns.

(** No directory of the path is a dot segment. *)
Definition no_dot_segments (path : list Z) : Prop := Forall (fun s => ~ dots s) (segments path).

Lemma inv_end spec end_ p : inv spec end_ p end_ -> no_dot_segments p.
Proof.
  intros (_ & _ & s & Hs & H1 & H2). destruct (scan_segments p s Hs) as (ss & Hss & Hf).
  unfold no_dot_segments. rewrite Hss. apply Forall_app. split; [done|]. constructor; [|done].
  intros [Heq|Heq]; [destruct (H1 Heq) as [[? _] _]|destruct (H2 Heq) as [? _]]; lia.
Qed.

(** A text of code units: bytes, or 16-bit units. *)
Definition units_of (wide : bool) (spec : list Z) : Prop :=
  Forall (fun c => 0 <= c < 65536 /\ (wide = false -> c < 256)) spec.

(** The path lies in the text; it may be empty. *)
Definition path_in (spec : list Z) (path : Component) : Prop :=
  len path <= 0 \/ (0 <= begin_ path /\ UrlChars.end_ path <= zlen spec).

Section theorems.
Context `{Icu, !IcuLaws _}.

(** What is appended, whatever the text. *)
Lemma DoPath_canonical wide spec path output :
  units_of wide spec -> path_in spec path ->
  exists success q, let p := "/"%ch :: q in
    DoPath wide spec path output = Ok (success, output ++ p, mkComponent (zlen output) (zlen p)) /\
    no_dot_segments p /\ Forall path_char p.
Proof.
  intros Hu Hin.
  assert (Hres : forall r : res (bool * list Z), (exists success p, r = Ok (success, output ++ p) /\ (exists q, p = "/"%ch :: q) /\
      no_dot_segments p /\ Forall path_char p) ->
    exists success q, let p := "/"%ch :: q in
      ('(success, o) ← r; Ok (success, o, mkComponent (zlen output) (zlen o - zlen output))) =
        Ok (success, output ++ p, mkComponent (zlen output) (zlen p)) /\
      no_dot_segments p /\ Forall path_char p).
  { intros r (success & p & -> & (q & ->) & Hn & Hp). exists success, q. split; [|done].
    cbn [mbind res_bind]. replace (zlen (output ++ _) - zlen output) with (zlen ("/"%ch :: q)); [done|]. rewrite zlen_app. lia. }
  unfold DoPath. apply Hres. clear Hres. case_if; to_prop.
  2: { exists true, ["/"%ch]. split; [done|]. split; [by exists []|].
       split; [by repeat constructor; intros [|]|]. constructor; [apply path_char_slash|done]. }
  destruct Hin as [|[Hb He]]; [lia|]. unfold DoPartialPath, UrlChars.end_ in *.
  destruct (get_some spec (begin_ path)) as [c Hc]; [lia|]. rewrite (checked_get _ _ _ _ Hc).
  assert (Hloop : forall fuel i ok, 0 <= i <= begin_ path + len path ->
    (Z.to_nat (begin_ path + len path - i) < fuel)%nat ->
    exists success p, path_loop fuel wide spec (begin_ path + len path) (zlen output) i
      (output ++ ["/"%ch]) ok = Ok (success, output ++ p) /\ (exists q, p = "/"%ch :: q) /\
      no_dot_segments p /\ Forall path_char p).
  { intros fuel i ok Hi Hf.
    destruct (path_loop_ok wide spec _ output Hu He fuel ["/"%ch] i ok (inv_start spec _ i) Hi Hf)
      as (success & p & Hl & Hinv).
    exists success, p. split; [done|]. split; [apply Hinv|]. split; [by eapply inv_end|apply Hinv]. }
  destruct (IsURLSlash c) eqn:Hs; cbn [negb]; [|apply Hloop; lia].
  cbn [path_loop]. rewrite (proj2 (Z.ltb_lt (begin_ path) _)) by lia.
  rewrite (path_turn_slash wide spec _ output _ c Hc Hs). cbn [mbind res_bind]. apply Hloop; lia.
Qed.
End theorems.

(** ** Canonical paths are left alone *)

(** What an escape sequence with these digits stands for. *)
Definition decoded (a b : Z) : Z := wrap_u 8 (Z.shiftl (HexCharToValue a) 4 + HexCharToValue b).

(** No escape of the path should have been resolved. *)
Definition settled_escapes (p : list Z) : Prop :=
  forall l1 a b l2, p = l1 ++ "%"%ch :: a :: b :: l2 -> IsHexChar a = true -> IsHexChar b = true ->
    has_flag (at_ kPathCharLookup (decoded a b)) UNESCAPE = false /\ decoded a b <> "."%ch.

Lemma segments_app q r : segments (q ++ "/"%ch :: r) = segments q ++ segments r.
Proof.
  unfold segments. generalize (@nil Z) at 1 2. induction q as [|c q IH]; intros cur; cbn.
  - done.
  - destruct (c =? "/"%ch); [cbn; f_equal|]; apply IH.
Qed.

(** Where a path without dot segments has a dot behind a slash. *)
Lemma dot_behind_slash q r :
  no_dot_segments ((q ++ ["/"%ch]) ++ "."%ch :: r) ->
  exists c r', r = c :: r' /\ c <> "/"%ch /\
    (c = "."%ch -> exists d r'', r' = d :: r'' /\ d <> "/"%ch).
Proof.
  unfold no_dot_segments. rewrite <- app_assoc. cbn [app]. rewrite segments_app, Forall_app.
  intros [_ H]. destruct r as [|c r].
  { apply Forall_cons in H as [H _]. destruct H. by left. }
  exists c, r. split; [done|]. split.
  { intros ->. apply Forall_cons in H as [H _]. destruct H. by left. }
  intros ->. destruct r as [|d r].
  { apply Forall_cons in H as [H _]. destruct H. by right. }
  exists d, r. split; [done|]. intros ->. apply Forall_cons in H as [H _]. destruct H. by right.
Qed.

Section stable.
Context `{Icu} (spec : list Z) (out path : list Z) (begin : Z).
Hypothesis here : lies spec begin path.
Hypothesis chars : Forall path_char path.
Hypothesis clean : no_dot_segments path.
Hypothesis settled : settled_escapes path.
Let end_ := begin + zlen path.

Lemma lies_here p1 p2 : path = p1 ++ p2 -> lies spec (begin + zlen p1) p2 /\
  begin + zlen p1 + zlen p2 = end_.
Proof.
  intros ->. split; [by apply lies_app in here as [_ ?]|]. subst end_. rewrite zlen_app. lia.
Qed.

Lemma char_here p1 c p2 : path = p1 ++ c :: p2 ->
  get spec (begin + zlen p1) = Some c /\ begin + zlen p1 < end_ /\ path_char c.
Proof.
  intros Hp. destruct (lies_here p1 (c :: p2) Hp) as [Hl He]. split; [by eapply lies_get|].
  split; [unfold zlen in He at 2; cbn [length] in He; lia|]. rewrite Hp in chars.
  apply Forall_app in chars as [_ Hc]. by apply Forall_cons in Hc as [Hc _].
Qed.

Lemma end_here p1 p2 : path = p1 ++ p2 -> begin + zlen p1 = end_ -> p2 = [].
Proof.
  intros Hp He. destruct (lies_here p1 p2 Hp) as [_ He']. destruct p2; [done|].
  unfold zlen in He' at 2. cbn [length] in He'. lia.
Qed.

Lemma IsDot_percent p1 p2 : path = p1 ++ "%"%ch :: p2 -> IsDot spec (begin + zlen p1) end_ = Ok 0.
Proof.
  intros Hp. destruct (char_here _ _ _ Hp) as (Hc & Hlt & _). destruct (lies_here _ _ Hp) as [Hl He].
  unfold IsDot. rewrite (checked_get _ _ _ _ Hc). change ("%"%ch =? "."%ch) with false.
  rewrite Z.eqb_refl. cbn [andb]. case_if; [|done]. to_prop.
  unfold zlen in He at 2. cbn [length] in He. destruct p2 as [|a [|b p2]]; cbn [length] in He; try lia.
  apply lies_tail in Hl. rewrite (checked_get _ _ _ _ (lies_get _ _ _ _ Hl)).
  destruct (Z.eqb_spec a "2"%ch) as [->|]; [|done].
  apply lies_tail in Hl. replace (begin + zlen p1 + 2) with (begin + zlen p1 + 1 + 1) by lia.
  rewrite (checked_get _ _ _ _ (lies_get _ _ _ _ Hl)). case_if; [|done]. exfalso.
  assert (b = "e"%ch \/ b = "E"%ch) as [->| ->] by lia; by destruct (settled _ _ _ _ Hp).
Qed.

Lemma IsDot_other p1 c p2 :
  path = p1 ++ c :: p2 -> IsDot spec (begin + zlen p1) end_ = Ok (if c =? "."%ch then 1 else 0).
Proof.
  intros Hp. destruct (Z.eq_dec c "%"%ch) as [->|Hne]; [by eapply IsDot_percent|].
  destruct (char_here _ _ _ Hp) as (Hc & _). unfold IsDot. rewrite (checked_get _ _ _ _ Hc).
  destruct (c =? "."%ch); [done|]. by rewrite (proj2 (Z.eqb_neq c "%"%ch)) by done.
Qed.

Lemma not_slash p1 c p2 : path = p1 ++ c :: p2 -> c <> "/"%ch -> IsURLSlash c = false.
Proof.
  intros Hp Hc. destruct (char_here _ _ _ Hp) as (_ & _ & Hr & Hch). unfold IsURLSlash.
  rewrite (proj2 (Z.eqb_neq c "/"%ch)) by done. apply Z.eqb_neq. intros ->.
  destruct Hch as [Hch|[|]]; done.
Qed.

Lemma dot_stays p1 p2 :
  path = p1 ++ "."%ch :: p2 -> p1 <> [] ->
  append_dot spec end_ (zlen out) (begin + zlen p1) 1 (out ++ p1) =
  Ok (begin + zlen p1, out ++ p1 ++ ["."%ch]).
Proof.
  intros Hp Hne. unfold append_dot.
  assert (Hlt : zlen out < zlen (out ++ p1)).
  { destruct p1; [done|]. rewrite zlen_app. unfold zlen at 3. cbn [length]. lia. }
  rewrite (proj2 (Z.ltb_lt _ _) Hlt). cbn [DCHECK checked mbind res_bind].
  destruct p1 as [|x q _] using rev_ind; [done|].
  replace (zlen (out ++ q ++ [x]) - 1) with (zlen (out ++ q)).
  2: { rewrite !zlen_app. change (zlen [x]) with 1. lia. }
  rewrite (app_assoc out q), (checked_get _ _ _ _ (get_app (out ++ q) x [])). rewrite <- app_assoc.
  replace (begin + zlen (q ++ [x]) + (1 - 1)) with (begin + zlen (q ++ [x])) by lia.
  destruct (Z.eqb_spec x "/"%ch) as [->|]; cbn [mbind res_bind]; [|by rewrite <- !app_assoc].
  pose proof clean as Hcl. rewrite Hp in Hcl. destruct (dot_behind_slash q p2 Hcl) as (c & r & -> & Hc & Hdot).
  set (p1 := q ++ ["/"%ch]) in *.
  assert (Hp1 : path = (p1 ++ ["."%ch]) ++ c :: r) by (by rewrite <- app_assoc).
  assert (Hi : begin + zlen p1 + 1 = begin + zlen (p1 ++ ["."%ch])).
  { rewrite zlen_app. change (zlen ["."%ch]) with 1. lia. }
  destruct (char_here _ _ _ Hp1) as (Hg & Hlt1 & _). unfold ClassifyAfterDot. rewrite Hi.
  rewrite (proj2 (Z.eqb_neq _ end_)), (checked_get _ _ _ _ Hg), (not_slash _ _ _ Hp1 Hc) by lia.
  rewrite (IsDot_other _ _ _ Hp1). cbn [mbind res_bind].
  destruct (Z.eqb_spec c "."%ch) as [->|]; cbn [Z.eqb negb]; [|cbn [mbind res_bind]; subst p1; by rewrite <- !app_assoc].
  destruct (Hdot eq_refl) as (d & r' & -> & Hd).
  assert (Hp2 : path = ((p1 ++ ["."%ch]) ++ ["."%ch]) ++ d :: r') by (by rewrite <- app_assoc).
  destruct (char_here _ _ _ Hp2) as (Hg' & Hlt2 & _). rewrite zlen_app in Hg', Hlt2.
  change (zlen ["."%ch]) with 1 in Hg', Hlt2. rewrite Z.add_assoc in Hg', Hlt2.
  rewrite (proj2 (Z.eqb_neq _ end_)), (checked_get _ _ _ _ Hg'), (not_slash _ _ _ Hp2 Hd) by lia.
  cbn [mbind res_bind]. subst p1. by rewrite <- !app_assoc.
Qed.

(** A turn consumes some of the path and appends the same. *)
Definition copies (p1 p2 : list Z) (r : res (Z * list Z * bool)) : Prop :=
  exists w p3 ok, p2 = w ++ p3 /\ w <> [] /\
    r = Ok (begin + zlen p1 + zlen w - 1, out ++ p1 ++ w, ok).

Lemma turn_stays p1 c p2 :
  path = p1 ++ c :: p2 -> p1 <> [] ->
  copies p1 (c :: p2) (path_turn false spec end_ (zlen out) (begin + zlen p1) (out ++ p1)).
Proof.
  intros Hp Hne. destruct (char_here _ _ _ Hp) as (Hg & Hlt & Hr & Hch). destruct (lies_here _ _ Hp) as [Hl He].
  unfold path_turn. rewrite (checked_get _ _ _ _ Hg). cbn [andb]. cbv zeta.
  rewrite (Z.mod_small c 256) by lia.
  assert (Hone : forall ok, copies p1 (c :: p2) (Ok (begin + zlen p1, (out ++ p1) ++ [c], ok))).
  { intros ok. exists [c], p2, ok. split; [done|]. split; [done|]. rewrite <- app_assoc.
    change (zlen [c]) with 1. do 3 f_equal. lia. }
  destruct Hch as [->|[->| ->]]; [apply Hone| |].
  - change (has_flag _ SPECIAL) with true. cbv iota. rewrite (IsDot_other _ _ _ Hp).
    cbn [mbind res_bind Z.eqb Pos.eqb Z.ltb Z.compare]. rewrite (dot_stays _ _ Hp Hne).
    cbn [mbind res_bind]. rewrite app_assoc. apply Hone.
  - change (has_flag _ SPECIAL) with true. cbv iota. rewrite (IsDot_percent _ _ Hp).
    cbn [mbind res_bind]. change (0 <? 0) with false. change ("%"%ch =? "\"%ch) with false.
    rewrite Z.eqb_refl. cbv iota. unfold append_percent, DecodeEscaped.
    case_if; [apply Hone|]. to_prop. unfold zlen in He at 2. cbn [length] in He.
    destruct p2 as [|a [|b p2]]; cbn [length] in He; try lia.
    destruct (char_here (p1 ++ ["%"%ch]) a (b :: p2)) as (Ha & _ & Hra & _); [by rewrite <- app_assoc|].
    destruct (char_here (p1 ++ ["%"%ch; a]) b p2) as (Hb & _ & Hrb & _); [by rewrite <- app_assoc|].
    rewrite zlen_app in Ha, Hb. rewrite Z.add_assoc in Ha, Hb.
    change (zlen ["%"%ch]) with 1 in Ha. change (zlen ["%"%ch; a]) with 2 in Hb.
    rewrite (checked_get _ _ _ _ Ha), (checked_get _ _ _ _ Hb), !(proj2 (Z.leb_le _ 255)) by lia.
    cbn [negb]. rewrite !Z.mod_small by lia. case_if; [apply Hone|]. to_prop. cbn [mbind res_bind].
    destruct (settled _ _ _ _ Hp) as [Hun _]; [done|done|]. unfold decoded in Hun. rewrite Hun.
    replace (begin + zlen p1 + 2 - 1) with (begin + zlen p1 + 1) by lia.
    rewrite (checked_get _ _ _ _ Ha), (checked_get _ _ _ _ Hb), !Z.mod_small by lia.
    eexists ["%"%ch; a; b], p2, _. split; [done|]. split; [done|]. rewrite <- app_assoc.
    change (zlen ["%"%ch; a; b]) with 3. do 3 f_equal. lia.
Qed.

Lemma loop_stays fuel p1 p2 ok :
  path = p1 ++ p2 -> p1 <> [] -> (length p2 < fuel)%nat ->
  exists ok', path_loop fuel false spec end_ (zlen out) (begin + zlen p1) (out ++ p1) ok =
    Ok (ok', out ++ path).
Proof.
  revert p1 p2 ok. induction fuel as [|fuel IH]; intros p1 p2 ok Hp Hne Hf; [lia|]. cbn [path_loop].
  destruct p2 as [|c p2].
  - destruct (lies_here p1 [] Hp) as [_ He]. rewrite app_nil_r in Hp. subst p1.
    rewrite (proj2 (Z.ltb_ge _ end_)) by (unfold zlen in He at 2; cbn [length] in He; lia). eauto.
  - destruct (char_here _ _ _ Hp) as (_ & Hlt & _). rewrite (proj2 (Z.ltb_lt _ end_)) by done.
    destruct (turn_stays _ _ _ Hp Hne) as (w & p3 & ok' & Hw & Hwne & ->). cbn [mbind res_bind].
    replace (begin + zlen p1 + zlen w - 1 + 1) with (begin + zlen (p1 ++ w)) by (rewrite zlen_app; lia).
    apply (IH (p1 ++ w) p3).
    + by rewrite Hp, Hw, app_assoc.
    + by destruct p1.
    + apply (f_equal length) in Hw. rewrite length_app in Hw. cbn [length] in Hw, Hf.
      destruct w; [done|]. cbn [length] in Hw. lia.
Qed.
End stable.

(** A canonical path without an escape that stands for a plain character or
    a dot is a fixed point. *)
Lemma canonical_path_stays `{Icu} pre q post output :
  let p := "/"%ch :: q in
  Forall path_char p -> no_dot_segments p -> settled_escapes p ->
  exists success, DoPath false (pre ++ p ++ post) (mkComponent (zlen pre) (zlen p)) output =
    Ok (success, output ++ p, mkComponent (zlen output) (zlen p)).
Proof.
  intros p Hc Hn Hs. set (spec := pre ++ p ++ post).
  assert (Hl : lies spec (zlen pre) p) by apply lies_between.
  assert (Hz : zlen p = zlen q + 1) by (unfold p, zlen; cbn [length]; lia).
  pose proof (zlen_nonneg q).
  unfold DoPath, DoPartialPath, UrlChars.end_. cbn [begin_ len].
  rewrite (proj2 (Z.ltb_lt 0 _)) by lia. rewrite (checked_get _ _ _ _ (lies_get _ _ _ _ Hl)).
  change (IsURLSlash "/"%ch) with true. cbn [negb path_loop].
  rewrite (proj2 (Z.ltb_lt (zlen pre) _)) by lia.
  rewrite (path_turn_slash false spec _ output _ "/"%ch); [|by eapply lies_get|done].
  cbn [mbind res_bind].
  destruct (loop_stays spec output p (zlen pre) Hl Hc Hn Hs (Z.to_nat (zlen p)) ["/"%ch] q true)
    as (ok & Hloop); [done|done|unfold zlen in *; lia|].
  change (zlen ["/"%ch]) with 1 in Hloop. cbn [andb]. rewrite Hloop. exists ok. cbn [mbind res_bind].
  by replace (zlen (output ++ p) - zlen output) with (zlen p) by (rewrite zlen_app; lia).
Qed.

(** *** Witnesses *)

(** The condition on escapes, as a test. *)
Fixpoint settledb (p : list Z) : bool :=
  match p with
  | [] => true
  | c :: p' =>
      match p' with
      | a :: b :: _ =>
          negb ((c =? "%"%ch) && IsHexChar a && IsHexChar b &&
                (has_flag (at_ kPathCharLookup (decoded a b)) UNESCAPE || (decoded a b =? "."%ch)))
      | _ => true
      end && settledb p'
  end.

Lemma settled_test p : settledb p = true -> settled_escapes p.
Proof.
  intros H l1 a b l2 -> Ha Hb. induction l1 as [|c l1 IH]; cbn [app settledb] in H.
  - rewrite Ha, Hb, Z.eqb_refl in H. cbn [andb] in H. to_prop. done.
  - apply andb_true_iff in H as [_ H]. by apply IH.
Qed.

(** A text without surrogates. *)
#[local] Instance plain_icu : Icu := {|
  U_IS_UNICODE_CHAR c := (0 <=? c) && (c <? 0xD800);
  U16_IS_SURROGATE c := (0xD800 <=? c) && (c <=? 0xDFFF);
  U16_IS_SURROGATE_LEAD c := (0xD800 <=? c) && (c <=? 0xDBFF);
  U16_IS_TRAIL c := (0xDC00 <=? c) && (c <=? 0xDFFF);
  U16_GET_SUPPLEMENTARY a b := (a - 0xD800) * 1024 + (b - 0xDC00) + 0x10000
|}.

#[local] Instance plain_icu_laws : IcuLaws plain_icu.
Proof. constructor. cbn. intros c Hc. to_prop. lia. Defined.

#[local] Instance units_dec wide spec : Decision (units_of wide spec).
Proof. unfold units_of. apply _. Defined.

#[local] Instance dots_dec s : Decision (dots s).
Proof. unfold dots. apply _. Defined.

#[local] Instance no_dot_segments_dec p : Decision (no_dot_segments p).
Proof. unfold no_dot_segments. apply _. Defined.

(** C34. Whatever the text, 8-bit or 16-bit, canonicalizing a path in it ends,
    no access leaves the text or the output and no check fails; what was in
    the output before stays, what is appended starts with a slash, holds
    only characters a canonical path may hold, and no directory of it is "."
    or "..", so it never climbs above its own start. If no escape in it stands
    for a plain character or a dot, canonicalizing it again, wherever it is in
    a text, appends it as it is. *)
Theorem path_is_canonical `{Icu, !IcuLaws _} wide spec path output :
  units_of wide spec -> path_in spec path ->
  exists success q, let p := "/"%ch :: q in
    DoPath wide spec path output = Ok (success, output ++ p, mkComponent (zlen output) (zlen p)) /\
    no_dot_segments p /\ Forall path_char p /\
    (settled_escapes p -> forall pre post output', exists success',
       DoPath false (pre ++ p ++ post) (mkComponent (zlen pre) (zlen p)) output' =
       Ok (success', output' ++ p, mkComponent (zlen output') (zlen p))).
Proof.
  intros Hu Hin. destruct (DoPath_canonical wide spec path output Hu Hin) as (success & q & E & Hn & Hp).
  exists success, q. split; [exact E|]. split; [exact Hn|]. split; [exact Hp|]. intros Hs pre post output'.
  by apply canonical_path_stays.
Qed.

Lemma path_is_canonical_witness :
  exists success q, let p := "/"%ch :: q in
    DoPath true (str "http://h/a/b/%2E./../%7Eu/" ++ [0x20AC; 0xD834] ++ str "\.") (mkComponent 8 21)
      (str "http://h") =
      Ok (success, str "http://h" ++ p, mkComponent (zlen (str "http://h")) (zlen p)) /\
    no_dot_segments p /\ Forall path_char p /\
    (settled_escapes p -> forall pre post output', exists success',
       DoPath false (pre ++ p ++ post) (mkComponent (zlen pre) (zlen p)) output' =
       Ok (success', output' ++ p, mkComponent (zlen output') (zlen p))).
Proof.
  apply (path_is_canonical true (str "http://h/a/b/%2E./../%7Eu/" ++ [0x20AC; 0xD834] ++ str "\.")
           (mkComponent 8 21) (str "http://h")).
  - apply (bool_decide_eq_true_1 _). vm_compute. reflexivity.
  - right. by vm_compute.
Defined.

(** ** What is not settled

    The escape of a percent sign is not resolved together with what follows
    it, so an escaped dot can be hidden from the first canonicalization. *)
Lemma hidden_dots_are_found_later :
  let once s := match DoPath false s (mkComponent 0 (zlen s)) [] with
                | Ok (true, p, _) => Some p | _ => None end in
  once (str "/secret/%%32e%%32e/x") = Some (str "/secret/%2e%2e/x") /\
  once (str "/secret/%2e%2e/x") = Some (str "/x").
Proof. split; reflexivity. Qed.
