(* ===== verification/P224.v ===== *)
(** The elliptic curve P224, crypto/p224.cc: arithmetic of field elements in
    eight limbs of 28 bits, points in Jacobian coordinates, and the textual
    form of points.

    Arrays have constant sizes and are only used at indices below them, so an
    array is the list of its elements; 32-bit and 64-bit unsigned arithmetic
    is reduced at every operation that could leave its type. *)
From S2P Require Import Prelude.

(** ** Arrays and loops *)
Fixpoint upd (a : list Z) (i : nat) (v : Z) : list Z :=
  match a, i with
  | [], _ => []
  | _ :: a, O => v :: a
  | x :: a, S i => x :: upd a i v
  end.
Notation "a .[ i ]" := (nth i a 0) (at level 1, i at level 200, left associativity, format "a .[ i ]").
Notation "a .[ i ]<- v" := (upd a i v) (at level 1, i at level 200, v at level 35, left associativity).

(** [for (i = lo; i < hi; i++)] and [for (i = hi - 1; i >= lo; i--)] *)
Definition for_up {S} (lo hi : nat) (body : nat -> S -> S) (s : S) : S :=
  fold_left (fun s i => body i s) (seq lo (hi - lo)) s.
Definition for_down {S} (hi lo : nat) (body : nat -> S -> S) (s : S) : S :=
  fold_left (fun s i => body i s) (rev (seq lo (hi - lo))) s.

Notation "x >> n" := (Z.shiftr x n) (at level 38, left associativity).
Notation "x <32 n" := (u32 (Z.shiftl x n)) (at level 38, left associativity).

(** [static_cast<uint32>(static_cast<int32>(x) >> 31)] is the sign of [x],
    copied to every bit. *)
Definition sign_mask (x : Z) : Z := u32 (Z.shiftr (s32 x) 31).

(** [~x] *)
Definition not32 (x : Z) : Z := u32 (Z.lnot x).

(** ** Field elements *)
(* src: crypto/p224.h 22-22! FieldElement *)
Definition FieldElement : Type := list Z.

(* src: crypto/p224.cc 36-39! kP *)
Definition kP : FieldElement :=
  [1; 0; 0; 268431360; 268435455; 268435455; 268435455; 268435455].

(* src: crypto/p224.cc 116-116! kBottom28Bits *)
Definition kBottom28Bits : Z := 0xfffffff.

(** The limbs that a constant loop computes one by one. *)
Definition limbs (f : nat -> Z) : list Z := map f (seq 0 8).

(* src: crypto/p224.cc 78-82! Add *)
Definition Add (a b : FieldElement) : FieldElement := limbs (fun i => u32 (a.[i] + b.[i])).

(* src: crypto/p224.cc 84-84! kTwo31p3 *)
Definition kTwo31p3 : Z := 2 ^ 31 + 2 ^ 3.
(* src: crypto/p224.cc 85-85! kTwo31m3 *)
Definition kTwo31m3 : Z := 2 ^ 31 - 2 ^ 3.
(* src: crypto/p224.cc 86-86! kTwo31m15m3 *)
Definition kTwo31m15m3 : Z := 2 ^ 31 - 2 ^ 15 - 2 ^ 3.

(* src: crypto/p224.cc 90-93! kZero31ModP *)
Definition kZero31ModP : FieldElement :=
  [kTwo31p3; kTwo31m3; kTwo31m3; kTwo31m15m3; kTwo31m3; kTwo31m3; kTwo31m3; kTwo31m3].

(* src: crypto/p224.cc 99-104! Subtract *)
Definition Subtract (a b : FieldElement) : FieldElement :=
  limbs (fun i => u32 (u32 (a.[i] + kZero31ModP.[i]) - b.[i])).

(* src: crypto/p224.cc 106-106! kTwo63p35 *)
Definition kTwo63p35 : Z := 2 ^ 63 + 2 ^ 35.
(* src: crypto/p224.cc 107-107! kTwo63m35 *)
Definition kTwo63m35 : Z := 2 ^ 63 - 2 ^ 35.
(* src: crypto/p224.cc 108-108! kTwo63m35m19 *)
Definition kTwo63m35m19 : Z := 2 ^ 63 - 2 ^ 35 - 2 ^ 19.

(* src: crypto/p224.cc 111-114! kZero63ModP *)
Definition kZero63ModP : list Z :=
  [kTwo63p35; kTwo63m35; kTwo63m35; kTwo63m35; kTwo63m35m19; kTwo63m35; kTwo63m35; kTwo63m35].

(** The turns of the loops over the limbs of the large element [in]. *)
(* src: crypto/p224.cc 129-131! ReduceLarge *)
Definition add_zero (i : nat) (in_ : list Z) : list Z :=
  in_.[i]<- (u64 (in_.[i] + kZero63ModP.[i])).

(* src: crypto/p224.cc 135-139! ReduceLarge *)
Definition reflect (i : nat) (in_ : list Z) : list Z :=
  let in_ := in_.[i - 8]<- (u64 (in_.[i - 8] - in_.[i])) in
  let in_ := in_.[i - 5]<- (u64 (in_.[i - 5] + u64 (Z.shiftl (Z.land in_.[i] 0xffff) 12))) in
  in_.[i - 4]<- (u64 (in_.[i - 4] + in_.[i] >> 16)).

(* src: crypto/p224.cc 145-148! ReduceLarge *)
Definition carry_out (i : nat) (s : list Z * list Z) : list Z * list Z :=
  let '(in_, out) := s in
  let in_ := in_.[i + 1]<- (u64 (in_.[i + 1] + in_.[i] >> 28)) in
  (in_, out.[i]<- (u32 (Z.land in_.[i] kBottom28Bits))).

(** Every limb of [out] is assigned before it is read. *)
(* src: crypto/p224.cc 126-165! ReduceLarge *)
Definition ReduceLarge (in_ : list Z) : FieldElement :=
  let out := repeat 0 8 in
  let in_ := for_up 0 8 add_zero in_ in
  let in_ := for_down 15 8 reflect in_ in
  let in_ := in_.[8]<- 0 in
  let '(in_, out) := for_up 1 8 carry_out (in_, out) in
  let in_ := in_.[0]<- (u64 (in_.[0] - in_.[8])) in
  let out := out.[3]<- (u32 (out.[3] + (Z.land in_.[8] 0xffff) <32 12)) in
  let out := out.[4]<- (u32 (out.[4] + u32 (in_.[8] >> 16))) in
  let out := out.[0]<- (u32 (Z.land in_.[0] kBottom28Bits)) in
  let out := out.[1]<- (u32 (out.[1] + u32 (Z.land (in_.[0] >> 28) kBottom28Bits))) in
  out.[2]<- (u32 (out.[2] + u32 (in_.[0] >> 56))).

(* src: crypto/p224.cc 175-179! Mul *)
Definition mul_row (a b : FieldElement) (i : nat) : list Z -> list Z :=
  for_up 0 8 (fun j tmp => tmp.[i + j]<- (u64 (tmp.[i + j] + u64 (a.[i] * b.[j])))).

(* src: crypto/p224.cc 171-182! Mul *)
Definition Mul (a b : FieldElement) : FieldElement :=
  ReduceLarge (for_up 0 8 (mul_row a b) (repeat 0 15)).

(* src: crypto/p224.cc 192-201! Square *)
Definition square_row (a : FieldElement) (i : nat) : list Z -> list Z :=
  for_up 0 (i + 1) (fun j tmp =>
    let r := u64 (a.[i] * a.[j]) in
    if Nat.eqb i j then tmp.[i + j]<- (u64 (tmp.[i + j] + r))
    else tmp.[i + j]<- (u64 (tmp.[i + j] + u64 (Z.shiftl r 1)))).

(* src: crypto/p224.cc 188-204! Square *)
Definition Square (a : FieldElement) : FieldElement :=
  ReduceLarge (for_up 0 8 (square_row a) (repeat 0 15)).

(* src: crypto/p224.cc 213-216! Reduce *)
Definition carry (i : nat) (a : FieldElement) : FieldElement :=
  let a := a.[i + 1]<- (u32 (a.[i + 1] + a.[i] >> 28)) in
  a.[i]<- (Z.land a.[i] kBottom28Bits).

(* src: crypto/p224.cc 210-239! Reduce *)
Definition Reduce (a : FieldElement) : FieldElement :=
  let a := for_up 0 7 carry a in
  let top := a.[7] >> 28 in
  let a := a.[7]<- (Z.land a.[7] kBottom28Bits) in
  let mask := top in
  let mask := Z.lor mask (mask >> 2) in
  let mask := Z.lor mask (mask >> 1) in
  let mask := mask <32 31 in
  let mask := sign_mask mask in
  let a := a.[0]<- (u32 (a.[0] - top)) in
  let a := a.[3]<- (u32 (a.[3] + top <32 12)) in
  let a := a.[3]<- (u32 (a.[3] - Z.land 1 mask)) in
  let a := a.[2]<- (u32 (a.[2] + Z.land mask (Z.shiftl 1 28 - 1))) in
  let a := a.[1]<- (u32 (a.[1] + Z.land mask (Z.shiftl 1 28 - 1))) in
  a.[0]<- (u32 (a.[0] + Z.land mask (Z.shiftl 1 28))).

(** [Square(&f, f)], [n] times *)
Definition squares (n : nat) (f : FieldElement) : FieldElement := Nat.iter n Square f.

(* src: crypto/p224.cc 243-289! Invert *)
Definition Invert (in_ : FieldElement) : FieldElement :=
  let f1 := Square in_ in
  let f1 := Mul f1 in_ in
  let f1 := Square f1 in
  let f1 := Mul f1 in_ in
  let f2 := Square f1 in
  let f2 := Square f2 in
  let f2 := Square f2 in
  let f1 := Mul f1 f2 in
  let f2 := Square f1 in
  let f2 := squares 5 f2 in
  let f2 := Mul f2 f1 in
  let f3 := Square f2 in
  let f3 := squares 11 f3 in
  let f2 := Mul f3 f2 in
  let f3 := Square f2 in
  let f3 := squares 23 f3 in
  let f3 := Mul f3 f2 in
  let f4 := Square f3 in
  let f4 := squares 47 f4 in
  let f3 := Mul f3 f4 in
  let f4 := Square f3 in
  let f4 := squares 23 f4 in
  let f2 := Mul f4 f2 in
  let f2 := squares 6 f2 in
  let f1 := Mul f1 f2 in
  let f1 := Square f1 in
  let f1 := Mul f1 in_ in
  let f1 := squares 97 f1 in
  Mul f1 f3.

(* src: crypto/p224.cc 313-317! Contract *)
Definition borrow (i : nat) (out : FieldElement) : FieldElement :=
  let mask := sign_mask out.[i] in
  let out := out.[i]<- (u32 (out.[i] + Z.land (Z.shiftl 1 28) mask)) in
  out.[i + 1]<- (u32 (out.[i + 1] - Z.land 1 mask)).

(** What is above 224 bits goes, at the same value modulo the prime, and the
    low limbs are repaired: lines 303 to 317, and again lines 325 to 350. *)
(* src: crypto/p224.cc 303-317! Contract *)
Definition eliminate (out : FieldElement) : FieldElement :=
  let top := out.[7] >> 28 in
  let out := out.[7]<- (Z.land out.[7] kBottom28Bits) in
  let out := out.[0]<- (u32 (out.[0] - top)) in
  let out := out.[3]<- (u32 (out.[3] + top <32 12)) in
  for_up 0 3 borrow out.

(* src: crypto/p224.cc 299-350! Contract *)
Definition carried (out : FieldElement) : FieldElement :=
  let out := for_up 0 7 carry out in
  let out := eliminate out in
  let out := for_up 3 7 carry out in
  eliminate out.

(** [x |= x >> 16; ... x |= x >> 1] and [x &= x >> 16; ... x &= x >> 1] *)
Definition or_down (x : Z) : Z :=
  fold_left (fun x n => Z.lor x (x >> n)) [16; 8; 4; 2; 1] x.
Definition and_down (x : Z) : Z :=
  fold_left (fun x n => Z.land x (x >> n)) [16; 8; 4; 2; 1] x.

(* src: crypto/p224.cc 359-371! Contract *)
Definition top_4_all_ones (out : FieldElement) : Z :=
  let x := for_up 4 8 (fun i x => Z.land x out.[i]) 0xffffffff in
  let x := Z.lor x 0xf0000000 in
  let x := and_down x in
  sign_mask (x <32 31).

(* src: crypto/p224.cc 374-381! Contract *)
Definition bottom_3_non_zero (out : FieldElement) : Z :=
  sign_mask (or_down (Z.lor (Z.lor out.[0] out.[1]) out.[2])).

(* src: crypto/p224.cc 389-396! Contract *)
Definition out_3_equal (n : Z) : Z := not32 (sign_mask (or_down n <32 31)).

(* src: crypto/p224.cc 399-399! Contract *)
Definition out_3_gt (n : Z) : Z := not32 (sign_mask (n <32 31)).

(* src: crypto/p224.cc 295-408! Contract *)
Definition Contract (out : FieldElement) : FieldElement :=
  let out := carried out in
  let n := u32 (out.[3] - 0xffff000) in
  let mask := Z.land (top_4_all_ones out)
                (Z.lor (Z.land (out_3_equal n) (bottom_3_non_zero out)) (out_3_gt n)) in
  let out := out.[0]<- (u32 (out.[0] - Z.land 1 mask)) in
  let out := out.[3]<- (u32 (out.[3] - Z.land 0xffff000 mask)) in
  let out := out.[4]<- (u32 (out.[4] - Z.land 0xfffffff mask)) in
  let out := out.[5]<- (u32 (out.[5] - Z.land 0xfffffff mask)) in
  let out := out.[6]<- (u32 (out.[6] - Z.land 0xfffffff mask)) in
  out.[7]<- (u32 (out.[7] - Z.land 0xfffffff mask)).

(* src: crypto/p224.cc 44-73! IsZero *)
Definition IsZero (a : FieldElement) : Z :=
  let minimal := Contract a in
  let '(is_zero, is_p) :=
    for_up 0 8 (fun i '(is_zero, is_p) =>
      (Z.lor is_zero minimal.[i], Z.lor is_p (u32 (minimal.[i] - kP.[i])))) (0, 0) in
  let is_zero := or_down is_zero in
  let is_p := or_down is_p in
  let is_zero := Z.land is_zero (Z.land is_p 1) in
  let is_zero := (not32 is_zero) <32 31 in
  sign_mask is_zero.

(** ** Points *)
(* src: crypto/p224.h 24-36! Point *)
Record Point := mkPoint { x : FieldElement; y : FieldElement; z : FieldElement }.
#[export] Instance eta_Point : Eta Point := fun p => mkPoint (x p) (y p) (z p).

(* src: crypto/p224.cc 419-422! kB *)
Definition kB : FieldElement :=
  [55967668; 11768882; 265861671; 185302395; 39211076; 180311059; 84673715; 188764328].

(** [f[i] <<= n] for every limb *)
Definition shift_limbs (n : Z) (f : FieldElement) : FieldElement := limbs (fun i => f.[i] <32 n).

(* src: crypto/p224.cc 585-587! CopyConditional *)
Definition copy_element (mask : Z) (out a : FieldElement) : FieldElement :=
  limbs (fun i => Z.lxor out.[i] (Z.land mask (Z.lxor a.[i] out.[i]))).

(* src: crypto/p224.cc 581-589! CopyConditional *)
Definition CopyConditional (out a : Point) (mask : Z) : Point :=
  mkPoint (copy_element mask (x out) (x a)) (copy_element mask (y out) (y a))
          (copy_element mask (z out) (z a)).

(** The result may be written over the argument: [alias] says that [a] is the
    object [out], so that what the function reads of [a] is what it has
    written there. *)
(* src: crypto/p224.cc 526-577! DoubleJacobian *)
Definition DoubleJacobian (alias : bool) (out a : Point) : Point :=
  let arg out := if alias then out else a in
  let delta := Square (z (arg out)) in
  let gamma := Square (y (arg out)) in
  let beta := Mul (x (arg out)) gamma in
  let t := Add (x (arg out)) delta in
  let t := limbs (fun i => u32 (t.[i] + t.[i] <32 1)) in
  let t := Reduce t in
  let alpha := Subtract (x (arg out)) delta in
  let alpha := Reduce alpha in
  let alpha := Mul alpha t in
  let out := out <| z := Add (y (arg out)) (z (arg out)) |> in
  let out := out <| z := Reduce (z out) |> in
  let out := out <| z := Square (z out) |> in
  let out := out <| z := Subtract (z out) gamma |> in
  let out := out <| z := Reduce (z out) |> in
  let out := out <| z := Subtract (z out) delta |> in
  let out := out <| z := Reduce (z out) |> in
  let delta := shift_limbs 3 beta in
  let delta := Reduce delta in
  let out := out <| x := Square alpha |> in
  let out := out <| x := Subtract (x out) delta |> in
  let out := out <| x := Reduce (x out) |> in
  let beta := shift_limbs 2 beta in
  let beta := Reduce beta in
  let beta := Subtract beta (x out) in
  let beta := Reduce beta in
  let gamma := Square gamma in
  let gamma := shift_limbs 3 gamma in
  let gamma := Reduce gamma in
  let out := out <| y := Mul alpha beta |> in
  let out := out <| y := Subtract (y out) gamma |> in
  out <| y := Reduce (y out) |>.

(** A [uint32] as a condition. *)
Definition truth (w : Z) : bool := negb (w =? 0).

(** The result is another object than the arguments. *)
(* src: crypto/p224.cc 428-523! AddJacobian *)
Definition AddJacobian (out a b : Point) : Point :=
  let z1_is_zero := IsZero (z a) in
  let z2_is_zero := IsZero (z b) in
  let z1z1 := Square (z a) in
  let z2z2 := Square (z b) in
  let u1 := Mul (x a) z2z2 in
  let u2 := Mul (x b) z1z1 in
  let s1 := Mul (z b) z2z2 in
  let s1 := Mul (y a) s1 in
  let s2 := Mul (z a) z1z1 in
  let s2 := Mul (y b) s2 in
  let h := Subtract u2 u1 in
  let h := Reduce h in
  let x_equal := IsZero h in
  let i := shift_limbs 1 h in
  let i := Reduce i in
  let i := Square i in
  let j := Mul h i in
  let r := Subtract s2 s1 in
  let r := Reduce r in
  let y_equal := IsZero r in
  if truth x_equal && truth y_equal && negb (truth z1_is_zero) && negb (truth z2_is_zero)
  then DoubleJacobian false out a
  else
  let r := shift_limbs 1 r in
  let r := Reduce r in
  let v := Mul u1 i in
  let z1z1 := Add z1z1 z2z2 in
  let z2z2 := Add (z a) (z b) in
  let z2z2 := Reduce z2z2 in
  let z2z2 := Square z2z2 in
  let out := out <| z := Subtract z2z2 z1z1 |> in
  let out := out <| z := Reduce (z out) |> in
  let out := out <| z := Mul (z out) h |> in
  let z1z1 := shift_limbs 1 v in
  let z1z1 := Add j z1z1 in
  let z1z1 := Reduce z1z1 in
  let out := out <| x := Square r |> in
  let out := out <| x := Subtract (x out) z1z1 |> in
  let out := out <| x := Reduce (x out) |> in
  let s1 := shift_limbs 1 s1 in
  let s1 := Mul s1 j in
  let z1z1 := Subtract v (x out) in
  let z1z1 := Reduce z1z1 in
  let z1z1 := Mul z1z1 r in
  let out := out <| y := Subtract z1z1 s1 |> in
  let out := out <| y := Reduce (y out) |> in
  let out := CopyConditional out a z2_is_zero in
  CopyConditional out b z1_is_zero.

(** The bit of a byte of the scalar, as a mask. *)
(* src: crypto/p224.cc 601-602! ScalarMult *)
Definition bit_mask (byte : Z) (bit_num : nat) : Z :=
  u32 (Z.shiftr (s32 (Z.shiftl (Z.land (byte >> (7 - Z.of_nat bit_num)) 1) 31)) 31).

(** [tmp] is written by the addition before it is read. *)
(* src: crypto/p224.cc 600-604! ScalarMult *)
Definition scalar_bit (a : Point) (byte : Z) (bit_num : nat) (out : Point) : Point :=
  let out := DoubleJacobian true out out in
  let bit := bit_mask byte bit_num in
  let tmp := AddJacobian out a out in
  CopyConditional out tmp bit.

Definition zero_point : Point := mkPoint (repeat 0 8) (repeat 0 8) (repeat 0 8).

(* src: crypto/p224.cc 593-607! ScalarMult *)
Definition ScalarMultBytes (a : Point) (scalar : list Z) : Point :=
  fold_left (fun out byte => for_up 0 8 (scalar_bit a byte) out) scalar zero_point.

(** ** Text *)

(** The 32-bit word at an index of a text in network byte order, which
    [NetToHost32] makes of it on a machine of either byte order; and back. *)
Definition be32 (bytes : list Z) (i : nat) : Z :=
  bytes.[4 * i] * 2 ^ 24 + bytes.[4 * i + 1] * 2 ^ 16 + bytes.[4 * i + 2] * 2 ^ 8 + bytes.[4 * i + 3].
Definition to_be32 (w : Z) : list Z :=
  [(w / 2 ^ 24) mod 256; (w / 2 ^ 16) mod 256; (w / 2 ^ 8) mod 256; w mod 256].

(* src: crypto/p224.cc 611-626! Get224Bits *)
Definition Get224Bits (in_ : list Z) : FieldElement :=
  let word := be32 in_ in
  [ Z.land (word 6%nat) kBottom28Bits;
    Z.land (Z.lor (word 5%nat <32 4) (word 6%nat >> 28)) kBottom28Bits;
    Z.land (Z.lor (word 4%nat <32 8) (word 5%nat >> 24)) kBottom28Bits;
    Z.land (Z.lor (word 3%nat <32 12) (word 4%nat >> 20)) kBottom28Bits;
    Z.land (Z.lor (word 2%nat <32 16) (word 3%nat >> 16)) kBottom28Bits;
    Z.land (Z.lor (word 1%nat <32 20) (word 2%nat >> 12)) kBottom28Bits;
    Z.land (Z.lor (word 0%nat <32 24) (word 1%nat >> 8)) kBottom28Bits;
    Z.land (word 0%nat >> 4) kBottom28Bits ].

(* src: crypto/p224.cc 631-639! Put224Bits *)
Definition Put224Bits (in_ : FieldElement) : list Z :=
  to_be32 (Z.lor (in_.[6] >> 24) (in_.[7] <32 4)) ++
  to_be32 (Z.lor (in_.[5] >> 20) (in_.[6] <32 8)) ++
  to_be32 (Z.lor (in_.[4] >> 16) (in_.[5] <32 12)) ++
  to_be32 (Z.lor (in_.[3] >> 12) (in_.[4] <32 16)) ++
  to_be32 (Z.lor (in_.[2] >> 8) (in_.[3] <32 20)) ++
  to_be32 (Z.lor (in_.[1] >> 4) (in_.[2] <32 24)) ++
  to_be32 (Z.lor (in_.[0] >> 0) (in_.[1] <32 28)).

Definition one : FieldElement := [1; 0; 0; 0; 0; 0; 0; 0].

(** [memcmp] of elements *)
Definition same_element (a b : FieldElement) : bool := bool_decide (a = b).

(** [None] for a text of the wrong length, which leaves the point alone. *)
(* src: crypto/p224.cc 647-676! SetFromString *)
Definition SetFromString (text : list Z) : option (Point * bool) :=
  if negb (length text =? 2 * 28)%nat then None else
  let x := Get224Bits text in
  let y := Get224Bits (drop 28 text) in
  let z := one in
  let lhs := Square y in
  let lhs := Contract lhs in
  let rhs := Square x in
  let rhs := Mul x rhs in
  let three_x := limbs (fun i => u32 (x.[i] * 3)) in
  let three_x := Reduce three_x in
  let rhs := Subtract rhs three_x in
  let rhs := Reduce rhs in
  let rhs := Add rhs kB in
  let rhs := Contract rhs in
  Some (mkPoint x y z, same_element lhs rhs).

(* src: crypto/p224.cc 678-700! ToString *)
Definition ToString (point : Point) : list Z :=
  if truth (IsZero (z point)) then repeat 0 56 else
  let zinv := Invert (z point) in
  let zinv_sq := Square zinv in
  let x := Mul (x point) zinv_sq in
  let zinv_sq := Mul zinv_sq zinv in
  let y := Mul (y point) zinv_sq in
  let x := Contract x in
  let y := Contract y in
  Put224Bits x ++ Put224Bits y.

(* src: crypto/p224.cc 702-704! ScalarMult *)
Definition ScalarMult (in_ : Point) (scalar : list Z) : Point := ScalarMultBytes in_ (take 28 scalar).

(* src: crypto/p224.cc 707-713! kBasePoint *)
Definition kBasePoint : Point := mkPoint
  [22813985; 52956513; 34677300; 203240812; 12143107; 133374265; 225162431; 191946955]
  [83918388; 223877528; 122119236; 123340192; 266784067; 263504429; 146143011; 198407736]
  [1; 0; 0; 0; 0; 0; 0; 0].

(* src: crypto/p224.cc 715-717! ScalarBaseMult *)
Definition ScalarBaseMult (scalar : list Z) : Point := ScalarMultBytes kBasePoint (take 28 scalar).

(** [out] is the object given for the result. *)
(* src: crypto/p224.cc 719-721! Add *)
Definition AddPoints (out a b : Point) : Point := AddJacobian out a b.

(* src: crypto/p224.cc 723-739! Negate *)
Definition Negate (in_ : Point) : Point :=
  let zinv := Invert (z in_) in
  let zinv_sq := Square zinv in
  let x_ := Mul (x in_) zinv_sq in
  let zinv_sq := Mul zinv_sq zinv in
  let y_ := Mul (y in_) zinv_sq in
  let y_ := Subtract kP y_ in
  let y_ := Reduce y_ in
  mkPoint x_ y_ one.
