(* ===== verification/P224Field.v ===== *)
(** The field operations of P224 compute in the field of the integers modulo
    the prime, and no limb of a result or of a step on the way leaves its
    type. *)
From Stdlib Require Import Setoid Morphisms.
From S2P Require Import Prelude P224.

(** ** Congruence modulo the prime *)
Definition p224 : Z := 2 ^ 224 - 2 ^ 96 + 1.
Definition eqm (a b : Z) : Prop := (p224 | a - b).
Notation "a ≡p b" := (eqm a b) (at level 70).

#[export] Instance eqm_equiv : Equivalence eqm.
Proof.
  split.
  - intros a. exists 0. lia.
  - intros a b [k Hk]. exists (- k). lia.
  - intros a b c [k Hk] [l Hl]. exists (k + l). lia.
Qed.

#[export] Instance eqm_add : Proper (eqm ==> eqm ==> eqm) Z.add.
Proof. intros a b [k Hk] c d [l Hl]. exists (k + l). lia. Qed.

#[export] Instance eqm_sub : Proper (eqm ==> eqm ==> eqm) Z.sub.
Proof. intros a b [k Hk] c d [l Hl]. exists (k - l). lia. Qed.

#[export] Instance eqm_mul : Proper (eqm ==> eqm ==> eqm) Z.mul.
Proof.
  intros a b [k Hk] c d [l Hl]. exists (k * c + b * l).
  replace (a * c - b * d) with ((a - b) * c + b * (c - d)) by ring. rewrite Hk, Hl. ring.
Qed.

#[export] Instance eqm_opp : Proper (eqm ==> eqm) Z.opp.
Proof. intros a b [k Hk]. exists (- k). lia. Qed.

Lemma eqm_shift a b k : a = b + k * p224 -> a ≡p b.
Proof. intros ->. exists k. lia. Qed.

Lemma eqm_mod a b : a ≡p b <-> a mod p224 = b mod p224.
Proof.
  assert (Hp : 0 < p224) by (vm_compute; reflexivity).
  split.
  - intros [k Hk]. replace a with (b + k * p224) by lia. by rewrite Z.mod_add by lia.
  - intros H. exists (a / p224 - b / p224).
    pose proof (Z.div_mod a p224 ltac:(lia)). pose proof (Z.div_mod b p224 ltac:(lia)). lia.
Qed.

(** ** The value of limbs *)
Fixpoint value (a : list Z) : Z := match a with [] => 0 | x :: a => x + 2 ^ 28 * value a end.

(** The value of the first [n] limbs. *)
Definition valn (n : nat) (a : list Z) : Z := value (take n a).

Lemma length_upd a i v : length (upd a i v) = length a.
Proof. revert i. induction a as [|x a IH]; intros [|i]; cbn; auto. Qed.

Lemma nth_upd a i v : (i < length a)%nat -> (upd a i v).[i] = v.
Proof. revert i. induction a as [|x a IH]; intros [|i] Hi; cbn in *; [lia|lia|done|]. apply IH. lia. Qed.

Lemma nth_upd_ne a i j v : i <> j -> (upd a i v).[j] = a.[j].
Proof.
  revert i j. induction a as [|x a IH]; intros [|i] [|j] Hij; cbn; try done. apply IH. lia.
Qed.

Lemma valn_S n a : (n < length a)%nat -> valn (S n) a = valn n a + a.[n] * 2 ^ (28 * Z.of_nat n).
Proof.
  unfold valn. revert n. induction a as [|x a IH]; intros n Hn; [cbn in Hn; lia|]. cbn [length] in Hn.
  destruct n as [|n]; [change (x + 2 ^ 28 * 0 = 0 + x * 1); ring|].
  change (take (S (S n)) (x :: a)) with (x :: take (S n) a). change (take (S n) (x :: a)) with (x :: take n a).
  cbn [value nth]. rewrite IH by lia. rewrite Nat2Z.inj_succ, Z.mul_succ_r, Z.pow_add_r by lia. ring.
Qed.

Lemma valn_upd n a i v :
  (i < length a)%nat -> (i < n)%nat ->
  valn n (upd a i v) = valn n a + (v - a.[i]) * 2 ^ (28 * Z.of_nat i).
Proof.
  unfold valn. revert n i. induction a as [|x a IH]; intros n i Hi Hn; [cbn in Hi; lia|].
  destruct n as [|n]; [lia|]. destruct i as [|i]; cbn [upd take value nth length] in *; [cbn; lia|].
  rewrite IH by lia. rewrite Nat2Z.inj_succ, Z.mul_succ_r, Z.pow_add_r by lia. ring.
Qed.

Lemma valn_upd_ge n a i v : (n <= i)%nat -> valn n (upd a i v) = valn n a.
Proof.
  unfold valn. revert n i. induction a as [|x a IH]; intros n i Hn; [done|].
  destruct n as [|n], i as [|i]; cbn [upd take value]; try done; [lia|]. rewrite IH by lia. done.
Qed.

Lemma valn_all n a : length a = n -> valn n a = value a.
Proof. intros <-. unfold valn. by rewrite take_ge by lia. Qed.

(** Every limb is below a bound. *)
Definition below (n : nat) (b : Z) (a : list Z) : Prop := length a = n /\ forall i, 0 <= a.[i] < b.

Lemma below_le n b c a : below n b a -> b <= c -> below n c a.
Proof. intros [Hl Ha] Hb. split; [done|]. intros i. specialize (Ha i). lia. Qed.

(** ** Loops keep invariants *)
Lemma for_up_inv {S} (lo hi : nat) (body : nat -> S -> S) (I : nat -> S -> Prop) s :
  (lo <= hi)%nat -> I lo s -> (forall i s, (lo <= i < hi)%nat -> I i s -> I (Datatypes.S i) (body i s)) ->
  I hi (for_up lo hi body s).
Proof.
  intros Hle Hlo Hstep. unfold for_up. replace hi with (lo + (hi - lo))%nat at 1 by lia.
  assert (Hstep' : forall i s, (lo <= i < lo + (hi - lo))%nat -> I i s -> I (Datatypes.S i) (body i s)).
  { intros i s' Hi. apply Hstep. lia. }
  clear Hstep Hle. revert Hstep'. generalize (hi - lo)%nat as n. clear hi. intros n. revert lo s Hlo.
  induction n as [|n IH]; intros lo s Hlo Hstep; cbn [seq fold_left]; [by rewrite Nat.add_0_r|].
  rewrite <- Nat.add_succ_comm. apply IH; [apply Hstep; [lia|done]|].
  intros i s' Hi. apply Hstep. lia.
Qed.

Lemma for_down_inv {S} (hi lo : nat) (body : nat -> S -> S) (I : nat -> S -> Prop) s :
  (lo <= hi)%nat -> I hi s -> (forall i s, (lo <= i < hi)%nat -> I (Datatypes.S i) s -> I i (body i s)) ->
  I lo (for_down hi lo body s).
Proof.
  intros Hle Hhi Hstep. unfold for_down.
  assert (Hgen : forall n, (lo + n <= hi)%nat -> forall s, I (lo + n)%nat s ->
    I lo (fold_left (fun s i => body i s) (rev (seq lo n)) s)).
  { induction n as [|n IH]; intros Hn s' Hs; [by rewrite Nat.add_0_r in Hs|].
    rewrite seq_S, rev_app_distr. cbn [rev app fold_left]. apply IH; [lia|].
    apply Hstep; [lia|]. by replace (Datatypes.S (lo + n)) with (lo + Datatypes.S n)%nat by lia. }
  apply Hgen; [lia|]. by replace (lo + (hi - lo))%nat with hi by lia.
Qed.

(** ** Words *)
Lemma u64_id z : 0 <= z < 18446744073709551616 -> u64 z = z.
Proof. intros Hz. by apply wrap_u_id. Qed.

Lemma shiftr_28 z : z >> 28 = z / 268435456.
Proof. by rewrite Z.shiftr_div_pow2. Qed.

Lemma land_28 z : Z.land z kBottom28Bits = z mod 268435456.
Proof. change kBottom28Bits with (Z.ones 28). by rewrite Z.land_ones. Qed.

Lemma land_16 z : Z.land z 0xffff = z mod 65536.
Proof. change 0xffff with (Z.ones 16). by rewrite Z.land_ones. Qed.

Lemma shiftr_16 z : z >> 16 = z / 65536.
Proof. by rewrite Z.shiftr_div_pow2. Qed.

Lemma shiftr_56 z : z >> 56 = z / 268435456 / 268435456.
Proof. rewrite Z.shiftr_div_pow2, Z.div_div by lia. reflexivity. Qed.

Lemma shiftl_12 z : Z.shiftl z 12 = z * 4096.
Proof. by rewrite Z.shiftl_mul_pow2. Qed.

Lemma split_16 z : z = 65536 * (z / 65536) + z mod 65536 /\ 0 <= z mod 65536 < 65536.
Proof. split; [apply Z.div_mod; lia|apply Z.mod_pos_bound; lia]. Qed.

Lemma split_28 z : z = 268435456 * (z / 268435456) + z mod 268435456 /\ 0 <= z mod 268435456 < 268435456.
Proof. split; [apply Z.div_mod; lia|apply Z.mod_pos_bound; lia]. Qed.

Lemma value_upd a i v :
  (i < length a)%nat -> value (upd a i v) = value a + (v - a.[i]) * 2 ^ (28 * Z.of_nat i).
Proof.
  intros Hi. rewrite <- (valn_all (length a) a) by done.
  rewrite <- (valn_all (length a) (upd a i v)) by apply length_upd. by apply valn_upd.
Qed.

(** Drop the reductions of results that are in range, the inner ones first. *)
Ltac no_wrap :=
  repeat match goal with
  | |- context [u32 ?x] => lazymatch x with context [u32 _] => fail | _ => rewrite (u32_id x) by lia end
  end.

Lemma u32_plus x y : u32 (u32 x + y) = u32 (x + y).
Proof. apply Zplus_mod_idemp_l. Qed.

Lemma u32_minus x y : u32 (u32 x - y) = u32 (x - y).
Proof. apply Zminus_mod_idemp_l. Qed.

(** Eight limbs, by name. *)
Lemma eight_limbs (a : list Z) :
  length a = 8%nat -> exists a0 a1 a2 a3 a4 a5 a6 a7, a = [a0; a1; a2; a3; a4; a5; a6; a7].
Proof.
  intros H. do 8 (destruct a as [|? a]; [discriminate H|]). destruct a; [|discriminate H]. by eauto 10.
Qed.

Ltac name_limbs a H :=
  let Hl := fresh in
  destruct H as [Hl H];
  let a0 := fresh a "0" in let a1 := fresh a "1" in let a2 := fresh a "2" in let a3 := fresh a "3" in
  let a4 := fresh a "4" in let a5 := fresh a "5" in let a6 := fresh a "6" in let a7 := fresh a "7" in
  destruct (eight_limbs a Hl) as (a0 & a1 & a2 & a3 & a4 & a5 & a6 & a7 & ->); clear Hl;
  pose proof (H 0%nat); pose proof (H 1%nat); pose proof (H 2%nat); pose proof (H 3%nat);
  pose proof (H 4%nat); pose proof (H 5%nat); pose proof (H 6%nat); pose proof (H 7%nat);
  clear H; cbn [nth] in *.

Lemma below_8 b a0 a1 a2 a3 a4 a5 a6 a7 :
  0 <= a0 < b -> 0 <= a1 < b -> 0 <= a2 < b -> 0 <= a3 < b ->
  0 <= a4 < b -> 0 <= a5 < b -> 0 <= a6 < b -> 0 <= a7 < b ->
  below 8 b [a0; a1; a2; a3; a4; a5; a6; a7].
Proof.
  intros. split; [done|]. intros i. do 8 (destruct i as [|i]; [cbn; lia|]). destruct i; cbn; lia.
Qed.

(** ** Addition, subtraction and multiplication by small constants *)
Lemma Add_spec A B a b :
  below 8 A a -> below 8 B b -> A + B <= 4294967297 ->
  below 8 (A + B - 1) (Add a b) /\ value (Add a b) = value a + value b.
Proof.
  intros Ha Hb Hab. name_limbs a Ha. name_limbs b Hb. unfold Add, limbs. cbn [map seq nth].
  rewrite !u32_id by lia. split; [apply below_8; lia|]. cbn [value]. ring.
Qed.

Lemma field_Subtract_spec a b :
  below 8 1073741824 a -> below 8 1073741824 b ->
  below 8 3221225480 (Subtract a b) /\ value (Subtract a b) ≡p value a - value b.
Proof.
  intros Ha Hb. name_limbs a Ha. name_limbs b Hb. unfold Subtract, limbs. cbn [map seq nth kZero31ModP].
  change kTwo31p3 with 2147483656. change kTwo31m3 with 2147483640. change kTwo31m15m3 with 2147450872.
  rewrite !u32_minus, !u32_id by lia. split; [apply below_8; lia|]. cbn [value].
  eexists (value kZero31ModP / p224). change (value kZero31ModP / p224) with 8.
  change p224 with 26959946667150639794667015087019630673557916260026308143510066298881. ring.
Qed.

Lemma shift_limbs_spec n A a :
  below 8 A a -> 0 <= n -> (A - 1) * 2 ^ n < 4294967296 ->
  below 8 ((A - 1) * 2 ^ n + 1) (shift_limbs n a) /\ value (shift_limbs n a) = 2 ^ n * value a.
Proof.
  intros Ha Hn HA. name_limbs a Ha. unfold shift_limbs, limbs. cbn [map seq nth].
  rewrite !Z.shiftl_mul_pow2 by done. pose proof (pow2_pos n Hn).
  rewrite !u32_id by nia. split; [apply below_8; nia|]. cbn [value]. ring.
Qed.

(** ** Carrying *)

(** Carry from limb [lo] to limb 7: the value stays, and only limb 7 keeps
    more than 28 bits. *)
Lemma carry_chain lo a :
  (lo <= 7)%nat -> below 8 4294967281 a ->
  let r := for_up lo 7 carry a in
  length r = 8%nat /\ value r = value a /\
  (forall i, (i < lo)%nat -> r.[i] = a.[i]) /\
  (forall i, (lo <= i < 7)%nat -> 0 <= r.[i] < 268435456) /\ 0 <= r.[7] < 4294967296.
Proof.
  intros Hlo [Hl Ha] r.
  cut (length r = 8%nat /\ value r = value a /\ (forall i, (i < lo)%nat -> r.[i] = a.[i]) /\
       (forall i, (lo <= i < 7)%nat -> 0 <= r.[i] < 268435456) /\ 0 <= r.[7] < 4294967296 /\
       (forall i, (7 < i)%nat -> r.[i] = a.[i])); [tauto|].
  refine (for_up_inv lo 7 carry (fun n r => length r = 8%nat /\ value r = value a /\
    (forall i, (i < lo)%nat -> r.[i] = a.[i]) /\
    (forall i, (lo <= i < n)%nat -> 0 <= r.[i] < 268435456) /\ 0 <= r.[n] < 4294967296 /\
    (forall i, (n < i)%nat -> r.[i] = a.[i])) a Hlo _ _).
  - pose proof (Ha lo). split_and!; try done; intros; lia.
  - clear r. intros n r Hn (Hlr & Hv & Hlow & Hmid & Hcur & Hhigh). unfold carry.
    rewrite (nth_upd_ne _ (n + 1) n) by lia. rewrite land_28, shiftr_28, (Hhigh (n + 1)%nat) by lia.
    destruct (split_28 r.[n]) as [Hsplit Hmod]. pose proof (Ha (n + 1)%nat).
    assert (0 <= r.[n] / 268435456 < 16) by lia. rewrite u32_id by lia.
    refine (conj _ (conj _ (conj _ (conj _ (conj _ _))))).
    + by rewrite !length_upd.
    + rewrite value_upd, value_upd by (rewrite ?length_upd; lia). rewrite nth_upd_ne by lia.
      rewrite (Hhigh (n + 1)%nat), Hv by lia.
      replace (28 * Z.of_nat (n + 1)) with (28 + 28 * Z.of_nat n) by lia. rewrite Z.pow_add_r by lia.
      rewrite Hsplit at 3. ring.
    + intros i Hi. rewrite !nth_upd_ne by lia. by apply Hlow.
    + intros i Hi. destruct (decide (i = n)) as [->|].
      * rewrite nth_upd by (rewrite length_upd; lia). lia.
      * rewrite !nth_upd_ne by lia. apply Hmid. lia.
    + rewrite nth_upd_ne by lia. rewrite Nat.add_1_r in *. rewrite nth_upd by lia. lia.
    + intros i Hi. rewrite !nth_upd_ne by lia. apply Hhigh. lia.
Qed.

(** The sign of a small number, copied to every bit. *)
Lemma sign_mask_wrap x :
  - 2147483648 <= x < 2147483648 -> sign_mask (u32 x) = if x <? 0 then 4294967295 else 0.
Proof.
  intros Hx. unfold sign_mask.
  replace (s32 (u32 x)) with x.
  - rewrite Z.shiftr_div_pow2 by lia. change (2 ^ 31) with 2147483648. destruct (Z.ltb_spec x 0).
    + assert (E : x / 2147483648 = -1) by (symmetry; apply Z.div_unique with (x + 2147483648); lia). by rewrite E.
    + by rewrite Z.div_small by lia.
  - unfold wrap_s, wrap_u. rewrite Zplus_mod_idemp_l. symmetry. by apply wrap_s_id.
Qed.

(** The bits of a number below 16, collected in the lowest one: the mask that
    [Reduce] builds. *)
Lemma top_mask t :
  0 <= t < 16 ->
  sign_mask ((let m := Z.lor t (t >> 2) in Z.lor m (m >> 1)) <32 31) = if t =? 0 then 0 else 4294967295.
Proof. revert t. compute_below 16%nat. Qed.

(** Reduce brings every element that fits its words, with room for a carry,
    below 2^29: more than what its comment asks for, and exactly what the
    eightfold of a product needs. *)
Lemma Reduce_spec a :
  below 8 4294967281 a -> below 8 536870911 (Reduce a) /\ value (Reduce a) ≡p value a.
Proof.
  intros Ha. destruct (carry_chain 0 a ltac:(lia) Ha) as (Hl & Hv & _ & Hlow & Htop).
  unfold Reduce. set (r := for_up 0 7 carry a) in *. clearbody r. rewrite <- Hv. clear Hv Ha.
  destruct (eight_limbs r Hl) as (r0 & r1 & r2 & r3 & r4 & r5 & r6 & r7 & ->).
  pose proof (Hlow 0%nat ltac:(lia)). pose proof (Hlow 1%nat ltac:(lia)). pose proof (Hlow 2%nat ltac:(lia)).
  pose proof (Hlow 3%nat ltac:(lia)). pose proof (Hlow 4%nat ltac:(lia)). pose proof (Hlow 5%nat ltac:(lia)).
  pose proof (Hlow 6%nat ltac:(lia)). clear Hlow Hl. cbn [nth upd] in *.
  rewrite shiftr_28, (land_28 r7). destruct (split_28 r7) as [Hsplit Hmod].
  set (t := r7 / 268435456) in *. set (r7' := r7 mod 268435456) in *. clearbody t r7'. subst r7.
  assert (Ht : 0 <= t < 16) by lia. pose proof (top_mask t Ht) as Hm. cbv zeta in Hm. rewrite Hm. clear Hm.
  rewrite (Z.shiftl_mul_pow2 t 12) by lia. change (2 ^ 12) with 4096. rewrite (u32_id (t * 4096)) by lia.
  destruct (Z.eqb_spec t 0) as [->|].
  - change (Z.land 1 0) with 0. rewrite !Z.land_0_l, !Z.sub_0_r, !Z.add_0_r.
    no_wrap. split; [apply below_8; lia|]. apply eqm_shift with 0. cbn [value]. ring.
  - change (Z.land 1 4294967295) with 1. change (Z.land 4294967295 (Z.shiftl 1 28 - 1)) with 268435455.
    change (Z.land 4294967295 (Z.shiftl 1 28)) with 268435456.
    rewrite u32_plus. no_wrap. split; [apply below_8; lia|].
    apply eqm_shift with (- t). cbn [value].
    change p224 with 26959946667150639794667015087019630673557916260026308143510066298881. ring.
Qed.

(** ** Large elements *)
Lemma value_kZero63ModP : value kZero63ModP ≡p 0.
Proof. exists (value kZero63ModP / p224). vm_compute. reflexivity. Qed.

(** Adding a multiple of the prime makes the low limbs large enough for what
    is subtracted later. *)
Lemma add_zero_loop a :
  below 15 (2 ^ 62) a ->
  let r := for_up 0 8 add_zero a in
  length r = 15%nat /\ value r ≡p value a /\
  (forall j, (j < 8)%nat -> 2 ^ 63 - 2 ^ 36 <= r.[j] < 2 ^ 63 + 2 ^ 62 + 2 ^ 35) /\
  (forall j, (8 <= j)%nat -> 0 <= r.[j] < 2 ^ 62).
Proof.
  intros [Hl Ha] r.
  assert (Hk : forall j, (j < 8)%nat -> 2 ^ 63 - 2 ^ 36 <= kZero63ModP.[j] <= 2 ^ 63 + 2 ^ 35).
  { intros j Hj. do 8 (destruct j as [|j]; [cbn [nth kZero63ModP]; unfold kTwo63p35, kTwo63m35, kTwo63m35m19; lia|]). lia. }
  assert (H : length r = 15%nat /\ value r = value a + valn 8 kZero63ModP /\
    (forall j, (j < 8)%nat -> r.[j] = a.[j] + kZero63ModP.[j]) /\ (forall j, (8 <= j)%nat -> r.[j] = a.[j])).
  { refine (for_up_inv 0 8 add_zero (fun n r => length r = 15%nat /\ value r = value a + valn n kZero63ModP /\
      (forall j, (j < n)%nat -> r.[j] = a.[j] + kZero63ModP.[j]) /\ (forall j, (n <= j)%nat -> r.[j] = a.[j]))
      a _ _ _); [lia| |].
    - split_and!; [done|unfold valn; cbn; lia|intros; lia|done].
    - clear r. intros n r Hn (Hlr & Hv & Hlow & Hhigh). unfold add_zero. rewrite (Hhigh n) by lia.
      pose proof (Ha n). pose proof (Hk n ltac:(lia)). rewrite u64_id by lia. split_and!.
      + by rewrite length_upd.
      + rewrite value_upd by lia. rewrite Hv, (valn_S n), (Hhigh n) by (cbn; lia). ring.
      + intros j Hj. destruct (decide (j = n)) as [->|]; [by rewrite nth_upd by lia|].
        rewrite nth_upd_ne by lia. apply Hlow. lia.
      + intros j Hj. rewrite nth_upd_ne by lia. apply Hhigh. lia. }
  destruct H as (Hlr & Hv & Hlow & Hhigh). split_and!; [done| | |].
  - rewrite Hv. change (valn 8 kZero63ModP) with (value kZero63ModP). rewrite value_kZero63ModP.
    rewrite Z.add_0_r. reflexivity.
  - intros j Hj. rewrite Hlow by done. pose proof (Ha j). pose proof (Hk j Hj). lia.
  - intros j Hj. rewrite Hhigh by done. apply Ha.
Qed.

(** How large limb [j] can be while limbs [i] and up have been reflected. *)
Definition reflect_min (i j : nat) : Z :=
  if (8 <=? j)%nat then 0 else if (i <=? j + 8)%nat then 2 ^ 61 else 2 ^ 63 - 2 ^ 36.
Definition reflect_max (i j : nat) : Z :=
  (if (8 <=? j)%nat then 2 ^ 62 else 2 ^ 63 + 2 ^ 62 + 2 ^ 35) +
  (if (i <=? j + 5)%nat then 2 ^ 28 else 0) + (if (i <=? j + 4)%nat then 2 ^ 47 else 0).

Ltac nat_tests := repeat match goal with |- context [(?x <=? ?y)%nat] => destruct (Nat.leb_spec x y); try lia end.

Lemma pow_224 : 2 ^ 224 ≡p 2 ^ 96 - 1.
Proof. exists 1. reflexivity. Qed.

Lemma reflect_step n a :
  (8 <= n < 15)%nat -> length a = 15%nat ->
  (forall j, (j < S n)%nat -> reflect_min (S n) j <= a.[j] < reflect_max (S n) j) ->
  length (reflect n a) = 15%nat /\ valn n (reflect n a) ≡p valn (S n) a /\
  (forall j, (j < n)%nat -> reflect_min n j <= (reflect n a).[j] < reflect_max n j).
Proof.
  intros Hn Hl Ha. unfold reflect.
  assert (Hx : 0 <= a.[n] < 2 ^ 62 + 2 ^ 48).
  { pose proof (Ha n ltac:(lia)) as H. unfold reflect_min, reflect_max in H. revert H. nat_tests. }
  rewrite !(nth_upd_ne _ _ n) by lia. rewrite (nth_upd_ne _ (n - 8) (n - 5)) by lia.
  rewrite (nth_upd_ne _ (n - 5) (n - 4)), (nth_upd_ne _ (n - 8) (n - 4)) by lia.
  change 65535 with (Z.ones 16). rewrite Z.land_ones, Z.shiftl_mul_pow2, Z.shiftr_div_pow2 by lia.
  pose proof (Z.div_mod a.[n] (2 ^ 16) ltac:(lia)) as Hsplit.
  pose proof (Z.mod_pos_bound a.[n] (2 ^ 16) ltac:(lia)) as Hlo.
  set (hi := a.[n] / 2 ^ 16) in *. set (lo := a.[n] mod 2 ^ 16) in *. clearbody hi lo.
  assert (0 <= hi < 2 ^ 47) by lia.
  pose proof (Ha (n - 8)%nat ltac:(lia)) as H8. pose proof (Ha (n - 5)%nat ltac:(lia)) as H5.
  pose proof (Ha (n - 4)%nat ltac:(lia)) as H4.
  rewrite (u64_id (lo * _)) by lia.
  rewrite (u64_id (a.[n - 8] - _)) by (unfold reflect_min, reflect_max in *; revert H8; nat_tests).
  rewrite (u64_id (a.[n - 5] + _)) by (unfold reflect_min, reflect_max in *; revert H5; nat_tests).
  rewrite (u64_id (a.[n - 4] + _)) by (unfold reflect_min, reflect_max in *; revert H4; nat_tests).
  refine (conj _ (conj _ _)).
  - by rewrite !length_upd.
  - rewrite !valn_upd by (rewrite ?length_upd; lia). rewrite !nth_upd_ne by lia. rewrite valn_S by lia.
    apply eqm_shift with (- a.[n] * 2 ^ (28 * Z.of_nat (n - 8))). rewrite Hsplit.
    replace (28 * Z.of_nat (n - 5)) with (28 * Z.of_nat (n - 8) + 84) by lia.
    replace (28 * Z.of_nat (n - 4)) with (28 * Z.of_nat (n - 8) + 112) by lia.
    replace (28 * Z.of_nat n) with (28 * Z.of_nat (n - 8) + 224) by lia.
    rewrite !Z.pow_add_r by lia. unfold p224. ring.
  - intros j Hj. pose proof (Ha j ltac:(lia)) as Hj'.
    destruct (decide (j = n - 4)%nat) as [->|]; [rewrite nth_upd by (rewrite !length_upd; lia)|
      rewrite (nth_upd_ne _ (n - 4) j) by done;
      destruct (decide (j = n - 5)%nat) as [->|]; [rewrite nth_upd by (rewrite !length_upd; lia)|
        rewrite (nth_upd_ne _ (n - 5) j) by done;
        destruct (decide (j = n - 8)%nat) as [->|]; [rewrite nth_upd by lia|rewrite nth_upd_ne by done]]];
    unfold reflect_min, reflect_max in *; revert Hj'; nat_tests.
Qed.

Lemma reflect_loop a :
  below 15 (2 ^ 62) a ->
  let r := for_down 15 8 reflect (for_up 0 8 add_zero a) in
  length r = 15%nat /\ valn 8 r ≡p value a /\
  forall j, (j < 8)%nat -> 2 ^ 61 <= r.[j] < 2 ^ 63 + 2 ^ 62 + 2 ^ 48.
Proof.
  intros Ha. destruct (add_zero_loop a Ha) as (Hl & Hv & Hlow & Hhigh).
  set (s := for_up 0 8 add_zero a) in *. clearbody s. intros r.
  assert (H : length r = 15%nat /\ valn 8 r ≡p value a /\
    forall j, (j < 8)%nat -> reflect_min 8 j <= r.[j] < reflect_max 8 j).
  { refine (for_down_inv 15 8 reflect (fun n r => length r = 15%nat /\ valn n r ≡p value a /\
      forall j, (j < n)%nat -> reflect_min n j <= r.[j] < reflect_max n j) s _ _ _); [lia| |].
    - refine (conj Hl (conj _ _)); [by rewrite valn_all by done|].
      intros j Hj. unfold reflect_min, reflect_max. destruct (Nat.lt_ge_cases j 8).
      + pose proof (Hlow j ltac:(lia)). nat_tests.
      + pose proof (Hhigh j ltac:(lia)). nat_tests.
    - clear r. intros n r Hn (Hlr & Hvr & Hr). destruct (reflect_step n r Hn Hlr Hr) as (? & Hstep & ?).
      by rewrite Hstep. }
  destruct H as (Hlr & Hvr & Hr). refine (conj Hlr (conj Hvr _)). intros j Hj.
  pose proof (Hr j Hj) as H. revert H. unfold reflect_min, reflect_max. nat_tests.
Qed.

(** What is left of limbs 0 to 8 after the carries into [out]: limb 0 of the
    large element, limbs 1 to 7 of [out], and limb 8. *)
Lemma carry_out_loop a :
  (8 < length a)%nat -> (forall j, (j < 8)%nat -> 0 <= a.[j] < 2 ^ 63 + 2 ^ 62 + 2 ^ 48) -> a.[8] = 0 ->
  let '(r, out) := for_up 1 8 carry_out (a, repeat 0 8) in
  length r = length a /\ length out = 8%nat /\ r.[0] = a.[0] /\ out.[0] = 0 /\ 0 <= r.[8] < 2 ^ 36 /\
  (forall j, (1 <= j < 8)%nat -> 0 <= out.[j] < 2 ^ 28) /\
  a.[0] + value out + r.[8] * 2 ^ 224 = valn 8 a.
Proof.
  intros Hl Ha Ha8.
  pose proof (for_up_inv 1 8 carry_out (fun n s => let '(r, out) := s in
    length r = length a /\ length out = 8%nat /\ r.[0] = a.[0] /\ out.[0] = 0 /\
    0 <= r.[n] - a.[n] < 2 ^ 36 /\ (forall j, (n < j)%nat -> r.[j] = a.[j]) /\
    (forall j, (1 <= j < n)%nat -> 0 <= out.[j] < 2 ^ 28) /\ (forall j, (n <= j)%nat -> out.[j] = 0) /\
    a.[0] + value out + (r.[n] - a.[n]) * 2 ^ (28 * Z.of_nat n) = valn n a) (a, repeat 0 8)) as Hinv.
  destruct (for_up 1 8 carry_out (a, repeat 0 8)) as [r out].
  destruct Hinv as (Hlr & Hlo & H0 & Ho0 & H8 & _ & Hout & _ & Hv).
  - lia.
  - refine (conj eq_refl (conj eq_refl (conj eq_refl (conj eq_refl _)))).
    split_and!; try done; try lia.
    + intros j Hj. do 8 (destruct j as [|j]; [done|]). by destruct j.
    + rewrite Z.sub_diag, (valn_S 0) by lia. change (valn 0 a) with 0. change (value (repeat 0 8)) with 0.
      change (2 ^ (28 * Z.of_nat 0)) with 1. lia.
  - clear r out. intros n [r out] Hn (Hlr & Hlo & H0 & Ho0 & Hcur & Hhigh & Hout & Hzero & Hv).
    unfold carry_out. rewrite (Hhigh (n + 1)%nat) by lia. rewrite (nth_upd_ne _ _ n) by lia.
    rewrite land_28, shiftr_28. destruct (split_28 r.[n]) as [Hsplit Hmod].
    set (q := r.[n] / 268435456) in *. set (m := r.[n] mod 268435456) in *. clearbody q m.
    pose proof (Ha n ltac:(lia)) as Han.
    assert (Hn1 : 0 <= a.[n + 1] < 2 ^ 63 + 2 ^ 62 + 2 ^ 48).
    { destruct (decide (n = 7)%nat) as [->|]; [change (7 + 1)%nat with 8%nat; rewrite Ha8; lia|apply Ha; lia]. }
    assert (0 <= q < 2 ^ 36) by lia. rewrite u64_id, u32_id by lia.
    refine (conj _ (conj _ (conj _ (conj _ (conj _ (conj _ (conj _ (conj _ _)))))))).
    + by rewrite length_upd.
    + by rewrite length_upd.
    + by rewrite nth_upd_ne by lia.
    + by rewrite nth_upd_ne by lia.
    + replace (Datatypes.S n) with (n + 1)%nat by lia. rewrite nth_upd by lia. lia.
    + intros j Hj. rewrite nth_upd_ne by lia. apply Hhigh. lia.
    + intros j Hj. destruct (decide (j = n)) as [->|]; [rewrite nth_upd by lia; lia|].
      rewrite nth_upd_ne by lia. apply Hout. lia.
    + intros j Hj. rewrite nth_upd_ne by lia. apply Hzero. lia.
    + rewrite valn_S by lia. rewrite <- Hv. replace (Datatypes.S n) with (n + 1)%nat by lia. rewrite nth_upd by lia.
      rewrite value_upd, (Hzero n) by lia.
      replace (28 * Z.of_nat (n + 1)) with (28 + 28 * Z.of_nat n) by lia. rewrite Z.pow_add_r by lia.
      change (2 ^ 28) with 268435456. rewrite Hsplit. ring.
  - rewrite Ha8, Z.sub_0_r in H8, Hv. by refine (conj Hlr (conj Hlo (conj H0 (conj Ho0 (conj H8 (conj Hout Hv)))))).
Qed.

Lemma ReduceLarge_spec a :
  below 15 (2 ^ 62) a -> below 8 536870911 (ReduceLarge a) /\ value (ReduceLarge a) ≡p value a.
Proof.
  intros Ha. destruct (reflect_loop a Ha) as (Hl & Hv & Hr). unfold ReduceLarge.
  set (s := for_down 15 8 reflect (for_up 0 8 add_zero a)) in *. clearbody s. rewrite <- Hv. clear Hv Ha.
  pose proof (carry_out_loop (upd s 8 0)) as Hout.
  destruct (for_up 1 8 carry_out (upd s 8 0, repeat 0 8)) as [r out].
  destruct Hout as (Hlr & Hlo & H0 & Ho0 & H8 & Hout & Hval).
  { rewrite length_upd. lia. }
  { intros j Hj. rewrite nth_upd_ne by lia. pose proof (Hr j Hj). lia. }
  { by rewrite nth_upd by lia. }
  rewrite valn_upd_ge in Hval by lia. rewrite <- Hval. rewrite (nth_upd_ne s 8 0) in H0, Hval |- * by lia.
  pose proof (Hr 0%nat ltac:(lia)) as Hs0. clear Hval Hr.
  cbv zeta. rewrite (nth_upd_ne r 0 8), (nth_upd r 0) by (rewrite ?Hlr, ?length_upd; lia). rewrite H0.
  assert (E0 : 0 <= s.[0] - r.[8] < 2 ^ 64) by lia. rewrite (u64_id (s.[0] - _)) by lia.
  set (x := s.[0] - r.[8]) in *. replace s.[0] with (x + r.[8]) by lia.
  set (t := r.[8]) in *. clearbody x t. clear Hs0 H0 Hl Hlr s r.
  destruct (eight_limbs out Hlo) as (r0 & r1 & r2 & r3 & r4 & r5 & r6 & r7 & ->).
  pose proof (Hout 1%nat ltac:(lia)). pose proof (Hout 2%nat ltac:(lia)).
  pose proof (Hout 3%nat ltac:(lia)). pose proof (Hout 4%nat ltac:(lia)). pose proof (Hout 5%nat ltac:(lia)).
  pose proof (Hout 6%nat ltac:(lia)). pose proof (Hout 7%nat ltac:(lia)). clear Hout Hlo. cbn [nth upd] in *.
  subst r0. rewrite !land_28, land_16, shiftl_12, shiftr_56, shiftr_28, shiftr_16.
  destruct (split_28 x) as [Hx Hx0]. destruct (split_28 (x / 268435456)) as [Hx' Hx1].
  destruct (split_16 t) as [Ht Ht0].
  revert Hx Hx0 Hx' Hx1 Ht Ht0.
  generalize (x mod 268435456) as x0, ((x / 268435456) mod 268435456) as x1, (x / 268435456 / 268435456) as x2,
    (t mod 65536) as t0, (t / 65536) as t1.
  intros x0 x1 x2 t0 t1 Hx Hx0 Hx' Hx1 Ht Ht0. rewrite Hx' in Hx. clear Hx'.
  assert (0 <= x2 < 256) by lia. assert (0 <= t1 < 1048576) by lia.
  no_wrap. split; [apply below_8; lia|]. apply eqm_shift with (- t).
  cbn [value]. rewrite Hx, Ht. unfold p224. ring.
Qed.

(** ** Products *)

(** The bound of a product of limbs. *)
Definition limb_product : Z := 536870911 * 1073741823.

Lemma mul_row_spec a b n s :
  (n < 8)%nat -> length b = 8%nat -> length s = 15%nat ->
  (forall j, 0 <= a.[n] * b.[j] <= limb_product) ->
  (forall k, 0 <= s.[k] <= Z.of_nat n * limb_product) ->
  length (mul_row a b n s) = 15%nat /\
  (forall k, 0 <= (mul_row a b n s).[k] <= Z.of_nat (S n) * limb_product) /\
  value (mul_row a b n s) = value s + a.[n] * 2 ^ (28 * Z.of_nat n) * value b.
Proof.
  intros Hn Hb Hs Hab Hbound.
  assert (H : length (mul_row a b n s) = 15%nat /\
    (forall k, 0 <= (mul_row a b n s).[k] <= Z.of_nat n * limb_product + if (k <? n + 8)%nat then limb_product else 0) /\
    value (mul_row a b n s) = value s + a.[n] * 2 ^ (28 * Z.of_nat n) * valn 8 b).
  { unfold mul_row. refine (for_up_inv 0 8 _ (fun j r => length r = 15%nat /\
      (forall k, 0 <= r.[k] <= Z.of_nat n * limb_product + if (k <? n + j)%nat then limb_product else 0) /\
      value r = value s + a.[n] * 2 ^ (28 * Z.of_nat n) * valn j b) s _ _ _); [lia| |].
    - refine (conj Hs (conj _ _)).
      + intros k. pose proof (Hbound k). unfold limb_product in *. destruct (Nat.ltb_spec k (n + 0)); lia.
      + change (valn 0 b) with 0. ring.
    - intros j r Hj (Hl & Hr & Hv). pose proof (Hab j) as Hp. unfold limb_product in *.
      pose proof (Hr (n + j)%nat) as Hnj. rewrite Nat.ltb_irrefl in Hnj.
      rewrite (u64_id (_ * _)), u64_id by lia. refine (conj _ (conj _ _)).
      + by rewrite length_upd.
      + intros k. destruct (decide (k = n + j)%nat) as [->|].
        * rewrite nth_upd by lia. destruct (Nat.ltb_spec (n + j) (n + S j)); lia.
        * rewrite nth_upd_ne by done. pose proof (Hr k).
          destruct (Nat.ltb_spec k (n + j)), (Nat.ltb_spec k (n + S j)); lia.
      + rewrite value_upd, Hv, valn_S by lia. rewrite Nat2Z.inj_add, Z.mul_add_distr_l, Z.pow_add_r by lia. ring. }
  destruct H as (Hl & Hr & Hv). rewrite valn_all in Hv by done. refine (conj Hl (conj _ Hv)).
  intros k. pose proof (Hr k). unfold limb_product in *. destruct (k <? n + 8)%nat; lia.
Qed.

Lemma product_bound A B x y : 0 <= x < A -> 0 <= y < B -> 0 <= x * y <= (A - 1) * (B - 1).
Proof. nia. Qed.

(** Mul multiplies: one factor below 2^29 and the other below 2^30. *)
Lemma Mul_spec A B a b :
  (A - 1) * (B - 1) <= limb_product -> below 8 A a -> below 8 B b ->
  below 8 536870911 (Mul a b) /\ value (Mul a b) ≡p value a * value b.
Proof.
  intros HAB [Hla Ha] [Hlb Hb].
  assert (Hab : forall i j, 0 <= a.[i] * b.[j] <= limb_product).
  { intros i j. pose proof (product_bound A B _ _ (Ha i) (Hb j)). lia. }
  assert (H : let r := for_up 0 8 (mul_row a b) (repeat 0 15) in length r = 15%nat /\
    (forall k, 0 <= r.[k] <= Z.of_nat 8 * limb_product) /\ value r = valn 8 a * value b).
  { refine (for_up_inv 0 8 (mul_row a b) (fun n r => length r = 15%nat /\
      (forall k, 0 <= r.[k] <= Z.of_nat n * limb_product) /\ value r = valn n a * value b) (repeat 0 15) _ _ _); [lia| |].
    - refine (conj eq_refl (conj _ eq_refl)). intros k. do 15 (destruct k as [|k]; [cbn; lia|]). destruct k; cbn; lia.
    - intros n r Hn (Hl & Hr & Hv). destruct (mul_row_spec a b n r) as (Hl' & Hr' & Hv'); try done; [lia|].
      refine (conj Hl' (conj Hr' _)). rewrite Hv', Hv, valn_S by lia. ring. }
  destruct H as (Hl & Hr & Hv). rewrite valn_all in Hv by done. unfold Mul. rewrite <- Hv.
  apply ReduceLarge_spec. split; [done|]. intros k. pose proof (Hr k). unfold limb_product in *. lia.
Qed.

Definition limb_square : Z := 536870911 * 536870911.

Lemma square_row_spec a n s :
  (n < 8)%nat -> below 8 536870912 a -> length s = 15%nat ->
  (forall k, 0 <= s.[k] <= Z.of_nat n * (2 * limb_square)) -> value s = valn n a * valn n a ->
  length (square_row a n s) = 15%nat /\
  (forall k, 0 <= (square_row a n s).[k] <= Z.of_nat (S n) * (2 * limb_square)) /\
  value (square_row a n s) = valn (S n) a * valn (S n) a.
Proof.
  intros Hn [Hla Ha] Hs Hbound Hval.
  assert (H : length (square_row a n s) = 15%nat /\
    (forall k, 0 <= (square_row a n s).[k] <=
       Z.of_nat n * (2 * limb_square) + if (k <? n + (n + 1))%nat then 2 * limb_square else 0) /\
    value (square_row a n s) = value s + a.[n] * 2 ^ (28 * Z.of_nat n) *
       (2 * valn (Nat.min n (n + 1)) a + (if (n <? n + 1)%nat then a.[n] * 2 ^ (28 * Z.of_nat n) else 0))).
  { unfold square_row.
    refine (for_up_inv 0 (n + 1) _ (fun j r => length r = 15%nat /\
      (forall k, 0 <= r.[k] <= Z.of_nat n * (2 * limb_square) + if (k <? n + j)%nat then 2 * limb_square else 0) /\
      value r = value s + a.[n] * 2 ^ (28 * Z.of_nat n) *
       (2 * valn (Nat.min n j) a + (if (n <? j)%nat then a.[n] * 2 ^ (28 * Z.of_nat n) else 0))) s _ _ _); [lia| |].
    - refine (conj Hs (conj _ _)).
      + intros k. pose proof (Hbound k). unfold limb_square in *. destruct (Nat.ltb_spec k (n + 0)); lia.
      + rewrite Nat.min_0_r. change (valn 0 a) with 0. destruct (Nat.ltb_spec n 0); [lia|ring].
    - intros j r Hj (Hl & Hr & Hv). pose proof (product_bound _ _ _ _ (Ha n) (Ha j)) as Hp.
      unfold limb_square in *. pose proof (Hr (n + j)%nat) as Hnj. rewrite Nat.ltb_irrefl in Hnj.
      rewrite Z.shiftl_mul_pow2 by lia. rewrite (u64_id (a.[n] * _)) by lia.
      rewrite (u64_id (_ * 2 ^ 1)) by lia. rewrite !(u64_id (r.[n + j] + _)) by lia.
      rewrite (Nat.min_r n j) in Hv by lia. destruct (Nat.ltb_spec n j); [lia|].
      assert (Hsum : forall v, 0 <= v <= 2 * (536870911 * 536870911) -> forall k,
        0 <= (upd r (n + j) (r.[n + j] + v)).[k] <=
        Z.of_nat n * (2 * (536870911 * 536870911)) + if (k <? n + S j)%nat then 2 * (536870911 * 536870911) else 0).
      { intros v Hv' k. destruct (decide (k = n + j)%nat) as [->|].
        - rewrite nth_upd by lia. destruct (Nat.ltb_spec (n + j) (n + S j)); lia.
        - rewrite nth_upd_ne by done. pose proof (Hr k).
          destruct (Nat.ltb_spec k (n + j)), (Nat.ltb_spec k (n + S j)); lia. }
      destruct (Nat.eqb_spec n j) as [<-|]; (refine (conj _ (conj _ _)); [by rewrite length_upd|apply Hsum; lia|]).
      + rewrite value_upd, Hv by lia. rewrite Nat.min_l by lia. destruct (Nat.ltb_spec n (S n)); [|lia].
        rewrite Nat2Z.inj_add, (Z.mul_add_distr_l 28), Z.pow_add_r by lia. ring.
      + rewrite value_upd, Hv by lia. rewrite Nat.min_r by lia. destruct (Nat.ltb_spec n (S j)); [lia|].
        rewrite valn_S, Nat2Z.inj_add, (Z.mul_add_distr_l 28), Z.pow_add_r by lia. ring. }
  destruct H as (Hl & Hr & Hv). refine (conj Hl (conj _ _)).
  - intros k. pose proof (Hr k). unfold limb_square in *. destruct (k <? n + (n + 1))%nat; lia.
  - rewrite Hv, Hval, valn_S, Nat.min_l by lia. destruct (Nat.ltb_spec n (n + 1)); [|lia]. ring.
Qed.

(** Square agrees with Mul of the element with itself. *)
Lemma Square_spec a :
  below 8 536870912 a -> below 8 536870911 (Square a) /\ value (Square a) ≡p value a * value a.
Proof.
  intros Ha.
  assert (H : let r := for_up 0 8 (square_row a) (repeat 0 15) in length r = 15%nat /\
    (forall k, 0 <= r.[k] <= Z.of_nat 8 * (2 * limb_square)) /\ value r = valn 8 a * valn 8 a).
  { refine (for_up_inv 0 8 (square_row a) (fun n r => length r = 15%nat /\
      (forall k, 0 <= r.[k] <= Z.of_nat n * (2 * limb_square)) /\ value r = valn n a * valn n a) (repeat 0 15) _ _ _);
      [lia| |].
    - refine (conj eq_refl (conj _ eq_refl)). intros k. do 15 (destruct k as [|k]; [cbn; lia|]). destruct k; cbn; lia.
    - intros n r Hn (Hl & Hr & Hv). by apply square_row_spec; [lia|..]. }
  destruct H as (Hl & Hr & Hv). rewrite valn_all in Hv by apply Ha. unfold Square. rewrite <- Hv.
  apply ReduceLarge_spec. split; [done|]. intros k. pose proof (Hr k). unfold limb_square in *. lia.
Qed.

(** ** Borrowing *)

(** A limb that may have become negative takes 2^28 from the next one. *)
Lemma borrow_step x :
  - 16 <= x < 268435456 ->
  exists c, Z.land (Z.shiftl 1 28) (sign_mask (u32 x)) = 268435456 * c /\
    Z.land 1 (sign_mask (u32 x)) = c /\ 0 <= c <= 1 /\ 0 <= x + 268435456 * c < 268435456.
Proof.
  intros Hx. rewrite sign_mask_wrap by lia. destruct (Z.ltb_spec x 0); [exists 1|exists 0];
  (refine (conj eq_refl (conj eq_refl (conj _ _))); lia).
Qed.

Lemma eliminate_spec r0 r1 r2 r3 r4 r5 r6 r7 :
  0 <= r0 < 268435456 -> 0 <= r1 < 268435456 -> 0 <= r2 < 268435456 -> 0 <= r3 < 268435456 ->
  0 <= r7 < 4294967296 ->
  exists s0 s1 s2 s3 s7 t,
    eliminate [r0; r1; r2; r3; r4; r5; r6; r7] = [s0; s1; s2; s3; r4; r5; r6; s7] /\
    r7 = 268435456 * t + s7 /\ 0 <= t < 16 /\ 0 <= s7 < 268435456 /\
    0 <= s0 < 268435456 /\ 0 <= s1 < 268435456 /\ 0 <= s2 < 268435456 /\ 0 <= s3 <= r3 + 4096 * t /\
    s0 + 2 ^ 28 * (s1 + 2 ^ 28 * (s2 + 2 ^ 28 * s3)) =
    r0 - t + 2 ^ 28 * (r1 + 2 ^ 28 * (r2 + 2 ^ 28 * (r3 + 4096 * t))).
Proof.
  intros H0 H1 H2 H3 H7. unfold eliminate. cbn [nth upd].
  rewrite shiftr_28, land_28, shiftl_12. destruct (split_28 r7) as [Hsplit Hmod].
  revert Hsplit Hmod. generalize (r7 / 268435456) as t, (r7 mod 268435456) as s7. intros t s7 Hsplit Hmod.
  assert (Ht : 0 <= t < 16) by lia. rewrite (u32_id (t * 4096)), (u32_id (r3 + _)) by lia.
  unfold for_up. cbn [seq Nat.sub fold_left]. unfold borrow at 3. cbn [nth upd Nat.add].
  destruct (borrow_step (r0 - t) ltac:(lia)) as (c0 & -> & -> & ? & ?). unfold borrow at 2. cbn [nth upd Nat.add].
  destruct (borrow_step (r1 - c0) ltac:(lia)) as (c1 & -> & -> & ? & ?). unfold borrow. cbn [nth upd Nat.add].
  destruct (borrow_step (r2 - c1) ltac:(lia)) as (c2 & -> & -> & ? & ?). rewrite !u32_plus.
  do 5 eexists. exists t. split; [reflexivity|]. no_wrap. split_and!; lia.
Qed.

Lemma value_below a : below 8 268435456 a -> 0 <= value a < 2 ^ 224.
Proof. intros Ha. name_limbs a Ha. cbn [value]. lia. Qed.

(** The limbs of a number of 224 bits are determined by it. *)
Lemma value_inj n a b : below n 268435456 a -> below n 268435456 b -> value a = value b -> a = b.
Proof.
  revert a b. induction n as [|n IH]; intros a b [Hla Ha] [Hlb Hb] Hab.
  - by rewrite (nil_length_inv _ Hla), (nil_length_inv _ Hlb).
  - destruct a as [|x a], b as [|y b]; try discriminate. cbn [value] in Hab.
    pose proof (Ha 0%nat) as Hx. pose proof (Hb 0%nat) as Hy. cbn [nth] in Hx, Hy.
    assert (x = y /\ value a = value b) as [-> Hv] by lia. f_equal. apply IH; [| |done].
    + split; [by injection Hla|]. intros i. apply (Ha (S i)).
    + split; [by injection Hlb|]. intros i. apply (Hb (S i)).
Qed.

Ltac named_limbs r Hl Hr :=
  let r0 := fresh r "0" in let r1 := fresh r "1" in let r2 := fresh r "2" in let r3 := fresh r "3" in
  let r4 := fresh r "4" in let r5 := fresh r "5" in let r6 := fresh r "6" in let r7 := fresh r "7" in
  destruct (eight_limbs r Hl) as (r0 & r1 & r2 & r3 & r4 & r5 & r6 & r7 & ->); clear Hl; cbn [nth] in *.

(** After two rounds every limb has its 28 bits, and the value is the same
    modulo the prime. *)
Lemma carried_spec a : below 8 4294967281 a -> below 8 268435456 (carried a) /\ value (carried a) ≡p value a.
Proof.
  intros Ha. unfold carried. cbv zeta.
  destruct (carry_chain 0 a ltac:(lia) Ha) as (Hl & Hv & _ & Hlow & Htop).
  set (r := for_up 0 7 carry a) in *. clearbody r. rewrite <- Hv. clear Hv Ha.
  pose proof (Hlow 0%nat ltac:(lia)). pose proof (Hlow 1%nat ltac:(lia)). pose proof (Hlow 2%nat ltac:(lia)).
  pose proof (Hlow 3%nat ltac:(lia)). pose proof (Hlow 4%nat ltac:(lia)). pose proof (Hlow 5%nat ltac:(lia)).
  pose proof (Hlow 6%nat ltac:(lia)). clear Hlow. named_limbs r Hl Hlow.
  destruct (eliminate_spec r0 r1 r2 r3 r4 r5 r6 r7) as (s0 & s1 & s2 & s3 & s7 & t & -> & Hr7 & Ht & Hs7 & Hs0 & Hs1 & Hs2 & Hs3 & Hs);
    try done.
  set (s := [s0; s1; s2; s3; r4; r5; r6; s7]).
  assert (Hbs : below 8 4294967281 s) by (apply below_8; lia).
  assert (Hvs : value s = value [r0; r1; r2; r3; r4; r5; r6; r7] + (- t) * p224).
  { subst s. cbn [value]. unfold p224. lia. }
  assert (Hvb : value s < 2 ^ 224 + 16 * 2 ^ 96). { subst s. cbn [value] in *. lia. }
  destruct (carry_chain 3 s ltac:(lia) Hbs) as (Hl & Hv & Hkeep & Hmid & Htop').
  set (u := for_up 3 7 carry s) in *. clearbody u.
  pose proof (Hkeep 0%nat ltac:(lia) : u.[0] = s0). pose proof (Hkeep 1%nat ltac:(lia) : u.[1] = s1). pose proof (Hkeep 2%nat ltac:(lia) : u.[2] = s2).
  pose proof (Hmid 3%nat ltac:(lia)) as B3. pose proof (Hmid 4%nat ltac:(lia)) as B4. pose proof (Hmid 5%nat ltac:(lia)) as B5.
  pose proof (Hmid 6%nat ltac:(lia)) as B6. clear Hkeep Hmid. named_limbs u Hl Hmid. subst u0 u1 u2.
  destruct (eliminate_spec s0 s1 s2 u3 u4 u5 u6 u7) as (v0 & v1 & v2 & v3 & v7 & t' & -> & Hu7 & Ht' & Hv7 & Hv0 & Hv1 & Hv2 & Hv3 & Hv');
    try done.
  rewrite <- Hv in Hvb. split.
  - apply below_8; try lia. split; [lia|]. cbn [value] in Hvb. clear - Hvb Hu7 Ht' Hv7 Hs0 Hs1 Hs2 Hv3 B3 B4 B5 B6.
    assert (Ht1 : t' = 0 \/ t' = 1) by lia. destruct Ht1; subst t'; lia.
  - apply eqm_shift with (- t - t'). replace (value [r0; r1; r2; r3; r4; r5; r6; r7]) with (value s + t * p224) by lia.
    rewrite <- Hv. cbn [value]. rewrite Hu7. unfold p224. lia.
Qed.

(** ** Masks *)
Create HintDb p224.

Lemma lor_word x y : 0 <= x < 2 ^ 32 -> 0 <= y < 2 ^ 32 -> 0 <= Z.lor x y < 2 ^ 32.
Proof.
  intros Hx Hy. replace (Z.lor x y) with (Z.lor x y mod 2 ^ 32); [apply Z.mod_pos_bound; lia|].
  rewrite <- Z.land_ones, Z.land_lor_distr_l, !Z.land_ones by lia. by rewrite !Z.mod_small.
Qed.

Lemma land_word x y : 0 <= x < 2 ^ 32 -> 0 <= Z.land x y < 2 ^ 32.
Proof.
  intros Hx. replace (Z.land x y) with (Z.land x y mod 2 ^ 32); [apply Z.mod_pos_bound; lia|].
  rewrite <- Z.land_ones, <- Z.land_assoc, (Z.land_comm y), Z.land_assoc, Z.land_ones by lia. by rewrite Z.mod_small.
Qed.

Lemma testbit_high x n : 0 <= x < 2 ^ 32 -> 32 <= n -> Z.testbit x n = false.
Proof.
  intros Hx Hn. destruct (decide (x = 0)) as [->|]; [apply Z.testbit_0_l|].
  apply Z.bits_above_log2; [lia|]. apply Z.log2_lt_pow2; [lia|].
  apply Z.lt_le_trans with (2 ^ 32); [lia|]. apply Z.pow_le_mono_r; lia.
Qed.

Definition bit_positions : list Z := Eval vm_compute in map Z.of_nat (seq 0 32).

(** Two words with the same 32 bits are equal. *)
Lemma word_bits x y :
  0 <= x < 2 ^ 32 -> 0 <= y < 2 ^ 32 ->
  forallb (fun n => Bool.eqb (Z.testbit x n) (Z.testbit y n)) bit_positions = true -> x = y.
Proof.
  intros Hx Hy H. rewrite forallb_forall in H. apply Z.bits_inj'. intros n Hn.
  destruct (Z.lt_ge_cases n 32).
  - apply eqb_prop, H. change bit_positions with (map Z.of_nat (seq 0 32)).
    rewrite <- (Z2Nat.id n) by done. apply in_map, in_seq. lia.
  - by rewrite !testbit_high.
Qed.

(** Read off a hypothesis what it says of every bit, and compare the words. *)
Ltac smeared_bits H :=
  cbn [fold_left] in H;
  repeat first [rewrite Z.lor_spec in H|rewrite Z.land_spec in H|rewrite Z.shiftr_spec in H by lia|
                rewrite orb_false_iff in H|rewrite andb_true_iff in H];
  decompose [and] H; clear H;
  apply word_bits; [lia|lia|]; unfold bit_positions; cbn [forallb];
  repeat match goal with E : Z.testbit _ ?n = _ |- _ => let n' := eval vm_compute in n in
    change n with n' in E; rewrite E; clear E end; reflexivity.

(** Shifting and or-ing down leaves in the lowest bit whether any is set;
    shifting and and-ing down, whether all are. *)
Lemma or_down_bit x : 0 <= x < 2 ^ 32 -> Z.testbit (or_down x) 0 = negb (x =? 0).
Proof.
  intros Hx. destruct (Z.eqb_spec x 0) as [->|Hx0]; [reflexivity|].
  apply not_false_is_true. intros H. apply Hx0. unfold or_down in H. smeared_bits H.
Qed.

Lemma and_down_bit x : 0 <= x < 2 ^ 32 -> Z.testbit (and_down x) 0 = (x =? 4294967295).
Proof.
  intros Hx. destruct (Z.eqb_spec x 4294967295) as [->|Hx0]; [reflexivity|].
  apply not_true_is_false. intros H. apply Hx0. unfold and_down in H. smeared_bits H.
Qed.

(** The lowest bit, moved to the sign and copied to every bit. *)
Lemma low_bit_mask x : sign_mask (x <32 31) = if Z.testbit x 0 then 4294967295 else 0.
Proof.
  assert (E : x <32 31 = if Z.testbit x 0 then 2147483648 else 0).
  { rewrite Z.bit0_odd, Z.shiftl_mul_pow2 by lia. unfold wrap_u. pose proof (Zdiv2_odd_eqn x) as Hx.
    rewrite Hx at 1. replace ((2 * Z.div2 x + (if Z.odd x then 1 else 0)) * 2 ^ 31)
      with ((if Z.odd x then 1 else 0) * 2 ^ 31 + Z.div2 x * 2 ^ 32) by lia.
    rewrite Z.mod_add by lia. by destruct (Z.odd x). }
  rewrite E. by destruct (Z.testbit x 0).
Qed.

(** A mask is all or nothing. *)
Definition is_mask (m : Z) : Prop := m = 0 \/ m = 4294967295.

Lemma sign_mask_is_mask x : is_mask (sign_mask x).
Proof.
  unfold sign_mask, is_mask. pose proof (wrap_s_range 32 x ltac:(lia)) as [Hlo Hhi].
  change (2 ^ (32 - 1)) with 2147483648 in *. rewrite Z.shiftr_div_pow2 by lia.
  change (2 ^ 31) with 2147483648. destruct (Z.lt_ge_cases (s32 x) 0).
  - right. assert (E : s32 x / 2147483648 = -1); [|by rewrite E].
    symmetry. apply Z.div_unique with (s32 x + 2147483648); lia.
  - left. by rewrite Z.div_small by lia.
Qed.

Lemma not32_is_mask m : is_mask m -> is_mask (not32 m).
Proof. intros [->| ->]; [right|left]; reflexivity. Qed.

Lemma lor_is_mask m n : is_mask m -> is_mask n -> is_mask (Z.lor m n).
Proof. intros [->| ->] [->| ->]; (by left) || by right. Qed.

Lemma land_is_mask m n : is_mask m -> is_mask n -> is_mask (Z.land m n).
Proof. intros [->| ->] [->| ->]; (by left) || by right. Qed.

#[export] Hint Resolve sign_mask_is_mask not32_is_mask lor_is_mask land_is_mask : p224.
