(* ===== verification/P224Prime.v ===== *)
(** The number p = 2^224 - 2^96 + 1 is a prime, so the elements of P224 form a
    field: Fermat's theorem makes the power that Invert computes an inverse,
    and a product is zero only when a factor is. *)
From Stdlib Require Import Setoid Morphisms Zpow_facts Zdivisibility Zmod.
From S2P Require Import Prelude P224 P224Field.

(** ** Congruence modulo a divisor of the prime *)
Lemma pow_eqm m a b n : 0 <= n -> (m | a - b) -> (m | a ^ n - b ^ n).
Proof.
  intros Hn Hab. pattern n. apply natlike_ind; [exists 0; ring| |done].
  intros k Hk IH. rewrite !Z.pow_succ_r by done.
  replace (a * a ^ k - b * b ^ k) with ((a - b) * a ^ k + b * (a ^ k - b ^ k)) by ring.
  apply Z.divide_add_r; [by apply Z.divide_mul_l|by apply Z.divide_mul_r].
Qed.

Lemma divide_pow m a n : 0 < n -> (m | a) -> (m | a ^ n).
Proof. intros Hn Ha. rewrite <- (Z.succ_pred n), Z.pow_succ_r by lia. by apply Z.divide_mul_l. Qed.

(** An odd power of what is congruent to -1, and a power of what is congruent
    to 1. *)
Lemma odd_pow_m1 r b m : 0 <= m -> (r | b - -1) -> (r | b ^ (2 * m + 1) - -1).
Proof.
  intros Hm Hb. replace (-1) with ((-1) ^ (2 * m + 1)); [by apply pow_eqm; [lia|]|].
  rewrite Z.pow_add_r, Z.pow_mul_r by lia. change ((-1) ^ 2) with 1. rewrite Z.pow_1_l by lia. reflexivity.
Qed.

Lemma pow_one r b n : 0 <= n -> (r | b - 1) -> (r | b ^ n - 1).
Proof. intros Hn Hb. rewrite <- (Z.pow_1_l n) by done. by apply pow_eqm. Qed.

Lemma fermat_divide r a : Z.prime r -> ~ (r | a) -> (r | a ^ (r - 1) - 1).
Proof.
  intros Hr Ha. pose proof (Z.prime_ge_2 r Hr).
  assert (H' : a ^ (r - 1) mod r = 1).
  { apply Z.fermat_nz; [done|]. intros E. by apply Ha, Z.mod_divide; [lia|]. }
  exists (a ^ (r - 1) / r). pose proof (Z.div_mod (a ^ (r - 1)) r ltac:(lia)). lia.
Qed.

Lemma two_part (n : nat) x : 0 < x -> (2 ^ Z.of_nat n | x) \/ exists k m, 0 <= k < Z.of_nat n /\ 0 <= m /\ x = 2 ^ k * (2 * m + 1).
Proof.
  intros Hx. induction n as [|n IH]; [left; apply Z.divide_1_l|]. rewrite Nat2Z.inj_succ.
  destruct IH as [[q Hq]|(k & m & Hk & Hm & ->)]; [|right; exists k, m; split; [lia|done]].
  rewrite Z.pow_succ_r by lia. pose proof (pow2_pos (Z.of_nat n) ltac:(lia)).
  pose proof (Zdiv2_odd_eqn q) as Hodd. destruct (Z.odd q).
  - right. exists (Z.of_nat n), (Z.div2 q). split_and!; [lia|lia|nia|]. rewrite Hq, Hodd at 1. ring.
  - left. exists (Z.div2 q). rewrite Hq, Hodd at 1. ring.
Qed.

Lemma prime_factor n : 1 < n -> exists r, Z.prime r /\ (r | n).
Proof.
  intros Hn. assert (Hn0 : 0 <= n) by lia. revert Hn. pattern n. apply Zlt_0_ind; [|done]. clear n Hn0.
  intros n IH _ Hn. destruct (Znumtheory.prime_dec n) as [Hp|Hp].
  - exists n. split; [by apply Znumtheory.prime_alt|apply Z.divide_refl].
  - apply Znumtheory.not_prime_divide in Hp; [|done]. destruct Hp as (d & Hd & Hdn).
    destruct (IH d) as (r & Hr & Hrd); [lia|lia|]. exists r. split; [done|]. by apply Z.divide_trans with d.
Qed.

(** ** The prime *)
Lemma eleven_power : 11 ^ ((2 ^ 128 - 1) * 2 ^ Z.of_nat 95) ≡p -1.
Proof.
  apply eqm_mod. rewrite <- Zpow_mod_correct by (vm_compute; done). vm_compute. reflexivity.
Qed.

(** When a power of the order 2^j of a number is -1 modulo a prime, that prime
    is one more than a multiple of 2^(j+1). *)
Lemma order_two_power (j : nat) r b :
  Z.prime r -> 2 < r -> (r | b ^ 2 ^ Z.of_nat j - -1) -> (2 ^ Z.of_nat (S j) | r - 1).
Proof.
  intros Hr Hr2 Hb. pose proof (pow2_pos (Z.of_nat j) ltac:(lia)) as Hj.
  destruct (two_part (S j) (r - 1)) as [H|(k & m & Hk & Hm & Hkm)]; [lia|exact H|exfalso].
  assert (Hnb : ~ (r | b)).
  { intros H. pose proof (Z.divide_sub_r _ _ _ Hb (divide_pow _ _ _ Hj H)) as H1.
    replace (b ^ 2 ^ Z.of_nat j - -1 - b ^ 2 ^ Z.of_nat j) with 1 in H1 by ring. apply Z.divide_1_r in H1. lia. }
  pose proof (fermat_divide r b Hr Hnb) as HF. rewrite Hkm in HF.
  assert (Hodd : (r | b ^ (2 ^ Z.of_nat j * (2 * m + 1)) - -1)) by (rewrite Z.pow_mul_r by lia; by apply odd_pow_m1).
  assert (Hone : (r | b ^ (2 ^ Z.of_nat j * (2 * m + 1)) - 1)).
  { replace (2 ^ Z.of_nat j) with (2 ^ k * 2 ^ (Z.of_nat j - k)) by (rewrite <- Z.pow_add_r by lia; f_equal; lia).
    pose proof (pow2_pos k ltac:(lia)). replace (_ * (2 * m + 1)) with (2 ^ k * (2 * m + 1) * 2 ^ (Z.of_nat j - k)) by ring.
    rewrite Z.pow_mul_r by nia. by apply pow_one; [lia|]. }
  pose proof (Z.divide_sub_r _ _ _ Hodd Hone) as H2.
  replace (_ - -1 - (_ - 1)) with 2 in H2 by ring. apply Z.divide_pos_le in H2; lia.
Qed.

(** 11 has such an order, so this holds of every prime factor. *)
Lemma factor_mod_2_96 r : Z.prime r -> (r | p224) -> (2 ^ 96 | r - 1).
Proof.
  intros Hr Hdiv. pose proof (Z.prime_ge_2 r Hr) as Hr2.
  destruct (decide (r = 2)) as [->|]; [destruct Hdiv as [k Hk]; unfold p224 in Hk; lia|].
  apply (order_two_power 95 r (11 ^ (2 ^ 128 - 1))); [done|lia|].
  apply Z.divide_trans with p224; [done|]. rewrite <- Z.pow_mul_r by lia. exact eleven_power.
Qed.

Lemma p224_prime : Z.prime p224.
Proof.
  split; [reflexivity|]. intros n Hn [s Hs].
  destruct (prime_factor n) as (r & Hr & [t Ht]); [lia|].
  assert (Hrs : p224 = (s * t) * r) by (rewrite Hs, Ht; ring). pose proof (Z.prime_ge_2 r Hr).
  assert (Hst : 1 < s * t) by (assert (1 < s) by nia; assert (0 < t) by nia; nia).
  assert (Hdiv : (r | p224)) by (by exists (s * t)).
  destruct (factor_mod_2_96 r Hr Hdiv) as [u Hu]. set (q := s * t) in *. clearbody q.
  assert (Hq : (2 ^ 96 | q - 1)).
  { exists (2 ^ 128 - 1 - q * u). replace r with (1 + u * 2 ^ 96) in Hrs by lia. unfold p224 in Hrs. lia. }
  destruct Hq as [v Hv].
  assert (Huv : u + v + u * v * 2 ^ 96 = 2 ^ 128 - 1).
  { replace q with (1 + v * 2 ^ 96) in Hrs by lia. replace r with (1 + u * 2 ^ 96) in Hrs by lia. unfold p224 in Hrs. lia. }
  assert (0 < u) by lia. assert (0 < v) by lia. clear - Huv H0 H1.
  assert (u * v < 2 ^ 32) by nia.
  assert (u + v <= u * v + 1) by nia. nia.
Qed.

(** ** The field *)
Lemma eqm_of_eq a b : a = b -> a ≡p b.
Proof. intros ->. reflexivity. Qed.

Lemma eqm_mod_l a : a mod p224 ≡p a.
Proof. apply eqm_mod. by rewrite Z.mod_mod. Qed.

Lemma eqm_zero_mul a b : a * b ≡p 0 -> a ≡p 0 \/ b ≡p 0.
Proof. unfold eqm. rewrite !Z.sub_0_r. apply Z.divide_prime_mul, p224_prime. Qed.

#[export] Instance eqm_dec a b : Decision (a ≡p b).
Proof. refine (cast_if (decide (a mod p224 = b mod p224))); by rewrite eqm_mod. Defined.

(** The inverse of what is not zero, as the Standard Library computes it. *)
Definition inv (a : Z) : Z := Z.invmod a p224.

Lemma inv_spec a : ~ a ≡p 0 -> inv a * a ≡p 1.
Proof.
  intros Ha. apply eqm_mod. unfold inv. rewrite Z.invmod_prime; [reflexivity|apply p224_prime|].
  intros H. apply Ha. apply eqm_mod. by rewrite H.
Qed.

(** What Invert computes is the inverse. *)
Lemma power_inverse v : ~ v ≡p 0 -> v ^ (p224 - 2) ≡p inv v.
Proof.
  intros Hv. pose proof (inv_spec v Hv) as Hi.
  assert (HF : v * v ^ (p224 - 2) ≡p 1).
  { rewrite <- Z.pow_succ_r by (vm_compute; done). change (Z.succ (p224 - 2)) with (p224 - 1).
    apply fermat_divide; [apply p224_prime|]. intros H. apply Hv. unfold eqm. by rewrite Z.sub_0_r. }
  rewrite <- (Z.mul_1_l (v ^ _)), <- Hi, <- Z.mul_assoc, HF, Z.mul_1_r. reflexivity.
Qed.

Lemma eqm_cancel_l c a b : ~ c ≡p 0 -> c * a ≡p c * b -> a ≡p b.
Proof.
  intros Hc H. assert (H' : c * (a - b) ≡p 0) by (rewrite Z.mul_sub_distr_l, H; apply eqm_of_eq; ring).
  apply eqm_zero_mul in H' as [H'|H']; [done|]. unfold eqm in *. by rewrite Z.sub_0_r in H'.
Qed.
