(* ===== verification/P224Properties.v ===== *)
(** What the operations of P224 compute: the field operations are exact
    modulo the prime, inversion raises to the power of the prime less two, and
    the test for zero decides whether an element is a multiple of the prime. *)
From Stdlib Require Import Setoid Morphisms.
From S2P Require Import Prelude P224 P224Field P224Prime.

(** The bound of what the field operations take, and the one of what they
    give. *)
Abbreviation limbs29 := (below 8 536870912).
Abbreviation result29 := (below 8 536870911).

Lemma result_limbs f : result29 f -> limbs29 f.
Proof. intros H. by apply below_le with 536870911. Qed.

(** ** Inversion *)

(** An element that is a power of a number. *)
Definition power (v e : Z) (f : FieldElement) : Prop := 0 <= e /\ result29 f /\ value f ≡p v ^ e.

Lemma power_Mul v e e' f f' : power v e f -> power v e' f' -> power v (e + e') (Mul f f').
Proof.
  intros (He & Hf & Hv) (He' & Hf' & Hv').
  destruct (Mul_spec 536870911 536870911 f f') as [Hb Hm]; [unfold limb_product; lia|done|done|].
  split_and!; [lia|exact Hb|]. by rewrite Hm, Hv, Hv', Z.pow_add_r by done.
Qed.

Lemma power_Square v e f : power v e f -> power v (2 * e) (Square f).
Proof.
  intros (He & Hf & Hv). destruct (Square_spec f (result_limbs f Hf)) as [Hb Hm].
  split_and!; [lia|exact Hb|]. rewrite Hm, Hv, <- Z.pow_add_r by done. by replace (2 * e) with (e + e) by lia.
Qed.

Lemma power_squares v n : forall e f, power v e f -> power v (2 ^ Z.of_nat n * e) (squares n f).
Proof.
  induction n as [|n IH]; intros e f Hf; [by change (2 ^ Z.of_nat 0 * e) with (1 * e); rewrite Z.mul_1_l|].
  change (squares (S n) f) with (Square (squares n f)). rewrite Nat2Z.inj_succ, Z.pow_succ_r, <- Z.mul_assoc by lia.
  apply power_Square, IH, Hf.
Qed.

Lemma power_eq v e e' f : power v e f -> e = e' -> power v e' f.
Proof. by intros ? <-. Qed.

#[local] Opaque Mul Square squares.

(** Follow one step of a chain of named powers. *)
Ltac power_of e :=
  lazymatch e with
  | Mul _ _ => eapply power_Mul; eassumption
  | Square _ => eapply power_Square; eassumption
  | squares _ _ => eapply power_squares; eassumption
  end.
Ltac power_step :=
  lazymatch goal with |- power ?v ?E (let f := ?e in @?body f) =>
    let H := fresh "H" in
    eassert (H : power v _ e) by power_of e;
    lazymatch type of H with power _ ?d _ =>
      let K := fresh in
      assert (K : forall x, power v d x -> power v E (body x)); [|exact (K e H)]; clear H; cbv beta;
      let x := fresh "x" in intros x H
    end
  end.

Lemma Invert_power f : result29 f -> power (value f) (p224 - 2) (Invert f).
Proof.
  intros Hf. assert (H1 : power (value f) 1 f) by (split; [lia|by rewrite Z.pow_1_r]).
  generalize dependent (value f). intros v H1.
  cbv delta [Invert]. cbv beta. repeat power_step.
  eapply power_eq; [eapply power_Mul; eassumption|]. vm_compute. reflexivity.
Qed.

#[local] Transparent Mul Square squares.

(** ** The minimal form *)

(** The last step of Contract subtracts the prime, or nothing, from the limbs
    of 28 bits that the carries leave. *)
Lemma Contract_subtracts a :
  below 8 4294967281 a ->
  exists mask, is_mask mask /\
    (Z.testbit (and_down (Z.lor (for_up 4 8 (fun i x => Z.land x (carried a).[i]) 0xffffffff) 0xf0000000)) 0 = false ->
     mask = 0) /\
    Contract a = let c := carried a in
      if mask =? 0 then c else
      [u32 (c.[0] - 1); c.[1]; c.[2]; u32 (c.[3] - 268431360);
       u32 (c.[4] - 268435455); u32 (c.[5] - 268435455); u32 (c.[6] - 268435455); u32 (c.[7] - 268435455)].
Proof.
  intros Ha. destruct (carried_spec a Ha) as [Hc _]. unfold Contract.
  set (c := carried a) in *. clearbody c. cbv zeta.
  set (mask := Z.land (top_4_all_ones c) _). exists mask.
  assert (Hm : is_mask mask).
  { subst mask. unfold top_4_all_ones, out_3_equal, bottom_3_non_zero, out_3_gt. auto 10 with p224. }
  refine (conj Hm (conj _ _)).
  - intros H. subst mask. unfold top_4_all_ones. cbv zeta. by rewrite low_bit_mask, H.
  - clearbody mask. name_limbs c Hc. cbn [upd nth]. destruct Hm as [->| ->].
    + rewrite !Z.land_0_r, !Z.sub_0_r. no_wrap. reflexivity.
    + reflexivity.
Qed.

Lemma kP_below : below 8 268435456 kP.
Proof. apply below_8; lia. Qed.

Lemma u32_sub_zero x y : 0 <= x < 268435456 -> 0 <= y < 268435456 -> u32 (x - y) = 0 -> x = y.
Proof.
  intros Hx Hy H. unfold wrap_u in H. apply Z.mod_divide in H; [|lia]. destruct H as [k Hk].
  change (2 ^ 32) with 4294967296 in Hk. lia.
Qed.

(** Zero and the prime are the only numbers of 224 bits that the prime
    divides. *)
Lemma multiple_of_p v : 0 <= v < 2 ^ 224 -> v ≡p 0 <-> v = 0 \/ v = p224.
Proof.
  intros Hv. split.
  - intros [k Hk]. assert (Hk1 : k = 0 \/ k = 1) by (unfold p224 in *; nia). destruct Hk1; subst k; lia.
  - intros [->| ->]; [reflexivity|]. exists 1. ring.
Qed.

Lemma Contract_zero a :
  below 8 4294967281 a -> Contract a = repeat 0 8 \/ Contract a = kP <-> value a ≡p 0.
Proof.
  intros Ha. destruct (carried_spec a Ha) as [Hc Hv]. rewrite <- Hv, (multiple_of_p _ (value_below _ Hc)).
  assert (Hz : below 8 268435456 (repeat 0 8)) by (apply below_8; lia).
  pose proof (value_inj 8 (carried a) kP Hc kP_below) as HkP.
  pose proof (value_inj 8 (carried a) (repeat 0 8) Hc Hz) as H0.
  change (value kP) with p224 in HkP. change (value (repeat 0 8)) with 0 in H0.
  destruct (Contract_subtracts a Ha) as (mask & Hm & Htop & ->). cbv zeta.
  set (c := carried a) in *. clearbody c.
  destruct (Z.eqb_spec mask 0) as [|Hne].
  - split; [intros [->| ->]; [by left|by right]|intros [H|H]; [left; by apply H0|right; by apply HkP]].
  - split.
    + intros H. right. cut (c = kP); [intros ->; reflexivity|]. clear HkP H0 Htop Hv. name_limbs c Hc.
      destruct H as [H|H]; unfold kP in *; cbn [repeat] in H; injection H; intros.
      * repeat match goal with E : u32 _ = 0 |- _ => apply u32_sub_zero in E; [|lia|lia] end. by subst.
      * exfalso. clear H. unfold wrap_u in *. change (2 ^ 32) with 4294967296 in *.
        match goal with E : (c3 - _) mod _ = _ |- _ => rename E into E3 end.
        pose proof (Z.div_mod (c3 - 268431360) 4294967296 ltac:(lia)). lia.
    + intros [H|H]; [|left; by rewrite (HkP H)].
      exfalso. apply Hne, Htop. by rewrite (H0 H).
Qed.

Lemma not32_bit x : Z.testbit (not32 x) 0 = negb (Z.testbit x 0).
Proof. unfold not32, wrap_u. by rewrite Z.mod_pow2_bits_low, Z.lnot_spec by lia. Qed.

(** What IsZero collects: whether a limb is not zero, and whether a limb is
    not the prime's. *)
Definition collect (f : nat -> Z) : Z := for_up 0 8 (fun i r => Z.lor r (f i)) 0.

Lemma IsZero_collects a :
  IsZero a = let m := Contract a in
    if Z.testbit (or_down (collect (fun i => m.[i]))) 0 &&
       Z.testbit (or_down (collect (fun i => u32 (m.[i] - kP.[i])))) 0 then 0 else 4294967295.
Proof.
  unfold IsZero, collect. cbv zeta. generalize (Contract a) as m. intros m. unfold for_up. cbn [seq Nat.sub fold_left].
  rewrite low_bit_mask, not32_bit, !Z.land_spec. change (Z.testbit 1 0) with true. rewrite andb_true_r.
  by destruct (_ && _).
Qed.

Lemma collect_bit f :
  (forall i, 0 <= f i < 2 ^ 32) ->
  Z.testbit (or_down (collect f)) 0 = false <-> forall i, (i < 8)%nat -> f i = 0.
Proof.
  intros Hf.
  assert (H : 0 <= collect f < 2 ^ 32 /\ (collect f = 0 <-> forall i, (i < 8)%nat -> f i = 0)).
  { refine (for_up_inv 0 8 _ (fun n r => 0 <= r < 2 ^ 32 /\ (r = 0 <-> forall i, (i < n)%nat -> f i = 0)) 0 _ _ _);
      [lia|split; [lia|split; [intros; lia|done]]|].
    intros n r Hn [Hr Hiff]. split; [by apply lor_word|]. rewrite Z.lor_eq_0_iff, Hiff. split.
    - intros [Hlow Hcur] i Hi. destruct (decide (i = n)) as [->|]; [done|apply Hlow; lia].
    - intros H. split; [intros i Hi; apply H; lia|apply H; lia]. }
  destruct H as [Hr Hiff]. rewrite or_down_bit, <- Hiff by done.
  destruct (Z.eqb_spec (collect f) 0); cbn; naive_solver.
Qed.

Lemma limbs_ext a b : length a = 8%nat -> length b = 8%nat -> (forall i, (i < 8)%nat -> a.[i] = b.[i]) -> a = b.
Proof.
  intros Ha Hb H. named_limbs a Ha H. named_limbs b Hb H.
  pose proof (H 0%nat ltac:(lia)). pose proof (H 1%nat ltac:(lia)). pose proof (H 2%nat ltac:(lia)).
  pose proof (H 3%nat ltac:(lia)). pose proof (H 4%nat ltac:(lia)). pose proof (H 5%nat ltac:(lia)).
  pose proof (H 6%nat ltac:(lia)). pose proof (H 7%nat ltac:(lia)). cbn [nth] in *. by subst.
Qed.

(** Whatever Contract gives are eight words. *)
Lemma Contract_words a : below 8 4294967281 a -> below 8 4294967296 (Contract a).
Proof.
  intros Ha. destruct (carried_spec a Ha) as [Hc _].
  destruct (Contract_subtracts a Ha) as (mask & _ & _ & ->). cbv zeta.
  destruct (mask =? 0); [by apply below_le with 268435456|].
  set (c := carried a) in *. clearbody c. name_limbs c Hc. cbn [nth].
  apply below_8; try (apply (wrap_u_range 32); lia); lia.
Qed.

Lemma some_limb m : below 8 4294967296 m -> Z.testbit (or_down (collect (fun i => m.[i]))) 0 = false <-> m = repeat 0 8.
Proof.
  intros [Hl Hm]. rewrite collect_bit by apply Hm.
  assert (H0 : forall i, (i < 8)%nat -> (repeat 0 8).[i] = 0) by (intros i Hi; do 8 (destruct i as [|i]; [done|]); lia).
  split.
  - intros H. apply limbs_ext; [done|done|]. intros i Hi. by rewrite H, H0.
  - intros ->. apply H0.
Qed.

Lemma differs_limb m :
  below 8 4294967296 m ->
  Z.testbit (or_down (collect (fun i => u32 (m.[i] - kP.[i])))) 0 = false <-> m = kP.
Proof.
  intros [Hl Hm]. rewrite collect_bit by (intros i; apply (wrap_u_range 32); lia). split.
  - intros H. apply limbs_ext; [done|done|]. intros i Hi. specialize (H i Hi). pose proof (Hm i).
    pose proof (proj2 kP_below i). unfold wrap_u in H. apply Z.mod_divide in H; [|lia]. destruct H as [k Hk].
    change (2 ^ 32) with 4294967296 in Hk. lia.
  - intros -> i _. by rewrite Z.sub_diag.
Qed.

Lemma IsZero_spec a :
  below 8 4294967281 a -> (IsZero a = 4294967295 <-> value a ≡p 0) /\ is_mask (IsZero a).
Proof.
  intros Ha. rewrite <- Contract_zero, IsZero_collects by done. cbv zeta.
  rewrite <- (some_limb _ (Contract_words a Ha)), <- (differs_limb _ (Contract_words a Ha)).
  generalize (Z.testbit (or_down (collect (fun i => (Contract a).[i]))) 0) as b0,
    (Z.testbit (or_down (collect (fun i => u32 ((Contract a).[i] - kP.[i])))) 0) as bP.
  intros [] []; cbn; unfold is_mask; intuition discriminate.
Qed.

Lemma ones_28 c :
  0 <= c < 268435456 -> (forall n, 0 <= n < 28 -> Z.testbit c n = true) -> c = 268435455.
Proof.
  intros Hc H. apply Z.bits_inj'. intros n Hn. change 268435455 with (Z.ones 28).
  destruct (Z.lt_ge_cases n 28); [rewrite H, Z.ones_spec_low by lia; done|].
  rewrite Z.ones_spec_high by lia. rewrite <- (Z.mod_small c (2 ^ 28)) by lia. by apply Z.mod_pow2_bits_high.
Qed.

Lemma top_limbs_not_ones c :
  below 8 268435456 c -> value c < 2 ^ 224 - 2 ^ 112 ->
  Z.testbit (and_down (Z.lor (for_up 4 8 (fun i x => Z.land x c.[i]) 0xffffffff) 0xf0000000)) 0 = false.
Proof.
  intros Hc Hv. unfold for_up. cbn [seq Nat.sub fold_left]. name_limbs c Hc. cbn [nth value] in *.
  set (t := Z.lor _ _).
  assert (Ht : 0 <= t < 2 ^ 32) by (apply lor_word; [repeat apply land_word; lia|lia]).
  rewrite and_down_bit by done. apply Z.eqb_neq. intros E.
  assert (Hbits : forall n, 0 <= n < 28 -> Z.testbit c4 n = true /\ Z.testbit c5 n = true /\
    Z.testbit c6 n = true /\ Z.testbit c7 n = true).
  { intros n Hn. assert (Hb : Z.testbit t n = true).
    { rewrite E. change 4294967295 with (Z.ones 32). apply Z.ones_spec_low. lia. }
    subst t. rewrite Z.lor_spec, !Z.land_spec in Hb.
    replace (Z.testbit 4026531840 n) with false in Hb.
    - rewrite orb_false_r, !andb_true_iff in Hb. tauto.
    - change 4026531840 with (Z.shiftl 15 28). rewrite Z.shiftl_spec by lia. symmetry. apply Z.testbit_neg_r. lia. }
  assert (c4 = 268435455) by (apply ones_28; [lia|intros n Hn; apply (Hbits n Hn)]).
  assert (c5 = 268435455) by (apply ones_28; [lia|intros n Hn; apply (Hbits n Hn)]).
  assert (c6 = 268435455) by (apply ones_28; [lia|intros n Hn; apply (Hbits n Hn)]).
  assert (c7 = 268435455) by (apply ones_28; [lia|intros n Hn; apply (Hbits n Hn)]).
  subst. lia.
Qed.

(** The numbers whose minimal form Contract finds: all but one in 2^112. *)
Definition contractible (v : Z) : Prop := 2 ^ 96 <= v < 2 ^ 224 - 2 ^ 112.

#[export] Instance contractible_dec v : Decision (contractible v).
Proof. apply _. Defined.

Lemma Contract_minimal a :
  below 8 4294967281 a -> contractible (value a mod p224) ->
  below 8 268435456 (Contract a) /\ value (Contract a) = value a mod p224.
Proof.
  intros Ha Hv. destruct (carried_spec a Ha) as [Hc Hcv]. destruct (Contract_subtracts a Ha) as (mask & _ & Htop & HC).
  pose proof (value_below _ Hc) as Hb. apply eqm_mod in Hcv. rewrite <- Hcv in Hv |- *.
  set (c := carried a) in *. clearbody c.
  assert (E : value c mod p224 = value c).
  { pose proof (Z.div_mod (value c) p224 ltac:(done)) as Hdm. set (q := value c / p224) in *. set (r := value c mod p224) in *.
    clearbody q r. unfold contractible, p224 in *. assert (q = 0) by lia. subst q. lia. }
  rewrite E in Hv |- *. rewrite (Htop (top_limbs_not_ones c Hc ltac:(unfold contractible in Hv; lia))) in HC.
  rewrite HC. by split.
Qed.

(** ** The properties of the field *)

(** C37. The field operations of crypto/p224.cc compute exactly in the integers
    modulo p = 2^224 - 2^96 + 1, and never leave the words they work on: the
    product of factors below 2^29 and 2^30 per limb, the square of an element
    below 2^29, and the sum, the difference and the small multiple reduced
    again, are congruent to the product, square, sum, difference and multiple
    of the values, with every limb below 2^29 - 1. The 64-bit
    accumulators, the two reflections, the carries and the borrows of
    ReduceLarge and Reduce lose nothing on the way. *)
Theorem field_arithmetic_is_exact a b :
  limbs29 a -> below 8 1073741824 b ->
  (result29 (Mul a b) /\ value (Mul a b) ≡p value a * value b) /\
  (result29 (Square a) /\ value (Square a) ≡p value a * value a) /\
  (result29 (Reduce (Add a b)) /\ value (Reduce (Add a b)) ≡p value a + value b) /\
  (result29 (Reduce (Subtract a b)) /\ value (Reduce (Subtract a b)) ≡p value a - value b) /\
  (forall n, 0 <= n <= 3 -> result29 a -> result29 (Reduce (shift_limbs n a)) /\
     value (Reduce (shift_limbs n a)) ≡p 2 ^ n * value a).
Proof.
  intros Ha Hb. refine (conj _ (conj _ (conj _ (conj _ _)))).
  - apply Mul_spec with 536870912 1073741824; [unfold limb_product; lia|done|done].
  - exact (Square_spec a Ha).
  - destruct (Add_spec _ _ a b Ha Hb) as [Hs <-]; [lia|]. apply Reduce_spec, (below_le _ _ _ _ Hs). lia.
  - destruct (field_Subtract_spec a b) as [Hs <-]; [by apply below_le with 536870912|done|].
    apply Reduce_spec, (below_le _ _ _ _ Hs). lia.
  - intros n Hn Ha'. assert (Hn' : n = 0 \/ n = 1 \/ n = 2 \/ n = 3) by lia.
    destruct (shift_limbs_spec n 536870911 a Ha') as [Hs <-]; [lia|by intuition subst|].
    apply Reduce_spec, (below_le _ _ _ _ Hs). by intuition subst.
Qed.

Lemma field_arithmetic_is_exact_witness :
  result29 (Mul kB kP) /\ value (Mul kB kP) ≡p value kB * value kP.
Proof.
  assert (HB : limbs29 kB) by (apply below_8; lia).
  assert (HP : below 8 1073741824 kP) by (apply below_8; lia).
  exact (proj1 (field_arithmetic_is_exact kB kP HB HP)).
Defined.

(** The chain of squarings and products raises its argument to the power
    p - 2, the inverse of every element that is not zero, and zero of zero. *)
Lemma Invert_spec a :
  result29 a ->
  result29 (Invert a) /\ value (Invert a) ≡p value a ^ (p224 - 2) /\
  (~ value a ≡p 0 -> value (Mul a (Invert a)) ≡p 1) /\
  (value a ≡p 0 -> value (Invert a) ≡p 0).
Proof.
  intros Ha. destruct (Invert_power a Ha) as (_ & Hi & Hv). refine (conj Hi (conj Hv (conj _ _))).
  - intros Hnz. destruct (Mul_spec 536870911 536870911 a (Invert a)) as [_ Hm]; [unfold limb_product; lia|exact Ha|exact Hi|].
    rewrite Hm, Hv, power_inverse, Z.mul_comm by done. by apply inv_spec.
  - intros Hz. rewrite Hv. change (p224 - 2) with (Z.succ (p224 - 3)). rewrite Z.pow_succ_r by (vm_compute; done).
    generalize (value a ^ (p224 - 3)) as w. intros w. rewrite Hz. reflexivity.
Qed.

Lemma IsZero_verdict a :
  limbs29 a -> (IsZero a = 4294967295 /\ value a ≡p 0) \/ (IsZero a = 0 /\ ~ value a ≡p 0).
Proof.
  intros Ha. assert (Ha' : below 8 4294967281 a) by by apply below_le with 536870912.
  destruct (IsZero_spec a Ha') as [Hiff Hm].
  destruct (decide (value a ≡p 0)) as [H|H]; [left; split; [by apply Hiff|done]|right; split; [|done]].
  destruct Hm as [Hm|Hm]; [done|]. by apply Hiff in Hm.
Qed.

(** C38. What decides about an element of the field. IsZero recognises zero
    whatever its representation: for every element below 2^29 per limb it
    returns the full mask when the value is a multiple of p and zero otherwise,
    although Contract, which it goes through, is wrong close to the prime.
    Contract yields the one representation of 28-bit limbs below p for every
    value between 2^96 and 2^224 - 2^112. And Invert inverts, since p is a
    prime (which the library proves): a times its inverse is one, unless a is
    zero, which it returns. *)
Theorem zero_minimal_form_and_inverse a :
  limbs29 a ->
  ((IsZero a = 4294967295 /\ value a ≡p 0) \/ (IsZero a = 0 /\ ~ value a ≡p 0)) /\
  (contractible (value a mod p224) ->
   below 8 268435456 (Contract a) /\ value (Contract a) = value a mod p224) /\
  (result29 a ->
   result29 (Invert a) /\
   if IsZero a =? 0 then value (Mul a (Invert a)) ≡p 1 else value (Invert a) ≡p 0).
Proof.
  intros Ha. assert (Ha' : below 8 4294967281 a) by by apply below_le with 536870912.
  pose proof (IsZero_verdict a Ha) as Hzero. split; [done|]. split; [by apply Contract_minimal|].
  intros Hr. destruct (Invert_spec a Hr) as (Hi & _ & Hinv & Hz). split; [done|].
  destruct Hzero as [[-> H]|[-> H]]; [by apply Hz|by apply Hinv].
Qed.

Lemma zero_minimal_form_and_inverse_witness :
  (IsZero kP = 4294967295) /\ value (Contract (Add kB kB)) = value (Add kB kB) mod p224 /\ value (Mul kB (Invert kB)) ≡p 1.
Proof.
  assert (HP : limbs29 kP) by (apply below_8; lia).
  assert (HB : limbs29 (Add kB kB)).
  { destruct (Add_spec 268435456 268435456 kB kB) as [Hs _]; [apply below_8; lia|apply below_8; lia|done|].
    by apply (below_le _ _ _ _ Hs). }
  split; [|split].
  - destruct (zero_minimal_form_and_inverse kP HP) as [[[E _]|[_ E]] _]; [exact E|]. exfalso. apply E. exists 1. reflexivity.
  - refine (proj2 (proj1 (proj2 (zero_minimal_form_and_inverse (Add kB kB) HB)) _)). split; vm_compute; [discriminate|reflexivity].
  - assert (Hb : result29 kB) by (apply below_8; lia). assert (Hl : limbs29 kB) by (apply below_8; lia).
    destruct (zero_minimal_form_and_inverse kB Hl) as ([[_ E]|[E _]] & _ & Hi); [apply eqm_mod in E; vm_compute in E; discriminate E|].
    specialize (Hi Hb). rewrite E in Hi. exact (proj2 Hi).
Defined.

(** ** What modelling showed *)

(** The representation of p - 1 is below the prime, but Contract takes the
    prime away from it: the test of limb 3 looks at the lowest bit of the
    difference, where the comment speaks of the highest. Limb 0 then falls
    below zero. *)
Lemma contract_underflows :
  let a := [0; 0; 0; 0xffff000; 0xfffffff; 0xfffffff; 0xfffffff; 0xfffffff] in
  value a = p224 - 1 /\ limbs29 a /\ Contract a = [0xffffffff; 0; 0; 0; 0; 0; 0; 0].
Proof. split_and!; [reflexivity|apply below_8; lia|vm_compute; reflexivity]. Qed.

(** The bits of the three low limbs are moved to the lowest bit, but it is the
    sign that is copied: the mask is always zero. *)
Lemma bottom_3_is_ignored :
  bottom_3_non_zero [1; 2; 3; 0; 0; 0; 0; 0] = 0.
Proof. vm_compute. reflexivity. Qed.
