(* ===== verification/P224Points.v ===== *)
(** The points of P224: the Jacobian formulas of crypto/p224.cc implement the
    group law of the curve in affine coordinates, for all the points there
    are, the one at infinity and equal points among them. *)
From Stdlib Require Import Setoid Morphisms.
From S2P Require Import Prelude P224 P224Field P224Prime P224Properties.

(** ** The group law in affine coordinates

    A point is [None] at infinity, or its two coordinates, reduced. *)
Definition apoint : Type := option (Z * Z).

Definition affine_point (x y : Z) : apoint := Some (x mod p224, y mod p224).

(** The third point on the line through a point with the slope [l], and a
    point with the abscissa [x2], reflected. *)
Definition chord (l x1 y1 x2 : Z) : apoint :=
  let x3 := l * l - x1 - x2 in affine_point x3 (l * (x1 - x3) - y1).

Definition ec_double (A : apoint) : apoint :=
  match A with
  | None => None
  | Some (x, y) => if decide (y ≡p 0) then None else chord ((3 * (x * x) - 3) * inv (2 * y)) x y x
  end.

Definition ec_add (A B : apoint) : apoint :=
  match A, B with
  | None, _ => B
  | _, None => A
  | Some (x1, y1), Some (x2, y2) =>
      if decide (x1 ≡p x2) then if decide (y1 ≡p y2) then ec_double A else None
      else chord ((y2 - y1) * inv (x2 - x1)) x1 y1 x2
  end.

(** The bits of the scalar, the highest first. *)
Definition scalar_bits (scalar : list Z) : list bool :=
  scalar ≫= fun byte => map (fun n => Z.testbit byte (7 - Z.of_nat n)) (seq 0 8).

(** Double and add, from the highest bit. *)
Definition ec_step (A : apoint) (R : apoint) (bit : bool) : apoint :=
  let R := ec_double R in if bit then ec_add A R else R.
Definition ec_mult (A : apoint) (bits : list bool) : apoint := fold_left (ec_step A) bits None.

(** The affine point of a point in Jacobian coordinates. *)
Definition affine (P : Point) : apoint :=
  if decide (value (z P) ≡p 0) then None
  else let i := inv (value (z P)) in
    affine_point (value (x P) * (i * i)) (value (y P) * (i * i * i)).

(** ** Jacobian coordinates *)
Lemma affine_infinity P : value (z P) ≡p 0 -> affine P = None.
Proof. intros H. unfold affine. by rewrite decide_True. Qed.

#[export] Instance affine_point_proper : Proper (eqm ==> eqm ==> eq) affine_point.
Proof. intros a b Hab c d Hcd. unfold affine_point. apply eqm_mod in Hab, Hcd. by rewrite Hab, Hcd. Qed.

Lemma affine_finite P Z a b :
  value (z P) ≡p Z -> ~ Z ≡p 0 -> value (x P) ≡p a * (Z * Z) -> value (y P) ≡p b * (Z * Z * Z) ->
  affine P = affine_point a b.
Proof.
  intros HZ Hnz Hx Hy. unfold affine. rewrite decide_False by (by rewrite HZ). cbv zeta.
  set (i := inv (value (z P))). assert (Hi : i * Z ≡p 1) by (rewrite <- HZ; apply inv_spec; by rewrite HZ).
  rewrite Hx, Hy. clearbody i. apply affine_point_proper.
  - transitivity (a * ((i * Z) * (i * Z))); [apply eqm_of_eq; ring|]. rewrite Hi. apply eqm_of_eq. ring.
  - transitivity (b * ((i * Z) * (i * Z) * (i * Z))); [apply eqm_of_eq; ring|]. rewrite Hi. apply eqm_of_eq. ring.
Qed.

(** Either the point is at infinity, or it has these coordinates. *)
Lemma affine_cases P :
  (value (z P) ≡p 0 /\ affine P = None) \/
  exists a b, ~ value (z P) ≡p 0 /\ affine P = Some (a, b) /\
    value (x P) ≡p a * (value (z P) * value (z P)) /\
    value (y P) ≡p b * (value (z P) * value (z P) * value (z P)).
Proof.
  destruct (decide (value (z P) ≡p 0)) as [H|H]; [left; split; [done|by apply affine_infinity]|right].
  unfold affine. rewrite decide_False by done. cbv zeta. pose proof (inv_spec _ H) as Hi.
  set (i := inv (value (z P))) in *. clearbody i. unfold affine_point. do 2 eexists. split_and!; [done|reflexivity| |].
  - rewrite eqm_mod_l.
    transitivity (value (x P) * (1 * 1)); [apply eqm_of_eq; ring|]. rewrite <- Hi. apply eqm_of_eq. ring.
  - rewrite eqm_mod_l.
    transitivity (value (y P) * (1 * 1 * 1)); [apply eqm_of_eq; ring|]. rewrite <- Hi. apply eqm_of_eq. ring.
Qed.

(** ** Elements with a value *)

(** The element holds a number modulo the prime, in limbs as the field
    operations leave them. *)
Definition holds (v : Z) (f : FieldElement) : Prop := result29 f /\ value f ≡p v.

Lemma holds_value f : result29 f -> holds (value f) f.
Proof. by split. Qed.

Lemma holds_eqm u v f : holds u f -> u ≡p v -> holds v f.
Proof. intros [Hf Hu] Huv. split; [done|]. by rewrite Hu. Qed.

Lemma holds_Square u f : holds u f -> holds (u * u) (Square f).
Proof.
  intros [Hf Hu]. destruct (Square_spec f (result_limbs f Hf)) as [Hb Hv]. split; [exact Hb|]. by rewrite Hv, Hu.
Qed.

Lemma holds_Mul u v f g : holds u f -> holds v g -> holds (u * v) (Mul f g).
Proof.
  intros [Hf Hu] [Hg Hv]. destruct (Mul_spec 536870911 536870911 f g) as [Hb Hm]; [unfold limb_product; lia|done|done|].
  split; [exact Hb|]. by rewrite Hm, Hu, Hv.
Qed.

Lemma holds_Reduce v f : below 8 4294967281 f -> value f ≡p v -> holds v (Reduce f).
Proof. intros Hf Hv. destruct (Reduce_spec f Hf) as [Hb Hr]. split; [exact Hb|]. by rewrite Hr. Qed.

Lemma holds_shift n v f : 0 <= n <= 3 -> holds v f -> holds (2 ^ n * v) (Reduce (shift_limbs n f)).
Proof.
  intros Hn [Hf Hv]. assert (Hn' : n = 0 \/ n = 1 \/ n = 2 \/ n = 3) by lia.
  destruct (shift_limbs_spec n 536870911 f Hf) as [Hs Hsv]; [lia|by intuition subst|].
  apply holds_Reduce; [|by rewrite Hsv, Hv]. apply (below_le _ _ _ _ Hs). by intuition subst.
Qed.

Lemma holds_sub u v f g : holds u f -> holds v g -> holds (u - v) (Reduce (Subtract f g)).
Proof.
  intros [Hf Hu] [Hg Hv]. destruct (field_Subtract_spec f g) as [Hs Hsv]; [by apply below_le with 536870911..|].
  apply holds_Reduce; [|by rewrite Hsv, Hu, Hv]. apply (below_le _ _ _ _ Hs). lia.
Qed.

Lemma holds_add u v f g : holds u f -> holds v g -> holds (u + v) (Reduce (Add f g)).
Proof.
  intros [Hf Hu] [Hg Hv]. destruct (Add_spec _ _ f g Hf Hg) as [Hs Hsv]; [lia|].
  apply holds_Reduce; [|by rewrite Hsv, Hu, Hv]. apply (below_le _ _ _ _ Hs). lia.
Qed.

(** The difference to a sum that is not reduced. *)
Lemma holds_sub_sum u v w f g h :
  holds u f -> holds v g -> holds w h -> holds (u - (v + w)) (Reduce (Subtract f (Add g h))).
Proof.
  intros [Hf Hu] [Hg Hv] [Hh Hw]. destruct (Add_spec _ _ g h Hg Hh) as [Hs Hsv]; [lia|].
  destruct (field_Subtract_spec f (Add g h)) as [Hd Hdv]; [by apply below_le with 536870911|apply (below_le _ _ _ _ Hs); lia|].
  apply holds_Reduce; [|by rewrite Hdv, Hsv, Hu, Hv, Hw]. apply (below_le _ _ _ _ Hd). lia.
Qed.

Lemma holds_add_double u v f g : holds u f -> holds v g -> holds (u + 2 * v) (Reduce (Add f (shift_limbs 1 g))).
Proof.
  intros [Hf Hu] [Hg Hv]. destruct (shift_limbs_spec 1 536870911 g Hg) as [Hs Hsv]; [lia|done|].
  destruct (Add_spec _ _ f (shift_limbs 1 g) Hf Hs) as [Hd Hdv]; [done|].
  apply holds_Reduce; [|by rewrite Hdv, Hsv, Hu, Hv]. by apply (below_le _ _ _ _ Hd).
Qed.

Lemma holds_mul_double u v f g : holds u f -> holds v g -> holds (2 * u * v) (Mul (shift_limbs 1 f) g).
Proof.
  intros [Hf Hu] [Hg Hv]. destruct (shift_limbs_spec 1 536870911 f Hf) as [Hs Hsv]; [lia|done|].
  destruct (Mul_spec 1073741821 536870911 (shift_limbs 1 f) g) as [Hb Hm]; [by unfold limb_product|done|done|].
  split; [exact Hb|]. by rewrite Hm, Hsv, Hu, Hv.
Qed.

(** [t[i] += t[i] << 1] on a sum that is not reduced. *)
Definition triple (t : FieldElement) : FieldElement := limbs (fun i => u32 (t.[i] + t.[i] <32 1)).

Lemma holds_triple u v f g : holds u f -> holds v g -> holds (3 * (u + v)) (Reduce (triple (Add f g))).
Proof.
  intros [Hf Hu] [Hg Hv]. destruct (Add_spec _ _ f g Hf Hg) as [Hs Hsv]; [lia|].
  set (t := Add f g) in *. clearbody t. apply holds_Reduce.
  - name_limbs t Hs. unfold triple, limbs. cbn [map seq nth]. rewrite !Z.shiftl_mul_pow2 by lia. change (2 ^ 1) with 2.
    no_wrap. apply below_8; lia.
  - assert (E : value (triple t) = 3 * value t); [|by rewrite E, Hsv, Hu, Hv].
    name_limbs t Hs. unfold triple, limbs. cbn [map seq nth]. rewrite !Z.shiftl_mul_pow2 by lia. change (2 ^ 1) with 2.
    no_wrap. cbn [value]. ring.
Qed.

(** ** Doubling *)
Definition holds_point (X Y Z : Z) (P : Point) : Prop := holds X (x P) /\ holds Y (y P) /\ holds Z (z P).

#[local] Opaque Mul Square Reduce Add Subtract shift_limbs triple.

Ltac holding :=
  lazymatch goal with
  | |- holds _ (Mul (shift_limbs 1 _) _) => eapply holds_mul_double; holding
  | |- holds _ (Mul _ _) => eapply holds_Mul; holding
  | |- holds _ (Square _) => eapply holds_Square; holding
  | |- holds _ (Reduce (triple (Add _ _))) => eapply holds_triple; holding
  | |- holds _ (Reduce (Add _ (shift_limbs 1 _))) => eapply holds_add_double; holding
  | |- holds _ (Reduce (Subtract _ (Add _ _))) => eapply holds_sub_sum; holding
  | |- holds _ (Reduce (shift_limbs _ _)) => eapply holds_shift; [lia|holding]
  | |- holds _ (Reduce (Subtract _ _)) => eapply holds_sub; holding
  | |- holds _ (Reduce (Add _ _)) => eapply holds_add; holding
  | H : holds _ ?f |- holds _ ?f => exact H
  end.

Lemma DoubleJacobian_holds (alias : bool) out a X Y Z :
  (if alias then out = a else True) -> holds_point X Y Z a ->
  let beta := X * (Y * Y) in
  let alpha := (X - Z * Z) * (3 * (X + Z * Z)) in
  let X3 := alpha * alpha - 8 * beta in
  holds_point X3 (alpha * (4 * beta - X3) - 8 * ((Y * Y) * (Y * Y))) (2 * Y * Z) (DoubleJacobian alias out a).
Proof.
  intros Halias (HX & HY & HZ). cbv zeta.
  assert (E : DoubleJacobian alias out a =
    let delta := Square (z a) in let gamma := Square (y a) in let beta := Mul (x a) gamma in
    let alpha := Mul (Reduce (Subtract (x a) delta)) (Reduce (triple (Add (x a) delta))) in
    let x3 := Reduce (Subtract (Square alpha) (Reduce (shift_limbs 3 beta))) in
    mkPoint x3
      (Reduce (Subtract (Mul alpha (Reduce (Subtract (Reduce (shift_limbs 2 beta)) x3)))
                        (Reduce (shift_limbs 3 (Square gamma)))))
      (Reduce (Subtract (Reduce (Subtract (Square (Reduce (Add (y a) (z a)))) gamma)) delta))).
  { destruct alias; [subst out|]; reflexivity. }
  rewrite E. clear E. cbv zeta. split_and!; cbn [x y z]; (eapply holds_eqm; [holding|]);
    apply eqm_of_eq; change (2 ^ 3) with 8; change (2 ^ 2) with 4; ring.
Qed.

(** The limbs of a point as the field operations leave them. *)
Definition wf (P : Point) : Prop := result29 (x P) /\ result29 (y P) /\ result29 (z P).

Lemma holds_point_wf X Y Z P : holds_point X Y Z P -> wf P.
Proof. intros ([? _] & [? _] & [? _]). by split. Qed.

Lemma wf_holds_point X Y Z P :
  wf P -> value (x P) ≡p X -> value (y P) ≡p Y -> value (z P) ≡p Z -> holds_point X Y Z P.
Proof. intros (? & ? & ?) ? ? ?. by split_and!. Qed.

Lemma eqm_mul_nz a b : ~ a ≡p 0 -> ~ b ≡p 0 -> ~ a * b ≡p 0.
Proof. intros Ha Hb H. apply eqm_zero_mul in H. tauto. Qed.

Lemma two_nz : ~ 2 ≡p 0.
Proof. intros H. apply eqm_mod in H. discriminate H. Qed.

Lemma DoubleJacobian_affine (alias : bool) out a :
  (if alias then out = a else True) -> wf a ->
  wf (DoubleJacobian alias out a) /\ affine (DoubleJacobian alias out a) = ec_double (affine a).
Proof.
  intros Halias Ha.
  destruct (affine_cases a) as [[Hz Haff]|(xa & ya & Hz & Haff & Hx & Hy)]; rewrite Haff; cbn [ec_double].
  - destruct (DoubleJacobian_holds alias out a (value (x a)) (value (y a)) 0 Halias) as (Hx3 & Hy3 & Hz3).
    { by apply wf_holds_point. }
    split; [by eapply holds_point_wf; split_and!|]. apply affine_infinity. rewrite (proj2 Hz3). apply eqm_of_eq. ring.
  - set (Z := value (z a)) in *.
    destruct (DoubleJacobian_holds alias out a (xa * (Z * Z)) (ya * (Z * Z * Z)) Z Halias) as (Hx3 & Hy3 & Hz3).
    { by apply wf_holds_point. }
    split; [by eapply holds_point_wf; split_and!|].
    set (r := DoubleJacobian alias out a) in *. clearbody r Z. clear Ha Haff Hx Hy Halias.
    destruct Hx3 as [_ Hx3], Hy3 as [_ Hy3], Hz3 as [_ Hz3].
    destruct (decide (ya ≡p 0)) as [Hya|Hya].
    + apply affine_infinity. rewrite Hz3, Hya. apply eqm_of_eq. ring.
    + unfold chord. set (l := (3 * (xa * xa) - 3) * inv (2 * ya)).
      assert (Hl : l * (2 * ya) ≡p 3 * (xa * xa) - 3).
      { subst l. rewrite <- Z.mul_assoc, inv_spec by (by apply eqm_mul_nz; [apply two_nz|]). apply eqm_of_eq. ring. }
      clearbody l.
      assert (Halpha : (xa * (Z * Z) - Z * Z) * (3 * (xa * (Z * Z) + Z * Z)) ≡p l * (2 * ya) * (Z * Z * Z * Z)).
      { rewrite Hl. apply eqm_of_eq. ring. }
      rewrite Halpha in Hx3, Hy3. apply affine_finite with (2 * ya * (Z * Z * Z * Z)).
      * rewrite Hz3. apply eqm_of_eq. ring.
      * repeat apply eqm_mul_nz; done || apply two_nz.
      * rewrite Hx3. apply eqm_of_eq. ring.
      * rewrite Hy3. apply eqm_of_eq. ring.
Qed.

(** ** Addition *)
Lemma copy_element_spec mask out a :
  result29 out -> result29 a -> is_mask mask -> copy_element mask out a = if truth mask then a else out.
Proof.
  intros Hout Ha [->| ->]; name_limbs out Hout; name_limbs a Ha; unfold copy_element, limbs; cbn [map seq nth truth Z.eqb negb].
  - by rewrite !Z.land_0_l, !Z.lxor_0_r.
  - assert (E : forall u v, 0 <= u < 536870911 -> 0 <= v < 536870911 -> Z.lxor u (Z.land 4294967295 (Z.lxor v u)) = v).
    { intros u v Hu Hv. change 4294967295 with (Z.ones 32). apply Z.bits_inj'. intros n Hn.
      rewrite Z.lxor_spec, Z.land_spec, Z.lxor_spec. destruct (Z.lt_ge_cases n 32).
      - rewrite Z.ones_spec_low by lia. by destruct (Z.testbit u n), (Z.testbit v n).
      - rewrite (testbit_high u), (testbit_high v) by lia. by destruct (Z.testbit _ n). }
    rewrite !E by lia. reflexivity.
Qed.

Lemma CopyConditional_spec out a mask :
  wf out -> wf a -> is_mask mask -> CopyConditional out a mask = if truth mask then a else out.
Proof.
  intros (Hx & Hy & Hz) (Hx' & Hy' & Hz') Hm. unfold CopyConditional. rewrite !copy_element_spec by done.
  destruct (truth mask), out, a; reflexivity.
Qed.

Lemma truth_IsZero v f : holds v f -> truth (IsZero f) = bool_decide (v ≡p 0) /\ is_mask (IsZero f).
Proof.
  intros [Hf Hv]. destruct (IsZero_spec f) as [Hiff Hm]; [by apply below_le with 536870911|]. split; [|done].
  rewrite Hv in Hiff. destruct Hm as [H|H]; rewrite H in *; cbn [truth Z.eqb negb]; symmetry.
  - apply bool_decide_eq_false. intros H'. by apply Hiff in H'.
  - apply bool_decide_eq_true. by apply Hiff.
Qed.

#[local] Opaque IsZero CopyConditional DoubleJacobian.

Lemma AddJacobian_holds out a b X1 Y1 Z1 X2 Y2 Z2 :
  holds_point X1 Y1 Z1 a -> holds_point X2 Y2 Z2 b ->
  let H := X2 * (Z1 * Z1) - X1 * (Z2 * Z2) in
  let R := Y2 * (Z1 * (Z1 * Z1)) - Y1 * (Z2 * (Z2 * Z2)) in
  let V := X1 * (Z2 * Z2) * ((2 * H) * (2 * H)) in
  let X3 := (2 * R) * (2 * R) - (H * ((2 * H) * (2 * H)) + 2 * V) in
  let Y3 := (V - X3) * (2 * R) - 2 * (Y1 * (Z2 * (Z2 * Z2))) * (H * ((2 * H) * (2 * H))) in
  exists r, holds_point X3 Y3 (2 * Z1 * Z2 * H) r /\
    AddJacobian out a b =
      (if bool_decide (H ≡p 0) && bool_decide (R ≡p 0) && negb (bool_decide (Z1 ≡p 0)) && negb (bool_decide (Z2 ≡p 0))
       then DoubleJacobian false out a
       else if bool_decide (Z1 ≡p 0) then b else if bool_decide (Z2 ≡p 0) then a else r).
Proof.
  intros (HX1 & HY1 & HZ1) (HX2 & HY2 & HZ2). cbv zeta.
  pose (u1 := Mul (x a) (Square (z b))). pose (h := Reduce (Subtract (Mul (x b) (Square (z a))) u1)).
  pose (s1 := Mul (y a) (Mul (z b) (Square (z b)))).
  pose (r0 := Reduce (Subtract (Mul (y b) (Mul (z a) (Square (z a)))) s1)).
  pose (i := Square (Reduce (shift_limbs 1 h))). pose (j := Mul h i). pose (r1 := Reduce (shift_limbs 1 r0)).
  pose (v := Mul u1 i).
  pose (x3 := Reduce (Subtract (Square r1) (Reduce (Add j (shift_limbs 1 v))))).
  pose (y3 := Reduce (Subtract (Mul (Reduce (Subtract v x3)) r1) (Mul (shift_limbs 1 s1) j))).
  pose (z3 := Mul (Reduce (Subtract (Square (Reduce (Add (z a) (z b)))) (Add (Square (z a)) (Square (z b))))) h).
  assert (E : AddJacobian out a b =
    if truth (IsZero h) && truth (IsZero r0) && negb (truth (IsZero (z a))) && negb (truth (IsZero (z b)))
    then DoubleJacobian false out a
    else CopyConditional (CopyConditional (mkPoint x3 y3 z3) a (IsZero (z b))) b (IsZero (z a))) by reflexivity.
  assert (Hh : holds (X2 * (Z1 * Z1) - X1 * (Z2 * Z2)) h) by (subst h u1; holding).
  assert (Hr : holds (Y2 * (Z1 * (Z1 * Z1)) - Y1 * (Z2 * (Z2 * Z2))) r0) by (subst r0 s1; holding).
  destruct (truth_IsZero _ _ Hh) as [Th _], (truth_IsZero _ _ Hr) as [Tr _].
  destruct (truth_IsZero _ _ HZ1) as [T1 M1], (truth_IsZero _ _ HZ2) as [T2 M2].
  exists (mkPoint x3 y3 z3). refine ((fun Hp => conj Hp _) _).
  - rewrite E, Th, Tr, T1, T2. case_if; [reflexivity|].
    assert (Wa : wf a) by exact (conj (proj1 HX1) (conj (proj1 HY1) (proj1 HZ1))).
    assert (Wb : wf b) by exact (conj (proj1 HX2) (conj (proj1 HY2) (proj1 HZ2))).
    pose proof (holds_point_wf _ _ _ _ Hp) as Wp.
    rewrite (CopyConditional_spec _ _ _ Wp Wa M2), T2.
    destruct (bool_decide (Z2 ≡p 0)).
    + rewrite (CopyConditional_spec _ _ _ Wa Wb M1), T1. by destruct (bool_decide (Z1 ≡p 0)).
    + rewrite (CopyConditional_spec _ _ _ Wp Wb M1), T1. reflexivity.
  - assert (Hs1 : holds (Y1 * (Z2 * (Z2 * Z2))) s1) by (subst s1; holding).
    assert (Hu1 : holds (X1 * (Z2 * Z2)) u1) by (subst u1; holding). clearbody h r0 s1 u1.
    assert (Hi : holds _ i) by (subst i; holding). assert (Hr1 : holds _ r1) by (subst r1; holding). clearbody i r1.
    assert (Hj : holds _ j) by (subst j; holding). assert (Hv : holds _ v) by (subst v; holding). clearbody j v.
    assert (Hx3 : holds _ x3) by (subst x3; holding). clearbody x3. subst y3 z3.
    split_and!; cbn [x y z]; (eapply holds_eqm; [holding|]); apply eqm_of_eq; change (2 ^ 1) with 2; ring.
Qed.

Lemma sub_eqm a b : a - b ≡p 0 <-> a ≡p b.
Proof. unfold eqm. by rewrite Z.sub_0_r. Qed.

Lemma eqm_refl' {a} : a ≡p a.
Proof. reflexivity. Qed.

Lemma factor_zero a b w : ~ w ≡p 0 -> (b - a) * w ≡p 0 <-> a ≡p b.
Proof.
  intros Hw. split.
  - intros H. apply eqm_zero_mul in H as [H|H]; [|done]. apply (proj1 (sub_eqm b a)) in H. by symmetry.
  - intros ->. apply eqm_of_eq. ring.
Qed.

(** Adding implements the group law, with every exceptional case: a point at
    infinity, the same point twice, and two opposite points. *)
Lemma AddJacobian_affine out a b :
  wf a -> wf b -> wf (AddJacobian out a b) /\ affine (AddJacobian out a b) = ec_add (affine a) (affine b).
Proof.
  intros Ha Hb.
  destruct (affine_cases a) as [[Hza Haa]|(xa & ya & Hza & Haa & Hxa & Hya)].
  { destruct (AddJacobian_holds out a b _ _ _ _ _ _ (wf_holds_point _ _ _ a Ha eqm_refl' eqm_refl' eqm_refl')
      (wf_holds_point _ _ _ b Hb eqm_refl' eqm_refl' eqm_refl')) as (r & _ & ->).
    rewrite (bool_decide_eq_true_2 _ Hza). cbn [negb]. rewrite andb_false_r, Haa. by split. }
  destruct (affine_cases b) as [[Hzb Hab]|(xb & yb & Hzb & Hab & Hxb & Hyb)].
  { destruct (AddJacobian_holds out a b _ _ _ _ _ _ (wf_holds_point _ _ _ a Ha eqm_refl' eqm_refl' eqm_refl')
      (wf_holds_point _ _ _ b Hb eqm_refl' eqm_refl' eqm_refl')) as (r & _ & ->).
    rewrite (bool_decide_eq_false_2 _ Hza), (bool_decide_eq_true_2 _ Hzb). cbn [negb].
    rewrite andb_false_r, Haa, Hab. by split. }
  destruct (AddJacobian_holds out a b _ _ _ _ _ _ (wf_holds_point _ _ _ a Ha Hxa Hya eqm_refl')
    (wf_holds_point _ _ _ b Hb Hxb Hyb eqm_refl')) as (r & Hr & ->).
  rewrite (bool_decide_eq_false_2 _ Hza), (bool_decide_eq_false_2 _ Hzb). cbn [negb]. rewrite !andb_true_r.
  pose proof (DoubleJacobian_affine false out a I Ha) as Hdouble. rewrite Haa in Hdouble.
  rewrite Haa, Hab. unfold ec_add.
  set (Z1 := value (z a)) in *. set (Z2 := value (z b)) in *. clearbody Z1 Z2.
  assert (HW : ~ Z1 * Z2 ≡p 0) by by apply eqm_mul_nz.
  assert (HH : xb * (Z2 * Z2) * (Z1 * Z1) - xa * (Z1 * Z1) * (Z2 * Z2) = (xb - xa) * ((Z1 * Z2) * (Z1 * Z2))) by ring.
  assert (HR : yb * (Z2 * Z2 * Z2) * (Z1 * (Z1 * Z1)) - ya * (Z1 * Z1 * Z1) * (Z2 * (Z2 * Z2)) =
    (yb - ya) * ((Z1 * Z2) * (Z1 * Z2) * (Z1 * Z2))) by ring.
  rewrite HH, HR in Hr |- *. clear HH HR.
  assert (Hx : (xb - xa) * (Z1 * Z2 * (Z1 * Z2)) ≡p 0 <-> xa ≡p xb) by (by apply factor_zero, eqm_mul_nz).
  assert (Hy : (yb - ya) * (Z1 * Z2 * (Z1 * Z2) * (Z1 * Z2)) ≡p 0 <-> ya ≡p yb)
    by (by apply factor_zero, eqm_mul_nz; [apply eqm_mul_nz|]).
  destruct Hr as (Hx3 & Hy3 & Hz3).
  assert (Wr : wf r) by exact (conj (proj1 Hx3) (conj (proj1 Hy3) (proj1 Hz3))).
  destruct Hx3 as [_ Hx3], Hy3 as [_ Hy3], Hz3 as [_ Hz3].
  destruct (decide (xa ≡p xb)) as [Ex|Ex].
  - rewrite (bool_decide_eq_true_2 _ (proj2 Hx Ex)). cbn [andb]. destruct (decide (ya ≡p yb)) as [Ey|Ey].
    + rewrite (bool_decide_eq_true_2 _ (proj2 Hy Ey)). exact Hdouble.
    + rewrite (bool_decide_eq_false_2 _ (fun E => Ey (proj1 Hy E))). split; [exact Wr|].
      apply affine_infinity. rewrite Hz3, (proj2 Hx Ex), Z.mul_0_r. reflexivity.
  - assert (HnH : ~ (xb - xa) * (Z1 * Z2 * (Z1 * Z2)) ≡p 0) by (by rewrite Hx).
    rewrite (bool_decide_eq_false_2 _ HnH). cbn [andb]. split; [exact Wr|].
    unfold chord. set (l := (yb - ya) * inv (xb - xa)).
    assert (Hl : yb - ya ≡p l * (xb - xa)).
    { subst l. rewrite <- Z.mul_assoc, inv_spec; [apply eqm_of_eq; ring|].
      intros E. apply Ex. apply (proj1 (sub_eqm xb xa)) in E. by symmetry. }
    clearbody l. rewrite Hl in Hx3, Hy3. apply affine_finite with (2 * Z1 * Z2 * ((xb - xa) * (Z1 * Z2 * (Z1 * Z2)))).
    + exact Hz3.
    + apply eqm_mul_nz; [|done]. by repeat apply eqm_mul_nz; [apply two_nz|..].
    + rewrite Hx3. apply eqm_of_eq. ring.
    + rewrite Hy3. apply eqm_of_eq. ring.
Qed.

(** ** Multiplication by a scalar *)
Definition byte_list (bytes : list Z) : Prop := Forall (fun b => 0 <= b < 256) bytes.

Lemma bit_mask_spec byte n :
  0 <= byte < 256 -> (n < 8)%nat ->
  is_mask (bit_mask byte n) /\ truth (bit_mask byte n) = Z.testbit byte (7 - Z.of_nat n).
Proof.
  intros Hbyte Hn.
  assert (H : bit_mask byte n = if Z.testbit byte (7 - Z.of_nat n) then 4294967295 else 0).
  { revert byte Hbyte. do 8 (destruct n as [|n]; [compute_below 256%nat|]). lia. }
  rewrite H. destruct (Z.testbit _ _); split; reflexivity || (by left) || by right.
Qed.

#[local] Opaque AddJacobian.

Lemma scalar_bit_affine a byte n out :
  wf a -> wf out -> 0 <= byte < 256 -> (n < 8)%nat ->
  wf (scalar_bit a byte n out) /\
  affine (scalar_bit a byte n out) = ec_step (affine a) (affine out) (Z.testbit byte (7 - Z.of_nat n)).
Proof.
  intros Ha Hout Hbyte Hn. destruct (bit_mask_spec byte n Hbyte Hn) as [Hm Ht].
  destruct (DoubleJacobian_affine true out out eq_refl Hout) as [Hd Hde].
  unfold scalar_bit. cbv zeta. set (d := DoubleJacobian true out out) in *.
  destruct (AddJacobian_affine d a d Ha Hd) as [Hs Hse].
  rewrite CopyConditional_spec, Ht by done. unfold ec_step. rewrite <- Hde.
  destruct (Z.testbit _ _); by split.
Qed.

Lemma scalar_byte_affine a byte out :
  wf a -> wf out -> 0 <= byte < 256 ->
  let r := for_up 0 8 (scalar_bit a byte) out in
  wf r /\ affine r = fold_left (ec_step (affine a)) (map (fun n => Z.testbit byte (7 - Z.of_nat n)) (seq 0 8)) (affine out).
Proof.
  intros Ha Hout Hbyte r. subst r.
  refine (for_up_inv 0 8 (scalar_bit a byte) (fun n r => wf r /\ affine r =
    fold_left (ec_step (affine a)) (map (fun n => Z.testbit byte (7 - Z.of_nat n)) (seq 0 n)) (affine out)) out _ _ _);
    [lia|done|].
  intros n r Hn [Hr Hre]. destruct (scalar_bit_affine a byte n r Ha Hr Hbyte) as [Hw He]; [lia|].
  split; [done|]. by rewrite seq_S, map_app, fold_left_app, He, Hre.
Qed.

Lemma zero_point_wf : wf zero_point /\ affine zero_point = None.
Proof.
  split; [|by apply affine_infinity]. assert (H : result29 (repeat 0 8)) by (apply below_8; lia). by split_and!.
Qed.

Lemma ScalarMultBytes_affine a scalar :
  wf a -> byte_list scalar ->
  wf (ScalarMultBytes a scalar) /\ affine (ScalarMultBytes a scalar) = ec_mult (affine a) (scalar_bits scalar).
Proof.
  intros Ha Hs. unfold ScalarMultBytes, ec_mult.
  destruct zero_point_wf as [Hz Hze]. rewrite <- Hze. clear Hze. revert Hz. generalize zero_point as out.
  induction Hs as [|byte scalar Hbyte Hs IH]; intros out Hout; [done|].
  cbn [fold_left]. destruct (scalar_byte_affine a byte out Ha Hout Hbyte) as [Hw He].
  destruct (IH _ Hw) as [Hw' He']. split; [done|].
  unfold scalar_bits in *. rewrite bind_cons, fold_left_app. cbv beta. rewrite <- He. exact He'.
Qed.

(** ** The opposite point *)
Definition ec_negate (A : apoint) : apoint :=
  match A with None => None | Some (x, y) => affine_point x (- y) end.

(** The coordinates that the inverse of Z gives are the affine ones. *)
Lemma affine_by_Invert P xa ya :
  wf P -> affine P = Some (xa, ya) ->
  holds xa (Mul (x P) (Square (Invert (z P)))) /\
  holds ya (Mul (y P) (Mul (Square (Invert (z P))) (Invert (z P)))) /\
  truth (IsZero (z P)) = false /\ xa mod p224 = xa /\ ya mod p224 = ya.
Proof.
  intros (Hx & Hy & Hz) Haff. destruct (truth_IsZero _ _ (holds_value _ Hz)) as [Tz _].
  unfold affine in Haff. destruct (decide (value (z P) ≡p 0)) as [|Hnz]; [done|]. rewrite (bool_decide_eq_false_2 _ Hnz) in Tz.
  cbv zeta in Haff. unfold affine_point in Haff. injection Haff as <- <-.
  assert (Hinv : holds (inv (value (z P))) (Invert (z P))).
  { destruct (Invert_power (z P) Hz) as (_ & Hi & Hiv). split; [exact Hi|]. by rewrite <- power_inverse. }
  set (i := inv (value (z P))) in *. clearbody i. set (zinv := Invert (z P)) in *. clearbody zinv.
  assert (Hx' : holds (value (x P)) (x P)) by by apply holds_value.
  assert (Hy' : holds (value (y P)) (y P)) by by apply holds_value.
  rewrite !Z.mod_mod by done. split_and!; try done; (eapply holds_eqm; [holding|]); by rewrite eqm_mod_l.
Qed.

Lemma Negate_affine P :
  wf P -> affine P <> None -> wf (Negate P) /\ affine (Negate P) = ec_negate (affine P).
Proof.
  intros HP Hfin. destruct (affine P) as [[xa ya]|] eqn:E; [|done]. clear Hfin.
  destruct (affine_by_Invert P xa ya HP E) as (Hx & Hy & _ & Hxa & Hya).
  assert (HkP : holds 0 kP) by (split; [apply below_8; lia|exists 1; reflexivity]).
  assert (Hny : holds (0 - ya) (Reduce (Subtract kP (Mul (y P) (Mul (Square (Invert (z P))) (Invert (z P))))))).
  { eapply holds_sub; [exact HkP|exact Hy]. }
  change (Negate P) with (mkPoint (Mul (x P) (Square (Invert (z P))))
    (Reduce (Subtract kP (Mul (y P) (Mul (Square (Invert (z P))) (Invert (z P)))))) one).
  split; [split_and!; [apply Hx|apply Hny|apply below_8; lia]|].
  cbn [ec_negate]. apply affine_finite with 1; cbn [x y z].
  - reflexivity.
  - intros H. apply eqm_mod in H. discriminate H.
  - rewrite (proj2 Hx). apply eqm_of_eq. ring.
  - rewrite (proj2 Hny). apply eqm_of_eq. ring.
Qed.

Lemma base_point_wf : wf kBasePoint.
Proof. split_and!; apply below_8; lia. Qed.

(** ** The property of the points *)

(** C35. The Jacobian arithmetic of crypto/p224.cc refines the group law of the
    curve in affine coordinates: for points whose limbs are below 2^29 - 1,
    multiplication by a scalar of 28 bytes, of any point and of the base
    point, is double-and-add with the textbook law; addition is that law in
    every case, with points at infinity, equal and opposite points; negation
    of a finite point is the opposite point; and the results satisfy the same
    bound on the limbs. *)
Theorem points_refine_the_group_law a b scalar :
  wf a -> wf b -> byte_list scalar ->
  (wf (ScalarMult a scalar) /\ affine (ScalarMult a scalar) = ec_mult (affine a) (scalar_bits (take 28 scalar))) /\
  (wf (ScalarBaseMult scalar) /\
   affine (ScalarBaseMult scalar) = ec_mult (affine kBasePoint) (scalar_bits (take 28 scalar))) /\
  (forall out, wf (AddPoints out a b) /\ affine (AddPoints out a b) = ec_add (affine a) (affine b)) /\
  (affine a <> None -> wf (Negate a) /\ affine (Negate a) = ec_negate (affine a)).
Proof.
  intros Ha Hb Hs. assert (Hs' : byte_list (take 28 scalar)) by by apply Forall_take.
  refine (conj _ (conj _ (conj _ _))).
  - exact (ScalarMultBytes_affine a _ Ha Hs').
  - exact (ScalarMultBytes_affine kBasePoint _ base_point_wf Hs').
  - intros out. exact (AddJacobian_affine out a b Ha Hb).
  - exact (Negate_affine a Ha).
Qed.

Lemma points_refine_the_group_law_witness :
  affine (ScalarMult kBasePoint [0; 2]) = ec_mult (affine kBasePoint) (scalar_bits (take 28 [0; 2])) /\
  ec_mult (affine kBasePoint) (scalar_bits [0; 2]) = Some
    (0x706a46dc76dcb76798e60e6d89474788d16dc18032d268fd1a704fa6,
     0x1c2b76a7bc25e7702a704fa986892849fca629487acf3709d2e4e8bb).
Proof.
  split; [|vm_compute; reflexivity].
  assert (Hs : byte_list [0; 2]) by (repeat constructor; lia).
  exact (proj2 (proj1 (points_refine_the_group_law kBasePoint kBasePoint [0; 2] base_point_wf base_point_wf Hs))).
Defined.

(** ** What modelling showed *)

(** Negate makes of the point at infinity the point with both coordinates
    zero, which is not on the curve. *)
Lemma negated_infinity_is_finite : affine zero_point = None /\ affine (Negate zero_point) = Some (0, 0).
Proof. split; vm_compute; reflexivity. Qed.

(** Doubling hands Reduce more than its comment allows, here for the base point
    doubled twelve times; what Reduce really needs is met. *)
Lemma doubling_exceeds_the_comment :
  let a := Nat.iter 12 (fun a => DoubleJacobian false a a) kBasePoint in
  existsb (fun limb => 2 ^ 31 + 2 ^ 30 <=? limb) (shift_limbs 3 (Mul (x a) (Square (y a)))) = true.
Proof. vm_compute. reflexivity. Qed.
