(* ===== verification/P224Text.v ===== *)
(** The textual form of the points of P224: what ToString writes is the two
    affine coordinates, and SetFromString reads the same point back. *)
From Stdlib Require Import Setoid Morphisms.
From S2P Require Import Prelude CArrays Memory P224 P224Field P224Prime P224Properties P224Points.

(** ** Numbers as bytes *)

(** A word more. *)
Lemma be_bytes_word n v w :
  0 <= w < 2 ^ 32 -> be_bytes (4 + n) (v * 2 ^ 32 + w) = be_bytes n v ++ to_be32 w.
Proof.
  intros Hw. rewrite Nat.add_comm. cbn [Nat.add]. replace (n + 4)%nat with (S (S (S (S n)))) by lia. cbn [be_bytes].
  rewrite <- !app_assoc. cbn [app]. unfold to_be32. rewrite !Z.div_div by lia.
  assert (Hd : forall k, (k = 8 \/ k = 16 \/ k = 24 \/ k = 32) ->
    (v * 2 ^ 32 + w) / 2 ^ k = v * 2 ^ (32 - k) + w / 2 ^ k).
  { intros k Hk. replace (v * 2 ^ 32) with (v * 2 ^ (32 - k) * 2 ^ k); [apply Z.div_add_l; destruct Hk as [->|[->|[->| ->]]]; lia|].
    rewrite <- Z.mul_assoc, <- Z.pow_add_r by lia. repeat f_equal; lia. }
  change (256 * (256 * (256 * 256))) with (2 ^ 32). change (256 * (256 * 256)) with (2 ^ 24). change (256 * 256) with (2 ^ 16).
  assert (H8 : (v * 2 ^ 32 + w) / 256 = v * 2 ^ 24 + w / 2 ^ 8) by (apply (Hd 8); lia).
  rewrite H8, !Hd by lia. clear Hd H8.
  rewrite (Z.div_small w) by lia. change (2 ^ (32 - 32)) with 1. rewrite Z.mul_1_r, Z.add_0_r. f_equal.
  assert (Hm : forall a b, (a * 256 + b) mod 256 = b mod 256) by (intros a b; rewrite Z.add_comm; apply Z.mod_add; lia).
  change (2 ^ (32 - 24)) with 256. change (2 ^ (32 - 16)) with (256 * 256). change (2 ^ 24) with (65536 * 256) at 2.
  change (2 ^ 32) with (16777216 * 256). rewrite !Z.mul_assoc, !Hm. reflexivity.
Qed.

(** Seven words. *)
Lemma be_words w0 w1 w2 w3 w4 w5 w6 v :
  0 <= w0 < 2 ^ 32 -> 0 <= w1 < 2 ^ 32 -> 0 <= w2 < 2 ^ 32 -> 0 <= w3 < 2 ^ 32 -> 0 <= w4 < 2 ^ 32 ->
  0 <= w5 < 2 ^ 32 -> 0 <= w6 < 2 ^ 32 ->
  v = (((((w0 * 2 ^ 32 + w1) * 2 ^ 32 + w2) * 2 ^ 32 + w3) * 2 ^ 32 + w4) * 2 ^ 32 + w5) * 2 ^ 32 + w6 ->
  to_be32 w0 ++ to_be32 w1 ++ to_be32 w2 ++ to_be32 w3 ++ to_be32 w4 ++ to_be32 w5 ++ to_be32 w6 = be_bytes 28 v.
Proof.
  intros B0 B1 B2 B3 B4 B5 B6 ->. change 28%nat with (4 + (4 + (4 + (4 + (4 + (4 + (4 + 0)))))))%nat.
  rewrite (be_bytes_word (4 + (4 + (4 + (4 + (4 + (4 + 0)))))) _ w6 B6).
  rewrite (be_bytes_word (4 + (4 + (4 + (4 + (4 + 0))))) _ w5 B5).
  rewrite (be_bytes_word (4 + (4 + (4 + (4 + 0)))) _ w4 B4).
  rewrite (be_bytes_word (4 + (4 + (4 + 0))) _ w3 B3), (be_bytes_word (4 + (4 + 0)) _ w2 B2).
  rewrite (be_bytes_word (4 + 0) _ w1 B1). pose proof (be_bytes_word 0 0 w0 B0) as E.
  rewrite Z.mul_0_l, Z.add_0_l in E. rewrite E. cbn [be_bytes app]. by rewrite <- !app_assoc.
Qed.

(** ** Words from limbs, limbs from words *)
(** The [n] low bits of a limb and what is above them. *)
Lemma split_limb n a : 0 <= n <= 28 -> 0 <= a < 268435456 ->
  exists l h, a = l + h * 2 ^ n /\ 0 <= l < 2 ^ n /\ 0 <= h < 2 ^ (28 - n) /\
    a >> n = h /\ a <32 (32 - n) = l * 2 ^ (32 - n).
Proof.
  intros Hn Ha. exists (a mod 2 ^ n), (a / 2 ^ n). pose proof (pow2_pos n ltac:(lia)).
  pose proof (Z.div_mod a (2 ^ n) ltac:(lia)). pose proof (Z.mod_pos_bound a (2 ^ n) ltac:(lia)).
  assert (E28 : 268435456 = 2 ^ (28 - n) * 2 ^ n) by (rewrite <- Z.pow_add_r by lia; replace (28 - n + n) with 28 by lia; done).
  assert (E32 : 2 ^ 32 = 2 ^ n * 2 ^ (32 - n)) by (rewrite <- Z.pow_add_r by lia; f_equal; lia).
  split_and!; [lia|lia|lia|apply Z.div_pos; lia|apply Z.div_lt_upper_bound; lia|by apply Z.shiftr_div_pow2; lia|].
  unfold wrap_u. rewrite Z.shiftl_mul_pow2, E32 by lia. apply Zmult_mod_distr_r.
Qed.

Lemma word_of_limbs h l n :
  0 <= n <= 28 -> 0 <= h < 2 ^ (28 - n) -> 0 <= l * 2 ^ (28 - n) < 2 ^ 32 ->
  Z.lor h (l * 2 ^ (28 - n)) = h + l * 2 ^ (28 - n).
Proof. intros Hn Hh Hl. apply lor_disjoint; lia. Qed.

Lemma Put224Bits_bytes f : below 8 268435456 f -> Put224Bits f = be_bytes 28 (value f).
Proof.
  intros Hf. name_limbs f Hf. unfold Put224Bits. cbn [nth value].
  destruct (split_limb 4 f1 ltac:(lia) ltac:(lia)) as (l1 & h1 & E1 & L1 & U1 & R1 & S1).
  destruct (split_limb 8 f2 ltac:(lia) ltac:(lia)) as (l2 & h2 & E2 & L2 & U2 & R2 & S2).
  destruct (split_limb 12 f3 ltac:(lia) ltac:(lia)) as (l3 & h3 & E3 & L3 & U3 & R3 & S3).
  destruct (split_limb 16 f4 ltac:(lia) ltac:(lia)) as (l4 & h4 & E4 & L4 & U4 & R4 & S4).
  destruct (split_limb 20 f5 ltac:(lia) ltac:(lia)) as (l5 & h5 & E5 & L5 & U5 & R5 & S5).
  destruct (split_limb 24 f6 ltac:(lia) ltac:(lia)) as (l6 & h6 & E6 & L6 & U6 & R6 & S6).
  rewrite R1, R2, R3, R4, R5, R6. 
  change (f1 <32 28) with (f1 <32 (32 - 4)). change (f2 <32 24) with (f2 <32 (32 - 8)).
  change (f3 <32 20) with (f3 <32 (32 - 12)). change (f4 <32 16) with (f4 <32 (32 - 16)).
  change (f5 <32 12) with (f5 <32 (32 - 20)). change (f6 <32 8) with (f6 <32 (32 - 24)).
  rewrite S1, S2, S3, S4, S5, S6, Z.shiftr_0_r, (Z.shiftl_mul_pow2 f7) by lia.
  rewrite (u32_id (f7 * _)) by lia. rewrite !lor_disjoint by lia.
  rewrite E1, E2, E3, E4, E5, E6. clear E1 E2 E3 E4 E5 E6 R1 R2 R3 R4 R5 R6 S1 S2 S3 S4 S5 S6.
  apply be_words; lia.
Qed.

(** The low 28 - n bits of a word, and above them the n bits that end the next
    one. *)
Lemma limb_of_words n hi lo :
  0 <= n <= 28 -> 0 <= lo < 2 ^ 32 ->
  Z.land (Z.lor (hi <32 n) (lo >> (32 - n))) kBottom28Bits = lo / 2 ^ (32 - n) + hi mod 2 ^ (28 - n) * 2 ^ n.
Proof.
  intros Hn Hlo. rewrite land_28, Z.shiftr_div_pow2 by lia. pose proof (pow2_pos n ltac:(lia)).
  assert (E : forall k, n <= k -> (hi * 2 ^ n) mod 2 ^ k = hi mod 2 ^ (k - n) * 2 ^ n).
  { intros k Hk. replace (2 ^ k) with (2 ^ (k - n) * 2 ^ n) by (rewrite <- Z.pow_add_r by lia; f_equal; lia).
    apply Zmult_mod_distr_r. }
  assert (Hq : 0 <= lo / 2 ^ (32 - n) < 2 ^ n).
  { split; [apply Z.div_pos; lia|]. apply Z.div_lt_upper_bound; [lia|]. rewrite <- Z.pow_add_r by lia.
    replace (32 - n + n) with 32 by lia. lia. }
  unfold wrap_u. rewrite Z.shiftl_mul_pow2, E, Z.lor_comm, lor_disjoint by lia.
  pose proof (pow2_pos (28 - n) ltac:(lia)). pose proof (Z.mod_pos_bound hi (2 ^ (28 - n)) ltac:(lia)).
  assert (Hm : (hi mod 2 ^ (32 - n)) mod 2 ^ (28 - n) = hi mod 2 ^ (28 - n)).
  { apply Z.mod_mod_divide. exists (2 ^ 4). rewrite <- Z.pow_add_r by lia. f_equal. lia. }
  pose proof (Z.div_mod (hi mod 2 ^ (32 - n)) (2 ^ (28 - n)) ltac:(lia)) as Hu. rewrite Hm in Hu. rewrite Hu.
  assert (E28 : 268435456 = 2 ^ (28 - n) * 2 ^ n).
  { rewrite <- Z.pow_add_r by lia. by replace (28 - n + n) with 28 by lia. }
  rewrite E28. match goal with |- (?q + (?d * ?u + ?m) * ?w) mod _ = _ =>
    replace (q + (d * u + m) * w) with (q + m * w + u * (d * w)) by ring end.
  rewrite Z.mod_add by nia. apply Z.mod_small. nia.
Qed.

Lemma byte_list_nth bytes i : byte_list bytes -> 0 <= bytes.[i] < 256.
Proof.
  intros H. destruct (decide (i < length bytes)%nat) as [Hi|Hi].
  - unfold byte_list in H. rewrite List.Forall_forall in H. by apply H, nth_In.
  - rewrite nth_overflow by lia. lia.
Qed.

Lemma be32_word bytes i : byte_list bytes -> 0 <= be32 bytes i < 2 ^ 32.
Proof.
  intros H. unfold be32. pose proof (byte_list_nth bytes (4 * i) H). pose proof (byte_list_nth bytes (4 * i + 1) H).
  pose proof (byte_list_nth bytes (4 * i + 2) H). pose proof (byte_list_nth bytes (4 * i + 3) H). lia.
Qed.

Definition words_value (bytes : list Z) : Z :=
  let w := be32 bytes in
  (((((w 0%nat * 2 ^ 32 + w 1%nat) * 2 ^ 32 + w 2%nat) * 2 ^ 32 + w 3%nat) * 2 ^ 32 + w 4%nat) * 2 ^ 32 + w 5%nat) * 2 ^ 32 + w 6%nat.

Lemma split_word k w :
  0 <= k <= 32 -> 0 <= w < 2 ^ 32 ->
  exists q r, w / 2 ^ k = q /\ w mod 2 ^ k = r /\ w = 2 ^ k * q + r /\ 0 <= r < 2 ^ k /\ 0 <= q < 2 ^ (32 - k).
Proof.
  intros Hk Hw. pose proof (pow2_pos k ltac:(lia)). exists (w / 2 ^ k), (w mod 2 ^ k).
  refine (conj eq_refl (conj eq_refl (conj _ (conj _ (conj _ _))))).
  - apply Z.div_mod. lia.
  - apply Z.mod_pos_bound. lia.
  - apply Z.div_pos; lia.
  - apply Z.div_lt_upper_bound; [lia|]. rewrite <- Z.pow_add_r by lia. replace (k + (32 - k)) with 32 by lia. lia.
Qed.

Lemma Get224Bits_value bytes :
  byte_list bytes -> below 8 268435456 (Get224Bits bytes) /\ value (Get224Bits bytes) = words_value bytes.
Proof.
  intros Hb. unfold Get224Bits, words_value. cbv zeta.
  pose proof (be32_word bytes 0 Hb) as B0. pose proof (be32_word bytes 1 Hb) as B1. pose proof (be32_word bytes 2 Hb) as B2.
  pose proof (be32_word bytes 3 Hb) as B3. pose proof (be32_word bytes 4 Hb) as B4. pose proof (be32_word bytes 5 Hb) as B5.
  pose proof (be32_word bytes 6 Hb) as B6.
  generalize dependent (be32 bytes 0). intros w0 B0. generalize dependent (be32 bytes 1). intros w1 B1.
  generalize dependent (be32 bytes 2). intros w2 B2. generalize dependent (be32 bytes 3). intros w3 B3.
  generalize dependent (be32 bytes 4). intros w4 B4. generalize dependent (be32 bytes 5). intros w5 B5.
  generalize dependent (be32 bytes 6). intros w6 B6.
  change (w6 >> 28) with (w6 >> (32 - 4)). change (w5 >> 24) with (w5 >> (32 - 8)). change (w4 >> 20) with (w4 >> (32 - 12)).
  change (w3 >> 16) with (w3 >> (32 - 16)). change (w2 >> 12) with (w2 >> (32 - 20)). change (w1 >> 8) with (w1 >> (32 - 24)).
  rewrite !limb_of_words, !land_28, Z.shiftr_div_pow2 by lia.
  assert (H0 : 0 <= w0 / 2 ^ 4 < 268435456) by (split; [apply Z.div_pos|apply Z.div_lt_upper_bound]; lia).
  rewrite (Z.mod_small (w0 / 2 ^ 4)) by exact H0.
  change 268435456 with (2 ^ 28) in *. clear H0.
  change (28 - 4) with 24. change (28 - 8) with 20. change (28 - 12) with 16. change (28 - 16) with 12.
  change (28 - 20) with 8. change (28 - 24) with 4. change (32 - 4) with 28. change (32 - 8) with 24.
  change (32 - 12) with 20. change (32 - 16) with 16. change (32 - 20) with 12. change (32 - 24) with 8.
  destruct (split_word 4 w0 ltac:(lia) B0) as (q0 & r0 & -> & -> & -> & R0 & Q0).
  destruct (split_word 8 w1 ltac:(lia) B1) as (q1 & r1 & -> & -> & -> & R1 & Q1).
  destruct (split_word 12 w2 ltac:(lia) B2) as (q2 & r2 & -> & -> & -> & R2 & Q2).
  destruct (split_word 16 w3 ltac:(lia) B3) as (q3 & r3 & -> & -> & -> & R3 & Q3).
  destruct (split_word 20 w4 ltac:(lia) B4) as (q4 & r4 & -> & -> & -> & R4 & Q4).
  destruct (split_word 24 w5 ltac:(lia) B5) as (q5 & r5 & -> & -> & -> & R5 & Q5).
  destruct (split_word 28 w6 ltac:(lia) B6) as (q6 & r6 & -> & -> & -> & R6 & Q6).
  split; [apply below_8; lia|]. cbn [value]. ring.
Qed.

(** ** Bytes and elements *)
Lemma be32_to_be32 w : 0 <= w < 2 ^ 32 ->
  (w / 2 ^ 24) mod 256 * 2 ^ 24 + (w / 2 ^ 16) mod 256 * 2 ^ 16 + (w / 2 ^ 8) mod 256 * 2 ^ 8 + w mod 256 = w.
Proof. intros Hw. change (2 ^ 24) with 16777216. change (2 ^ 16) with 65536. change (2 ^ 8) with 256. Z.to_euclidean_division_equations. lia. Qed.

Lemma words_value_words w0 w1 w2 w3 w4 w5 w6 rest :
  0 <= w0 < 2 ^ 32 -> 0 <= w1 < 2 ^ 32 -> 0 <= w2 < 2 ^ 32 -> 0 <= w3 < 2 ^ 32 -> 0 <= w4 < 2 ^ 32 ->
  0 <= w5 < 2 ^ 32 -> 0 <= w6 < 2 ^ 32 ->
  words_value (to_be32 w0 ++ to_be32 w1 ++ to_be32 w2 ++ to_be32 w3 ++ to_be32 w4 ++ to_be32 w5 ++ to_be32 w6 ++ rest) =
  (((((w0 * 2 ^ 32 + w1) * 2 ^ 32 + w2) * 2 ^ 32 + w3) * 2 ^ 32 + w4) * 2 ^ 32 + w5) * 2 ^ 32 + w6.
Proof.
  intros B0 B1 B2 B3 B4 B5 B6. unfold words_value, be32, to_be32. cbn [app nth Nat.mul Nat.add].
  by rewrite !be32_to_be32.
Qed.

(** The words of a number of 224 bits. *)
Lemma number_words v : 0 <= v < 2 ^ 224 ->
  exists w0 w1 w2 w3 w4 w5 w6,
    0 <= w0 < 2 ^ 32 /\ 0 <= w1 < 2 ^ 32 /\ 0 <= w2 < 2 ^ 32 /\ 0 <= w3 < 2 ^ 32 /\ 0 <= w4 < 2 ^ 32 /\
    0 <= w5 < 2 ^ 32 /\ 0 <= w6 < 2 ^ 32 /\
    v = (((((w0 * 2 ^ 32 + w1) * 2 ^ 32 + w2) * 2 ^ 32 + w3) * 2 ^ 32 + w4) * 2 ^ 32 + w5) * 2 ^ 32 + w6.
Proof.
  intros Hv.
  assert (D : forall k u, 0 <= k -> 0 <= u < 2 ^ (k + 32) -> exists q r, u = q * 2 ^ 32 + r /\ 0 <= r < 2 ^ 32 /\ 0 <= q < 2 ^ k).
  { intros k u Hk Hu. exists (u / 2 ^ 32), (u mod 2 ^ 32). rewrite Z.pow_add_r in Hu by lia.
    pose proof (Z.div_mod u (2 ^ 32) ltac:(lia)). pose proof (Z.mod_pos_bound u (2 ^ 32) ltac:(lia)).
    split; [lia|]. split; [lia|]. split; [apply Z.div_pos; lia|apply Z.div_lt_upper_bound; lia]. }
  destruct (D 192 v ltac:(lia) Hv) as (v5 & w6 & -> & B6 & V5). destruct (D 160 v5 ltac:(lia) V5) as (v4 & w5 & -> & B5 & V4).
  destruct (D 128 v4 ltac:(lia) V4) as (v3 & w4 & -> & B4 & V3). destruct (D 96 v3 ltac:(lia) V3) as (v2 & w3 & -> & B3 & V2).
  destruct (D 64 v2 ltac:(lia) V2) as (v1 & w2 & -> & B2 & V1). destruct (D 32 v1 ltac:(lia) V1) as (w0 & w1 & -> & B1 & V0).
  by exists w0, w1, w2, w3, w4, w5, w6.
Qed.

Lemma Get224Bits_be_bytes v rest :
  0 <= v < 2 ^ 224 -> byte_list rest ->
  below 8 268435456 (Get224Bits (be_bytes 28 v ++ rest)) /\ value (Get224Bits (be_bytes 28 v ++ rest)) = v.
Proof.
  intros Hv Hrest.
  destruct (Get224Bits_value (be_bytes 28 v ++ rest)) as [Hb Hval]; [apply Forall_app; split; [apply be_bytes_byte|done]|].
  split; [exact Hb|]. rewrite Hval. clear Hb Hval.
  destruct (number_words v Hv) as (w0 & w1 & w2 & w3 & w4 & w5 & w6 & B0 & B1 & B2 & B3 & B4 & B5 & B6 & E).
  rewrite <- (be_words w0 w1 w2 w3 w4 w5 w6 v) by done. rewrite <- !app_assoc, words_value_words by done. by rewrite E.
Qed.

(** ** Points as text *)
Definition text_of (x y : Z) : list Z := be_bytes 28 x ++ be_bytes 28 y.

Lemma Contract_bytes v f :
  holds v f -> v mod p224 = v -> contractible v -> Put224Bits (Contract f) = be_bytes 28 v.
Proof.
  intros [Hf Hfv] Hv Hc. apply eqm_mod in Hfv. rewrite Hv in Hfv.
  destruct (Contract_minimal f) as [Hb He]; [by apply below_le with 536870911|by rewrite Hfv|].
  by rewrite (Put224Bits_bytes _ Hb), He, Hfv.
Qed.

Lemma ToString_text P xa ya :
  wf P -> affine P = Some (xa, ya) -> contractible xa -> contractible ya -> ToString P = text_of xa ya.
Proof.
  intros HP Haff Hxa Hya. destruct (affine_by_Invert P xa ya HP Haff) as (Hx & Hy & Tz & Hrx & Hry).
  unfold ToString. rewrite Tz. cbv zeta.
  rewrite (Contract_bytes xa _ Hx Hrx Hxa), (Contract_bytes ya _ Hy Hry Hya). reflexivity.
Qed.

Lemma ToString_infinity P : wf P -> affine P = None -> ToString P = repeat 0 56.
Proof.
  intros (Hx & Hy & Hz) Haff. destruct (truth_IsZero _ _ (holds_value _ Hz)) as [Tz _]. unfold ToString. rewrite Tz.
  unfold affine in Haff. destruct (decide (value (z P) ≡p 0)) as [H|]; [|done]. by rewrite (bool_decide_eq_true_2 _ H).
Qed.

(** The number of the curve's equation. *)
Definition curve_b : Z := value kB.

Definition on_curve (x y : Z) : Prop := y * y ≡p x * (x * x) - 3 * x + curve_b.

Lemma holds_times_3 v f :
  below 8 268435456 f -> value f ≡p v -> holds (3 * v) (Reduce (limbs (fun i => u32 (f.[i] * 3)))).
Proof.
  intros Hf Hv. apply holds_eqm with (3 * value f); [|by rewrite Hv]. clear Hv.
  name_limbs f Hf. unfold limbs. cbn [map seq nth]. no_wrap.
  apply holds_Reduce; [apply below_8; lia|]. cbn [value]. apply eqm_of_eq. ring.
Qed.

(** A limb from which more is taken than it has is no limb of 28 bits. *)
Lemma limb_left c k m : 0 <= c < 268435456 -> 0 <= k < 268435456 -> u32 (c - k) = m -> 0 <= m < 268435456 -> m = c - k.
Proof.
  intros Hc Hk E Hm. unfold wrap_u in E. change (2 ^ 32) with 4294967296 in E.
  pose proof (Z.div_mod (c - k) 4294967296 ltac:(lia)). lia.
Qed.

Lemma limb_same c d k : 0 <= c < 268435456 -> 0 <= d < 268435456 -> u32 (c - k) = u32 (d - k) -> c = d.
Proof.
  intros Hc Hd E. unfold wrap_u in E. change (2 ^ 32) with 4294967296 in E.
  pose proof (Z.div_mod (c - k) 4294967296 ltac:(lia)). pose proof (Z.div_mod (d - k) 4294967296 ltac:(lia)). lia.
Qed.

(** What Contract makes of limbs, the prime taken away or not. *)
Lemma Contract_takes a :
  below 8 4294967281 a ->
  let c := carried a in
  Contract a = c \/
  Contract a = [u32 (c.[0] - 1); c.[1]; c.[2]; u32 (c.[3] - 268431360);
       u32 (c.[4] - 268435455); u32 (c.[5] - 268435455); u32 (c.[6] - 268435455); u32 (c.[7] - 268435455)].
Proof.
  intros Ha. destruct (Contract_subtracts a Ha) as (mask & _ & _ & ->). cbv zeta. destruct (mask =? 0); [by left|by right].
Qed.

(** One took the prime away, the other not: the limbs are the same only where
    there was enough to take it from. *)
Lemma limbs_left c c' :
  below 8 268435456 c -> below 8 268435456 c' ->
  c = [u32 (c'.[0] - 1); c'.[1]; c'.[2]; u32 (c'.[3] - 268431360);
       u32 (c'.[4] - 268435455); u32 (c'.[5] - 268435455); u32 (c'.[6] - 268435455); u32 (c'.[7] - 268435455)] ->
  value c ≡p value c'.
Proof.
  intros Hc Hc' E. exists (-1). revert E. name_limbs c Hc. name_limbs c' Hc'. cbn [nth]. intros E. injection E; intros.
  repeat match goal with H : _ = u32 (_ - _) |- _ => symmetry in H; apply limb_left in H; [|lia..] end.
  cbn [value]. unfold p224. lia.
Qed.

(** Elements that are the same once they are contracted are the same. *)
Lemma Contract_injective a b :
  below 8 4294967281 a -> below 8 4294967281 b -> Contract a = Contract b -> value a ≡p value b.
Proof.
  intros Ha Hb E. destruct (carried_spec a Ha) as [Hca Va]. destruct (carried_spec b Hb) as [Hcb Vb]. rewrite <- Va, <- Vb.
  destruct (Contract_takes a Ha) as [Ea|Ea], (Contract_takes b Hb) as [Eb|Eb]; cbv zeta in Ea, Eb; rewrite Ea, Eb in E.
  - rewrite E. apply eqm_of_eq, eq_refl.
  - apply limbs_left; assumption.
  - symmetry. apply limbs_left; [assumption|assumption|symmetry; assumption].
  - assert (carried a = carried b) as ->; [|apply eqm_of_eq, eq_refl]. clear -Hca Hcb E.
    set (c := carried a) in *. set (d := carried b) in *. clearbody c d. revert E. name_limbs c Hca. name_limbs d Hcb. cbn [nth].
    intros E. injection E; intros.
    repeat match goal with H : u32 (_ - _) = u32 (_ - _) |- _ => apply limb_same in H; [|lia..] end. by subst.
Qed.

Lemma SetFromString_text xa ya :
  0 <= xa < 2 ^ 224 -> 0 <= ya < 2 ^ 224 ->
  exists P ok, SetFromString (text_of xa ya) = Some (P, ok) /\ wf P /\ affine P = affine_point xa ya /\
    (ok = true -> on_curve xa ya) /\ (on_curve xa ya -> contractible ((ya * ya) mod p224) -> ok = true).
Proof.
  intros Hxa Hya. unfold SetFromString, text_of. rewrite length_app, !length_be_bytes. cbn [Nat.eqb Nat.add negb Nat.mul].
  cbv zeta. rewrite drop_app_length' by (symmetry; apply length_be_bytes).
  destruct (Get224Bits_be_bytes xa (be_bytes 28 ya) Hxa (be_bytes_byte 28 ya)) as [Bx Vx].
  destruct (Get224Bits_be_bytes ya [] Hya) as [By Vy]; [constructor|]. rewrite app_nil_r in By, Vy.
  set (fx := Get224Bits (be_bytes 28 xa ++ be_bytes 28 ya)) in *. set (fy := Get224Bits (be_bytes 28 ya)) in *.
  clearbody fx fy. do 2 eexists. split; [reflexivity|].
  assert (Hfx : holds xa fx) by (split; [by apply below_le with 268435456|by rewrite Vx]).
  assert (Hfy : holds ya fy) by (split; [by apply below_le with 268435456|by rewrite Vy]).
  refine (conj _ (conj _ _)).
  - split_and!; [apply Hfx|apply Hfy|apply below_8; lia].
  - apply affine_finite with 1; cbn [x y z]; [reflexivity|intros H; apply eqm_mod in H; discriminate H|..].
    + rewrite (proj2 Hfx). apply eqm_of_eq. ring.
    + rewrite (proj2 Hfy). apply eqm_of_eq. ring.
  - assert (Hlhs : holds (ya * ya) (Square fy)) by holding.
    assert (H3 : holds (3 * xa) (Reduce (limbs (fun i => u32 (fx.[i] * 3))))) by (apply holds_times_3; [done|by rewrite Vx]).
    set (tx := Reduce (limbs (fun i => u32 (fx.[i] * 3)))) in *. clearbody tx.
    assert (Hrhs : holds (xa * (xa * xa) - 3 * xa) (Reduce (Subtract (Mul fx (Square fx)) tx))) by holding.
    set (r := Reduce (Subtract (Mul fx (Square fx)) tx)) in *. set (l := Square fy) in *. clearbody r l.
    destruct (Add_spec 536870911 268435456 r kB (proj1 Hrhs)) as [Hs Hsv]; [apply below_8; lia|done|].
    assert (Hv : value (Add r kB) ≡p xa * (xa * xa) - 3 * xa + curve_b) by (rewrite Hsv, (proj2 Hrhs); reflexivity).
    pose proof (proj2 Hlhs) as Hlv.
    assert (Bl : below 8 4294967281 l) by (by apply (below_le _ _ _ _ (proj1 Hlhs))).
    assert (Br : below 8 4294967281 (Add r kB)) by (by apply (below_le _ _ _ _ Hs)).
    unfold same_element, on_curve. rewrite bool_decide_eq_true. split.
    + intros E. apply (Contract_injective _ _ Bl Br) in E. by rewrite <- Hlv, E.
    + intros Hon Hc. apply eqm_mod in Hv, Hlv, Hon.
      destruct (Contract_minimal l Bl) as [Cl El]; [by rewrite Hlv|].
      destruct (Contract_minimal (Add r kB) Br) as [Cr Er]; [by rewrite Hv, <- Hon|].
      apply (value_inj 8); [exact Cl|exact Cr|]. by rewrite El, Er, Hv, <- Hon.
Qed.

(** ** The property of the text *)

(** C36. A point survives its textual form: of every point that is not at
    infinity and whose coordinates are not within 2^112 of the prime or below
    2^96, ToString writes the 28 big-endian bytes of each affine coordinate,
    and SetFromString reads from them a point with the same coordinates. Its
    answer is yes only if they satisfy y^2 = x^3 - 3x + b, and it is yes for
    those that do, unless y^2 (which is then the other side as well) is modulo
    the prime within 2^112 of it or below 2^96: there Contract may leave the two
    sides with different limbs. The point at infinity is written as 56 zeros,
    and a text of another length is refused. *)
Theorem point_text_roundtrip P :
  wf P ->
  (affine P = None -> ToString P = repeat 0 56) /\
  (forall xa ya, affine P = Some (xa, ya) -> contractible xa -> contractible ya ->
   ToString P = text_of xa ya /\
   exists Q ok, SetFromString (ToString P) = Some (Q, ok) /\ wf Q /\ affine Q = affine P /\
     (ok = true -> on_curve xa ya) /\ (on_curve xa ya -> contractible ((ya * ya) mod p224) -> ok = true)) /\
  (forall text, length text <> 56%nat -> SetFromString text = None).
Proof.
  intros HP. refine (conj (ToString_infinity P HP) (conj _ _)).
  - intros xa ya Haff Hxa Hya. pose proof (ToString_text P xa ya HP Haff Hxa Hya) as E. split; [exact E|].
    destruct (affine_by_Invert P xa ya HP Haff) as (_ & _ & _ & Hrx & Hry). rewrite E, Haff.
    destruct (SetFromString_text xa ya) as (Q & ok & EQ & HQ & Haff' & Hok); [unfold contractible in Hxa; lia|unfold contractible in Hya; lia|].
    exists Q, ok. refine (conj EQ (conj HQ (conj _ Hok))). rewrite Haff'. unfold affine_point. by rewrite Hrx, Hry.
  - intros text Hl. unfold SetFromString. change (2 * 28)%nat with 56%nat. by rewrite (proj2 (Nat.eqb_neq (length text) 56) Hl).
Qed.

Lemma point_text_roundtrip_witness :
  exists Q, SetFromString (ToString kBasePoint) = Some (Q, true) /\ affine Q = affine kBasePoint.
Proof.
  destruct (point_text_roundtrip kBasePoint base_point_wf) as (_ & H & _).
  destruct (affine kBasePoint) as [[xa ya]|] eqn:E; [|vm_compute in E; discriminate].
  assert (Hxy : xa = 19277929113566293071110308034699488026831934219452440156649784352033 /\
    ya = 19926808758034470970197974370888749184205991990603949537637343198772).
  { vm_compute in E. injection E as <- <-. by split. }
  destruct Hxy as [-> ->].
  destruct (H _ _ eq_refl) as (_ & Q & ok & HQ & _ & Haff & Hok); [split; vm_compute; done..|].
  exists Q. split; [|exact Haff]. rewrite HQ. do 2 f_equal. apply Hok; [|split; vm_compute; done].
  apply eqm_mod. vm_compute. reflexivity.
Defined.
