(* ===== verification/PriorityQueue.v ===== *)
(** The priority queue of net/base/priority_queue.h, in the build with checks:
    a list for each priority, and pointers to the elements that stay valid
    while other elements come and go.

    An element of a [std::list] is a node that keeps its place in memory, and
    an iterator is the node it is at. The model numbers the nodes in the order
    they are made, and never gives a number twice; the ids that the queue hands
    out itself are 32 bits wide and do come again. *)
From stdpp Require Import gmap sets.
From S2P Require Import Prelude.

Section PriorityQueue.
Context {T : Type}.

(** A node of a list with the pair it holds. *)
Record Node := mkNode { node : Z; id : Z; value : T }.

(* src: net/base/priority_queue.h 35-39! List *)
Definition List : Type := list Node.

(* src: net/base/priority_queue.h 46-117! Pointer *)
Record Pointer := mkPointer { priority_ : Z; iterator_ : Z; id_ : Z }.

(* src: net/base/priority_queue.h 99-99! kNullPriority *)
Definition kNullPriority : Z := 4294967295.

(** The iterator of a null pointer is at no node. *)
(* src: net/base/priority_queue.h 49-53! Pointer *)
Definition null : Pointer := mkPointer kNullPriority (-1) 4294967295.

(* src: net/base/priority_queue.h 71-71! is_null *)
Definition is_null (p : Pointer) : bool := priority_ p =? kNullPriority.

(* src: net/base/priority_queue.h 103-108! Pointer *)
Definition new_Pointer (priority : Z) (it : Node) : Pointer := mkPointer priority (node it) (id it).

(** [nodes] is the number of nodes made so far, of this queue. *)
(* src: net/base/priority_queue.h 285-293! PriorityQueue *)
Record PriorityQueue := mkPriorityQueue {
  next_id_ : Z;
  valid_ids_ : gset Z;
  lists_ : list List;
  size_ : Z;
  nodes : Z
}.

#[export] Instance eta_PriorityQueue : Eta PriorityQueue := fun q =>
  mkPriorityQueue (next_id_ q) (valid_ids_ q) (lists_ q) (size_ q) (nodes q).

(* src: net/base/priority_queue.h 120-125! PriorityQueue *)
Definition new_PriorityQueue (num_priorities : Z) : PriorityQueue :=
  mkPriorityQueue 0 ∅ (replicate (Z.to_nat num_priorities) []) 0 0.

(* src: net/base/priority_queue.h 268-271! num_priorities *)
Definition num_priorities (q : PriorityQueue) : Z := zlen (lists_ q).

(** [lists_[priority]], which the checks keep in range. *)
Definition list_at (q : PriorityQueue) (priority : Z) : List := default [] (lists_ q !! Z.to_nat priority).
Definition set_list (priority : Z) (l : List) (q : PriorityQueue) : PriorityQueue :=
  q <| lists_ := <[Z.to_nat priority := l]> (lists_ q) |>.

(** What the two ways to insert share; [place] puts the node into the list. *)
(* src: net/base/priority_queue.h 129-143! Insert *)
Definition insert_with (place : Node -> List -> List) (value : T) (priority : Z) (q : PriorityQueue) :
    option (Pointer * PriorityQueue) :=
  DCHECK (priority <? num_priorities q) ;;
  let q := q <| size_ := u64 (size_ q + 1) |> in
  let id := next_id_ q in
  let q := q <| valid_ids_ := {[id]} ∪ valid_ids_ q |> in
  let q := q <| next_id_ := u32 (next_id_ q + 1) |> in
  let it := mkNode (nodes q) id value in
  let q := q <| nodes := nodes q + 1 |> in
  Some (new_Pointer priority it, set_list priority (place it (list_at q priority)) q).

(* src: net/base/priority_queue.h 129-143! Insert *)
Definition Insert : T -> Z -> PriorityQueue -> option (Pointer * PriorityQueue) :=
  insert_with (fun it l => l ++ [it]).

(* src: net/base/priority_queue.h 147-161! InsertAtFront *)
Definition InsertAtFront : T -> Z -> PriorityQueue -> option (Pointer * PriorityQueue) :=
  insert_with (fun it l => it :: l).

(** [std::list::erase]; [None] for an iterator that is not in the list. *)
Fixpoint erase_node (n : Z) (l : List) : option List :=
  match l with
  | [] => None
  | it :: l => if node it =? n then Some l else it' ← erase_node n l; Some (it :: it')
  end.

(** The node an iterator is at. *)
Fixpoint find_node (n : Z) (l : List) : option Node :=
  match l with
  | [] => None
  | it :: l => if node it =? n then Some it else find_node n l
  end.

(* src: net/base/priority_queue.h 165-177! Erase *)
Definition Erase (pointer : Pointer) (q : PriorityQueue) : option PriorityQueue :=
  DCHECK (priority_ pointer <? num_priorities q) ;;
  DCHECK (0 <? size_ q) ;;
  DCHECK (bool_decide (id_ pointer ∈ valid_ids_ q)) ;;
  let q := q <| valid_ids_ := valid_ids_ q ∖ {[id_ pointer]} |> in
  it ← find_node (iterator_ pointer) (list_at q (priority_ pointer));
  DCHECK (id it =? id_ pointer) ;;
  let q := q <| size_ := u64 (size_ q - 1) |> in
  l ← erase_node (iterator_ pointer) (list_at q (priority_ pointer));
  Some (set_list (priority_ pointer) l q).

(** [pointer.value()] *)
(* src: net/base/priority_queue.h 75-79! value *)
Definition value_of (pointer : Pointer) (q : PriorityQueue) : option T :=
  it ← find_node (iterator_ pointer) (list_at q (priority_ pointer));
  Some (value it).

(** The loops that return at the first list that is not empty: [side] is the
    node to return of it. *)
Fixpoint search (side : List -> option Node) (q : PriorityQueue) (indices : list Z) : Pointer :=
  match indices with
  | [] => null
  | i :: indices =>
      match side (list_at q i) with Some it => new_Pointer i it | None => search side q indices end
  end.

(** [0, 1, ...] *)
Definition upward (q : PriorityQueue) : list Z := map Z.of_nat (seq 0 (length (lists_ q))).

(* src: net/base/priority_queue.h 181-189! FirstMin *)
Definition FirstMin (q : PriorityQueue) : Pointer := search head q (upward q).
(* src: net/base/priority_queue.h 193-201! LastMin *)
Definition LastMin (q : PriorityQueue) : Pointer := search last q (upward q).
(* src: net/base/priority_queue.h 205-214! FirstMax *)
Definition FirstMax (q : PriorityQueue) : Pointer := search head q (rev (upward q)).
(* src: net/base/priority_queue.h 218-227! LastMax *)
Definition LastMax (q : PriorityQueue) : Pointer := search last q (rev (upward q)).

(** What is behind a node in its list; [None] for an iterator at no node. *)
Fixpoint behind (n : Z) (l : List) : option List :=
  match l with
  | [] => None
  | it :: l => if node it =? n then Some l else behind n l
  end.

(** The loop over the lower priorities; [rest] starts at the iterator. *)
Fixpoint next_lower (q : PriorityQueue) (priority : nat) (rest : List) : Pointer :=
  match rest with
  | it :: _ => new_Pointer (Z.of_nat priority) it
  | [] =>
      match priority with
      | O => null
      | S priority => next_lower q priority (list_at q (Z.of_nat priority))
      end
  end.

(* src: net/base/priority_queue.h 237-253! GetNextTowardsLastMin *)
Definition GetNextTowardsLastMin (pointer : Pointer) (q : PriorityQueue) : option Pointer :=
  DCHECK (negb (is_null pointer)) ;;
  DCHECK (priority_ pointer <? num_priorities q) ;;
  rest ← behind (iterator_ pointer) (list_at q (priority_ pointer));
  Some (next_lower q (Z.to_nat (priority_ pointer)) rest).

(* src: net/base/priority_queue.h 256-265! Clear *)
Definition Clear (q : PriorityQueue) : PriorityQueue :=
  q <| lists_ := map (fun _ => []) (lists_ q) |> <| valid_ids_ := ∅ |> <| size_ := 0 |>.

(* src: net/base/priority_queue.h 273-276! empty *)
Definition empty (q : PriorityQueue) : bool := size_ q =? 0.

End PriorityQueue.
Arguments Node : clear implicits.
Arguments PriorityQueue : clear implicits.
