(* ===== verification/PriorityQueueProperties.v ===== *)
(** What the priority queue of net/base/priority_queue.h promises: it is a
    list, by decreasing priority and first in first out inside a priority. *)
From stdpp Require Import gmap sets.
From S2P Require Import Prelude PriorityQueue.

Section properties.
Context {T : Type}.
Implicit Types (q : PriorityQueue T) (it : Node T) (l : List (T := T)).

(** ** The order of the queue *)
Abbreviation entry := (Z * Node T)%type.

(** The elements of some lists, with their priorities. *)
Definition entries q (indices : list Z) : list entry := concat (map (fun i => map (pair i) (list_at q i)) indices).

Definition ordered q : list entry := entries q (rev (upward q)).

Definition pointer_to (e : option entry) : Pointer :=
  match e with Some (p, it) => new_Pointer p it | None => null end.

(** What follows the elements of a priority not below, and what precedes. *)
Definition at_least (p : Z) (l : list entry) : list entry := filter (fun e => p <= e.1) l.
Definition less_than (p : Z) (l : list entry) : list entry := filter (fun e => e.1 < p) l.

Definition more_than (p : Z) (l : list entry) : list entry := filter (fun e => p < e.1) l.
Definition at_most (p : Z) (l : list entry) : list entry := filter (fun e => e.1 <= p) l.

(** The elements of the lowest priority, and those of the highest. *)
Definition lowest (l : list entry) : list entry :=
  match last l with Some e => filter (fun e' => e'.1 = e.1) l | None => [] end.
Definition highest (l : list entry) : list entry :=
  match head l with Some e => filter (fun e' => e'.1 = e.1) l | None => [] end.

(** The nodes are numbered as they are made, the ids are those numbers while
    there were fewer than 2^32, and the size counts the elements. *)
Record wf q : Prop := {
  wf_lists : num_priorities q <= kNullPriority;
  wf_nodes : 0 <= nodes q <= 4294967296;
  wf_next : next_id_ q = u32 (nodes q);
  wf_id : forall p it, (p, it) ∈ ordered q -> 0 <= node it < nodes q /\ id it = node it;
  wf_NoDup : NoDup (map (fun e : entry => node e.2) (ordered q));
  wf_valid : forall i, i ∈ valid_ids_ q <-> exists p it, (p, it) ∈ ordered q /\ id it = i;
  wf_size : size_ q = Z.of_nat (length (ordered q));
  wf_bound : Z.of_nat (length (ordered q)) <= nodes q
}.

(** ** One list among the others *)
Lemma list_at_set p l q i :
  0 <= p < num_priorities q -> 0 <= i -> list_at (set_list p l q) i = if decide (i = p) then l else list_at q i.
Proof.
  intros Hp Hi. unfold list_at, set_list. cbn. unfold num_priorities, zlen in Hp. unfold List in *. case_decide as E.
  - subst. by rewrite list_lookup_insert_eq by lia.
  - by rewrite list_lookup_insert_ne by lia.
Qed.

Lemma num_priorities_set p l q : num_priorities (set_list p l q) = num_priorities q.
Proof. unfold num_priorities, zlen, set_list. cbn. by rewrite length_insert. Qed.

Lemma entries_set p l q indices :
  0 <= p < num_priorities q -> Forall (fun i => 0 <= i /\ i <> p) indices -> entries (set_list p l q) indices = entries q indices.
Proof.
  intros Hp H. unfold entries. f_equal. apply map_ext_in. intros i Hi. rewrite List.Forall_forall in H.
  destruct (H i Hi). rewrite list_at_set by done. by rewrite decide_False.
Qed.

Lemma entries_app q is1 is2 : entries q (is1 ++ is2) = entries q is1 ++ entries q is2.
Proof. unfold entries. by rewrite map_app, concat_app. Qed.

Lemma entries_elem q ixs p it : (p, it) ∈ entries q ixs <-> p ∈ ixs /\ it ∈ list_at q p.
Proof.
  unfold entries. rewrite list_elem_of_In, in_concat. split.
  - intros (x & Hx & Hin). apply in_map_iff in Hx as (i & <- & Hi). apply in_map_iff in Hin as (it' & [= -> ->] & Hit).
    by rewrite !list_elem_of_In.
  - rewrite !list_elem_of_In. intros [Hp Hit]. exists (map (pair p) (list_at q p)). split; [by apply (in_map (fun i => map (pair i) (list_at q i)))|by apply in_map].
Qed.

Lemma upward_elem q i : i ∈ rev (upward q) <-> 0 <= i < num_priorities q.
Proof.
  rewrite list_elem_of_In, <- in_rev. unfold upward, num_priorities, zlen. rewrite in_map_iff. split.
  - intros (k & <- & Hk). apply in_seq in Hk. lia.
  - intros Hi. exists (Z.to_nat i). split; [lia|]. apply in_seq. lia.
Qed.

(** The list of a priority lies between the higher and the lower ones, which a
    change of it leaves alone. *)
Lemma ordered_split q p :
  0 <= p < num_priorities q ->
  exists hi lo, Forall (fun e : entry => p < e.1) hi /\ Forall (fun e : entry => e.1 < p) lo /\
    (forall l, ordered (set_list p l q) = hi ++ map (pair p) l ++ lo) /\
    ordered q = hi ++ map (pair p) (list_at q p) ++ lo /\
    lo = entries q (rev (map Z.of_nat (seq 0 (Z.to_nat p)))).
Proof.
  intros Hp. pose (n := length (lists_ q)). pose (k := Z.to_nat p).
  assert (Hk : (k < n)%nat) by (subst k n; unfold num_priorities, zlen in Hp; lia).
  pose (up := map Z.of_nat (seq (k + 1) (n - k - 1))). pose (down := map Z.of_nat (seq 0 k)).
  assert (E : rev (upward q) = rev up ++ p :: rev down).
  { unfold upward. replace (length (lists_ q)) with (k + (1 + (n - k - 1)))%nat by (subst n; lia).
    rewrite !seq_app, !map_app, !rev_app_distr. cbn [seq map rev app Nat.add].
    replace (Z.of_nat k) with p by (subst k; lia). rewrite <- app_assoc. reflexivity. }
  assert (Hup : Forall (fun i => p < i) (rev up)).
  { apply List.Forall_forall. intros i Hi. rewrite <- in_rev in Hi. apply in_map_iff in Hi as (j & <- & Hj). apply in_seq in Hj. lia. }
  assert (Hdown : Forall (fun i => 0 <= i < p) (rev down)).
  { apply List.Forall_forall. intros i Hi. rewrite <- in_rev in Hi. apply in_map_iff in Hi as (j & <- & Hj). apply in_seq in Hj. lia. }
  exists (entries q (rev up)), (entries q (rev down)). split_and!.
  - apply Forall_forall. intros [i it] Hi. apply entries_elem in Hi as [Hi _]. rewrite Forall_forall in Hup. by apply Hup.
  - apply Forall_forall. intros [i it] Hi. apply entries_elem in Hi as [Hi _]. rewrite Forall_forall in Hdown. by apply Hdown.
  - intros l. unfold ordered. replace (upward (set_list p l q)) with (upward q) by (unfold upward, set_list; cbn; by rewrite length_insert).
    rewrite E, entries_app. cbn [entries]. change (p :: rev down) with ([p] ++ rev down). rewrite entries_app.
    rewrite (entries_set p l q (rev up)) by (done || (eapply Forall_impl; [exact Hup|]; cbn; lia)).
    rewrite (entries_set p l q (rev down)) by (done || (eapply Forall_impl; [exact Hdown|]; cbn; lia)).
    f_equal. f_equal. unfold entries. cbn. rewrite app_nil_r, list_at_set by lia. by rewrite decide_True.
  - unfold ordered. rewrite E, entries_app. change (p :: rev down) with ([p] ++ rev down). rewrite entries_app.
    f_equal. f_equal. unfold entries. cbn. by rewrite app_nil_r.
  - done.
Qed.

(** ** Lists of entries *)
Lemma filter_keep {A} (P : A -> Prop) `{forall x, Decision (P x)} (l : list A) : Forall P l -> filter P l = l.
Proof. induction 1 as [|x l Hx Hl IH]; [done|]. by rewrite filter_cons_True, IH. Qed.

Lemma filter_drop {A} (P : A -> Prop) `{forall x, Decision (P x)} (l : list A) : Forall (fun x => ~ P x) l -> filter P l = [].
Proof. induction 1 as [|x l Hx Hl IH]; [done|]. by rewrite filter_cons_False, IH. Qed.

Lemma Forall_prio p (P : Z -> Prop) l : P p -> Forall (fun e : entry => P e.1) (map (pair p) l).
Proof. intros Hp. apply List.Forall_forall. intros e He. apply in_map_iff in He as (it & <- & _). done. Qed.

(** An element that is not twice in a list is there in one way. *)
Lemma split_unique {A B} (f : A -> B) (l1 l2 l1' l2' : list A) x :
  NoDup (map f (l1 ++ x :: l2)) -> l1 ++ x :: l2 = l1' ++ x :: l2' -> l1 = l1' /\ l2 = l2'.
Proof.
  revert l1'. induction l1 as [|y l1 IH]; intros [|y' l1'] Hnd H; cbn in *.
  - by injection H.
  - injection H as -> ->. apply NoDup_cons in Hnd as [Hnd _]. exfalso. apply Hnd.
    rewrite map_app. cbn. set_solver.
  - injection H as -> H. apply NoDup_cons in Hnd as [Hnd _]. exfalso. apply Hnd. rewrite map_app. cbn. set_solver.
  - injection H as -> H. apply NoDup_cons in Hnd as [_ Hnd]. destruct (IH l1' Hnd H) as [-> ->]. done.
Qed.

(** ** Insertion *)
Lemma wf_insert q q' p it :
  wf q -> num_priorities q' = num_priorities q -> nodes q < 4294967296 -> it = mkNode (nodes q) (next_id_ q) (value it) ->
  next_id_ q' = u32 (next_id_ q + 1) -> valid_ids_ q' = {[next_id_ q]} ∪ valid_ids_ q ->
  size_ q' = u64 (size_ q + 1) -> nodes q' = nodes q + 1 -> ordered q' ≡ₚ (p, it) :: ordered q -> wf q'.
Proof.
  intros Hq Hn Hnodes Hit Hnext Hvalid Hsize Hnodes' Hperm. pose proof (wf_nodes q Hq). pose proof (wf_bound q Hq).
  assert (Hid : next_id_ q = nodes q) by (rewrite (wf_next q Hq); apply wrap_u_id; split; lia).
  assert (Hnode : node it = nodes q /\ id it = nodes q) by (rewrite Hit; cbn; by rewrite Hid).
  constructor.
  - rewrite Hn. apply Hq.
  - lia.
  - by rewrite Hnext, Hid, Hnodes'.
  - intros p' it' He. rewrite Hperm in He. apply elem_of_cons in He as [[= -> ->]|He].
    + destruct Hnode as [-> ->]. lia.
    + destruct (wf_id q Hq p' it' He). split; [lia|done].
  - rewrite (Permutation_map _ Hperm). cbn. apply NoDup_cons. split; [|apply Hq].
    intros Hin. apply list_elem_of_In, in_map_iff in Hin as ([p' it'] & E & He). apply list_elem_of_In in He.
    destruct (wf_id q Hq p' it' He). cbn in E. lia.
  - intros i. rewrite Hvalid, elem_of_union, elem_of_singleton, (wf_valid q Hq). setoid_rewrite Hperm. split.
    + intros [->|(p' & it' & He & Hi)]; [exists p, it; split; [set_solver|lia]|exists p', it'; split; [set_solver|done]].
    + intros (p' & it' & He & Hi). apply elem_of_cons in He as [[= -> ->]|He]; [left; lia|right; eauto].
  - rewrite Hsize, (wf_size q Hq), Hperm. cbn [length]. rewrite wrap_u_id by (split; lia). lia.
  - rewrite Hperm, Hnodes'. cbn [length]. lia.
Qed.

Lemma insert_with_spec place value p q :
  wf q -> 0 <= p < num_priorities q -> nodes q < 4294967296 ->
  (forall it l, place it l ≡ₚ it :: l) ->
  exists q' hi lo, Forall (fun e : entry => p < e.1) hi /\ Forall (fun e : entry => e.1 < p) lo /\
    ordered q = hi ++ map (pair p) (list_at q p) ++ lo /\
    let it := mkNode (nodes q) (next_id_ q) value in
    insert_with place value p q = Some (new_Pointer p it, q') /\ wf q' /\
    num_priorities q' = num_priorities q /\ nodes q' = nodes q + 1 /\
    ordered q' = hi ++ map (pair p) (place it (list_at q p)) ++ lo.
Proof.
  intros Hq Hp Hnodes Hplace. set (it := mkNode (nodes q) (next_id_ q) value).
  destruct (ordered_split q p Hp) as (hi & lo & Hhi & Hlo & Hset & Hold & _).
  unfold insert_with. rewrite (proj2 (Z.ltb_lt _ _)) by lia. cbn [DCHECK mbind option_bind].
  eexists _, hi, lo. refine (conj Hhi (conj Hlo (conj Hold (conj eq_refl _)))).
  match goal with |- wf ?r /\ _ => set (q' := r) end.
  assert (E : ordered q' = hi ++ map (pair p) (place it (list_at q p)) ++ lo) by exact (Hset _).
  assert (En : num_priorities q' = num_priorities q) by (unfold q'; rewrite num_priorities_set; reflexivity).
  refine (conj _ (conj En (conj eq_refl E))).
  apply (wf_insert q q' p it Hq En Hnodes eq_refl eq_refl eq_refl eq_refl eq_refl).
  rewrite E, Hold, (Permutation_map (pair p) (Hplace it (list_at q p))). cbn [map app].
  by rewrite <- Permutation_middle.
Qed.

Lemma Insert_spec value p q :
  wf q -> 0 <= p < num_priorities q -> nodes q < 4294967296 ->
  let it := mkNode (nodes q) (next_id_ q) value in
  exists q', Insert value p q = Some (new_Pointer p it, q') /\ wf q' /\
    num_priorities q' = num_priorities q /\ nodes q' = nodes q + 1 /\
    ordered q' = at_least p (ordered q) ++ (p, it) :: less_than p (ordered q).
Proof.
  intros Hq Hp Hnodes it.
  destruct (insert_with_spec (fun it l => l ++ [it]) value p q Hq Hp Hnodes) as (q' & hi & lo & Hhi & Hlo & Hold & HI & Hwf & Hn & Hnd & Hord).
  { intros it' l. by rewrite Permutation_app_comm. }
  exists q'. refine (conj HI (conj Hwf (conj Hn (conj Hnd _)))). rewrite Hord, Hold. unfold at_least, less_than.
  rewrite !filter_app, (filter_keep _ hi), (filter_keep _ (map (pair p) _)), (filter_drop _ lo), (filter_drop _ hi),
    (filter_drop _ (map (pair p) _)), (filter_keep _ lo).
  - rewrite map_app. cbn. by rewrite app_nil_r, <- !app_assoc.
  - done.
  - apply (Forall_prio p (fun z => ~ z < p)). lia.
  - eapply Forall_impl; [exact Hhi|]. cbn. lia.
  - eapply Forall_impl; [exact Hlo|]. cbn. lia.
  - apply (Forall_prio p (fun z => p <= z)). lia.
  - eapply Forall_impl; [exact Hhi|]. cbn. lia.
Qed.

Lemma InsertAtFront_spec value p q :
  wf q -> 0 <= p < num_priorities q -> nodes q < 4294967296 ->
  let it := mkNode (nodes q) (next_id_ q) value in
  exists q', InsertAtFront value p q = Some (new_Pointer p it, q') /\ wf q' /\
    num_priorities q' = num_priorities q /\ nodes q' = nodes q + 1 /\
    ordered q' = more_than p (ordered q) ++ (p, it) :: at_most p (ordered q).
Proof.
  intros Hq Hp Hnodes it.
  destruct (insert_with_spec (fun it l => it :: l) value p q Hq Hp Hnodes) as (q' & hi & lo & Hhi & Hlo & Hold & HI & Hwf & Hn & Hnd & Hord).
  { done. }
  exists q'. refine (conj HI (conj Hwf (conj Hn (conj Hnd _)))). rewrite Hord, Hold. unfold more_than, at_most.
  rewrite !filter_app, (filter_keep _ hi), (filter_drop _ (map (pair p) _)), (filter_drop _ lo), (filter_drop _ hi),
    (filter_keep _ (map (pair p) _)), (filter_keep _ lo).
  - cbn. by rewrite app_nil_r.
  - eapply Forall_impl; [exact Hlo|]. cbn. lia.
  - apply (Forall_prio p (fun z => z <= p)). lia.
  - eapply Forall_impl; [exact Hhi|]. cbn. lia.
  - eapply Forall_impl; [exact Hlo|]. cbn. lia.
  - apply (Forall_prio p (fun z => ~ p < z)). lia.
  - done.
Qed.

(** ** Where an element is *)
Lemma position q A B p it :
  wf q -> ordered q = A ++ (p, it) :: B ->
  exists hi l1 l2, A = hi ++ map (pair p) l1 /\ list_at q p = l1 ++ it :: l2 /\ 0 <= p < num_priorities q /\
    B = map (pair p) l2 ++ entries q (rev (map Z.of_nat (seq 0 (Z.to_nat p)))) /\
    (forall l, ordered (set_list p l q) = hi ++ map (pair p) l ++ entries q (rev (map Z.of_nat (seq 0 (Z.to_nat p))))) /\
    Forall (fun n => node n <> node it) l1.
Proof.
  intros Hq HAB.
  assert (Hin : (p, it) ∈ ordered q) by (rewrite HAB; set_solver).
  unfold ordered in Hin. apply entries_elem in Hin as [Hp Hit]. apply upward_elem in Hp.
  destruct (ordered_split q p Hp) as (hi & lo & Hhi & Hlo & Hset & Hold & ->).
  apply list_elem_of_split in Hit as (l1 & l2 & Hl). exists hi, l1, l2.
  pose proof (wf_NoDup q Hq) as Hnd.
  rewrite Hl, map_app, <- app_assoc in Hold. cbn [map app] in Hold. rewrite app_assoc in Hold.
  rewrite Hold in Hnd, HAB.
  destruct (split_unique _ _ _ _ _ _ Hnd HAB) as [<- <-].
  refine (conj eq_refl (conj Hl (conj Hp (conj eq_refl (conj Hset _))))).
  apply List.Forall_forall. intros n Hn Heq.
  rewrite map_app in Hnd. cbn [map snd] in Hnd. apply NoDup_app in Hnd as (_ & Hnd & _).
  apply (Hnd (node it)); [|apply elem_of_cons; by left]. rewrite map_app, map_map. cbn [snd]. apply elem_of_app. right.
  apply list_elem_of_In. rewrite <- Heq. by apply (in_map (fun n => node n)).
Qed.

Lemma find_node_spec l1 it l2 :
  Forall (fun n => node n <> node it) l1 -> find_node (node it) (l1 ++ it :: l2) = Some it.
Proof.
  induction 1 as [|n l1 Hn Hl IH]; cbn; [by rewrite Z.eqb_refl|].
  by rewrite (proj2 (Z.eqb_neq _ _) Hn).
Qed.

Lemma erase_node_spec l1 it l2 :
  Forall (fun n => node n <> node it) l1 -> erase_node (node it) (l1 ++ it :: l2) = Some (l1 ++ l2).
Proof.
  induction 1 as [|n l1 Hn Hl IH]; cbn; [by rewrite Z.eqb_refl|].
  by rewrite (proj2 (Z.eqb_neq _ _) Hn), IH.
Qed.

Lemma behind_spec l1 it l2 :
  Forall (fun n => node n <> node it) l1 -> behind (node it) (l1 ++ it :: l2) = Some l2.
Proof.
  induction 1 as [|n l1 Hn Hl IH]; cbn; [by rewrite Z.eqb_refl|].
  by rewrite (proj2 (Z.eqb_neq _ _) Hn).
Qed.

Lemma value_of_spec q A B p it :
  wf q -> ordered q = A ++ (p, it) :: B -> value_of (new_Pointer p it) q = Some (value it).
Proof.
  intros Hq H. destruct (position q A B p it Hq H) as (hi & l1 & l2 & _ & Hl & _ & _ & _ & Hne).
  unfold value_of. cbn [priority_ iterator_ new_Pointer]. rewrite Hl, find_node_spec by exact Hne. done.
Qed.
(** ** Removal *)
Lemma Erase_spec q A B p it :
  wf q -> ordered q = A ++ (p, it) :: B ->
  exists q', Erase (new_Pointer p it) q = Some q' /\ wf q' /\ num_priorities q' = num_priorities q /\
    nodes q' = nodes q /\ ordered q' = A ++ B.
Proof.
  intros Hq H. destruct (position q A B p it Hq H) as (hi & l1 & l2 & HA & Hl & Hp & HB & Hset & Hne).
  assert (Hin : (p, it) ∈ ordered q) by (rewrite H; set_solver).
  pose proof (wf_size q Hq) as Hsize. pose proof (wf_bound q Hq) as Hbound. pose proof (wf_nodes q Hq) as Hnodes.
  assert (Hlen : length (ordered q) = S (length (A ++ B))) by (rewrite H, !length_app; cbn; lia).
  assert (Hv : id it ∈ valid_ids_ q) by (apply (wf_valid q Hq); eauto).
  unfold Erase. cbn [priority_ iterator_ id_ new_Pointer].
  rewrite (proj2 (Z.ltb_lt _ _)) by lia. cbn [DCHECK mbind option_bind].
  rewrite (proj2 (Z.ltb_lt _ _)) by lia. cbn [DCHECK mbind option_bind].
  rewrite bool_decide_true by exact Hv. cbn [DCHECK mbind option_bind].
  repeat match goal with |- context [list_at ?r p] => tryif constr_eq r q then fail else change (list_at r p) with (list_at q p) end.
  rewrite Hl.
  rewrite find_node_spec by exact Hne. cbn [mbind option_bind]. rewrite Z.eqb_refl. cbn [DCHECK mbind option_bind].
  rewrite erase_node_spec by exact Hne. cbn [mbind option_bind].
  eexists. refine (conj eq_refl _). match goal with |- wf ?r /\ _ => set (q' := r) end.
  assert (En : num_priorities q' = num_priorities q) by (unfold q'; rewrite num_priorities_set; reflexivity).
  assert (E : ordered q' = A ++ B).
  { transitivity (ordered (set_list p (l1 ++ l2) q)); [reflexivity|]. rewrite Hset, HA, HB, map_app, <- !app_assoc. done. }
  refine (conj _ (conj En (conj eq_refl E))).
  assert (Hsub : forall e, e ∈ A ++ B -> e ∈ ordered q) by (intros e He; rewrite H; set_solver).
  pose proof (wf_NoDup q Hq) as Hnd. rewrite H, (Permutation_map _ (symmetry (Permutation_middle A B (p, it)))) in Hnd.
  cbn [map] in Hnd. apply NoDup_cons in Hnd as [Hfresh Hnd].
  assert (Hother : forall p' it', (p', it') ∈ A ++ B -> id it' <> id it).
  { intros p' it' He Heq. apply Hfresh. apply list_elem_of_In. apply in_map_iff. exists (p', it'). cbn.
    split; [|by apply list_elem_of_In]. destruct (wf_id q Hq p it Hin), (wf_id q Hq p' it' (Hsub _ He)). congruence. }
  constructor; rewrite ?E.
  - rewrite En. apply Hq.
  - exact Hnodes.
  - exact (wf_next q Hq).
  - intros p' it' He. exact (wf_id q Hq p' it' (Hsub _ He)).
  - exact Hnd.
  - intros i. transitivity (i ∈ valid_ids_ q /\ i <> id it); [cbn; set_solver|].
    rewrite (wf_valid q Hq). split.
    + intros [(p' & it' & He & Hi) Hne']. exists p', it'. split; [|done]. rewrite H in He.
      apply elem_of_app in He as [He|He]; [set_solver|]. apply elem_of_cons in He as [[= -> ->]|He]; [done|set_solver].
    + intros (p' & it' & He & Hi). split; [eauto|]. rewrite <- Hi. by apply (Hother p').
  - transitivity (u64 (size_ q - 1)); [reflexivity|]. rewrite wrap_u_id by (split; lia). lia.
  - transitivity (nodes q); [lia|]. apply Z.le_refl.
Qed.

(** A pointer to a node that has left the queue is caught by its id. *)
Lemma Erase_stale q pointer :
  wf q -> iterator_ pointer = id_ pointer -> (forall p it, (p, it) ∈ ordered q -> node it <> iterator_ pointer) ->
  Erase pointer q = None.
Proof.
  intros Hq Hid Hno. unfold Erase. destruct (_ <? num_priorities q); [|done]. cbn [DCHECK mbind option_bind].
  destruct (0 <? size_ q); [|done]. cbn [DCHECK mbind option_bind].
  rewrite bool_decide_false; [done|]. intros Hv. apply (wf_valid q Hq) in Hv as (p & it & He & Hi).
  apply (Hno p it He). destruct (wf_id q Hq p it He). congruence.
Qed.

(** ** The ends of the queue *)
Lemma entries_cons q i ixs : entries q (i :: ixs) = map (pair i) (list_at q i) ++ entries q ixs.
Proof. done. Qed.

Lemma search_head q ixs : search head q ixs = pointer_to (head (entries q ixs)).
Proof. induction ixs as [|i ixs IH]; [done|]. rewrite entries_cons. cbn [search]. destruct (list_at q i); [exact IH|done]. Qed.

Lemma entries_snoc q ixs i : entries q (rev (i :: ixs)) = entries q (rev ixs) ++ map (pair i) (list_at q i).
Proof. cbn [rev]. rewrite entries_app. f_equal. unfold entries. cbn. by rewrite app_nil_r. Qed.

Lemma last_map_pair (i : Z) l : last (map (pair i) l) = option_map (pair i) (last l).
Proof.
  destruct l as [|it l] using rev_ind; [done|]. by rewrite map_app, !last_app.
Qed.

Lemma search_last q ixs : search last q ixs = pointer_to (last (entries q (rev ixs))).
Proof.
  induction ixs as [|i ixs IH]; [done|]. rewrite entries_snoc, last_app, last_map_pair. cbn [search].
  destruct (last (list_at q i)); [done|exact IH].
Qed.

Lemma entries_other q ixs i : i ∉ ixs -> filter (fun e : entry => e.1 = i) (entries q ixs) = [].
Proof.
  intros Hi. apply filter_drop, Forall_forall. intros [p it] He E. cbn in E. subst p. apply entries_elem in He as [Hp _]. done.
Qed.

Lemma filter_own i l : filter (fun e : entry => e.1 = i) (map (pair i) l) = map (pair i) l.
Proof. apply filter_keep. by apply (Forall_prio i (fun z => z = i)). Qed.

Lemma search_lowest q ixs : NoDup ixs -> search head q ixs = pointer_to (head (lowest (entries q (rev ixs)))).
Proof.
  induction 1 as [|i ixs Hi Hnd IH]; [done|]. rewrite entries_snoc. unfold lowest in *. rewrite last_app, last_map_pair. cbn [search].
  destruct (list_at q i) as [|it l] eqn:E; [cbn; rewrite app_nil_r; exact IH|].
  destruct (last (it :: l)) as [x|] eqn:El; [|by rewrite last_None in El]. cbn [option_map fst].
  rewrite filter_app, entries_other, filter_own by (intros H; apply Hi; apply list_elem_of_In, in_rev; by apply list_elem_of_In).
  done.
Qed.

Lemma search_highest q ixs : NoDup ixs -> search last q ixs = pointer_to (last (highest (entries q ixs))).
Proof.
  induction 1 as [|i ixs Hi Hnd IH]; [done|]. rewrite entries_cons. unfold highest in *. cbn [search].
  destruct (list_at q i) as [|it l] eqn:E; [exact IH|].
  cbn [map app head fst]. change ((i, it) :: map (pair i) l ++ entries q ixs) with (map (pair i) (it :: l) ++ entries q ixs).
  rewrite filter_app, entries_other, filter_own, app_nil_r, last_map_pair by exact Hi.
  destruct (last (it :: l)) as [x|] eqn:El; [done|by rewrite last_None in El].
Qed.

Lemma next_lower_spec q k rest :
  next_lower q k rest = pointer_to (head (map (pair (Z.of_nat k)) rest ++ entries q (rev (map Z.of_nat (seq 0 k))))).
Proof.
  revert rest. induction k as [|k IH]; intros [|it rest]; try done. cbn [next_lower map app].
  rewrite seq_S, map_app, rev_app_distr. cbn [map rev app Nat.add]. rewrite entries_cons. apply IH.
Qed.

Lemma Next_spec q A B p it :
  wf q -> ordered q = A ++ (p, it) :: B -> GetNextTowardsLastMin (new_Pointer p it) q = Some (pointer_to (head B)).
Proof.
  intros Hq H. destruct (position q A B p it Hq H) as (hi & l1 & l2 & _ & Hl & Hp & -> & _ & Hne).
  pose proof (wf_lists q Hq). unfold GetNextTowardsLastMin, is_null. cbn [priority_ iterator_ new_Pointer].
  rewrite (proj2 (Z.eqb_neq _ _)), (proj2 (Z.ltb_lt _ _)) by lia. cbn [DCHECK negb mbind option_bind].
  rewrite Hl, behind_spec by exact Hne. cbn [mbind option_bind]. rewrite next_lower_spec. by rewrite Z2Nat.id by lia.
Qed.

Lemma upward_NoDup q : NoDup (upward q).
Proof. unfold upward. apply NoDup_fmap; [intros x y; lia|apply NoDup_seq]. Qed.

Lemma ends_spec q :
  FirstMax q = pointer_to (head (ordered q)) /\ LastMin q = pointer_to (last (ordered q)) /\
  FirstMin q = pointer_to (head (lowest (ordered q))) /\ LastMax q = pointer_to (last (highest (ordered q))).
Proof.
  split_and!.
  - apply search_head.
  - apply search_last.
  - apply search_lowest, upward_NoDup.
  - apply search_highest. rewrite <- Permutation_rev. apply upward_NoDup.
Qed.

Lemma entries_empty q ixs : (forall i, list_at q i = []) -> entries q ixs = [].
Proof. intros H. induction ixs as [|i ixs IH]; [done|]. by rewrite entries_cons, H, IH. Qed.

Lemma wf_empty q :
  num_priorities q <= kNullPriority -> 0 <= nodes q <= 4294967296 -> next_id_ q = u32 (nodes q) -> valid_ids_ q = ∅ ->
  size_ q = 0 -> ordered q = [] -> wf q.
Proof.
  intros Hp Hn Hi Hv Hs Ho. constructor; rewrite ?Ho; cbn; try done; try lia.
  - set_solver.
  - constructor.
  - intros i. rewrite Hv. set_solver.
Qed.

Lemma new_spec n : 0 <= n <= kNullPriority ->
  let q := new_PriorityQueue n : PriorityQueue T in wf q /\ num_priorities q = n /\ nodes q = 0 /\ ordered q = [].
Proof.
  intros Hn q. assert (E : num_priorities q = n) by (unfold q, num_priorities, zlen; cbn; rewrite length_replicate; lia).
  assert (Ho : ordered q = []).
  { apply entries_empty. intros i. unfold list_at, q. cbn. destruct (replicate _ _ !! _) eqn:El; [|done].
    by apply lookup_replicate in El as [-> _]. }
  refine (conj _ (conj E (conj eq_refl Ho))). apply wf_empty; try done; rewrite ?E; cbn; lia.
Qed.

Lemma Clear_spec q :
  wf q -> wf (Clear q) /\ num_priorities (Clear q) = num_priorities q /\ nodes (Clear q) = nodes q /\ ordered (Clear q) = [].
Proof.
  intros Hq. assert (E : num_priorities (Clear q) = num_priorities q) by (unfold num_priorities, zlen; cbn; by rewrite length_map).
  assert (Ho : ordered (Clear q) = []).
  { apply entries_empty. intros i. unfold list_at. cbn. change (map ?f ?l) with (f <$> l). rewrite list_lookup_fmap.
    by destruct (lists_ q !! Z.to_nat i). }
  refine (conj _ (conj E (conj eq_refl Ho))). apply wf_empty; try done; rewrite ?E; apply Hq.
Qed.
End properties.

(** C18. A PriorityQueue is a list of its elements by decreasing priority, first
    in first out inside a priority ([ordered]), for up to 2^32 insertions. A
    new queue is the empty list. Insert puts an element behind all those of its
    priority and higher, InsertAtFront before all those of its priority and
    lower. The pointer they return stays good whatever else comes and goes: as
    long as the element is in the queue, it gives its value, Erase takes out
    that element and leaves the others in their order, and
    GetNextTowardsLastMin is the next of the list; when the element has gone,
    Erase refuses the pointer. FirstMax is the head of the list, LastMin its
    last; FirstMin is the first and LastMax the last of the lowest and of the
    highest priority that has elements. Clear leaves the empty list, and size
    is the list's length. *)
Theorem priority_queue_refines (T : Type) :
  (forall n, 0 <= n <= kNullPriority -> let q := new_PriorityQueue n : PriorityQueue T in
     wf q /\ num_priorities q = n /\ nodes q = 0 /\ ordered q = []) /\
  forall q : PriorityQueue T, wf q ->
    (forall value p, 0 <= p < num_priorities q -> nodes q < 4294967296 ->
       let it := mkNode (nodes q) (next_id_ q) value in
       (exists q', Insert value p q = Some (new_Pointer p it, q') /\ wf q' /\ num_priorities q' = num_priorities q /\
          nodes q' = nodes q + 1 /\ ordered q' = at_least p (ordered q) ++ (p, it) :: less_than p (ordered q)) /\
       (exists q', InsertAtFront value p q = Some (new_Pointer p it, q') /\ wf q' /\ num_priorities q' = num_priorities q /\
          nodes q' = nodes q + 1 /\ ordered q' = more_than p (ordered q) ++ (p, it) :: at_most p (ordered q))) /\
    (forall p it A B, ordered q = A ++ (p, it) :: B ->
       value_of (new_Pointer p it) q = Some (value it) /\
       GetNextTowardsLastMin (new_Pointer p it) q = Some (pointer_to (head B)) /\
       exists q', Erase (new_Pointer p it) q = Some q' /\ wf q' /\ num_priorities q' = num_priorities q /\
         nodes q' = nodes q /\ ordered q' = A ++ B) /\
    (forall p (it : Node T), id it = node it -> (forall p' it', (p', it') ∈ ordered q -> node it' <> node it) ->
       Erase (new_Pointer p it) q = None) /\
    (FirstMax q = pointer_to (head (ordered q)) /\ LastMin q = pointer_to (last (ordered q)) /\
     FirstMin q = pointer_to (head (lowest (ordered q))) /\ LastMax q = pointer_to (last (highest (ordered q)))) /\
    (wf (Clear q) /\ num_priorities (Clear q) = num_priorities q /\ nodes (Clear q) = nodes q /\ ordered (Clear q) = []) /\
    size_ q = Z.of_nat (length (ordered q)).
Proof.
  split; [exact new_spec|]. intros q Hq. split_and!; try apply ends_spec; try by apply Clear_spec.
  - intros value p Hp Hn. split; [by apply Insert_spec|by apply InsertAtFront_spec].
  - intros p it A B H. split_and!; [by eapply value_of_spec|by eapply Next_spec|by eapply Erase_spec].
  - intros p it Hid Hno. by apply Erase_stale.
  - apply Hq.
Qed.

Lemma priority_queue_refines_witness :
  exists q : PriorityQueue Z, ordered q = [(1, mkNode 1 1 70); (0, mkNode 0 0 60)] /\
    value_of (mkPointer 0 0 0) q = Some 60 /\ FirstMax q = mkPointer 1 1 1 /\
    exists q', Erase (mkPointer 1 1 1) q = Some q' /\ ordered q' = [(0, mkNode 0 0 60)] /\ Erase (mkPointer 1 1 1) q' = None.
Proof.
  destruct (priority_queue_refines Z) as [Hnew Hops].
  destruct (Hnew 2 ltac:(unfold kNullPriority; lia)) as (W0 & N0 & M0 & O0).
  destruct (Hops _ W0) as (I0 & _). destruct (I0 60 0 ltac:(rewrite N0; lia) ltac:(rewrite M0; lia)) as [(q1 & E1 & W1 & N1 & M1 & O1) _].
  destruct (Hops q1 W1) as (I1 & _). destruct (I1 70 1 ltac:(rewrite N1, N0; lia) ltac:(rewrite M1, M0; lia)) as [(q & E & W & N & M & O) _].
  rewrite O1, O0, (wf_next q1 W1), M1, M0 in O. cbn in O. change (u32 1) with 1 in O.
  destruct (Hops q W) as (_ & P & S & (F & _) & _). exists q. split; [exact O|].
  destruct (P 0 (mkNode 0 0 60) [(1, mkNode 1 1 70)] [] O) as (V & _ & _). split; [exact V|].
  rewrite O in F. split; [exact F|].
  destruct (P 1 (mkNode 1 1 70) [] [(0, mkNode 0 0 60)] O) as (_ & _ & q' & E' & W' & _ & _ & O'). exists q'.
  split; [exact E'|]. split; [exact O'|].
  destruct (Hops q' W') as (_ & _ & S' & _). apply (S' 1 (mkNode 1 1 70) eq_refl). rewrite O'. cbn.
  intros p it He. apply list_elem_of_singleton in He as [= -> ->]. done.
Defined.
