(* ===== verification/PrioritizedDispatcher.v ===== *)
(** The dispatcher of jobs by priority, net/base/prioritized_dispatcher.cc: it
    starts jobs while the limits permit, and keeps the others in a priority
    queue.

    A job is the pointer to it. What a job does when it is started is a
    function of the model, [Start]: it gets the dispatcher and may call it, as
    prioritized_dispatcher.h allows; only destroying the dispatcher there is
    left out. *)
From stdpp Require Import gmap sets.
From S2P Require Import Prelude PriorityQueue.

Section PrioritizedDispatcher.
Context {Job : Type}.

(* src: net/base/prioritized_dispatcher.h 38-47! Limits *)
Record Limits := mkLimits { total_jobs : Z; reserved_slots : list Z }.

(* src: net/base/prioritized_dispatcher.cc 11-13! Limits *)
Definition new_Limits (num_priorities total_jobs : Z) : Limits :=
  mkLimits total_jobs (replicate (Z.to_nat num_priorities) 0).

Abbreviation Handle := Pointer.

(* src: net/base/prioritized_dispatcher.h 124-131! PrioritizedDispatcher *)
Record PrioritizedDispatcher := mkPrioritizedDispatcher {
  queue_ : PriorityQueue Job;
  max_running_jobs_ : list Z;
  num_running_jobs_ : Z
}.

#[export] Instance eta_PrioritizedDispatcher : Eta PrioritizedDispatcher := fun s =>
  mkPrioritizedDispatcher (queue_ s) (max_running_jobs_ s) (num_running_jobs_ s).

(* src: net/base/prioritized_dispatcher.h 73-73! num_priorities *)
Definition num_priorities (s : PrioritizedDispatcher) : Z := zlen (max_running_jobs_ s).

(** What a job does when it is started. *)
Variable Start : Job -> PrioritizedDispatcher -> option PrioritizedDispatcher.

(** [num_running_jobs_ < max_running_jobs_[priority]] *)
Definition permitted (s : PrioritizedDispatcher) (priority : Z) : bool :=
  num_running_jobs_ s <? at_ (max_running_jobs_ s) priority.

(* src: net/base/prioritized_dispatcher.cc 26-36! Add *)
Definition Add (job : Job) (priority : Z) (s : PrioritizedDispatcher) : option (Handle * PrioritizedDispatcher) :=
  DCHECK (priority <? num_priorities s) ;;
  if permitted s priority then
    let s := s <| num_running_jobs_ := u64 (num_running_jobs_ s + 1) |> in
    s ← Start job s;
    Some (null, s)
  else
    '(handle, q) ← Insert job priority (queue_ s);
    Some (handle, s <| queue_ := q |>).

(* src: net/base/prioritized_dispatcher.cc 38-48! AddAtHead *)
Definition AddAtHead (job : Job) (priority : Z) (s : PrioritizedDispatcher) : option (Handle * PrioritizedDispatcher) :=
  DCHECK (priority <? num_priorities s) ;;
  if permitted s priority then
    let s := s <| num_running_jobs_ := u64 (num_running_jobs_ s + 1) |> in
    s ← Start job s;
    Some (null, s)
  else
    '(handle, q) ← InsertAtFront job priority (queue_ s);
    Some (handle, s <| queue_ := q |>).

(* src: net/base/prioritized_dispatcher.cc 50-52! Cancel *)
Definition Cancel (handle : Handle) (s : PrioritizedDispatcher) : option PrioritizedDispatcher :=
  q ← Erase handle (queue_ s);
  Some (s <| queue_ := q |>).

(* src: net/base/prioritized_dispatcher.cc 54-61! EvictOldestLowest *)
Definition EvictOldestLowest (s : PrioritizedDispatcher) : option (option Job * PrioritizedDispatcher) :=
  let handle := FirstMin (queue_ s) in
  if is_null handle then Some (None, s) else
  job ← value_of handle (queue_ s);
  s ← Cancel handle s;
  Some (Some job, s).

(* src: net/base/prioritized_dispatcher.cc 124-134! MaybeDispatchJob *)
Definition MaybeDispatchJob (handle : Handle) (job_priority : Z) (s : PrioritizedDispatcher) :
    option (bool * PrioritizedDispatcher) :=
  DCHECK (job_priority <? num_priorities s) ;;
  if negb (permitted s job_priority) then Some (false, s) else
  job ← value_of handle (queue_ s);
  q ← Erase handle (queue_ s);
  let s := s <| queue_ := q |> in
  let s := s <| num_running_jobs_ := u64 (num_running_jobs_ s + 1) |> in
  s ← Start job s;
  Some (true, s).

(* src: net/base/prioritized_dispatcher.cc 136-143! MaybeDispatchNextJob *)
Definition MaybeDispatchNextJob (s : PrioritizedDispatcher) : option (bool * PrioritizedDispatcher) :=
  let handle := FirstMax (queue_ s) in
  if is_null handle then DCHECK (size_ (queue_ s) =? 0) ;; Some (false, s)
  else MaybeDispatchJob handle (priority_ handle) s.

(* src: net/base/prioritized_dispatcher.cc 63-78! ChangePriority *)
Definition ChangePriority (handle : Handle) (priority : Z) (s : PrioritizedDispatcher) :
    option (Handle * PrioritizedDispatcher) :=
  DCHECK (negb (is_null handle)) ;;
  DCHECK (priority <? num_priorities s) ;;
  DCHECK (negb (permitted s (priority_ handle))) ;;
  if priority_ handle =? priority then Some (handle, s) else
  '(dispatched, s) ← MaybeDispatchJob handle priority s;
  if dispatched : bool then Some (null, s) else
  job ← value_of handle (queue_ s);
  q ← Erase handle (queue_ s);
  '(handle, q) ← Insert job priority q;
  Some (handle, s <| queue_ := q |>).

(* src: net/base/prioritized_dispatcher.cc 80-84! OnJobFinished *)
Definition OnJobFinished (s : PrioritizedDispatcher) : option PrioritizedDispatcher :=
  DCHECK (0 <? num_running_jobs_ s) ;;
  let s := s <| num_running_jobs_ := u64 (num_running_jobs_ s - 1) |> in
  '(_, s) ← MaybeDispatchNextJob s;
  Some s.

(* src: net/base/prioritized_dispatcher.cc 86-97! GetLimits *)
Definition GetLimits (s : PrioritizedDispatcher) : Limits :=
  let m := max_running_jobs_ s in
  mkLimits (at_ m (zlen m - 1))
    (map (fun i => if i =? 0 then 0 else u64 (at_ m i - at_ m (i - 1))) (map Z.of_nat (seq 0 (length m)))).

(** The first loop: the running totals, and the last of them. *)
(* src: net/base/prioritized_dispatcher.cc 101-105! SetLimits *)
Fixpoint totals (total : Z) (slots : list Z) : list Z * Z :=
  match slots with
  | [] => ([], total)
  | slot :: slots =>
    let total := u64 (total + slot) in
    let '(rest, last) := totals total slots in
    (total :: rest, last)
  end.

(** [while (true) { if (!MaybeDispatchNextJob()) break; }] *)
(* src: net/base/prioritized_dispatcher.cc 114-117! SetLimits *)
Fixpoint dispatch_loop (fuel : nat) (s : PrioritizedDispatcher) : res PrioritizedDispatcher :=
  match fuel with
  | O => NoFuel
  | S fuel =>
    '(dispatched, s) ← checked (MaybeDispatchNextJob s);
    if dispatched : bool then dispatch_loop fuel s else Ok s
  end.

(* src: net/base/prioritized_dispatcher.cc 99-118! SetLimits *)
Definition SetLimits (fuel : nat) (limits : Limits) (s : PrioritizedDispatcher) : res PrioritizedDispatcher :=
  checked (DCHECK (PriorityQueue.num_priorities (queue_ s) =? zlen (reserved_slots limits))) ;;
  let '(m, total) := totals 0 (reserved_slots limits) in
  checked (DCHECK (total <=? total_jobs limits)) ;;
  let spare := u64 (total_jobs limits - total) in
  let s := s <| max_running_jobs_ := map (fun v => u64 (v + spare)) m |> in
  dispatch_loop fuel s.

(* src: net/base/prioritized_dispatcher.cc 120-122! SetLimitsToZero *)
Definition SetLimitsToZero (fuel : nat) (s : PrioritizedDispatcher) : res PrioritizedDispatcher :=
  SetLimits fuel (new_Limits (PriorityQueue.num_priorities (queue_ s)) 0) s.

(** The queue is empty: one turn of the loop is all. *)
(* src: net/base/prioritized_dispatcher.cc 17-22! PrioritizedDispatcher *)
Definition new_PrioritizedDispatcher (limits : Limits) : res PrioritizedDispatcher :=
  let n := zlen (reserved_slots limits) in
  SetLimits 1 limits (mkPrioritizedDispatcher (new_PriorityQueue n) (replicate (Z.to_nat n) 0) 0).

End PrioritizedDispatcher.
Arguments PrioritizedDispatcher : clear implicits.
