(* ===== verification/DispatcherProperties.v ===== *)
(** What the dispatcher of net/base/prioritized_dispatcher.cc promises: no job
    waits that the limits permit to start, whatever the jobs call when they
    are started. *)
From stdpp Require Import gmap sets.
From S2P Require Import Prelude PriorityQueue PriorityQueueProperties PrioritizedDispatcher.

Section properties.
Context {Job : Type}.
Implicit Types (s : PrioritizedDispatcher Job) (job : Job).

Abbreviation limit s p := (at_ (max_running_jobs_ s) p).

(** The limits, the queue and the count fit each other. *)
Record limits_wf s : Prop := {
  dw_queue : wf (queue_ s);
  dw_num : PriorityQueue.num_priorities (queue_ s) = num_priorities s;
  dw_some : 0 < num_priorities s;
  dw_mono : forall i j, 0 <= i <= j -> j < num_priorities s -> limit s i <= limit s j;
  dw_range : forall i, 0 <= i < num_priorities s -> 0 <= limit s i < 18446744073709551616;
  dw_running : 0 <= num_running_jobs_ s < 18446744073709551616
}.

(** No job waits that the limits permit to start. *)
Definition none_permitted s : Prop :=
  forall p it, (p, it) ∈ ordered (queue_ s) -> limit s p <= num_running_jobs_ s.

Definition dispatcher_wf s : Prop := limits_wf s /\ none_permitted s.

(** ** A change of the queue and of the count *)
Definition with_queue s (q : PriorityQueue Job) (running : Z) : PrioritizedDispatcher Job :=
  mkPrioritizedDispatcher q (max_running_jobs_ s) running.

Lemma with_queue_wf s q running :
  limits_wf s -> wf q -> PriorityQueue.num_priorities q = num_priorities s -> 0 <= running < 18446744073709551616 ->
  limits_wf (with_queue s q running).
Proof. intros [Hq Hn Hp Hm Hr Hc] Hwf Hnum Hrun. by constructor. Qed.

Lemma wf_priority s p it : limits_wf s -> (p, it) ∈ ordered (queue_ s) -> 0 <= p < num_priorities s.
Proof.
  intros Hs He. unfold ordered in He. apply entries_elem in He as [Hp _]. apply upward_elem in Hp.
  by rewrite (dw_num s Hs) in Hp.
Qed.

Lemma permitted_spec s p : reflect (num_running_jobs_ s < limit s p) (permitted s p).
Proof. apply Z.ltb_spec0. Qed.

(** The order is by decreasing priority. *)
Lemma later_is_lower q A p it B :
  wf q -> ordered q = A ++ (p, it) :: B -> Forall (fun e : Z * Node Job => e.1 <= p) B.
Proof.
  intros Hq H. destruct (position q A B p it Hq H) as (hi & l1 & l2 & HA & Hl & Hp & HB & _ & _).
  apply Forall_forall. intros e He. rewrite HB in He. apply elem_of_app in He as [He|He].
  - apply list_elem_of_In, in_map_iff in He as (n & <- & _). done.
  - destruct e as [p' n]. apply entries_elem in He as [He _]. cbn.
    apply list_elem_of_In in He. rewrite <- in_rev in He. apply in_map_iff in He as (k & <- & Hk). apply in_seq in Hk. lia.
Qed.

(** The first of the lowest priority, in a list by decreasing priority. *)
Lemma head_of_lowest (l : list (Z * Node Job)) :
  (forall A p it B, l = A ++ (p, it) :: B -> Forall (fun e : Z * Node Job => e.1 <= p) B) -> l <> [] ->
  exists A p it B, l = A ++ (p, it) :: B /\ head (lowest l) = Some (p, it) /\
    Forall (fun e => p < e.1) A /\ Forall (fun e => e.1 = p) B.
Proof.
  induction l as [|[p it] l IH]; [done|]. intros Hs _. destruct (decide (l = [])) as [->|Hl].
  - exists [], p, it, []. refine (conj eq_refl (conj _ (conj _ _))); [|by constructor|by constructor].
    unfold lowest. cbn [last]. by rewrite filter_cons_True.
  - destruct IH as (A & p' & it' & B & E & Hh & HA & HB); [|done|].
    { intros A p' it' B E. apply (Hs ((p, it) :: A) p' it' B). by rewrite E. }
    assert (Hlast : exists e, last l = Some e /\ e.1 = p').
    { subst l. rewrite last_app_cons. destruct B as [|b B] using rev_ind; [by exists (p', it')|].
      exists b. rewrite app_comm_cons, last_snoc. split; [done|]. apply Forall_app in HB as [_ HB]. by apply Forall_cons in HB as [HB _]. }
    destruct Hlast as (e & Hlast & He). unfold lowest in *. rewrite Hlast in Hh.
    replace (last ((p, it) :: l)) with (Some e) by (destruct l; [done|by rewrite <- Hlast]).
    pose proof (Hs [] p it l eq_refl) as Hle. rewrite He in *.
    assert (p' <= p) by (rewrite E in Hle; apply Forall_app in Hle as [_ Hle]; by apply Forall_cons in Hle as [Hle _]).
    destruct (decide (p = p')) as [->|Hne].
    + exists [], p', it, l. refine (conj eq_refl (conj _ (conj _ _))); [by rewrite filter_cons_True|constructor|].
      rewrite E. destruct A as [|x A]; [by constructor|]. exfalso. rewrite E in Hle. apply Forall_cons in HA as [HA _].
      apply Forall_cons in Hle as [Hle _]. lia.
    + exists ((p, it) :: A), p', it', B. rewrite filter_cons_False by (cbn; lia). refine (conj _ (conj Hh (conj _ HB))).
      * by rewrite E.
      * constructor; [cbn; lia|done].
Qed.

Lemma elem_of_around {A} (P Q : A -> Prop) `{forall x, Decision (P x)} `{forall x, Decision (Q x)} (l : list A) x e :
  e ∈ filter P l ++ x :: filter Q l -> e = x \/ e ∈ l.
Proof.
  intros He. apply elem_of_app in He as [He|He]; [right; by apply list_elem_of_filter in He as [_ He]|].
  apply elem_of_cons in He as [->|He]; [by left|right; by apply list_elem_of_filter in He as [_ He]].
Qed.

Lemma passes_mono {A} (r : option A) (Q Q' : A -> Prop) : (forall a, Q a -> Q' a) -> passes r Q -> passes r Q'.
Proof. destruct r; cbn; eauto. Qed.

Section operations.
Variable Start : Job -> PrioritizedDispatcher Job -> option (PrioritizedDispatcher Job).

(** ** Operations that start no job *)
Lemma Cancel_spec s A B p it :
  dispatcher_wf s -> ordered (queue_ s) = A ++ (p, it) :: B ->
  exists s', Cancel (new_Pointer p it) s = Some s' /\ dispatcher_wf s' /\ ordered (queue_ s') = A ++ B /\
    max_running_jobs_ s' = max_running_jobs_ s /\ num_running_jobs_ s' = num_running_jobs_ s.
Proof.
  intros [Hs Hw] H. destruct (Erase_spec (queue_ s) A B p it (dw_queue s Hs) H) as (q & E & Hq & Hn & _ & Ho).
  unfold Cancel. rewrite E. cbn [mbind option_bind]. exists (with_queue s q (num_running_jobs_ s)).
  refine (conj eq_refl (conj (conj _ _) (conj Ho (conj eq_refl eq_refl)))).
  - apply with_queue_wf; [done|done|by rewrite Hn, (dw_num s Hs)|apply Hs].
  - intros p' it' He. cbn in He |- *. rewrite Ho in He. apply (Hw p' it'). rewrite H. set_solver.
Qed.

(** A job that the limits do not permit joins the queue. *)
Lemma insert_wf s q p it :
  dispatcher_wf s -> ~ num_running_jobs_ s < limit s p -> wf q -> PriorityQueue.num_priorities q = num_priorities s ->
  (forall e, e ∈ ordered q -> e = (p, it) \/ e ∈ ordered (queue_ s)) ->
  dispatcher_wf (with_queue s q (num_running_jobs_ s)).
Proof.
  intros [Hs Hw] Hp Hq Hn Ho. split; [apply with_queue_wf; try done; apply Hs|].
  intros p' it' He. cbn in He |- *. destruct (Ho _ He) as [[= -> ->]|He']; [lia|by apply (Hw p' it')].
Qed.

(** ** Operations that may start a job *)
Lemma MaybeDispatchJob_spec s A B p it p' :
  limits_wf s -> ordered (queue_ s) = A ++ (p, it) :: B -> 0 <= p' < num_priorities s ->
  exists q, wf q /\ PriorityQueue.num_priorities q = num_priorities s /\ nodes q = nodes (queue_ s) /\ ordered q = A ++ B /\
    Erase (new_Pointer p it) (queue_ s) = Some q /\
    MaybeDispatchJob Start (new_Pointer p it) p' s =
      if permitted s p' then s' ← Start (value it) (with_queue s q (num_running_jobs_ s + 1)); Some (true, s')
      else Some (false, s).
Proof.
  intros Hs H Hp. destruct (Erase_spec (queue_ s) A B p it (dw_queue s Hs) H) as (q & E & Hq & Hn & Hnd & Ho).
  exists q. rewrite (dw_num s Hs) in Hn. split_and!; try done.
  unfold MaybeDispatchJob. rewrite (proj2 (Z.ltb_lt _ _)) by lia. cbn [DCHECK mbind option_bind].
  destruct (permitted_spec s p') as [Hpp|Hpp]; cbn [negb]; [|done].
  rewrite (value_of_spec (queue_ s) A B p it (dw_queue s Hs) H), E. cbn [mbind option_bind].
  pose proof (dw_range s Hs p' Hp). pose proof (dw_running s Hs).
  unfold setter. cbn. rewrite wrap_u_id by (split; lia). reflexivity.
Qed.

Lemma head_pointer s : limits_wf s -> FirstMax (queue_ s) = pointer_to (head (ordered (queue_ s))).
Proof. intros _. apply ends_spec. Qed.

Lemma not_null s p it : limits_wf s -> (p, it) ∈ ordered (queue_ s) -> is_null (new_Pointer p it) = false.
Proof.
  intros Hs He. pose proof (wf_priority s p it Hs He). pose proof (wf_lists _ (dw_queue s Hs)). rewrite (dw_num s Hs) in *.
  unfold is_null. cbn. apply Z.eqb_neq. lia.
Qed.

(** The next job is the head of the queue. *)
Lemma MaybeDispatchNextJob_spec s :
  limits_wf s ->
  match ordered (queue_ s) with
  | (p, it) :: B =>
      exists q, wf q /\ PriorityQueue.num_priorities q = num_priorities s /\ nodes q = nodes (queue_ s) /\ ordered q = B /\
        MaybeDispatchNextJob Start s =
          if permitted s p then s' ← Start (value it) (with_queue s q (num_running_jobs_ s + 1)); Some (true, s')
          else Some (false, s)
  | [] => MaybeDispatchNextJob Start s = Some (false, s)
  end.
Proof.
  intros Hs. unfold MaybeDispatchNextJob. rewrite (head_pointer s Hs).
  destruct (ordered (queue_ s)) as [|[p it] B] eqn:E; cbn [head pointer_to].
  - change (is_null null) with true. cbn beta iota. rewrite (wf_size _ (dw_queue s Hs)), E. done.
  - assert (Hin : (p, it) ∈ ordered (queue_ s)) by (rewrite E; set_solver).
    rewrite (not_null s p it Hs Hin). cbn [priority_ new_Pointer].
    destruct (MaybeDispatchJob_spec s [] B p it p Hs E (wf_priority s p it Hs Hin)) as (q & Hq & Hn & Hnd & Ho & _ & Hd).
    exists q. split_and!; done.
Qed.

(** If the head of the queue may not start, nobody may. *)
Lemma head_waits s p it B :
  limits_wf s -> ordered (queue_ s) = (p, it) :: B -> ~ num_running_jobs_ s < limit s p -> none_permitted s.
Proof.
  intros Hs E Hl p' it' He. transitivity (limit s p); [|lia]. pose proof (wf_priority s p' it' Hs He) as Hp'.
  assert (Hin : (p, it) ∈ ordered (queue_ s)) by (rewrite E; set_solver).
  apply (dw_mono s Hs); [split; [lia|]|apply (wf_priority s p it Hs Hin)].
  rewrite E in He. apply elem_of_cons in He as [[= -> ->]|He]; [lia|].
  pose proof (later_is_lower (queue_ s) [] p it B (dw_queue s Hs) E) as HB. rewrite Forall_forall in HB. by apply (HB (p', it')).
Qed.

(** The job is started with one more job running, and before anything else
    happens; no handle is left of it. *)
Definition started (job : Job) s (q : PriorityQueue Job) : option (Pointer * PrioritizedDispatcher Job) :=
  s' ← Start job (with_queue s q (num_running_jobs_ s + 1)); Some (null, s').

Lemma Add_starts s job p :
  dispatcher_wf s -> 0 <= p < num_priorities s -> permitted s p = true ->
  Add Start job p s = started job s (queue_ s) /\ AddAtHead Start job p s = started job s (queue_ s).
Proof.
  intros [Hs _] Hp Hpp. pose proof (dw_range s Hs p Hp). pose proof (dw_running s Hs).
  unfold Add, AddAtHead. rewrite Hpp, (proj2 (Z.ltb_lt p (num_priorities s))) by lia. cbn [DCHECK mbind option_bind].
  destruct (permitted_spec s p) as [Hl|]; [|done]. unfold setter. rewrite wrap_u_id by (split; lia). by split.
Qed.

Lemma ChangePriority_starts s A B p it p' :
  dispatcher_wf s -> ordered (queue_ s) = A ++ (p, it) :: B -> 0 <= p' < num_priorities s -> p <> p' -> permitted s p' = true ->
  exists q, ordered q = A ++ B /\ ChangePriority Start (new_Pointer p it) p' s = started (value it) s q.
Proof.
  intros [Hs Hw] H Hp' Hne Hpp. assert (Hin : (p, it) ∈ ordered (queue_ s)) by (rewrite H; set_solver).
  destruct (MaybeDispatchJob_spec s A B p it p' Hs H Hp') as (q & _ & _ & _ & Ho & _ & E). exists q. split; [exact Ho|].
  unfold ChangePriority. rewrite (not_null s p it Hs Hin), (proj2 (Z.ltb_lt _ _)) by lia.
  cbn [DCHECK negb mbind option_bind priority_ new_Pointer].
  destruct (permitted_spec s p) as [Hl|_]; [specialize (Hw p it Hin); lia|]. cbn [DCHECK negb mbind option_bind].
  rewrite (proj2 (Z.eqb_neq p p') Hne). change (mkPointer p (node it) (id it)) with (new_Pointer p it). rewrite E, Hpp.
  unfold started. by destruct (Start _ _).
Qed.

(** [ready s] holds of a state in which the dispatcher starts [job]:
    the state is in order, and the job counts as running. *)
Definition ready s : Prop := dispatcher_wf s /\ 0 < num_running_jobs_ s.

(** What the dispatcher asks of a job: that its [Start] leaves the dispatcher
    in order. That it does when it keeps to the methods of the dispatcher and
    to good handles is shown below ([starts_wf]). *)
Hypothesis Start_wf : forall job s, ready s -> passes (Start job s) dispatcher_wf.

Lemma start_more s q running job :
  limits_wf s -> wf q -> PriorityQueue.num_priorities q = num_priorities s -> 0 <= running < 18446744073709551615 ->
  none_permitted (with_queue s q (running + 1)) ->
  passes (Start job (with_queue s q (running + 1))) dispatcher_wf.
Proof.
  intros Hs Hq Hn Hr Hw. apply Start_wf. split; [split; [apply with_queue_wf; [done|done|done|lia]|done]|cbn; lia].
Qed.

Lemma running_bound s p : limits_wf s -> 0 <= p < num_priorities s -> num_running_jobs_ s < limit s p ->
  0 <= num_running_jobs_ s < 18446744073709551615.
Proof. intros Hs Hp Hl. pose proof (dw_range s Hs p Hp). pose proof (dw_running s Hs). lia. Qed.

Lemma none_permitted_more s q :
  none_permitted s -> (forall e, e ∈ ordered q -> e ∈ ordered (queue_ s)) ->
  none_permitted (with_queue s q (num_running_jobs_ s + 1)).
Proof. intros Hw Ho p it He. cbn in He |- *. specialize (Hw p it (Ho _ He)). lia. Qed.

(** Both ways to add a job. *)
Lemma add_start s job p :
  dispatcher_wf s -> 0 <= p < num_priorities s -> permitted s p = true ->
  passes (Start job (with_queue s (queue_ s) (num_running_jobs_ s + 1))) dispatcher_wf.
Proof.
  intros [Hs Hw] Hp Hpp. destruct (permitted_spec s p) as [Hl|]; [|done].
  apply start_more; [done|apply Hs|apply Hs|by apply (running_bound s p)|by apply none_permitted_more].
Qed.

Lemma add_either_spec s job p ins it q :
  dispatcher_wf s -> 0 <= p < num_priorities s -> ins = Some (new_Pointer p it, q) -> wf q ->
  PriorityQueue.num_priorities q = PriorityQueue.num_priorities (queue_ s) ->
  (forall e, e ∈ ordered q -> e = (p, it) \/ e ∈ ordered (queue_ s)) ->
  passes (DCHECK (p <? num_priorities s) ;;
    if permitted s p then
      let s := s <| num_running_jobs_ := u64 (num_running_jobs_ s + 1) |> in
      s ← Start job s; Some (null, s)
    else '(handle, q) ← ins; Some (handle, s <| queue_ := q |>))
   (fun '(handle, s') => dispatcher_wf s' /\
      if permitted s p then handle = null
      else handle = new_Pointer p it /\ s' = with_queue s q (num_running_jobs_ s)).
Proof.
  intros Hd Hp Hins Hq Hn Ho. pose proof Hd as [Hs Hw]. rewrite (proj2 (Z.ltb_lt _ _)) by lia. cbn [DCHECK mbind option_bind].
  destruct (permitted s p) eqn:Hpp; cbn zeta.
  - pose proof (add_start s job p Hd Hp Hpp) as HS. pose proof (dw_range s Hs p Hp). pose proof (dw_running s Hs).
    destruct (permitted_spec s p) as [Hl|]; [|done].
    unfold setter. rewrite wrap_u_id by (split; lia).
    change (mkPrioritizedDispatcher (queue_ s) (max_running_jobs_ s) (num_running_jobs_ s + 1)) with (with_queue s (queue_ s) (num_running_jobs_ s + 1)).
    apply passes_bind. destruct (Start _ _); [|done]. cbn in *. done.
  - rewrite Hins. cbn [mbind option_bind passes]. refine (conj _ (conj eq_refl eq_refl)).
    destruct (permitted_spec s p) as [|Hl]; [done|].
    apply (insert_wf s q p it); [done|done|done|by rewrite Hn, (dw_num s Hs)|done].
Qed.

Lemma Dispatcher_Add_spec s job p :
  dispatcher_wf s -> 0 <= p < num_priorities s -> nodes (queue_ s) < 4294967296 ->
  passes (Add Start job p s) (fun '(handle, s') => dispatcher_wf s' /\
    if permitted s p then handle = null
    else let it := mkNode (nodes (queue_ s)) (next_id_ (queue_ s)) job in exists q,
      handle = new_Pointer p it /\ s' = with_queue s q (num_running_jobs_ s) /\
      ordered q = at_least p (ordered (queue_ s)) ++ (p, it) :: less_than p (ordered (queue_ s))).
Proof.
  intros Hd Hp Hnd. pose proof Hd as [Hs Hw].
  destruct (Insert_spec job p (queue_ s) (dw_queue s Hs) ltac:(rewrite (dw_num s Hs); lia) Hnd) as (q & E & Hq & Hn & _ & Ho).
  assert (Hsub : forall e, e ∈ ordered q -> e = (p, mkNode (nodes (queue_ s)) (next_id_ (queue_ s)) job) \/ e ∈ ordered (queue_ s)).
  { intros e He. rewrite Ho in He. exact (elem_of_around _ _ _ _ _ He). }
  refine (passes_mono _ _ _ _ (add_either_spec s job p _ _ q Hd Hp E Hq Hn Hsub)). intros [handle s'] [Hd' H]. split; [exact Hd'|].
  destruct (permitted s p); [exact H|]. exists q. destruct H as [-> ->]. exact (conj eq_refl (conj eq_refl Ho)).
Qed.

Lemma AddAtHead_spec s job p :
  dispatcher_wf s -> 0 <= p < num_priorities s -> nodes (queue_ s) < 4294967296 ->
  passes (AddAtHead Start job p s) (fun '(handle, s') => dispatcher_wf s' /\
    if permitted s p then handle = null
    else let it := mkNode (nodes (queue_ s)) (next_id_ (queue_ s)) job in exists q,
      handle = new_Pointer p it /\ s' = with_queue s q (num_running_jobs_ s) /\
      ordered q = more_than p (ordered (queue_ s)) ++ (p, it) :: at_most p (ordered (queue_ s))).
Proof.
  intros Hd Hp Hnd. pose proof Hd as [Hs Hw].
  destruct (InsertAtFront_spec job p (queue_ s) (dw_queue s Hs) ltac:(rewrite (dw_num s Hs); lia) Hnd) as (q & E & Hq & Hn & _ & Ho).
  assert (Hsub : forall e, e ∈ ordered q -> e = (p, mkNode (nodes (queue_ s)) (next_id_ (queue_ s)) job) \/ e ∈ ordered (queue_ s)).
  { intros e He. rewrite Ho in He. exact (elem_of_around _ _ _ _ _ He). }
  refine (passes_mono _ _ _ _ (add_either_spec s job p _ _ q Hd Hp E Hq Hn Hsub)). intros [handle s'] [Hd' H]. split; [exact Hd'|].
  destruct (permitted s p); [exact H|]. exists q. destruct H as [-> ->]. exact (conj eq_refl (conj eq_refl Ho)).
Qed.

(** A job whose priority changes starts if the new priority permits it, and
    otherwise goes behind its equals. *)
Lemma ChangePriority_spec s A B p it p' :
  dispatcher_wf s -> ordered (queue_ s) = A ++ (p, it) :: B -> 0 <= p' < num_priorities s -> nodes (queue_ s) < 4294967296 ->
  passes (ChangePriority Start (new_Pointer p it) p' s) (fun '(handle, s') => dispatcher_wf s' /\
    if p =? p' then handle = new_Pointer p it /\ s' = s
    else if permitted s p' then handle = null
    else exists it' q, value it' = value it /\ handle = new_Pointer p' it' /\ s' = with_queue s q (num_running_jobs_ s) /\
      ordered q = at_least p' (A ++ B) ++ (p', it') :: less_than p' (A ++ B)).
Proof.
  intros Hd H Hp' Hnd. pose proof Hd as [Hs Hw].
  assert (Hin : (p, it) ∈ ordered (queue_ s)) by (rewrite H; set_solver).
  unfold ChangePriority. rewrite (not_null s p it Hs Hin), (proj2 (Z.ltb_lt _ _)) by lia.
  cbn [DCHECK negb mbind option_bind priority_ new_Pointer].
  destruct (permitted_spec s p) as [Hl|_]; [specialize (Hw p it Hin); lia|]. cbn [DCHECK negb mbind option_bind].
  case_if; [by apply Z.eqb_eq in Heqb; subst|]. change (mkPointer p (node it) (id it)) with (new_Pointer p it).
  destruct (MaybeDispatchJob_spec s A B p it p' Hs H Hp') as (q & Hq & Hn & Hnq & Ho & E & ->).
  destruct (permitted_spec s p') as [Hl|Hl].
  - apply passes_bind, passes_bind.
    assert (HS : passes (Start (value it) (with_queue s q (num_running_jobs_ s + 1))) dispatcher_wf).
    { apply start_more; [done|done|done|by apply (running_bound s p')|].
      apply none_permitted_more; [done|]. intros e He. rewrite H. rewrite Ho in He. set_solver. }
    destruct (Start _ _) as [s'|]; [|done]. cbn in *. done.
  - cbn [mbind option_bind]. rewrite (value_of_spec _ A B p it (dw_queue s Hs) H), E. cbn [mbind option_bind].
    destruct (Insert_spec (value it) p' q Hq ltac:(rewrite Hn; lia) ltac:(rewrite Hnq; lia)) as (q' & E' & Hq' & Hn' & _ & Ho').
    rewrite E'. cbn [mbind option_bind passes]. split.
    + apply (insert_wf s q' p' (mkNode (nodes q) (next_id_ q) (value it))); [done|done|done|by rewrite Hn', Hn|].
      intros e He. rewrite Ho' in He. rewrite H.
      destruct (elem_of_around _ _ _ _ _ He) as [->|He']; [by left|right]. rewrite Ho in He'. set_solver.
    + eexists _, q'. rewrite <- Ho. refine (conj _ (conj eq_refl (conj eq_refl Ho'))). done.
Qed.

(** The job that is evicted is the first of the lowest priority. *)
Lemma EvictOldestLowest_spec s :
  dispatcher_wf s ->
  passes (EvictOldestLowest s) (fun '(job, s') => dispatcher_wf s' /\
    match job with
    | None => ordered (queue_ s) = [] /\ s' = s
    | Some job => exists A p it B, ordered (queue_ s) = A ++ (p, it) :: B /\ job = value it /\
        Forall (fun e => p < e.1) A /\ Forall (fun e => e.1 = p) B /\ ordered (queue_ s') = A ++ B
    end).
Proof.
  intros Hd. pose proof Hd as [Hs Hw]. unfold EvictOldestLowest.
  destruct (ends_spec (queue_ s)) as (_ & _ & -> & _).
  destruct (decide (ordered (queue_ s) = [])) as [E|E].
  - rewrite E. cbn. done.
  - destruct (head_of_lowest (ordered (queue_ s))) as (A & p & it & B & H & -> & HA & HB); [|done|].
    { intros A p it B. apply later_is_lower, Hs. }
    assert (Hin : (p, it) ∈ ordered (queue_ s)) by (rewrite H; set_solver).
    cbn [pointer_to]. rewrite (not_null s p it Hs Hin), (value_of_spec _ A B p it (dw_queue s Hs) H). cbn [mbind option_bind].
    destruct (Cancel_spec s A B p it Hd H) as (s' & -> & Hd' & Ho & _). cbn [mbind option_bind passes].
    split; [exact Hd'|]. exists A, p, it, B. done.
Qed.

Lemma less_running_wf s : limits_wf s -> 0 < num_running_jobs_ s ->
  limits_wf (with_queue s (queue_ s) (num_running_jobs_ s - 1)).
Proof. intros Hs Hr. pose proof (dw_running s Hs). apply with_queue_wf; [done|apply Hs|apply Hs|lia]. Qed.

(** A job that finishes gives its place to the head of the queue, if the
    limits of that priority permit. *)
Lemma OnJobFinished_spec s :
  dispatcher_wf s -> 0 < num_running_jobs_ s ->
  passes (OnJobFinished Start s) dispatcher_wf /\
  match ordered (queue_ s) with
  | (p, it) :: B =>
      if num_running_jobs_ s - 1 <? limit s p
      then exists q, ordered q = B /\ OnJobFinished Start s = Start (value it) (with_queue s q (num_running_jobs_ s))
      else OnJobFinished Start s = Some (with_queue s (queue_ s) (num_running_jobs_ s - 1))
  | [] => OnJobFinished Start s = Some (with_queue s (queue_ s) (num_running_jobs_ s - 1))
  end.
Proof.
  intros [Hs Hw] Hr. pose proof (less_running_wf s Hs Hr) as Hs1. pose proof (dw_running s Hs).
  unfold OnJobFinished. rewrite (proj2 (Z.ltb_lt _ _)) by lia. cbn [DCHECK mbind option_bind].
  unfold setter. rewrite wrap_u_id by (split; lia). cbn zeta.
  change (mkPrioritizedDispatcher (queue_ s) (max_running_jobs_ s) (num_running_jobs_ s - 1)) with
    (with_queue s (queue_ s) (num_running_jobs_ s - 1)).
  set (s1 := with_queue s (queue_ s) (num_running_jobs_ s - 1)) in *.
  pose proof (MaybeDispatchNextJob_spec s1 Hs1) as HD. change (queue_ s1) with (queue_ s) in HD.
  destruct (ordered (queue_ s)) as [|[p it] B] eqn:E.
  - rewrite HD. cbn [mbind option_bind passes]. split; [|done]. split; [exact Hs1|].
    intros p it He. cbn in He. rewrite E in He. set_solver.
  - destruct HD as (q & Hq & Hn & _ & Ho & ->). change (permitted s1 p) with (num_running_jobs_ s - 1 <? limit s p).
    destruct (Z.ltb_spec (num_running_jobs_ s - 1) (limit s p)) as [Hl|Hl].
    + change (num_running_jobs_ s1) with (num_running_jobs_ s - 1). replace (num_running_jobs_ s - 1 + 1) with (num_running_jobs_ s) by lia.
      change (with_queue s1 q (num_running_jobs_ s)) with (with_queue s q (num_running_jobs_ s)).
      assert (HS : passes (Start (value it) (with_queue s q (num_running_jobs_ s))) dispatcher_wf).
      { apply Start_wf. split; [split|done]; [apply with_queue_wf; [done|done|exact Hn|lia]|].
        intros p' it' He. cbn in He |- *. rewrite Ho in He. apply (Hw p' it'). rewrite E. set_solver. }
      destruct (Start _ _) as [s'|] eqn:ES; [|done]. cbn [mbind option_bind passes] in *. split; [done|]. exists q. by rewrite ES.
    + cbn [mbind option_bind passes]. split; [|done]. split; [exact Hs1|].
      apply (head_waits s1 p it B Hs1 E). cbn. lia.
Qed.
End operations.

(** ** What jobs do when they are started

    A job may call the dispatcher, and call it again after it has seen what
    came of that. A good handle is that of a job in the queue, so a call names
    one by its place in the line. (The calls of SetLimits are not among these:
    see [change_during_SetLimits_fails].) *)
Inductive call :=
  | CallAdd (job : Job) (p : Z)
  | CallAddAtHead (job : Job) (p : Z)
  | CallCancel (place : nat)
  | CallChangePriority (place : nat) (p : Z)
  | CallEvictOldestLowest
  | CallOnJobFinished.

Inductive script :=
  | Stop
  | Call (c : call) (rest : PrioritizedDispatcher Job -> script).

(** What the comments of the methods ask of a call: a priority that there is, a
    job that runs; and there is memory for one more node. *)
Definition allowed (c : call) s : bool :=
  match c with
  | CallAdd _ p | CallAddAtHead _ p | CallChangePriority _ p =>
      (0 <=? p) && (p <? num_priorities s) && (nodes (queue_ s) <? 4294967296)
  | CallCancel _ | CallEvictOldestLowest => true
  | CallOnJobFinished => 0 <? num_running_jobs_ s
  end.

Definition make_call (Start : Job -> PrioritizedDispatcher Job -> option (PrioritizedDispatcher Job)) (c : call) s :
    option (PrioritizedDispatcher Job) :=
  match c with
  | CallAdd job p => snd <$> Add Start job p s
  | CallAddAtHead job p => snd <$> AddAtHead Start job p s
  | CallCancel place =>
      match ordered (queue_ s) !! place with Some (p, it) => Cancel (new_Pointer p it) s | None => Some s end
  | CallChangePriority place p' =>
      match ordered (queue_ s) !! place with
      | Some (p, it) => snd <$> ChangePriority Start (new_Pointer p it) p' s
      | None => Some s
      end
  | CallEvictOldestLowest => snd <$> EvictOldestLowest s
  | CallOnJobFinished => OnJobFinished Start s
  end.

Fixpoint run (Start : Job -> PrioritizedDispatcher Job -> option (PrioritizedDispatcher Job)) (t : script) s :
    option (PrioritizedDispatcher Job) :=
  match t with
  | Stop => Some s
  | Call c rest => if allowed c s then s' ← make_call Start c s; run Start (rest s') s' else Some s
  end.

(** The jobs that a job starts are started within its own [Start], and so on
    down to some depth, where the jobs call nothing. *)
Fixpoint starts (behaviour : Job -> PrioritizedDispatcher Job -> script) (depth : nat) (job : Job) s :
    option (PrioritizedDispatcher Job) :=
  match depth with
  | O => Some s
  | S depth => run (starts behaviour depth) (behaviour job s) s
  end.

Lemma passes_snd {A B} (r : option (A * B)) (Q : B -> Prop) (Q' : A * B -> Prop) :
  (forall a b, Q' (a, b) -> Q b) -> passes r Q' -> passes (snd <$> r) Q.
Proof. intros HQ. destruct r as [[a b]|]; [apply HQ|done]. Qed.

Lemma make_call_wf Start c s :
  (forall job s, ready s -> passes (Start job s) dispatcher_wf) ->
  dispatcher_wf s -> allowed c s = true -> passes (make_call Start c s) dispatcher_wf.
Proof.
  intros HStart Hd Hc. destruct c; cbn [make_call allowed] in *; to_prop.
  - eapply passes_snd; [|apply (Dispatcher_Add_spec Start HStart s job p Hd); lia]. intros ? ? [Hwf _]. exact Hwf.
  - eapply passes_snd; [|apply (AddAtHead_spec Start HStart s job p Hd); lia]. intros ? ? [Hwf _]. exact Hwf.
  - destruct (ordered (queue_ s) !! place) as [[p it]|] eqn:E; [|exact Hd].
    apply list_elem_of_split_length in E as (A & B & E & _). destruct (Cancel_spec s A B p it Hd E) as (s' & -> & Hd' & _). exact Hd'.
  - destruct (ordered (queue_ s) !! place) as [[p' it]|] eqn:E; [|exact Hd].
    apply list_elem_of_split_length in E as (A & B & E & _).
    eapply passes_snd; [|apply (ChangePriority_spec Start HStart s A B p' it p Hd E); lia]. intros ? ? [Hwf _]. exact Hwf.
  - eapply passes_snd; [|apply (EvictOldestLowest_spec Start HStart s Hd)]. intros ? ? [Hwf _]. exact Hwf.
  - apply (OnJobFinished_spec Start HStart s Hd). lia.
Qed.

Lemma run_wf Start t s :
  (forall job s, ready s -> passes (Start job s) dispatcher_wf) -> dispatcher_wf s -> passes (run Start t s) dispatcher_wf.
Proof.
  intros HStart. revert s. induction t as [|c rest IH]; intros s Hd; [exact Hd|]. cbn [run].
  destruct (allowed c s) eqn:Hc; [|exact Hd]. pose proof (make_call_wf Start c s HStart Hd Hc) as Hs'.
  destruct (make_call Start c s) as [s'|]; [|done]. by apply IH.
Qed.

Lemma starts_wf behaviour depth job s : ready s -> passes (starts behaviour depth job s) dispatcher_wf.
Proof.
  revert job s. induction depth as [|depth IH]; intros job s [Hd _]; [exact Hd|]. by apply run_wf.
Qed.

(** ** Limits *)

(** A job that does not call the dispatcher when it is started. *)
Definition quiet : Job -> PrioritizedDispatcher Job -> option (PrioritizedDispatcher Job) := fun _ s => Some s.

Lemma dispatch_loop_spec fuel s :
    limits_wf s -> (length (ordered (queue_ s)) < fuel)%nat ->
    exists (k : nat) s', dispatch_loop quiet fuel s = Ok s' /\ dispatcher_wf s' /\
      max_running_jobs_ s' = max_running_jobs_ s /\ ordered (queue_ s') = drop k (ordered (queue_ s)) /\
      num_running_jobs_ s' = num_running_jobs_ s + Z.of_nat k /\
      forall i e, (i < k)%nat -> ordered (queue_ s) !! i = Some e -> num_running_jobs_ s + Z.of_nat i < limit s e.1.
Proof.
    revert s. induction fuel as [|fuel IH]; intros s Hs Hf; [lia|]. cbn [dispatch_loop].
    pose proof (MaybeDispatchNextJob_spec quiet s Hs) as HD.
    assert (Hstop : none_permitted s -> exists (k : nat) s', (Ok s : res _) = Ok s' /\ dispatcher_wf s' /\
      max_running_jobs_ s' = max_running_jobs_ s /\ ordered (queue_ s') = drop k (ordered (queue_ s)) /\
      num_running_jobs_ s' = num_running_jobs_ s + Z.of_nat k /\
      forall i e, (i < k)%nat -> ordered (queue_ s) !! i = Some e -> num_running_jobs_ s + Z.of_nat i < limit s e.1).
    { intros Hw. exists O, s. refine (conj eq_refl (conj (conj Hs Hw) (conj eq_refl (conj eq_refl (conj _ _))))); [lia|]. intros i e Hi. lia. }
    destruct (ordered (queue_ s)) as [|[p it] B] eqn:E.
    - rewrite HD. apply Hstop. intros p it He. rewrite E in He. set_solver.
    - destruct HD as (q & Hq & Hn & _ & Ho & ->). destruct (permitted_spec s p) as [Hl|Hl].
      + cbn [quiet mbind option_bind checked res_bind].
        assert (Hin : (p, it) ∈ ordered (queue_ s)) by (rewrite E; set_solver).
        pose proof (running_bound s p Hs (wf_priority s p it Hs Hin) Hl) as Hb.
        destruct (IH (with_queue s q (num_running_jobs_ s + 1))) as (k & s' & HL & Hd & Hm & Ho' & Hr & Hk).
        { apply with_queue_wf; [done|done|done|lia]. }
        { cbn. rewrite Ho. cbn in Hf. lia. }
        exists (S k), s'. cbn in Hm, Ho', Hr, Hk. rewrite Ho in Ho'.
        refine (conj HL (conj Hd (conj Hm (conj Ho' (conj _ _))))); [lia|].
        intros [|i] e Hi He; cbn in He; [injection He as <-; cbn; lia|]. rewrite Ho in Hk. specialize (Hk i e ltac:(lia) He). lia.
      + cbn [mbind option_bind checked res_bind]. apply Hstop. by apply (head_waits s p it B).
Qed.

Fixpoint sum (l : list Z) : Z := match l with [] => 0 | x :: l => x + sum l end.

Lemma sum_nonneg l : Forall (fun x => 0 <= x) l -> 0 <= sum l.
Proof. induction 1; cbn; lia. Qed.

Lemma sum_app l1 l2 : sum (l1 ++ l2) = sum l1 + sum l2.
Proof. induction l1 as [|x l1 IH]; cbn; lia. Qed.

(** The running totals, and the last of them. *)
Lemma totals_spec t slots :
    Forall (fun x => 0 <= x) slots -> 0 <= t -> t + sum slots < 18446744073709551616 ->
    snd (totals t slots) = t + sum slots /\ length (fst (totals t slots)) = length slots /\
    forall i, (i < length slots)%nat -> fst (totals t slots) !! i = Some (t + sum (take (S i) slots)).
Proof.
    intros H. revert t. induction H as [|x slots Hx Hs IH]; intros t Ht Hsum; cbn in Hsum.
    - cbn. split; [lia|split; [done|lia]].
    - pose proof (sum_nonneg slots Hs). cbn [totals]. rewrite wrap_u_id by (split; lia).
      destruct (IH (t + x) ltac:(lia) ltac:(lia)) as (H1 & H2 & H3). destruct (totals (t + x) slots) as [rest last]. cbn in *.
      split; [lia|]. split; [lia|]. intros [|i] Hi; cbn; [rewrite take_0; cbn; f_equal; lia|]. rewrite H3 by lia. f_equal. cbn. lia.
Qed.

(** What the limits must satisfy, for some number of priorities. *)
Definition limits_ok (n : Z) (limits : Limits) : Prop :=
    zlen (reserved_slots limits) = n /\ 0 < n /\ Forall (fun x => 0 <= x) (reserved_slots limits) /\
    sum (reserved_slots limits) <= total_jobs limits < 18446744073709551616.

(** The slots that the higher priorities leave. *)
Definition limit_of (limits : Limits) (p : Z) : Z :=
    total_jobs limits - sum (drop (Z.to_nat p + 1) (reserved_slots limits)).

Lemma limit_of_mono limits i j :
    Forall (fun x => 0 <= x) (reserved_slots limits) -> 0 <= i <= j -> limit_of limits i <= limit_of limits j.
Proof.
    intros H Hij. unfold limit_of. set (l := reserved_slots limits) in *.
    pose proof (take_drop (Z.to_nat j - Z.to_nat i) (drop (Z.to_nat i + 1) l)) as E. rewrite drop_drop in E.
    replace (Z.to_nat i + 1 + (Z.to_nat j - Z.to_nat i))%nat with (Z.to_nat j + 1)%nat in E by lia.
    apply (f_equal sum) in E. rewrite sum_app in E. pose proof (sum_nonneg (take (Z.to_nat j - Z.to_nat i) (drop (Z.to_nat i + 1) l)) ltac:(by apply Forall_take, Forall_drop)). lia.
Qed.

Lemma limit_of_range limits i :
    Forall (fun x => 0 <= x) (reserved_slots limits) -> sum (reserved_slots limits) <= total_jobs limits ->
    0 <= limit_of limits i <= total_jobs limits.
Proof.
    intros H Hsum. unfold limit_of. set (l := reserved_slots limits) in *.
    pose proof (f_equal sum (take_drop (Z.to_nat i + 1) l)) as E. rewrite sum_app in E.
    pose proof (sum_nonneg _ (Forall_take _ (Z.to_nat i + 1) _ H)). pose proof (sum_nonneg _ (Forall_drop _ (Z.to_nat i + 1) _ H)). lia.
Qed.

(** The limits that SetLimits computes before it starts jobs. *)
Definition set_max s (m : list Z) : PrioritizedDispatcher Job := mkPrioritizedDispatcher (queue_ s) m (num_running_jobs_ s).

Lemma SetLimits_limits Start fuel limits s :
    limits_ok (PriorityQueue.num_priorities (queue_ s)) limits ->
    exists m, SetLimits Start fuel limits s = dispatch_loop Start fuel (set_max s m) /\
      zlen m = zlen (reserved_slots limits) /\ forall p, 0 <= p < zlen m -> at_ m p = limit_of limits p.
Proof.
    intros (Hn & Hpos & Hs & Hsum). pose proof (sum_nonneg _ Hs).
    destruct (totals_spec 0 (reserved_slots limits) Hs ltac:(lia) ltac:(lia)) as (H1 & H2 & H3).
    unfold SetLimits. rewrite (proj2 (Z.eqb_eq _ _)) by done. cbn [DCHECK checked mbind res_bind].
    destruct (totals 0 (reserved_slots limits)) as [m total]. cbn [fst snd] in *. subst total.
    rewrite (proj2 (Z.leb_le _ _)) by lia. cbn [DCHECK checked mbind res_bind].
    eexists. refine (conj eq_refl _). unfold zlen. rewrite length_map, H2. split; [done|]. intros p Hp.
    unfold at_. rewrite (proj2 (Z.ltb_ge _ _)) by lia. change (map ?f ?l) with (f <$> l).
    rewrite list_lookup_fmap, H3 by lia. cbn [fmap option_fmap option_map default from_option id].
    pose proof (limit_of_range limits p Hs ltac:(lia)) as Hr. unfold limit_of in *.
    pose proof (f_equal sum (take_drop (Z.to_nat p + 1) (reserved_slots limits))) as E. rewrite sum_app in E.
    replace (S (Z.to_nat p)) with (Z.to_nat p + 1)%nat by lia. cbn. rewrite (wrap_u_id 64 (total_jobs limits - _)) by (split; lia). rewrite wrap_u_id by (split; lia). lia.
Qed.

Lemma set_max_wf s m limits :
    wf (queue_ s) -> 0 <= num_running_jobs_ s < 18446744073709551616 ->
    limits_ok (PriorityQueue.num_priorities (queue_ s)) limits -> zlen m = zlen (reserved_slots limits) ->
    (forall p, 0 <= p < zlen m -> at_ m p = limit_of limits p) -> limits_wf (set_max s m).
Proof.
    intros Hq Hr (Hn & Hpos & Hs & Hsum) Hlen Hm. constructor; cbn; unfold num_priorities; cbn; try done; try lia.
    - intros i j Hij Hj. rewrite !Hm by lia. by apply limit_of_mono.
    - intros i Hi. rewrite Hm by lia. pose proof (limit_of_range limits i Hs ltac:(lia)). lia.
Qed.

(** The queue starts jobs from its head, as long as the new limits permit. *)
Lemma SetLimits_spec fuel limits s :
    limits_wf s -> limits_ok (num_priorities s) limits -> (length (ordered (queue_ s)) < fuel)%nat ->
    exists (k : nat) s', SetLimits quiet fuel limits s = Ok s' /\ dispatcher_wf s' /\
      num_priorities s' = num_priorities s /\
      (forall p, 0 <= p < num_priorities s -> limit s' p = limit_of limits p) /\
      ordered (queue_ s') = drop k (ordered (queue_ s)) /\
      num_running_jobs_ s' = num_running_jobs_ s + Z.of_nat k /\
      forall i e, (i < k)%nat -> ordered (queue_ s) !! i = Some e ->
        num_running_jobs_ s + Z.of_nat i < limit_of limits e.1.
Proof.
    intros Hs Hl Hf. pose proof (proj1 Hl) as Hlen. rewrite <- (dw_num s Hs) in Hl.
    destruct (SetLimits_limits quiet fuel limits s Hl) as (m & -> & Hm & Hat). rewrite Hlen in Hm.
    pose proof (set_max_wf s m limits (dw_queue s Hs) (dw_running s Hs) Hl ltac:(lia) Hat) as Hs'.
    destruct (dispatch_loop_spec fuel (set_max s m) Hs' Hf) as (k & s' & HL & Hd & Hmax & Ho & Hr & Hk).
    exists k, s'. refine (conj HL (conj Hd (conj _ (conj _ (conj Ho (conj Hr _)))))).
    - unfold num_priorities. rewrite Hmax. exact Hm.
    - intros p Hp. rewrite Hmax. apply Hat. lia.
    - intros i e Hi He. specialize (Hk i e Hi He). cbn in Hk. rewrite <- Hat; [exact Hk|].
      assert (Hin : e ∈ ordered (queue_ s)) by (apply list_elem_of_lookup; eauto). destruct e as [p it].
      pose proof (wf_priority s p it Hs Hin). cbn. lia.
Qed.

(** [GetLimits] gives limits that come to the same. *)
Lemma sum_differences (l : list Z) n :
    (n < length l)%nat -> (forall i, 0 < i < zlen l -> 0 <= at_ l i - at_ l (i - 1) < 18446744073709551616) ->
    sum (map (fun i => if i =? 0 then 0 else u64 (at_ l i - at_ l (i - 1))) (map Z.of_nat (seq 0 (S n)))) = at_ l (Z.of_nat n) - at_ l 0.
Proof.
    intros Hn Hl. induction n as [|n IH]; [change (0 + 0 = at_ l 0 - at_ l 0); lia|]. rewrite seq_S, !map_app, sum_app, IH by lia. cbn [map sum Nat.add].
    rewrite (proj2 (Z.eqb_neq _ _)) by lia. rewrite wrap_u_id by (apply Hl; unfold zlen; lia).
    replace (Z.of_nat (S n) - 1) with (Z.of_nat n) by lia. lia.
Qed.

Lemma take_seq k n : (k <= n)%nat -> take k (map Z.of_nat (seq 0 n)) = map Z.of_nat (seq 0 k).
Proof.
    intros Hk. replace n with (k + (n - k))%nat by lia. rewrite seq_app, map_app, take_app_le by (rewrite length_map, length_seq; lia).
    apply take_ge. rewrite length_map, length_seq. lia.
Qed.

Lemma GetLimits_spec s :
    limits_wf s -> limits_ok (num_priorities s) (GetLimits s) /\
    forall p, 0 <= p < num_priorities s -> limit_of (GetLimits s) p = limit s p.
Proof.
    intros Hs. set (n := length (max_running_jobs_ s)). set (l := max_running_jobs_ s) in *.
    pose proof (dw_some s Hs) as Hpos. assert (En : num_priorities s = Z.of_nat n) by done.
    assert (Hdiff : forall i, 0 < i < zlen l -> 0 <= at_ l i - at_ l (i - 1) < 18446744073709551616).
    { intros i Hi. pose proof (dw_mono s Hs (i - 1) i ltac:(lia) ltac:(exact (proj2 Hi))).
      pose proof (dw_range s Hs i ltac:(unfold num_priorities; fold l; lia)).
      pose proof (dw_range s Hs (i - 1) ltac:(unfold num_priorities; fold l; lia)). subst l. lia. }
    set (slots := reserved_slots (GetLimits s)).
    assert (Hlen : length slots = n) by (unfold slots, GetLimits; cbn; by rewrite !length_map, length_seq).
    assert (Hsum : forall k, (k < n)%nat -> sum (take (S k) slots) = at_ l (Z.of_nat k) - at_ l 0).
    { intros k Hk. unfold slots, GetLimits. cbn [reserved_slots]. rewrite firstn_map, take_seq by (fold l; fold n; lia).
      by apply sum_differences. }
    assert (Hall : sum slots = at_ l (zlen l - 1) - at_ l 0).
    { rewrite <- (take_ge slots n) by lia. replace n with (S (n - 1)) by lia. rewrite Hsum by lia. do 2 f_equal. unfold zlen. fold n. lia. }
    pose proof (dw_range s Hs 0 ltac:(lia)). pose proof (dw_range s Hs (zlen l - 1) ltac:(rewrite En; unfold zlen; fold n; lia)).
    split; [split_and!|].
    - fold slots. unfold zlen. by rewrite Hlen.
    - done.
    - apply List.Forall_forall. intros x Hx. unfold GetLimits in Hx. cbn [reserved_slots] in Hx. apply in_map_iff in Hx as (i & <- & _).
      case_if; [lia|]. apply wrap_u_range. lia.
    - fold slots. rewrite Hall. cbn [GetLimits total_jobs]. fold l. subst l. lia.
    - fold slots. cbn [GetLimits total_jobs]. fold l. subst l. lia.
    - intros p Hp. unfold limit_of. fold slots.
      pose proof (f_equal sum (take_drop (Z.to_nat p + 1) slots)) as E. rewrite sum_app, Hall in E.
      replace (Z.to_nat p + 1)%nat with (S (Z.to_nat p)) in * by lia. rewrite Hsum in E by lia.
      rewrite Z2Nat.id in E by lia. cbn [GetLimits total_jobs]. fold l. lia.
Qed.

Lemma at_ext (l1 l2 : list Z) : zlen l1 = zlen l2 -> (forall p, 0 <= p < zlen l1 -> at_ l1 p = at_ l2 p) -> l1 = l2.
Proof.
    intros Hlen H. apply list_eq_same_length with (n := length l1); [unfold zlen in Hlen; lia|done|].
    intros i x y Hi Hx Hy. specialize (H (Z.of_nat i) ltac:(unfold zlen; lia)). unfold at_ in H.
    rewrite (proj2 (Z.ltb_ge _ _)), Nat2Z.id, Hx, Hy in H by lia. exact H.
Qed.

Lemma SetLimits_GetLimits Start s : dispatcher_wf s -> SetLimits Start 1 (GetLimits s) s = Ok s.
Proof.
    intros [Hs Hw]. destruct (GetLimits_spec s Hs) as [Hok Hlim]. pose proof (proj1 Hok) as Hlen.
    rewrite <- (dw_num s Hs) in Hok. destruct (SetLimits_limits Start 1 _ s Hok) as (m & -> & Hm & Hat). rewrite Hlen in Hm.
    replace (set_max s m) with s.
    2: { destruct s as [q l r]. unfold set_max. cbn in *. f_equal. apply at_ext; [done|].
         intros p Hp. rewrite Hat by (rewrite Hm; exact Hp). symmetry. by apply Hlim. }
    cbn [dispatch_loop]. pose proof (MaybeDispatchNextJob_spec Start s Hs) as HD.
    destruct (ordered (queue_ s)) as [|[p it] B] eqn:E; [by rewrite HD|]. destruct HD as (q & _ & _ & _ & _ & ->).
    assert (Hin : (p, it) ∈ ordered (queue_ s)) by (rewrite E; set_solver).
    destruct (permitted_spec s p) as [Hl|]; [specialize (Hw p it Hin); lia|done].
Qed.

Lemma new_dispatcher_spec Start limits :
    limits_ok (zlen (reserved_slots limits)) limits -> zlen (reserved_slots limits) <= kNullPriority ->
    exists s, new_PrioritizedDispatcher Start limits = Ok s /\ dispatcher_wf s /\ ordered (queue_ s) = [] /\
      nodes (queue_ s) = 0 /\ num_running_jobs_ s = 0 /\ num_priorities s = zlen (reserved_slots limits) /\
      forall p, 0 <= p < num_priorities s -> limit s p = limit_of limits p.
Proof.
    intros Hok Hn. unfold new_PrioritizedDispatcher. set (n := zlen (reserved_slots limits)) in *.
    destruct (new_spec (T := Job) n ltac:(pose proof (zlen_nonneg (reserved_slots limits)); lia)) as (Hq & Hqn & Hnd & Ho).
    set (s0 := mkPrioritizedDispatcher _ _ _). assert (Hok' : limits_ok (PriorityQueue.num_priorities (queue_ s0)) limits) by (cbn; by rewrite Hqn).
    destruct (SetLimits_limits Start 1 limits s0 Hok') as (m & -> & Hm & Hat). exists (set_max s0 m).
    pose proof (set_max_wf s0 m limits Hq ltac:(cbn; lia) Hok' Hm Hat) as Hs.
    assert (Ho' : ordered (queue_ (set_max s0 m)) = []) by exact Ho.
    refine (conj _ (conj (conj Hs _) (conj Ho' (conj Hnd (conj eq_refl (conj Hm Hat)))))).
    - cbn [dispatch_loop]. pose proof (MaybeDispatchNextJob_spec Start (set_max s0 m) Hs) as HD. rewrite Ho' in HD. by rewrite HD.
    - intros p it He. rewrite Ho' in He. set_solver.
Qed.
End properties.

(** C16. No job waits that the limits permit to start, and no check fails, also
    when the jobs call the dispatcher from Start: Add, AddAtHead, Cancel,
    ChangePriority, EvictOldestLowest and OnJobFinished, in any order, with the
    handles of queued jobs, and with jobs that do the same, to any depth. Each
    operation leaves a dispatcher like that behind. A job that is added starts
    at once if the limits of its priority permit: Add comes to the call of its
    Start, with one more job running, and to no handle. Otherwise it takes its
    place in the order, behind its equals or, AddAtHead, before them. Cancel
    takes out that job and no other. The job evicted is the first of the lowest
    priority. A job whose priority changes is taken out and started if the new
    one permits, keeps its handle if it is the old one, and otherwise goes
    behind its new equals. When a job finishes, the head of the queue is
    started if its limits permit, and the rest keeps its order. *)
Theorem no_permitted_job_waits (Job : Type) (behaviour : Job -> PrioritizedDispatcher Job -> script) (depth : nat) :
  let Start := starts behaviour depth in
  forall s, dispatcher_wf s ->
    (forall job p, 0 <= p < num_priorities s -> nodes (queue_ s) < 4294967296 ->
       let it := mkNode (nodes (queue_ s)) (next_id_ (queue_ s)) job in
       (permitted s p = true ->
          Add Start job p s = started Start job s (queue_ s) /\ AddAtHead Start job p s = started Start job s (queue_ s)) /\
       passes (Add Start job p s) (fun '(handle, s') => dispatcher_wf s' /\
         if permitted s p then handle = null
         else exists q, handle = new_Pointer p it /\ s' = with_queue s q (num_running_jobs_ s) /\
           ordered q = at_least p (ordered (queue_ s)) ++ (p, it) :: less_than p (ordered (queue_ s))) /\
       passes (AddAtHead Start job p s) (fun '(handle, s') => dispatcher_wf s' /\
         if permitted s p then handle = null
         else exists q, handle = new_Pointer p it /\ s' = with_queue s q (num_running_jobs_ s) /\
           ordered q = more_than p (ordered (queue_ s)) ++ (p, it) :: at_most p (ordered (queue_ s)))) /\
    (forall A B p it, ordered (queue_ s) = A ++ (p, it) :: B ->
       passes (Cancel (new_Pointer p it) s) (fun s' => dispatcher_wf s' /\ ordered (queue_ s') = A ++ B) /\
       forall p', 0 <= p' < num_priorities s -> nodes (queue_ s) < 4294967296 ->
         passes (ChangePriority Start (new_Pointer p it) p' s) (fun '(handle, s') => dispatcher_wf s' /\
           if p =? p' then handle = new_Pointer p it /\ s' = s
           else if permitted s p' then handle = null
           else exists it' q, value it' = value it /\ handle = new_Pointer p' it' /\
             s' = with_queue s q (num_running_jobs_ s) /\
             ordered q = at_least p' (A ++ B) ++ (p', it') :: less_than p' (A ++ B)) /\
         (p <> p' -> permitted s p' = true ->
           exists q, ordered q = A ++ B /\ ChangePriority Start (new_Pointer p it) p' s = started Start (value it) s q)) /\
    passes (EvictOldestLowest s) (fun '(job, s') => dispatcher_wf s' /\
      match job with
      | None => ordered (queue_ s) = [] /\ s' = s
      | Some job => exists A p it B, ordered (queue_ s) = A ++ (p, it) :: B /\ job = value it /\
          Forall (fun e => p < e.1) A /\ Forall (fun e => e.1 = p) B /\ ordered (queue_ s') = A ++ B
      end) /\
    (0 < num_running_jobs_ s ->
       passes (OnJobFinished Start s) dispatcher_wf /\
       let idle := OnJobFinished Start s = Some (with_queue s (queue_ s) (num_running_jobs_ s - 1)) in
       match ordered (queue_ s) with
       | (p, it) :: B =>
           if num_running_jobs_ s - 1 <? at_ (max_running_jobs_ s) p
           then exists q, ordered q = B /\ OnJobFinished Start s = Start (value it) (with_queue s q (num_running_jobs_ s))
           else idle
       | [] => idle
       end).
Proof.
  intros Start s Hd. pose proof (starts_wf behaviour depth) as HStart. fold Start in HStart. clearbody Start.
  refine (conj _ (conj _ (conj _ _))).
  - intros job p Hp Hn. split; [by apply Add_starts|]. split; [by apply Dispatcher_Add_spec|by apply AddAtHead_spec].
  - intros A B p it H. split.
    + destruct (Cancel_spec s A B p it Hd H) as (s' & -> & Hd' & Ho & _). exact (conj Hd' Ho).
    + intros p' Hp' Hn. split; [by apply ChangePriority_spec|]. by apply ChangePriority_starts.
  - exact (EvictOldestLowest_spec Start HStart s Hd).
  - intros Hr. by apply OnJobFinished_spec.
Qed.

(** A job that adds another one when it is started. *)
Definition busy : Z -> PrioritizedDispatcher Z -> script := fun job _ => Call (CallAdd (job + 1) 0) (fun _ => Stop).

Lemma no_permitted_job_waits_witness :
  let s := mkPrioritizedDispatcher (new_PriorityQueue 2) [1; 2] 0 in
  let Start := starts busy 2 in
  Add Start 60 1 s = started Start 60 s (queue_ s) /\
  passes (Add Start 60 1 s) (fun '(handle, s') => dispatcher_wf s' /\ handle = null) /\
  (forall s', Add Start 60 1 s = Some (null, s') -> num_running_jobs_ s' = 1 /\ ordered (queue_ s') = [(0, mkNode 0 0 61)]).
Proof.
  intros s Start. split; [|split; [|intros s' H; vm_compute in H; injection H as <-; by split]].
  all: destruct (new_spec (T := Z) 2 ltac:(unfold kNullPriority; lia)) as (Hq & Hn & Hnd & Ho).
  all: assert (Hd : dispatcher_wf (mkPrioritizedDispatcher (new_PriorityQueue (T := Z) 2) [1; 2] 0)).
  1, 3: (split; [|intros p it He; change ((p, it) ∈ ordered (new_PriorityQueue (T := Z) 2)) in He; rewrite Ho in He; by apply not_elem_of_nil in He];
    constructor; cbn; try done; try lia;
    [intros i j Hij Hj; change (num_priorities _) with 2 in Hj; assert (i = 0 \/ i = 1) as [-> | ->] by lia;
        assert (j = 0 \/ j = 1) as [-> | ->] by lia; vm_compute; first [congruence|by exfalso; apply Hij]
    |intros i Hi; change (num_priorities _) with 2 in Hi; assert (i = 0 \/ i = 1) as [-> | ->] by lia; split; vm_compute; congruence]).
  all: destruct (no_permitted_job_waits Z busy 2 _ Hd) as (HA & _);
    destruct (HA 60 1 ltac:(change (num_priorities _) with 2; lia) ltac:(cbn; lia)) as (HS & HP & _).
  - exact (proj1 (HS eq_refl)).
  - exact HP.
Defined.

(** C17. A job can start at a priority while fewer jobs run than the total less
    the slots reserved for the higher priorities. SetLimits ends, sets these
    limits and starts jobs from the head of the queue for as long as they
    permit it, and no more: the rest of the queue stays as it was (for jobs
    that do not call the dispatcher when they start). The limits that
    GetLimits gives are not those that were set but come to the same: setting
    them changes nothing and starts no job. A new dispatcher has its limits,
    no job running and none waiting. *)
Theorem limits_divide_the_slots (Job : Type) :
  (forall (s : PrioritizedDispatcher Job) limits fuel,
     dispatcher_wf s -> limits_ok (num_priorities s) limits -> (length (ordered (queue_ s)) < fuel)%nat ->
     exists (k : nat) s', SetLimits quiet fuel limits s = Ok s' /\ dispatcher_wf s' /\
       num_priorities s' = num_priorities s /\
       (forall p, 0 <= p < num_priorities s -> at_ (max_running_jobs_ s') p = limit_of limits p) /\
       ordered (queue_ s') = drop k (ordered (queue_ s)) /\
       num_running_jobs_ s' = num_running_jobs_ s + Z.of_nat k /\
       forall i e, (i < k)%nat -> ordered (queue_ s) !! i = Some e ->
         num_running_jobs_ s + Z.of_nat i < limit_of limits e.1) /\
  (forall Start (s : PrioritizedDispatcher Job), dispatcher_wf s -> SetLimits Start 1 (GetLimits s) s = Ok s) /\
  (forall Start limits, limits_ok (zlen (reserved_slots limits)) limits -> zlen (reserved_slots limits) <= kNullPriority ->
     exists s : PrioritizedDispatcher Job, new_PrioritizedDispatcher Start limits = Ok s /\ dispatcher_wf s /\
       ordered (queue_ s) = [] /\ nodes (queue_ s) = 0 /\ num_running_jobs_ s = 0 /\
       num_priorities s = zlen (reserved_slots limits) /\
       forall p, 0 <= p < num_priorities s -> at_ (max_running_jobs_ s) p = limit_of limits p).
Proof.
  refine (conj _ (conj SetLimits_GetLimits new_dispatcher_spec)).
  intros s limits fuel [Hs _]. by apply SetLimits_spec.
Qed.

(** The example of the header: of 30 slots, 5, 10 and 5 are reserved. *)
Lemma limits_divide_the_slots_witness :
  exists s : PrioritizedDispatcher Z, new_PrioritizedDispatcher quiet (mkLimits 30 [0; 5; 10; 5]) = Ok s /\
    at_ (max_running_jobs_ s) 0 = 10 /\ at_ (max_running_jobs_ s) 2 = 25 /\
    exists (k : nat) s', SetLimits quiet 1 (mkLimits 7 [3; 0; 0; 4]) s = Ok s' /\ at_ (max_running_jobs_ s') 2 = 3.
Proof.
  destruct (limits_divide_the_slots Z) as (HS & _ & HN).
  destruct (HN quiet (mkLimits 30 [0; 5; 10; 5])) as (s & E & Hd & Ho & _ & Hr & Hn & Hl).
  { refine (conj eq_refl (conj eq_refl (conj _ _))); [repeat constructor; cbn; lia|cbn; lia]. }
  { unfold kNullPriority, zlen. cbn. lia. }
  change (zlen _) with 4 in Hn. rewrite Hn in Hl. exists s.
  refine (conj E (conj (Hl 0 ltac:(lia)) (conj (Hl 2 ltac:(lia)) _))).
  destruct (HS s (mkLimits 7 [3; 0; 0; 4]) 1%nat Hd) as (k & s' & E' & _ & _ & Hl' & _).
  { rewrite Hn. refine (conj eq_refl (conj eq_refl (conj _ _))); [repeat constructor; cbn; lia|cbn; lia]. }
  { rewrite Ho. cbn. lia. }
  rewrite Hn in Hl'. exists k, s'. exact (conj E' (Hl' 2 ltac:(lia))).
Defined.

(** The exception to [no_permitted_job_waits]: in SetLimits a queued job that
    the new limits permit waits until the loop comes to it. A job that the
    loop starts first and that changes the priority of the other one fails the
    check that no such job waits, though any method is said to be safe there. *)
Definition meddler : Z -> PrioritizedDispatcher Z -> option (PrioritizedDispatcher Z) := fun job s =>
  '(_, s) ← ChangePriority quiet (LastMin (queue_ s)) 0 s; Some s.

Lemma change_during_SetLimits_fails :
  exists s, dispatcher_wf s /\ ordered (queue_ s) = [(1, mkNode 0 0 60); (1, mkNode 1 1 61)] /\
    SetLimits meddler 3 (mkLimits 2 [0; 0]) s = Failed.
Proof.
  destruct (new_dispatcher_spec (Job := Z) quiet (mkLimits 0 [0; 0])) as (s & E & Hd & Ho & Hnd & Hr & Hn & Hl).
  { refine (conj eq_refl (conj eq_refl (conj _ _))); [repeat constructor; cbn; lia|cbn; lia]. }
  { unfold kNullPriority, zlen. cbn. lia. }
  assert (Hquiet : forall (job : Z) s, ready s -> passes (quiet job s) dispatcher_wf) by (intros job s' [H _]; exact H).
  pose proof (Dispatcher_Add_spec quiet Hquiet s 60 1 Hd ltac:(rewrite Hn; unfold zlen; cbn; lia) ltac:(lia)) as H1.
  vm_compute in E. injection E as <-.
  match type of H1 with passes ?r _ => let v := eval vm_compute in r in change r with v in H1 end. destruct H1 as [Hd1 _].
  match type of Hd1 with dispatcher_wf ?s => pose proof (Dispatcher_Add_spec quiet Hquiet s 61 1 Hd1 ltac:(vm_compute; split; congruence) ltac:(cbn; lia)) as H2 end.
  match type of H2 with passes ?r _ => let v := eval vm_compute in r in change r with v in H2 end. destruct H2 as [Hd2 _].
  eexists. split; [exact Hd2|]. split; vm_compute; reflexivity.
Qed.
