(* ===== verification/Utf.v ===== *)
(** Unicode text in three encodings: the macros of base/third_party/icu/icu_utf.h
    and the function behind them, and the conversions of
    base/strings/utf_string_conversions.cc between them, where [wchar_t] has 32
    bits.

    A unit of text is its value without a sign; a [char] is read with one, as
    the compiled code does. [None] is a read outside the text. *)
From S2P Require Import Prelude CArrays.

(** ** UTF-8 *)

Abbreviation u8 := (wrap_u 8).
Abbreviation u16 := (wrap_u 16).
Abbreviation s8 := (wrap_s 8).

Definition CBU_SENTINEL : Z := -1.

(* src: base/third_party/icu/icu_utf.h 56-59! CBU_IS_UNICODE_NONCHAR *)
Definition CBU_IS_UNICODE_NONCHAR (c : Z) : bool :=
  (64976 <=? c) && ((u32 c <=? 65007) || (Z.land c 65534 =? 65534)) && (u32 c <=? 1114111).

(* src: base/third_party/icu/icu_utf.h 90-90! CBU_IS_SURROGATE *)
Definition CBU_IS_SURROGATE (c : Z) : bool := Z.land (u32 c) 4294965248 =? 55296.

(* src: base/third_party/icu/icu_utf.cc 77-103! utf8_countTrailBytes *)
Definition utf8_countTrailBytes (byte : Z) : Z :=
  if byte <? 192 then 0 else if byte <? 224 then 1 else if byte <? 240 then 2
  else if byte <? 248 then 3 else if byte <? 252 then 4 else if byte <? 254 then 5 else 0.

(* src: base/third_party/icu/icu_utf.h 111-111! CBU8_COUNT_TRAIL_BYTES *)
Definition CBU8_COUNT_TRAIL_BYTES (leadByte : Z) : Z := utf8_countTrailBytes (u8 leadByte).

(* src: base/third_party/icu/icu_utf.h 117-117! CBU8_MASK_LEAD_BYTE *)
Definition CBU8_MASK_LEAD_BYTE (leadByte countTrailBytes : Z) : Z :=
  Z.land leadByte (Z.shiftl 1 (6 - countTrailBytes) - 1).

(* src: base/third_party/icu/icu_utf.h 133-133! CBU8_IS_LEAD *)
Definition CBU8_IS_LEAD (c : Z) : bool := u8 (c - 192) <? 62.

(* src: base/third_party/icu/icu_utf.h 141-141! CBU8_IS_TRAIL *)
Definition CBU8_IS_TRAIL (c : Z) : bool := Z.land c 192 =? 128.

(* src: base/third_party/icu/icu_utf.cc 105-106! utf8_minLegal *)
Definition utf8_minLegal : list Z := [0; 128; 2048; 65536].

(* src: base/third_party/icu/icu_utf.cc 108-112! utf8_errorValue *)
Definition utf8_errorValue : list Z := [21; 159; 65535; 1114111; 67108863; 2147483647].

(** Between the cases of the switch: the index, the code point so far, and
    what was found to be wrong. *)
Definition Trail : Type := Z * Z * Z.

(** [trail=s[(i)++]; (c)=((c)<<6)|(trail&0x3f);] *)
(* src: base/third_party/icu/icu_utf.cc 153-154! utf8_nextCharSafeBody *)
Definition next_trail (s : list Z) (i c : Z) : option (Z * Z * Z) :=
  trail ← get s i;
  Some (i + 1, u32 (Z.lor (Z.shiftl c 6) (Z.land trail 63)), trail).

(** [illegal|=(trail&0xc0)^0x80] *)
Definition not_trail (illegal trail : Z) : Z := Z.lor illegal (Z.lxor (Z.land trail 192) 128).

(* src: base/third_party/icu/icu_utf.cc 166-169! utf8_nextCharSafeBody *)
Definition case_1 (s : list Z) (st : Trail) : option Trail :=
  let '(i, c, illegal) := st in
  '(i, c, trail) ← next_trail s i c;
  Some (i, c, not_trail illegal trail).

(* src: base/third_party/icu/icu_utf.cc 162-169! utf8_nextCharSafeBody *)
Definition case_2 (s : list Z) (st : Trail) : option Trail :=
  let '(i, c, illegal) := st in
  '(i, c, trail) ← next_trail s i c;
  case_1 s (i, c, not_trail illegal trail).

(* src: base/third_party/icu/icu_utf.cc 152-169! utf8_nextCharSafeBody *)
Definition case_3 (s : list Z) (st : Trail) : option Trail :=
  let '(i, c, illegal) := st in
  '(i, c, trail) ← next_trail s i c;
  if c <? 272 then case_2 s (i, c, not_trail illegal trail) else Some (i, c, 1).

(** [while(count>0 && CBU8_IS_TRAIL(s[i])) { ++(i); --count; }] *)
(* src: base/third_party/icu/icu_utf.cc 198-201! utf8_nextCharSafeBody *)
Fixpoint skip_count (count : nat) (s : list Z) (i : Z) : option (nat * Z) :=
  match count with
  | O => Some (O, i)
  | S rest =>
      b ← get s i;
      if CBU8_IS_TRAIL b then skip_count rest s (i + 1) else Some (count, i)
  end.

(** [while((i)<(length) && CBU8_IS_TRAIL(s[i])) { ++(i); }] *)
(* src: base/third_party/icu/icu_utf.cc 215-217! utf8_nextCharSafeBody *)
Fixpoint skip_length (fuel : nat) (s : list Z) (length i : Z) : option Z :=
  match fuel with
  | O => Some i
  | S fuel =>
      if i <? length then
        b ← get s i;
        if CBU8_IS_TRAIL b then skip_length fuel s length (i + 1) else Some i
      else Some i
  end.

(** The value is [*pi] afterwards, and the result. *)
(* src: base/third_party/icu/icu_utf.cc 136-226! utf8_nextCharSafeBody *)
Definition utf8_nextCharSafeBody (s : list Z) (pi length c strict : Z) : option (Z * Z) :=
  let i := pi in
  let count := CBU8_COUNT_TRAIL_BYTES c in
  if i ⊕ count <=? length then
    let c := CBU8_MASK_LEAD_BYTE c count in
    if count =? 0 then Some (pi, if 0 <=? strict then 21 else u32 CBU_SENTINEL) else
    '(i, c, illegal) ←
      (if 4 <=? count then Some (i, c, 1)
       else if count =? 3 then case_3 s (i, c, 0)
       else if count =? 2 then case_2 s (i, c, 0)
       else case_1 s (i, c, 0));
    if negb (illegal =? 0) || (c <? at_ utf8_minLegal count) || (CBU_IS_SURROGATE c && negb (strict =? -2)) then
      '(rest, i) ← skip_count (Z.to_nat count) s pi;
      Some (i, if 0 <=? strict then at_ utf8_errorValue (count - Z.of_nat rest) else u32 CBU_SENTINEL)
    else if (0 <? strict) && CBU_IS_UNICODE_NONCHAR c then Some (i, at_ utf8_errorValue count)
    else Some (i, c)
  else
    i' ← skip_length (Z.to_nat (length - i)) s length i;
    Some (i', if 0 <=? strict then at_ utf8_errorValue (i' - i) else u32 CBU_SENTINEL).

(** The value is the index afterwards, and the code point, an [int32]. *)
(* src: base/third_party/icu/icu_utf.h 192-201! CBU8_NEXT *)
Definition CBU8_NEXT (s : list Z) (i length : Z) : option (Z * Z) :=
  b ← get s i;
  let c := s8 b in
  let i := i + 1 in
  if 128 <=? u8 c then
    if CBU8_IS_LEAD c then
      '(i, c) ← utf8_nextCharSafeBody s i length (u32 c) (-1);
      Some (i, s32 c)
    else Some (i, CBU_SENTINEL)
  else Some (i, c).

(** The bytes that the macro writes. *)
(* src: base/third_party/icu/icu_utf.h 216-233! CBU8_APPEND_UNSAFE *)
Definition CBU8_APPEND_UNSAFE (c : Z) : list Z :=
  if u32 c <=? 127 then [u8 c]
  else
    (if u32 c <=? 2047 then [u8 (Z.lor (Z.shiftr c 6) 192)]
     else
       (if u32 c <=? 65535 then [u8 (Z.lor (Z.shiftr c 12) 224)]
        else [u8 (Z.lor (Z.shiftr c 18) 240); u8 (Z.lor (Z.land (Z.shiftr c 12) 63) 128)]) ++
       [u8 (Z.lor (Z.land (Z.shiftr c 6) 63) 128)]) ++
    [u8 (Z.lor (Z.land c 63) 128)].

(** ** UTF-16 *)

(* src: base/third_party/icu/icu_utf.h 268-268! CBU16_IS_SURROGATE *)
Definition CBU16_IS_SURROGATE : Z -> bool := CBU_IS_SURROGATE.
(* src: base/third_party/icu/icu_utf.h 244-244! CBU16_IS_SINGLE *)
Definition CBU16_IS_SINGLE (c : Z) : bool := negb (CBU_IS_SURROGATE c).
(* src: base/third_party/icu/icu_utf.h 260-260! CBU16_IS_TRAIL *)
Definition CBU16_IS_TRAIL (c : Z) : bool := Z.land (u32 c) 4294966272 =? 56320.
(* src: base/third_party/icu/icu_utf.h 277-277! CBU16_IS_SURROGATE_LEAD *)
Definition CBU16_IS_SURROGATE_LEAD (c : Z) : bool := Z.land c 1024 =? 0.
(* src: base/third_party/icu/icu_utf.h 283-283! CBU16_SURROGATE_OFFSET *)
Definition CBU16_SURROGATE_OFFSET : Z := Z.shiftl 55296 10 + 56320 - 65536.
(* src: base/third_party/icu/icu_utf.h 296-297! CBU16_GET_SUPPLEMENTARY *)
Definition CBU16_GET_SUPPLEMENTARY (lead trail : Z) : Z :=
  u32 (Z.shiftl (u32 lead) 10 + u32 trail - CBU16_SURROGATE_OFFSET).
(* src: base/third_party/icu/icu_utf.h 325-325! CBU16_LENGTH *)
Definition CBU16_LENGTH (c : Z) : Z := if u32 c <=? 65535 then 1 else 2.
(* src: base/third_party/icu/icu_utf.h 377-384! CBU16_APPEND_UNSAFE *)
Definition CBU16_APPEND_UNSAFE (c : Z) : list Z :=
  if u32 c <=? 65535 then [u16 c]
  else [u16 (Z.shiftr c 10 + 55232); u16 (Z.lor (Z.land c 1023) 56320)].

(** ** One character *)

(* src: base/strings/utf_string_conversion_utils.h 15-21! IsValidCodepoint *)
Definition IsValidCodepoint (code_point : Z) : bool :=
  (code_point <? 55296) || ((57344 <=? code_point) && (code_point <=? 1114111)).

(* src: base/strings/utf_string_conversion_utils.h 23-29! IsValidCharacter *)
Definition IsValidCharacter (code_point : Z) : bool :=
  (code_point <? 55296) || ((57344 <=? code_point) && (code_point <? 64976)) ||
  ((65007 <? code_point) && (code_point <=? 1114111) && negb (Z.land code_point 65534 =? 65534)).

(** A reader gives whether the character is valid, the index of the last unit
    it read, and the code point. *)
Definition Reader : Type := list Z -> Z -> Z -> option (bool * Z * Z).

(* src: base/strings/utf_string_conversion_utils.cc 13-30! ReadUnicodeCharacter *)
Definition ReadUnicodeCharacter8 : Reader := fun src src_len char_index =>
  '(char_index, code_point) ← CBU8_NEXT src char_index src_len;
  let code_point_out := u32 code_point in
  let char_index := char_index - 1 in
  Some (IsValidCodepoint (u32 code_point), char_index, code_point_out).

(* src: base/strings/utf_string_conversion_utils.cc 32-54! ReadUnicodeCharacter *)
Definition ReadUnicodeCharacter16 : Reader := fun src src_len char_index =>
  unit ← get src char_index;
  if CBU16_IS_SURROGATE unit then
    if negb (CBU16_IS_SURROGATE_LEAD unit) || (src_len <=? char_index + 1) then Some (false, char_index, 0) else
    next ← get src (char_index + 1);
    if negb (CBU16_IS_TRAIL next) then Some (false, char_index, 0) else
    let code_point := CBU16_GET_SUPPLEMENTARY unit next in
    let char_index := char_index + 1 in
    Some (IsValidCodepoint code_point, char_index, code_point)
  else Some (IsValidCodepoint unit, char_index, unit).

(* src: base/strings/utf_string_conversion_utils.cc 57-66! ReadUnicodeCharacter *)
Definition ReadUnicodeCharacter32 : Reader := fun src src_len char_index =>
  code_point ← get src char_index;
  Some (IsValidCodepoint code_point, char_index, code_point).

(** What the writers append to the output. *)
(* src: base/strings/utf_string_conversion_utils.cc 71-90! WriteUnicodeCharacter *)
Definition WriteUnicodeCharacter8 (code_point : Z) (output : list Z) : list Z :=
  if code_point <=? 127 then output ++ [u8 code_point] else output ++ CBU8_APPEND_UNSAFE code_point.

(* src: base/strings/utf_string_conversion_utils.cc 92-103! WriteUnicodeCharacter *)
Definition WriteUnicodeCharacter16 (code_point : Z) (output : list Z) : list Z :=
  if CBU16_LENGTH code_point =? 1 then output ++ [u16 code_point]
  else output ++ CBU16_APPEND_UNSAFE code_point.

(* src: base/strings/utf_string_conversion_utils.h 74-78! WriteUnicodeCharacter *)
Definition WriteUnicodeCharacter32 (code_point : Z) (output : list Z) : list Z := output ++ [code_point].

(** ** Whole texts *)

(** The loop over the source; [None] is a read outside it, or no fuel left. *)
(* src: base/strings/utf_string_conversions.cc 28-36! ConvertUnicode *)
Fixpoint convert_loop (fuel : nat) (read : Reader) (write : Z -> list Z -> list Z) (src : list Z) (src_len32 i : Z)
    (output : list Z) (success : bool) : option (bool * list Z) :=
  match fuel with
  | O => None
  | S fuel =>
      if src_len32 <=? i then Some (success, output) else
      '(ok, i, code_point) ← read src src_len32 i;
      if ok : bool
      then convert_loop fuel read write src src_len32 (i + 1) (write code_point output) success
      else convert_loop fuel read write src src_len32 (i + 1) (write 65533 output) false
  end.

(* src: base/strings/utf_string_conversions.cc 21-39! ConvertUnicode *)
Definition ConvertUnicode (read : Reader) (write : Z -> list Z -> list Z) (src : list Z) : option (bool * list Z) :=
  let src_len32 := s32 (zlen src) in
  convert_loop (S (length src)) read write src src_len32 0 [] true.

(* src: base/strings/utf_string_conversions.cc 45-48! WideToUTF8 *)
Definition WideToUTF8 := ConvertUnicode ReadUnicodeCharacter32 WriteUnicodeCharacter8.
(* src: base/strings/utf_string_conversions.cc 58-61! UTF8ToWide *)
Definition UTF8ToWide := ConvertUnicode ReadUnicodeCharacter8 WriteUnicodeCharacter32.
(* src: base/strings/utf_string_conversions.cc 94-100! WideToUTF16 *)
Definition WideToUTF16 := ConvertUnicode ReadUnicodeCharacter32 WriteUnicodeCharacter16.
(* src: base/strings/utf_string_conversions.cc 108-114! UTF16ToWide *)
Definition UTF16ToWide := ConvertUnicode ReadUnicodeCharacter16 WriteUnicodeCharacter32.
(* src: base/strings/utf_string_conversions.cc 128-131! UTF8ToUTF16 *)
Definition UTF8ToUTF16 := ConvertUnicode ReadUnicodeCharacter8 WriteUnicodeCharacter16.
(* src: base/strings/utf_string_conversions.cc 141-144! UTF16ToUTF8 *)
Definition UTF16ToUTF8 := ConvertUnicode ReadUnicodeCharacter16 WriteUnicodeCharacter8.

(** ** Tests of texts *)

(* src: base/strings/string_util.cc 422-427! IsStringUTF8 *)
Fixpoint utf8_loop (fuel : nat) (src : list Z) (src_len char_index : Z) : option bool :=
  match fuel with
  | O => None
  | S fuel =>
      if char_index <? src_len then
        '(char_index, code_point) ← CBU8_NEXT src char_index src_len;
        if negb (IsValidCharacter (u32 code_point)) then Some false
        else utf8_loop fuel src src_len char_index
      else Some true
  end.

(* src: base/strings/string_util.cc 417-429! IsStringUTF8 *)
Definition IsStringUTF8 (str : list Z) : option bool :=
  utf8_loop (S (length str)) str (s32 (zlen str)) 0.

(* src: base/strings/string_util.cc 393-401! DoIsStringASCII *)
Definition IsStringASCII (str : list Z) : bool := forallb (fun c => c <=? 127) str.

(* src: base/strings/utf_string_conversions.cc 180-183! ASCIIToUTF16 *)
Definition ASCIIToUTF16 (ascii : list Z) : option (list Z) := DCHECK (IsStringASCII ascii) ;; Some ascii.

(* src: base/strings/utf_string_conversions.cc 175-178! ASCIIToWide *)
Definition ASCIIToWide (ascii : list Z) : option (list Z) := DCHECK (IsStringASCII ascii) ;; Some ascii.
