(* ===== verification/UtfProperties.v ===== *)
(** The conversions between the encodings of Unicode read valid text exactly,
    replace what is not valid, and never write anything else. *)
From S2P Require Import Prelude CArrays Utf.

(** ** Encodings

    A scalar value is a code point that is not a surrogate; these are what a
    text is made of. *)
Definition scalar (c : Z) : Prop := 0 <= c < 55296 \/ 57344 <= c <= 1114111.

Definition enc8 (c : Z) : list Z :=
  if c <? 128 then [c]
  else if c <? 2048 then [192 + c / 64; 128 + c mod 64]
  else if c <? 65536 then [224 + c / 4096; 128 + (c / 64) mod 64; 128 + c mod 64]
  else [240 + c / 262144; 128 + (c / 4096) mod 64; 128 + (c / 64) mod 64; 128 + c mod 64].

Definition enc16 (c : Z) : list Z :=
  if c <? 65536 then [c] else [55296 + (c - 65536) / 1024; 56320 + c mod 1024].

Definition enc32 (c : Z) : list Z := [c].

Lemma scalar_valid c : 0 <= c -> IsValidCodepoint c = true <-> scalar c.
Proof. intros Hc. unfold IsValidCodepoint, scalar. lia. Qed.

Lemma u8_id c : 0 <= c < 256 -> u8 c = c.
Proof. intros Hc. apply wrap_u_id. split; lia. Qed.

Lemma u16_id c : 0 <= c < 65536 -> u16 c = c.
Proof. intros Hc. apply wrap_u_id. split; lia. Qed.

Lemma enc8_bytes c : scalar c -> Forall is_byte (enc8 c).
Proof.
  intros Hc. unfold enc8, scalar, is_byte in *. repeat case_if; to_prop; repeat constructor; Z.div_mod_to_equations; lia.
Qed.

Lemma enc8_length c : 1 <= zlen (enc8 c) <= 4.
Proof. unfold enc8, zlen. repeat case_if; cbn; lia. Qed.

(** ** Bits of a byte *)
Lemma land_63 x : Z.land x 63 = x mod 64.
Proof. exact (Z.land_ones x 6 ltac:(lia)). Qed.

Lemma lor_trail x : 0 <= x < 64 -> u8 (Z.lor x 128) = 128 + x.
Proof. revert x. compute_below 64%nat. Qed.

Lemma append_spec c : scalar c -> CBU8_APPEND_UNSAFE c = enc8 c.
Proof.
  intros Hc. unfold CBU8_APPEND_UNSAFE, enc8. unfold scalar in Hc. rewrite u32_id by lia.
  rewrite !Z.shiftr_div_pow2 by lia. rewrite !land_63.
  assert (H2 : forall x, 0 <= x < 32 -> u8 (Z.lor x 192) = 192 + x) by (compute_below 32%nat).
  assert (H3 : forall x, 0 <= x < 16 -> u8 (Z.lor x 224) = 224 + x) by (compute_below 16%nat).
  assert (H4 : forall x, 0 <= x < 5 -> u8 (Z.lor x 240) = 240 + x) by (compute_below 5%nat).
  change (2 ^ 6) with 64. change (2 ^ 12) with 4096. change (2 ^ 18) with 262144.
  destruct (Z.leb_spec c 127); [rewrite (proj2 (Z.ltb_lt _ _)) by lia; by rewrite u8_id by lia|].
  rewrite (proj2 (Z.ltb_ge c 128)) by lia.
  rewrite !lor_trail by (apply Z.mod_pos_bound; lia).
  destruct (Z.leb_spec c 2047).
  { rewrite (proj2 (Z.ltb_lt c 2048)) by lia. rewrite H2 by (Z.div_mod_to_equations; lia). done. }
  rewrite (proj2 (Z.ltb_ge c 2048)) by lia.
  destruct (Z.leb_spec c 65535).
  { rewrite (proj2 (Z.ltb_lt c 65536)) by lia. rewrite H3 by (Z.div_mod_to_equations; lia). done. }
  rewrite (proj2 (Z.ltb_ge c 65536)) by lia. rewrite H4 by (Z.div_mod_to_equations; lia). done.
Qed.

(** ** Reading one character of UTF-8 *)
Lemma next_trail_spec s i c t :
  get s i = Some t -> 0 <= c < 67108864 -> next_trail s i c = Some (i + 1, c * 64 + t mod 64, t).
Proof.
  intros Ht Hc. unfold next_trail. rewrite Ht. cbn [mbind option_bind]. rewrite land_63, Z.shiftl_mul_pow2 by lia.
  change (2 ^ 6) with 64. pose proof (Z.mod_pos_bound t 64 ltac:(lia)).
  assert (E : Z.lor (c * 64) (t mod 64) = c * 64 + t mod 64).
  { rewrite <- Z.add_lor_land. replace (Z.land (c * 64) (t mod 64)) with 0; [lia|]. symmetry.
    apply Z.bits_inj'. intros n Hn. rewrite Z.land_spec, Z.bits_0.
    destruct (Z.lt_ge_cases n 6).
    - change 64 with (2 ^ 6). by rewrite Z.mul_pow2_bits_low by lia.
    - rewrite (Z.bits_above_log2 (t mod 64) n); [by rewrite andb_false_r|lia|].
      destruct (decide (t mod 64 = 0)) as [->|]; [cbn; lia|]. apply Z.log2_lt_pow2; [lia|].
      apply Z.lt_le_trans with (2 ^ 6); [change (2 ^ 6) with 64; lia|]. apply Z.pow_le_mono_r; lia. }
  rewrite E, u32_id by lia. done.
Qed.

Lemma trail_bits t : is_byte t -> Z.lxor (Z.land t 192) 128 = 0 <-> 128 <= t < 192.
Proof.
  intros Ht. assert (H : forall z, 0 <= z < 256 -> (Z.lxor (Z.land z 192) 128 =? 0) = ((128 <=? z) && (z <? 192))) by (compute_below 256%nat).
  specialize (H t Ht). lia.
Qed.

Lemma not_trail_spec illegal t : is_byte t -> not_trail illegal t = 0 <-> illegal = 0 /\ 128 <= t < 192.
Proof. intros Ht. unfold not_trail. rewrite Z.lor_eq_0_iff, trail_bits by done. done. Qed.

(** What the macros make of a lead byte. *)
Lemma lead_byte b :
  128 <= b < 256 ->
  (128 <=? u8 (s8 b)) = true /\ CBU8_IS_LEAD (s8 b) = ((192 <=? b) && (b <? 254)) /\
  CBU8_COUNT_TRAIL_BYTES (u32 (s8 b)) = utf8_countTrailBytes b /\
  CBU8_MASK_LEAD_BYTE (u32 (s8 b)) (utf8_countTrailBytes b) = b mod 2 ^ (6 - utf8_countTrailBytes b).
Proof.
  assert (H : forall z, 0 <= z < 256 -> ((z <? 128) || ((128 <=? u8 (s8 z)) &&
    Bool.eqb (CBU8_IS_LEAD (s8 z)) ((192 <=? z) && (z <? 254)) &&
    (CBU8_COUNT_TRAIL_BYTES (u32 (s8 z)) =? utf8_countTrailBytes z) &&
    (CBU8_MASK_LEAD_BYTE (u32 (s8 z)) (utf8_countTrailBytes z) =? z mod 2 ^ (6 - utf8_countTrailBytes z)))) = true)
    by (compute_below 256%nat).
  intros Hb. specialize (H b ltac:(lia)). rewrite (proj2 (Z.ltb_ge b 128)) in H by lia. cbn [orb] in H.
  to_prop. repeat split; try done; try (by apply Z.leb_le); by apply eqb_prop.
Qed.

(** Lead bytes and their trail bytes, all of them present. *)
Definition valid_lead (b : Z) : bool := (192 <=? b) && (b <? 254).

(** What is read for a lead byte. *)
Definition body (s : list Z) (i length b : Z) : option (Z * Z) := utf8_nextCharSafeBody s i length (u32 (s8 b)) (-1).

Lemma CBU8_NEXT_single s i length b :
  get s i = Some b -> 0 <= b < 128 -> CBU8_NEXT s i length = Some (i + 1, b).
Proof.
  intros Hb Hr. unfold CBU8_NEXT. rewrite Hb. cbn [mbind option_bind].
  assert (E : s8 b = b) by (apply wrap_s_id; [lia|]; split; lia). rewrite E, u8_id by lia.
  by rewrite (proj2 (Z.leb_gt 128 b)) by lia.
Qed.

Lemma CBU8_NEXT_other s i length b :
  get s i = Some b -> 128 <= b < 256 ->
  CBU8_NEXT s i length =
    if valid_lead b then '(i, c) ← body s (i + 1) length b; Some (i, s32 c) else Some (i + 1, CBU_SENTINEL).
Proof.
  intros Hb Hr. unfold CBU8_NEXT. rewrite Hb. cbn [mbind option_bind].
  destruct (lead_byte b Hr) as (-> & -> & _). unfold valid_lead. by destruct (_ && _).
Qed.

(** Errors: what is skipped are trail bytes within the text. *)
Definition skips (s : list Z) (i j hi : Z) : Prop :=
  i <= j <= hi /\ forall k, i <= k < j -> exists t, get s k = Some t /\ 128 <= t < 192.

Lemma skips_none s i hi : i <= hi -> skips s i i hi.
Proof. intros H. split; [lia|]. intros k. lia. Qed.

Lemma skips_le s i j hi hi' : skips s i j hi -> j <= hi' -> skips s i j hi'.
Proof. intros [H Hk] Hl. split; [lia|done]. Qed.

Lemma skips_cons s i j hi t :
  get s i = Some t -> 128 <= t < 192 -> skips s (i + 1) j hi -> skips s i j hi.
Proof.
  intros Ht Hr [H Hk]. split; [lia|]. intros k Hki. destruct (Z.eq_dec k i) as [->|]; [eauto|].
  apply Hk. lia.
Qed.

Lemma is_trail_spec b : is_byte b -> CBU8_IS_TRAIL b = true -> 128 <= b < 192.
Proof. intros Hb H. apply trail_bits; [done|]. apply Z.eqb_eq in H. unfold CBU8_IS_TRAIL in H. by rewrite H. Qed.

Lemma skip_count_spec n s i :
  Forall is_byte s -> 0 <= i -> i + Z.of_nat n <= zlen s ->
  exists rest j, skip_count n s i = Some (rest, j) /\ skips s i j (i + Z.of_nat n).
Proof.
  intros Hs. revert i. induction n as [|n IH]; intros i Hi Hn; cbn;
    [exists O, i; split; [done|apply skips_none; lia]|].
  destruct (get_some s i ltac:(lia)) as [b Hb]. rewrite Hb. cbn [mbind option_bind].
  destruct (CBU8_IS_TRAIL b) eqn:Ht; [|exists (S n), i; split; [done|apply skips_none; lia]].
  apply is_trail_spec in Ht; [|exact (get_Forall _ _ _ _ Hb Hs)].
  destruct (IH (i + 1) ltac:(lia) ltac:(lia)) as (rest & j & -> & Hj). exists rest, j. split; [done|].
  apply (skips_cons s i j _ b Hb Ht). eapply skips_le; [exact Hj|]. destruct Hj. lia.
Qed.

Lemma skip_length_spec fuel s length i :
  Forall is_byte s -> 0 <= i <= length -> length <= zlen s ->
  exists j, skip_length fuel s length i = Some j /\ skips s i j length.
Proof.
  intros Hs. revert i. induction fuel as [|fuel IH]; intros i Hi Hl; cbn;
    [exists i; split; [done|apply skips_none; lia]|].
  destruct (Z.ltb_spec i length); [|exists i; split; [done|apply skips_none; lia]].
  destruct (get_some s i ltac:(lia)) as [b Hb]. rewrite Hb. cbn [mbind option_bind].
  destruct (CBU8_IS_TRAIL b) eqn:Ht; [|exists i; split; [done|apply skips_none; lia]].
  apply is_trail_spec in Ht; [|exact (get_Forall _ _ _ _ Hb Hs)].
  destruct (IH (i + 1) ltac:(lia) Hl) as (j & -> & Hj). exists j. split; [done|].
  by apply (skips_cons s i j _ b).
Qed.

Ltac skipped H := first [exact H | eapply skips_le; [exact H|destruct H; lia]].

(** The switch, for each number of trail bytes. *)
Lemma case_1_spec s i c illegal t :
  get s i = Some t -> 0 <= c < 67108864 -> case_1 s (i, c, illegal) = Some (i + 1, c * 64 + t mod 64, not_trail illegal t).
Proof. intros Ht Hc. unfold case_1. by rewrite (next_trail_spec s i c t Ht Hc). Qed.

Lemma case_2_spec s i c illegal t u :
  get s i = Some t -> get s (i + 1) = Some u -> 0 <= c < 1048576 ->
  case_2 s (i, c, illegal) =
    Some (i + 1 + 1, (c * 64 + t mod 64) * 64 + u mod 64, not_trail (not_trail illegal t) u).
Proof.
  intros Ht Hu Hc. unfold case_2. rewrite (next_trail_spec s i c t Ht) by lia. cbn [mbind option_bind].
  pose proof (Z.mod_pos_bound t 64 ltac:(lia)). apply case_1_spec; [done|lia].
Qed.

Lemma case_3_spec s i c t u v :
  get s i = Some t -> get s (i + 1) = Some u -> get s (i + 1 + 1) = Some v -> 0 <= c < 8 ->
  case_3 s (i, c, 0) =
    if c * 64 + t mod 64 <? 272
    then Some (i + 1 + 1 + 1, ((c * 64 + t mod 64) * 64 + u mod 64) * 64 + v mod 64,
      not_trail (not_trail (not_trail 0 t) u) v)
    else Some (i + 1, c * 64 + t mod 64, 1).
Proof.
  intros Ht Hu Hv Hc. unfold case_3. rewrite (next_trail_spec s i c t Ht) by lia. cbn [mbind option_bind].
  pose proof (Z.mod_pos_bound t 64 ltac:(lia)). case_if; [|done]. apply case_2_spec; [done|done|lia].
Qed.

(** The surrogates. *)
Lemma land_high c k :
  0 <= c < 4294967296 -> 0 <= k <= 32 -> Z.land c (Z.shiftl (Z.ones (32 - k)) k) = c / 2 ^ k * 2 ^ k.
Proof.
  intros Hc Hk. rewrite <- Z.shiftr_div_pow2, <- Z.shiftl_mul_pow2 by lia.
  apply Z.bits_inj'. intros n Hn. rewrite Z.land_spec, !Z.shiftl_spec by lia.
  destruct (Z.lt_ge_cases n k); [rewrite !(Z.testbit_neg_r _ (n - k)) by lia; by rewrite andb_false_r|].
  rewrite Z.testbit_ones_nonneg, Z.shiftr_spec by lia. replace (n - k + k) with n by lia.
  destruct (Z.ltb_spec (n - k) (32 - k)); [by rewrite andb_true_r|]. rewrite andb_false_r.
  destruct (decide (c = 0)) as [->|]; [by rewrite Z.bits_0|]. symmetry. apply Z.bits_above_log2; [lia|].
  apply Z.log2_lt_pow2; [lia|]. apply Z.lt_le_trans with (2 ^ 32); [exact (proj2 Hc)|]. apply Z.pow_le_mono_r; lia.
Qed.

Lemma surrogate_spec c : 0 <= c < 4294967296 -> CBU_IS_SURROGATE c = (55296 <=? c) && (c <? 57344).
Proof.
  intros Hc. unfold CBU_IS_SURROGATE. rewrite u32_id by lia.
  change 4294965248 with (Z.shiftl (Z.ones (32 - 11)) 11). rewrite land_high by lia. change (2 ^ 11) with 2048.
  apply eq_true_iff_eq. rewrite Z.eqb_eq, andb_true_iff, Z.leb_le, Z.ltb_lt. Z.div_mod_to_equations. lia.
Qed.

(** What is left to do when the trail bytes have been taken in. *)
Lemma body_full s i length b count i' c illegal :
  Forall is_byte s -> get s (i - 1) = Some b -> valid_lead b = true -> 128 <= b < 256 -> utf8_countTrailBytes b = count -> 1 <= count ->
  0 <= i -> i + count <= length -> length <= zlen s -> length <= 2147483642 -> 0 <= c < 4294967296 ->
  (if 4 <=? count then Some (i, b mod 2 ^ (6 - count), 1)
   else if count =? 3 then case_3 s (i, b mod 2 ^ (6 - count), 0)
   else if count =? 2 then case_2 s (i, b mod 2 ^ (6 - count), 0)
   else case_1 s (i, b mod 2 ^ (6 - count), 0)) = Some (i', c, illegal) ->
  if (illegal =? 0) && (at_ utf8_minLegal count <=? c) && negb ((55296 <=? c) && (c <? 57344))
  then body s i length b = Some (i', c)
  else exists j, body s i length b = Some (j, 4294967295) /\ skips s i j (i + count).
Proof.
  intros Hs Hb Hlead Hr Hcount Hpos Hi Hfit Hlen Hbig Hc Hcase. unfold body, utf8_nextCharSafeBody.
  destruct (lead_byte b Hr) as (_ & _ & -> & Hmask). rewrite Hcount in *. rewrite Hmask.
  assert (Hc5 : count <= 5) by (rewrite <- Hcount; unfold utf8_countTrailBytes; repeat case_if; lia).
  rewrite s32_id by lia. rewrite (proj2 (Z.leb_le (i + count) length)) by lia.
  rewrite (proj2 (Z.eqb_neq count 0)) by lia. change (0 <=? -1) with false. change (0 <? -1) with false.
  change (-1 =? -2) with false. cbn [negb andb]. rewrite Hcase. cbn [mbind option_bind]. rewrite andb_true_r.
  rewrite surrogate_spec by lia.
  destruct (skip_count_spec (Z.to_nat count) s i Hs ltac:(lia) ltac:(lia)) as (rest & j & -> & Hj). rewrite Z2Nat.id in Hj by lia.
  cbn [mbind option_bind]. change (u32 CBU_SENTINEL) with 4294967295.
  destruct (illegal =? 0); cbn [negb orb andb]; [|by exists j].
  rewrite (Z.ltb_antisym (at_ utf8_minLegal count) c). destruct (at_ utf8_minLegal count <=? c); cbn [negb orb andb]; [|by exists j].
  destruct ((55296 <=? c) && (c <? 57344)); cbn [negb orb andb]; [by exists j|done].
Qed.

(** Too few bytes are left. *)
Lemma body_short s i length b :
  Forall is_byte s -> valid_lead b = true -> 128 <= b < 256 -> 0 <= i -> i <= length -> length < i + utf8_countTrailBytes b ->
  length <= zlen s -> length <= 2147483642 ->
  exists j, body s i length b = Some (j, 4294967295) /\ skips s i j length.
Proof.
  intros Hs Hlead Hr Hi Hil Hfit Hlen Hbig. unfold body, utf8_nextCharSafeBody.
  destruct (lead_byte b Hr) as (_ & _ & -> & Hmask).
  assert (Hc5 : utf8_countTrailBytes b <= 5) by (unfold utf8_countTrailBytes; repeat case_if; lia).
  rewrite s32_id by lia. rewrite (proj2 (Z.leb_gt (i + _) length)) by lia.
  destruct (skip_length_spec (Z.to_nat (length - i)) s length i Hs ltac:(lia) Hlen) as (j & -> & Hj). cbn [mbind option_bind].
  by exists j.
Qed.

Lemma get_byte s i x : Forall is_byte s -> get s i = Some x -> 0 <= x < 256.
Proof. intros Hs Hx. exact (get_Forall is_byte s i x Hx Hs). Qed.

Lemma valid_lead_spec b : valid_lead b = true <-> 192 <= b < 254.
Proof. unfold valid_lead. lia. Qed.

Section body.
Context (s : list Z) (i length b : Z).
Hypothesis (Hs : Forall is_byte s) (Hi : 0 <= i) (Hil : i <= length) (Hlen : length <= zlen s) (Hbig : length <= 2147483642).
Hypothesis (Hb : get s (i - 1) = Some b).

(** One trail byte: the bytes of the result, if it is one. *)
Lemma body_1 t :
  192 <= b < 224 -> get s i = Some t -> i + 1 <= length ->
  let c := (b - 192) * 64 + t mod 64 in
  if (128 <=? t) && (t <? 192) && (128 <=? c)
  then body s i length b = Some (i + 1, c)
  else exists j, body s i length b = Some (j, 4294967295) /\ skips s i j length.
Proof.
  intros Hr Ht Hfit c. pose proof (get_byte s i t Hs Ht) as Hbt. pose proof (Z.mod_pos_bound t 64 ltac:(lia)).
  assert (Hcount : utf8_countTrailBytes b = 1) by (unfold utf8_countTrailBytes; repeat case_if; lia).
  assert (Hm : b mod 2 ^ (6 - 1) = b - 192) by (change (2 ^ (6 - 1)) with 32; Z.div_mod_to_equations; lia).
  pose proof (body_full s i length b 1 (i + 1) c (not_trail 0 t) Hs Hb ltac:(by apply valid_lead_spec; lia) ltac:(lia) Hcount
    ltac:(lia) Hi Hfit Hlen Hbig ltac:(lia)) as HB. rewrite Hm in HB. cbn [Z.leb Z.compare Pos.compare Pos.compare_cont Z.eqb Pos.eqb] in HB.
  specialize (HB (case_1_spec s i (b - 192) 0 t Ht ltac:(lia))). change (at_ utf8_minLegal 1) with 128 in HB.
  pose proof (not_trail_spec 0 t Hbt) as Hnt.
  destruct (Z.eqb_spec (not_trail 0 t) 0) as [E|E]; cbn [andb] in HB.
  - apply Hnt in E as [_ E]. rewrite (proj2 (Z.leb_le 128 t)), (proj2 (Z.ltb_lt t 192)) by lia. cbn [andb].
    destruct (128 <=? c); cbn [andb] in HB; [|destruct HB as (j & HB & Hj); exists j; split; [exact HB|skipped Hj]].
    rewrite (proj2 (Z.leb_gt 55296 c)) in HB by lia. exact HB.
  - replace ((128 <=? t) && (t <? 192)) with false by (symmetry; apply not_true_is_false; intros H'; apply E, Hnt; lia).
    destruct HB as (j & HB & Hj). exists j. split; [exact HB|skipped Hj].
Qed.

Lemma body_2 t u :
  224 <= b < 240 -> get s i = Some t -> get s (i + 1) = Some u -> i + 2 <= length ->
  let c := ((b - 224) * 64 + t mod 64) * 64 + u mod 64 in
  if (128 <=? t) && (t <? 192) && ((128 <=? u) && (u <? 192)) && (2048 <=? c) && negb ((55296 <=? c) && (c <? 57344))
  then body s i length b = Some (i + 2, c)
  else exists j, body s i length b = Some (j, 4294967295) /\ skips s i j length.
Proof.
  intros Hr Ht Hu Hfit c. pose proof (get_byte s i t Hs Ht) as Hbt. pose proof (get_byte s _ u Hs Hu) as Hbu.
  pose proof (Z.mod_pos_bound t 64 ltac:(lia)). pose proof (Z.mod_pos_bound u 64 ltac:(lia)).
  assert (Hcount : utf8_countTrailBytes b = 2) by (unfold utf8_countTrailBytes; repeat case_if; lia).
  assert (Hm : b mod 2 ^ (6 - 2) = b - 224) by (change (2 ^ (6 - 2)) with 16; Z.div_mod_to_equations; lia).
  pose proof (body_full s i length b 2 (i + 2) c (not_trail (not_trail 0 t) u) Hs Hb ltac:(by apply valid_lead_spec; lia) ltac:(lia) Hcount
    ltac:(lia) Hi Hfit Hlen Hbig ltac:(lia)) as HB. rewrite Hm in HB. cbn [Z.leb Z.compare Pos.compare Pos.compare_cont Z.eqb Pos.eqb] in HB.
  rewrite (case_2_spec s i (b - 224) 0 t u Ht Hu) in HB by lia. replace (i + 1 + 1) with (i + 2) in HB by lia.
  specialize (HB eq_refl). change (at_ utf8_minLegal 2) with 2048 in HB.
  pose proof (not_trail_spec (not_trail 0 t) u Hbu) as Hnt. rewrite (not_trail_spec 0 t Hbt) in Hnt.
  destruct (Z.eqb_spec (not_trail (not_trail 0 t) u) 0) as [E|E]; cbn [andb] in HB.
  - apply Hnt in E as [[_ E1] E2].
    rewrite (proj2 (Z.leb_le 128 t)), (proj2 (Z.ltb_lt t 192)), (proj2 (Z.leb_le 128 u)), (proj2 (Z.ltb_lt u 192)) by lia.
    cbn [andb]. destruct ((2048 <=? c) && _); [exact HB|]. destruct HB as (j & HB & Hj). exists j. split; [exact HB|skipped Hj].
  - replace ((128 <=? t) && (t <? 192) && ((128 <=? u) && (u <? 192))) with false
      by (symmetry; apply not_true_is_false; intros H'; apply E, Hnt; lia).
    destruct HB as (j & HB & Hj). exists j. split; [exact HB|skipped Hj].
Qed.

Lemma body_3 t u v :
  240 <= b < 248 -> get s i = Some t -> get s (i + 1) = Some u -> get s (i + 2) = Some v -> i + 3 <= length ->
  let c := (((b - 240) * 64 + t mod 64) * 64 + u mod 64) * 64 + v mod 64 in
  if (128 <=? t) && (t <? 192) && ((128 <=? u) && (u <? 192)) && ((128 <=? v) && (v <? 192)) && (65536 <=? c) && (c <=? 1114111)
  then body s i length b = Some (i + 3, c)
  else exists j, body s i length b = Some (j, 4294967295) /\ skips s i j length.
Proof.
  intros Hr Ht Hu Hv Hfit c. pose proof (get_byte s i t Hs Ht) as Hbt. pose proof (get_byte s _ u Hs Hu) as Hbu.
  pose proof (get_byte s _ v Hs Hv) as Hbv.
  pose proof (Z.mod_pos_bound t 64 ltac:(lia)). pose proof (Z.mod_pos_bound u 64 ltac:(lia)). pose proof (Z.mod_pos_bound v 64 ltac:(lia)).
  assert (Hcount : utf8_countTrailBytes b = 3) by (unfold utf8_countTrailBytes; repeat case_if; lia).
  assert (Hm : b mod 2 ^ (6 - 3) = b - 240) by (change (2 ^ (6 - 3)) with 8; Z.div_mod_to_equations; lia).
  pose proof (fun i' c' ill' Hc' => body_full s i length b 3 i' c' ill' Hs Hb ltac:(by apply valid_lead_spec; lia) ltac:(lia) Hcount
    ltac:(lia) Hi Hfit Hlen Hbig Hc') as HB. rewrite Hm in HB. cbn [Z.leb Z.compare Pos.compare Pos.compare_cont Z.eqb Pos.eqb] in HB.
  change (at_ utf8_minLegal 3) with 65536 in HB.
  rewrite (case_3_spec s i (b - 240) t u v Ht Hu) in HB; [|by replace (i + 1 + 1) with (i + 2) by lia|lia].
  replace (i + 1 + 1 + 1) with (i + 3) in HB by lia.
  destruct (Z.ltb_spec ((b - 240) * 64 + t mod 64) 272) as [Hhigh|Hhigh].
  - assert (Hc : 0 <= c < 4294967296) by lia. specialize (HB _ _ _ Hc eq_refl).
    pose proof (not_trail_spec (not_trail (not_trail 0 t) u) v Hbv) as Hnt.
    rewrite (not_trail_spec _ u Hbu), (not_trail_spec 0 t Hbt) in Hnt.
    destruct (Z.eqb_spec (not_trail (not_trail (not_trail 0 t) u) v) 0) as [E|E]; cbn [andb] in HB.
    + apply Hnt in E as [[[_ E1] E2] E3].
      rewrite (proj2 (Z.leb_le 128 t)), (proj2 (Z.ltb_lt t 192)), (proj2 (Z.leb_le 128 u)), (proj2 (Z.ltb_lt u 192)),
        (proj2 (Z.leb_le 128 v)), (proj2 (Z.ltb_lt v 192)) by lia. cbn [andb].
      rewrite (proj2 (Z.leb_le c 1114111)) by lia. rewrite andb_true_r.
      destruct (Z.leb_spec 65536 c); [|destruct HB as (j & HB & Hj); exists j; split; [exact HB|skipped Hj]].
      rewrite (proj2 (Z.ltb_ge c 57344)), andb_false_r in HB by lia. exact HB.
    + replace ((128 <=? t) && (t <? 192) && ((128 <=? u) && (u <? 192)) && ((128 <=? v) && (v <? 192))) with false
        by (symmetry; apply not_true_is_false; intros H'; apply E, Hnt; lia).
      destruct HB as (j & HB & Hj). exists j. split; [exact HB|skipped Hj].
  - assert (Hc : 0 <= (b - 240) * 64 + t mod 64 < 4294967296) by lia.
    specialize (HB _ _ _ Hc eq_refl). cbn [Z.eqb andb] in HB.
    rewrite (proj2 (Z.leb_gt c 1114111)), andb_false_r by lia.
    destruct HB as (j & HB & Hj). exists j. split; [exact HB|skipped Hj].
Qed.
End body.

Lemma enc8_1 c : 0 <= c < 128 -> enc8 c = [c].
Proof. intros Hc. unfold enc8. by rewrite (proj2 (Z.ltb_lt c 128)) by lia. Qed.

Lemma enc8_2 c b t :
  128 <= c < 2048 -> c = (b - 192) * 64 + t mod 64 -> 128 <= t < 192 -> enc8 c = [b; t].
Proof.
  intros Hc E Ht. unfold enc8. rewrite (proj2 (Z.ltb_ge c 128)), (proj2 (Z.ltb_lt c 2048)) by lia.
  f_equal; [|f_equal]; Z.div_mod_to_equations; lia.
Qed.

Lemma enc8_3 c b t u :
  2048 <= c < 65536 -> c = ((b - 224) * 64 + t mod 64) * 64 + u mod 64 -> 128 <= t < 192 -> 128 <= u < 192 ->
  enc8 c = [b; t; u].
Proof.
  intros Hc E Ht Hu. unfold enc8. rewrite (proj2 (Z.ltb_ge c 128)), (proj2 (Z.ltb_ge c 2048)), (proj2 (Z.ltb_lt c 65536)) by lia.
  f_equal; [|f_equal; [|f_equal]]; Z.div_mod_to_equations; lia.
Qed.

Lemma enc8_4 c b t u v :
  65536 <= c < 4294967296 -> c = (((b - 240) * 64 + t mod 64) * 64 + u mod 64) * 64 + v mod 64 ->
  128 <= t < 192 -> 128 <= u < 192 -> 128 <= v < 192 -> enc8 c = [b; t; u; v].
Proof.
  intros Hc E Ht Hu Hv. unfold enc8.
  rewrite (proj2 (Z.ltb_ge c 128)), (proj2 (Z.ltb_ge c 2048)), (proj2 (Z.ltb_ge c 65536)) by lia.
  f_equal; [|f_equal; [|f_equal; [|f_equal]]]; Z.div_mod_to_equations; lia.
Qed.

(** Reading one character: a scalar value and all of its bytes, or an error;
    some bytes are read, all of the text. *)
(** What reading a character gives: an error, or a scalar value whose encoding
    is there, and a position behind what was read. *)
Definition next_result (s : list Z) (i length : Z) (r : option (Z * Z)) : Prop :=
  exists j c, r = Some (j, c) /\ i < j <= length /\
    (c = -1 /\ skips s (i + 1) j length \/
     scalar c /\ lies s i (enc8 c) /\ j = i + zlen (enc8 c)).

Lemma next_error s i length b :
  (exists j, body s (i + 1) length b = Some (j, 4294967295) /\ skips s (i + 1) j length) ->
  next_result s i length ('(i, c) ← body s (i + 1) length b; Some (i, s32 c)).
Proof. intros (j & -> & Hj). exists j, (-1). split; [done|]. split; [destruct Hj; lia|by left]. Qed.

Lemma next_ok s i length b c :
  scalar c -> lies s i (enc8 c) -> body s (i + 1) length b = Some (i + zlen (enc8 c), c) ->
  i + zlen (enc8 c) <= length ->
  next_result s i length ('(i, c) ← body s (i + 1) length b; Some (i, s32 c)).
Proof.
  intros Hc Hl -> Hj. pose proof (enc8_length c). exists (i + zlen (enc8 c)), c. cbn.
  rewrite s32_id by (unfold scalar in Hc; lia). split; [done|]. split; [lia|by right].
Qed.

Section Next.
Context (s : list Z) (i length b : Z).
Context (Hs : Forall is_byte s) (Hi : 0 <= i < length) (Hlen : length <= zlen s) (Hbig : length <= 2147483642).
Context (Hb : get s i = Some b) (Hb' : get s (i + 1 - 1) = Some b).
Let next : option (Z * Z) := '(i, c) ← body s (i + 1) length b; Some (i, s32 c).

Lemma next_2 : 192 <= b < 224 -> i + 1 + 1 <= length -> next_result s i length next.
Proof.
  intros Hr Hfit. destruct (get_some s (i + 1) ltac:(lia)) as [t Ht].
  pose proof (body_1 s (i + 1) length b Hs ltac:(lia) Hlen Hbig Hb' t ltac:(lia) Ht ltac:(lia)) as HB. cbn zeta in HB.
  set (c := (b - 192) * 64 + t mod 64) in *. case_if_in HB; [|by apply next_error]. to_prop.
  assert (Hc : 128 <= c < 2048) by (subst c; Z.div_mod_to_equations; lia).
  assert (E : enc8 c = [b; t]) by (apply enc8_2; [done|done|lia]).
  apply (next_ok s i length b c); rewrite ?E; [unfold scalar; lia| |rewrite HB; do 2 f_equal; unfold zlen; cbn; lia|unfold zlen; cbn; lia].
  apply lies_cons; [done|]. apply lies_cons; [done|]. apply lies_nil. lia.
Qed.

Lemma next_3 : 224 <= b < 240 -> i + 1 + 2 <= length -> next_result s i length next.
Proof.
  intros Hr Hfit. destruct (get_some s (i + 1) ltac:(lia)) as [t Ht]. destruct (get_some s (i + 1 + 1) ltac:(lia)) as [u Hu].
  pose proof (body_2 s (i + 1) length b Hs ltac:(lia) Hlen Hbig Hb' t u ltac:(lia) Ht Hu ltac:(lia)) as HB. cbn zeta in HB.
  set (c := ((b - 224) * 64 + t mod 64) * 64 + u mod 64) in *. case_if_in HB; [|by apply next_error].
  match goal with H : _ && _ = true |- _ => apply andb_true_iff in H as [Hlegal Hsur] end. apply negb_true_iff in Hsur. to_prop.
  assert (Hc : 2048 <= c < 65536) by (subst c; Z.div_mod_to_equations; lia).
  assert (E : enc8 c = [b; t; u]) by (apply enc8_3; [done|done|lia|lia]).
  apply (next_ok s i length b c); rewrite ?E; [unfold scalar; lia| |rewrite HB; do 2 f_equal; unfold zlen; cbn; lia|unfold zlen; cbn; lia].
  apply lies_cons; [done|]. apply lies_cons; [done|]. apply lies_cons; [done|]. apply lies_nil. lia.
Qed.

Lemma next_4 : 240 <= b < 248 -> i + 1 + 3 <= length -> next_result s i length next.
Proof.
  intros Hr Hfit. destruct (get_some s (i + 1) ltac:(lia)) as [t Ht]. destruct (get_some s (i + 1 + 1) ltac:(lia)) as [u Hu].
  destruct (get_some s (i + 1 + 2) ltac:(lia)) as [v Hv].
  pose proof (body_3 s (i + 1) length b Hs ltac:(lia) Hlen Hbig Hb' t u v ltac:(lia) Ht Hu Hv ltac:(lia)) as HB. cbn zeta in HB.
  set (c := (((b - 240) * 64 + t mod 64) * 64 + u mod 64) * 64 + v mod 64) in *. case_if_in HB; [|by apply next_error]. to_prop.
  assert (E : enc8 c = [b; t; u; v]) by (apply enc8_4; [lia|done|lia|lia|lia]).
  apply (next_ok s i length b c); rewrite ?E; [unfold scalar; lia| |rewrite HB; do 2 f_equal; unfold zlen; cbn; lia|unfold zlen; cbn; lia].
  apply lies_cons; [done|]. apply lies_cons; [done|]. apply lies_cons; [done|].
  apply lies_cons; [by replace (i + 1 + 1 + 1) with (i + 1 + 2) by lia|]. apply lies_nil. lia.
Qed.

(** Sequences of five and six bytes are not characters. *)
Lemma next_long : valid_lead b = true -> 248 <= b < 254 -> i + 1 + utf8_countTrailBytes b <= length -> next_result s i length next.
Proof.
  intros Hlead Hr Hfit. apply next_error. set (count := if b <? 252 then 4 else if b <? 254 then 5 else 0) in *.
  assert (Hcount : utf8_countTrailBytes b = count) by (unfold utf8_countTrailBytes; repeat case_if; lia).
  assert (Hc4 : 4 <= count <= 5) by (subst count; repeat case_if; lia).
  pose proof (body_full s (i + 1) length b count (i + 1) (b mod 2 ^ (6 - count)) 1 Hs Hb' Hlead ltac:(lia) Hcount
    ltac:(lia) ltac:(lia) ltac:(lia) Hlen Hbig) as HB. rewrite (proj2 (Z.leb_le 4 count)) in HB by lia.
  destruct HB as (j & HB & Hj); [|done|exists j; split; [exact HB|skipped Hj]].
  assert (count = 4 \/ count = 5) as [-> | ->] by lia; cbn; Z.div_mod_to_equations; lia.
Qed.
End Next.

Lemma CBU8_NEXT_spec s i length :
  Forall is_byte s -> 0 <= i < length -> length <= zlen s -> length <= 2147483642 ->
  next_result s i length (CBU8_NEXT s i length).
Proof.
  intros Hs Hi Hlen Hbig. destruct (get_some s i ltac:(lia)) as [b Hb]. pose proof (get_byte s i b Hs Hb) as Hr.
  destruct (Z.lt_ge_cases b 128) as [Hsmall|Hlarge].
  { rewrite (CBU8_NEXT_single s i length b Hb) by lia. exists (i + 1), b. split; [done|]. split; [lia|]. right.
    rewrite enc8_1 by lia. split; [unfold scalar; lia|]. split; [|done]. apply lies_cons; [done|]. apply lies_nil. lia. }
  rewrite (CBU8_NEXT_other s i length b Hb) by lia.
  destruct (valid_lead b) eqn:Hlead; [|exists (i + 1), (-1); split; [done|split; [lia|left; split; [done|apply skips_none; lia]]]].
  apply valid_lead_spec in Hlead as Hlead'.
  assert (Hb' : get s (i + 1 - 1) = Some b) by (by replace (i + 1 - 1) with i by lia).
  destruct (Z.lt_ge_cases length (i + 1 + utf8_countTrailBytes b)) as [Hshort|Hfit].
  { apply next_error. apply body_short; try done; lia. }
  pose proof Hfit as Hfit'. unfold utf8_countTrailBytes in Hfit'. destruct (Z.ltb_spec b 192); [lia|].
  destruct (Z.ltb_spec b 224); [by apply next_2; done || lia|].
  destruct (Z.ltb_spec b 240); [by apply next_3; done || lia|].
  destruct (Z.ltb_spec b 248); [by apply next_4; done || lia|]. apply next_long; done || lia.
Qed.

Lemma lies_2 (s : list Z) i x y l : lies s i (x :: y :: l) -> get s i = Some x /\ get s (i + 1) = Some y /\ lies s (i + 1 + 1) l.
Proof. intros H. split; [by eapply lies_get|]. apply lies_tail in H. split; [by eapply lies_get|by eapply lies_tail]. Qed.

Lemma mod_trail x : (128 + x mod 64) mod 64 = x mod 64.
Proof. Z.div_mod_to_equations. lia. Qed.

Lemma recompose c : (((c / 262144) * 64 + (c / 4096) mod 64) * 64 + (c / 64) mod 64) * 64 + c mod 64 = c.
Proof.
  assert (E1 : c / 4096 = c / 64 / 64) by (rewrite Z.div_div by lia; done).
  assert (E2 : c / 262144 = c / 64 / 64 / 64) by (rewrite !Z.div_div by lia; done). rewrite E1, E2.
  pose proof (Z.div_mod c 64 ltac:(lia)). pose proof (Z.div_mod (c / 64) 64 ltac:(lia)).
  pose proof (Z.div_mod (c / 64 / 64) 64 ltac:(lia)). lia.
Qed.

(** Every scalar value is read back from its bytes. *)
Lemma body_enc s i length c b l :
  Forall is_byte s -> 0 <= i -> length <= zlen s -> length <= 2147483642 -> scalar c -> 128 <= c ->
  enc8 c = b :: l -> lies s i (b :: l) -> i + 1 + zlen l <= length ->
  192 <= b < 248 /\ body s (i + 1) length b = Some (i + 1 + zlen l, c).
Proof.
  intros Hs Hi Hlen Hbig Hc Hc' E Hl Hfit. unfold enc8 in E. unfold scalar in Hc.
  rewrite (proj2 (Z.ltb_ge c 128)) in E by lia.
  assert (Hb' : get s (i + 1 - 1) = Some b) by (replace (i + 1 - 1) with i by lia; by eapply lies_get).
  apply lies_tail in Hl.
  assert (Hfinish : forall (cond : bool) r e n (P : Prop), (if cond then body s (i + 1) length b = Some (i + 1 + n, r) else P) ->
    cond = true -> n = zlen l -> r = e -> body s (i + 1) length b = Some (i + 1 + zlen l, e)).
  { intros cond r e n P HB -> -> ->. exact HB. }
  destruct (Z.ltb_spec c 2048).
  { injection E as <- <-. unfold zlen in Hfit |- *. cbn in Hfit |- *. split; [Z.div_mod_to_equations; lia|].
    refine (Hfinish _ _ _ _ _ (body_1 s (i + 1) length _ Hs ltac:(lia) Hlen Hbig Hb' _ _ (lies_get _ _ _ _ Hl) ltac:(lia)) _ eq_refl _);
      Z.div_mod_to_equations; lia. }
  destruct (Z.ltb_spec c 65536).
  { injection E as <- <-. unfold zlen in Hfit |- *. cbn in Hfit |- *. split; [Z.div_mod_to_equations; lia|].
    destruct (lies_2 _ _ _ _ _ Hl) as (H1 & H2 & _).
    refine (Hfinish _ _ _ _ _ (body_2 s (i + 1) length _ Hs ltac:(lia) Hlen Hbig Hb' _ _ _ H1 H2 ltac:(lia)) _ eq_refl _);
      Z.div_mod_to_equations; lia. }
  injection E as <- <-. unfold zlen in Hfit |- *. cbn in Hfit |- *. split; [Z.div_mod_to_equations; lia|].
  destruct (lies_2 _ _ _ _ _ Hl) as (H1 & H2 & H3%lies_get).
  pose proof (body_3 s (i + 1) length _ Hs ltac:(lia) Hlen Hbig Hb' _ _ _ ltac:(Z.div_mod_to_equations; lia) H1 H2
    ltac:(by replace (i + 1 + 2) with (i + 1 + 1 + 1) by lia) ltac:(lia)) as HB. cbn zeta in HB.
  rewrite !mod_trail, Z.add_simpl_l, recompose in HB.
  pose proof (Z.mod_pos_bound (c / 4096) 64 ltac:(lia)). pose proof (Z.mod_pos_bound (c / 64) 64 ltac:(lia)).
  pose proof (Z.mod_pos_bound c 64 ltac:(lia)).
  refine (Hfinish _ _ _ _ _ HB _ eq_refl eq_refl). clear HB Hfinish. lia.
Qed.

Lemma CBU8_NEXT_enc s i length c :
  Forall is_byte s -> 0 <= i -> length <= zlen s -> length <= 2147483642 -> scalar c -> lies s i (enc8 c) ->
  i + zlen (enc8 c) <= length -> CBU8_NEXT s i length = Some (i + zlen (enc8 c), c).
Proof.
  intros Hs Hi Hlen Hbig Hc Hl Hfit. destruct (Z.lt_ge_cases c 128) as [Hsmall|Hlarge].
  - unfold scalar in Hc. rewrite enc8_1 in * by lia. apply CBU8_NEXT_single; [by eapply lies_get|lia].
  - pose proof (enc8_length c) as Hpos. destruct (enc8 c) as [|b l] eqn:E; [unfold zlen in Hpos; cbn in Hpos; lia|].
    assert (Hn : zlen (b :: l) = 1 + zlen l) by (unfold zlen; cbn; lia). rewrite Hn in *.
    destruct (body_enc s i length c b l Hs Hi Hlen Hbig Hc Hlarge E Hl ltac:(lia)) as [Hb HB].
    rewrite (CBU8_NEXT_other s i length b (lies_get _ _ _ _ Hl)) by lia.
    rewrite (proj2 (valid_lead_spec b)), HB by lia. cbn [mbind option_bind]. unfold scalar in Hc. rewrite s32_id by lia.
    do 2 f_equal. lia.
Qed.

Lemma enc8_head c : scalar c -> exists b l, enc8 c = b :: l /\ ~ 128 <= b < 192.
Proof.
  unfold scalar, enc8. intros Hc. repeat case_if; to_prop; do 2 eexists;
    (split; [reflexivity|]); Z.div_mod_to_equations; lia.
Qed.

(** ** Readers and writers

    What a conversion needs of the two encodings it is between. *)
Class Reads (enc : Z -> list Z) (unit : Z -> Prop) (read : Reader) : Prop := {
  enc_pos c : 1 <= zlen (enc c);
  reads_any s i length :
    Forall unit s -> 0 <= i < length -> length <= zlen s -> length <= 2147483642 ->
    exists ok j c, read s length i = Some (ok, j, c) /\ i <= j < length /\
      (ok = true -> scalar c /\ lies s i (enc c) /\ j + 1 = i + zlen (enc c)) /\
      (ok = false -> forall k c', i < k <= j -> scalar c' -> ~ lies s k (enc c'));
  reads_enc s i length c :
    Forall unit s -> 0 <= i -> length <= zlen s -> length <= 2147483642 -> scalar c -> lies s i (enc c) ->
    i + zlen (enc c) <= length -> read s length i = Some (true, i + zlen (enc c) - 1, c)
}.

Class Writes (enc : Z -> list Z) (write : Z -> list Z -> list Z) : Prop :=
  writes c output : scalar c -> write c output = output ++ enc c.

#[export] Instance reads8 : Reads enc8 is_byte ReadUnicodeCharacter8.
Proof.
  constructor.
  - apply enc8_length.
  - intros s i length Hs Hi Hlen Hbig. destruct (CBU8_NEXT_spec s i length Hs Hi Hlen Hbig) as (j & c & E & Hj & Hc).
    unfold ReadUnicodeCharacter8. rewrite E. cbn [mbind option_bind]. do 3 eexists. split; [reflexivity|]. split; [lia|].
    destruct Hc as [[-> [_ Ht]]|(Hc & Hl & Hlen')].
    + split; [intros Hok; vm_compute in Hok; discriminate|]. intros _ k c' Hk Hc' Hl.
      destruct (Ht k ltac:(lia)) as (t & Hg & Hr). destruct (enc8_head c' Hc') as (b & l & E' & Hb').
      rewrite E' in Hl. apply lies_get in Hl. rewrite Hl in Hg. injection Hg as ->. lia.
    + assert (Hr : 0 <= c < 4294967296) by (unfold scalar in Hc; lia). rewrite u32_id by lia.
      split; [|by rewrite (proj2 (scalar_valid c ltac:(lia)) Hc)].
      intros _. split; [done|]. split; [done|]. lia.
  - intros s i length c Hs Hi Hlen Hbig Hc Hl Hfit. unfold ReadUnicodeCharacter8.
    rewrite (CBU8_NEXT_enc s i length c) by done. cbn [mbind option_bind].
    assert (Hr : 0 <= c < 4294967296) by (unfold scalar in Hc; lia). rewrite u32_id by lia.
    by rewrite (proj2 (scalar_valid c ltac:(lia)) Hc).
Qed.

Lemma supplementary_spec hi lo :
  55296 <= hi < 56320 -> 56320 <= lo < 57344 ->
  CBU16_GET_SUPPLEMENTARY hi lo = 65536 + (hi - 55296) * 1024 + (lo - 56320).
Proof.
  intros Hhi Hlo. unfold CBU16_GET_SUPPLEMENTARY. rewrite !(u32_id hi), !(u32_id lo) by lia.
  rewrite Z.shiftl_mul_pow2 by lia. change (2 ^ 10) with 1024. change CBU16_SURROGATE_OFFSET with 56613888.
  rewrite u32_id by lia. lia.
Qed.

Lemma trail16_spec u : 0 <= u < 65536 -> CBU16_IS_TRAIL u = (56320 <=? u) && (u <? 57344).
Proof.
  intros Hu. unfold CBU16_IS_TRAIL. rewrite u32_id by lia.
  change 4294966272 with (Z.shiftl (Z.ones (32 - 10)) 10). rewrite land_high by lia. change (2 ^ 10) with 1024.
  apply eq_true_iff_eq. rewrite Z.eqb_eq, andb_true_iff, Z.leb_le, Z.ltb_lt. Z.div_mod_to_equations. lia.
Qed.

Lemma lead16_spec u : 55296 <= u < 57344 -> CBU16_IS_SURROGATE_LEAD u = (u <? 56320).
Proof.
  intros Hu. replace u with (55296 + (u - 55296)) by lia. assert (Hr : 0 <= u - 55296 < 2048) by lia. revert Hr.
  generalize (u - 55296). compute_below 2048%nat.
Qed.

Definition unit16 (u : Z) : Prop := 0 <= u < 65536.

Lemma enc16_small c : c < 65536 -> enc16 c = [c].
Proof. intros Hc. unfold enc16. by rewrite (proj2 (Z.ltb_lt c 65536)) by lia. Qed.

Lemma enc16_pair hi lo :
  55296 <= hi < 56320 -> 56320 <= lo < 57344 ->
  let c := 65536 + (hi - 55296) * 1024 + (lo - 56320) in scalar c /\ enc16 c = [hi; lo].
Proof.
  intros Hhi Hlo c. unfold enc16, scalar. rewrite (proj2 (Z.ltb_ge c 65536)) by lia. subst c.
  split; [lia|]. f_equal; [|f_equal]; Z.div_mod_to_equations; lia.
Qed.

#[export] Instance reads16 : Reads enc16 unit16 ReadUnicodeCharacter16.
Proof.
  constructor.
  - intros c. unfold enc16, zlen. case_if; cbn; lia.
  - intros s i length Hs Hi Hlen Hbig. unfold ReadUnicodeCharacter16.
    destruct (get_some s i ltac:(lia)) as [u Hu]. pose proof (get_Forall _ _ _ _ Hu Hs) as Hru. unfold unit16 in Hru.
    rewrite Hu. cbn [mbind option_bind]. unfold CBU16_IS_SURROGATE. rewrite surrogate_spec by lia.
    destruct ((55296 <=? u) && (u <? 57344)) eqn:Hsur.
    + to_prop. rewrite lead16_spec by lia. destruct (Z.ltb_spec u 56320); cbn [negb orb]; [|exists false, i, 0; split; [done|split; [lia|split; [discriminate|lia]]]].
      destruct (Z.leb_spec length (i + 1)); [exists false, i, 0; split; [done|split; [lia|split; [discriminate|lia]]]|].
      destruct (get_some s (i + 1) ltac:(lia)) as [v Hv]. pose proof (get_Forall _ _ _ _ Hv Hs) as Hrv. unfold unit16 in Hrv.
      rewrite Hv. cbn [mbind option_bind]. rewrite trail16_spec by lia.
      destruct ((56320 <=? v) && (v <? 57344)) eqn:Htr; cbn [negb]; [|exists false, i, 0; split; [done|split; [lia|split; [discriminate|lia]]]]. to_prop.
      rewrite supplementary_spec by lia. destruct (enc16_pair u v ltac:(lia) ltac:(lia)) as [Hc E]. do 3 eexists. split; [reflexivity|].
      split; [lia|].
      split; [|intros Hf; apply scalar_valid in Hc; [congruence|lia]].
      intros _. split; [exact Hc|]. rewrite E. split; [|unfold zlen; cbn; lia].
      apply lies_cons; [done|]. apply lies_cons; [done|]. apply lies_nil. lia.
    + do 3 eexists. split; [reflexivity|]. split; [lia|]. split; [|lia]. intros Hok%scalar_valid; [|lia]. split; [done|].
      rewrite enc16_small by lia. split; [|done]. apply lies_cons; [done|]. apply lies_nil. lia.
  - intros s i length c Hs Hi Hlen Hbig Hc Hl Hfit. unfold ReadUnicodeCharacter16. destruct (Z.lt_ge_cases c 65536).
    + rewrite enc16_small in * by lia. rewrite (lies_get _ _ _ _ Hl). cbn [mbind option_bind]. unfold CBU16_IS_SURROGATE.
      pose proof Hc as Hc'. unfold scalar in Hc'. rewrite surrogate_spec by lia.
      replace ((55296 <=? c) && (c <? 57344)) with false by lia.
      rewrite (proj2 (scalar_valid c ltac:(lia)) Hc). do 3 f_equal. unfold zlen. cbn. lia.
    + unfold scalar in Hc. set (hi := 55296 + (c - 65536) / 1024). set (lo := 56320 + c mod 1024).
      assert (Hhi : 55296 <= hi < 56320) by (subst hi; Z.div_mod_to_equations; lia).
      assert (Hlo : 56320 <= lo < 57344) by (subst lo; Z.div_mod_to_equations; lia).
      assert (E : enc16 c = [hi; lo]) by (unfold enc16; by rewrite (proj2 (Z.ltb_ge c 65536)) by lia).
      rewrite E in *. destruct (lies_2 _ _ _ _ _ Hl) as (H1 & H2 & _). unfold zlen in Hfit. cbn in Hfit.
      rewrite H1. cbn [mbind option_bind]. unfold CBU16_IS_SURROGATE. rewrite surrogate_spec by lia.
      replace ((55296 <=? hi) && (hi <? 57344)) with true by lia. rewrite lead16_spec by lia.
      rewrite (proj2 (Z.ltb_lt hi 56320)), (proj2 (Z.leb_gt length (i + 1))) by lia. cbn [negb orb].
      rewrite H2. cbn [mbind option_bind]. rewrite trail16_spec by lia.
      replace ((56320 <=? lo) && (lo <? 57344)) with true by lia. cbn [negb].
      rewrite supplementary_spec by lia.
      assert (Ec : 65536 + (hi - 55296) * 1024 + (lo - 56320) = c) by (subst hi lo; Z.div_mod_to_equations; lia).
      rewrite Ec, (proj2 (scalar_valid c ltac:(lia))) by (unfold scalar; lia). do 3 f_equal. unfold zlen. cbn. lia.
Qed.

Definition unit32 (u : Z) : Prop := 0 <= u < 4294967296.

#[export] Instance reads32 : Reads enc32 unit32 ReadUnicodeCharacter32.
Proof.
  constructor.
  - done.
  - intros s i length Hs Hi Hlen Hbig. unfold ReadUnicodeCharacter32.
    destruct (get_some s i ltac:(lia)) as [u Hu]. pose proof (get_Forall _ _ _ _ Hu Hs) as Hru. unfold unit32 in Hru.
    rewrite Hu. cbn [mbind option_bind]. do 3 eexists. split; [reflexivity|]. split; [lia|]. split; [|lia].
    intros Hok%scalar_valid; [|lia]. split; [done|]. split; [|done]. apply lies_cons; [done|]. apply lies_nil. lia.
  - intros s i length c Hs Hi Hlen Hbig Hc Hl Hfit. unfold ReadUnicodeCharacter32.
    rewrite (lies_get _ _ _ _ Hl). cbn [mbind option_bind].
    rewrite (proj2 (scalar_valid c ltac:(unfold scalar in Hc; lia)) Hc). do 3 f_equal. unfold zlen. cbn. lia.
Qed.

#[export] Instance writes8 : Writes enc8 WriteUnicodeCharacter8.
Proof.
  intros c output Hc. unfold WriteUnicodeCharacter8. destruct (Z.leb_spec c 127); [|by rewrite append_spec].
  unfold scalar in Hc. by rewrite enc8_1, u8_id by lia.
Qed.

#[export] Instance writes16 : Writes enc16 WriteUnicodeCharacter16.
Proof.
  intros c output Hc. unfold WriteUnicodeCharacter16, CBU16_LENGTH, CBU16_APPEND_UNSAFE, enc16. unfold scalar in Hc.
  rewrite u32_id by lia. destruct (Z.leb_spec c 65535); cbn [Z.eqb].
  - rewrite (proj2 (Z.ltb_lt c 65536)) by lia. by rewrite u16_id by lia.
  - rewrite (proj2 (Z.ltb_ge c 65536)) by lia. rewrite Z.shiftr_div_pow2 by lia. change (2 ^ 10) with 1024.
    change 1023 with (Z.ones 10). rewrite Z.land_ones by lia. change (2 ^ 10) with 1024.
    assert (Hor : forall x, 0 <= x < 1024 -> u16 (Z.lor x 56320) = 56320 + x) by (compute_below 1024%nat).
    rewrite Hor by (apply Z.mod_pos_bound; lia). cbn. rewrite u16_id by (Z.div_mod_to_equations; lia).
    f_equal. f_equal. Z.div_mod_to_equations. lia.
Qed.

#[export] Instance writes32 : Writes enc32 WriteUnicodeCharacter32.
Proof. done. Qed.

(** ** Converting a text *)
Section convert.
Context {enc enc' : Z -> list Z} {unit : Z -> Prop} {read : Reader} {write : Z -> list Z -> list Z}.
Context `{!Reads enc unit read} `{!Writes enc' write}.

Lemma flat_enc_length cps : Z.of_nat (length cps) <= zlen (flat_map enc cps).
Proof.
  induction cps as [|c cps IH]; [done|]. cbn [flat_map]. rewrite zlen_app. pose proof (enc_pos c).
  unfold zlen in *. cbn [length]. lia.
Qed.

(** Valid text is converted as it is. *)
Lemma convert_valid cps fuel s i output success :
  Forall unit s -> zlen s <= 2147483642 -> Forall scalar cps -> lies s i (flat_map enc cps) ->
  i + zlen (flat_map enc cps) = zlen s -> (length cps < fuel)%nat ->
  convert_loop fuel read write s (zlen s) i output success = Some (success, output ++ flat_map enc' cps).
Proof.
  intros Hs Hbig Hcps. revert fuel i output. induction Hcps as [|c cps Hc Hcps IH]; intros [|fuel] i output Hl Hi Hf; cbn in Hf; try lia.
  - cbn [convert_loop flat_map] in *. rewrite (proj2 (Z.leb_le _ _)) by (change (zlen (@nil Z)) with 0 in Hi; lia). by rewrite app_nil_r.
  - cbn [convert_loop flat_map] in *. pose proof (enc_pos c). rewrite zlen_app in Hi. pose proof (zlen_nonneg (flat_map enc cps)).
    rewrite (proj2 (Z.leb_gt _ _)) by lia. pose proof (lies_bounds _ _ _ Hl). apply lies_app in Hl as [Hl1 Hl2].
    rewrite (reads_enc s i (zlen s) c) by (done || lia). cbn [mbind option_bind].
    replace (i + zlen (enc c) - 1 + 1) with (i + zlen (enc c)) by lia.
    rewrite IH by (done || lia). by rewrite (writes (enc := enc')), <- app_assoc.
Qed.

(** How a text is read: a piece that encodes a scalar value stands for it, and a
    piece in which no scalar value is encoded, from any place in it, stands for
    U+FFFD.  The flag says that there is no piece of the second kind. *)
Inductive pieces : list Z -> list Z -> bool -> Prop :=
  | pieces_nil : pieces [] [] true
  | pieces_scalar c s cps ok :
      scalar c -> pieces s cps ok -> pieces (enc c ++ s) (c :: cps) ok
  | pieces_bad bad s cps ok :
      bad <> [] ->
      (forall k c, (k < length bad)%nat -> scalar c -> ~ enc c `prefix_of` drop k (bad ++ s)) ->
      pieces s cps ok -> pieces (bad ++ s) (65533 :: cps) false.

Lemma pieces_scalars s cps ok : pieces s cps ok -> Forall scalar cps.
Proof. induction 1; constructor; auto. unfold scalar. lia. Qed.

Lemma pieces_ok s cps ok : pieces s cps ok -> ok = true -> s = flat_map enc cps.
Proof. induction 1 as [|c s cps ok Hc _ IH|]; cbn; intros E; [done|by rewrite <- IH|done]. Qed.

Lemma lies_drop (s : list Z) i l : 0 <= i <= zlen s -> l `prefix_of` drop (Z.to_nat i) s -> lies s i l.
Proof.
  intros Hi [post E]. exists (take (Z.to_nat i) s), post. rewrite <- E, take_drop.
  split; [done|by apply zlen_take].
Qed.

Lemma drop_lies (s : list Z) i l :
  lies s i l -> drop (Z.to_nat i) s = l ++ drop (Z.to_nat (i + zlen l)) s.
Proof.
  intros (pre & post & -> & <-). unfold zlen. rewrite <- Nat2Z.inj_add, !Nat2Z.id, drop_app_length.
  by rewrite <- length_app, app_assoc, drop_app_length.
Qed.

(** Of any text, what is not valid is replaced. *)
Lemma convert_any fuel s i output success :
  Forall unit s -> zlen s <= 2147483642 -> 0 <= i <= zlen s -> (Z.to_nat (zlen s - i) < fuel)%nat ->
  exists cps ok, convert_loop fuel read write s (zlen s) i output success =
      Some (success && ok, output ++ flat_map enc' cps) /\
    pieces (drop (Z.to_nat i) s) cps ok.
Proof.
  intros Hs Hbig. revert i output success. induction fuel as [|fuel IH]; intros i output success Hi Hf; [lia|].
  cbn [convert_loop]. destruct (Z.leb_spec (zlen s) i).
  - exists [], true. rewrite app_nil_r, andb_true_r. split; [done|].
    rewrite drop_ge by (unfold zlen in *; lia). constructor.
  - destruct (reads_any s i (zlen s) Hs ltac:(lia) ltac:(lia) Hbig) as (ok & j & c & Er & Hj & Hok & Hbad).
    rewrite Er. cbn [mbind option_bind]. destruct ok.
    + destruct (Hok eq_refl) as (Hc & Hl & Hjc).
      destruct (IH (j + 1) (write c output) success ltac:(lia) ltac:(lia)) as (cps & ok & -> & Hrest).
      exists (c :: cps), ok. cbn [flat_map]. rewrite (writes (enc := enc')), <- app_assoc by done. split; [done|].
      rewrite (drop_lies _ _ _ Hl), <- Hjc. by constructor.
    + destruct (IH (j + 1) (write 65533 output) false ltac:(lia) ltac:(lia)) as (cps & ok & -> & Hrest).
      exists (65533 :: cps), false. cbn [flat_map]. rewrite (writes (enc := enc')), <- app_assoc by (unfold scalar; lia).
      split; [by rewrite andb_false_r|].
      assert (drop (Z.to_nat i) s = take (Z.to_nat (j + 1 - i)) (drop (Z.to_nat i) s) ++ drop (Z.to_nat (j + 1)) s) as E.
      { rewrite <- (take_drop (Z.to_nat (j + 1 - i)) (drop (Z.to_nat i) s)) at 1. rewrite drop_drop. do 2 f_equal. lia. }
      assert (length (take (Z.to_nat (j + 1 - i)) (drop (Z.to_nat i) s)) = Z.to_nat (j + 1 - i)) as Hlen.
      { rewrite length_take, length_drop. unfold zlen in *. lia. }
      rewrite E. apply pieces_bad with ok; [|rewrite <- E, Hlen|exact Hrest].
      { intros Hnil. rewrite Hnil in Hlen. cbn in Hlen. lia. }
      intros k c' Hk Hc' Hpre. rewrite drop_drop in Hpre.
      replace (Z.to_nat i + k)%nat with (Z.to_nat (i + Z.of_nat k)) in Hpre by lia.
      apply lies_drop in Hpre; [|lia]. destruct k as [|k].
      * replace (i + Z.of_nat 0) with i in Hpre by lia. pose proof (lies_bounds _ _ _ Hpre).
        rewrite (reads_enc s i (zlen s) c') in Er by (done || lia). discriminate.
      * by apply (Hbad eq_refl (i + Z.of_nat (S k)) c'); [lia|..].
Qed.

Lemma convert_spec src :
  Forall unit src -> zlen src <= 2147483642 ->
  exists cps ok, ConvertUnicode read write src = Some (ok, flat_map enc' cps) /\ pieces src cps ok /\
    (ok = true -> src = flat_map enc cps) /\
    forall cps', Forall scalar cps' -> src = flat_map enc cps' -> ok = true /\ flat_map enc' cps = flat_map enc' cps'.
Proof.
  intros Hs Hbig. pose proof (zlen_nonneg src) as Hpos. unfold ConvertUnicode. rewrite s32_id by lia.
  destruct (convert_any (S (length src)) src 0 [] true Hs Hbig ltac:(lia) ltac:(unfold zlen; lia)) as (cps & ok & E & Hp).
  exists cps, ok. split; [exact E|]. split; [exact Hp|]. split.
  - by apply pieces_ok.
  - intros cps' Hcps' E'. pose proof (flat_enc_length cps') as Hn. rewrite <- E' in Hn.
    assert (Hl : lies src 0 (flat_map enc cps')) by (rewrite <- E'; apply lies_all).
    rewrite (convert_valid cps' (S (length src)) src 0 [] true Hs Hbig Hcps' Hl) in E.
    + injection E as <- E. done.
    + rewrite <- E'. lia.
    + unfold zlen in Hn. lia.
Qed.
End convert.
Arguments pieces : clear implicits.

(** ** The three encodings *)
Inductive Encoding := UTF8 | UTF16 | UTF32.

Definition enc_of (e : Encoding) : Z -> list Z := match e with UTF8 => enc8 | UTF16 => enc16 | UTF32 => enc32 end.
Definition unit_of (e : Encoding) : Z -> Prop := match e with UTF8 => is_byte | UTF16 => unit16 | UTF32 => unit32 end.
Definition reader_of (e : Encoding) : Reader :=
  match e with UTF8 => ReadUnicodeCharacter8 | UTF16 => ReadUnicodeCharacter16 | UTF32 => ReadUnicodeCharacter32 end.
Definition writer_of (e : Encoding) : Z -> list Z -> list Z :=
  match e with UTF8 => WriteUnicodeCharacter8 | UTF16 => WriteUnicodeCharacter16 | UTF32 => WriteUnicodeCharacter32 end.

(** The text of some scalar values. *)
Definition text (e : Encoding) (cps : list Z) : list Z := flat_map (enc_of e) cps.

#[export] Instance reads_of e : Reads (enc_of e) (unit_of e) (reader_of e).
Proof. destruct e; apply _. Qed.
#[export] Instance writes_of e : Writes (enc_of e) (writer_of e).
Proof. destruct e; apply _. Qed.

(** The conversion between two encodings. *)
Definition convert (from to : Encoding) : list Z -> option (bool * list Z) := ConvertUnicode (reader_of from) (writer_of to).

Lemma text_units e cps : Forall scalar cps -> Forall (unit_of e) (text e cps).
Proof.
  induction 1 as [|c cps Hc _ IH]; [constructor|]. cbn [text flat_map]. apply Forall_app. split; [|exact IH].
  destruct e; cbn.
  - by apply enc8_bytes.
  - unfold scalar, enc16, unit16 in *. case_if; to_prop; repeat constructor; Z.div_mod_to_equations; lia.
  - unfold scalar, unit32 in *. repeat constructor; lia.
Qed.

(** C8. Of any text, a conversion between UTF-8, UTF-16 and UTF-32 makes valid
    text, and reads nothing outside it: the text of the scalar values that the
    pieces of the source encode, in order, with one U+FFFD for each piece that
    is not valid, which is one in which no scalar value is encoded from any
    place ([pieces]). It reports success exactly for valid text, with no
    overlong form, surrogate or number above U+10FFFF; then the scalar values
    are those of the text, so converting back gives the text. (For less than
    2^31 - 5 units, which is what an [int32] can index.) *)
Theorem conversions_are_exact from to src :
  Forall (unit_of from) src -> zlen src <= 2147483642 ->
  exists cps ok, convert from to src = Some (ok, text to cps) /\ Forall scalar cps /\
    pieces (enc_of from) src cps ok /\
    (ok = true <-> exists cps', Forall scalar cps' /\ src = text from cps') /\
    (ok = true -> src = text from cps /\
       (zlen (text to cps) <= 2147483642 -> convert to from (text to cps) = Some (true, src))).
Proof.
  intros Hs Hbig. destruct (convert_spec (enc := enc_of from) (enc' := enc_of to) (read := reader_of from) (write := writer_of to)
    src Hs Hbig) as (cps & ok & E & Hp & Hok & Hvalid).
  pose proof (pieces_scalars _ _ _ Hp) as Hcps.
  exists cps, ok. split; [exact E|]. split; [done|]. split; [done|].
  split; [split; [eauto|intros (cps' & Hc' & E'); by destruct (Hvalid cps' Hc' E')]|].
  intros Hk. specialize (Hok Hk). split; [exact Hok|]. intros Hlen.
  destruct (convert_spec (enc := enc_of to) (enc' := enc_of from) (read := reader_of to) (write := writer_of from)
    (text to cps) (text_units to cps Hcps) Hlen) as (cps2 & ok2 & E2 & Hcps2 & Hok2 & Hvalid2).
  destruct (Hvalid2 cps Hcps eq_refl) as [-> Heq]. unfold convert. rewrite E2, Heq, Hok. done.
Qed.

(** The euro sign and a clef, in UTF-8 and in UTF-16. *)
Lemma conversions_are_exact_witness :
  exists cps, convert UTF8 UTF16 [226; 130; 172; 240; 157; 132; 158] = Some (true, text UTF16 cps) /\
    text UTF16 cps = [8364; 55348; 56606] /\ convert UTF8 UTF16 [192; 128] = Some (false, [65533]) /\
    convert UTF16 UTF8 (text UTF16 cps) = Some (true, [226; 130; 172; 240; 157; 132; 158]).
Proof.
  destruct (conversions_are_exact UTF8 UTF16 [226; 130; 172; 240; 157; 132; 158]) as (cps & ok & E & Hcps & _ & Hiff & Hback).
  { repeat constructor; lia. }
  { unfold zlen. cbn. lia. }
  assert (Hk : ok = true).
  { apply Hiff. exists [8364; 119070]. split; [repeat constructor; unfold scalar; lia|reflexivity]. }
  destruct (Hback Hk) as [_ Hb]. exists cps. rewrite Hk in E. split; [exact E|].
  assert (Et : text UTF16 cps = [8364; 55348; 56606]) 
    by (assert (Ec : convert UTF8 UTF16 [226; 130; 172; 240; 157; 132; 158] = Some (true, [8364; 55348; 56606])) by (vm_compute; reflexivity);
        rewrite Ec in E; injection E as E; symmetry; exact E).
  split; [exact Et|]. split; [vm_compute; reflexivity|]. apply Hb. rewrite Et. unfold zlen. cbn. lia.
Defined.

(** ** The test for UTF-8 *)
Definition character (c : Z) : Prop := scalar c /\ IsValidCharacter c = true.

Lemma utf8_loop_spec fuel s i :
  Forall is_byte s -> zlen s <= 2147483642 -> 0 <= i <= zlen s -> (Z.to_nat (zlen s - i) < fuel)%nat ->
  exists ok, utf8_loop fuel s (zlen s) i = Some ok /\
    (ok = true -> exists cps, Forall character cps /\ drop (Z.to_nat i) s = flat_map enc8 cps).
Proof.
  intros Hs Hbig. revert i. induction fuel as [|fuel IH]; intros i Hi Hf; [lia|]. cbn [utf8_loop].
  destruct (Z.ltb_spec i (zlen s)).
  - destruct (CBU8_NEXT_spec s i (zlen s) Hs ltac:(lia) ltac:(lia) Hbig) as (j & c & -> & Hj & Hc). cbn [mbind option_bind].
    destruct (IsValidCharacter (u32 c)) eqn:Hv; cbn [negb]; [|by exists false].
    destruct (IH j ltac:(lia) ltac:(lia)) as (ok & -> & Hok). exists ok. split; [done|]. intros E.
    destruct Hc as [[-> _]|(Hc & (pre & post & Es & Hpre) & Hjc)]; [vm_compute in Hv; discriminate|].
    destruct (Hok E) as (cps & Hcps & Hd). exists (c :: cps). split.
    { constructor; [|done]. split; [done|]. unfold scalar in Hc. by rewrite u32_id in Hv by lia. }
    cbn [flat_map]. rewrite <- Hd. rewrite Hjc, <- Hpre, Es.
    rewrite <- zlen_app. unfold zlen. rewrite !Nat2Z.id, app_assoc, drop_app_length, <- app_assoc, drop_app_length. done.
  - exists true. split; [done|]. intros _. exists []. split; [constructor|]. apply drop_ge. unfold zlen in *. lia.
Qed.

Lemma utf8_loop_valid cps fuel s i :
  Forall is_byte s -> zlen s <= 2147483642 -> Forall character cps -> lies s i (flat_map enc8 cps) ->
  i + zlen (flat_map enc8 cps) = zlen s -> (length cps < fuel)%nat -> utf8_loop fuel s (zlen s) i = Some true.
Proof.
  intros Hs Hbig Hcps. revert fuel i. induction Hcps as [|c cps [Hc Hv] Hcps IH]; intros [|fuel] i Hl Hi Hf; cbn in Hf; try lia.
  - cbn [utf8_loop flat_map] in *. by rewrite (proj2 (Z.ltb_ge _ _)) by (change (zlen (@nil Z)) with 0 in Hi; lia).
  - cbn [utf8_loop flat_map] in *. pose proof (enc8_length c). rewrite zlen_app in Hi. pose proof (zlen_nonneg (flat_map enc8 cps)).
    rewrite (proj2 (Z.ltb_lt _ _)) by lia. pose proof (lies_bounds _ _ _ Hl). apply lies_app in Hl as [Hl1 Hl2].
    rewrite (CBU8_NEXT_enc s i (zlen s) c) by (done || lia). cbn [mbind option_bind].
    unfold scalar in Hc. rewrite u32_id by lia. rewrite Hv. cbn [negb]. apply IH; [done|lia|lia].
Qed.

Lemma IsStringUTF8_spec s :
  Forall is_byte s -> zlen s <= 2147483642 ->
  exists ok, IsStringUTF8 s = Some ok /\ (ok = true <-> exists cps, Forall character cps /\ s = flat_map enc8 cps).
Proof.
  intros Hs Hbig. pose proof (zlen_nonneg s). unfold IsStringUTF8. rewrite s32_id by lia.
  destruct (utf8_loop_spec (S (length s)) s 0 Hs Hbig ltac:(lia) ltac:(unfold zlen; lia)) as (ok & E & Hok).
  exists ok. split; [exact E|]. split; [exact Hok|]. intros (cps & Hcps & Es).
  pose proof (flat_enc_length (enc := enc8) (read := ReadUnicodeCharacter8) (unit := is_byte) cps) as Hn. rewrite <- Es in Hn.
  rewrite (utf8_loop_valid cps) in E; [by injection E as <-|done|done|done|by rewrite <- Es; apply lies_all|rewrite <- Es; lia|unfold zlen in Hn; lia].
Qed.
