(* ===== verification/Values.v ===== *)
(** The values of JSON, base/values.{h,cc}: what of them the parser and the
    writer use; and the text of a double, as far as it is not left to the
    library of David M. Gay in base/third_party/dmg_fp. *)
From S2P Require Import Prelude CArrays NumberConversions Utf.

(** ** The build

    Whether failed checks end the process, and which characters are white
    space, which is up to the locale. *)
Class Build := {
  DCHECK_IS_ON : bool;
  LocalIsWhitespace : Z -> bool
}.

(** A check of a build that may have them or not. *)
Definition check `{Build} (b : bool) : res unit := if DCHECK_IS_ON && negb b then Failed else Ok tt.

(** ** Doubles

    [strtod] gives the value, the index where it stopped and whether it set
    [errno]; [g_fmt] the text of a value; [integral] the integer that a value
    is, if it is one. *)
Class Doubles (double : Type) := {
  strtod : list Z -> double * Z * bool;
  g_fmt : double -> list Z;
  IsFinite : double -> bool;
  integral : double -> option Z
}.

Section doubles.
Context `{Build} {double : Type} `{Doubles double}.

(* src: base/strings/string_number_conversions.cc 461-481! StringToDouble *)
Definition StringToDouble (input : list Z) : bool * double :=
  let '(output, endptr, erange) := strtod input in
  (negb erange && negb (zlen input =? 0) && (zlen input =? endptr) && negb (LocalIsWhitespace (at_ input 0)), output).

(* src: base/strings/string_number_conversions.cc 414-419! DoubleToString *)
Definition DoubleToString (value : double) : list Z := g_fmt value.
End doubles.

(** ** Values *)

(** A piece of a text that somebody else owns. *)
Record StringPiece := mkStringPiece { ptr_ : Z; piece_length_ : Z }.

(** The children of a list and of a dictionary belong to it. A dictionary is a
    [std::map]: its entries by increasing key. *)
(* src: base/values.h 57-67! Value *)
Inductive Value (double : Type) :=
  | NullValue
  | BooleanValue (boolean_value_ : bool)
  | IntegerValue (integer_value_ : Z)
  | DoubleValue (double_value_ : double)
  | StringValue (value_ : list Z)
  | JSONStringValue (string_piece_ : StringPiece)
  | BinaryValue (buffer_ : list Z)
  | DictionaryValue (dictionary_ : list (list Z * Value double))
  | ListValue (list_ : list (Value double)).
Arguments NullValue {double}.
Arguments BooleanValue {double}.
Arguments IntegerValue {double}.
Arguments DoubleValue {double}.
Arguments StringValue {double}.
Arguments JSONStringValue {double}.
Arguments BinaryValue {double}.
Arguments DictionaryValue {double}.
Arguments ListValue {double}.

(** [std::string::operator<], which compares bytes. *)
Fixpoint key_ltb (a b : list Z) : bool :=
  match a, b with
  | _, [] => false
  | [], _ :: _ => true
  | x :: a, y :: b => if x <? y then true else if y <? x then false else key_ltb a b
  end.

Definition key_eqb (a b : list Z) : bool := bool_decide (a = b).

Section values.
Context `{Build} {double : Type}.
Implicit Types v : Value double.

(* src: base/values.cc 267-271! StringValue *)
Definition new_StringValue (in_value : list Z) : res (Value double) :=
  utf8 ← checked (IsStringUTF8 in_value);
  check utf8 ;;
  Ok (StringValue in_value).

(** The insertion into the map, or the value at the key replaced. *)
(* src: base/values.cc 427-438! SetWithoutPathExpansion *)
Fixpoint SetWithoutPathExpansion (key : list Z) (in_value : Value double) (dictionary_ : list (list Z * Value double)) :
    list (list Z * Value double) :=
  match dictionary_ with
  | [] => [(key, in_value)]
  | (k, v) :: rest =>
      if key_eqb key k then (key, in_value) :: rest
      else if key_ltb key k then (key, in_value) :: (k, v) :: rest
      else (k, v) :: SetWithoutPathExpansion key in_value rest
  end.

(** The text of a piece; [None] when the piece is not in the memory. *)
Definition as_string (json : list Z) (piece : StringPiece) : option (list Z) :=
  if (0 <=? ptr_ piece) && (0 <=? piece_length_ piece) && (ptr_ piece + piece_length_ piece <=? zlen json)
  then Some (take (Z.to_nat (piece_length_ piece)) (drop (Z.to_nat (ptr_ piece)) json)) else None.

(** A copy that owns its strings, of a value whose pieces are of [json]. *)
Section copy.
Variable copy : Value double -> res (Value double).

(* src: base/values.cc 1083-1090! DeepCopy *)
Fixpoint copy_list (list_ : list (Value double)) : res (list (Value double)) :=
  match list_ with
  | [] => Ok []
  | v :: list_ => v ← copy v; rest ← copy_list list_; Ok (v :: rest)
  end.

(* src: base/values.cc 788-798! DeepCopy *)
Fixpoint copy_dictionary (dictionary_ result : list (list Z * Value double)) : res (list (list Z * Value double)) :=
  match dictionary_ with
  | [] => Ok result
  | (key, v) :: dictionary_ => v ← copy v; copy_dictionary dictionary_ (SetWithoutPathExpansion key v result)
  end.
End copy.

(* src: base/json/json_parser.cc 148-150! DeepCopy *)
(* src: base/values.cc 293-295! DeepCopy *)
Fixpoint DeepCopy (json : list Z) (v : Value double) : res (Value double) :=
  match v with
  | StringValue value_ => new_StringValue value_
  | JSONStringValue piece => value_ ← checked (as_string json piece); new_StringValue value_
  | ListValue list_ => result ← copy_list (DeepCopy json) list_; Ok (ListValue result)
  | DictionaryValue dictionary_ => result ← copy_dictionary (DeepCopy json) dictionary_ []; Ok (DictionaryValue result)
  | v => Ok v
  end.

(** ** Roots

    The root that the parser returns owns the text that pieces below it are of,
    if there can be any. *)
(* src: base/json/json_parser.cc 33-38! DictionaryHiddenRootValue *)
Inductive Root :=
  | HiddenRoot (json_ : list Z) (root : Value double)
  | PlainRoot (root : Value double).

Fixpoint find_key (key : list Z) (d : list (list Z * Value double)) : option (Value double) :=
  match d with
  | [] => None
  | (k, v) :: d => if key_eqb key k then Some v else find_key key d
  end.

Fixpoint erase_key (key : list Z) (d : list (list Z * Value double)) : list (list Z * Value double) :=
  match d with
  | [] => []
  | (k, v) :: d => if key_eqb key k then d else (k, v) :: erase_key key d
  end.

(** Removing a child that the caller takes: what it gets, if there was one. *)
(* src: base/json/json_parser.cc 58-75! RemoveWithoutPathExpansion *)
(* src: base/values.cc 742-756! RemoveWithoutPathExpansion *)
Definition RemoveWithoutPathExpansion (key : list Z) (r : Root) : res (option (Value double) * Root) :=
  match r with
  | HiddenRoot json_ (DictionaryValue d) =>
      utf8 ← checked (IsStringUTF8 key);
      check utf8 ;;
      match find_key key d with
      | None => Ok (None, r)
      | Some out_owned =>
          out ← DeepCopy json_ out_owned;
          Ok (Some out, HiddenRoot json_ (DictionaryValue (erase_key key d)))
      end
  | PlainRoot (DictionaryValue d) =>
      utf8 ← checked (IsStringUTF8 key);
      check utf8 ;;
      Ok (find_key key d, PlainRoot (DictionaryValue (erase_key key d)))
  | _ => Ok (None, r)
  end.

(* src: base/json/json_parser.cc 105-121! Remove *)
(* src: base/values.cc 965-976! Remove *)
Definition Remove (index : Z) (r : Root) : res (option (Value double) * Root) :=
  match r with
  | HiddenRoot json_ (ListValue l) =>
      match get l index with
      | None => Ok (None, r)
      | Some out_owned => out ← DeepCopy json_ out_owned; Ok (Some out, HiddenRoot json_ (ListValue (delete (Z.to_nat index) l)))
      end
  | PlainRoot (ListValue l) => Ok (get l index, PlainRoot (ListValue (delete (Z.to_nat index) l)))
  | _ => Ok (None, r)
  end.
End values.
Arguments Root : clear implicits.
