(* ===== verification/ValuesProperties.v ===== *)
(** Dictionaries of values keep their keys in order, as [std::map] does. *)
From S2P Require Import Prelude CArrays NumberConversions Utf Values.
From Stdlib Require Import Sorted.

(** ** The order of keys *)
Definition key_lt (a b : list Z) : Prop := key_ltb a b = true.

Lemma key_ltb_irrefl a : key_ltb a a = false.
Proof. induction a as [|x a IH]; [done|]. cbn. by rewrite Z.ltb_irrefl. Qed.

Lemma key_lt_trans a b c : key_lt a b -> key_lt b c -> key_lt a c.
Proof.
  unfold key_lt. revert b c. induction a as [|x a IH]; intros [|y b] [|z c]; cbn; try done.
  destruct (Z.ltb_spec x y), (Z.ltb_spec y x), (Z.ltb_spec y z), (Z.ltb_spec z y), (Z.ltb_spec x z), (Z.ltb_spec z x);
    try done; try lia. apply IH.
Qed.

Lemma key_total a b : key_ltb a b = false -> a <> b -> key_lt b a.
Proof.
  unfold key_lt. revert b. induction a as [|x a IH]; intros [|y b]; cbn; try done.
  destruct (Z.ltb_spec x y), (Z.ltb_spec y x); try done. intros Hab Hne. apply IH; [done|].
  intros ->. apply Hne. f_equal. lia.
Qed.

Lemma key_lt_ne a b : key_lt a b -> a <> b.
Proof. unfold key_lt. intros Hab ->. by rewrite key_ltb_irrefl in Hab. Qed.

Lemma key_eqb_refl a : key_eqb a a = true.
Proof. by apply bool_decide_eq_true. Qed.

Lemma key_eqb_ne a b : a <> b -> key_eqb a b = false.
Proof. intros Hab. by apply bool_decide_eq_false. Qed.

(** ** Dictionaries *)
Section dictionaries.
Context {double : Type}.
Implicit Types (v : Value double) (d : list (list Z * Value double)).

Definition keys d : list (list Z) := map fst d.
Definition ordered d : Prop := StronglySorted key_lt (keys d).

Lemma set_keys key v d k : k ∈ keys (SetWithoutPathExpansion key v d) -> k = key \/ k ∈ keys d.
Proof.
  unfold keys. induction d as [|[k' v'] d IH]; cbn; [intros Hk%list_elem_of_singleton; by left|]. unfold key_eqb.
  case_bool_decide as E; cbn; [subst; auto|]. destruct (key_ltb key k'); cbn; [rewrite !elem_of_cons; tauto|].
  rewrite !elem_of_cons. intros [-> |Hk]; [auto|]. destruct (IH Hk); auto.
Qed.

Lemma set_ordered key v d : ordered d -> ordered (SetWithoutPathExpansion key v d).
Proof.
  unfold ordered. induction d as [|[k v'] d IH]; cbn; [by repeat constructor|]. intros Hd. apply StronglySorted_inv in Hd as [Hd Hk].
  unfold key_eqb. case_bool_decide as E; cbn; [subst; by constructor|]. destruct (key_ltb key k) eqn:Hlt; cbn.
  - constructor; [by constructor|]. constructor; [done|]. eapply Forall_impl; [exact Hk|]. intros k' Hk'. by eapply key_lt_trans.
  - constructor; [by apply IH|]. rewrite Forall_forall in Hk |- *. intros k' Hk'. apply set_keys in Hk' as [-> |Hk']; [|by apply Hk].
    apply key_total; [done|congruence].
Qed.

Lemma set_Forall (P : list Z * Value double -> Prop) key v d :
  P (key, v) -> Forall P d -> Forall P (SetWithoutPathExpansion key v d).
Proof.
  intros Hp. induction 1 as [|[k v'] d Hk Hd IH]; cbn; [by repeat constructor|].
  repeat case_match; repeat (constructor; try done).
Qed.

(** Setting the greatest key puts it at the end. *)
Lemma set_last key v d :
  Forall (fun k => key_lt k key) (keys d) -> SetWithoutPathExpansion key v d = d ++ [(key, v)].
Proof.
  induction d as [|[k v'] d IH]; cbn; [done|]. intros Hd. apply Forall_cons_1 in Hd as [Hk Hd].
  rewrite (key_eqb_ne key k) by (apply not_eq_sym, key_lt_ne, Hk).
  replace (key_ltb key k) with false; [by rewrite IH|]. symmetry. apply not_true_is_false. intros Hlt.
  by apply (key_lt_ne key key); [eapply key_lt_trans|].
Qed.

(** The entries behind those that are there, one by one. *)
Lemma sorted_before (l1 : list (list Z)) k l2 : StronglySorted key_lt (l1 ++ k :: l2) -> Forall (fun k' => key_lt k' k) l1.
Proof.
  induction l1 as [|k1 l1 IH]; [constructor|]. cbn. intros Hs. apply StronglySorted_inv in Hs as [Hs Hk]. constructor; [|by apply IH].
  apply Forall_app in Hk as [_ Hk]. by apply Forall_cons_1 in Hk as [Hk _].
Qed.

Lemma set_next key v d later :
  StronglySorted key_lt (keys d ++ key :: later) ->
  SetWithoutPathExpansion key v d = d ++ [(key, v)] /\ StronglySorted key_lt (keys (d ++ [(key, v)]) ++ later).
Proof.
  intros Hs. split; [by eapply set_last, sorted_before|]. unfold keys in *. rewrite map_app. cbn. by rewrite <- app_assoc.
Qed.

(** What was set is found, and nothing else changes. *)
Lemma find_set key v d k :
  ordered d -> find_key k (SetWithoutPathExpansion key v d) = if key_eqb k key then Some v else find_key k d.
Proof.
  unfold ordered. induction d as [|[k' v'] d IH]; cbn; [done|]. intros Hd. apply StronglySorted_inv in Hd as [Hd Hk].
  destruct (decide (key = k')) as [<- |Hne]; [rewrite key_eqb_refl; cbn; by destruct (key_eqb k key)|].
  rewrite (key_eqb_ne key k') by done. destruct (key_ltb key k'); cbn; [done|]. rewrite IH by done.
  destruct (decide (k = k')) as [-> |]; [by rewrite key_eqb_refl, (key_eqb_ne k' key)|by rewrite (key_eqb_ne k k')].
Qed.
End dictionaries.

(** ** Pieces of a text *)
Section pieces.
Implicit Types json t : list Z.

Lemma as_string_snoc json from n t c :
  as_string json (mkStringPiece from n) = Some t -> get json (from + n) = Some c ->
  as_string json (mkStringPiece from (n + 1)) = Some (t ++ [c]).
Proof.
  unfold as_string. cbn [ptr_ piece_length_]. destruct (_ && _) eqn:E; [|done]. to_prop. intros [= <-] Hc.
  pose proof (get_range _ _ _ Hc). rewrite (proj2 (Z.leb_le 0 from)), (proj2 (Z.leb_le 0 (n + 1))), (proj2 (Z.leb_le _ (zlen json))) by lia.
  cbn [andb]. f_equal. unfold get in Hc. rewrite (proj2 (Z.ltb_ge _ 0)) in Hc by lia.
  rewrite Z2Nat.inj_add in Hc by lia. rewrite Z2Nat.inj_add by lia. change (Z.to_nat 1) with 1%nat.
  rewrite Nat.add_1_r. apply take_S_r. by rewrite lookup_drop.
Qed.

Lemma as_string_zlen json piece t : as_string json piece = Some t -> zlen t = piece_length_ piece.
Proof.
  unfold as_string. destruct (_ && _) eqn:E; [|done]. to_prop. intros [= <-]. apply zlen_take.
  rewrite zlen_drop by lia. lia.
Qed.

Lemma as_string_Forall (P : Z -> Prop) json piece t : Forall P json -> as_string json piece = Some t -> Forall P t.
Proof. intros Hj. unfold as_string. destruct (_ && _); [|done]. intros [= <-]. by apply Forall_take, Forall_drop. Qed.

Lemma as_string_lies json p t : lies json p t -> as_string json (mkStringPiece p (zlen t)) = Some t.
Proof.
  intros Hl. pose proof (lies_bounds _ _ _ Hl). pose proof (zlen_nonneg t). unfold as_string. cbn [ptr_ piece_length_].
  rewrite (proj2 (Z.leb_le 0 p)), (proj2 (Z.leb_le 0 (zlen t))), (proj2 (Z.leb_le _ (zlen json))) by lia. cbn [andb]. f_equal.
  destruct Hl as (pre & post & -> & <-). unfold zlen. rewrite !Nat2Z.id, drop_app_length. apply take_app_length.
Qed.
End pieces.
