(* ===== verification/JsonParser.v ===== *)
(** The JSON parser, base/json/json_parser.{h,cc} and json_reader.{h,cc}.

    A position in the input is its distance from [start_pos_], and the memory
    from [start_pos_] on is a list of bytes, which may go on behind the end of
    the input. [Failed] is a read outside that memory, or, in a build with
    checks, a failed check. Texts are shorter than 2^31 bytes where theorems
    speak of them; [index_] is an [int] that wraps around here. *)
From S2P Require Import Prelude CArrays NumberConversions Utf Values.

Definition kStackMaxDepth : nat := 100.
Definition kExtendedASCIIStart : Z := 128.

(* src: base/json/json_reader.h 48-61! JSONParserOptions *)
Definition JSON_PARSE_RFC : Z := 0.
Definition JSON_ALLOW_TRAILING_COMMAS : Z := 1.
Definition JSON_DETACHABLE_CHILDREN : Z := 2.
Definition has_option (options option : Z) : bool := negb (Z.land options option =? 0).

(* src: base/json/json_reader.h 66-76! JsonParseError *)
Inductive JsonParseError :=
  | JSON_NO_ERROR | JSON_INVALID_ESCAPE | JSON_SYNTAX_ERROR | JSON_UNEXPECTED_TOKEN | JSON_TRAILING_COMMA
  | JSON_TOO_MUCH_NESTING | JSON_UNEXPECTED_DATA_AFTER_ROOT | JSON_UNSUPPORTED_ENCODING | JSON_UNQUOTED_DICTIONARY_KEY.

(* src: base/json/json_parser.h 76-90! Token *)
Inductive Token :=
  | T_OBJECT_BEGIN | T_OBJECT_END | T_ARRAY_BEGIN | T_ARRAY_END | T_STRING | T_NUMBER | T_BOOL_TRUE | T_BOOL_FALSE
  | T_NULL | T_LIST_SEPARATOR | T_OBJECT_PAIR_SEPARATOR | T_END_OF_INPUT | T_INVALID_TOKEN.

#[export] Instance Token_eq_dec : EqDecision Token.
Proof. solve_decision. Defined.

(** [memory] is what lies from [start_pos_] on. *)
(* src: base/json/json_parser.h 226-254! JSONParser *)
Record JSONParser := mkJSONParser {
  options_ : Z;
  memory : list Z;
  pos_ : Z;
  end_pos_ : Z;
  index_ : Z;
  stack_depth_ : Z;
  line_number_ : Z;
  index_last_line_ : Z;
  error_code_ : JsonParseError;
  error_line_ : Z;
  error_column_ : Z
}.

#[export] Instance eta_JSONParser : Eta JSONParser := fun s =>
  mkJSONParser (options_ s) (memory s) (pos_ s) (end_pos_ s) (index_ s) (stack_depth_ s) (line_number_ s)
    (index_last_line_ s) (error_code_ s) (error_line_ s) (error_column_ s).

(* src: base/json/json_parser.cc 187-199! JSONParser *)
Definition new_JSONParser (options : Z) : JSONParser :=
  mkJSONParser options [] 0 0 0 0 0 0 JSON_NO_ERROR 0 0.

(** ** Code of the parser *)
Definition M (A : Type) : Type := JSONParser -> res (A * JSONParser).

#[export] Instance M_ret : MRet M := fun A a s => Ok (a, s).
#[export] Instance M_bind : MBind M := fun A B f m s =>
  match m s with Ok (a, s') => f a s' | Failed => Failed | NoFuel => NoFuel end.

Definition get_state : M JSONParser := fun s => Ok (s, s).
Definition modify (f : JSONParser -> JSONParser) : M unit := fun s => Ok (tt, f s).
Definition lift {A} (r : res A) : M A := fun s => a ← r; Ok (a, s).

(** The byte at a position, and the one at [pos_]. *)
Definition byte_at (p : Z) : M Z := fun s => lift (checked (get (memory s) p)) s.
Definition here : M Z := s ← get_state; byte_at (pos_ s).

(** The bytes of a piece of the input. *)
Definition bytes_of (p n : Z) : M (list Z) := fun s => lift (checked (as_string (memory s) (mkStringPiece p n))) s.

(** One more than the bytes that are left, for loops over them. *)
Definition bytes_left (s : JSONParser) : nat := S (Z.to_nat (end_pos_ s - pos_ s)).

Section JSONParser.
Context `{Build} {double : Type} `{Doubles double}.

Definition check_ (b : bool) : M unit := lift (check b).

(* src: base/json/json_parser.cc 339-341! CanConsume *)
Definition CanConsume (n : Z) : M bool := s ← get_state; mret (pos_ s + n <=? end_pos_ s).

(* src: base/json/json_parser.cc 343-348! NextChar *)
Definition NextChar : M unit :=
  can ← CanConsume 1;
  check_ can ;;
  modify (fun s => s <| index_ := index_ s ⊕ 1 |> <| pos_ := pos_ s + 1 |>).

(* src: base/json/json_parser.cc 350-354! NextNChars *)
Definition NextNChars (n : Z) : M unit :=
  can ← CanConsume n;
  check_ can ;;
  modify (fun s => s <| index_ := index_ s ⊕ n |> <| pos_ := pos_ s + n |>).

(** [*NextChar()] *)
Definition next_byte : M Z := NextChar ;; here.

(* src: base/json/json_parser.cc 947-952! ReportError *)
Definition ReportError (code : JsonParseError) (column_adjust : Z) : M unit :=
  modify (fun s => s <| error_code_ := code |> <| error_line_ := line_number_ s |>
    <| error_column_ := index_ s ⊖ index_last_line_ s ⊕ column_adjust |>).

(** An error is reported, and the caller gets nothing. *)
Definition fail {A} (code : JsonParseError) (column_adjust : Z) : M (option A) :=
  ReportError code column_adjust ;; mret None.

(** ** White space and comments *)

(* src: base/json/json_parser.cc 428-434! EatComment *)
Fixpoint line_comment (fuel : nat) : M bool :=
  match fuel with
  | O => fun _ => NoFuel
  | S fuel =>
      can ← CanConsume 1;
      if negb can then mret false else
      next_char ← next_byte;
      if (next_char =? 10) || (next_char =? 13) then mret true else line_comment fuel
  end.

(* src: base/json/json_parser.cc 435-448! EatComment *)
Fixpoint block_comment (fuel : nat) (previous_char : Z) : M bool :=
  match fuel with
  | O => fun _ => NoFuel
  | S fuel =>
      can ← CanConsume 1;
      if negb can then mret false else
      next_char ← next_byte;
      if (previous_char =? "*"%ch) && (next_char =? "/"%ch) then NextChar ;; mret true
      else block_comment fuel next_char
  end.

(* src: base/json/json_parser.cc 423-454! EatComment *)
Definition EatComment : M bool :=
  c ← here;
  can ← CanConsume 1;
  if negb (c =? "/"%ch) || negb can then mret false else
  next_char ← next_byte;
  s ← get_state;
  if next_char =? "/"%ch then line_comment (bytes_left s)
  else if next_char =? "*"%ch then block_comment (bytes_left s) 0
  else mret false.

(** The case of the end of a line. *)
(* src: base/json/json_parser.cc 402-407! EatWhitespaceAndComments *)
Definition end_of_line (c : Z) : M unit :=
  modify (fun s => s <| index_last_line_ := index_ s |>) ;;
  s ← get_state;
  crlf ← (if (c =? 10) && (0 <? pos_ s) then previous ← byte_at (pos_ s - 1); mret (previous =? 13) else mret false);
  if negb crlf then modify (fun s => s <| line_number_ := line_number_ s ⊕ 1 |>) else mret tt.

(* src: base/json/json_parser.cc 400-420! EatWhitespaceAndComments *)
Fixpoint eat_loop (fuel : nat) : M unit :=
  match fuel with
  | O => fun _ => NoFuel
  | S fuel =>
      s ← get_state;
      if negb (pos_ s <? end_pos_ s) then mret tt else
      c ← here;
      if (c =? 13) || (c =? 10) then end_of_line c ;; NextChar ;; eat_loop fuel
      else if (c =? " "%ch) || (c =? 9) then NextChar ;; eat_loop fuel
      else if c =? "/"%ch then
        eaten ← EatComment;
        if negb eaten then mret tt else eat_loop fuel
      else mret tt
  end.

(* src: base/json/json_parser.cc 399-421! EatWhitespaceAndComments *)
Definition EatWhitespaceAndComments : M unit := s ← get_state; eat_loop (bytes_left s).

(* src: base/json/json_parser.cc 361-396! GetNextToken *)
Definition token_of (c : Z) : Token :=
  if c =? "{"%ch then T_OBJECT_BEGIN
  else if c =? "}"%ch then T_OBJECT_END
  else if c =? "["%ch then T_ARRAY_BEGIN
  else if c =? "]"%ch then T_ARRAY_END
  else if c =? 34 then T_STRING
  else if (("0"%ch <=? c) && (c <=? "9"%ch)) || (c =? "-"%ch) then T_NUMBER
  else if c =? "t"%ch then T_BOOL_TRUE
  else if c =? "f"%ch then T_BOOL_FALSE
  else if c =? "n"%ch then T_NULL
  else if c =? ","%ch then T_LIST_SEPARATOR
  else if c =? ":"%ch then T_OBJECT_PAIR_SEPARATOR
  else T_INVALID_TOKEN.

(* src: base/json/json_parser.cc 356-397! GetNextToken *)
Definition GetNextToken : M Token :=
  EatWhitespaceAndComments ;;
  can ← CanConsume 1;
  if negb can then mret T_END_OF_INPUT else
  c ← here;
  mret (token_of c).

(** ** Strings *)

(* src: base/json/json_parser.h 134-143! StringBuilder *)
Record StringBuilder := mkStringBuilder { string_pos_ : Z; length_ : Z; string_ : option (list Z) }.

(* src: base/json/json_parser.cc 284-288! StringBuilder *)
Definition new_StringBuilder (pos : Z) : StringBuilder := mkStringBuilder pos 0 None.

(** [c] is a [char]. *)
(* src: base/json/json_parser.cc 300-308! Append *)
Definition Append (c : Z) (b : StringBuilder) : M StringBuilder :=
  check_ (0 <=? c) ;;
  check_ (c <? 128) ;;
  mret match string_ b with
       | Some str => mkStringBuilder (string_pos_ b) (length_ b) (Some (str ++ [u8 c]))
       | None => mkStringBuilder (string_pos_ b) (length_ b + 1) None
       end.

(** A call before [Convert] has no string to append to. *)
(* src: base/json/json_parser.cc 310-313! AppendString *)
Definition AppendString (str : list Z) (b : StringBuilder) : M StringBuilder :=
  match string_ b with
  | Some old => mret (mkStringBuilder (string_pos_ b) (length_ b) (Some (old ++ str)))
  | None => lift Failed
  end.

(* src: base/json/json_parser.cc 315-319! Convert *)
Definition Convert (b : StringBuilder) : M StringBuilder :=
  match string_ b with
  | Some _ => mret b
  | None => str ← bytes_of (string_pos_ b) (length_ b); mret (mkStringBuilder (string_pos_ b) (length_ b) (Some str))
  end.

(* src: base/json/json_parser.cc 321-323! CanBeStringPiece *)
Definition CanBeStringPiece (b : StringBuilder) : bool := match string_ b with None => true | Some _ => false end.

(* src: base/json/json_parser.cc 325-329! AsStringPiece *)
Definition AsStringPiece (b : StringBuilder) : StringPiece :=
  match string_ b with None => mkStringPiece (string_pos_ b) (length_ b) | Some _ => mkStringPiece 0 0 end.

(* src: base/json/json_parser.cc 331-335! AsString *)
Definition AsString (b : StringBuilder) : M (list Z) :=
  b ← Convert b;
  match string_ b with Some str => mret str | None => lift Failed end.

(** [HexStringToInt(StringPiece(p, n), &out)], with [out] zero before. *)
Definition hex_at (p n : Z) : M (bool * Z) :=
  digits ← bytes_of p n;
  mret (HexStringToInt LocalIsWhitespace digits 0).

(** [dest_string->append(code_unit8)]: the characters before a null byte. *)
Fixpoint c_string (l : list Z) : list Z :=
  match l with [] => [] | c :: l => if c =? 0 then [] else c :: c_string l end.

(** The second half of a surrogate pair. *)
(* src: base/json/json_parser.cc 753-779! DecodeUTF16 *)
Definition low_surrogate (code_unit16_high : Z) : M (option (list Z)) :=
  if negb (CBU16_IS_SURROGATE_LEAD code_unit16_high) then mret None else
  can ← CanConsume 6;
  if negb can then mret None else
  c ← next_byte;
  if negb (c =? "\"%ch) then mret None else
  c ← next_byte;
  if negb (c =? "u"%ch) then mret None else
  NextChar ;;
  s ← get_state;
  '(ok, code_unit16_low) ← hex_at (pos_ s) 4;
  if negb ok then mret None else
  NextNChars 3 ;;
  if negb (CBU16_IS_TRAIL code_unit16_low) then mret None else
  let code_point := CBU16_GET_SUPPLEMENTARY code_unit16_high code_unit16_low in
  mret (Some (c_string (CBU8_APPEND_UNSAFE code_point))).

(** What is appended to [dest_string], or nothing for [false]. *)
(* src: base/json/json_parser.cc 728-788! DecodeUTF16 *)
Definition DecodeUTF16 : M (option (list Z)) :=
  can ← CanConsume 4;
  if negb can then mret None else
  s ← get_state;
  '(ok, code_unit16_high) ← hex_at (pos_ s) 4;
  if negb ok then mret None else
  NextNChars 3 ;;
  if CBU16_IS_SURROGATE code_unit16_high then low_surrogate code_unit16_high
  else
    check_ (CBU16_IS_SINGLE code_unit16_high) ;;
    mret (Some (c_string (CBU8_APPEND_UNSAFE code_unit16_high))).

(* src: base/json/json_parser.cc 790-804! DecodeUTF8 *)
Definition DecodeUTF8 (point : Z) (dest : StringBuilder) : M StringBuilder :=
  if point <? kExtendedASCIIStart then Append (s8 point) dest
  else
    dest ← Convert dest;
    AppendString (CBU8_APPEND_UNSAFE point) dest.

(** One turn of the loop over a string goes on with the builder, or returns. *)
Inductive turn :=
  | Again (string : StringBuilder)
  | Return (out : option StringBuilder).

Definition string_error (code : JsonParseError) (column_adjust : Z) : M turn :=
  ReportError code column_adjust ;; mret (Return None).

Definition append_turn (c : Z) (string : StringBuilder) : M turn := string ← Append c string; mret (Again string).

(** The switch on the character behind a backslash. *)
(* src: base/json/json_parser.cc 637-709! ConsumeStringRaw *)
Definition escape (c : Z) (string : StringBuilder) : M turn :=
  if c =? "x"%ch then
    can ← CanConsume 2;
    if negb can then string_error JSON_INVALID_ESCAPE 1 else
    NextChar ;;
    s ← get_state;
    '(ok, hex_digit) ← hex_at (pos_ s) 2;
    if negb ok then string_error JSON_INVALID_ESCAPE (-1) else
    NextChar ;;
    string ← (if hex_digit <? kExtendedASCIIStart then Append (s8 hex_digit) string else DecodeUTF8 hex_digit string);
    mret (Again string)
  else if c =? "u"%ch then
    can ← CanConsume 5;
    if negb can then string_error JSON_INVALID_ESCAPE 0 else
    NextChar ;;
    utf8_units ← DecodeUTF16;
    match utf8_units with
    | None => string_error JSON_INVALID_ESCAPE (-1)
    | Some utf8_units => string ← AppendString utf8_units string; mret (Again string)
    end
  else if c =? 34 then append_turn 34 string
  else if c =? "\"%ch then append_turn "\"%ch string
  else if c =? "/"%ch then append_turn "/"%ch string
  else if c =? "b"%ch then append_turn 8 string
  else if c =? "f"%ch then append_turn 12 string
  else if c =? "n"%ch then append_turn 10 string
  else if c =? "r"%ch then append_turn 13 string
  else if c =? "t"%ch then append_turn 9 string
  else if c =? "v"%ch then append_turn 11 string
  else string_error JSON_INVALID_ESCAPE 0.

(* src: base/json/json_parser.cc 618-721! ConsumeStringRaw *)
Definition string_turn (string : StringBuilder) : M turn :=
  modify (fun s => s <| pos_ := index_ s |>) ;;
  s ← get_state;
  '(index, next_char) ← lift (checked (CBU8_NEXT (memory s) (index_ s) (s32 (end_pos_ s))));
  modify (fun s => s <| index_ := s32 index |>) ;;
  if (next_char <? 0) || negb (IsValidCharacter (u32 next_char)) then string_error JSON_UNSUPPORTED_ENCODING 1
  else if next_char =? "\"%ch then
    string ← Convert string;
    can ← CanConsume 1;
    if negb can then string_error JSON_INVALID_ESCAPE 0 else
    c ← next_byte;
    escape c string
  else if next_char =? 34 then
    modify (fun s => s <| index_ := index_ s ⊖ 1 |>) ;;
    mret (Return (Some string))
  else
    string ← (if next_char <? kExtendedASCIIStart then Append (s8 next_char) string else DecodeUTF8 next_char string);
    mret (Again string).

(* src: base/json/json_parser.cc 617-724! ConsumeStringRaw *)
Fixpoint string_loop (fuel : nat) (string : StringBuilder) : M (option StringBuilder) :=
  match fuel with
  | O => fun _ => NoFuel
  | S fuel =>
      can ← CanConsume 1;
      if negb can then fail JSON_SYNTAX_ERROR 0 else
      t ← string_turn string;
      match t with
      | Again string => string_loop fuel string
      | Return out => mret out
      end
  end.

(** The builder is what [*out] is swapped with, for [true]. *)
(* src: base/json/json_parser.cc 603-725! ConsumeStringRaw *)
Definition ConsumeStringRaw : M (option StringBuilder) :=
  c ← here;
  if negb (c =? 34) then fail JSON_UNEXPECTED_TOKEN 1 else
  NextChar ;;
  s ← get_state;
  string_loop (S (bytes_left s)) (new_StringBuilder (pos_ s)).

(* src: base/json/json_parser.cc 587-601! ConsumeString *)
Definition ConsumeString : M (option (Value double)) :=
  out ← ConsumeStringRaw;
  match out with
  | None => mret None
  | Some string =>
      s ← get_state;
      if CanBeStringPiece string && negb (has_option (options_ s) JSON_DETACHABLE_CHILDREN)
      then mret (Some (JSONStringValue (AsStringPiece string)))
      else
        string ← (if CanBeStringPiece string then Convert string else mret string);
        value_ ← AsString string;
        v ← lift (new_StringValue value_);
        mret (Some v)
  end.

(** ** Numbers and literals *)

(* src: base/strings/string_util.h 394-397! IsAsciiDigit *)
Definition IsAsciiDigit (c : Z) : bool := ("0"%ch <=? c) && (c <=? "9"%ch).

(* src: base/json/json_parser.cc 886-890! ReadInt *)
Fixpoint digits_loop (fuel : nat) (c len : Z) : M Z :=
  match fuel with
  | O => fun _ => NoFuel
  | S fuel =>
      can ← CanConsume 1;
      if can && IsAsciiDigit c then c ← next_byte; digits_loop fuel c (len ⊕ 1)
      else mret len
  end.

(* src: base/json/json_parser.cc 882-899! ReadInt *)
Definition ReadInt (allow_leading_zeros : bool) : M bool :=
  first ← here;
  s ← get_state;
  len ← digits_loop (bytes_left s) first 0;
  if len =? 0 then mret false
  else if negb allow_leading_zeros && (1 <? len) && (first =? "0"%ch) then mret false
  else mret true.

(** The optional fraction; the result is [end_index]. *)
(* src: base/json/json_parser.cc 820-832! ConsumeNumber *)
Definition fraction (end_index : Z) : M (option Z) :=
  c ← here;
  if c =? "."%ch then
    can ← CanConsume 1;
    if negb can then fail JSON_SYNTAX_ERROR 1 else
    NextChar ;;
    ok ← ReadInt true;
    if negb ok then fail JSON_SYNTAX_ERROR 1 else
    s ← get_state;
    mret (Some (index_ s))
  else mret (Some end_index).

(* src: base/json/json_parser.cc 834-844! ConsumeNumber *)
Definition exponent (end_index : Z) : M (option Z) :=
  c ← here;
  if (c =? "e"%ch) || (c =? "E"%ch) then
    c ← next_byte;
    (if (c =? "-"%ch) || (c =? "+"%ch) then NextChar else mret tt) ;;
    ok ← ReadInt true;
    if negb ok then fail JSON_SYNTAX_ERROR 1 else
    s ← get_state;
    mret (Some (index_ s))
  else mret (Some end_index).

(** What the text of a number is converted to. *)
(* src: base/json/json_parser.cc 869-879! ConsumeNumber *)
Definition number_value (num_string : list Z) : option (Value double) :=
  let '(ok, num_int) := StringToInt LocalIsWhitespace num_string 0 in
  if ok : bool then Some (IntegerValue num_int) else
  let '(ok, num_double) := StringToDouble num_string in
  if ok && IsFinite num_double then Some (DoubleValue num_double) else None.

(* src: base/json/json_parser.cc 806-880! ConsumeNumber *)
Definition ConsumeNumber : M (option (Value double)) :=
  s ← get_state;
  let num_start := pos_ s in
  let start_index := index_ s in
  c ← here;
  (if c =? "-"%ch then NextChar else mret tt) ;;
  ok ← ReadInt false;
  if negb ok then fail JSON_SYNTAX_ERROR 1 else
  s ← get_state;
  end_index ← fraction (index_ s);
  match end_index with
  | None => mret None
  | Some end_index =>
      end_index ← exponent end_index;
      match end_index with
      | None => mret None
      | Some end_index =>
          s ← get_state;
          let exit_pos := pos_ s - 1 in
          let exit_index := index_ s ⊖ 1 in
          token ← GetNextToken;
          match token with
          | T_OBJECT_END | T_ARRAY_END | T_LIST_SEPARATOR | T_END_OF_INPUT =>
              modify (fun s => s <| pos_ := exit_pos |> <| index_ := exit_index |>) ;;
              num_string ← bytes_of num_start (end_index ⊖ start_index);
              mret (number_value num_string)
          | _ => fail JSON_SYNTAX_ERROR 1
          end
      end
  end.

(** [strncmp(one, two, len) == 0], for a [two] without a null byte. *)
(* src: base/json/json_parser.cc 943-945! StringsAreEqual *)
Fixpoint StringsAreEqual (one : Z) (two : list Z) : M bool :=
  match two with
  | [] => mret true
  | c :: two => b ← byte_at one; if b =? c then StringsAreEqual (one + 1) two else mret false
  end.

(** One of the three cases. *)
(* src: base/json/json_parser.cc 903-913! ConsumeLiteral *)
Definition literal (text : list Z) (v : Value double) : M (option (Value double)) :=
  let len := zlen text in
  can ← CanConsume (len - 1);
  s ← get_state;
  equal ← (if can : bool then StringsAreEqual (pos_ s) text else mret false);
  if negb equal then fail JSON_SYNTAX_ERROR 1 else
  NextNChars (len - 1) ;;
  mret (Some v).

(* src: base/json/json_parser.cc 901-940! ConsumeLiteral *)
Definition ConsumeLiteral : M (option (Value double)) :=
  c ← here;
  if c =? "t"%ch then literal (str "true") (BooleanValue true)
  else if c =? "f"%ch then literal (str "false") (BooleanValue false)
  else if c =? "n"%ch then literal (str "null") NullValue
  else fail JSON_UNEXPECTED_TOKEN 1.

(** ** Lists and dictionaries *)

(** A body that runs with the depth counted up, and leaves it as it was; one
    that is too deep is an error. *)
(* src: base/json/json_parser.cc 165-183! StackMarker *)
Definition with_depth {A} (body : M (option A)) : M (option A) :=
  modify (fun s => s <| stack_depth_ := stack_depth_ s ⊕ 1 |>) ;;
  s ← get_state;
  check_ (stack_depth_ s <=? Z.of_nat kStackMaxDepth) ;;
  result ← (if Z.of_nat kStackMaxDepth <=? stack_depth_ s then fail JSON_TOO_MUCH_NESTING 1 else body);
  modify (fun s => s <| stack_depth_ := stack_depth_ s ⊖ 1 |>) ;;
  mret result.

(** Behind an element: the next token, or nothing after an error. *)
(* src: base/json/json_parser.cc 569-581! ConsumeList *)
Definition separator (closing : Token) (column_adjust : Z) : M (option Token) :=
  NextChar ;;
  token ← GetNextToken;
  if decide (token = T_LIST_SEPARATOR) then
    NextChar ;;
    token ← GetNextToken;
    s ← get_state;
    if bool_decide (token = closing) && negb (has_option (options_ s) JSON_ALLOW_TRAILING_COMMAS)
    then fail JSON_TRAILING_COMMA 1
    else mret (Some token)
  else if decide (token <> closing) then fail JSON_SYNTAX_ERROR column_adjust
  else mret (Some token).

Section nesting.
(** [ParseToken], for what is inside. *)
Variable parse : Token -> M (option (Value double)).

(* src: base/json/json_parser.cc 560-582! ConsumeList *)
Fixpoint list_loop (fuel : nat) (token : Token) (list : list (Value double)) : M (option (Value double)) :=
  match fuel with
  | O => fun _ => NoFuel
  | S fuel =>
      if decide (token = T_ARRAY_END) then mret (Some (ListValue list)) else
      item ← parse token;
      match item with
      | None => mret None
      | Some item =>
          token ← separator T_ARRAY_END 1;
          match token with
          | None => mret None
          | Some token => list_loop fuel token (list ++ [item])
          end
      end
  end.

(* src: base/json/json_parser.cc 544-585! ConsumeList *)
Definition ConsumeList : M (option (Value double)) :=
  c ← here;
  if negb (c =? "["%ch) then fail JSON_UNEXPECTED_TOKEN 1 else
  with_depth (
    NextChar ;;
    token ← GetNextToken;
    s ← get_state;
    list_loop (S (bytes_left s)) token []).

(** A key, the separator and the value. *)
(* src: base/json/json_parser.cc 497-524! ConsumeDictionary *)
Definition dictionary_pair (token : Token) : M (option (list Z * Value double)) :=
  if decide (token <> T_STRING) then fail JSON_UNQUOTED_DICTIONARY_KEY 1 else
  key ← ConsumeStringRaw;
  match key with
  | None => mret None
  | Some key =>
      NextChar ;;
      token ← GetNextToken;
      if decide (token <> T_OBJECT_PAIR_SEPARATOR) then fail JSON_SYNTAX_ERROR 1 else
      NextChar ;;
      token ← GetNextToken;
      value ← parse token;
      match value with
      | None => mret None
      | Some value => key ← AsString key; mret (Some (key, value))
      end
  end.

(* src: base/json/json_parser.cc 496-539! ConsumeDictionary *)
Fixpoint dictionary_loop (fuel : nat) (token : Token) (dict : list (list Z * Value double)) : M (option (Value double)) :=
  match fuel with
  | O => fun _ => NoFuel
  | S fuel =>
      if decide (token = T_OBJECT_END) then mret (Some (DictionaryValue dict)) else
      pair ← dictionary_pair token;
      match pair with
      | None => mret None
      | Some (key, value) =>
          token ← separator T_OBJECT_END 0;
          match token with
          | None => mret None
          | Some token => dictionary_loop fuel token (SetWithoutPathExpansion key value dict)
          end
      end
  end.

(* src: base/json/json_parser.cc 480-542! ConsumeDictionary *)
Definition ConsumeDictionary : M (option (Value double)) :=
  c ← here;
  if negb (c =? "{"%ch) then fail JSON_UNEXPECTED_TOKEN 1 else
  with_depth (
    NextChar ;;
    token ← GetNextToken;
    s ← get_state;
    dictionary_loop (S (bytes_left s)) token []).
End nesting.

(** [depth] is how much deeper it may go. *)
(* src: base/json/json_parser.cc 460-478! ParseToken *)
Fixpoint ParseToken (depth : nat) (token : Token) : M (option (Value double)) :=
  match depth with
  | O => fun _ => NoFuel
  | S depth =>
      match token with
      | T_OBJECT_BEGIN => ConsumeDictionary (ParseToken depth)
      | T_ARRAY_BEGIN => ConsumeList (ParseToken depth)
      | T_STRING => ConsumeString
      | T_NUMBER => ConsumeNumber
      | T_BOOL_TRUE | T_BOOL_FALSE | T_NULL => ConsumeLiteral
      | _ => fail JSON_UNEXPECTED_TOKEN 1
      end
  end.

(* src: base/json/json_parser.cc 456-458! ParseNextToken *)
Definition ParseNextToken : M (option (Value double)) :=
  token ← GetNextToken;
  ParseToken (S kStackMaxDepth) token.

(** ** The whole text *)

(** [input] is the memory from [input.data()] on, and the length. *)
(* src: base/json/json_parser.cc 209-223! Parse *)
Definition start (data : list Z) (input_length : Z) (s : JSONParser) : JSONParser :=
  let memory := if has_option (options_ s) JSON_DETACHABLE_CHILDREN then data
    else take (Z.to_nat input_length) data ++ [0] in
  mkJSONParser (options_ s) memory 0 input_length 0 (stack_depth_ s) 1 0 JSON_NO_ERROR 0 0.

(* src: base/json/json_parser.cc 225-233! Parse *)
Definition skip_byte_order_mark : M unit :=
  s ← get_state;
  let byte_is i c b := byte ← byte_at (pos_ s + i); if byte =? c then b else mret false in
  can ← CanConsume 3;
  bom ← (if can : bool then byte_is 0 239 (byte_is 1 187 (byte_is 2 191 (mret true))) else mret false);
  if bom : bool then NextNChars 3 else mret tt.

(** Whether something follows the root. *)
(* src: base/json/json_parser.cc 240-246! Parse *)
Definition data_after_root : M bool :=
  token ← GetNextToken;
  if decide (token = T_END_OF_INPUT) then mret false else
  can ← CanConsume 1;
  if negb can then mret true else
  NextChar ;;
  token ← GetNextToken;
  mret (negb (bool_decide (token = T_END_OF_INPUT))).

(* src: base/json/json_parser.cc 248-265! Parse *)
Definition wrap_root (root : Value double) : M (Root double) :=
  s ← get_state;
  if has_option (options_ s) JSON_DETACHABLE_CHILDREN then mret (PlainRoot root) else
  match root with
  | DictionaryValue _ | ListValue _ => mret (HiddenRoot (memory s) root)
  | StringValue _ | JSONStringValue _ => copy ← lift (DeepCopy (memory s) root); mret (PlainRoot copy)
  | _ => mret (PlainRoot root)
  end.

(* src: base/json/json_parser.cc 204-265! Parse *)
Definition Parse (data : list Z) (input_length : Z) : M (option (Root double)) :=
  modify (start data input_length) ;;
  skip_byte_order_mark ;;
  root ← ParseNextToken;
  match root with
  | None => mret None
  | Some root =>
      after ← data_after_root;
      if after : bool then fail JSON_UNEXPECTED_DATA_AFTER_ROOT 1
      else root ← wrap_root root; mret (Some root)
  end.

(** ** The reader *)

(* src: base/json/json_reader.cc 72-96! ErrorCodeToString *)
Definition ErrorCodeToString (error_code : JsonParseError) : list Z :=
  match error_code with
  | JSON_NO_ERROR => []
  | JSON_INVALID_ESCAPE => str "Invalid escape sequence."
  | JSON_SYNTAX_ERROR => str "Syntax error."
  | JSON_UNEXPECTED_TOKEN => str "Unexpected token."
  | JSON_TRAILING_COMMA => str "Trailing comma not allowed."
  | JSON_TOO_MUCH_NESTING => str "Too much nesting."
  | JSON_UNEXPECTED_DATA_AFTER_ROOT => str "Unexpected data after root element."
  | JSON_UNSUPPORTED_ENCODING => str "Unsupported encoding. JSON must be UTF-8."
  | JSON_UNQUOTED_DICTIONARY_KEY => str "Dictionary keys must be quoted."
  end.

(** [printf] of an [int]. *)
Definition decimal (z : Z) : list Z := default [] (IntToString z).

(* src: base/json/json_parser.cc 955-962! FormatErrorMessage *)
Definition FormatErrorMessage (line column : Z) (description : list Z) : list Z :=
  if negb (line =? 0) || negb (column =? 0)
  then str "Line: " ++ decimal line ++ str ", column: " ++ decimal column ++ str ", " ++ description
  else description.

(* src: base/json/json_parser.cc 271-274! GetErrorMessage *)
Definition GetErrorMessage (s : JSONParser) : list Z :=
  FormatErrorMessage (error_line_ s) (error_column_ s) (ErrorCodeToString (error_code_ s)).

(** The root, or the code and the text of the error. *)
(* src: base/json/json_reader.cc 54-69! ReadAndReturnError *)
Definition ReadAndReturnError (data : list Z) (length options : Z) : res (Root double + JsonParseError * list Z) :=
  '(root, parser) ← Parse data length (new_JSONParser options);
  Ok match root with
     | Some root => inl root
     | None => inr (error_code_ parser, GetErrorMessage parser)
     end.

(* src: base/json/json_reader.cc 47-51! Read *)
Definition Read (data : list Z) (length options : Z) : res (option (Root double)) :=
  '(root, _) ← Parse data length (new_JSONParser options);
  Ok root.
End JSONParser.
