(* ===== verification/JsonWriter.v ===== *)
(** The JSON writer, base/json/json_writer.cc and string_escape.cc, as built
    for systems whose lines end in a single character.

    The writer appends to [json_string_]; each function of the model gives
    what it appends. *)
From S2P Require Import Prelude CArrays NumberConversions Utf Values.

(** ** Strings *)

(* src: base/json/string_escape.cc 19-50! JsonSingleEscapeChar *)
Definition JsonSingleEscapeChar (c : Z) : option (list Z) :=
  if c =? 8 then Some (str "\b")
  else if c =? 12 then Some (str "\f")
  else if c =? 10 then Some (str "\n")
  else if c =? 13 then Some (str "\r")
  else if c =? 9 then Some (str "\t")
  else if c =? "\"%ch then Some (str "\\")
  else if c =? 34 then Some ["\"%ch; 34]
  else None.

(** [printf] of ["%04X"]. *)
Definition hex4 (c : Z) : list Z :=
  map (fun k => at_ kHexChars ((c / 16 ^ k) mod 16)) ((if c <? 65536 then [] else [7; 6; 5; 4]) ++ [3; 2; 1; 0]).

(** What the loop appends for one unit, without its sign. *)
(* src: base/json/string_escape.cc 59-73! JsonDoubleQuoteT *)
Definition quote_unit (c : Z) : list Z :=
  match JsonSingleEscapeChar c with
  | Some text => text
  | None =>
      if (c <? 32) || (126 <? c) || (c =? "<"%ch) || (c =? ">"%ch)
      then str "\u" ++ hex4 c
      else [u8 c]
  end.

(* src: base/json/string_escape.cc 52-77! JsonDoubleQuoteT *)
Definition JsonDoubleQuote (text : list Z) (put_in_quotes : bool) : list Z :=
  let quote := if put_in_quotes then [34] else [] in
  quote ++ flat_map quote_unit text ++ quote.

(** ** Values *)

(* src: base/json/json_writer.h 20-38! Options *)
Definition OPTIONS_DO_NOT_ESCAPE : Z := 1.
Definition OPTIONS_OMIT_BINARY_VALUES : Z := 2.
Definition OPTIONS_OMIT_DOUBLE_TYPE_PRESERVATION : Z := 4.
Definition OPTIONS_PRETTY_PRINT : Z := 8.

(* src: base/json/json_writer.h 70-76! JSONWriter *)
Record JSONWriter := mkJSONWriter {
  escape_ : bool;
  omit_binary_values_ : bool;
  omit_double_type_preservation_ : bool;
  pretty_print_ : bool
}.

Definition kPrettyPrintLineEnding : list Z := [10].

Section JSONWriter.
Context `{Build} {double : Type} `{Doubles double}.

(* src: base/json/json_writer.cc 221-225! AppendQuotedString *)
Definition AppendQuotedString (text : list Z) : res (list Z) :=
  '(_, utf16) ← checked (UTF8ToUTF16 text);
  Ok (JsonDoubleQuote utf16 true).

(* src: base/json/json_writer.cc 227-231! IndentLine *)
Definition IndentLine (depth : nat) : list Z := repeat " "%ch (depth * 3).

Definition has_char (c : Z) (text : list Z) : bool := existsb (Z.eqb c) text.

(** The text of a double made one that JSON knows and reads as a double. *)
(* src: base/json/json_writer.cc 101-118! BuildJSONString *)
Definition real_text (value : double) : list Z :=
  let real := DoubleToString value in
  let real := if negb (has_char "."%ch real) && negb (has_char "e"%ch real) && negb (has_char "E"%ch real)
    then real ++ str ".0" else real in
  if at_ real 0 =? "."%ch then "0"%ch :: real
  else if (1 <? zlen real) && (at_ real 0 =? "-"%ch) && (at_ real 1 =? "."%ch)
    then take 1 real ++ "0"%ch :: drop 1 real
  else real.

(** The cast of the one value that is not an [int64] is that of the machine. *)
(* src: base/json/json_writer.cc 88-119! BuildJSONString *)
Definition double_text (w : JSONWriter) (value : double) : res (list Z) :=
  match (if omit_double_type_preservation_ w then integral value else None) with
  | Some z =>
      if (z <=? 2 ^ 63) && (- 2 ^ 63 <=? z) then checked (Int64ToString (s64 z)) else Ok (real_text value)
  | None => Ok (real_text value)
  end.

(* src: base/json/json_writer.cc 121-132! BuildJSONString *)
Definition string_text (w : JSONWriter) (value : list Z) : res (list Z) :=
  if escape_ w then AppendQuotedString value else Ok (JsonDoubleQuote value true).

Definition is_binary (v : Value double) : bool := match v with BinaryValue _ => true | _ => false end.

Definition pretty (w : JSONWriter) (text : list Z) : list Z := if pretty_print_ w then text else [].

Section build.
Variable w : JSONWriter.
Variable build : Value double -> res (list Z).

(** The loop over the elements; [i] is the index of the first of them. *)
(* src: base/json/json_writer.cc 141-158! BuildJSONString *)
Fixpoint build_list (i : nat) (list_ : list (Value double)) : res (list Z) :=
  match list_ with
  | [] => Ok []
  | value :: list_ =>
      if omit_binary_values_ w && is_binary value then build_list (S i) list_ else
      text ← build value;
      rest ← build_list (S i) list_;
      Ok ((if (i =? 0)%nat then [] else str "," ++ pretty w (str " ")) ++ text ++ rest)
  end.

(** The loop over the entries, a level deeper than [depth]. *)
(* src: base/json/json_writer.cc 173-196! BuildJSONString *)
Fixpoint build_dictionary (depth : nat) (first_entry : bool) (dict : list (list Z * Value double)) : res (list Z) :=
  match dict with
  | [] => Ok []
  | (key, value) :: dict =>
      if omit_binary_values_ w && is_binary value then build_dictionary depth false dict else
      quoted ← AppendQuotedString key;
      text ← build value;
      rest ← build_dictionary depth false dict;
      Ok ((if first_entry then [] else str "," ++ pretty w kPrettyPrintLineEnding) ++
        pretty w (IndentLine (depth + 1)) ++ quoted ++
        (if pretty_print_ w then str ": " else str ":") ++ text ++ rest)
  end.
End build.

(** The text that pieces among the strings are pieces of. *)
Variable owner : list Z.

(* src: base/json/json_writer.cc 64-219! BuildJSONString *)
Fixpoint BuildJSONString (w : JSONWriter) (depth : nat) (node : Value double) : res (list Z) :=
  match node with
  | NullValue => Ok (str "null")
  | BooleanValue value => Ok (if value then str "true" else str "false")
  | IntegerValue value => checked (IntToString value)
  | DoubleValue value => double_text w value
  | StringValue value => string_text w value
  | JSONStringValue piece => value ← checked (as_string owner piece); string_text w value
  | ListValue list_ =>
      elements ← build_list w (BuildJSONString w depth) 0 list_;
      Ok (str "[" ++ pretty w (str " ") ++ elements ++ pretty w (str " ") ++ str "]")
  | DictionaryValue dict =>
      entries ← build_dictionary w (BuildJSONString w (depth + 1)) depth true dict;
      Ok (str "{" ++ pretty w kPrettyPrintLineEnding ++ entries ++
        pretty w (kPrettyPrintLineEnding ++ IndentLine depth) ++ str "}")
  | BinaryValue _ => if negb (omit_binary_values_ w) then check false ;; Ok [] else Ok []
  end.

(* src: base/json/json_writer.cc 32-51! WriteWithOptions *)
Definition WriteWithOptions (node : Value double) (options : Z) : res (list Z) :=
  let has option := negb (Z.land options option =? 0) in
  let writer := mkJSONWriter (negb (has OPTIONS_DO_NOT_ESCAPE)) (has OPTIONS_OMIT_BINARY_VALUES)
    (has OPTIONS_OMIT_DOUBLE_TYPE_PRESERVATION) (has OPTIONS_PRETTY_PRINT) in
  json ← BuildJSONString writer 0 node;
  Ok (json ++ if has OPTIONS_PRETTY_PRINT then kPrettyPrintLineEnding else []).

(* src: base/json/json_writer.cc 27-30! Write *)
Definition Write (node : Value double) : res (list Z) := WriteWithOptions node 0.
End JSONWriter.
