(* ===== verification/JsonLogic.v ===== *)
(** Reasoning about the code of the JSON parser: what a piece of code does from
    a state, and the positions of the parser in the text. *)
From S2P Require Import Prelude CArrays NumberConversions Utf Values JsonParser.

(** The length of a text that an [int] can count. *)
Class TextLength (len : Z) := text_length : 0 <= len <= 2147483640.

(** A text without a null byte is a C string as it is. *)
Lemma c_string_id t : Forall (fun c => c <> 0) t -> c_string t = t.
Proof. induction 1 as [|c t Hc Ht IH]; [done|]. cbn. by rewrite (proj2 (Z.eqb_neq c 0) Hc), IH. Qed.

Section logic.
Context `{Build} {double : Type} `{Doubles double}.
Context {mem : list Z} {len opts : Z} {excuse : Prop} `{Hlength : !TextLength len}.

Let Hlen : 0 <= len <= 2147483640 := text_length.

(** There is a result that satisfies [Q], and no failure without excuse. *)
Definition safe {A} (m : M A) (s : JSONParser) (Q : A -> JSONParser -> Prop) : Prop :=
  match m s with Ok (a, s') => Q a s' | Failed => excuse | NoFuel => False end.

(** ** Positions *)

(** The parser is on the text, this deep; and at this position. *)
Definition on (d : Z) (s : JSONParser) : Prop :=
  memory s = mem /\ end_pos_ s = len /\ options_ s = opts /\ stack_depth_ s = d.

Definition at_pos (d p : Z) (s : JSONParser) : Prop := on d s /\ pos_ s = p /\ index_ s = p.

(** Behind a byte that [NextChar] went past inside a string, [index_] is one
    ahead. *)
Definition ahead (d p : Z) (s : JSONParser) : Prop := on d s /\ pos_ s = p /\ index_ s = p + 1.

(** Between two turns of the loop over a string. *)
Definition between (d p : Z) (s : JSONParser) : Prop :=
  on d s /\ index_ s = p /\ 0 <= pos_ s <= p /\ p <= len + 1 /\ (pos_ s < len -> p <= len).

(** The state [n] bytes on. *)
Definition moved (n : Z) (s : JSONParser) : JSONParser :=
  s <| index_ := index_ s ⊕ n |> <| pos_ := pos_ s + n |>.

Lemma at_moved d p n s : at_pos d p s -> 0 <= p + n <= len + 2 -> at_pos d (p + n) (moved n s).
Proof.
  intros (Hs & Hp & Hi) Hn. split; [done|]. unfold moved. cbn. rewrite Hp, Hi. split; [done|]. rewrite s32_id by lia. done.
Qed.

Lemma ahead_moved d p n s : ahead d p s -> 0 <= p + n <= len + 2 -> ahead d (p + n) (moved n s).
Proof.
  intros (Hs & Hp & Hi) Hn. split; [done|]. unfold moved. cbn. rewrite Hp, Hi. split; [done|]. rewrite s32_id by lia. lia.
Qed.

Lemma ahead_between d p s : ahead d p s -> 0 <= p <= len -> between d (p + 1) s.
Proof. intros (Ho & Hpos & Hi) Hp. repeat (split; [done || lia|]). lia. Qed.

Lemma at_pos_between d p s : at_pos d p s -> 0 <= p <= len -> between d p s.
Proof. intros (Ho & Hpos & Hi) Hp. split; [done|]. lia. Qed.

Lemma at_pos_eq d p q s : at_pos d p s -> p = q -> at_pos d q s.
Proof. by intros Hs <-. Qed.

Lemma bytes_left_spec d p s : at_pos d p s -> bytes_left s = S (Z.to_nat (len - p)).
Proof. intros ((_ & He & _) & Hp & _). unfold bytes_left. by rewrite He, Hp. Qed.

(** ** Rules *)
Lemma safe_mret {A} (a : A) s (Q : A -> JSONParser -> Prop) : Q a s -> safe (mret a) s Q.
Proof. done. Qed.

Lemma safe_then {A B} (m : M A) (f : A -> M B) s Q :
  safe m s (fun a s' => safe (f a) s' Q) -> safe (m ≫= f) s Q.
Proof. unfold safe, mbind, M_bind. destruct (m s) as [[a s']| |]; done. Qed.

Lemma safe_impl {A} (m : M A) s (P Q : A -> JSONParser -> Prop) :
  safe m s P -> (forall a s', P a s' -> Q a s') -> safe m s Q.
Proof. unfold safe. destruct (m s) as [[a s']| |]; eauto. Qed.

Lemma safe_get_state s (Q : JSONParser -> JSONParser -> Prop) : Q s s -> safe get_state s Q.
Proof. done. Qed.

Lemma safe_modify f s (Q : unit -> JSONParser -> Prop) : Q tt (f s) -> safe (modify f) s Q.
Proof. done. Qed.

Lemma safe_check b s (Q : unit -> JSONParser -> Prop) :
  (b = false -> DCHECK_IS_ON = true -> excuse) -> Q tt s -> safe (check_ b) s Q.
Proof.
  intros Hb HQ. unfold safe, check_, lift, check. destruct DCHECK_IS_ON eqn:E; [|done]. destruct b; [done|]. by apply Hb.
Qed.

Lemma safe_true s (Q : unit -> JSONParser -> Prop) : Q tt s -> safe (check_ true) s Q.
Proof. by apply safe_check. Qed.

Lemma safe_get d p c s (Q : Z -> JSONParser -> Prop) : on d s -> get mem p = Some c -> Q c s -> safe (byte_at p) s Q.
Proof. intros (Hm & _) Hc HQ. unfold safe, byte_at, lift. by rewrite Hm, Hc. Qed.

Lemma safe_get_here d p c s (Q : Z -> JSONParser -> Prop) :
  on d s -> pos_ s = p -> get mem p = Some c -> Q c s -> safe here s Q.
Proof. intros Hs Hpos Hc HQ. apply safe_then, safe_get_state. rewrite Hpos. by eapply safe_get. Qed.

Lemma safe_bytes_of d p n t s (Q : list Z -> JSONParser -> Prop) :
  on d s -> as_string mem (mkStringPiece p n) = Some t -> Q t s -> safe (bytes_of p n) s Q.
Proof. intros (Hm & _) Ht HQ. unfold safe, bytes_of, lift. by rewrite Hm, Ht. Qed.

Lemma safe_CanConsume d n s (Q : bool -> JSONParser -> Prop) :
  on d s -> Q (pos_ s + n <=? len) s -> safe (CanConsume n) s Q.
Proof. intros (_ & He & _) HQ. apply safe_then, safe_get_state, safe_mret. by rewrite He. Qed.

Lemma safe_NextNChars d n s (Q : unit -> JSONParser -> Prop) :
  on d s -> pos_ s + n <= len -> Q tt (moved n s) -> safe (NextNChars n) s Q.
Proof.
  intros Hs Hn HQ. apply safe_then. eapply safe_CanConsume; [exact Hs|]. rewrite (proj2 (Z.leb_le _ _)) by lia.
  by apply safe_then, safe_true, safe_modify.
Qed.

Lemma safe_NextChar d s (Q : unit -> JSONParser -> Prop) :
  on d s -> pos_ s + 1 <= len -> Q tt (moved 1 s) -> safe NextChar s Q.
Proof.
  intros Hs Hn HQ. apply safe_then. eapply safe_CanConsume; [exact Hs|]. rewrite (proj2 (Z.leb_le _ _)) by lia.
  by apply safe_then, safe_true, safe_modify.
Qed.

Lemma safe_get_next d p c s (Q : Z -> JSONParser -> Prop) :
  on d s -> pos_ s = p -> p + 1 <= len -> get mem (p + 1) = Some c -> Q c (moved 1 s) -> safe next_byte s Q.
Proof.
  intros Hs Hp Hn Hc HQ. apply safe_then. eapply safe_NextChar; [exact Hs|lia|].
  apply (safe_get_here d (p + 1) c); [done|unfold moved; cbn; lia|done|done].
Qed.

Lemma ahead_NextNChars d p n s (Q : unit -> JSONParser -> Prop) :
  ahead d p s -> 0 <= p + n <= len -> (forall s', ahead d (p + n) s' -> Q tt s') -> safe (NextNChars n) s Q.
Proof.
  intros Hs Hn HQ. pose proof Hs as (Ho & Hpos & _). eapply safe_NextNChars; [exact Ho|lia|]. apply HQ, ahead_moved; [done|lia].
Qed.

Lemma ahead_NextChar d p s (Q : unit -> JSONParser -> Prop) :
  ahead d p s -> 0 <= p + 1 <= len -> (forall s', ahead d (p + 1) s' -> Q tt s') -> safe NextChar s Q.
Proof.
  intros Hs Hn HQ. pose proof Hs as (Ho & Hpos & _). eapply safe_NextChar; [exact Ho|lia|]. apply HQ, ahead_moved; [done|lia].
Qed.

Lemma ahead_CanConsume d p n s (Q : bool -> JSONParser -> Prop) :
  ahead d p s -> Q (p + n <=? len) s -> safe (CanConsume n) s Q.
Proof. intros (Ho & Hpos & _) HQ. eapply safe_CanConsume; [exact Ho|]. by rewrite Hpos. Qed.
End logic.
Arguments safe excuse {A} m s Q.
Arguments on mem len opts d s : clear implicits.
Arguments at_pos mem len opts d p s : clear implicits.
Arguments ahead mem len opts d p s : clear implicits.
Arguments between mem len opts d p s : clear implicits.

(** ** An instance for examples

    A build with checks in the C locale, and three doubles: 0.5, 1, and the
    least of the denormals. *)
Definition example_build : Build := {| DCHECK_IS_ON := true; LocalIsWhitespace := isspace |}.

Inductive example_double := Half | One | Least.

Definition example_doubles : Doubles example_double := {|
  strtod t :=
    if bool_decide (t = str ".5" \/ t = str "0.5") then (Half, zlen t, false)
    else if bool_decide (t = str "5e-324") then (Least, zlen t, true)
    else (One, if bool_decide (t = str "1" \/ t = str "1.0") then zlen t else 0, false);
  g_fmt x := match x with Half => str ".5" | One => str "1" | Least => str "5e-324" end;
  IsFinite x := true;
  integral x := match x with One => Some 1 | _ => None end
|}.
