(* ===== verification/JsonSafety.v ===== *)
(** The JSON parser on any input: it reads nothing outside the text and the
    null byte behind it, it ends, and what it returns is a well-formed value,
    in which strings are UTF-8 but for the escapes of [odd_escape]. *)
From S2P Require Import Prelude CArrays NumberConversions NumberProperties Utf UtfProperties Values ValuesProperties JsonParser JsonLogic.

(** ** The text *)

(** The number that the digits at [p] are read as. *)
Definition hex_number `{Build} (mem : list Z) (p n v : Z) : Prop :=
  exists digits, as_string mem (mkStringPiece p n) = Some digits /\
    HexStringToInt LocalIsWhitespace digits 0 = (true, v).

(** The number that the escape at [p] gives: by two digits, by four, or by a
    pair of surrogates. *)
Inductive escaped_number `{Build} (mem : list Z) (p : Z) : Z -> Prop :=
  | escaped_x v : get mem (p + 1) = Some "x"%ch -> hex_number mem (p + 2) 2 v -> escaped_number mem p v
  | escaped_u v : get mem (p + 1) = Some "u"%ch -> hex_number mem (p + 2) 4 v -> CBU16_IS_SURROGATE v = false ->
      escaped_number mem p v
  | escaped_pair high low :
      get mem (p + 1) = Some "u"%ch -> hex_number mem (p + 2) 4 high ->
      get mem (p + 6) = Some "\"%ch -> get mem (p + 7) = Some "u"%ch -> hex_number mem (p + 8) 4 low ->
      CBU16_IS_SURROGATE high = true -> CBU16_IS_SURROGATE_LEAD high = true -> CBU16_IS_TRAIL low = true ->
      escaped_number mem p (CBU16_GET_SUPPLEMENTARY high low).

(** An escape whose number is no character: it is negative, or a noncharacter.
    (Half of a surrogate pair is read with the other half.) *)
Definition odd_escape `{Build} (mem : list Z) : Prop :=
  exists p v, get mem p = Some "\"%ch /\ escaped_number mem p v /\ ~ character v.

(** The text of a number: a sign, digits, a fraction, a power. *)
Definition digits (t : list Z) : Prop := t <> [] /\ Forall (fun c => IsAsciiDigit c = true) t.
Definition signs (t : list Z) : Prop := t = [] \/ t = ["-"%ch] \/ t = ["+"%ch].
Definition fraction_text (t : list Z) : Prop := t = [] \/ exists ds, t = "."%ch :: ds /\ digits ds.
Definition exponent_text (t : list Z) : Prop :=
  t = [] \/ exists c sign ds, t = c :: sign ++ ds /\ (c = "e"%ch \/ c = "E"%ch) /\ signs sign /\ digits ds.
Definition number_text (t : list Z) : Prop :=
  exists sign whole fraction exponent, t = sign ++ whole ++ fraction ++ exponent /\
    (sign = [] \/ sign = ["-"%ch]) /\ digits whole /\ fraction_text fraction /\ exponent_text exponent.

(** Text that is UTF-8 without noncharacters, as [IsStringUTF8] wants it. *)
Definition utf8_text (t : list Z) : Prop := exists cps, Forall character cps /\ t = flat_map enc8 cps.

Lemma utf8_app t1 t2 : utf8_text t1 -> utf8_text t2 -> utf8_text (t1 ++ t2).
Proof.
  intros (c1 & H1 & ->) (c2 & H2 & ->). exists (c1 ++ c2). split; [by apply Forall_app|]. by rewrite flat_map_app.
Qed.

Lemma utf8_nil : utf8_text [].
Proof. by exists []. Qed.

Lemma utf8_char c : character c -> utf8_text (enc8 c).
Proof. intros Hc. exists [c]. split; [by constructor|]. cbn. by rewrite app_nil_r. Qed.

Lemma ascii_character c : 0 <= c < 128 -> character c.
Proof. intros Hc. split; [unfold scalar; lia|]. unfold IsValidCharacter. by rewrite (proj2 (Z.ltb_lt c 55296)) by lia. Qed.

Section safety.
Context `{Build} {double : Type} `{Doubles double}.
Context (mem : list Z) (len opts : Z).
Hypothesis Hmem : Forall is_byte mem.
Hypothesis Hlen : 0 <= len <= 2147483640.
Hypothesis Hnul : get mem len = Some 0.

#[local] Instance text_length_len : TextLength len := Hlen.

(** A check that fails because of an escape is an excuse. *)
Definition excuse : Prop := DCHECK_IS_ON = true /\ odd_escape mem.

#[local] Abbreviation safe := (safe excuse).
#[local] Abbreviation on := (on mem len opts).
#[local] Abbreviation at_pos := (at_pos mem len opts).
#[local] Abbreviation ahead := (ahead mem len opts).
#[local] Abbreviation between := (between mem len opts).

(** An error has been reported, or a number is refused: it is no [int], and
    [StringToDouble] fails on it or gives what is not finite. *)
Definition refused_number : Prop :=
  exists p t, lies mem p t /\ number_text t /\ number_value (double := double) t = None.
Definition reported (s : JSONParser) : Prop := error_code_ s <> JSON_NO_ERROR \/ refused_number.

Lemma len_mem : len < zlen mem.
Proof. apply get_range in Hnul. lia. Qed.

Lemma get_mem p : 0 <= p <= len -> exists c, get mem p = Some c /\ is_byte c.
Proof.
  intros Hp. pose proof len_mem. destruct (get_some mem p ltac:(lia)) as [c Hc]. exists c. split; [done|].
  by eapply get_Forall.
Qed.

(** ** Rules inside the text *)
Lemma safe_byte_at d p s (Q : Z -> JSONParser -> Prop) :
  on d s -> 0 <= p <= len -> (forall c, get mem p = Some c -> is_byte c -> Q c s) -> safe (byte_at p) s Q.
Proof. intros Ho Hp HQ. destruct (get_mem p Hp) as (c & Hc & Hb). eapply safe_get; [done|done|]. by apply HQ. Qed.

Lemma safe_here d p s (Q : Z -> JSONParser -> Prop) :
  on d s -> pos_ s = p -> 0 <= p <= len -> (forall c, get mem p = Some c -> is_byte c -> Q c s) -> safe here s Q.
Proof. intros Hs Hpos Hp HQ. apply safe_then, safe_get_state. rewrite Hpos. by eapply safe_byte_at. Qed.

Lemma safe_next_byte d s (Q : Z -> JSONParser -> Prop) :
  on d s -> 0 <= pos_ s -> pos_ s + 1 <= len ->
  (forall c, get mem (pos_ s + 1) = Some c -> is_byte c -> Q c (moved 1 s)) -> safe next_byte s Q.
Proof.
  intros Hs Hp Hn HQ. destruct (get_mem (pos_ s + 1)) as (c & Hc & Hb); [lia|].
  by eapply safe_get_next; [done|done|lia|done|apply HQ].
Qed.

Lemma ahead_next_byte d p s (Q : Z -> JSONParser -> Prop) :
  ahead d p s -> 0 <= p -> p + 1 <= len ->
  (forall c s', get mem (p + 1) = Some c -> ahead d (p + 1) s' -> Q c s') -> safe next_byte s Q.
Proof.
  intros Hs Hp Hn HQ. pose proof Hs as (Ho & Hpos & _). eapply safe_next_byte; [exact Ho|lia|lia|]. intros c Hc _.
  rewrite Hpos in Hc. apply HQ; [done|]. apply ahead_moved; [done|lia].
Qed.

Lemma safe_fail {A} code adjust s (Q : option A -> JSONParser -> Prop) :
  code <> JSON_NO_ERROR -> (forall s', reported s' -> Q None s') -> safe (fail code adjust) s Q.
Proof. intros Hc HQ. apply safe_then, safe_modify, safe_mret, HQ. by left. Qed.

(** ** White space and comments *)
Definition lands (d p : Z) (s : JSONParser) : Prop := exists q, p <= q <= len /\ at_pos d q s.

Lemma lands_mono d p q s : p <= q -> lands d q s -> lands d p s.
Proof. intros Hp (r & Hr & Hs). exists r. split; [lia|done]. Qed.

Lemma line_comment_safe d fuel p s :
  at_pos d p s -> 0 <= p <= len -> (Z.to_nat (len - p) < fuel)%nat -> safe (line_comment fuel) s (fun _ => lands d p).
Proof.
  revert p s. induction fuel as [|fuel IH]; intros p s Hs Hp Hf; [lia|]. cbn [line_comment]. pose proof Hs as (Ho & Hpos & Hi).
  apply safe_then. eapply safe_CanConsume; [exact Ho|]. rewrite Hpos. destruct (Z.leb_spec (p + 1) len); cbn [negb].
  2: { apply safe_mret. exists p. split; [lia|done]. }
  apply safe_then. eapply safe_next_byte; [exact Ho|lia|lia|]. intros c _ _. pose proof (at_moved d p 1 s Hs ltac:(lia)) as Hs'.
  case_if; [apply safe_mret; exists (p + 1); split; [lia|done]|].
  eapply safe_impl; [apply (IH (p + 1)); [exact Hs'|lia|lia]|]. intros ? s'. apply lands_mono. lia.
Qed.

Lemma block_comment_safe d fuel previous p s :
  at_pos d p s -> 0 <= p <= len -> (Z.to_nat (len - p) < fuel)%nat -> safe (block_comment fuel previous) s (fun _ => lands d p).
Proof.
  revert previous p s. induction fuel as [|fuel IH]; intros previous p s Hs Hp Hf; [lia|]. cbn [block_comment]. pose proof Hs as (Ho & Hpos & Hi).
  apply safe_then. eapply safe_CanConsume; [exact Ho|]. rewrite Hpos. destruct (Z.leb_spec (p + 1) len); cbn [negb].
  2: { apply safe_mret. exists p. split; [lia|done]. }
  apply safe_then. eapply safe_next_byte; [exact Ho|lia|lia|]. rewrite Hpos. intros c Hc _. pose proof (at_moved d p 1 s Hs ltac:(lia)) as Hs'.
  case_if.
  - to_prop. assert (p + 1 < len).
    { destruct (decide (p + 1 = len)) as [E|]; [|lia]. rewrite E, Hnul in Hc. injection Hc as <-. discriminate. }
    apply safe_then. eapply safe_NextChar; [apply Hs'|destruct Hs' as (_ & -> & _); lia|]. apply safe_mret.
    exists (p + 1 + 1). split; [lia|]. apply at_moved; [done|lia].
  - eapply safe_impl; [apply (IH c (p + 1)); [exact Hs'|lia|lia]|]. intros ? s'. apply lands_mono. lia.
Qed.

Lemma EatComment_safe d p s :
  at_pos d p s -> 0 <= p < len -> safe EatComment s (fun eaten s' => lands d p s' /\ (eaten = true -> lands d (p + 1) s')).
Proof.
  intros Hs Hp. pose proof Hs as (Ho & Hpos & Hi). apply safe_then. eapply safe_here; [exact Ho|exact Hpos|lia|]. intros c Hc _.
  apply safe_then. eapply safe_CanConsume; [exact Ho|]. rewrite Hpos. rewrite (proj2 (Z.leb_le _ _)) by lia. cbn [negb].
  assert (Hstay : lands d p s) by (exists p; split; [lia|done]).
  case_if; [apply safe_mret; split; [done|discriminate]|].
  apply safe_then. eapply safe_next_byte; [exact Ho|lia|lia|]. intros n _ _. pose proof (at_moved d p 1 s Hs ltac:(lia)) as Hs'.
  apply safe_then, safe_get_state. rewrite (bytes_left_spec d (p + 1)) by done.
  assert (Hmore : forall b (s' : JSONParser), lands d (p + 1) s' -> lands d p s' /\ (b = true -> lands d (p + 1) s')).
  { intros b s' Hl. split; [|done]. eapply lands_mono; [|exact Hl]. lia. }
  case_if; [eapply safe_impl; [apply (line_comment_safe d _ (p + 1)); [done|lia|lia]|intros b; apply Hmore]|].
  case_if; [eapply safe_impl; [apply (block_comment_safe d _ _ (p + 1)); [done|lia|lia]|intros b; apply Hmore]|].
  apply safe_mret, Hmore. exists (p + 1). split; [lia|done].
Qed.

Lemma end_of_line_safe d p c s :
  at_pos d p s -> 0 <= p < len -> safe (end_of_line c) s (fun _ => at_pos d p).
Proof.
  intros Hs Hp. apply safe_then, safe_modify, safe_then, safe_get_state. pose proof Hs as (Ho & Hpos & Hi).
  apply safe_then. assert (Hrest : forall (crlf : bool) s', at_pos d p s' ->
    safe (if negb crlf then modify (fun s => s <| line_number_ := line_number_ s ⊕ 1 |>) else mret tt) s' (fun _ => at_pos d p)).
  { intros crlf s' Hs'. destruct crlf; [by apply safe_mret|by apply safe_modify]. }
  case_if; [|apply safe_mret, Hrest; done]. to_prop. cbn in H2. apply safe_then. apply (safe_byte_at d); [done|cbn; lia|].
  intros b _ _. apply safe_mret, Hrest. done.
Qed.

Lemma eat_loop_safe d fuel p s :
  at_pos d p s -> 0 <= p <= len -> (Z.to_nat (len - p) < fuel)%nat -> safe (eat_loop fuel) s (fun _ => lands d p).
Proof.
  revert p s. induction fuel as [|fuel IH]; intros p s Hs Hp Hf; [lia|]. cbn [eat_loop]. pose proof Hs as (Ho & Hpos & Hi).
  apply safe_then, safe_get_state. pose proof Ho as (_ & He & _). rewrite Hpos, He.
  assert (Hstay : lands d p s) by (exists p; split; [lia|done]).
  destruct (Z.ltb_spec p len); cbn [negb]; [|by apply safe_mret].
  apply safe_then. eapply safe_here; [exact Ho|exact Hpos|lia|]. intros c _ _.
  assert (Hgo : forall s', at_pos d p s' -> safe (NextChar ;; eat_loop fuel) s' (fun _ => lands d p)).
  { intros s' Hs'. apply safe_then. eapply safe_NextChar; [apply Hs'|destruct Hs' as (_ & -> & _); lia|].
    eapply safe_impl; [apply (IH (p + 1)); [apply at_moved; [done|lia]|lia|lia]|]. intros ? s''. apply lands_mono. lia. }
  case_if; [apply safe_then; eapply safe_impl; [apply (end_of_line_safe d p); [done|lia]|intros ?; apply Hgo]|].
  case_if; [by apply Hgo|]. case_if; [|by apply safe_mret].
  apply safe_then. eapply safe_impl; [apply (EatComment_safe d p); [done|lia]|]. intros eaten s' [Hl Hmore].
  destruct eaten; cbn [negb]; [|by apply safe_mret]. destruct (Hmore eq_refl) as (q & Hq & Hs').
  eapply safe_impl; [apply (IH q); [done|lia|lia]|]. intros ? s''. apply lands_mono. lia.
Qed.

(** The parser is at the token that it found, from this position on. *)
Definition token_at (d p : Z) (token : Token) (s : JSONParser) : Prop :=
  exists q, p <= q <= len /\ at_pos d q s /\
    (token = T_END_OF_INPUT \/ q < len /\ exists c, get mem q = Some c /\ token = token_of c).

Lemma GetNextToken_safe d p s : at_pos d p s -> 0 <= p <= len -> safe GetNextToken s (token_at d p).
Proof.
  intros Hs Hp. apply safe_then, safe_then, safe_get_state. rewrite (bytes_left_spec d p s Hs).
  eapply safe_impl; [apply (eat_loop_safe d _ p); [done|lia|lia]|]. intros ? s' (q & Hq & Hs').
  pose proof Hs' as (Ho & Hpos & _). apply safe_then. eapply safe_CanConsume; [exact Ho|]. rewrite Hpos.
  destruct (Z.leb_spec (q + 1) len); cbn [negb].
  - apply safe_then. eapply safe_here; [exact Ho|exact Hpos|lia|]. intros c Hc _. apply safe_mret.
    exists q. split; [lia|]. split; [done|]. right. split; [lia|eauto].
  - apply safe_mret. exists q. split; [lia|]. split; [done|]. by left.
Qed.

(** ** Strings *)

(** What a string may hold. *)
Definition good (t : list Z) : Prop := Forall is_byte t /\ (utf8_text t \/ odd_escape mem).

Lemma good_app t1 t2 : good t1 -> good t2 -> good (t1 ++ t2).
Proof.
  intros [H1 [U1|U1]] [H2 [U2|U2]]; (split; [by apply Forall_app|]); auto. left. by apply utf8_app.
Qed.

Lemma good_nil : good [].
Proof. split; [constructor|]. left. apply utf8_nil. Qed.

Lemma good_enc8 c : character c -> good (enc8 c).
Proof. intros Hc. split; [apply enc8_bytes, Hc|]. left. by apply utf8_char. Qed.

Lemma good_escape t : odd_escape mem -> Forall is_byte t -> good t.
Proof. intros He Ht. by split; [|right]. Qed.

(** The number of an escape is a character, or the escape is odd. *)
Lemma escaped_character p v :
  get mem p = Some "\"%ch -> escaped_number mem p v -> character v \/ odd_escape mem.
Proof.
  intros Hp Hv. destruct (decide (scalar v)) as [Hs|Hs]; [destruct (IsValidCharacter v) eqn:E|];
    [by left|right; exists p, v; split_and!; [done..|]..].
  - intros [_ Hc]. congruence.
  - by intros [Hc _].
Qed.

Lemma good_unit c : -128 <= c < 128 -> 0 <= c < 128 \/ odd_escape mem -> good [u8 c].
Proof.
  intros Hr [Hc|Hc]; [|apply good_escape; [done|constructor; [apply wrap_u_byte|done]]].
  rewrite u8_id by lia. rewrite <- enc8_1 by lia. apply good_enc8, ascii_character, Hc.
Qed.

(** The builder, with the text up to a position. *)
Definition built (from p : Z) (b : StringBuilder) : Prop :=
  match string_ b with
  | None => string_pos_ b = from /\ length_ b = p - from /\
      exists t, as_string mem (mkStringPiece from (p - from)) = Some t /\ good t
  | Some t => good t /\ zlen t <= p - from
  end.

Lemma built_new p : 0 <= p <= len -> built p p (new_StringBuilder p).
Proof.
  intros Hp. pose proof len_mem. split; [done|]. split; [cbn; lia|]. exists []. split; [|apply good_nil].
  unfold as_string. cbn [ptr_ piece_length_]. rewrite Z.sub_diag.
  rewrite (proj2 (Z.leb_le 0 p)), (proj2 (Z.leb_le (p + 0) _)) by lia. done.
Qed.

Lemma built_zlen from p b t : built from p b -> string_ b = Some t -> good t /\ zlen t <= p - from.
Proof. unfold built. intros H1 E. by rewrite E in H1. Qed.

Lemma Append_plain from p c b s (Q : StringBuilder -> JSONParser -> Prop) :
  built from p b -> get mem p = Some c -> 0 <= c < 128 ->
  (forall b', built from (p + 1) b' -> Q b' s) -> safe (Append c b) s Q.
Proof.
  intros Hb Hc Hr HQ. apply safe_then, safe_check; [lia|]. apply safe_then, safe_check; [lia|].
  apply safe_mret, HQ. pose proof (good_unit c ltac:(lia) ltac:(by left)) as Hg. unfold built in *.
  destruct (string_ b) as [t|]; cbn.
  - destruct Hb as [Ht Hn]. split; [by apply good_app|]. rewrite zlen_app. change (zlen [u8 c]) with 1. lia.
  - destruct Hb as (Ef & El & t & Et & Ht). split; [done|]. split; [lia|]. exists (t ++ [c]). rewrite u8_id in Hg by lia.
    split; [|by apply good_app]. replace (p + 1 - from) with (p - from + 1) by lia. apply as_string_snoc; [done|].
    by replace (from + (p - from)) with p by lia.
Qed.

Lemma Append_escaped from p p' c b t s (Q : StringBuilder -> JSONParser -> Prop) :
  built from p b -> string_ b = Some t -> p < p' -> -128 <= c < 128 -> 0 <= c < 128 \/ odd_escape mem ->
  (forall b', built from p' b' -> Q b' s) -> safe (Append c b) s Q.
Proof.
  intros Hb Et Hp Hr Hc HQ. apply safe_then, safe_check; [intros; split; [done|destruct Hc; [lia|done]]|].
  apply safe_then, safe_check; [lia|]. apply safe_mret, HQ. rewrite Et. destruct (built_zlen _ _ _ _ Hb Et) as [Ht Hn].
  split; cbn; [apply good_app; [done|by apply good_unit]|]. rewrite zlen_app. change (zlen [u8 c]) with 1. lia.
Qed.

Lemma Convert_safe from p b s (Q : StringBuilder -> JSONParser -> Prop) :
  built from p b -> memory s = mem ->
  (forall b' t, built from p b' -> string_ b' = Some t -> Q b' s) -> safe (Convert b) s Q.
Proof.
  intros Hb Hm HQ. unfold Convert. destruct (string_ b) as [t|] eqn:Et; [by apply safe_mret, (HQ _ t)|].
  unfold built in Hb. rewrite Et in Hb. destruct Hb as (Ef & El & t & E & Ht). apply safe_then. unfold safe, bytes_of, lift.
  rewrite Hm, Ef, El, E. cbn. apply (HQ _ t); [|done]. split; [done|]. apply as_string_zlen in E. cbn in E. lia.
Qed.

Lemma AppendString_safe from p p' text b t s (Q : StringBuilder -> JSONParser -> Prop) :
  built from p b -> string_ b = Some t -> good text -> p + zlen text <= p' ->
  (forall b', built from p' b' -> Q b' s) -> safe (AppendString text b) s Q.
Proof.
  intros Hb Et Hg Hp HQ. unfold AppendString. rewrite Et. apply safe_mret, HQ. destruct (built_zlen _ _ _ _ Hb Et) as [Ht Hn].
  split; cbn; [by apply good_app|]. rewrite zlen_app. lia.
Qed.

Lemma DecodeUTF8_safe from p p' point b s (Q : StringBuilder -> JSONParser -> Prop) :
  built from p b -> memory s = mem -> 128 <= point -> good (CBU8_APPEND_UNSAFE point) ->
  p + zlen (CBU8_APPEND_UNSAFE point) <= p' ->
  (forall b', built from p' b' -> Q b' s) -> safe (DecodeUTF8 point b) s Q.
Proof.
  intros Hb Hm Hp Hg Hz HQ. unfold DecodeUTF8, kExtendedASCIIStart. rewrite (proj2 (Z.ltb_ge _ _)) by lia.
  apply safe_then. eapply Convert_safe; [done|done|]. intros b' t Hb' Et. by eapply AppendString_safe.
Qed.

(** *** Escapes *)

Lemma append_any c : Forall is_byte (CBU8_APPEND_UNSAFE c) /\ zlen (CBU8_APPEND_UNSAFE c) <= 4.
Proof.
  unfold CBU8_APPEND_UNSAFE. repeat case_if; cbn [app];
    (split; [repeat (constructor; [apply wrap_u_byte|]); constructor|unfold zlen; cbn; lia]).
Qed.

Lemma c_string_any t : Forall is_byte t -> Forall is_byte (c_string t) /\ zlen (c_string t) <= zlen t.
Proof.
  induction 1 as [|c t Hc Ht [IH1 IH2]]; [by split|]. cbn. case_if; [split; [constructor|unfold zlen; cbn; lia]|].
  split; [by constructor|]. unfold zlen in *. cbn. lia.
Qed.

Lemma hex_at_safe d p n s (Q : bool * Z -> JSONParser -> Prop) :
  on d s -> 0 <= p -> 0 <= n -> p + n <= len + 1 ->
  (forall ok v, (ok = true -> hex_number mem p n v) -> Q (ok, v) s) -> safe (hex_at p n) s Q.
Proof.
  intros (Hm & _) Hp Hn Hpn HQ. pose proof len_mem. unfold hex_at. apply safe_then. unfold safe, bytes_of, lift.
  rewrite Hm.
  assert (exists digits, as_string mem (mkStringPiece p n) = Some digits) as [digits E].
  { unfold as_string. cbn [ptr_ piece_length_].
    rewrite (proj2 (Z.leb_le 0 p)), (proj2 (Z.leb_le 0 n)), (proj2 (Z.leb_le _ (zlen mem))) by lia. by eexists. }
  rewrite E. cbn. destruct (HexStringToInt LocalIsWhitespace digits 0) as [ok v] eqn:Eh. apply HQ.
  intros ->. by exists digits.
Qed.

(** The units that were decoded, which end this far on at most. *)
Definition decoded (d p : Z) (units : option (list Z)) (s : JSONParser) : Prop :=
  match units with
  | None => True
  | Some units => exists q, p <= q <= len /\ ahead d q s /\ good units /\ zlen units <= 4
  end.

(** Of a character the null byte alone is dropped. *)
Lemma c_string_character c : character c -> utf8_text (c_string (CBU8_APPEND_UNSAFE c)).
Proof.
  intros Hc. rewrite append_spec by apply Hc. destruct (decide (c = 0)) as [->|Hn]; [apply utf8_nil|].
  rewrite c_string_id; [by apply utf8_char|]. destruct Hc as [Hc _]. unfold scalar in Hc.
  unfold enc8. repeat case_if; to_prop; repeat (constructor; [Z.div_mod_to_equations; lia|]); constructor.
Qed.

Lemma decoded_char d p q c s :
  p <= q <= len -> ahead d q s -> character c \/ odd_escape mem ->
  decoded d p (Some (c_string (CBU8_APPEND_UNSAFE c))) s.
Proof.
  intros Hq Hs Hc. exists q. split; [done|]. split; [done|]. destruct (append_any c) as [Hb Hn].
  destruct (c_string_any _ Hb). split; [split; [done|]|lia].
  destruct Hc; [left; by apply c_string_character|by right].
Qed.

Lemma low_surrogate_safe d p high s :
  get mem (p - 5) = Some "\"%ch -> get mem (p - 4) = Some "u"%ch -> hex_number mem (p - 3) 4 high ->
  CBU16_IS_SURROGATE high = true ->
  ahead d p s -> 0 <= p <= len -> safe (low_surrogate high) s (decoded d p).
Proof.
  intros Hat Hat1 Hhigh Hsur Hs Hp. unfold low_surrogate.
  destruct (CBU16_IS_SURROGATE_LEAD high) eqn:Hlead; cbn [negb]; [|by apply safe_mret].
  apply safe_then. eapply ahead_CanConsume; [done|]. destruct (Z.leb_spec (p + 6) len); cbn [negb]; [|by apply safe_mret].
  apply safe_then. eapply ahead_next_byte; [done|lia|lia|]. intros c s1 Hc Hs1.
  destruct (Z.eqb_spec c "\"%ch) as [->|]; cbn [negb]; [|by apply safe_mret].
  apply safe_then. eapply ahead_next_byte; [done|lia|lia|]. intros c' s2 Hc' Hs2.
  destruct (Z.eqb_spec c' "u"%ch) as [->|]; cbn [negb]; [|by apply safe_mret].
  apply safe_then. eapply ahead_NextChar; [done|lia|]. intros s3 Hs3. pose proof Hs3 as (Ho & Hpos & _).
  apply safe_then, safe_get_state, safe_then. eapply hex_at_safe; [exact Ho|lia|lia|lia|]. intros ok low Hlow.
  destruct ok; cbn [negb]; [|by apply safe_mret]. apply safe_then. eapply ahead_NextNChars; [done|lia|]. intros s4 Hs4.
  destruct (CBU16_IS_TRAIL low) eqn:Htr; cbn [negb]; [|by apply safe_mret]. apply safe_mret.
  eapply decoded_char; [|done|]; [lia|]. specialize (Hlow eq_refl). rewrite Hpos in Hlow.
  apply (escaped_character (p - 5)); [done|]. apply (escaped_pair mem (p - 5) high low); [..|done|done|done].
  - by replace (p - 5 + 1) with (p - 4) by lia.
  - by replace (p - 5 + 2) with (p - 3) by lia.
  - by replace (p - 5 + 6) with (p + 1) by lia.
  - by replace (p - 5 + 7) with (p + 1 + 1) by lia.
  - by replace (p - 5 + 8) with (p + 1 + 1 + 1) by lia.
Qed.

Lemma DecodeUTF16_safe d p s :
  get mem (p - 2) = Some "\"%ch -> get mem (p - 1) = Some "u"%ch ->
  ahead d p s -> 0 <= p <= len -> safe DecodeUTF16 s (decoded d (p + 3)).
Proof.
  intros Hat Hat1 Hs Hp. unfold DecodeUTF16. apply safe_then. eapply ahead_CanConsume; [done|].
  destruct (Z.leb_spec (p + 4) len); cbn [negb]; [|by apply safe_mret].
  pose proof Hs as (Ho & Hpos & _).
  apply safe_then, safe_get_state, safe_then. eapply hex_at_safe; [exact Ho|lia|lia|lia|]. intros ok high Hhigh.
  destruct ok; cbn [negb]; [|by apply safe_mret]. specialize (Hhigh eq_refl). rewrite Hpos in Hhigh.
  apply safe_then. eapply ahead_NextNChars; [done|lia|]. intros s4 Hs4.
  destruct (CBU16_IS_SURROGATE high) eqn:E.
  { apply low_surrogate_safe; [| | |done|done|lia].
    - by replace (p + 3 - 5) with (p - 2) by lia.
    - by replace (p + 3 - 4) with (p - 1) by lia.
    - by replace (p + 3 - 3) with p by lia. }
  apply safe_then, safe_check; [unfold CBU16_IS_SINGLE, CBU16_IS_SURROGATE in *; by rewrite E|].
  apply safe_mret. eapply decoded_char; [|done|]; [lia|].
  apply (escaped_character (p - 2)); [done|]. apply escaped_u; [| |done].
  - by replace (p - 2 + 1) with (p - 1) by lia.
  - by replace (p - 2 + 2) with p by lia.
Qed.

Definition turned (d from p : Z) (t : turn) (s : JSONParser) : Prop :=
  match t with
  | Again b => exists q, p < q /\ between d q s /\ built from q b
  | Return (Some b) => p < len /\ at_pos d p s /\ built from p b
  | Return None => reported s
  end.

Lemma string_error_safe d from p code adjust s :
  code <> JSON_NO_ERROR -> safe (string_error code adjust) s (turned d from p).
Proof. intros Hc. apply safe_then, safe_modify, safe_mret. by left. Qed.

Lemma append_turn_safe d from p q c b t s :
  0 <= p <= q -> q <= len -> ahead d q s -> built from p b -> string_ b = Some t -> 0 <= c < 128 ->
  safe (append_turn c b) s (turned d from p).
Proof.
  intros Hp Hq Hs Hb Et Hc. apply safe_then. eapply (Append_escaped from p (q + 1)); [done|done|lia|lia|by left|].
  intros b' Hb'. apply safe_mret. exists (q + 1). split; [lia|]. split; [apply ahead_between; [done|lia]|done].
Qed.

Lemma escape_x_safe d from p b t s :
  get mem p = Some "\"%ch -> get mem (p + 1) = Some "x"%ch -> 0 <= p -> p + 1 <= len ->
  ahead d (p + 1) s -> built from p b -> string_ b = Some t ->
  safe (escape "x"%ch b) s (turned d from p).
Proof.
  intros Hat Hat1 Hp Hp1 Hs Hb Et.
  unfold escape. rewrite Z.eqb_refl. apply safe_then. eapply ahead_CanConsume; [done|].
  destruct (Z.leb_spec (p + 1 + 2) len); cbn [negb]; [|by apply string_error_safe].
  apply safe_then. eapply ahead_NextChar; [done|lia|]. intros s1 Hs1. pose proof Hs1 as (Ho & Hpos & _).
  apply safe_then, safe_get_state, safe_then. eapply hex_at_safe; [exact Ho|lia|lia|lia|]. intros ok hex Hhex.
  destruct ok; cbn [negb]; [|by apply string_error_safe]. specialize (Hhex eq_refl). rewrite Hpos in Hhex.
  assert (character hex \/ odd_escape mem) as Hch.
  { apply (escaped_character p); [done|]. apply escaped_x; [done|]. by replace (p + 2) with (p + 1 + 1) by lia. }
  apply safe_then. eapply ahead_NextChar; [done|lia|]. intros s2 Hs2.
  assert (Hgo : forall b', built from (p + 1 + 1 + 1 + 1) b' -> safe (mret (Again b')) s2 (turned d from p)).
  { intros b' Hb'. apply safe_mret. exists (p + 1 + 1 + 1 + 1). split; [lia|]. split; [|done]. apply ahead_between; [done|lia]. }
  apply safe_then. destruct (Z.ltb_spec hex kExtendedASCIIStart) as [Hsmall|Hlarge].
  - eapply (Append_escaped from p); [done|done| |exact (wrap_s_range 8 hex ltac:(lia))| |exact Hgo]; [lia|].
    destruct Hch as [[Hc _]|]; [left|by right]. unfold scalar in Hc. unfold kExtendedASCIIStart in Hsmall.
    rewrite wrap_s_id by (unfold in_s; change (2 ^ (8 - 1)) with 128; lia). lia.
  - destruct (append_any hex) as [Ha Hn].
    eapply (DecodeUTF8_safe from p); [done|apply Hs2|exact Hlarge| | |exact Hgo]; [|lia].
    destruct Hch as [Hc|]; [|by apply good_escape]. rewrite append_spec by apply Hc. by apply good_enc8.
Qed.

Lemma escape_u_safe d from p b t s :
  get mem p = Some "\"%ch -> get mem (p + 1) = Some "u"%ch -> 0 <= p -> p + 1 <= len ->
  ahead d (p + 1) s -> built from p b -> string_ b = Some t ->
  safe (escape "u"%ch b) s (turned d from p).
Proof.
  intros Hat Hat1 Hp Hp1 Hs Hb Et.
  unfold escape. change ("u"%ch =? "x"%ch) with false. cbn [Z.eqb Pos.eqb]. apply safe_then. eapply ahead_CanConsume; [done|].
  destruct (Z.leb_spec (p + 1 + 5) len); cbn [negb]; [|by apply string_error_safe].
  apply safe_then. eapply ahead_NextChar; [done|lia|]. intros s1 Hs1.
  apply safe_then. eapply safe_impl; [apply (DecodeUTF16_safe d (p + 1 + 1)); [by replace (p + 1 + 1 - 2) with p by lia|by replace (p + 1 + 1 - 1) with (p + 1) by lia|done|lia]|]. intros [units|] s2 Hu.
  2: { by apply string_error_safe. }
  destruct Hu as (q & Hq & Hs2 & Hbytes & Hn). apply safe_then.
  eapply (AppendString_safe from p (q + 1)); [done|done|exact Hbytes|lia|]. intros b' Hb'. apply safe_mret.
  exists (q + 1). split; [lia|]. split; [|done]. apply ahead_between; [done|lia].
Qed.

Lemma escape_safe d from p c b t s :
  get mem p = Some "\"%ch -> get mem (p + 1) = Some c -> 0 <= p -> p + 1 <= len ->
  ahead d (p + 1) s -> built from p b -> string_ b = Some t ->
  safe (escape c b) s (turned d from p).
Proof.
  intros Hat Hat1 Hp Hp1 Hs Hb Et.
  destruct (Z.eqb_spec c "x"%ch) as [-> |Hx]; [by eapply escape_x_safe|].
  destruct (Z.eqb_spec c "u"%ch) as [-> |Hu]; [by eapply escape_u_safe|].
  unfold escape. rewrite (proj2 (Z.eqb_neq c "x"%ch) Hx), (proj2 (Z.eqb_neq c "u"%ch) Hu).
  repeat (case_if; [eapply (append_turn_safe d from p (p + 1)); (done || lia)|]). by apply string_error_safe.
Qed.

(** *** The loop *)

(** The byte behind the text is read as a character of its own. *)
Lemma next_character p :
  0 <= p <= len -> exists j c, CBU8_NEXT mem p len = Some (j, c) /\ p < j /\ (j <= len \/ p = len /\ j = len + 1) /\
    (c = -1 \/ scalar c /\ lies mem p (enc8 c) /\ j = p + zlen (enc8 c)).
Proof.
  intros Hp. pose proof len_mem. destruct (decide (p = len)) as [-> |].
  - rewrite (CBU8_NEXT_single mem len len 0) by (done || lia). exists (len + 1), 0. split; [done|]. split; [lia|]. split; [by right|].
    right. rewrite enc8_1 by lia. split; [unfold scalar; lia|]. split; [|done]. apply lies_cons; [done|]. apply lies_nil. lia.
  - destruct (CBU8_NEXT_spec mem p len Hmem ltac:(lia) ltac:(lia) ltac:(lia)) as (j & c & E & Hj & Hc).
    exists j, c. split; [exact E|]. split; [lia|]. split; [left; lia|]. destruct Hc as [[? _]|]; auto.
Qed.

Lemma string_turn_safe d from p b s :
  between d p s -> pos_ s + 1 <= len -> 0 <= from <= p -> built from p b -> safe (string_turn b) s (turned d from p).
Proof.
  intros (Ho & Hi & Hpos & Hp & Hpl) Hcan Hfrom Hb. specialize (Hpl ltac:(lia)).
  destruct (next_character p ltac:(lia)) as (j & c & Enext & Hj & Hjl & Hc). destruct Ho as (Hm & He & Hrest).
  unfold string_turn. apply safe_then, safe_modify, safe_then, safe_get_state. cbn. rewrite Hm, He, Hi, s32_id, Enext by lia.
  apply safe_then, safe_mret, safe_then, safe_modify. rewrite s32_id by lia.
  set (s1 := s <| pos_ := p |> <| index_ := j |>). assert (Ho : on d s1) by done.
  assert (Hbetween : between d j s1) by (split; [done|]; cbn; lia).
  destruct ((c <? 0) || negb (IsValidCharacter (u32 c))) eqn:Hok; [by apply string_error_safe|].
  apply orb_false_iff in Hok as [Hneg Hv]. apply Z.ltb_ge in Hneg. apply negb_false_iff in Hv.
  destruct Hc as [-> |(Hc & Hl & Ej)]; [lia|]. assert (Hcr : 0 <= c <= 1114111) by (unfold scalar in Hc; lia).
  rewrite u32_id in Hv by lia. assert (Hch : character c) by done. pose proof (append_spec c Hc) as Happ.
  assert (Hone : c < 128 -> get mem p = Some c /\ j = p + 1).
  { intros Hc1. rewrite enc8_1 in Hl, Ej by lia. split; [by apply lies_get in Hl|exact Ej]. }
  assert (Hgo : forall b', built from j b' -> safe (mret (Again b')) s1 (turned d from p)).
  { intros b' Hb'. apply safe_mret. by exists j. }
  destruct (Z.eqb_spec c "\"%ch) as [-> |].
  { destruct (Hone ltac:(lia)) as [Hget Ej1]. assert (Hs1 : ahead d p s1) by (split; [done|]; cbn; lia).
    apply safe_then. eapply Convert_safe; [done|done|]. intros b' t Hb' Et. apply safe_then. eapply ahead_CanConsume; [done|].
    destruct (Z.leb_spec (p + 1) len); cbn [negb]; [|by apply string_error_safe].
    apply safe_then. eapply ahead_next_byte; [done|lia|lia|]. intros c' s2 Hc' Hs2. eapply escape_safe; (done || lia). }
  destruct (Z.eqb_spec c 34) as [-> |].
  { destruct (Hone ltac:(lia)) as [Hget Ej1]. apply safe_then, safe_modify, safe_mret. split.
    - destruct (decide (p = len)) as [E|]; [|lia]. rewrite E, Hnul in Hget. discriminate.
    - split; [|done]. split; [done|]. cbn. rewrite s32_id by lia. lia. }
  apply safe_then. unfold kExtendedASCIIStart. destruct (Z.ltb_spec c 128).
  - destruct (Hone ltac:(lia)) as [Hget Ej1]. rewrite wrap_s_id by (unfold in_s; lia).
    eapply (Append_plain from p); [done|done|lia|]. by rewrite <- Ej1.
  - eapply (DecodeUTF8_safe from p j); [done|done|lia|rewrite Happ; by apply good_enc8|rewrite Happ; lia|exact Hgo].
Qed.

(** A string ends at its closing quotes. *)
Definition closed (d from : Z) (out : option StringBuilder) (s : JSONParser) : Prop :=
  match out with
  | Some b => exists p, from <= p < len /\ at_pos d p s /\ built from p b
  | None => reported s
  end.

Lemma string_loop_safe d from fuel p b s :
  between d p s -> 0 <= from <= p -> built from p b -> (Z.to_nat (len + 1 - p) < fuel)%nat ->
  safe (string_loop fuel b) s (closed d from).
Proof.
  revert p b s. induction fuel as [|fuel IH]; intros p b s Hs Hp Hb Hf; [lia|]. cbn [string_loop]. pose proof Hs as (Ho & Hi & Hpos & Hpl & _).
  apply safe_then. eapply safe_CanConsume; [exact Ho|]. destruct (Z.leb_spec (pos_ s + 1) len); cbn [negb].
  2: { by apply safe_fail. }
  apply safe_then. eapply safe_impl; [apply (string_turn_safe d from p); (done || lia)|]. intros [b'|[b'|]] s' Ht; cbn in Ht.
  - destruct Ht as (q & Hq & Hs' & Hb'). pose proof Hs' as (_ & _ & _ & Hql & _). eapply IH; [done|lia|done|lia].
  - apply safe_mret. exists p. split; [lia|]. apply Ht.
  - by apply safe_mret.
Qed.

Lemma ConsumeStringRaw_safe d p s :
  at_pos d p s -> 0 <= p < len -> safe ConsumeStringRaw s (closed d (p + 1)).
Proof.
  intros Hs Hp. pose proof Hs as (Ho & Hpos & Hi). apply safe_then. eapply safe_here; [exact Ho|exact Hpos|lia|]. intros c _ _.
  case_if; [by apply safe_fail|]. apply safe_then. eapply safe_NextChar; [exact Ho|lia|].
  pose proof (at_moved d p 1 s Hs ltac:(lia)) as Hs'. apply safe_then, safe_get_state. rewrite (bytes_left_spec d (p + 1)) by done.
  pose proof Hs' as (Ho' & Hpos' & Hi'). rewrite Hpos'. apply (string_loop_safe d (p + 1) _ (p + 1)); [|lia|apply built_new; lia|lia].
  split; [done|]. lia.
Qed.

(** ** Values *)

(** Pieces of the text are returned unless the values are to be detachable. *)
Definition has_pieces : bool := negb (has_option opts JSON_DETACHABLE_CHILDREN).

(** A value that is this deep at most; its pieces are pieces of the text. *)
Fixpoint well_formed (pieces : bool) (levels : nat) (v : Value double) : Prop :=
  match v with
  | NullValue | BooleanValue _ => True
  | IntegerValue z => in_s 32 z
  | DoubleValue x => IsFinite x = true
  | StringValue t => good t /\ zlen t <= len
  | JSONStringValue piece => pieces = true /\ exists t, as_string mem piece = Some t /\ good t /\ zlen t <= len
  | BinaryValue _ => False
  | DictionaryValue entries =>
      match levels with
      | O => False
      | S levels => ordered entries /\ Forall (fun entry => good entry.1 /\ well_formed pieces levels entry.2) entries
      end
  | ListValue items =>
      match levels with
      | O => False
      | S levels => Forall (well_formed pieces levels) items
      end
  end.

Lemma well_formed_leaf levels v : well_formed has_pieces 0 v -> well_formed has_pieces levels v.
Proof. by destruct v, levels. Qed.

Lemma new_StringValue_safe t s (Q : Value double -> JSONParser -> Prop) :
  good t -> zlen t <= len -> Q (StringValue t) s -> safe (lift (new_StringValue t)) s Q.
Proof.
  intros [Hb Hg] Hn HQ. destruct (IsStringUTF8_spec t Hb ltac:(lia)) as (ok & E & Hok).
  unfold safe, lift, new_StringValue, check. rewrite E. cbn. destruct DCHECK_IS_ON eqn:Hd; [|done]. destruct ok; [done|].
  cbn. destruct Hg as [Hu|Hesc]; [|by split]. unfold utf8_text in Hu. apply Hok in Hu. discriminate.
Qed.

(** Behind a value the parser is at its last byte. *)
Definition valued (d p : Z) (levels : nat) (out : option (Value double)) (s : JSONParser) : Prop :=
  match out with
  | Some v => (exists q, p <= q < len /\ at_pos d q s) /\ well_formed has_pieces levels v
  | None => reported s
  end.

Lemma built_text from p b s (Q : list Z -> JSONParser -> Prop) :
  0 <= from -> p <= len -> built from p b -> memory s = mem ->
  (forall t, good t -> zlen t <= len -> Q t s) -> safe (AsString b) s Q.
Proof.
  intros Hf Hp Hb Hm HQ. unfold AsString. apply safe_then. eapply Convert_safe; [done|done|]. intros b' t Hb' Et. rewrite Et.
  destruct (built_zlen _ _ _ _ Hb' Et). apply safe_mret, HQ; [done|lia].
Qed.

Lemma ConsumeString_safe d p levels s :
  at_pos d p s -> 0 <= p < len -> safe ConsumeString s (valued d p levels).
Proof.
  intros Hs Hp. apply safe_then. eapply safe_impl; [apply (ConsumeStringRaw_safe d p); done|]. intros [b|] s1 Hout; [|done].
  destruct Hout as (q & Hq & Hs1 & Hb). apply safe_then, safe_get_state. pose proof Hs1 as ((Hm & _ & Hop & _) & _).
  assert (Hend : exists q0, p <= q0 < len /\ at_pos d q0 s1) by (exists q; split; [lia|done]).
  rewrite Hop. fold has_pieces. destruct (CanBeStringPiece b && has_pieces) eqn:Ecan.
  - apply andb_true_iff in Ecan as [Eb Ep]. apply safe_mret. split; [done|]. apply well_formed_leaf. split; [done|].
    unfold built in Hb. unfold CanBeStringPiece in Eb. unfold AsStringPiece. destruct (string_ b); [done|].
    destruct Hb as (-> & -> & t & Et & Hg). exists t. split; [done|]. split; [done|].
    apply as_string_zlen in Et. cbn in Et. lia.
  - assert (Hrest : forall b', built (p + 1) q b' ->
      safe (value_ ← AsString b'; v ← lift (new_StringValue value_); mret (Some v)) s1 (valued d p levels)).
    { intros b' Hb'. apply safe_then. eapply (built_text (p + 1) q); [lia|lia|done|done|]. intros t Hg Hn.
      apply safe_then, new_StringValue_safe; [done|done|]. apply safe_mret. split; [done|]. by apply well_formed_leaf. }
    apply safe_then. destruct (CanBeStringPiece b); [|by apply safe_mret, Hrest].
    eapply Convert_safe; [done|done|]. intros b' t Hb' _. by apply Hrest.
Qed.

(** ** Numbers *)
Lemma lies_join p q l1 l2 : lies mem p l1 -> lies mem q l2 -> q = p + zlen l1 -> lies mem p (l1 ++ l2).
Proof.
  intros H1 H2 ->. revert p H1 H2. induction l1 as [|x l1 IH]; intros p H1 H2.
  - change (zlen (@nil Z)) with 0 in H2. by rewrite Z.add_0_r in H2.
  - cbn [app]. apply lies_cons; [by eapply lies_get|]. apply IH; [by eapply lies_tail|].
    replace (p + 1 + zlen l1) with (p + zlen (x :: l1)); [done|]. unfold zlen. cbn. lia.
Qed.

Lemma digits_loop_safe d fuel c n p s :
  at_pos d p s -> 0 <= p <= len -> get mem p = Some c -> 0 <= n <= p -> (Z.to_nat (len - p) < fuel)%nat ->
  safe (digits_loop fuel c n) s (fun m s' => exists ds, p + zlen ds <= len /\ at_pos d (p + zlen ds) s' /\ m = n + zlen ds /\
    lies mem p ds /\ Forall (fun c => IsAsciiDigit c = true) ds).
Proof.
  revert c n p s. induction fuel as [|fuel IH]; intros c n p s Hs Hp Hc Hn Hf; [lia|]. cbn [digits_loop]. pose proof Hs as (Ho & Hpos & Hi).
  pose proof len_mem. assert (Hstop : exists ds, p + zlen ds <= len /\ at_pos d (p + zlen ds) s /\ n = n + zlen ds /\
    lies mem p ds /\ Forall (fun c => IsAsciiDigit c = true) ds).
  { exists []. change (zlen (@nil Z)) with 0. rewrite !Z.add_0_r. split_and?; [lia|done|done|apply lies_nil; lia|constructor]. }
  apply safe_then. eapply safe_CanConsume; [exact Ho|]. rewrite Hpos. destruct (Z.leb_spec (p + 1) len); cbn [andb]; [|by apply safe_mret].
  destruct (IsAsciiDigit c) eqn:Ed; [|by apply safe_mret].
  apply safe_then. eapply safe_next_byte; [exact Ho|lia|lia|]. intros c' Hc' _. rewrite s32_id by lia.
  eapply safe_impl; [apply (IH c' (n + 1) (p + 1)); [apply at_moved; [done|lia]|lia|by rewrite <- Hpos|lia|lia]|].
  intros m s' (ds & Hq & Hs' & -> & Hl & Hd). exists (c :: ds). assert (E : zlen (c :: ds) = 1 + zlen ds) by (unfold zlen; cbn; lia).
  rewrite E, !Z.add_assoc. split_and?; [lia|done|done|by apply lies_cons|by constructor].
Qed.

(** The parser has read this text, up to where it is. *)
Definition has_read (P : list Z -> Prop) (d p : Z) (t : list Z) (s : JSONParser) : Prop :=
  lies mem p t /\ P t /\ p + zlen t <= len /\ at_pos d (p + zlen t) s.

Lemma ReadInt_safe d p allow s :
  at_pos d p s -> 0 <= p <= len ->
  safe (ReadInt allow) s (fun ok s' => lands d p s' /\ (ok = true -> exists ds, has_read digits d p ds s')).
Proof.
  intros Hs Hp. pose proof Hs as (Ho & Hpos & Hi). apply safe_then. eapply safe_here; [exact Ho|exact Hpos|lia|]. intros c Hc _.
  apply safe_then, safe_get_state. rewrite (bytes_left_spec d p) by done. apply safe_then.
  eapply safe_impl; [apply (digits_loop_safe d _ c 0 p); [done|lia|done|lia|lia]|]. intros m s' (ds & Hq & Hs' & Em & Hl & Hd).
  assert (Hlands : lands d p s') by (exists (p + zlen ds); split; [pose proof (zlen_nonneg ds); lia|done]).
  destruct (Z.eqb_spec m 0); [by apply safe_mret|].
  case_if; apply safe_mret; (split; [done|]); intros; [done|]. exists ds. unfold has_read. split_and?; [done| |lia|done]. split; [|done]. by intros ->.
Qed.

(** A part of a number that has been read up to its end, which is where the parser is. *)
Definition part (P : list Z -> Prop) (d p : Z) (end_index : option Z) (s : JSONParser) : Prop :=
  match end_index with
  | Some e => exists t, has_read P d p t s /\ e = p + zlen t
  | None => reported s
  end.

Lemma read_digits d p s :
  at_pos d p s -> 0 <= p <= len ->
  safe (ok ← ReadInt true; if negb ok then fail JSON_SYNTAX_ERROR 1 else s ← get_state; mret (Some (index_ s))) s (part digits d p).
Proof.
  intros Hs Hp. apply safe_then. eapply safe_impl; [by apply (ReadInt_safe d p)|]. intros ok s' [_ Hok].
  destruct ok; cbn [negb]; [|by apply safe_fail]. destruct (Hok eq_refl) as (ds & Hds). pose proof Hds as (_ & _ & _ & _ & _ & Hi).
  apply safe_then, safe_get_state, safe_mret. by exists ds.
Qed.

(** A part may be read with a text in front of it. *)
Lemma part_front (P Q : list Z -> Prop) d p q front e s :
  lies mem p front -> q = p + zlen front -> (forall t, P t -> Q (front ++ t)) -> part P d q e s -> part Q d p e s.
Proof.
  intros Hf -> HQ. destruct e as [e|]; [|done]. intros (t & (Hl & Ht & Hn & Hs) & ->). exists (front ++ t).
  unfold has_read. rewrite zlen_app, Z.add_assoc. split; [|done]. split_and?; [by eapply lies_join|by apply HQ|lia|done].
Qed.

Lemma part_nothing (P : list Z -> Prop) d p s : at_pos d p s -> 0 <= p <= len -> P [] -> part P d p (Some p) s.
Proof.
  intros Hs Hp HP. pose proof len_mem. exists []. unfold has_read. change (zlen (@nil Z)) with 0. rewrite Z.add_0_r.
  split; [|done]. split_and?; [apply lies_nil; lia|done|lia|done].
Qed.

Lemma lies_one p c : get mem p = Some c -> lies mem p [c].
Proof. intros Hc. apply lies_cons; [done|]. apply lies_nil. pose proof (get_range _ _ _ Hc). lia. Qed.

Lemma not_nul p c : get mem p = Some c -> c <> 0 -> p <= len -> p < len.
Proof. intros Hc Hne Hp. destruct (decide (p = len)) as [->|]; [|lia]. congruence. Qed.

Lemma fraction_safe d p s : at_pos d p s -> 0 <= p <= len -> safe (fraction p) s (part fraction_text d p).
Proof.
  intros Hs Hp. pose proof Hs as (Ho & Hpos & Hi). apply safe_then. eapply safe_here; [exact Ho|exact Hpos|lia|]. intros c Hc _.
  destruct (Z.eqb_spec c "."%ch) as [->|]; [|apply safe_mret, part_nothing; [done|done|by left]].
  apply safe_then. eapply safe_CanConsume; [exact Ho|]. rewrite Hpos. destruct (Z.leb_spec (p + 1) len); cbn [negb]; [|by apply safe_fail].
  apply safe_then. eapply safe_NextChar; [exact Ho|lia|]. eapply safe_impl; [apply (read_digits d (p + 1)); [apply at_moved; [done|lia]|lia]|].
  intros e s'. apply (part_front digits _ d p (p + 1) ["."%ch]); [by apply lies_one|done|]. intros t Ht. right. by exists t.
Qed.

Lemma exponent_safe d p s : at_pos d p s -> 0 <= p <= len -> safe (exponent p) s (part exponent_text d p).
Proof.
  intros Hs Hp. pose proof Hs as (Ho & Hpos & Hi). apply safe_then. eapply safe_here; [exact Ho|exact Hpos|lia|]. intros c Hc _.
  case_if; [|apply safe_mret, part_nothing; [done|done|by left]].
  assert (Hec : c = "e"%ch \/ c = "E"%ch) by (to_prop; lia).
  assert (p < len) by (apply (not_nul p c); [done|to_prop; lia|lia]).
  apply safe_then. eapply safe_next_byte; [exact Ho|lia|lia|]. rewrite Hpos. intros c' Hc' _.
  pose proof (at_moved d p 1 s Hs ltac:(lia)) as Hs'. apply safe_then. case_if.
  - assert (p + 1 < len) by (apply (not_nul (p + 1) c'); [done|to_prop; lia|lia]). pose proof Hs' as (Ho' & Hpos' & _).
    eapply safe_NextChar; [exact Ho'|lia|]. eapply safe_impl; [apply (read_digits d (p + 1 + 1)); [apply at_moved; [done|lia]|lia]|].
    intros e s'. apply (part_front digits _ d p (p + 1 + 1) [c; c']); [|by rewrite <- Z.add_assoc|].
    + apply lies_cons; [done|by apply lies_one].
    + intros t Ht. right. exists c, [c'], t. split_and?; [done|done| |done]. right.
      assert (c' = "-"%ch \/ c' = "+"%ch) as [->| ->] by (to_prop; lia); tauto.
  - apply safe_mret. eapply safe_impl; [apply (read_digits d (p + 1)); [done|lia]|]. intros e s'.
    apply (part_front digits _ d p (p + 1) [c]); [by apply lies_one|done|]. intros t Ht. right. exists c, [], t. split_and?; [done|done|by left|done].
Qed.

Lemma number_value_spec t v levels : number_value t = Some v -> well_formed has_pieces levels v.
Proof.
  intros Hv. apply well_formed_leaf. revert Hv. unfold number_value, StringToInt.
  pose proof (Invoke_range LocalIsWhitespace Int 10 t 0 ltac:(by left) ltac:(lia) ltac:(split; cbn; lia)) as Hr.
  destruct (Invoke LocalIsWhitespace Int 10 t 0) as [[] z]; [|destruct (StringToDouble t) as [ok x]; destruct (ok && IsFinite x) eqn:E; [|done]].
  - intros [= <-]. cbn in *. unfold in_type, numeric_min, numeric_max in Hr. cbn in Hr. split; cbn; lia.
  - intros [= <-]. by apply andb_true_iff in E as [_ E].
Qed.

(** What is read as a number is the text of a number. *)
Lemma number_text_read d p sign whole fr ex s1 s2 s3 :
  lies mem p sign -> (sign = [] \/ sign = ["-"%ch]) -> has_read digits d (p + zlen sign) whole s1 ->
  has_read fraction_text d (p + zlen sign + zlen whole) fr s2 ->
  has_read exponent_text d (p + zlen sign + zlen whole + zlen fr) ex s3 ->
  let t := sign ++ whole ++ fr ++ ex in lies mem p t /\ number_text t /\ p + zlen sign + zlen whole + zlen fr + zlen ex = p + zlen t.
Proof.
  intros Hl0 Hsign (Hl1 & Hw & _) (Hl2 & Hf & _) (Hl3 & He & _) t. split; [|split].
  - repeat (eapply lies_join; [eassumption| |reflexivity]). done.
  - by exists sign, whole, fr, ex.
  - unfold t. rewrite !zlen_app. lia.
Qed.

Lemma ConsumeNumber_safe d p levels s :
  at_pos d p s -> 0 <= p < len -> safe ConsumeNumber s (valued d p levels).
Proof.
  intros Hs Hp. pose proof Hs as (Ho & Hpos & Hi). pose proof len_mem. unfold ConsumeNumber. apply safe_then, safe_get_state, safe_then.
  eapply safe_here; [exact Ho|exact Hpos|lia|]. intros c Hc _. rewrite Hpos, Hi.
  assert (Hsign : safe (if c =? "-"%ch then NextChar else mret tt) s (fun _ => has_read (fun t => t = [] \/ t = ["-"%ch]) d p
    (if c =? "-"%ch then ["-"%ch] else []))).
  { destruct (Z.eqb_spec c "-"%ch) as [->|].
    - eapply safe_NextChar; [exact Ho|lia|]. unfold has_read. split_and?; [by apply lies_one|by right|change (zlen ["-"%ch]) with 1; lia|apply at_moved; [done|lia]].
    - apply safe_mret. unfold has_read. change (zlen (@nil Z)) with 0. rewrite Z.add_0_r. split_and?; [apply lies_nil; lia|by left|lia|done]. }
  apply safe_then. eapply safe_impl; [exact Hsign|]. clear Hsign.
  set (sign := if c =? "-"%ch then ["-"%ch] else []). clearbody sign. clear c Hc.
  intros _ s1 (Hl1 & Hsign & Hn1 & Hs1). pose proof (zlen_nonneg sign). apply safe_then.
  eapply safe_impl; [apply (ReadInt_safe d (p + zlen sign)); [done|lia]|]. intros ok s2 [_ Hok].
  destruct ok; cbn [negb]; [|by apply safe_fail]. destruct (Hok eq_refl) as (whole & Hwhole). pose proof Hwhole as (_ & [Hne _] & Hn2 & Hs2).
  assert (0 < zlen whole) by (destruct whole; [done|unfold zlen; cbn; lia]).
  apply safe_then, safe_get_state, safe_then. pose proof Hs2 as (_ & _ & Hi2). rewrite Hi2.
  eapply safe_impl; [apply (fraction_safe d (p + zlen sign + zlen whole)); [done|lia]|]. intros [e3|] s3 Hs3; [|by apply safe_mret].
  destruct Hs3 as (fr & Hfr & ->). pose proof Hfr as (_ & _ & Hn3 & Hs3). pose proof (zlen_nonneg fr).
  apply safe_then. eapply safe_impl; [apply (exponent_safe d (p + zlen sign + zlen whole + zlen fr)); [done|lia]|].
  intros [e4|] s4 Hs4; [|by apply safe_mret]. destruct Hs4 as (ex & Hex & ->). pose proof Hex as (_ & _ & Hn4 & Hs4). pose proof (zlen_nonneg ex).
  destruct (number_text_read d p sign whole fr ex s2 s3 s4 Hl1 Hsign Hwhole Hfr Hex) as (Hl & Ht & Et). rewrite Et in *.
  set (t := sign ++ whole ++ fr ++ ex) in *.
  pose proof Hs4 as (_ & Hpos4 & Hi4). apply safe_then, safe_get_state, safe_then. rewrite Hpos4, Hi4.
  eapply safe_impl; [apply (GetNextToken_safe d (p + zlen t)); [done|lia]|]. intros token s5 (q & Hq & Hs5 & _).
  assert (Hgo : safe (modify (fun s => s <| pos_ := p + zlen t - 1 |> <| index_ := (p + zlen t) ⊖ 1 |>) ;;
      num_string ← bytes_of p ((p + zlen t) ⊖ p); mret (number_value num_string)) s5 (valued d p levels)).
  { apply safe_then, safe_modify, safe_then. rewrite !s32_id by lia. unfold safe at 1, bytes_of, lift. cbn [memory].
    pose proof Hs5 as ((Hm5 & He5) & _). change (memory (s5 <| pos_ := p + zlen t - 1 |> <| index_ := p + zlen t - 1 |>)) with (memory s5). rewrite Hm5.
    replace (p + zlen t - p) with (zlen t) by lia. rewrite as_string_lies by done. apply safe_mret. destruct (number_value t) as [v|] eqn:Ev.
    - split; [|by eapply number_value_spec]. exists (p + zlen t - 1). split; [lia|]. by split.
    - right. by exists p, t. }
  destruct token; (exact Hgo || by apply safe_fail).
Qed.

(** ** Literals *)
Lemma StringsAreEqual_safe d one two s (Q : bool -> JSONParser -> Prop) :
  on d s -> 0 <= one -> one + zlen two <= len + 1 ->
  (forall b, (b = true -> lies mem one two) -> Q b s) -> safe (StringsAreEqual one two) s Q.
Proof.
  intros Ho. pose proof len_mem. revert one Q. induction two as [|c two IH]; intros one Q Hone Htwo HQ; cbn [StringsAreEqual].
  - apply safe_mret, HQ. intros _. apply lies_nil. change (zlen (@nil Z)) with 0 in Htwo. lia.
  - assert (Ez : zlen (c :: two) = 1 + zlen two) by (unfold zlen; cbn; lia). pose proof (zlen_nonneg two).
    apply safe_then. eapply safe_byte_at; [exact Ho|lia|]. intros b Hb _. destruct (Z.eqb_spec b c) as [-> |].
    + apply IH; [lia|lia|]. intros ok Hok. apply HQ. intros E. apply lies_cons; [done|by apply Hok].
    + by apply safe_mret, HQ.
Qed.

Lemma literal_safe d p levels start last v s :
  at_pos d p s -> 0 <= p < len -> last <> 0 -> zlen start <= 10 -> well_formed has_pieces levels v ->
  safe (literal (start ++ [last]) v) s (valued d p levels).
Proof.
  intros Hs Hp Hlast Hstart Hv. pose proof Hs as (Ho & Hpos & Hi). unfold literal. rewrite zlen_app. change (zlen [last]) with 1.
  pose proof (zlen_nonneg start). replace (zlen start + 1 - 1) with (zlen start) by lia.
  apply safe_then. eapply safe_CanConsume; [exact Ho|]. rewrite Hpos. apply safe_then, safe_get_state, safe_then. rewrite Hpos.
  assert (Hrest : forall equal : bool, (equal = true -> lies mem p (start ++ [last]) /\ p + zlen start <= len) ->
    safe (if negb equal then fail JSON_SYNTAX_ERROR 1 else NextNChars (zlen start) ;; mret (Some v)) s (valued d p levels)).
  { intros equal Hequal. destruct equal; cbn [negb]; [|by apply safe_fail]. destruct (Hequal eq_refl) as [Hl Hn].
    apply lies_app in Hl as [_ Hl]. apply lies_get in Hl. pose proof (not_nul _ _ Hl Hlast Hn).
    apply safe_then. eapply safe_NextNChars; [exact Ho|lia|]. apply safe_mret. split; [|done]. exists (p + zlen start).
    split; [lia|]. apply at_moved; [done|lia]. }
  destruct (Z.leb_spec (p + zlen start) len); [|by apply safe_mret, Hrest].
  eapply StringsAreEqual_safe; [exact Ho|lia|rewrite zlen_app; change (zlen [last]) with 1; lia|]. intros b Hb. apply Hrest. intros E. by split; [apply Hb|].
Qed.

Lemma ConsumeLiteral_safe d p levels s :
  at_pos d p s -> 0 <= p < len -> safe ConsumeLiteral s (valued d p levels).
Proof.
  intros Hs Hp. pose proof Hs as (Ho & Hpos & Hi). apply safe_then. eapply safe_here; [exact Ho|exact Hpos|lia|]. intros c _ _.
  case_if; [apply (literal_safe d p levels (str "tru") "e"%ch); try done; by apply well_formed_leaf|].
  case_if; [apply (literal_safe d p levels (str "fals") "e"%ch); try done; by apply well_formed_leaf|].
  case_if; [apply (literal_safe d p levels (str "nul") "l"%ch); try done; by apply well_formed_leaf|].
  by apply safe_fail.
Qed.

(** ** Lists and dictionaries *)
Lemma with_depth_safe d p levels body s :
  at_pos d p s -> 0 <= p < len -> 0 <= d < 100 ->
  (forall s', at_pos (d + 1) p s' -> d < 99 -> safe body s' (valued (d + 1) p levels)) ->
  safe (with_depth body) s (valued d p levels).
Proof.
  intros Hs Hp Hd Hbody. pose proof Hs as ((Hm & He & Ho & Hdepth) & Hpos & Hi). apply safe_then, safe_modify, safe_then, safe_get_state.
  cbn. rewrite Hdepth, s32_id by lia. change (Z.of_nat kStackMaxDepth) with 100.
  apply safe_then, safe_check; [lia|]. set (s1 := s <| stack_depth_ := d + 1 |>). assert (Hs1 : at_pos (d + 1) p s1) by done.
  apply safe_then. apply (safe_impl _ _ (valued (d + 1) p levels)).
  - destruct (Z.leb_spec 100 (d + 1)); [by apply safe_fail|]. apply Hbody; [done|lia].
  - intros [v|] s2 Hv; apply safe_then, safe_modify, safe_mret; [|exact Hv]. destruct Hv as [(q & Hq & ((Hm2 & He2 & Ho2 & Hd2) & Hpos2 & Hi2)) Hv].
    split; [|done]. exists q. split; [done|]. split; [|done]. split; [done|]. split; [done|]. split; [done|]. cbn. rewrite Hd2, s32_id by lia. lia.
Qed.

Lemma token_at_mono d p q token s : p <= q -> token_at d q token s -> token_at d p token s.
Proof. intros Hpq (r & Hr & Hrest). exists r. split; [lia|done]. Qed.

(** The parser is inside the text, unless it is at the end of it. *)
Lemma token_inside d p token s :
  token_at d p token s -> token <> T_END_OF_INPUT -> exists q, p <= q < len /\ at_pos d q s.
Proof. intros (q & Hq & Hs & [Ht|[Hl _]]) Hne; [done|]. exists q. split; [lia|done]. Qed.

Lemma next_token_safe d p s : at_pos d p s -> 0 <= p < len -> safe (NextChar ;; GetNextToken) s (token_at d (p + 1)).
Proof.
  intros Hs Hp. pose proof Hs as (Ho & Hpos & _). apply safe_then. eapply safe_NextChar; [exact Ho|lia|].
  apply GetNextToken_safe; [apply at_moved; [done|lia]|lia].
Qed.

(** The rule for the two together, where they are followed by something. *)
Lemma next_token_then {B} d p s (f : Token -> M B) (Q : B -> JSONParser -> Prop) :
  at_pos d p s -> 0 <= p < len -> (forall token s', token_at d (p + 1) token s' -> safe (f token) s' Q) ->
  safe (NextChar ;; token ← GetNextToken; f token) s Q.
Proof.
  intros Hs Hp Hf. pose proof (next_token_safe d p s Hs Hp) as Hn. unfold safe, mbind, M_bind in *.
  destruct (NextChar s) as [[[] s1]| |]; [|done|done]. destruct (GetNextToken s1) as [[token s2]| |]; [|done|done]. by apply Hf.
Qed.

Definition separated (d p : Z) (out : option Token) (s : JSONParser) : Prop :=
  match out with Some token => token_at d p token s | None => reported s end.

Lemma separator_safe d p closing adjust s :
  at_pos d p s -> 0 <= p < len -> safe (separator closing adjust) s (separated d (p + 1)).
Proof.
  intros Hs Hp. unfold separator. eapply next_token_then; [done|done|]. intros token s1 Ht. case_decide as E.
  - destruct (token_inside _ _ _ _ Ht ltac:(by rewrite E)) as (q & Hq & Hs1). eapply next_token_then; [done|lia|].
    intros token' s2 Ht'. apply safe_then, safe_get_state. case_if; [by apply safe_fail|]. apply safe_mret.
    eapply token_at_mono; [|exact Ht']. lia.
  - case_decide; [by apply safe_fail|by apply safe_mret].
Qed.

Section nesting.
Context (d : Z) (levels : nat) (parse : Token -> M (option (Value double))).
Hypothesis Hparse : forall p token s, 0 <= p -> token_at d p token s -> safe (parse token) s (valued d p levels).

Lemma list_loop_safe fuel p token items s :
  0 <= p <= len -> token_at d p token s -> Forall (well_formed has_pieces levels) items -> (Z.to_nat (len - p) < fuel)%nat ->
  safe (list_loop parse fuel token items) s (valued d p (S levels)).
Proof.
  revert p token items s. induction fuel as [|fuel IH]; intros p token items s Hp Ht Hitems Hf; [lia|]. cbn [list_loop]. case_decide as E.
  - apply safe_mret. split; [|done]. by apply (token_inside _ _ token); [|rewrite E].
  - apply safe_then. eapply safe_impl; [apply Hparse; [|exact Ht]; lia|]. intros [item|] s1 Hv; [|by apply safe_mret].
    destruct Hv as [(q & Hq & Hs1) Hv]. apply safe_then. eapply safe_impl; [by apply (separator_safe d q); [|lia]|].
    intros [token'|] s2 Ht'; [|by apply safe_mret]. eapply safe_impl; [apply (IH (q + 1)); [lia|done| |lia]|].
    + apply Forall_app. by split; [|constructor].
    + intros [v|] s3 Hout; [|done]. destruct Hout as [(r & Hr & Hs3) Hout]. split; [|done]. exists r. split; [lia|done].
Qed.

Definition paired (p : Z) (out : option (list Z * Value double)) (s : JSONParser) : Prop :=
  match out with
  | Some (key, v) => (exists q, p <= q < len /\ at_pos d q s) /\ good key /\ well_formed has_pieces levels v
  | None => reported s
  end.

Lemma dictionary_pair_safe p token s :
  0 <= p <= len -> token_at d p token s -> safe (dictionary_pair parse token) s (paired p).
Proof.
  intros Hp Ht. unfold dictionary_pair. case_decide as E; [by apply safe_fail|].
  destruct (token_inside _ _ _ _ Ht ltac:(by rewrite E)) as (q & Hq & Hs). apply safe_then.
  eapply safe_impl; [apply (ConsumeStringRaw_safe d q); [done|lia]|]. intros [key|] s1 Hkey; [|by apply safe_mret].
  destruct Hkey as (r & Hr & Hs1 & Hb). eapply next_token_then; [done|lia|]. intros token1 s2 Ht2.
  case_decide as E2; [by apply safe_fail|].
  destruct (token_inside _ _ _ _ Ht2 ltac:(by rewrite E2)) as (q2 & Hq2 & Hs2). eapply next_token_then; [done|lia|]. intros token3 s3 Ht3.
  apply safe_then. eapply safe_impl; [apply (Hparse (q2 + 1)); [lia|done]|]. intros [v|] s4 Hv; [|by apply safe_mret].
  destruct Hv as [(q4 & Hq4 & Hs4) Hv]. apply safe_then. eapply (built_text (q + 1) r); [lia|lia|done|apply Hs4|].
  intros t Hg _. apply safe_mret. split; [exists q4; split; [lia|done]|by split].
Qed.

Lemma dictionary_loop_safe fuel p token dict s :
  0 <= p <= len -> token_at d p token s -> ordered dict -> Forall (fun entry => good entry.1 /\ well_formed has_pieces levels entry.2) dict ->
  (Z.to_nat (len - p) < fuel)%nat -> safe (dictionary_loop parse fuel token dict) s (valued d p (S levels)).
Proof.
  revert p token dict s. induction fuel as [|fuel IH]; intros p token dict s Hp Ht Hord Hdict Hf; [lia|]. cbn [dictionary_loop]. case_decide as E.
  - apply safe_mret. split; [|done]. by apply (token_inside _ _ token); [|rewrite E].
  - apply safe_then. eapply safe_impl; [by apply (dictionary_pair_safe p)|]. intros [[key v]|] s1 Hv; [|by apply safe_mret].
    destruct Hv as [(q & Hq & Hs1) [Hkey Hv]]. apply safe_then. eapply safe_impl; [by apply (separator_safe d q); [|lia]|].
    intros [token'|] s2 Ht'; [|by apply safe_mret]. eapply safe_impl; [apply (IH (q + 1)); [lia|done|by apply set_ordered|by apply set_Forall|lia]|].
    intros [v'|] s3 Hout; [|done]. destruct Hout as [(r & Hr & Hs3) Hout]. split; [|done]. exists r. split; [lia|done].
Qed.
End nesting.

Lemma valued_mono d p q levels out s : p <= q -> valued d q levels out s -> valued d p levels out s.
Proof. intros Hpq. destruct out as [v|]; [|done]. intros [(r & Hr & Hs) Hv]. split; [|done]. exists r. split; [lia|done]. Qed.

Lemma token_here d p token s :
  token_at d p token s -> exists q, p <= q <= len /\ token_at d q token s /\ bytes_left s = S (Z.to_nat (len - q)).
Proof.
  intros (q & Hq & Hs & Ht). exists q. split; [done|]. split; [|by eapply bytes_left_spec].
  exists q. split; [lia|done].
Qed.

Section containers.
Context (d : Z) (levels levels' : nat) (parse : Token -> M (option (Value double))).
Hypothesis Hd : 0 <= d < 100.
Hypothesis Hlevels : d < 99 -> levels' = S levels.
Hypothesis Hparse : d < 99 -> forall p token s, 0 <= p -> token_at (d + 1) p token s -> safe (parse token) s (valued (d + 1) p levels).

Lemma ConsumeList_safe p s :
  at_pos d p s -> 0 <= p < len -> safe (ConsumeList parse) s (valued d p levels').
Proof.
  intros Hs Hp. pose proof Hs as (Ho & Hpos & Hi). apply safe_then. eapply safe_here; [exact Ho|exact Hpos|lia|]. intros c _ _.
  case_if; [by apply safe_fail|]. apply with_depth_safe; [done|lia|done|]. intros s1 Hs1 Hlow. rewrite (Hlevels Hlow).
  eapply next_token_then; [done|lia|]. intros token s2 Ht. apply safe_then, safe_get_state.
  destruct (token_here _ _ _ _ Ht) as (q & Hq & Htq & ->). eapply safe_impl.
  - apply (list_loop_safe (d + 1) levels parse (Hparse Hlow) _ q); [lia|done|constructor|lia].
  - intros out s3. apply valued_mono. lia.
Qed.

Lemma ConsumeDictionary_safe p s :
  at_pos d p s -> 0 <= p < len -> safe (ConsumeDictionary parse) s (valued d p levels').
Proof.
  intros Hs Hp. pose proof Hs as (Ho & Hpos & Hi). apply safe_then. eapply safe_here; [exact Ho|exact Hpos|lia|]. intros c _ _.
  case_if; [by apply safe_fail|]. apply with_depth_safe; [done|lia|done|]. intros s1 Hs1 Hlow. rewrite (Hlevels Hlow).
  eapply next_token_then; [done|lia|]. intros token s2 Ht. apply safe_then, safe_get_state.
  destruct (token_here _ _ _ _ Ht) as (q & Hq & Htq & ->). eapply safe_impl.
  - apply (dictionary_loop_safe (d + 1) levels parse (Hparse Hlow) _ q); [lia|done|constructor|constructor|lia].
  - intros out s3. apply valued_mono. lia.
Qed.
End containers.

(** Every token but the end is where the parser is inside the text; so deep
    there may be so many levels more. *)
Lemma ParseToken_safe levels d p token s :
  d + Z.of_nat levels = 99 -> 0 <= d -> 0 <= p -> token_at d p token s ->
  safe (ParseToken (S (S levels)) token) s (valued d p levels).
Proof.
  revert d p token s. induction levels as [|levels IH]; intros d p token s Hd Hd0 Hp Ht.
  - cbn [ParseToken]. destruct token; try (by apply safe_fail);
      (destruct (token_inside _ _ _ _ Ht ltac:(done)) as (q & Hq & Hs); apply (safe_impl _ _ (valued d q 0)); [|intros out s'; apply valued_mono; lia]).
    + apply (ConsumeDictionary_safe d 0 0); [lia|lia|lia|done|lia].
    + apply (ConsumeList_safe d 0 0); [lia|lia|lia|done|lia].
    + apply ConsumeString_safe; [done|lia].
    + apply ConsumeNumber_safe; [done|lia].
    + apply ConsumeLiteral_safe; [done|lia].
    + apply ConsumeLiteral_safe; [done|lia].
    + apply ConsumeLiteral_safe; [done|lia].
  - assert (Hparse : d < 99 -> forall p token s, 0 <= p -> token_at (d + 1) p token s ->
      safe (ParseToken (S (S levels)) token) s (valued (d + 1) p levels)) by (intros; apply IH; (done || lia)).
    remember (S (S levels)) as fuel. cbn [ParseToken]. destruct token; try (by apply safe_fail);
      (destruct (token_inside _ _ _ _ Ht ltac:(done)) as (q & Hq & Hs); apply (safe_impl _ _ (valued d q (S levels))); [|intros out s'; apply valued_mono; lia]).
    + apply (ConsumeDictionary_safe d levels); [lia|done|done|done|lia].
    + apply (ConsumeList_safe d levels); [lia|done|done|done|lia].
    + apply ConsumeString_safe; [done|lia].
    + apply ConsumeNumber_safe; [done|lia].
    + apply ConsumeLiteral_safe; [done|lia].
    + apply ConsumeLiteral_safe; [done|lia].
    + apply ConsumeLiteral_safe; [done|lia].
Qed.

(** ** The whole text *)
Lemma skip_byte_order_mark_safe d s : at_pos d 0 s -> safe skip_byte_order_mark s (fun _ => lands d 0).
Proof.
  intros Hs. pose proof Hs as (Ho & Hpos & Hi). unfold skip_byte_order_mark. apply safe_then, safe_get_state, safe_then.
  eapply safe_CanConsume; [exact Ho|]. rewrite Hpos.
  assert (Hgo : forall bom : bool, (bom = true -> 3 <= len) -> safe (if bom then NextNChars 3 else mret tt) s (fun _ => lands d 0)).
  { intros bom Hbom. destruct bom; [|apply safe_mret; exists 0; split; [lia|done]]. specialize (Hbom eq_refl).
    eapply safe_NextNChars; [exact Ho|lia|]. exists 3. split; [lia|]. apply (at_moved d 0 3); [done|lia]. }
  apply safe_then. destruct (Z.leb_spec (0 + 3) len); [|by apply safe_mret, (Hgo false)].
  repeat (apply safe_then; (eapply safe_byte_at; [exact Ho|lia|]); intros ? _ _; case_if; [|by apply safe_mret, (Hgo false)]).
  apply safe_mret, (Hgo true). lia.
Qed.

Lemma data_after_root_safe d p s :
  at_pos d p s -> 0 <= p < len -> safe data_after_root s (fun _ s' => exists q, at_pos d q s').
Proof.
  intros Hs Hp. apply safe_then. eapply safe_impl; [apply (GetNextToken_safe d p); [done|lia]|]. intros token s1 (q & Hq & Hs1 & _).
  case_decide; [apply safe_mret; by exists q|]. pose proof Hs1 as (Ho & Hpos & _). apply safe_then. eapply safe_CanConsume; [exact Ho|].
  rewrite Hpos. destruct (Z.leb_spec (q + 1) len); cbn [negb]; [|apply safe_mret; by exists q].
  eapply next_token_then; [done|lia|]. intros token' s2 (r & Hr & Hs2 & _). apply safe_mret. by exists r.
Qed.

(** What is returned for the text: a value that owns the text its pieces are
    of, or a value without pieces. *)
Definition good_root (r : Root double) : Prop :=
  match r with
  | HiddenRoot json_ v => json_ = mem /\ has_pieces = true /\ well_formed has_pieces 99 v
  | PlainRoot v => well_formed false 99 v
  end.

Lemma wrap_root_safe d p v s :
  at_pos d p s -> well_formed has_pieces 99 v -> safe (wrap_root v) s (fun r _ => good_root r).
Proof.
  intros ((Hm & _ & Hop & _) & _) Hv. apply safe_then, safe_get_state. rewrite Hop.
  destruct (has_option opts JSON_DETACHABLE_CHILDREN) eqn:Edet; unfold has_pieces in *; rewrite Edet in Hv; [by apply safe_mret|].
  assert (Hcopy : forall t, good t -> zlen t <= len -> safe (copy ← lift (new_StringValue t); mret (PlainRoot copy)) s (fun r _ => good_root r)).
  { intros t Hg Hn. by apply safe_then, new_StringValue_safe; [| |apply safe_mret]. }
  destruct v; try (by apply safe_mret); try (apply safe_mret; unfold good_root, has_pieces; rewrite Edet, Hm; done).
  - cbn [DeepCopy]. by apply Hcopy; apply Hv.
  - destruct Hv as (_ & t & Et & Hg & Hn). cbn [DeepCopy]. rewrite Hm, Et. cbn. by apply Hcopy.
Qed.
End safety.

(** ** The theorem *)
Section theorem.
Context `{Build} {double : Type} `{Doubles double}.

(** The memory that the parser works on: a copy of the input with a null byte
    behind it, or what is there. *)
Definition text_memory (data : list Z) (len options : Z) : list Z :=
  if has_option options JSON_DETACHABLE_CHILDREN then data else take (Z.to_nat len) data ++ [0].

Lemma text_memory_spec data len options :
  Forall is_byte data -> 0 <= len <= zlen data ->
  (has_option options JSON_DETACHABLE_CHILDREN = true -> get data len = Some 0) ->
  Forall is_byte (text_memory data len options) /\ get (text_memory data len options) len = Some 0.
Proof.
  intros Hdata Hlen Hnul. unfold text_memory. destruct (has_option _ _); [by split; [|apply Hnul]|]. split.
  - apply Forall_app. split; [by apply Forall_take|]. by repeat constructor.
  - rewrite <- (zlen_take len data Hlen) at 2. apply get_app.
Qed.

Lemma Parse_safe data len options :
  Forall is_byte data -> 0 <= len <= zlen data -> len <= 2147483640 ->
  (has_option options JSON_DETACHABLE_CHILDREN = true -> get data len = Some 0) ->
  let mem := text_memory data len options in
  safe (excuse mem) (Parse data len) (new_JSONParser options) (fun out s =>
    match out with Some r => good_root mem len options r | None => reported (double := double) mem s end).
Proof.
  intros Hdata Hlen Hbig Hnul mem. destruct (text_memory_spec data len options Hdata Hlen Hnul) as [Hmem Hend].
  assert (Hl : 0 <= len <= 2147483640) by lia. unfold Parse. apply safe_then, safe_modify.
  set (s0 := start data len (new_JSONParser options)). assert (Hs0 : at_pos mem len options 0 0 s0) by done.
  apply safe_then. eapply safe_impl; [by apply (skip_byte_order_mark_safe mem len options Hmem Hl Hend 0)|]. intros _ s1 (p1 & Hp1 & Hs1).
  apply safe_then. unfold ParseNextToken. apply safe_then.
  eapply safe_impl; [by apply (GetNextToken_safe mem len options Hmem Hl Hend 0 p1)|]. intros token s2 Ht.
  eapply safe_impl; [apply (ParseToken_safe mem len options Hmem Hl Hend 99 0 p1); [done|done|lia|exact Ht]|].
  intros [root|] s3 Hroot; [|by apply safe_mret]. destruct Hroot as [(p3 & Hp3 & Hs3) Hwf].
  apply safe_then. eapply safe_impl; [apply (data_after_root_safe mem len options Hmem Hl Hend 0 p3); [done|lia]|]. intros after s4 (p4 & Hs4).
  destruct after; [by apply safe_fail|]. apply safe_then. eapply safe_impl; [by eapply wrap_root_safe|]. intros r s5 Hr. by apply safe_mret.
Qed.

(** C6. Whatever the text is (any bytes, any length that an [int] can count, with
    the null byte behind it that detachable values need): the parser ends and
    reads nothing outside the text and the one byte behind it. A value that it
    returns is well formed: at most 99 levels deep, integers that fit, finite
    doubles, dictionaries in the order of their keys, pieces inside the text,
    which the root then owns; strings and keys are bytes. They are valid UTF-8
    without noncharacters, and no check fails, unless the text has an odd
    escape: a backslash and an x or a u behind which [HexStringToInt] reads a
    number that is no character, since it is negative (the digits may begin
    with a sign) or a noncharacter. Only then, and with checks on, can a check
    fail. When nothing is returned there is an error code, or the text has a
    number in it that is no [int] and is refused by [StringToDouble] (overflow
    and underflow, denormals with it) or is not finite as a [double]. *)
Theorem any_text_is_parsed_safely data len options :
  Forall is_byte data -> 0 <= len <= zlen data -> len <= 2147483640 ->
  (has_option options JSON_DETACHABLE_CHILDREN = true -> get data len = Some 0) ->
  let mem := text_memory data len options in
  match ReadAndReturnError data len options with
  | Ok (inl root) => good_root mem len options root
  | Ok (inr (code, _)) => code <> JSON_NO_ERROR \/ refused_number mem
  | Failed => DCHECK_IS_ON = true /\ odd_escape mem
  | NoFuel => False
  end.
Proof.
  intros Hdata Hlen Hbig Hnul mem. pose proof (Parse_safe data len options Hdata Hlen Hbig Hnul) as Hsafe.
  unfold safe in Hsafe. unfold ReadAndReturnError. destruct (Parse data len (new_JSONParser options)) as [[[r|] s]| |]; exact Hsafe.
Qed.
End theorem.

(** The list of 1 and "a": the string is a piece of the text. *)
Lemma any_text_is_parsed_safely_witness :
  let _ := example_build in let _ := example_doubles in
  let data := "["%ch :: "1"%ch :: ","%ch :: 34 :: "a"%ch :: 34 :: ["]"%ch] in
  exists root, ReadAndReturnError (double := example_double) data 7 0 = Ok (inl root) /\
    root = HiddenRoot (data ++ [0]) (ListValue [IntegerValue 1; JSONStringValue (mkStringPiece 4 1)]) /\
    good_root (data ++ [0]) 7 0 root.
Proof.
  intros B D data. pose proof (any_text_is_parsed_safely (double := example_double) data 7 0) as Hsafe.
  assert (E : ReadAndReturnError (double := example_double) data 7 0 =
    Ok (inl (HiddenRoot (data ++ [0]) (ListValue [IntegerValue 1; JSONStringValue (mkStringPiece 4 1)])))) by (vm_compute; reflexivity).
  rewrite E in Hsafe. eexists. split; [exact E|]. split; [reflexivity|]. apply Hsafe.
  - unfold data, is_byte. repeat constructor; lia.
  - unfold data, zlen. cbn. lia.
  - lia.
  - intros Hdet. vm_compute in Hdet. discriminate.
Defined.
