(* ===== verification/JsonReadBack.v ===== *)
(** The JSON parser on the text of single values: white space and tokens,
    strings as the writer quotes them, and numerals. *)
From S2P Require Import Prelude CArrays NumberConversions NumberProperties Utf UtfProperties Values ValuesProperties JsonParser JsonWriter JsonLogic.

(** ** The text of strings *)

(** A character that comes back: no null, which an escape cannot give. *)
Definition writable (c : Z) : Prop := character c /\ c <> 0.

(** A locale in which no digit, decimal or hexadecimal, and no sign is white
    space. *)
Definition sane16 (ws : Z -> bool) : Prop :=
  sane ws /\ forall d, 0 <= d < 16 -> ws (at_ kHexChars d) = false.

Lemma kHexChars_spec d :
  0 <= d < 16 ->
  CharToDigit 16 (at_ kHexChars d) = Some d /\ at_ kHexChars d <> "-"%ch /\ at_ kHexChars d <> "+"%ch /\
  at_ kHexChars d <> "x"%ch /\ at_ kHexChars d <> "X"%ch.
Proof. revert d. compute_below 16%nat. Qed.

Lemma hex4_read ws u : sane16 ws -> 0 <= u < 65536 -> HexStringToInt ws (hex4 u) 0 = (true, u).
Proof.
  intros [_ Hws] Hu. unfold hex4. rewrite (proj2 (Z.ltb_lt u 65536)) by lia. cbn [app map].
  change (16 ^ 3) with 4096. change (16 ^ 2) with 256. change (16 ^ 1) with 16. change (16 ^ 0) with 1.
  set (d3 := (u / 4096) mod 16). set (d2 := (u / 256) mod 16). set (d1 := (u / 16) mod 16). set (d0 := (u / 1) mod 16).
  assert (H3 : 0 <= d3 < 16) by (apply Z.mod_pos_bound; lia). assert (H2 : 0 <= d2 < 16) by (apply Z.mod_pos_bound; lia).
  assert (H1 : 0 <= d1 < 16) by (apply Z.mod_pos_bound; lia). assert (H0 : 0 <= d0 < 16) by (apply Z.mod_pos_bound; lia).
  assert (Eu : ((d3 * 16 + d2) * 16 + d1) * 16 + d0 = u) by (unfold d3, d2, d1, d0; Z.div_mod_to_equations; lia).
  clearbody d3 d2 d1 d0.
  destruct (kHexChars_spec d3 H3) as (E3 & Hm & Hp & _ & _). destruct (kHexChars_spec d2 H2) as (E2 & _ & _ & Hx & HX).
  destruct (kHexChars_spec d1 H1) as (E1 & _). destruct (kHexChars_spec d0 H0) as (E0 & _).
  unfold HexStringToInt, Invoke. cbn [skip_whitespace]. rewrite (Hws d3 H3).
  rewrite (proj2 (Z.eqb_neq _ "-"%ch) Hm), (proj2 (Z.eqb_neq _ "+"%ch) Hp).
  rewrite Base_Invoke_spec by (done || by left). unfold strip_prefix. cbn [at_].
  set (text := [_; _; _; _]).
  change (at_ text 1) with (at_ kHexChars d2). rewrite (proj2 (Z.eqb_neq _ "x"%ch) Hx), (proj2 (Z.eqb_neq _ "X"%ch) HX), andb_false_r.
  unfold parse_result, text. cbn [digits_of]. rewrite E3, E2, E1, E0. cbn [is_nil negb andb num fold_left].
  replace (((0 * 16 + d3) * 16 + d2) * 16 + d1) with ((d3 * 16 + d2) * 16 + d1) by lia. rewrite Eu.
  change (limit Positive Int) with 2147483647. rewrite (proj2 (Z.leb_le u _)), Z.min_r by lia. done.
Qed.

(** What a unit is written as, and what the parser makes of a simple escape. *)
Definition simple_escape `{Build} (e u : Z) : Prop :=
  0 <= u < 128 /\ forall string, escape e string = append_turn u string.

Lemma quote_unit_cases `{Build} u :
  0 < u < 65536 ->
  (exists e, quote_unit u = ["\"%ch; e] /\ simple_escape e u) \/
  quote_unit u = "\"%ch :: "u"%ch :: hex4 u \/
  quote_unit u = [u] /\ 32 <= u <= 126 /\ u <> "\"%ch /\ u <> 34.
Proof.
  intros Hu. unfold quote_unit, JsonSingleEscapeChar.
  repeat (match goal with |- context [u =? ?k] => destruct (Z.eqb_spec u k) as [-> |] end;
    [left; eexists; split; [reflexivity|split; [lia|reflexivity]]|]).
  all: match goal with |- context [if ?b then _ else [u8 _]] => destruct b eqn:E end; [right; left; reflexivity|].
  all: right; right; apply orb_false_iff in E as [E _]; apply orb_false_iff in E as [E _]; apply orb_false_iff in E as [E1 E2];
    rewrite u8_id by lia; repeat split; lia.
Qed.

Lemma quote_unit_high u : 127 <= u -> quote_unit u = "\"%ch :: "u"%ch :: hex4 u.
Proof.
  intros Hu. unfold quote_unit, JsonSingleEscapeChar.
  repeat match goal with |- context [u =? ?k] => rewrite (proj2 (Z.eqb_neq u k)) by lia end.
  by rewrite (proj2 (Z.ltb_lt 126 u)), orb_true_r by lia.
Qed.

Lemma hex4_zlen u : 0 <= u < 65536 -> zlen (hex4 u) = 4.
Proof. intros Hu. unfold hex4. by rewrite (proj2 (Z.ltb_lt u 65536)) by lia. Qed.

Lemma enc8_no_nul c : scalar c -> c <> 0 -> Forall (fun b => b <> 0) (enc8 c).
Proof.
  intros Hc Hne. unfold enc8, scalar in *. repeat case_if; to_prop; repeat constructor; Z.div_mod_to_equations; lia.
Qed.

(** The bytes that an escape appends for a character. *)
Lemma escaped_bytes c : writable c -> c_string (CBU8_APPEND_UNSAFE c) = enc8 c.
Proof. intros [[Hc _] Hne]. rewrite append_spec by done. by apply c_string_id, enc8_no_nul. Qed.

Section reading.
Context `{Build} {double : Type} `{Doubles double}.
Context (mem : list Z) (len opts : Z).
Hypothesis Hlen : 0 <= len <= 2147483640.
Hypothesis Hend : len < zlen mem.

#[local] Instance text_length_reading : TextLength len := Hlen.
#[local] Abbreviation gives := (safe False).
#[local] Abbreviation on := (on mem len opts).
#[local] Abbreviation at_pos := (at_pos mem len opts).
#[local] Abbreviation ahead := (ahead mem len opts).
#[local] Abbreviation between := (between mem len opts).

(** ** White space *)
Definition blank (c : Z) : Prop := c = 32 \/ c = 10.

Lemma end_of_line_reads d p c s : at_pos d p s -> 0 <= p <= len -> gives (end_of_line c) s (fun _ => at_pos d p).
Proof.
  intros Hs Hp. apply safe_then, safe_modify, safe_then, safe_get_state. pose proof Hs as (Ho & Hpos & Hi).
  apply safe_then. assert (Hrest : forall (crlf : bool) s', at_pos d p s' ->
    gives (if negb crlf then modify (fun s => s <| line_number_ := line_number_ s ⊕ 1 |>) else mret tt) s' (fun _ => at_pos d p)).
  { intros crlf s' Hs'. destruct crlf; [by apply safe_mret|by apply safe_modify]. }
  match goal with |- context [if ?b then _ else mret false] => destruct b eqn:Hc end; [|by apply safe_mret, Hrest]. apply andb_true_iff in Hc as [_ Hc]. apply Z.ltb_lt in Hc. cbn in Hc |- *.
  destruct (get_some mem (pos_ s - 1) ltac:(lia)) as [b Hb]. apply safe_then. eapply safe_get; [exact Ho|exact Hb|].
  apply safe_mret, Hrest. done.
Qed.

Lemma eat_loop_reads d blanks fuel c p s :
  at_pos d p s -> 0 <= p -> lies mem p (blanks ++ [c]) -> Forall blank blanks -> p + zlen blanks <= len ->
  (p + zlen blanks < len -> c <> 13 /\ c <> 10 /\ c <> " "%ch /\ c <> 9 /\ c <> "/"%ch) -> (length blanks < fuel)%nat ->
  gives (eat_loop fuel) s (fun _ => at_pos d (p + zlen blanks)).
Proof.
  intros Hs Hp Hl Hb. revert fuel p s Hs Hp Hl. induction Hb as [|b blanks Hb Hblanks IH]; intros [|fuel] p s Hs Hp Hl Hn Hc Hf; try (cbn in Hf; lia);
    cbn [eat_loop]; pose proof Hs as (Ho & Hpos & Hi); pose proof Ho as (_ & He & _); apply safe_then, safe_get_state; rewrite Hpos, He.
  - change (zlen (@nil Z)) with 0 in *. rewrite Z.add_0_r in *. destruct (Z.ltb_spec p len); cbn [negb]; [|by apply safe_mret].
    apply lies_get in Hl. apply safe_then. eapply safe_get_here; [exact Ho|exact Hpos|exact Hl|].
    destruct (Hc ltac:(lia)) as (N1 & N2 & N3 & N4 & N5). by repeat case_if; to_prop; try (apply safe_mret; done); lia.
  - assert (Ez : zlen (b :: blanks) = 1 + zlen blanks) by (unfold zlen; cbn; lia). rewrite Ez in *. pose proof (zlen_nonneg blanks).
    cbn [app] in Hl. pose proof (lies_get _ _ _ _ Hl) as Hg. apply lies_tail in Hl.
    rewrite (proj2 (Z.ltb_lt p len)) by lia. cbn [negb]. apply safe_then. eapply safe_get_here; [exact Ho|exact Hpos|exact Hg|].
    assert (Hgo : forall s', at_pos d p s' -> gives (NextChar ;; eat_loop fuel) s' (fun _ => at_pos d (p + (1 + zlen blanks)))).
    { intros s' Hs'. apply safe_then. eapply safe_NextChar; [apply Hs'|destruct Hs' as (_ & -> & _); lia|].
      replace (p + (1 + zlen blanks)) with (p + 1 + zlen blanks) by lia. apply IH; [apply at_moved; [done|lia]|lia|done|lia| |cbn in Hf; lia].
      intros. apply Hc. lia. }
    destruct Hb as [-> | ->]; cbn.
    + by apply Hgo.
    + apply safe_then. eapply safe_impl; [apply (end_of_line_reads d p); [done|lia]|]. intros ?. apply Hgo.
Qed.

(** The token behind some blanks, or the end. *)
Lemma next_token_reads d blanks c p s :
  at_pos d p s -> 0 <= p -> lies mem p (blanks ++ [c]) -> Forall blank blanks -> p + zlen blanks <= len ->
  (p + zlen blanks < len -> c <> 13 /\ c <> 10 /\ c <> " "%ch /\ c <> 9 /\ c <> "/"%ch) ->
  gives GetNextToken s (fun token s' => at_pos d (p + zlen blanks) s' /\
    token = if p + zlen blanks <? len then token_of c else T_END_OF_INPUT).
Proof.
  intros Hs Hp Hl Hb Hn Hc. unfold GetNextToken, EatWhitespaceAndComments. apply safe_then, safe_then, safe_get_state.
  erewrite bytes_left_spec by exact Hs. eapply safe_impl; [apply (eat_loop_reads d blanks _ c p); try done; unfold zlen in *; lia|].
  intros ? s' Hs'. pose proof Hs' as (Ho & Hpos & Hi). apply safe_then. eapply safe_CanConsume; [exact Ho|]. rewrite Hpos.
  replace (p + zlen blanks + 1 <=? len) with (p + zlen blanks <? len) by (apply eq_true_iff_eq; rewrite Z.ltb_lt, Z.leb_le; lia).
  apply lies_app in Hl as [_ Hl]. apply lies_get in Hl. destruct (Z.ltb_spec (p + zlen blanks) len); cbn [negb].
  - apply safe_then. eapply safe_get_here; [exact Ho|exact Hpos|exact Hl|]. by apply safe_mret.
  - by apply safe_mret.
Qed.

(** ** Strings *)

(** The builder has the text [t], the source of which ends here. *)
Definition holds (from p : Z) (b : StringBuilder) (t : list Z) : Prop :=
  match string_ b with
  | None => string_pos_ b = from /\ length_ b = p - from /\ as_string mem (mkStringPiece from (p - from)) = Some t
  | Some t' => t' = t
  end.

Lemma Append_holds from p c b t s (Q : StringBuilder -> JSONParser -> Prop) :
  holds from p b t -> get mem p = Some c -> 0 <= c < 128 -> (forall b', holds from (p + 1) b' (t ++ [c]) -> Q b' s) ->
  gives (Append c b) s Q.
Proof.
  intros Hb Hc Hr HQ. apply safe_then, safe_check; [lia|]. apply safe_then, safe_check; [lia|]. apply safe_mret, HQ.
  rewrite u8_id by lia. unfold holds in *. destruct (string_ b); cbn; [by subst|]. destruct Hb as (-> & -> & Et).
  split; [done|]. split; [lia|]. replace (p + 1 - from) with (p - from + 1) by lia. apply as_string_snoc; [done|].
  by replace (from + (p - from)) with p by lia.
Qed.

Lemma append_turn_reads c b t s (Q : turn -> JSONParser -> Prop) :
  string_ b = Some t -> 0 <= c < 128 -> (forall b', string_ b' = Some (t ++ [c]) -> Q (Again b') s) ->
  gives (append_turn c b) s Q.
Proof.
  intros Hb Hr HQ. apply safe_then, safe_then, safe_check; [lia|]. apply safe_then, safe_check; [lia|]. apply safe_mret, safe_mret, HQ.
  rewrite Hb. cbn. by rewrite u8_id by lia.
Qed.

Lemma Convert_holds d from p b t s (Q : StringBuilder -> JSONParser -> Prop) :
  on d s -> holds from p b t -> (forall b', string_ b' = Some t -> Q b' s) -> gives (Convert b) s Q.
Proof.
  intros Ho Hb HQ. unfold Convert, holds in *. destruct (string_ b) eqn:E; [subst; by apply safe_mret, HQ|].
  destruct Hb as (-> & -> & Et). apply safe_then. eapply safe_bytes_of; [exact Ho|exact Et|]. by apply safe_mret, HQ.
Qed.

Lemma AppendString_reads text b t s (Q : StringBuilder -> JSONParser -> Prop) :
  string_ b = Some t -> (forall b', string_ b' = Some (t ++ text) -> Q b' s) -> gives (AppendString text b) s Q.
Proof. intros Hb HQ. unfold AppendString. rewrite Hb. by apply safe_mret, HQ. Qed.

Lemma converted_holds from p b t : string_ b = Some t -> holds from p b t.
Proof. intros E. unfold holds. by rewrite E. Qed.

Lemma ahead_reads_byte d p c s (Q : Z -> JSONParser -> Prop) :
  ahead d p s -> 0 <= p -> p + 1 <= len -> get mem (p + 1) = Some c -> (forall s', ahead d (p + 1) s' -> Q c s') ->
  gives next_byte s Q.
Proof.
  intros Hs Hp Hn Hc HQ. pose proof Hs as (Ho & Hpos & _). eapply safe_get_next; [exact Ho|exact Hpos|done|exact Hc|].
  apply HQ, ahead_moved; [done|lia].
Qed.

(** One character of ASCII, at the place where the loop is. *)
Lemma ascii_turn d from p c b t s (Q : turn -> JSONParser -> Prop) :
  between d p s -> pos_ s + 1 <= len -> 0 <= p -> get mem p = Some c -> 0 <= c < 128 -> holds from p b t ->
  (forall s', ahead d p s' ->
    gives (if c =? "\"%ch then
        string ← Convert b; can ← CanConsume 1;
        if negb can then string_error JSON_INVALID_ESCAPE 0 else c ← next_byte; escape c string
      else if c =? 34 then modify (fun s => s <| index_ := index_ s ⊖ 1 |>) ;; mret (Return (Some b))
      else string ← Append c b; mret (Again string)) s' Q) ->
  gives (string_turn b) s Q.
Proof.
  intros (Ho & Hi & Hpos & Hp & Hpl) Hcan Hp0 Hc Hr Hb HQ. specialize (Hpl ltac:(lia)). destruct Ho as (Hm & He & Hrest).
  unfold string_turn. apply safe_then, safe_modify, safe_then, safe_get_state. cbn. rewrite Hm, He, Hi, s32_id by lia.
  rewrite (CBU8_NEXT_single mem p len c Hc Hr). apply safe_then, safe_mret, safe_then, safe_modify. rewrite s32_id by lia.
  rewrite (proj2 (Z.ltb_ge c 0)), u32_id by lia. cbn [orb]. unfold IsValidCharacter. rewrite (proj2 (Z.ltb_lt c 55296)) by lia. cbn [orb negb].
  unfold kExtendedASCIIStart. rewrite (proj2 (Z.ltb_lt c 128)), wrap_s_id by (unfold in_s; lia). by apply HQ.
Qed.

(** An escape, up to the switch on its character. *)
Lemma escape_turn d from p e b t s (Q : turn -> JSONParser -> Prop) :
  between d p s -> pos_ s + 1 <= len -> 0 <= p -> p + 1 <= len -> get mem p = Some "\"%ch -> get mem (p + 1) = Some e -> holds from p b t ->
  (forall b' s', ahead d (p + 1) s' -> string_ b' = Some t -> gives (escape e b') s' Q) ->
  gives (string_turn b) s Q.
Proof.
  intros Hs Hcan Hp Hp1 Hc He Hb HQ. eapply ascii_turn; [done|done|done|exact Hc|lia|exact Hb|]. intros s' Hs'. rewrite Z.eqb_refl.
  apply safe_then. eapply Convert_holds; [apply Hs'|exact Hb|]. intros b' Eb'. apply safe_then. eapply ahead_CanConsume; [exact Hs'|].
  rewrite (proj2 (Z.leb_le (p + 1) len)) by lia. cbn [negb]. apply safe_then. eapply ahead_reads_byte; [exact Hs'|done|done|exact He|]. auto.
Qed.

(** *** Characters by number *)
Hypothesis Hws : sane16 LocalIsWhitespace.

Lemma hex_at_reads d p u s (Q : bool * Z -> JSONParser -> Prop) :
  on d s -> lies mem p (hex4 u) -> 0 <= u < 65536 -> Q (true, u) s -> gives (hex_at p 4) s Q.
Proof.
  intros Ho Hl Hu HQ. apply safe_then. eapply safe_bytes_of; [exact Ho| |].
  - rewrite <- (hex4_zlen u Hu). by apply as_string_lies.
  - apply safe_mret. by rewrite hex4_read.
Qed.

Lemma escape_u_reads d p c units b t s (Q : turn -> JSONParser -> Prop) :
  ahead d p s -> 0 <= p -> p + 5 <= len -> string_ b = Some t ->
  (forall s', ahead d (p + 1) s' -> gives DecodeUTF16 s' (fun out s'' => out = Some units /\ ahead d c s'')) ->
  (forall b' s', ahead d c s' -> string_ b' = Some (t ++ units) -> Q (Again b') s') ->
  gives (escape "u"%ch b) s Q.
Proof.
  intros Hs Hp Hn Hb Hdec HQ. unfold escape. change ("u"%ch =? "x"%ch) with false. rewrite Z.eqb_refl. apply safe_then.
  eapply ahead_CanConsume; [exact Hs|]. rewrite (proj2 (Z.leb_le _ _)) by lia. cbn [negb]. apply safe_then.
  eapply ahead_NextChar; [exact Hs|lia|]. intros s1 Hs1. apply safe_then. eapply safe_impl; [by apply Hdec|].
  intros ? s2 [-> Hs2]. apply safe_then. eapply AppendString_reads; [exact Hb|]. intros b' Eb'. apply safe_mret. by apply HQ.
Qed.

Lemma DecodeUTF16_single d p c s :
  ahead d p s -> 0 <= p -> p + 4 <= len -> lies mem p (hex4 c) -> writable c -> c < 65536 ->
  gives DecodeUTF16 s (fun out s' => out = Some (enc8 c) /\ ahead d (p + 3) s').
Proof.
  intros Hs Hp Hn Hl Hc Hsmall. pose proof Hs as (Ho & Hpos & _). pose proof Hc as [[Hsc _] Hne]. unfold scalar in Hsc.
  apply safe_then. eapply ahead_CanConsume; [exact Hs|]. rewrite (proj2 (Z.leb_le _ _)) by lia. cbn [negb].
  apply safe_then, safe_get_state, safe_then. rewrite Hpos. eapply hex_at_reads; [exact Ho|exact Hl|lia|]. cbn [negb].
  apply safe_then. eapply ahead_NextNChars; [exact Hs|lia|]. intros s1 Hs1.
  assert (Es : CBU16_IS_SURROGATE c = false).
  { unfold CBU16_IS_SURROGATE. rewrite surrogate_spec by lia. apply not_true_is_false. lia. }
  rewrite Es. apply safe_then, safe_check; [unfold CBU16_IS_SINGLE, CBU16_IS_SURROGATE in *; by rewrite Es|]. apply safe_mret.
  by rewrite escaped_bytes.
Qed.

Lemma DecodeUTF16_pair d p c hi lo s :
  ahead d p s -> 0 <= p -> p + 10 <= len -> lies mem p (hex4 hi ++ "\"%ch :: "u"%ch :: hex4 lo) -> writable c ->
  55296 <= hi < 56320 -> 56320 <= lo < 57344 -> c = 65536 + (hi - 55296) * 1024 + (lo - 56320) ->
  gives DecodeUTF16 s (fun out s' => out = Some (enc8 c) /\ ahead d (p + 9) s').
Proof.
  intros Hs Hp Hn Hl Hc Hhi Hlo Ec. pose proof Hs as (Ho & Hpos & _). apply lies_app in Hl as [Hl Hl']. rewrite hex4_zlen in Hl' by lia.
  destruct (lies_2 _ _ _ _ _ Hl') as (Hb & Hu & Hl2).
  apply safe_then. eapply ahead_CanConsume; [exact Hs|]. rewrite (proj2 (Z.leb_le _ _)) by lia. cbn [negb].
  apply safe_then, safe_get_state, safe_then. rewrite Hpos. eapply hex_at_reads; [exact Ho|exact Hl|lia|]. cbn [negb].
  apply safe_then. eapply ahead_NextNChars; [exact Hs|lia|]. intros s1 Hs1.
  unfold CBU16_IS_SURROGATE. rewrite surrogate_spec by lia. rewrite (proj2 (Z.leb_le 55296 hi)), (proj2 (Z.ltb_lt hi 57344)) by lia. cbn [andb].
  unfold low_surrogate. rewrite lead16_spec by lia. rewrite (proj2 (Z.ltb_lt hi 56320)) by lia. cbn [negb].
  apply safe_then. eapply ahead_CanConsume; [exact Hs1|]. rewrite (proj2 (Z.leb_le _ _)) by lia. cbn [negb].
  apply safe_then. eapply ahead_reads_byte; [exact Hs1|lia|lia|by replace (p + 3 + 1) with (p + 4) by lia|]. intros s2 Hs2. cbn [Z.eqb Pos.eqb negb].
  apply safe_then. eapply ahead_reads_byte; [exact Hs2|lia|lia|by replace (p + 3 + 1 + 1) with (p + 4 + 1) by lia|]. intros s3 Hs3. cbn [Z.eqb Pos.eqb negb].
  apply safe_then. eapply ahead_NextChar; [exact Hs3|lia|]. intros s4 Hs4. pose proof Hs4 as (Ho4 & Hpos4 & _).
  apply safe_then, safe_get_state, safe_then. rewrite Hpos4.
  eapply (hex_at_reads d _ lo); [exact Ho4|by replace (p + 3 + 1 + 1 + 1) with (p + 4 + 1 + 1) by lia|lia|]. cbn [negb].
  apply safe_then. eapply ahead_NextNChars; [exact Hs4|lia|]. intros s5 Hs5.
  rewrite trail16_spec by lia. rewrite (proj2 (Z.leb_le 56320 lo)), (proj2 (Z.ltb_lt lo 57344)) by lia. cbn [andb negb].
  apply safe_mret. rewrite supplementary_spec, <- Ec, escaped_bytes by (done || lia). split; [done|].
  by replace (p + 9) with (p + 3 + 1 + 1 + 1 + 3) by lia.
Qed.

(** *** A character, and a whole string *)
Lemma char_turn d from p c b t s :
  writable c -> lies mem p (flat_map quote_unit (enc16 c)) -> p + zlen (flat_map quote_unit (enc16 c)) < len ->
  between d p s -> pos_ s + 1 <= len -> 0 <= p -> holds from p b t ->
  gives (string_turn b) s (fun out s' => exists b', out = Again b' /\
    between d (p + zlen (flat_map quote_unit (enc16 c))) s' /\ holds from (p + zlen (flat_map quote_unit (enc16 c))) b' (t ++ enc8 c)).
Proof.
  intros Hc Hl Hn Hs Hcan Hp Hb. pose proof Hc as [[Hsc _] Hne]. unfold scalar in Hsc.
  assert (Hu : forall hex : list Z, flat_map quote_unit (enc16 c) = "\"%ch :: "u"%ch :: hex -> 4 <= zlen hex ->
    (forall s', ahead d (p + 1 + 1) s' -> gives DecodeUTF16 s' (fun out s'' => out = Some (enc8 c) /\ ahead d (p + 1 + zlen hex) s'')) ->
    gives (string_turn b) s (fun out s' => exists b', out = Again b' /\
      between d (p + zlen (flat_map quote_unit (enc16 c))) s' /\ holds from (p + zlen (flat_map quote_unit (enc16 c))) b' (t ++ enc8 c))).
  { intros hex Eq H4 Hdec. rewrite Eq in *. destruct (lies_2 _ _ _ _ _ Hl) as (H1' & H2' & _).
    assert (Ez : zlen ("\"%ch :: "u"%ch :: hex) = 2 + zlen hex) by (unfold zlen; cbn; lia). rewrite Ez in *.
    eapply escape_turn; [exact Hs|done|done|lia|exact H1'|exact H2'|exact Hb|]. intros b1 s1 Hs1 Eb1.
    eapply escape_u_reads; [exact Hs1|lia|lia|exact Eb1|exact Hdec|]. intros b2 s2 Hs2 Eb2. exists b2. split; [done|].
    split; [|by apply converted_holds]. replace (p + (2 + zlen hex)) with (p + 1 + zlen hex + 1) by lia. apply ahead_between; [done|lia]. }
  destruct (Z.lt_ge_cases c 65536) as [Hsmall|Hlarge].
  - rewrite enc16_small in * by lia. cbn [flat_map] in *. rewrite app_nil_r in *.
    destruct (quote_unit_cases c ltac:(lia)) as [(e & Eq & Hr & Hesc)|[Eq|(Eq & Hr & H92 & H34)]].
    + rewrite Eq in *. destruct (lies_2 _ _ _ _ _ Hl) as (H1' & H2' & _). change (zlen ["\"%ch; e]) with 2 in *.
      eapply escape_turn; [exact Hs|done|done|lia|exact H1'|exact H2'|exact Hb|]. intros b1 s1 Hs1 Eb1. rewrite Hesc.
      eapply append_turn_reads; [exact Eb1|exact Hr|]. intros b2 Eb2. exists b2. split; [done|]. rewrite enc8_1 by lia.
      split; [|by apply converted_holds]. replace (p + 2) with (p + 1 + 1) by lia. apply ahead_between; [done|lia].
    + apply (Hu (hex4 c)); [done|rewrite hex4_zlen; lia|]. rewrite Eq in Hl. destruct (lies_2 _ _ _ _ _ Hl) as (_ & _ & Hl').
      assert (Ez : zlen (quote_unit c) = 6) by (rewrite Eq; unfold zlen; cbn [length]; pose proof (hex4_zlen c ltac:(lia)); unfold zlen in *; lia).
      rewrite hex4_zlen by lia. intros s' Hs'. eapply safe_impl; [apply (DecodeUTF16_single d (p + 1 + 1) c); (done || lia)|].
      intros out s'' [-> Hs'']. split; [done|]. by replace (p + 1 + 4) with (p + 1 + 1 + 3) by lia.
    + rewrite Eq in *. change (zlen [c]) with 1 in *. apply lies_get in Hl.
      eapply ascii_turn; [exact Hs|done|done|exact Hl|lia|exact Hb|]. intros s1 Hs1.
      rewrite (proj2 (Z.eqb_neq c _) H92), (proj2 (Z.eqb_neq c _) H34). apply safe_then.
      eapply Append_holds; [exact Hb|exact Hl|lia|]. intros b' Hb'. apply safe_mret. exists b'. split; [done|]. rewrite enc8_1 by lia.
      split; [|done]. apply ahead_between; [done|lia].
  - set (hi := 55296 + (c - 65536) / 1024). set (lo := 56320 + c mod 1024).
    assert (Ee : enc16 c = [hi; lo]) by (unfold enc16; by rewrite (proj2 (Z.ltb_ge c 65536)) by lia).
    assert (Hhi : 55296 <= hi < 56320) by (unfold hi; Z.div_mod_to_equations; lia).
    assert (Hlo : 56320 <= lo < 57344) by (unfold lo; Z.div_mod_to_equations; lia).
    assert (Ec : c = 65536 + (hi - 55296) * 1024 + (lo - 56320)) by (unfold hi, lo; Z.div_mod_to_equations; lia). clearbody hi lo.
    assert (Eq : flat_map quote_unit (enc16 c) = "\"%ch :: "u"%ch :: (hex4 hi ++ "\"%ch :: "u"%ch :: hex4 lo)).
    { rewrite Ee. cbn [flat_map]. rewrite (quote_unit_high hi), (quote_unit_high lo), app_nil_r by lia. done. }
    assert (Ez : zlen (hex4 hi ++ "\"%ch :: "u"%ch :: hex4 lo) = 10).
    { rewrite zlen_app, hex4_zlen by lia. unfold zlen. cbn [length]. pose proof (hex4_zlen lo ltac:(lia)). unfold zlen in *. lia. }
    eapply Hu; [exact Eq|lia|]. rewrite Ez. intros s' Hs'. rewrite Eq in Hl, Hn.
    assert (En : zlen ("\"%ch :: "u"%ch :: (hex4 hi ++ "\"%ch :: "u"%ch :: hex4 lo)) = 12) by (unfold zlen in *; cbn [length]; lia).
    destruct (lies_2 _ _ _ _ _ Hl) as (_ & _ & Hl').
    eapply safe_impl; [apply (DecodeUTF16_pair d (p + 1 + 1) c hi lo); (done || lia)|].
    intros out s'' [-> Hs'']. split; [done|]. by replace (p + 1 + 10) with (p + 1 + 1 + 9) by lia.
Qed.

(** What the writer puts between the quotes. *)
Definition quoted (cps : list Z) : list Z := flat_map quote_unit (flat_map enc16 cps).

Lemma quoted_cons c cps : quoted (c :: cps) = flat_map quote_unit (enc16 c) ++ quoted cps.
Proof. unfold quoted. cbn. by rewrite flat_map_app. Qed.

Lemma string_loop_reads d from cps fuel p b t s :
  Forall writable cps -> lies mem p (quoted cps ++ [34]) -> p + zlen (quoted cps) < len -> between d p s -> 0 <= p -> holds from p b t ->
  (length cps < fuel)%nat ->
  gives (string_loop fuel b) s (fun out s' => exists b', out = Some b' /\
    at_pos d (p + zlen (quoted cps)) s' /\ holds from (p + zlen (quoted cps)) b' (t ++ flat_map enc8 cps)).
Proof.
  intros Hcps. revert fuel p b t s. induction Hcps as [|c cps Hc Hcps IH]; intros [|fuel] p b t s Hl Hn Hs Hp Hb Hf; try (cbn in Hf; lia);
    cbn [string_loop]; pose proof Hs as (Ho & Hi & Hpos & _); apply safe_then; (eapply safe_CanConsume; [exact Ho|]).
  - cbn [quoted flat_map app] in *. change (zlen (@nil Z)) with 0 in *. rewrite Z.add_0_r in *. apply lies_get in Hl.
    rewrite (proj2 (Z.leb_le _ _)) by lia. cbn [negb]. apply safe_then.
    eapply ascii_turn; [exact Hs|lia|done|exact Hl|lia|exact Hb|]. intros s1 Hs1. cbn [Z.eqb Pos.eqb].
    apply safe_then, safe_modify, safe_mret, safe_mret. exists b. split; [done|]. rewrite app_nil_r. split; [|done].
    destruct Hs1 as (Ho1 & Hpos1 & Hi1). split; [done|]. cbn. rewrite Hi1, s32_id by lia. lia.
  - rewrite quoted_cons, <- app_assoc in Hl. rewrite quoted_cons, zlen_app in *. cbn [length] in Hf. pose proof (zlen_nonneg (quoted cps)).
    pose proof (zlen_nonneg (flat_map quote_unit (enc16 c))). apply lies_app in Hl as [Hl1 Hl2].
    rewrite (proj2 (Z.leb_le _ _)) by lia. cbn [negb]. apply safe_then.
    eapply safe_impl; [apply (char_turn d from p c b t); (done || lia)|]. intros ? s' (b' & -> & Hs' & Hb').
    rewrite Z.add_assoc. eapply safe_impl; [apply IH; [done|lia|done|lia|exact Hb'|lia]|]. cbn [flat_map]. by rewrite <- app_assoc.
Qed.

Lemma zlen_quote cps : zlen (JsonDoubleQuote (flat_map enc16 cps) true) = zlen (quoted cps) + 2.
Proof. unfold JsonDoubleQuote, quoted. rewrite !zlen_app. change (zlen [34]) with 1. lia. Qed.

(** One turn a character: the source of each is a byte at least. *)
Lemma quoted_length cps : Z.of_nat (length cps) <= zlen (quoted cps).
Proof.
  induction cps as [|c cps IH]; [done|]. rewrite quoted_cons, zlen_app. cbn [length].
  assert (1 <= zlen (flat_map quote_unit (enc16 c))); [|lia].
  assert (Hq : forall u, 1 <= zlen (quote_unit u)).
  { intros u. unfold quote_unit, JsonSingleEscapeChar. repeat case_if; cbn; unfold zlen; cbn; lia. }
  unfold enc16. case_if; cbn [flat_map]; rewrite !zlen_app.
  - pose proof (Hq c). pose proof (zlen_nonneg (@nil Z)). lia.
  - pose proof (Hq (55296 + (c - 65536) / 1024)). pose proof (zlen_nonneg (quote_unit (56320 + c mod 1024))).
    pose proof (zlen_nonneg (@nil Z)). lia.
Qed.

Lemma ConsumeStringRaw_reads d cps p s :
  Forall writable cps -> lies mem p (JsonDoubleQuote (flat_map enc16 cps) true) -> p + zlen (quoted cps) + 2 <= len ->
  at_pos d p s ->
  gives ConsumeStringRaw s (fun out s' => exists b, out = Some b /\
    at_pos d (p + zlen (quoted cps) + 1) s' /\ holds (p + 1) (p + zlen (quoted cps) + 1) b (flat_map enc8 cps)).
Proof.
  intros Hcps Hl Hn Hs. pose proof Hs as (Ho & Hpos & Hi). pose proof (lies_bounds _ _ _ Hl) as [Hp _].
  pose proof (zlen_nonneg (quoted cps)). cbn in Hl. pose proof (lies_get _ _ _ _ Hl) as Hg. apply lies_tail in Hl. fold (quoted cps) in Hl.
  apply safe_then. eapply safe_get_here; [exact Ho|exact Hpos|exact Hg|]. cbn [Z.eqb Pos.eqb negb].
  apply safe_then. eapply safe_NextChar; [exact Ho|lia|]. pose proof (at_moved d p 1 s Hs ltac:(lia)) as Hs'.
  apply safe_then, safe_get_state. erewrite bytes_left_spec by exact Hs'. pose proof Hs' as (_ & -> & _).
  replace (p + zlen (quoted cps) + 1) with (p + 1 + zlen (quoted cps)) by lia.
  apply (string_loop_reads d (p + 1) cps _ (p + 1) _ []); try done; try lia.
  - apply at_pos_between; [done|lia].
  - split; [done|]. split; [cbn; lia|]. replace (p + 1 - (p + 1)) with (zlen (@nil Z)) by (unfold zlen; cbn; lia).
    apply as_string_lies, lies_nil. lia.
  - pose proof (quoted_length cps). unfold zlen in *. lia.
Qed.

(** What the pieces in a value are pieces of, if it can have any. *)
Definition text_owner : list Z := if has_option opts JSON_DETACHABLE_CHILDREN then [] else mem.

(** A value is returned of which this is the copy. *)
Definition owns (out : option (Value double)) (v : Value double) : Prop :=
  exists v', out = Some v' /\ DeepCopy text_owner v' = Ok v.

Lemma new_StringValue_Ok cps :
  Forall writable cps -> zlen (flat_map enc8 cps) <= 2147483642 ->
  new_StringValue (double := double) (flat_map enc8 cps) = Ok (StringValue (flat_map enc8 cps)).
Proof.
  intros Hcps Hn. assert (Hch : Forall character cps) by (eapply Forall_impl; [exact Hcps|]; intros c [Hc _]; exact Hc).
  assert (Hb : Forall is_byte (flat_map enc8 cps)).
  { clear Hn Hcps. induction Hch as [|c cps [Hc _] _ IH]; [constructor|]. cbn. apply Forall_app. by split; [apply enc8_bytes|]. }
  destruct (IsStringUTF8_spec _ Hb Hn) as (ok & E & Hok). unfold new_StringValue, check. rewrite E.
  rewrite (proj2 Hok) by eauto. cbn. by rewrite andb_false_r.
Qed.

Lemma AsString_reads d from p b t s (Q : list Z -> JSONParser -> Prop) :
  on d s -> holds from p b t -> Q t s -> gives (AsString b) s Q.
Proof.
  intros Ho Hb HQ. apply safe_then. eapply Convert_holds; [exact Ho|exact Hb|]. intros b' Eb'. rewrite Eb'. by apply safe_mret.
Qed.

Lemma ConsumeString_reads d cps p s :
  Forall writable cps -> zlen (flat_map enc8 cps) <= 2147483642 ->
  lies mem p (JsonDoubleQuote (flat_map enc16 cps) true) -> p + zlen (quoted cps) + 2 <= len -> at_pos d p s ->
  gives ConsumeString s (fun out s' => owns out (StringValue (flat_map enc8 cps)) /\ at_pos d (p + zlen (quoted cps) + 1) s').
Proof.
  intros Hcps Hz Hl Hn Hs. apply safe_then. eapply safe_impl; [by apply (ConsumeStringRaw_reads d cps p)|].
  intros ? s1 (b & -> & Hs1 & Hb). apply safe_then, safe_get_state. pose proof (new_StringValue_Ok cps Hcps Hz) as Hnew.
  pose proof Hs1 as ((_ & _ & Hop & _) & _). rewrite Hop.
  destruct (CanBeStringPiece b && _) eqn:Ecan.
  - apply andb_true_iff in Ecan as [Eb Eo]. apply negb_true_iff in Eo. apply safe_mret. split; [|done].
    eexists. split; [reflexivity|]. unfold AsStringPiece, text_owner. rewrite Eo.
    unfold holds in Hb. unfold CanBeStringPiece in Eb. destruct (string_ b); [done|]. destruct Hb as (-> & -> & Et).
    cbn [DeepCopy]. by rewrite Et.
  - assert (Hrest : forall b', holds (p + 1) (p + zlen (quoted cps) + 1) b' (flat_map enc8 cps) ->
      gives (value_ ← AsString b'; v ← lift (new_StringValue value_); mret (Some v)) s1 (fun out s' =>
        owns out (StringValue (flat_map enc8 cps)) /\ at_pos d (p + zlen (quoted cps) + 1) s')).
    { intros b' Hb'. apply safe_then. eapply AsString_reads; [apply Hs1|exact Hb'|]. apply safe_then. unfold lift, safe at 1. rewrite Hnew.
      apply safe_mret. split; [|done]. by eexists. }
    apply safe_then. destruct (CanBeStringPiece b); [|by apply safe_mret, Hrest].
    eapply Convert_holds; [apply Hs1|exact Hb|]. intros b' Eb'. by apply Hrest, converted_holds.
Qed.

(** ** Numerals *)
Record Numeral := mkNumeral { negative : bool; whole : list Z; decimals : option (list Z); power : option (bool * list Z) }.

Definition show_decimals (n : Numeral) : list Z := match decimals n with Some f => "."%ch :: f | None => [] end.
Definition show_power (n : Numeral) : list Z :=
  match power n with Some (minus, e) => "e"%ch :: (if minus then "-"%ch else "+"%ch) :: e | None => [] end.
Definition show (n : Numeral) : list Z :=
  (if negative n then ["-"%ch] else []) ++ whole n ++ show_decimals n ++ show_power n.

Definition digits (l : list Z) : Prop := l <> [] /\ Forall (fun c => IsAsciiDigit c = true) l.

(** What may stand behind the sign and before it: no needless zeros. *)
Definition plain_whole (l : list Z) : Prop := digits l /\ (length l = 1%nat \/ at_ l 0 <> "0"%ch).

Definition json_numeral (n : Numeral) : Prop :=
  plain_whole (whole n) /\ (forall f, decimals n = Some f -> digits f) /\ (forall m e, power n = Some (m, e) -> digits e).

(** What follows a value: blanks, and a delimiter or the end. *)
Definition delimiter (c : Z) : Prop := c = ","%ch \/ c = "]"%ch \/ c = "}"%ch.

Definition followed (q : Z) : Prop :=
  exists blanks c, lies mem q (blanks ++ [c]) /\ Forall blank blanks /\ q + zlen blanks <= len /\ (q + zlen blanks < len -> delimiter c).

Hypothesis Hnul : get mem len = Some 0.

(** No more of a number follows. *)
Definition no_more (c : Z) : Prop := IsAsciiDigit c = false /\ c <> "."%ch /\ c <> "e"%ch /\ c <> "E"%ch.

Lemma followed_no_more q : followed q -> exists c, get mem q = Some c /\ no_more c.
Proof.
  intros (blanks & c & Hl & Hb & Hn & Hc). destruct Hb as [|b blanks Hb _].
  - cbn in Hl. apply lies_get in Hl. exists c. split; [done|]. change (zlen (@nil Z)) with 0 in *. rewrite Z.add_0_r in *.
    destruct (decide (q = len)) as [-> |]; [rewrite Hnul in Hl; by injection Hl as <-|].
    destruct (Hc ltac:(lia)) as [->|[->| ->]]; done.
  - cbn in Hl. apply lies_get in Hl. exists b. split; [done|]. by destruct Hb as [-> | ->].
Qed.

Lemma digits_loop_reads d ds fuel x c n p s :
  at_pos d p s -> lies mem p (ds ++ [c]) -> get mem p = Some x -> Forall (fun c => IsAsciiDigit c = true) ds -> IsAsciiDigit c = false ->
  p + zlen ds <= len -> 0 <= n <= p -> (length ds < fuel)%nat ->
  gives (digits_loop fuel x n) s (fun m s' => m = n + zlen ds /\ at_pos d (p + zlen ds) s').
Proof.
  intros Hs Hl Hx Hds Hc Hn. revert fuel x n p s Hs Hl Hx Hn. induction Hds as [|y ds Hy _ IH]; intros [|fuel] x n p s Hs Hl Hx Hn Hnp Hf; try (cbn in Hf; lia);
    cbn [digits_loop app] in *; pose proof Hs as (Ho & Hpos & Hi); apply safe_then; (eapply safe_CanConsume; [exact Ho|]); rewrite Hpos;
    pose proof (lies_get _ _ _ _ Hl) as Hg; rewrite Hg in Hx; injection Hx as <-.
  - rewrite Hc, andb_false_r. apply safe_mret. change (zlen (@nil Z)) with 0. rewrite !Z.add_0_r. done.
  - assert (Ez : zlen (y :: ds) = 1 + zlen ds) by (unfold zlen; cbn; lia). rewrite Ez in *. pose proof (zlen_nonneg ds).
    rewrite (proj2 (Z.leb_le _ _)), Hy by lia. cbn [andb]. apply lies_tail in Hl. rewrite s32_id by lia.
    assert (Hx : exists x, get mem (p + 1) = Some x) by (destruct ds; eexists; by eapply lies_get). destruct Hx as [x Hx].
    apply safe_then. eapply safe_get_next; [exact Ho|exact Hpos|lia|exact Hx|]. rewrite !Z.add_assoc.
    apply IH; [apply at_moved; [done|lia]|done|done|lia|lia|cbn in Hf; lia].
Qed.

Lemma ReadInt_reads d ds c allow p s :
  at_pos d p s -> lies mem p (ds ++ [c]) -> digits ds -> IsAsciiDigit c = false -> p + zlen ds <= len ->
  allow = true \/ length ds = 1%nat \/ at_ ds 0 <> "0"%ch ->
  gives (ReadInt allow) s (fun ok s' => ok = true /\ at_pos d (p + zlen ds) s').
Proof.
  intros Hs Hl [Hne Hds] Hc Hn Hlead. pose proof Hs as (Ho & Hpos & Hi). pose proof (lies_bounds _ _ _ Hl).
  destruct ds as [|y ds]; [done|]. pose proof (lies_get _ _ _ _ Hl) as Hg.
  apply safe_then. eapply safe_get_here; [exact Ho|exact Hpos|exact Hg|]. apply safe_then, safe_get_state. erewrite bytes_left_spec by exact Hs.
  apply safe_then. eapply safe_impl; [apply (digits_loop_reads d (y :: ds) _ y c 0 p); try done; [lia|unfold zlen in *; lia]|].
  intros ? s' [-> Hs']. assert (Hz : 1 <= zlen (y :: ds)) by (unfold zlen; cbn; lia). rewrite Z.add_0_l.
  rewrite (proj2 (Z.eqb_neq _ 0)) by lia. match goal with |- context [if ?b then _ else mret true] => destruct b eqn:Hbad end; [|by apply safe_mret].
  apply andb_true_iff in Hbad as [Hbad Hy0]. apply andb_true_iff in Hbad as [Hallow Hmany]. apply Z.eqb_eq in Hy0. apply Z.ltb_lt in Hmany.
  destruct Hlead as [-> |[Hone|Hnot]]; [done|unfold zlen in Hmany; lia|done].
Qed.

Lemma lies_snoc p l c : lies mem p l -> get mem (p + zlen l) = Some c -> lies mem p (l ++ [c]).
Proof.
  intros (pre & post & -> & <-) Hc. rewrite app_assoc, <- zlen_app in Hc. destruct post as [|x post].
  - apply get_range in Hc. rewrite app_nil_r in Hc. lia.
  - rewrite get_app in Hc. injection Hc as ->. exists pre, post. by rewrite <- !app_assoc.
Qed.

Lemma lies_prefix p l c r : lies mem p (l ++ c :: r) -> lies mem p (l ++ [c]).
Proof. intros Hl. replace (l ++ c :: r) with ((l ++ [c]) ++ r) in Hl by (by rewrite <- app_assoc). by apply lies_app in Hl as [Hl _]. Qed.

(** A part of a number, up to the end of it. *)
Definition part_read (d e : Z) (out : option Z) (s : JSONParser) : Prop := out = Some e /\ at_pos d e s.

Lemma read_digits_reads d ds c p s :
  at_pos d p s -> lies mem p (ds ++ [c]) -> digits ds -> IsAsciiDigit c = false -> p + zlen ds <= len ->
  gives (ok ← ReadInt true; if negb ok then fail JSON_SYNTAX_ERROR 1 else s ← get_state; mret (Some (index_ s))) s (part_read d (p + zlen ds)).
Proof.
  intros Hs Hl Hds Hc Hn. apply safe_then. eapply safe_impl; [apply (ReadInt_reads d ds c true p); auto|]. intros ? s' [-> Hs']. cbn [negb].
  apply safe_then, safe_get_state, safe_mret. pose proof Hs' as (_ & _ & ->). done.
Qed.

Lemma fraction_reads d n c r p s :
  at_pos d p s -> lies mem p (show_decimals n ++ c :: r) -> (forall f, decimals n = Some f -> digits f) ->
  IsAsciiDigit c = false -> c <> "."%ch -> p + zlen (show_decimals n) <= len ->
  gives (fraction p) s (part_read d (p + zlen (show_decimals n))).
Proof.
  intros Hs Hl Hf Hc Hdot Hn. pose proof Hs as (Ho & Hpos & Hi). pose proof (lies_bounds _ _ _ Hl). unfold show_decimals in *.
  destruct (decimals n) as [f|].
  - assert (Ez : zlen ("."%ch :: f) = 1 + zlen f) by (unfold zlen; cbn; lia). rewrite Ez in *. pose proof (zlen_nonneg f).
    cbn [app] in Hl. pose proof (lies_get _ _ _ _ Hl) as Hg. apply lies_tail, lies_prefix in Hl.
    apply safe_then. eapply safe_get_here; [exact Ho|exact Hpos|exact Hg|]. rewrite Z.eqb_refl.
    apply safe_then. eapply safe_CanConsume; [exact Ho|]. rewrite Hpos, (proj2 (Z.leb_le _ _)) by lia. cbn [negb].
    apply safe_then. eapply safe_NextChar; [exact Ho|lia|]. rewrite Z.add_assoc.
    apply (read_digits_reads d f c (p + 1)); [apply at_moved; [done|lia]|exact Hl|by apply Hf|done|lia].
  - cbn [app] in Hl. apply lies_get in Hl. apply safe_then. eapply safe_get_here; [exact Ho|exact Hpos|exact Hl|].
    rewrite (proj2 (Z.eqb_neq c _) Hdot). apply safe_mret. change (zlen (@nil Z)) with 0. by rewrite Z.add_0_r.
Qed.

Lemma exponent_reads d n c p s :
  at_pos d p s -> lies mem p (show_power n ++ [c]) -> (forall m e, power n = Some (m, e) -> digits e) ->
  no_more c -> p + zlen (show_power n) <= len ->
  gives (exponent p) s (part_read d (p + zlen (show_power n))).
Proof.
  intros Hs Hl Hf (Hc & _ & He & HE) Hn. pose proof Hs as (Ho & Hpos & Hi). pose proof (lies_bounds _ _ _ Hl). unfold show_power in *.
  destruct (power n) as [[minus e]|].
  - set (sign := if minus then "-"%ch else "+"%ch) in *. assert (Ez : zlen ("e"%ch :: sign :: e) = 2 + zlen e) by (unfold zlen; cbn; lia).
    rewrite Ez in *. pose proof (zlen_nonneg e). cbn [app] in Hl. destruct (lies_2 _ _ _ _ _ Hl) as (Hg & Hg' & Hl').
    apply safe_then. eapply safe_get_here; [exact Ho|exact Hpos|exact Hg|]. rewrite Z.eqb_refl. cbn [orb].
    apply safe_then. eapply safe_get_next; [exact Ho|exact Hpos|lia|exact Hg'|]. pose proof (at_moved d p 1 s Hs ltac:(lia)) as Hs1.
    assert (Esign : (sign =? "-"%ch) || (sign =? "+"%ch) = true) by (by destruct minus). rewrite Esign.
    apply safe_then. eapply safe_NextChar; [apply Hs1|destruct Hs1 as (_ & -> & _); lia|].
    replace (p + (2 + zlen e)) with (p + 1 + 1 + zlen e) by lia.
    apply (read_digits_reads d e c (p + 1 + 1)); [apply at_moved; [done|lia]|exact Hl'|by eapply Hf|done|lia].
  - cbn [app] in Hl. apply lies_get in Hl. apply safe_then. eapply safe_get_here; [exact Ho|exact Hpos|exact Hl|].
    rewrite (proj2 (Z.eqb_neq c _) He), (proj2 (Z.eqb_neq c _) HE). cbn [orb]. apply safe_mret. change (zlen (@nil Z)) with 0. by rewrite Z.add_0_r.
Qed.

(** The token behind a number: it ends here. *)
Lemma followed_token d q s :
  followed q -> 0 <= q -> at_pos d q s ->
  gives GetNextToken s (fun token s' => (exists q', at_pos d q' s') /\
    (token = T_OBJECT_END \/ token = T_ARRAY_END \/ token = T_LIST_SEPARATOR \/ token = T_END_OF_INPUT)).
Proof.
  intros (blanks & c & Hl & Hb & Hn & Hc) Hq Hs. eapply safe_impl.
  - apply (next_token_reads d blanks c q); try done. intros Hlt. by destruct (Hc Hlt) as [->|[->| ->]].
  - intros token s' [Hs' ->]. split; [eauto|]. destruct (Z.ltb_spec (q + zlen blanks) len); [|tauto].
    destruct (Hc ltac:(lia)) as [->|[->| ->]]; cbn; tauto.
Qed.

Lemma sign_reads d n p s :
  json_numeral n -> lies mem p (show n) -> p + zlen (show n) <= len -> at_pos d p s ->
  exists c, get mem p = Some c /\
    gives (if c =? "-"%ch then NextChar else mret tt) s (fun _ => at_pos d (p + zlen (if negative n then ["-"%ch] else []))).
Proof.
  intros (((Hne & Hd) & _) & _) Hl Hn Hs. pose proof Hs as (Ho & Hpos & Hi). unfold show in *. pose proof (lies_bounds _ _ _ Hl).
  destruct (negative n); cbn [app] in *.
  - apply lies_get in Hl. exists "-"%ch. split; [done|]. rewrite Z.eqb_refl.
    set (l := whole n ++ _) in *. assert (1 <= zlen ("-"%ch :: l)) by (unfold zlen; cbn; lia).
    eapply safe_NextChar; [exact Ho|lia|]. change (zlen ["-"%ch]) with 1. apply at_moved; [done|lia].
  - destruct (whole n) as [|c w]; [done|]. apply Forall_cons_1 in Hd as [Hc _]. cbn [app] in Hl. apply lies_get in Hl.
    exists c. split; [done|].
    assert (Hm : (c =? "-"%ch) = false) by (unfold IsAsciiDigit in Hc; lia). rewrite Hm. apply safe_mret.
    change (zlen (@nil Z)) with 0. by rewrite Z.add_0_r.
Qed.

Lemma ConsumeNumber_reads d n p s :
  json_numeral n -> lies mem p (show n) -> followed (p + zlen (show n)) -> p + zlen (show n) <= len -> at_pos d p s ->
  gives ConsumeNumber s (fun out s' => out = number_value (show n) /\ at_pos d (p + zlen (show n) - 1) s').
Proof.
  intros Hjson Hl Hfol Hn Hs. pose proof Hs as (Ho & Hpos & Hi). pose proof (lies_bounds _ _ _ Hl) as [Hp _].
  destruct (followed_no_more _ Hfol) as (c & Hc & Hmore). pose proof (lies_snoc _ _ _ Hl Hc) as Hlc.
  destruct (sign_reads d n p s Hjson Hl Hn Hs) as (c0 & Hc0 & Hsign). destruct Hjson as (Hwhole & Hdec & Hpow).
  unfold ConsumeNumber. apply safe_then, safe_get_state. rewrite Hpos, Hi. set (z := zlen (show n)) in *.
  set (z1 := zlen (if negative n then ["-"%ch] else [])) in *.
  assert (Ez : z = z1 + (zlen (whole n) + (zlen (show_decimals n) + zlen (show_power n)))) by (unfold z, z1, show; by rewrite !zlen_app).
  pose proof (zlen_nonneg (if negative n then ["-"%ch] else [])) as Hz1. fold z1 in Hz1.
  pose proof (zlen_nonneg (whole n)). pose proof (zlen_nonneg (show_decimals n)). pose proof (zlen_nonneg (show_power n)).
  unfold show in Hlc. rewrite <- !app_assoc in Hlc. apply lies_app in Hlc as [_ Hl1]. fold z1 in Hl1.
  pose proof Hl1 as Hl2. apply lies_app in Hl2 as [_ Hl2]. pose proof Hl2 as Hl3. apply lies_app in Hl3 as [_ Hl3].
  assert (Hh1 : exists c1 r1, show_decimals n ++ show_power n ++ [c] = c1 :: r1 /\ IsAsciiDigit c1 = false).
  { unfold show_decimals, show_power. destruct (decimals n); [by do 2 eexists|]. destruct (power n) as [[]|]; [by do 2 eexists|].
    cbn. do 2 eexists. split; [done|]. apply Hmore. }
  assert (Hh2 : exists c2 r2, show_power n ++ [c] = c2 :: r2 /\ IsAsciiDigit c2 = false /\ c2 <> "."%ch).
  { unfold show_power. destruct (power n) as [[]|]; [by do 2 eexists|]. cbn. do 2 eexists. split; [done|]. split; apply Hmore. }
  destruct Hh1 as (c1 & r1 & E1 & Hc1). destruct Hh2 as (c2 & r2 & E2 & Hc2 & Hdot2). rewrite E1 in Hl1. rewrite E2 in Hl2.
  apply lies_prefix in Hl1.
  apply safe_then. eapply safe_get_here; [exact Ho|exact Hpos|exact Hc0|]. apply safe_then.
  eapply safe_impl; [exact Hsign|]. intros ? s1 Hs1. fold z1 in Hs1. apply safe_then.
  eapply safe_impl; [apply (ReadInt_reads d (whole n) c1 false); [exact Hs1|exact Hl1|apply Hwhole|done|lia|right; apply Hwhole]|].
  intros ? s2 [-> Hs2]. cbn [negb]. apply safe_then, safe_get_state, safe_then. pose proof Hs2 as (_ & _ & ->).
  eapply safe_impl; [apply (fraction_reads d n c2 r2); [exact Hs2|exact Hl2|exact Hdec|done|done|lia]|]. intros ? s3 [-> Hs3].
  apply safe_then. eapply safe_impl; [apply (exponent_reads d n c); [exact Hs3|exact Hl3|exact Hpow|exact Hmore|lia]|]. intros ? s4 [-> Hs4].
  replace (p + z1 + zlen (whole n) + zlen (show_decimals n) + zlen (show_power n)) with (p + z) in * by lia.
  pose proof Hs4 as (_ & Hpos4 & Hi4). apply safe_then, safe_get_state, safe_then. rewrite Hpos4, Hi4.
  eapply safe_impl; [apply (followed_token d (p + z)); [exact Hfol|lia|exact Hs4]|]. intros token s5 ((q & Hs5) & Htoken).
  assert (Hgo : gives (modify (fun s => s <| pos_ := p + z - 1 |> <| index_ := p + z ⊖ 1 |>) ;;
      num_string ← bytes_of p (p + z ⊖ p); mret (number_value num_string)) s5
      (fun out s' => out = number_value (show n) /\ at_pos d (p + z - 1) s')).
  { rewrite !s32_id by lia. replace (p + z - p) with z by lia. apply safe_then, safe_modify, safe_then.
    eapply (safe_bytes_of d p z (show n)); [apply Hs5|by apply as_string_lies|]. apply safe_mret. split; [done|]. by split; [apply Hs5|]. }
  destruct Htoken as [-> |[-> |[-> | ->]]]; exact Hgo.
Qed.

(** ** Literals *)
Lemma StringsAreEqual_reads d one two s (Q : bool -> JSONParser -> Prop) :
  on d s -> lies mem one two -> Q true s -> gives (StringsAreEqual one two) s Q.
Proof.
  intros Ho. revert one. induction two as [|c two IH]; intros one Hl HQ; [by apply safe_mret|]. cbn [StringsAreEqual].
  apply safe_then. eapply safe_get; [exact Ho|by eapply lies_get|]. rewrite Z.eqb_refl. apply IH; [by eapply lies_tail|done].
Qed.

Lemma literal_reads d p text (v : Value double) s :
  at_pos d p s -> lies mem p text -> p + zlen text <= len -> 1 <= zlen text ->
  gives (literal text v) s (fun out s' => out = Some v /\ at_pos d (p + zlen text - 1) s').
Proof.
  intros Hs Hl Hn H1'. pose proof Hs as (Ho & Hpos & Hi). pose proof (lies_bounds _ _ _ Hl). unfold literal. apply safe_then.
  eapply safe_CanConsume; [exact Ho|]. rewrite Hpos. apply safe_then, safe_get_state, safe_then.
  rewrite (proj2 (Z.leb_le _ _)), Hpos by lia. eapply StringsAreEqual_reads; [exact Ho|exact Hl|]. cbn [negb].
  apply safe_then. eapply safe_NextNChars; [exact Ho|lia|]. apply safe_mret. split; [done|].
  replace (p + zlen text - 1) with (p + (zlen text - 1)) by lia. apply at_moved; [done|lia].
Qed.
End reading.
