(* ===== verification/JsonRoundtrip.v ===== *)
(** What the JSON writer writes, the JSON parser reads back as the value it
    was. *)
From S2P Require Import Prelude CArrays NumberConversions NumberProperties Utf UtfProperties Values ValuesProperties.
From S2P Require Import JsonParser JsonWriter JsonLogic JsonReadBack.
From Stdlib Require Import Sorted.

(** ** Doubles as text

    What the library (dmg_fp) does: [g_fmt] prints a finite double as a
    numeral, with no digit before the point where that would be a zero, and
    [strtod] reads that numeral as the double, also with the zeros that make a
    number of JSON of it. It sets [ERANGE] when the double is denormal: not
    zero, and without exponent bits (the last lines of [strtod] in dtoa.cc). *)
Definition printed (n : Numeral) : Prop :=
  (whole n = [] /\ decimals n <> None \/ plain_whole (whole n)) /\
  (forall f, decimals n = Some f -> digits f) /\ (forall m e, power n = Some (m, e) -> digits e).

(** With the zeros that JSON wants, and that tell a double from an integer. *)
Definition with_decimals (n : Numeral) : Numeral :=
  mkNumeral (negative n) (whole n) (match decimals n, power n with None, None => Some ["0"%ch] | f, _ => f end) (power n).
Definition completed (n : Numeral) : Numeral :=
  mkNumeral (negative n) (match whole n with [] => ["0"%ch] | w => w end) (decimals (with_decimals n)) (power n).

Class DoubleText (double : Type) `{Doubles double} := {
  denormal : double -> bool;
  g_fmt_numeral x : IsFinite x = true -> exists n, printed n /\ g_fmt x = show n;
  strtod_numeral x n : IsFinite x = true -> printed n -> g_fmt x = show n ->
    strtod (show (completed n)) = (x, zlen (show (completed n)), denormal x)
}.

Lemma has_char_app c t1 t2 : has_char c (t1 ++ t2) = has_char c t1 || has_char c t2.
Proof. unfold has_char. apply existsb_app. Qed.

Lemma has_char_digits c l : Forall (fun c => IsAsciiDigit c = true) l -> IsAsciiDigit c = false -> has_char c l = false.
Proof.
  intros Hl Hc. unfold has_char. induction Hl as [|x l Hx _ IH]; [done|]. cbn. rewrite IH, orb_false_r.
  apply Z.eqb_neq. intros ->. congruence.
Qed.

(** Characters that are no digit and no sign stand where the numeral has them. *)
Lemma has_char_show c n :
  printed n -> IsAsciiDigit c = false -> c <> "-"%ch -> c <> "+"%ch ->
  has_char c (show n) = (bool_decide (c = "."%ch) && bool_decide (decimals n <> None)) || (bool_decide (c = "e"%ch) && bool_decide (power n <> None)).
Proof.
  intros (Hw & Hd & Hp) Hc Hm Hplus. unfold show. rewrite !has_char_app.
  assert (E1 : has_char c (if negative n then ["-"%ch] else []) = false).
  { destruct (negative n); [|done]. cbn. rewrite orb_false_r. by apply Z.eqb_neq. }
  assert (E2 : has_char c (whole n) = false).
  { destruct Hw as [[-> _]|[[_ Hw] _]]; [done|]. by apply has_char_digits. }
  rewrite E1, E2. cbn [orb]. f_equal.
  - unfold show_decimals. destruct (decimals n) as [f|]; [|by rewrite (bool_decide_eq_false_2 (None <> None)), andb_false_r by auto].
    rewrite (bool_decide_eq_true_2 (Some f <> None)), andb_true_r by done. cbn. fold (has_char c f).
    rewrite has_char_digits, orb_false_r by (done || apply (Hd f); done). case_bool_decide; lia.
  - unfold show_power. destruct (power n) as [[m e]|]; [|by rewrite (bool_decide_eq_false_2 (None <> None)), andb_false_r by auto].
    rewrite (bool_decide_eq_true_2 (Some (m, e) <> None)), andb_true_r by done. cbn. fold (has_char c e).
    rewrite has_char_digits, orb_false_r by (done || by eapply Hp).
    rewrite (proj2 (Z.eqb_neq c (if m then _ else _))), orb_false_r by (by destruct m). case_bool_decide; lia.
Qed.

Section doubles.
Context `{Build} {double : Type} `{Doubles double} `{!DoubleText double}.

Lemma completed_json n : printed n -> json_numeral (completed n).
Proof.
  intros (Hw & Hd & Hp). split; [|split].
  - cbn. destruct Hw as [[-> _]|Hw]; [|by destruct (whole n); [destruct Hw as [[]]|]]. split; [|by left]. split; [done|by constructor].
  - cbn. intros f. destruct (decimals n) as [f'|] eqn:E; [intros [= <-]; by apply Hd|].
    destruct (power n); [done|]. intros [= <-]. split; [done|by constructor].
  - exact Hp.
Qed.

Lemma completed_real n : printed n -> decimals (completed n) <> None \/ power (completed n) <> None.
Proof. intros _. cbn. destruct (decimals n); [by left|]. destruct (power n); [by right|by left]. Qed.

Lemma with_decimals_text n :
  printed n ->
  (if negb (has_char "."%ch (show n)) && negb (has_char "e"%ch (show n)) && negb (has_char "E"%ch (show n)) then show n ++ str ".0" else show n) =
  show (with_decimals n).
Proof.
  intros Hn. rewrite !has_char_show by done. cbn [bool_decide decide_rel Z.eq_dec andb orb].
  unfold with_decimals, show, show_decimals, show_power. cbn [negative whole decimals power].
  destruct (decimals n) as [f|], (power n) as [[m e]|]; cbn; rewrite ?app_nil_r; try done. by rewrite <- app_assoc.
Qed.

Lemma real_text_spec x : IsFinite x = true -> exists n, printed n /\ g_fmt x = show n /\ real_text x = show (completed n).
Proof.
  intros Hx. destruct (g_fmt_numeral x Hx) as (n & Hn & Ex). exists n. split; [done|]. split; [done|].
  unfold real_text, DoubleToString. rewrite Ex, with_decimals_text by done. unfold completed.
  set (n' := with_decimals n). change (whole n) with (whole n'). change (negative n) with (negative n'). change (power n) with (power n').
  assert (Hw : whole n' = [] /\ decimals n' <> None \/ plain_whole (whole n')).
  { destruct Hn as ([[Hw Hd]|Hw] & _); [left|by right]. split; [done|]. cbn. by destruct (decimals n). }
  clearbody n'. clear Hn Ex. unfold show, show_decimals. cbn [negative whole decimals power].
  destruct Hw as [[-> Hd]|[[Hne Hw] _]].
  - destruct (decimals n') as [f|]; [|done]. destruct (negative n'); [|done]. cbn [app]. set (l := f ++ show_power n').
    assert (Hz : (1 <? zlen ("-"%ch :: "."%ch :: l)) = true) by (apply Z.ltb_lt; unfold zlen; cbn; lia). by rewrite Hz.
  - destruct (whole n') as [|c w]; [done|]. apply Forall_cons_1 in Hw as [Hc _].
    assert (Hdot : (c =? "."%ch) = false) by (unfold IsAsciiDigit in Hc; lia).
    assert (Hminus : (c =? "-"%ch) = false) by (unfold IsAsciiDigit in Hc; lia). change (show_power (mkNumeral _ _ _ (power n'))) with (show_power n').
    destruct (negative n'); cbn [app]; change (at_ (?x :: ?l) 0) with x; [|by rewrite Hdot, Hminus, andb_false_r].
    change (at_ ("-"%ch :: c :: ?l) 1) with c. rewrite Hdot. by rewrite andb_false_r.
Qed.
(** ** Numbers *)
Hypothesis Hws : sane16 LocalIsWhitespace.

Lemma digit_char c : IsAsciiDigit c = true -> exists d, 0 <= d < 10 /\ c = digit d.
Proof. intros Hc. exists (c - "0"%ch). unfold IsAsciiDigit, digit in *. lia. Qed.

(** A digit is no white space and no sign. *)
Lemma digit_plain c :
  IsAsciiDigit c = true -> LocalIsWhitespace c = false /\ (c =? "-"%ch) = false /\ (c =? "+"%ch) = false.
Proof.
  intros Hc. destruct Hws as [(_ & _ & Hd) _]. destruct (digit_char c Hc) as (d & Hr & ->). split; [by apply Hd|]. unfold digit. lia.
Qed.

Lemma digits_of_stops l c r :
  CharToDigit 10 c = None -> snd (digits_of 10 (l ++ c :: r)) <> [].
Proof.
  intros Hc. induction l as [|x l IH]; cbn [app digits_of]; [by rewrite Hc|]. destruct (CharToDigit 10 x); [|done].
  by destruct (digits_of 10 (l ++ c :: r)).
Qed.

Lemma Base_Invoke_stops sign l c r : CharToDigit 10 c = None -> fst (Base_Invoke sign Int 10 (l ++ c :: r)) = false.
Proof.
  intros Hc. assert (Hs : sign = Negative -> is_signed Int = true) by done.
  rewrite (Base_Invoke_spec Int ltac:(by left) 10 ltac:(lia) sign Hs). change (strip_prefix 10 ?t) with t. unfold parse_result.
  pose proof (digits_of_stops l c r Hc) as Hrest. destruct (digits_of 10 (l ++ c :: r)) as [ds rest]. cbn in *.
  destruct rest; [done|]. by rewrite andb_false_r.
Qed.

(** A number with a point or an exponent is no integer. *)
Lemma real_is_no_integer n :
  json_numeral n -> decimals n <> None \/ power n <> None -> fst (StringToInt LocalIsWhitespace (show n) 0) = false.
Proof.
  intros (((Hne & Hw) & _) & _) Hreal. unfold StringToInt, Invoke.
  assert (Htail : exists c r, show_decimals n ++ show_power n = c :: r /\ CharToDigit 10 c = None).
  { unfold show_decimals, show_power. destruct (decimals n); [by do 2 eexists|]. destruct (power n) as [[]|]; [by do 2 eexists|].
    by destruct Hreal. }
  destruct Htail as (c & r & Etail & Hc). unfold show. rewrite Etail. destruct Hws as [(Hm & _ & _) _].
  destruct (negative n); cbn [app].
  - cbn [skip_whitespace]. rewrite Hm. change ("-"%ch =? "-"%ch) with true. cbn match. cbn [is_signed Int negb].
    pose proof (Base_Invoke_stops Negative (whole n) c r Hc) as Hb. by destruct (Base_Invoke _ _ _ _) as [[] ?].
  - destruct (whole n) as [|x w]; [done|]. apply Forall_cons_1 in Hw as [Hx _]. destruct (digit_plain x Hx) as (E1 & E2 & E3).
    cbn [app skip_whitespace]. rewrite E1, E2, E3. change (x :: w ++ c :: r) with ((x :: w) ++ c :: r).
    pose proof (Base_Invoke_stops Positive (x :: w) c r Hc) as Hb. by destruct (Base_Invoke _ _ _ _) as [[] ?].
Qed.

Lemma number_value_double x :
  IsFinite x = true -> exists n, json_numeral n /\ real_text x = show n /\
    number_value (show n) = if denormal x then None else Some (DoubleValue x).
Proof.
  intros Hx. destruct (real_text_spec x Hx) as (n & Hn & Ex & Et). pose proof (completed_json n Hn) as Hj. exists (completed n). split; [done|]. split; [done|].
  unfold number_value. pose proof (real_is_no_integer (completed n) Hj (completed_real n Hn)) as Hint.
  destruct (StringToInt _ _ _) as [ok z]. cbn in Hint. subst ok. unfold StringToDouble. rewrite (strtod_numeral x n Hx Hn Ex), Hx, Z.eqb_refl.
  assert (Hfirst : LocalIsWhitespace (at_ (show (completed n)) 0) = false /\ zlen (show (completed n)) <> 0).
  { unfold show. destruct Hj as (((Hne & Hw) & _) & _). set (m := completed n) in *. destruct (negative m); cbn [app].
    - split; [apply Hws|]. unfold zlen. cbn. lia.
    - destruct (whole m) as [|c w]; [done|]. apply Forall_cons_1 in Hw as [Hc _]. split; [apply (digit_plain c Hc)|].
      unfold zlen. cbn. lia. }
  destruct Hfirst as [-> Hz]. rewrite (proj2 (Z.eqb_neq _ 0) Hz). by destruct (denormal x).
Qed.

Lemma number_value_int z :
  in_s 32 z -> exists n, json_numeral n /\ IntToString z = Some (show n) /\ number_value (double := double) (show n) = Some (IntegerValue z).
Proof.
  intros Hz. assert (Hin : in_type Int z) by (unfold in_s in Hz; cbn in Hz; split; cbn; lia).
  destruct (IntToStringT_spec Int z ltac:(by left) Hin) as (ds & E & Hds & Hn & Hc).
  exists (mkNumeral (z <? 0) (map digit ds) None None). unfold show, show_decimals, show_power. cbn [negative whole decimals power app].
  rewrite app_nil_r. split; [|split; [exact E|]].
  - split; [|by split]. cbn. split.
    + split; [by destruct ds|]. apply Forall_map. eapply Forall_impl; [exact Hds|]. intros d Hd. cbn in Hd |- *. unfold IsAsciiDigit, digit. lia.
    + destruct ds as [|d [|d' ds]]; [done|by left|]. right.
      change (at_ (map digit (d :: d' :: ds)) 0) with (digit d). cbn in Hc. unfold digit. lia.
  - unfold number_value, StringToInt. by rewrite Invoke_numeral; [|by left|done|apply Hws|done|by destruct ds|done].
Qed.
End doubles.

(** ** Values that come back *)

Definition written_text (t : list Z) : Prop :=
  exists cps, Forall writable cps /\ t = flat_map enc8 cps /\ zlen t <= 2147483642.

Section written.
Context {double : Type} `{Doubles double} `{!DoubleText double}.

(** So deep at most, with strings of their own that are text, with doubles
    that are finite and not denormal, and without binary values. *)
Fixpoint written (levels : nat) (v : Value double) : Prop :=
  match v with
  | NullValue | BooleanValue _ => True
  | IntegerValue z => in_s 32 z
  | DoubleValue x => IsFinite x = true /\ denormal x = false
  | StringValue t => written_text t
  | JSONStringValue _ | BinaryValue _ => False
  | DictionaryValue entries =>
      match levels with
      | O => False
      | S levels => ordered entries /\ Forall (fun entry => written_text entry.1 /\ written levels entry.2) entries
      end
  | ListValue items => match levels with O => False | S levels => Forall (written levels) items end
  end.
End written.

Section roundtrip.
Context `{Build} {double : Type} `{Doubles double} `{!DoubleText double}.
Hypothesis Hws : sane16 LocalIsWhitespace.
Context (owner : list Z) (w : JSONWriter).
Hypothesis Hescape : escape_ w = true.
Hypothesis Hpreserve : omit_double_type_preservation_ w = false.
Context (mem : list Z) (len opts : Z).
Hypothesis Hlen : 0 <= len <= 2147483640.
Hypothesis Hnul : get mem len = Some 0.

#[local] Instance text_length_roundtrip : TextLength len := Hlen.
#[local] Abbreviation gives := (safe False).
#[local] Abbreviation on := (on mem len opts).
#[local] Abbreviation at_pos := (at_pos mem len opts).
#[local] Abbreviation owns := (owns mem opts).
#[local] Abbreviation text_owner := (text_owner mem opts).
#[local] Abbreviation followed := (followed mem len).

Lemma Hend : len < zlen mem.
Proof. apply get_range in Hnul. lia. Qed.

(** ** Tokens *)

(** The first character of a value. *)
Definition starts (c : Z) : Prop :=
  (c <> 13 /\ c <> 10 /\ c <> " "%ch /\ c <> 9 /\ c <> "/"%ch) /\
  token_of c <> T_ARRAY_END /\ token_of c <> T_OBJECT_END /\ token_of c <> T_INVALID_TOKEN.

(** The last one of a value. *)
Definition ends (c : Z) : Prop := c <> 13 /\ c <> 10 /\ c <> " "%ch /\ c <> 9 /\ c <> "/"%ch.
Definition ends_in (text : list Z) : Prop := exists start c, text = start ++ [c] /\ ends c.

Definition closes (closing : Token) (c : Z) : Prop :=
  closing = T_ARRAY_END /\ c = "]"%ch \/ closing = T_OBJECT_END /\ c = "}"%ch.

(** The token behind the byte where the parser is, and some blanks. *)
Lemma token_behind {B} d blanks c q s (f : Token -> M B) (Q : B -> JSONParser -> Prop) :
  at_pos d q s -> 0 <= q -> lies mem (q + 1) (blanks ++ [c]) -> Forall blank blanks -> q + 1 + zlen blanks < len ->
  (c <> 13 /\ c <> 10 /\ c <> " "%ch /\ c <> 9 /\ c <> "/"%ch) ->
  (forall s', at_pos d (q + 1 + zlen blanks) s' -> gives (f (token_of c)) s' Q) ->
  gives (NextChar ;; token ← GetNextToken; f token) s Q.
Proof.
  intros Hs Hq Hl Hb Hn Hc Hf. pose proof Hs as (Ho & Hpos & _). pose proof (zlen_nonneg blanks). apply safe_then.
  eapply safe_NextChar; [exact Ho|lia|]. apply safe_then. pose proof (at_moved d q 1 s Hs ltac:(lia)) as Hs1.
  eapply safe_impl; [apply (next_token_reads mem len opts Hlen Hend d blanks c (q + 1)); (done || lia)|].
  intros ? s2 [Hs2 ->]. rewrite (proj2 (Z.ltb_lt _ _)) by lia. by apply Hf.
Qed.

Lemma separator_more d closing adjust blanks c q s (Q : option Token -> JSONParser -> Prop) :
  at_pos d q s -> 0 <= q -> lies mem (q + 1) (","%ch :: blanks ++ [c]) -> Forall blank blanks -> q + 2 + zlen blanks < len ->
  starts c -> closing = T_ARRAY_END \/ closing = T_OBJECT_END ->
  (forall s', at_pos d (q + 2 + zlen blanks) s' -> Q (Some (token_of c)) s') -> gives (separator closing adjust) s Q.
Proof.
  intros Hs Hq Hl Hb Hn (Hc & Ha & Ho & _) Hclosing HQ. pose proof (zlen_nonneg blanks). unfold separator.
  eapply (token_behind d [] ","%ch); [exact Hs|done| |constructor|change (zlen (@nil Z)) with 0; lia|done|].
  { cbn [app]. apply (lies_prefix mem (q + 1) [] ","%ch (blanks ++ [c])). exact Hl. }
  change (zlen (@nil Z)) with 0. rewrite Z.add_0_r. intros s1 Hs1. change (token_of ","%ch) with T_LIST_SEPARATOR.
  rewrite decide_True by done. apply lies_tail in Hl.
  eapply (token_behind d blanks c); [exact Hs1|lia|exact Hl|done|lia|done|].
  intros s2 Hs2. apply safe_then, safe_get_state. rewrite bool_decide_eq_false_2 by (destruct Hclosing as [-> | ->]; done).
  cbn [andb]. apply safe_mret, HQ. by replace (q + 2 + zlen blanks) with (q + 1 + 1 + zlen blanks) by lia.
Qed.

Lemma separator_end d closing adjust blanks c q s (Q : option Token -> JSONParser -> Prop) :
  at_pos d q s -> 0 <= q -> lies mem (q + 1) (blanks ++ [c]) -> Forall blank blanks -> q + 1 + zlen blanks < len -> closes closing c ->
  (forall s', at_pos d (q + 1 + zlen blanks) s' -> Q (Some closing) s') -> gives (separator closing adjust) s Q.
Proof.
  intros Hs Hq Hl Hb Hn Hc HQ. unfold separator.
  eapply (token_behind d blanks c); [exact Hs|done|exact Hl|done|done|by destruct Hc as [[_ ->]|[_ ->]]|].
  intros s1 Hs1. assert (Et : token_of c = closing) by (by destruct Hc as [[-> ->]|[-> ->]]). rewrite Et.
  rewrite decide_False by (destruct Hc as [[-> _]|[-> _]]; done). rewrite decide_False by auto. apply safe_mret. by apply HQ.
Qed.

Lemma with_depth_reads d p q (P : option (Value double) -> Prop) body s :
  at_pos d p s -> 0 <= d < 99 ->
  (forall s', at_pos (d + 1) p s' -> gives body s' (fun out s'' => P out /\ at_pos (d + 1) q s'')) ->
  gives (with_depth body) s (fun out s' => P out /\ at_pos d q s').
Proof.
  intros Hs Hd Hbody. pose proof Hs as ((Hm & He & Ho & Hdepth) & Hpos & Hi). apply safe_then, safe_modify, safe_then, safe_get_state.
  cbn. rewrite Hdepth, s32_id by lia. change (Z.of_nat kStackMaxDepth) with 100. apply safe_then, safe_check; [lia|].
  rewrite (proj2 (Z.leb_gt 100 (d + 1))) by lia. set (s1 := s <| stack_depth_ := d + 1 |>). assert (Hs1 : at_pos (d + 1) p s1) by done.
  apply safe_then. eapply safe_impl; [by apply Hbody|]. intros out s2 [Hout ((Hm2 & He2 & Ho2 & Hd2) & Hpos2 & Hi2)].
  apply safe_then, safe_modify, safe_mret. split; [done|]. split; [|done]. split; [done|]. split; [done|]. split; [done|]. cbn.
  rewrite Hd2, s32_id by lia. lia.
Qed.

(** ** What is to be shown of the text of a value *)
Definition text_read (levels : nat) (v : Value double) (text : list Z) : Prop :=
  text <> [] /\ starts (at_ text 0) /\ ends_in text /\
  forall d p s, d + Z.of_nat levels = 99 -> 0 <= d -> lies mem p text -> followed (p + zlen text) -> p + zlen text <= len ->
    at_pos d p s ->
    gives (ParseToken (S (S levels)) (token_of (at_ text 0))) s (fun out s' => owns out v /\ at_pos d (p + zlen text - 1) s').

Lemma text_read_zlen levels v text : text_read levels v text -> exists c r, text = c :: r /\ starts c /\ zlen text = 1 + zlen r.
Proof.
  intros (Hne & Hs & _). destruct text as [|c r]; [done|]. exists c, r. split; [done|]. split; [exact Hs|]. unfold zlen. cbn. lia.
Qed.

(** ** Values without others inside *)
Lemma literal_read levels c r (v : Value double) :
  starts c -> ends_in (c :: r) -> token_of c = T_BOOL_TRUE \/ token_of c = T_BOOL_FALSE \/ token_of c = T_NULL ->
  (forall d p s, lies mem p (c :: r) -> p + zlen (c :: r) <= len -> at_pos d p s ->
     gives ConsumeLiteral s (fun out s' => out = Some v /\ at_pos d (p + zlen (c :: r) - 1) s')) ->
  DeepCopy text_owner v = Ok v -> text_read levels v (c :: r).
Proof.
  intros Hc He Ht Hread Hcopy. split; [done|]. split; [done|]. split; [done|]. intros d p s _ _ Hl _ Hn Hs. change (at_ (c :: r) 0) with c.
  assert (E : ParseToken (S (S levels)) (token_of c) = ConsumeLiteral) by (destruct Ht as [-> |[-> | ->]]; reflexivity). rewrite E.
  eapply safe_impl; [by apply Hread|]. intros ? s' [-> Hs']. split; [|done]. by exists v.
Qed.

Ltac read_literal :=
  let Hg := fresh in let Ho := fresh in let Hpos := fresh in
  intros d p s Hl Hn Hs; pose proof Hs as (Ho & Hpos & _); pose proof (lies_get _ _ _ _ Hl) as Hg;
  apply safe_then; (eapply safe_get_here; [exact Ho|exact Hpos|exact Hg|]); apply (literal_reads mem len opts Hlen); (done || lia).

Lemma leaf_literals levels :
  text_read levels NullValue (str "null") /\ text_read levels (BooleanValue true) (str "true") /\
  text_read levels (BooleanValue false) (str "false").
Proof.
  assert (He : forall start c, ends c -> ends_in (start ++ [c])) by (intros start c Hc; by exists start, c).
  split; [|split]; (apply literal_read; [by repeat split| |auto| |done]); try read_literal.
  - by apply (He (str "nul") "l"%ch).
  - by apply (He (str "tru") "e"%ch).
  - by apply (He (str "fals") "e"%ch).
Qed.

Lemma number_starts n : json_numeral n -> exists c r, show n = c :: r /\ starts c /\ token_of c = T_NUMBER.
Proof.
  clear w Hescape Hpreserve.
  intros (((Hne & Hw) & _) & _). unfold show. destruct (negative n); cbn [app]; [by do 2 eexists|].
  destruct (whole n) as [|c l]; [done|]. apply Forall_cons_1 in Hw as [Hc _]. cbn [app]. do 2 eexists. split; [done|].
  assert (Hr : 48 <= c < 58) by (unfold IsAsciiDigit in Hc; lia).
  assert (Et : token_of c = T_NUMBER).
  { unfold token_of. repeat (rewrite (proj2 (Z.eqb_neq c _)) by lia). by rewrite (proj2 (Z.leb_le _ c)), (proj2 (Z.leb_le c _)) by lia. }
  split; [|done]. unfold starts. rewrite Et. split; [lia|done].
Qed.

Lemma digits_end l start : digits l -> ends_in (start ++ l).
Proof.
  intros [Hne Hl]. destruct l as [|c l _] using rev_ind; [done|]. exists (start ++ l), c. split; [by rewrite app_assoc|].
  apply Forall_app in Hl as [_ Hl]. apply Forall_cons_1 in Hl as [Hc _]. unfold IsAsciiDigit in Hc. unfold ends. lia.
Qed.

Lemma digits_end_behind l start middle : digits l -> ends_in (start ++ middle ++ l).
Proof. rewrite app_assoc. apply digits_end. Qed.

Lemma number_ends n : json_numeral n -> ends_in (show n).
Proof.
  intros ((Hw & _) & Hd & Hp). unfold show, show_decimals, show_power. destruct (power n) as [[m e]|].
  - rewrite !app_assoc. apply (digits_end_behind e _ ["e"%ch; if m then "-"%ch else "+"%ch]). by apply (Hp m e).
  - rewrite app_nil_r. destruct (decimals n) as [f|].
    + rewrite app_assoc. apply (digits_end_behind f _ ["."%ch]). by apply Hd.
    + rewrite app_nil_r. by apply digits_end.
Qed.

Lemma number_read levels n v :
  json_numeral n -> number_value (double := double) (show n) = Some v -> DeepCopy text_owner v = Ok v -> text_read levels v (show n).
Proof.
  intros Hj Hv Hcopy. destruct (number_starts n Hj) as (c & r & Es & Hc & Et). split; [by rewrite Es|]. split; [by rewrite Es|]. split; [by apply number_ends|].
  intros d p s _ _ Hl Hfol Hn Hs. assert (E : ParseToken (S (S levels)) (token_of (at_ (show n) 0)) = ConsumeNumber).
  { rewrite Es. change (at_ (c :: r) 0) with c. by rewrite Et. }
  rewrite E. eapply safe_impl; [by apply (ConsumeNumber_reads mem len opts Hlen Hend Hnul d n p)|].
  intros ? s' [-> Hs']. split; [|done]. rewrite Hv. by exists v.
Qed.

Lemma AppendQuotedString_Ok cps :
  Forall writable cps -> zlen (flat_map enc8 cps) <= 2147483642 ->
  AppendQuotedString (flat_map enc8 cps) = Ok (JsonDoubleQuote (flat_map enc16 cps) true).
Proof.
  intros Hcps Hn. assert (Hsc : Forall scalar cps) by (eapply Forall_impl; [exact Hcps|]; intros c [[Hc _] _]; exact Hc).
  assert (Hb : Forall is_byte (flat_map enc8 cps)) by exact (text_units UTF8 cps Hsc).
  destruct (convert_spec (enc := enc8) (enc' := enc16) (read := ReadUnicodeCharacter8) (write := WriteUnicodeCharacter16) _ Hb Hn)
    as (cps' & ok & E & _ & _ & Hvalid).
  destruct (Hvalid cps Hsc eq_refl) as [-> Et]. unfold AppendQuotedString, UTF8ToUTF16. rewrite E. cbn. by rewrite Et.
Qed.

Lemma string_read levels cps :
  Forall writable cps -> zlen (flat_map enc8 cps) <= 2147483642 ->
  text_read levels (StringValue (flat_map enc8 cps)) (JsonDoubleQuote (flat_map enc16 cps) true).
Proof.
  intros Hcps Hz. split; [done|]. split; [by repeat split|].
  split; [exists (34 :: quoted cps), 34; split; [done|by repeat split]|]. intros d p s _ _ Hl _ Hn Hs. rewrite zlen_quote in *.
  change (ParseToken (S (S levels)) _) with (ConsumeString (double := double)).
  replace (p + (zlen (quoted cps) + 2) - 1) with (p + zlen (quoted cps) + 1) by lia.
  apply (ConsumeString_reads mem len opts Hlen Hend Hws d cps p); (done || lia).
Qed.

(** ** Lists *)
Definition item_text (levels : nat) (build : Value double -> res (list Z)) (v : Value double) : Prop :=
  is_binary v = false /\ exists text, build v = Ok text /\ text_read levels v text.

Definition sep : list Z := pretty w (str " ").

Lemma sep_blank : Forall blank sep.
Proof. unfold sep, pretty. destruct (pretty_print_ w); [|done]. by repeat constructor. Qed.

(** What follows the first element. *)
Fixpoint more_items (texts : list (list Z)) : list Z :=
  match texts with [] => [] | text :: texts => ","%ch :: sep ++ text ++ more_items texts end.

Definition items_text (texts : list (list Z)) : list Z :=
  match texts with [] => [] | text :: texts => text ++ more_items texts end.

Lemma build_more levels build i items :
  Forall (item_text levels build) items ->
  exists texts, build_list w build (S i) items = Ok (more_items texts) /\ Forall2 (text_read levels) items texts.
Proof.
  intros Hitems. revert i. induction Hitems as [|v items (Hbin & text & Ev & Hv) _ IH]; intros i; [by exists []|].
  destruct (IH (S i)) as (texts & E & Hall). exists (text :: texts). split; [|by constructor].
  cbn [build_list]. rewrite Hbin, andb_false_r, Ev. cbn. rewrite E. done.
Qed.

Lemma build_items levels build items :
  Forall (item_text levels build) items ->
  exists texts, build_list w build 0 items = Ok (items_text texts) /\ Forall2 (text_read levels) items texts.
Proof.
  intros Hitems. destruct Hitems as [|v items (Hbin & text & Ev & Hv) Hitems]; [by exists []|].
  destruct (build_more levels build 0 items Hitems) as (texts & E & Hall). exists (text :: texts). split; [|by constructor].
  cbn [build_list]. rewrite Hbin, andb_false_r, Ev. cbn. by rewrite E.
Qed.

(** Behind an element comes a delimiter, or white space and the bracket. *)
Lemma followed_behind q blanks c r :
  lies mem q (blanks ++ c :: r) -> Forall blank blanks -> delimiter c -> q + zlen blanks <= len -> followed q.
Proof. intros Hl Hb Hc Hn. exists blanks, c. split; [by eapply lies_prefix|]. auto. Qed.

Lemma more_items_followed q texts : 
  lies mem q (more_items texts ++ sep ++ str "]") -> q + zlen (more_items texts) + zlen sep <= len -> followed q.
Proof.
  intros Hl Hn. destruct texts as [|text texts]; cbn [more_items app] in *.
  - apply (followed_behind q sep "]"%ch []); [exact Hl|apply sep_blank|by right; left|]. change (zlen (@nil Z)) with 0 in Hn. lia.
  - pose proof (zlen_nonneg sep). pose proof (zlen_nonneg (more_items (text :: texts))) as Hz. cbn [more_items] in Hz.
    eapply (followed_behind q [] ","%ch); [exact Hl|constructor|by left|]. change (zlen (@nil Z)) with 0. lia.
Qed.

(** A copy of what was read is what was written. *)
Definition copies (v' v : Value double) : Prop := DeepCopy text_owner v' = Ok v.

Lemma more_items_zlen text texts :
  zlen (more_items (text :: texts)) = 1 + zlen sep + zlen text + zlen (more_items texts).
Proof. cbn [more_items]. rewrite app_comm_cons, !zlen_app. replace (zlen (","%ch :: sep)) with (1 + zlen sep) by (unfold zlen; cbn; lia). lia. Qed.

(** The state behind an element, and what the loop then does. *)
Definition list_goes_on (levels fuel : nat) (acc : list (Value double)) : M (option (Value double)) :=
  token ← separator T_ARRAY_END 1;
  match token with
  | None => mret None
  | Some token => list_loop (ParseToken (S (S levels))) fuel token acc
  end.

Definition list_read (d q : Z) (acc items : list (Value double)) (out : option (Value double)) (s : JSONParser) : Prop :=
  exists items', out = Some (ListValue (acc ++ items')) /\ Forall2 copies items' items /\ at_pos d q s.

(** An element, with the parser at its first character. *)
Lemma list_item_reads levels d v text fuel acc p s (Q : option (Value double) -> JSONParser -> Prop) :
  text_read levels v text -> d + Z.of_nat levels = 99 -> 0 <= d -> lies mem p text -> followed (p + zlen text) -> p + zlen text <= len ->
  at_pos d p s -> 
  (forall v' s', copies v' v -> at_pos d (p + zlen text - 1) s' -> gives (list_goes_on levels fuel (acc ++ [v'])) s' Q) ->
  gives (list_loop (ParseToken (S (S levels))) (S fuel) (token_of (at_ text 0)) acc) s Q.
Proof.
  intros (Hne & (Hst & Ha & Ho & _) & _ & Hread) Hd Hd0 Hl Hfol Hn Hs HQ. cbn [list_loop]. rewrite decide_False by done. apply safe_then.
  eapply safe_impl; [by apply (Hread d p)|]. intros ? s1 [(v' & -> & Hv') Hs1]. by apply HQ.
Qed.

Lemma list_rest_reads levels d items texts fuel acc q s :
  Forall2 (text_read levels) items texts -> d + Z.of_nat levels = 99 -> 0 <= d -> at_pos d q s -> 0 <= q ->
  lies mem (q + 1) (more_items texts ++ sep ++ str "]") -> q + 1 + zlen (more_items texts) + zlen sep < len -> (length items < fuel)%nat ->
  gives (list_goes_on levels fuel acc) s (list_read d (q + 1 + zlen (more_items texts) + zlen sep) acc items).
Proof.
  intros Hall Hd Hd0. revert fuel acc q s. induction Hall as [|v text items texts Hv Hall IH]; intros [|fuel] acc q s Hs Hq Hl Hn Hf; try (cbn in Hf; lia).
  - cbn [more_items app] in *. change (zlen (@nil Z)) with 0 in *. rewrite Z.add_0_r in *. apply safe_then.
    eapply (separator_end d _ _ sep "]"%ch); [exact Hs|done|exact Hl|apply sep_blank|lia|by left|]. intros s1 Hs1.
    cbn [list_loop]. rewrite decide_True by done. apply safe_mret. exists []. by rewrite app_nil_r.
  - destruct (text_read_zlen _ _ _ Hv) as (c & r & Et & Hc & Ez). rewrite more_items_zlen in *. pose proof (zlen_nonneg sep). pose proof (zlen_nonneg r).
    pose proof (zlen_nonneg (more_items texts)). cbn [more_items app] in Hl. rewrite <- !app_assoc in Hl.
    apply safe_then. eapply (separator_more d _ _ sep c); [exact Hs|done| |apply sep_blank|lia|done|by left|].
    { rewrite Et in Hl. apply (lies_prefix mem (q + 1) (","%ch :: sep) c (r ++ more_items texts ++ sep ++ str "]")). exact Hl. }
    intros s1 Hs1. apply lies_tail, lies_app in Hl as [_ Hl]. replace (q + 1 + 1 + zlen sep) with (q + 2 + zlen sep) in Hl by lia.
    pose proof Hl as Hrest. apply lies_app in Hl as [Htext _]. apply lies_app in Hrest as [_ Hrest].
    replace (token_of c) with (token_of (at_ text 0)) by (by rewrite Et).
    eapply (list_item_reads levels d v text); [exact Hv|done|done|exact Htext| |lia|exact Hs1|].
    { eapply more_items_followed; [exact Hrest|lia]. }
    intros v' s2 Hv' Hs2. cbn in Hf. eapply safe_impl; [apply (IH fuel (acc ++ [v']) (q + 2 + zlen sep + zlen text - 1)); [exact Hs2|lia| |lia|lia]|].
    { by replace (q + 2 + zlen sep + zlen text - 1 + 1) with (q + 2 + zlen sep + zlen text) by lia. }
    intros out s3 (items' & -> & Hcop & Hs3). exists (v' :: items'). rewrite <- app_assoc. split; [done|]. split; [by constructor|].
    eapply at_pos_eq; [exact Hs3|]. lia.
Qed.

Lemma copy_list_copies items' items : Forall2 copies items' items -> copy_list (DeepCopy text_owner) items' = Ok items.
Proof. induction 1 as [|v' v items' items Hv _ IH]; [done|]. cbn [copy_list]. rewrite Hv. cbn. by rewrite IH. Qed.

Lemma more_items_length levels items texts : Forall2 (text_read levels) items texts -> Z.of_nat (length items) <= zlen (more_items texts).
Proof.
  induction 1 as [|v text items texts Hv _ IH]; [done|]. rewrite more_items_zlen. cbn [length].
  pose proof (zlen_nonneg sep). pose proof (zlen_nonneg text). lia.
Qed.

Lemma list_text_read levels items texts :
  Forall2 (text_read levels) items texts ->
  text_read (S levels) (ListValue items) (str "[" ++ sep ++ items_text texts ++ sep ++ str "]").
Proof.
  intros Hall. split; [done|]. split; [by repeat split|].
  split; [exists (str "[" ++ sep ++ items_text texts ++ sep), "]"%ch; rewrite <- !app_assoc; split; [done|by repeat split]|]. intros d p s Hd Hd0 Hl _ Hn Hs. pose proof Hs as (Ho & Hpos & Hi).
  pose proof (lies_bounds _ _ _ Hl) as [Hp _].
  change (str "[" ++ ?l) with ("["%ch :: l) in *. set (rest := items_text texts ++ sep ++ str "]") in *.
  assert (Ez : zlen ("["%ch :: sep ++ rest) = 2 + zlen sep + zlen (items_text texts) + zlen sep).
  { unfold rest. rewrite app_comm_cons, !zlen_app. change (zlen (str "]")) with 1. replace (zlen ("["%ch :: sep)) with (1 + zlen sep) by (unfold zlen; cbn; lia). lia. }
  rewrite Ez in *. pose proof (zlen_nonneg sep). pose proof (zlen_nonneg (items_text texts)).
  change (ParseToken (S (S (S levels))) _) with (ConsumeList (ParseToken (double := double) (S (S levels)))).
  apply safe_then. eapply safe_get_here; [exact Ho|exact Hpos|by eapply lies_get|]. cbn [Z.eqb Pos.eqb negb]. apply lies_tail in Hl.
  replace (p + (2 + zlen sep + zlen (items_text texts) + zlen sep) - 1) with (p + 1 + zlen sep + zlen (items_text texts) + zlen sep) by lia.
  apply (with_depth_reads d p); [done|lia|]. intros s1 Hs1. pose proof Hl as Hl'. apply lies_app in Hl' as [_ Hl'].
  assert (Hcopied : forall items', Forall2 copies items' items -> owns (Some (ListValue ([] ++ items'))) (ListValue items)).
  { intros items' Hcop. eexists. split; [reflexivity|]. cbn [DeepCopy app]. by rewrite (copy_list_copies items' items). }
  destruct Hall as [|v text items texts Hv Hall].
  - cbn [items_text app] in *. change (zlen (@nil Z)) with 0 in *. subst rest. rewrite app_assoc in Hl.
    eapply (token_behind (d + 1) (sep ++ sep) "]"%ch); [exact Hs1|done|exact Hl|apply Forall_app; split; apply sep_blank|rewrite zlen_app; lia|done|].
    rewrite zlen_app. intros s2 Hs2. apply safe_then, safe_get_state. cbn [list_loop]. rewrite decide_True by done. apply safe_mret.
    split; [by apply (Hcopied [])|]. by replace (p + 1 + zlen sep + 0 + zlen sep) with (p + 1 + (zlen sep + zlen sep)) by lia.
  - destruct (text_read_zlen _ _ _ Hv) as (c & r & Et & Hc & Ezt). cbn [items_text] in *. rewrite zlen_app in *. pose proof (zlen_nonneg r).
    pose proof (zlen_nonneg (more_items texts)). unfold rest in *. rewrite <- app_assoc in Hl, Hl'.
    eapply (token_behind (d + 1) sep c); [exact Hs1|done| |apply sep_blank|lia|apply Hc|].
    { rewrite Et in Hl. by eapply (lies_prefix mem (p + 1) sep c). }
    intros s2 Hs2. apply safe_then, safe_get_state. erewrite bytes_left_spec by exact Hs2.
    pose proof Hl' as Hrest. apply lies_app in Hl' as [Htext _]. apply lies_app in Hrest as [_ Hrest].
    replace (token_of c) with (token_of (at_ text 0)) by (by rewrite Et).
    eapply (list_item_reads levels (d + 1) v text); [exact Hv|lia|lia|exact Htext| |lia|exact Hs2|].
    { eapply more_items_followed; [exact Hrest|lia]. }
    intros v' s3 Hv' Hs3. pose proof (more_items_length levels items texts Hall).
    eapply safe_impl; [apply (list_rest_reads levels (d + 1) items texts _ _ (p + 1 + zlen sep + zlen text - 1)); [exact Hall|lia|lia|exact Hs3|lia| |lia|]|].
    { by replace (p + 1 + zlen sep + zlen text - 1 + 1) with (p + 1 + zlen sep + zlen text) by lia. }
    { lia. }
    intros out s4 (items' & -> & Hcop & Hs4). split; [apply (Hcopied (v' :: items')); by constructor|].
    eapply at_pos_eq; [exact Hs4|]. lia.
Qed.

(** ** Dictionaries *)
Definition newline : list Z := pretty w kPrettyPrintLineEnding.
Definition indent (depth : nat) : list Z := pretty w (IndentLine (depth + 1)).
Definition closing_line (depth : nat) : list Z := pretty w (kPrettyPrintLineEnding ++ IndentLine depth).
Definition colon_blanks : list Z := if pretty_print_ w then str " " else [].

Lemma blanks_of depth : Forall blank newline /\ Forall blank (indent depth) /\ Forall blank (closing_line depth) /\ Forall blank colon_blanks.
Proof.
  assert (Hi : forall k, Forall blank (IndentLine k)).
  { intros k. unfold IndentLine. generalize (k * 3)%nat. intros n. induction n as [|n IH]; [constructor|]. constructor; [by left|done]. }
  unfold newline, indent, closing_line, colon_blanks, pretty. destruct (pretty_print_ w); [|done].
  split; [by repeat constructor; right|]. split; [apply Hi|]. split; [constructor; [by right|apply Hi]|]. by repeat constructor.
Qed.

(** The texts of a key and of its value. *)
Definition entry_read (levels : nat) (entry : list Z * Value double) (texts : list Z * list Z) : Prop :=
  (exists cps, Forall writable cps /\ zlen (flat_map enc8 cps) <= 2147483642 /\ entry.1 = flat_map enc8 cps /\
     texts.1 = JsonDoubleQuote (flat_map enc16 cps) true) /\
  text_read levels entry.2 texts.2.

Definition pair_text (texts : list Z * list Z) : list Z := texts.1 ++ ":"%ch :: colon_blanks ++ texts.2.

Fixpoint more_entries (depth : nat) (texts : list (list Z * list Z)) : list Z :=
  match texts with
  | [] => []
  | text :: texts => ","%ch :: (newline ++ indent depth) ++ pair_text text ++ more_entries depth texts
  end.

Definition entries_text (depth : nat) (texts : list (list Z * list Z)) : list Z :=
  match texts with [] => [] | text :: texts => indent depth ++ pair_text text ++ more_entries depth texts end.

Definition written_entry (levels : nat) (build : Value double -> res (list Z)) (entry : list Z * Value double) : Prop :=
  written_text entry.1 /\ item_text levels build entry.2.

Lemma build_entry levels build entry :
  written_entry levels build entry ->
  is_binary entry.2 = false /\ exists texts, AppendQuotedString entry.1 = Ok texts.1 /\ build entry.2 = Ok texts.2 /\ entry_read levels entry texts.
Proof.
  intros [(cps & Hcps & Ek & Hz) (Hbin & text & Ev & Hv)]. split; [done|]. rewrite Ek in *.
  exists (JsonDoubleQuote (flat_map enc16 cps) true, text). split; [by apply AppendQuotedString_Ok|]. split; [done|].
  split; [|done]. by exists cps.
Qed.

Lemma colon_text : (if pretty_print_ w then str ": " else str ":") = ":"%ch :: colon_blanks.
Proof. unfold colon_blanks. by destruct (pretty_print_ w). Qed.

Lemma build_more_entries levels build depth entries :
  Forall (written_entry levels build) entries ->
  exists texts, build_dictionary w build depth false entries = Ok (more_entries depth texts) /\ Forall2 (entry_read levels) entries texts.
Proof.
  intros Hentries. induction Hentries as [|[k v] entries He _ IH]; [by exists []|].
  destruct IH as (texts & E & Hall). destruct (build_entry _ _ _ He) as (Hbin & text & Ek & Ev & Hread). cbn [fst snd] in *.
  exists (text :: texts). split; [|by constructor]. cbn [build_dictionary]. rewrite Hbin, andb_false_r, Ek. cbn [mbind res_bind]. rewrite Ev. cbn [mbind res_bind]. rewrite E. cbn [mbind res_bind].
  rewrite colon_text. cbn [more_entries]. unfold pair_text, newline, indent.
  rewrite <- !app_assoc. cbn [app]. by rewrite <- !app_assoc.
Qed.

Lemma build_entries levels build depth entries :
  Forall (written_entry levels build) entries ->
  exists texts, build_dictionary w build depth true entries = Ok (entries_text depth texts) /\ Forall2 (entry_read levels) entries texts.
Proof.
  intros Hentries. destruct Hentries as [|[k v] entries He Hentries]; [by exists []|].
  destruct (build_more_entries levels build depth entries Hentries) as (texts & E & Hall).
  destruct (build_entry _ _ _ He) as (Hbin & text & Ek & Ev & Hread). cbn [fst snd] in *.
  exists (text :: texts). split; [|by constructor]. cbn [build_dictionary]. rewrite Hbin, andb_false_r, Ek. cbn [mbind res_bind]. rewrite Ev. cbn [mbind res_bind]. rewrite E. cbn [mbind res_bind].
  rewrite colon_text. cbn [entries_text]. unfold pair_text, indent.
  rewrite <- !app_assoc. cbn [app]. by rewrite <- !app_assoc.
Qed.

Lemma more_entries_zlen depth text texts :
  zlen (more_entries depth (text :: texts)) = 1 + zlen (newline ++ indent depth) + zlen (pair_text text) + zlen (more_entries depth texts).
Proof.
  cbn [more_entries]. rewrite app_comm_cons, !zlen_app. replace (zlen (","%ch :: newline ++ indent depth)) with (1 + zlen (newline ++ indent depth)) by (unfold zlen; cbn; lia).
  rewrite zlen_app. lia.
Qed.

Lemma more_entries_followed q depth texts :
  lies mem q (more_entries depth texts ++ closing_line depth ++ str "}") -> q + zlen (more_entries depth texts) + zlen (closing_line depth) <= len ->
  followed q.
Proof.
  intros Hl Hn. destruct (blanks_of depth) as (_ & _ & Hb & _). destruct texts as [|text texts]; cbn [more_entries app] in *.
  - apply (followed_behind q (closing_line depth) "}"%ch []); [exact Hl|exact Hb|by right; right|]. change (zlen (@nil Z)) with 0 in Hn. lia.
  - pose proof (zlen_nonneg (closing_line depth)). pose proof (zlen_nonneg (more_entries depth (text :: texts))) as Hz. cbn [more_entries] in Hz.
    eapply (followed_behind q [] ","%ch); [exact Hl|constructor|by left|]. change (zlen (@nil Z)) with 0. lia.
Qed.

Definition dictionary_goes_on (levels fuel : nat) (acc : list (list Z * Value double)) : M (option (Value double)) :=
  token ← separator T_OBJECT_END 0;
  match token with
  | None => mret None
  | Some token => dictionary_loop (ParseToken (S (S levels))) fuel token acc
  end.

Lemma pair_zlen texts : zlen (pair_text texts) = zlen texts.1 + 1 + zlen colon_blanks + zlen texts.2.
Proof.
  unfold pair_text. rewrite zlen_app, app_comm_cons, zlen_app. replace (zlen (":"%ch :: colon_blanks)) with (1 + zlen colon_blanks) by (unfold zlen; cbn; lia). lia.
Qed.

(** An entry, with the parser at the quotes of its key. *)
Lemma entry_reads levels d key v texts fuel acc p s (Q : option (Value double) -> JSONParser -> Prop) :
  entry_read levels (key, v) texts -> d + Z.of_nat levels = 99 -> 0 <= d -> lies mem p (pair_text texts) ->
  followed (p + zlen (pair_text texts)) -> p + zlen (pair_text texts) <= len -> at_pos d p s ->
  (forall v' s', copies v' v -> at_pos d (p + zlen (pair_text texts) - 1) s' ->
     gives (dictionary_goes_on levels fuel (SetWithoutPathExpansion key v' acc)) s' Q) ->
  gives (dictionary_loop (ParseToken (S (S levels))) (S fuel) T_STRING acc) s Q.
Proof.
  intros [(cps & Hcps & Hz & Ekey & Equote) Hv] Hd Hd0 Hl Hfol Hn Hs HQ. cbn [fst snd] in *. rewrite pair_zlen in *. unfold pair_text in Hl.
  destruct (text_read_zlen _ _ _ Hv) as (c & r & Et & Hc & Ez). destruct Hv as (_ & _ & _ & Hread). pose proof (lies_bounds _ _ _ Hl) as [Hp _].
  destruct (blanks_of 0) as (_ & _ & _ & Hblank). pose proof (zlen_nonneg colon_blanks). pose proof (zlen_nonneg r). pose proof (zlen_nonneg (quoted cps)).
  pose proof (zlen_quote cps) as Hzq. rewrite Equote in *. set (z := zlen (JsonDoubleQuote (flat_map enc16 cps) true)) in *.
  apply lies_app in Hl as [Hkey Hl]. fold z in Hl.
  cbn [dictionary_loop]. rewrite decide_False by done. apply safe_then. unfold dictionary_pair. rewrite decide_False by auto.
  apply safe_then. eapply safe_impl; [apply (ConsumeStringRaw_reads mem len opts Hlen Hend Hws d cps p); (done || lia)|].
  intros ? s1 (b & -> & Hs1 & Hb).
  eapply (token_behind d [] ":"%ch); [exact Hs1|lia| |constructor|change (zlen (@nil Z)) with 0; lia|done|].
  { cbn [app]. replace (p + zlen (quoted cps) + 1 + 1) with (p + z) by lia. by apply (lies_prefix mem (p + z) [] ":"%ch (colon_blanks ++ texts.2)). }
  change (zlen (@nil Z)) with 0. intros s2 Hs2. change (token_of ":"%ch) with T_OBJECT_PAIR_SEPARATOR. rewrite decide_False by auto.
  apply lies_tail in Hl. pose proof Hl as Hvalue. apply lies_app in Hvalue as [_ Hvalue].
  eapply (token_behind d colon_blanks c); [exact Hs2|lia| |done|lia|apply Hc|].
  { replace (p + zlen (quoted cps) + 1 + 1 + 0 + 1) with (p + z + 1) by lia. rewrite Et in Hl. by eapply (lies_prefix mem). }
  intros s3 Hs3. replace (token_of c) with (token_of (at_ texts.2 0)) by (by rewrite Et). apply safe_then.
  eapply safe_impl; [apply (Hread d (p + z + 1 + zlen colon_blanks)); try done; [|lia|eapply at_pos_eq; [exact Hs3|lia]]|].
  { by replace (p + z + 1 + zlen colon_blanks + zlen texts.2) with (p + (z + 1 + zlen colon_blanks + zlen texts.2)) by lia. }
  intros ? s4 [(v' & -> & Hv') Hs4]. apply safe_then. eapply (AsString_reads mem len opts d); [apply Hs4|exact Hb|].
  apply safe_mret. rewrite <- Ekey. apply HQ; [done|]. eapply at_pos_eq; [exact Hs4|lia].
Qed.

Definition copies_entry (entry' entry : list Z * Value double) : Prop := entry'.1 = entry.1 /\ copies entry'.2 entry.2.

Definition dictionary_read (d q : Z) (acc entries : list (list Z * Value double)) (out : option (Value double)) (s : JSONParser) : Prop :=
  exists entries', out = Some (DictionaryValue (acc ++ entries')) /\ Forall2 copies_entry entries' entries /\ at_pos d q s.

Lemma pair_starts levels entry texts : entry_read levels entry texts -> exists r, pair_text texts = 34 :: r.
Proof. intros [(cps & _ & _ & _ & E) _]. unfold pair_text. rewrite E. by eexists. Qed.

Lemma quote_starts : starts 34.
Proof. by repeat split. Qed.

Lemma dictionary_rest_reads levels d depth entries texts fuel acc q s :
  Forall2 (entry_read levels) entries texts -> d + Z.of_nat levels = 99 -> 0 <= d -> at_pos d q s -> 0 <= q ->
  StronglySorted key_lt (keys acc ++ keys entries) ->
  lies mem (q + 1) (more_entries depth texts ++ closing_line depth ++ str "}") ->
  q + 1 + zlen (more_entries depth texts) + zlen (closing_line depth) < len -> (length entries < fuel)%nat ->
  gives (dictionary_goes_on levels fuel acc) s (dictionary_read d (q + 1 + zlen (more_entries depth texts) + zlen (closing_line depth)) acc entries).
Proof.
  intros Hall Hd Hd0. destruct (blanks_of depth) as (Hnl & Hind & Hclose & _).
  revert fuel acc q s. induction Hall as [|[key v] text entries texts He Hall IH]; intros [|fuel] acc q s Hs Hq Hord Hl Hn Hf; try (cbn in Hf; lia).
  - cbn [more_entries app] in *. change (zlen (@nil Z)) with 0 in *. rewrite Z.add_0_r in *. apply safe_then.
    eapply (separator_end d _ _ (closing_line depth) "}"%ch); [exact Hs|done|exact Hl|done|lia|by right|]. intros s1 Hs1.
    cbn [dictionary_loop]. rewrite decide_True by done. apply safe_mret. exists []. by rewrite app_nil_r.
  - destruct (pair_starts _ _ _ He) as [r Et]. rewrite more_entries_zlen in *. set (blanks := newline ++ indent depth) in *.
    assert (Hblanks : Forall blank blanks) by (by apply Forall_app). pose proof (zlen_nonneg blanks). pose proof (zlen_nonneg (pair_text text)).
    pose proof (zlen_nonneg (more_entries depth texts)). pose proof (zlen_nonneg (closing_line depth)).
    assert (Hz : 1 <= zlen (pair_text text)) by (rewrite Et; unfold zlen; cbn; lia).
    cbn [more_entries app] in Hl. fold blanks in Hl. rewrite <- !app_assoc in Hl.
    apply safe_then. eapply (separator_more d _ _ blanks 34); [exact Hs|done| |done|lia|apply quote_starts|by right|].
    { rewrite Et in Hl. apply (lies_prefix mem (q + 1) (","%ch :: blanks) 34 (r ++ more_entries depth texts ++ closing_line depth ++ str "}")). exact Hl. }
    intros s1 Hs1. change (token_of 34) with T_STRING. apply lies_tail, lies_app in Hl as [_ Hl].
    replace (q + 1 + 1 + zlen blanks) with (q + 2 + zlen blanks) in Hl by lia.
    pose proof Hl as Hrest. apply lies_app in Hl as [Htext _]. apply lies_app in Hrest as [_ Hrest].
    eapply (entry_reads levels d key v text); [exact He|done|done|exact Htext| |lia|exact Hs1|].
    { eapply more_entries_followed; [exact Hrest|lia]. }
    intros v' s2 Hv' Hs2. destruct (set_next key v' acc (keys entries) Hord) as [-> Hord']. cbn in Hf.
    eapply safe_impl; [apply (IH fuel (acc ++ [(key, v')]) (q + 2 + zlen blanks + zlen (pair_text text) - 1)); [exact Hs2|lia|exact Hord'| |lia|lia]|].
    { by replace (q + 2 + zlen blanks + zlen (pair_text text) - 1 + 1) with (q + 2 + zlen blanks + zlen (pair_text text)) by lia. }
    intros out s3 (entries' & -> & Hcop & Hs3). exists ((key, v') :: entries'). rewrite <- app_assoc. split; [done|]. split; [by constructor|].
    eapply at_pos_eq; [exact Hs3|]. lia.
Qed.

Lemma copy_dictionary_copies entries' entries acc :
  Forall2 copies_entry entries' entries -> StronglySorted key_lt (keys acc ++ keys entries) ->
  copy_dictionary (DeepCopy text_owner) entries' acc = Ok (acc ++ entries).
Proof.
  intros Hall. revert acc. induction Hall as [|[k' v'] [k v] entries' entries [Ek Hv] _ IH]; intros acc Hord; [by rewrite app_nil_r|].
  cbn [fst snd] in *. subst k'. cbn [copy_dictionary]. rewrite Hv. cbn. destruct (set_next k v acc (keys entries) Hord) as [-> Hord'].
  rewrite IH by done. by rewrite <- app_assoc.
Qed.

Lemma more_entries_length levels depth entries texts :
  Forall2 (entry_read levels) entries texts -> Z.of_nat (length entries) <= zlen (more_entries depth texts).
Proof.
  induction 1 as [|e text entries texts He _ IH]; [done|]. rewrite more_entries_zlen. cbn [length].
  pose proof (zlen_nonneg (newline ++ indent depth)). pose proof (zlen_nonneg (pair_text text)). lia.
Qed.

Lemma dictionary_text_read levels depth entries texts :
  Forall2 (entry_read levels) entries texts -> ordered entries ->
  text_read (S levels) (DictionaryValue entries) (str "{" ++ newline ++ entries_text depth texts ++ closing_line depth ++ str "}").
Proof.
  intros Hall Hord. destruct (blanks_of depth) as (Hnl & Hind & Hclose & _). split; [done|]. split; [by repeat split|].
  split; [exists (str "{" ++ newline ++ entries_text depth texts ++ closing_line depth), "}"%ch; rewrite <- !app_assoc; split; [done|by repeat split]|].
  intros d p s Hd Hd0 Hl _ Hn Hs. pose proof Hs as (Ho & Hpos & Hi).
  pose proof (lies_bounds _ _ _ Hl) as [Hp _].
  change (str "{" ++ ?l) with ("{"%ch :: l) in *. set (rest := entries_text depth texts ++ closing_line depth ++ str "}") in *.
  assert (Ez : zlen ("{"%ch :: newline ++ rest) = 2 + zlen newline + zlen (entries_text depth texts) + zlen (closing_line depth)).
  { unfold rest. rewrite app_comm_cons, !zlen_app. change (zlen (str "}")) with 1. replace (zlen ("{"%ch :: newline)) with (1 + zlen newline) by (unfold zlen; cbn; lia). lia. }
  rewrite Ez in *. pose proof (zlen_nonneg newline). pose proof (zlen_nonneg (entries_text depth texts)). pose proof (zlen_nonneg (closing_line depth)).
  change (ParseToken (S (S (S levels))) _) with (ConsumeDictionary (ParseToken (double := double) (S (S levels)))).
  apply safe_then. eapply safe_get_here; [exact Ho|exact Hpos|by eapply lies_get|]. cbn [Z.eqb Pos.eqb negb]. apply lies_tail in Hl.
  replace (p + (2 + zlen newline + zlen (entries_text depth texts) + zlen (closing_line depth)) - 1)
    with (p + 1 + zlen newline + zlen (entries_text depth texts) + zlen (closing_line depth)) by lia.
  apply (with_depth_reads d p); [done|lia|]. intros s1 Hs1. pose proof Hl as Hl'. apply lies_app in Hl' as [_ Hl'].
  assert (Hcopied : forall entries', Forall2 copies_entry entries' entries -> owns (Some (DictionaryValue ([] ++ entries'))) (DictionaryValue entries)).
  { intros entries' Hcop. eexists. split; [reflexivity|]. cbn [DeepCopy app]. by rewrite (copy_dictionary_copies entries' entries []). }
  destruct Hall as [|[key v] text entries texts He Hall].
  - cbn [entries_text app] in *. change (zlen (@nil Z)) with 0 in *. subst rest. rewrite app_assoc in Hl.
    eapply (token_behind (d + 1) (newline ++ closing_line depth) "}"%ch); [exact Hs1|done|exact Hl|by apply Forall_app|rewrite zlen_app; lia|done|].
    rewrite zlen_app. intros s2 Hs2. apply safe_then, safe_get_state. cbn [dictionary_loop]. rewrite decide_True by done. apply safe_mret.
    split; [by apply (Hcopied [])|]. eapply at_pos_eq; [exact Hs2|lia].
  - destruct (pair_starts _ _ _ He) as [r Et]. assert (Ezt : zlen (pair_text text) = 1 + zlen r) by (rewrite Et; unfold zlen; cbn; lia).
    cbn [entries_text] in *. rewrite !zlen_app in *. pose proof (zlen_nonneg r). pose proof (zlen_nonneg (indent depth)).
    pose proof (zlen_nonneg (more_entries depth texts)). unfold rest in *. rewrite <- !app_assoc in Hl, Hl'. rewrite app_assoc in Hl.
    eapply (token_behind (d + 1) (newline ++ indent depth) 34); [exact Hs1|done| |by apply Forall_app|rewrite zlen_app; lia|apply quote_starts|].
    { rewrite Et in Hl. by eapply (lies_prefix mem (p + 1) (newline ++ indent depth) 34). }
    rewrite zlen_app. intros s2 Hs2. apply safe_then, safe_get_state. erewrite bytes_left_spec by exact Hs2.
    apply lies_app in Hl' as [_ Hl']. pose proof Hl' as Hrest. apply lies_app in Hl' as [Htext _]. apply lies_app in Hrest as [_ Hrest].
    replace (p + 1 + zlen newline + zlen (indent depth)) with (p + 1 + (zlen newline + zlen (indent depth))) in * by lia.
    set (q := p + 1 + (zlen newline + zlen (indent depth))) in *.
    assert (Eq : q = p + 1 + zlen newline + zlen (indent depth)) by (unfold q; lia). clearbody q. change (token_of 34) with T_STRING.
    eapply (entry_reads levels (d + 1) key v text); [exact He|lia|lia|exact Htext| |lia|exact Hs2|].
    { eapply more_entries_followed; [exact Hrest|lia]. }
    intros v' s3 Hv' Hs3. pose proof (more_entries_length levels depth entries texts Hall). cbn [SetWithoutPathExpansion].
    eapply safe_impl; [apply (dictionary_rest_reads levels (d + 1) depth entries texts _ _ (q + zlen (pair_text text) - 1)); [exact Hall|lia|lia|exact Hs3|lia|exact Hord| |lia|]|].
    { by replace (q + zlen (pair_text text) - 1 + 1) with (q + zlen (pair_text text)) by lia. }
    { lia. }
    intros out s4 (entries' & -> & Hcop & Hs4). split; [apply (Hcopied ((key, v') :: entries')); by constructor|].
    eapply at_pos_eq; [exact Hs4|]. lia.
Qed.

(** ** Any value *)
Lemma written_reads levels depth v : written levels v -> item_text levels (BuildJSONString owner w depth) v.
Proof.
  revert depth v. induction levels as [|levels IH]; intros depth v Hv.
  all: destruct v as [|b|z|x|t|piece|buffer|entries|items]; try exact (False_ind _ Hv); (split; [done|]); cbn [BuildJSONString].
  all: try (destruct (leaf_literals 0) as (? & ? & ?); try destruct b; eexists; (split; [reflexivity|done])).
  all: try (destruct (leaf_literals (S levels)) as (? & ? & ?); try destruct b; eexists; (split; [reflexivity|done])).
  all: try (destruct (number_value_int (double := double) Hws z Hv) as (n & Hj & E & Env); exists (show n); rewrite E; split; [done|by apply number_read]).
  all: try (destruct Hv as [Hv Hden]; destruct (number_value_double Hws x Hv) as (n & Hj & E & Env); rewrite Hden in Env; exists (show n); unfold double_text; rewrite Hpreserve, E; split; [done|by apply number_read]).
  all: try (destruct Hv as (cps & Hcps & -> & Hz); eexists; unfold string_text; rewrite Hescape, AppendQuotedString_Ok by done; split; [reflexivity|by apply string_read]).
  - destruct Hv as [Hord Hentries]. destruct (build_entries levels (BuildJSONString owner w (depth + 1)) depth entries) as (texts & E & Hall).
    { eapply Forall_impl; [exact Hentries|]. intros entry [Hkey He]. split; [done|]. by apply IH. }
    rewrite E. cbn [mbind res_bind]. eexists. split; [reflexivity|]. by apply dictionary_text_read.
  - destruct (build_items levels (BuildJSONString owner w depth) items) as (texts & E & Hall).
    { eapply Forall_impl; [exact Hv|]. intros item Hi. by apply IH. }
    rewrite E. cbn [mbind res_bind]. eexists. split; [reflexivity|]. by apply list_text_read.
Qed.
End roundtrip.

(** ** The whole text *)

(** A copy of what the parser returns, which is the value that its caller
    sees. *)
Definition copy_of `{Build} {double} (r : Root double) : res (Value double) :=
  match r with
  | HiddenRoot json_ v => DeepCopy json_ v
  | PlainRoot v => DeepCopy [] v
  end.

Section whole.
Context `{Build} {double : Type} `{Doubles double} `{!DoubleText double}.
Hypothesis Hws : sane16 LocalIsWhitespace.
Context (json tail : list Z) (opts : Z).

Let text := json ++ tail.
Let mem := text ++ [0].
Let len := zlen text.
Hypothesis Hlen : len <= 2147483640.
Hypothesis Htail : Forall blank tail.

Lemma len_range : 0 <= len <= 2147483640.
Proof. split; [apply zlen_nonneg|done]. Qed.

#[local] Instance text_length_whole : TextLength len := len_range.

Lemma nul_behind : get mem len = Some 0.
Proof. apply get_app. Qed.

#[local] Abbreviation gives := (safe False).
#[local] Abbreviation at_pos := (at_pos mem len opts).

Lemma skip_byte_order_mark_reads c s :
  at_pos 0 0 s -> get mem 0 = Some c -> c <> 239 -> gives skip_byte_order_mark s (fun _ => at_pos 0 0).
Proof.
  intros Hs Hc Hne. pose proof Hs as (Ho & Hpos & _). unfold skip_byte_order_mark. apply safe_then, safe_get_state, safe_then.
  eapply safe_CanConsume; [exact Ho|]. rewrite Hpos. apply safe_then.
  destruct (0 + 3 <=? len); [|by apply safe_mret, safe_mret]. apply safe_then. eapply safe_get; [exact Ho|exact Hc|].
  rewrite (proj2 (Z.eqb_neq c 239) Hne). by apply safe_mret, safe_mret.
Qed.

(** Behind the value there are blanks only. *)
Lemma data_after_root_reads s :
  ends_in json -> at_pos 0 (zlen json - 1) s -> gives data_after_root s (fun after s' => after = false /\ exists q, at_pos 0 q s').
Proof.
  intros (start & c & Ej & Hc) Hs. pose proof len_range as Hl. pose proof (get_range _ _ _ nul_behind) as [_ Hend].
  assert (Ez : zlen json = zlen start + 1) by (rewrite Ej, zlen_app; unfold zlen; cbn; lia). pose proof (zlen_nonneg start). pose proof (zlen_nonneg tail).
  assert (Et : len = zlen json + zlen tail) by (unfold len, text; apply zlen_app).
  assert (Hmem : mem = start ++ [c] ++ tail ++ [0]) by (unfold mem, text; rewrite Ej; by rewrite <- !app_assoc).
  apply safe_then. eapply safe_impl; [apply (next_token_reads mem len opts Hl Hend 0 [] c (zlen json - 1)); [exact Hs|lia| |constructor|change (zlen (@nil Z)) with 0; lia|done]|].
  { replace (zlen json - 1) with (zlen start) by lia. rewrite Hmem. apply (lies_between start [c] (tail ++ [0])). }
  change (zlen (@nil Z)) with 0. rewrite Z.add_0_r. intros ? s1 [Hs1 ->]. rewrite (proj2 (Z.ltb_lt _ len)) by lia.
  rewrite decide_False by (unfold token_of; repeat case_if; done). pose proof Hs1 as (Ho & Hpos & _).
  apply safe_then. eapply safe_CanConsume; [exact Ho|]. rewrite Hpos, (proj2 (Z.leb_le _ len)) by lia. cbn [negb].
  apply safe_then. eapply safe_NextChar; [exact Ho|lia|]. pose proof (at_moved 0 _ 1 s1 Hs1 ltac:(lia)) as Hs2.
  apply safe_then. eapply safe_impl; [apply (next_token_reads mem len opts Hl Hend 0 tail 0 (zlen json - 1 + 1)); [exact Hs2|lia| |exact Htail|lia|lia]|].
  { replace (zlen json - 1 + 1) with (zlen (start ++ [c])) by (rewrite zlen_app; unfold zlen at 2; cbn; lia).
    rewrite Hmem, app_assoc. rewrite <- (app_nil_r (tail ++ [0])) at 1. apply (lies_between (start ++ [c]) (tail ++ [0]) []). }
  intros ? s3 [Hs3 ->]. rewrite (proj2 (Z.ltb_ge _ len)) by lia. apply safe_mret. rewrite bool_decide_eq_true_2 by done. eauto.
Qed.

Lemma wrap_root_reads s q (v' v : Value double) :
  at_pos 0 q s -> DeepCopy (text_owner mem opts) v' = Ok v -> gives (wrap_root v') s (fun r _ => copy_of r = Ok v).
Proof.
  intros ((Hm & _ & Hop & _) & _) Hv. apply safe_then, safe_get_state. rewrite Hop. unfold text_owner in Hv.
  destruct (has_option opts JSON_DETACHABLE_CHILDREN); [by apply safe_mret|].
  assert (Hstring : forall t, new_StringValue t = Ok v -> gives (copy ← lift (new_StringValue t); mret (PlainRoot copy)) s (fun r _ => copy_of r = Ok v)).
  { intros t Et. apply safe_then. unfold safe at 1, lift. rewrite Et. apply safe_mret. cbn. unfold new_StringValue in Et.
    destruct (IsStringUTF8 t) as [ok|] eqn:Eu; [|done]. cbn in Et. destruct (check ok) as [u| |] eqn:Ec; try done. injection Et as <-.
    cbn. unfold new_StringValue. rewrite Eu. cbn. by rewrite Ec. }
  destruct v'; try (by apply safe_mret); try (apply safe_mret; cbn; by rewrite Hm).
  - by apply Hstring.
  - cbn [DeepCopy] in Hv |- *. rewrite Hm. destruct (as_string mem string_piece_) as [t|]; [|done]. by apply Hstring.
Qed.

Lemma json_followed : followed mem len (zlen json).
Proof.
  assert (Et : len = zlen json + zlen tail) by (unfold len, text; apply zlen_app).
  exists tail, 0. split; [|split; [exact Htail|split; lia]]. exists json, []. unfold mem, text. by rewrite app_nil_r, app_assoc.
Qed.

Lemma json_lies : lies mem 0 json.
Proof. exists [], (tail ++ [0]). split; [cbn [app]; symmetry; apply app_assoc|done]. Qed.

(** What the parser does with the first token of the text. *)
Lemma Parse_root (R : option (Value double) -> JSONParser -> Prop) (Q : option (Root double) -> JSONParser -> Prop) :
  json <> [] -> starts (at_ json 0) ->
  (forall s, at_pos 0 0 s -> gives (ParseToken (S kStackMaxDepth) (token_of (at_ json 0))) s R) ->
  (forall out s, R out s -> gives (match out with
     | None => mret None
     | Some root => after ← data_after_root;
         if after : bool then fail JSON_UNEXPECTED_DATA_AFTER_ROOT 1 else root ← wrap_root root; mret (Some root)
     end) s Q) ->
  gives (Parse (text ++ [0]) len) (new_JSONParser opts) Q.
Proof.
  intros Hne (Hstart & _ & _ & Hvalid) Hread Hrest. pose proof len_range as Hl. pose proof (get_range _ _ _ nul_behind) as [_ Hend].
  assert (Et : len = zlen json + zlen tail) by (unfold len, text; apply zlen_app). pose proof (zlen_nonneg tail).
  assert (Hcons : exists c r, json = c :: r) by (destruct json as [|c r]; [done|by exists c, r]). destruct Hcons as (c & r & Ej).
  assert (Hat : at_ json 0 = c) by (by rewrite Ej). rewrite Hat in *. pose proof json_lies as Hjson.
  assert (Hz : zlen json = 1 + zlen r) by (rewrite Ej; unfold zlen; cbn; lia). pose proof (zlen_nonneg r).
  assert (Hc : get mem 0 = Some c) by (rewrite Ej in Hjson; by apply lies_get in Hjson).
  unfold Parse. apply safe_then, safe_modify. set (s0 := start _ _ _). assert (Hs0 : at_pos 0 0 s0).
  { split; [|done]. split; [|done]. cbn. destruct (has_option opts _); [done|]. unfold len, zlen. rewrite Nat2Z.id. by rewrite take_app_length. }
  apply safe_then. eapply safe_impl; [apply (skip_byte_order_mark_reads c); [exact Hs0|exact Hc|by intros ->]|]. intros ? s1 Hs1.
  apply safe_then. unfold ParseNextToken. apply safe_then.
  eapply safe_impl; [apply (next_token_reads mem len opts Hl Hend 0 [] c 0); [exact Hs1|done| |constructor|change (zlen (@nil Z)) with 0; lia|done]|].
  { apply (lies_prefix mem 0 [] c r). cbn [app]. by rewrite <- Ej. }
  change (zlen (@nil Z)) with 0. rewrite Z.add_0_r. intros ? s2 [Hs2 ->]. rewrite (proj2 (Z.ltb_lt 0 len)) by lia.
  eapply safe_impl; [by apply Hread|]. apply Hrest.
Qed.

Lemma Parse_reads (v : Value double) :
  text_read mem len opts 99 v json ->
  gives (Parse (text ++ [0]) len) (new_JSONParser opts) (fun out _ => exists r, out = Some r /\ copy_of r = Ok v).
Proof.
  intros (Hne & Hstart & Hends & Hread). pose proof (zlen_nonneg tail).
  assert (Et : len = zlen json + zlen tail) by (unfold len, text; apply zlen_app).
  eapply Parse_root; [done|done|intros s Hs; apply (Hread 0 0); [done|done|exact json_lies|exact json_followed|lia|exact Hs]|].
  intros ? s3 [(v' & -> & Hv') Hs3]. apply safe_then. eapply safe_impl; [by apply data_after_root_reads|]. intros ? s4 [-> (q & Hs4)].
  apply safe_then. eapply safe_impl; [by eapply wrap_root_reads|]. intros root s5 Hroot. apply safe_mret. eauto.
Qed.

(** A number that is refused is no root. *)
Lemma Parse_refuses n :
  json = show n -> json_numeral n -> number_value (double := double) (show n) = None ->
  gives (Parse (text ++ [0]) len) (new_JSONParser opts) (fun out _ => out = None).
Proof.
  intros Ej Hj Hv. pose proof len_range as Hl. pose proof (zlen_nonneg tail). pose proof (get_range _ _ _ nul_behind) as [_ Hend].
  assert (Et : len = zlen json + zlen tail) by (unfold len, text; apply zlen_app).
  destruct (number_starts n Hj) as (c & r & Es & Hc & Etok). pose proof json_lies as Hjson. pose proof json_followed as Hfol. rewrite Ej in *.
  eapply (Parse_root (fun out _ => out = None)); rewrite ?Ej.
  - by rewrite Es.
  - by rewrite Es.
  - intros s Hs. assert (E : ParseToken (double := double) (S kStackMaxDepth) (token_of (at_ (show n) 0)) = ConsumeNumber).
    { rewrite Es. change (at_ (c :: r) 0) with c. by rewrite Etok. }
    rewrite E. eapply safe_impl; [apply (ConsumeNumber_reads mem len opts Hl Hend nul_behind 0 n 0); [done|done|done|lia|done]|].
    intros ? s' [-> _]. done.
  - intros ? s ->. by apply safe_mret.
Qed.
End whole.

Lemma Read_gives `{Build} {double} `{Doubles double} (data : list Z) length options (Q : option (Root double) -> Prop) :
  safe False (Parse data length) (new_JSONParser options) (fun out _ => Q out) -> exists out, Read data length options = Ok out /\ Q out.
Proof. unfold safe, Read. destruct (Parse data length (new_JSONParser options)) as [[out s]| |]; [|done|done]. eauto. Qed.

Lemma ending_blank write_options : Forall blank (if negb (Z.land write_options OPTIONS_PRETTY_PRINT =? 0) then kPrettyPrintLineEnding else []).
Proof. destruct (negb _); [repeat constructor; by right|constructor]. Qed.

(** C7. JSON that is written is read back: whatever the value (up to 99 levels
    deep, with strings that are text without null characters, integers,
    doubles that are finite and not denormal, lists, dictionaries), written in
    either layout, there is a text, and the parser, with any options, makes of
    it a value whose copy is the one that was written: the doubles are doubles,
    the keys are in order, nothing is lost in the escapes. Denormal doubles
    are written too, but not read back: [strtod] sets [ERANGE] for them, and
    the text of one is refused. *)
Theorem written_json_is_read_back `{Build} {double} `{Doubles double} `{!DoubleText double} write_options read_options :
  sane16 LocalIsWhitespace ->
  Z.land write_options OPTIONS_DO_NOT_ESCAPE = 0 -> Z.land write_options OPTIONS_OMIT_DOUBLE_TYPE_PRESERVATION = 0 ->
  (forall v : Value double, written 99 v ->
   exists text, WriteWithOptions [] v write_options = Ok text /\
    (zlen text <= 2147483640 ->
     exists root, Read (text ++ [0]) (zlen text) read_options = Ok (Some root) /\ copy_of root = Ok v)) /\
  (forall x : double, IsFinite x = true -> denormal x = true ->
   exists text, WriteWithOptions [] (DoubleValue x) write_options = Ok text /\
    (zlen text <= 2147483640 -> Read (double := double) (text ++ [0]) (zlen text) read_options = Ok None)).
Proof.
  intros Hws Hesc Hpres. unfold WriteWithOptions. rewrite Hesc, Hpres. cbn [Z.eqb negb].
  set (w := mkJSONWriter _ _ _ _). pose proof (ending_blank write_options) as Htail.
  set (tail := if negb (Z.land write_options OPTIONS_PRETTY_PRINT =? 0) then kPrettyPrintLineEnding else []) in *. split.
  - intros v Hv. destruct (written_reads Hws [] w eq_refl eq_refl [0] 0 0 ltac:(lia) eq_refl 99 0 v Hv) as (_ & json & E & _).
    exists (json ++ tail). rewrite E. split; [done|]. intros Hlen.
    destruct (written_reads Hws [] w eq_refl eq_refl ((json ++ tail) ++ [0]) (zlen (json ++ tail)) read_options
      (len_range json tail Hlen) (nul_behind json tail) 99 0 v Hv) as (_ & json' & E' & Hread).
    rewrite E in E'. injection E' as <-. destruct (Read_gives _ _ _ _ (Parse_reads json tail read_options Hlen Htail v Hread)) as (? & -> & r & -> & Hr).
    eauto.
  - intros x Hx Hden. destruct (number_value_double Hws x Hx) as (n & Hj & E & Env). rewrite Hden in Env. exists (show n ++ tail).
    cbn [BuildJSONString]. unfold double_text. cbn [omit_double_type_preservation_ w]. rewrite E. split; [done|]. intros Hlen.
    by destruct (Read_gives _ _ _ _ (Parse_refuses (show n) tail read_options Hlen Htail n eq_refl Hj Env)) as (? & -> & ->).
Qed.

(** The example instance keeps to what is asked of the library. *)
Lemma example_printed (x : example_double) :
  exists n, printed n /\ match x with Half => str ".5" | One => str "1" | Least => str "5e-324" end = show n.
Proof.
  assert (Hnone : forall (d : list Z), None = Some d -> digits d) by done.
  destruct x.
  - exists (mkNumeral false [] (Some ["5"%ch]) None). split; [|done]. split; [by left|]. split; [|done].
    intros f [= <-]. split; [done|by repeat constructor].
  - exists (mkNumeral false ["1"%ch] None None). split; [|done]. split; [|done]. right. split; [|by left]. split; [done|by repeat constructor].
  - exists (mkNumeral false ["5"%ch] None (Some (true, str "324"))). split; [|done]. split; [|split; [done|]].
    + right. split; [|by left]. split; [done|by repeat constructor].
    + intros m e [= <- <-]. split; [done|by repeat constructor].
Qed.

(** A text has one numeral. *)
Lemma example_read (x : example_double) n :
  printed n -> match x with Half => str ".5" | One => str "1" | Least => str "5e-324" end = show n ->
  @strtod _ example_doubles (show (completed n)) = (x, zlen (show (completed n)), match x with Least => true | _ => false end).
Proof.
  destruct n as [neg w f e]. intros (Hw & Hf & He) Ex. unfold show, show_decimals, show_power in Ex. cbn [negative whole decimals power] in *.
  destruct neg; [by destruct x|]. cbn [app] in Ex. destruct w as [|c w].
  - destruct f as [f|]; [|by destruct Hw as [[_ Hn]|[[Hn _] _]]]. destruct (Hf f eq_refl) as [Hne Hd]. destruct f as [|c f]; [done|].
    destruct x; [|done..]. cbn in Ex. injection Ex as <- Erest. symmetry in Erest. apply app_eq_nil in Erest as [-> Ee].
    destruct e as [[m e]|]; [done|]. vm_compute. reflexivity.
  - destruct Hw as [[Hn _]|[[_ Hd] _]]; [done|]. apply Forall_cons_1 in Hd as [Hd Hdw]. destruct x; cbn in Ex; injection Ex as <- Erest.
    + vm_compute in Hd. discriminate.
    + symmetry in Erest. apply app_eq_nil in Erest as [-> Erest]. apply app_eq_nil in Erest as [Ef Ee].
      destruct f as [f|]; [done|]. destruct e as [[m e]|]; [done|]. vm_compute. reflexivity.
    + destruct w as [|c w]; [|injection Erest as <- _; apply Forall_cons_1 in Hdw as [Hdw _]; vm_compute in Hdw; discriminate].
      destruct f as [f|]; [discriminate|]. destruct e as [[m e]|]; [|discriminate]. cbn in Erest. injection Erest as Em <-.
      destruct m; [|discriminate]. vm_compute. reflexivity.
Qed.

Definition example_text : @DoubleText example_double example_doubles :=
  Build_DoubleText example_double example_doubles (fun x => match x with Least => true | _ => false end)
    (fun x _ => example_printed x) (fun x n _ => example_read x n).

Definition example_value : Value example_double :=
  DictionaryValue [([10; 226; 130; 172], ListValue [IntegerValue (-7); DoubleValue Half; DoubleValue One; StringValue (str "x<y")]);
    (str "a", NullValue)].

Lemma example_locale : sane16 isspace.
Proof. split; [exact isspace_sane|]. compute_below 16%nat. Qed.

Lemma written_text_of cps :
  forallb (fun c => IsValidCharacter c && negb (c =? 0) && (0 <=? c)) cps = true -> zlen (flat_map enc8 cps) <= 2147483642 ->
  written_text (flat_map enc8 cps).
Proof.
  intros Hcps Hz. exists cps. split; [|done]. apply Forall_forall. intros c Hc. rewrite forallb_forall in Hcps.
  specialize (Hcps c (proj1 (list_elem_of_In _ _) Hc)). apply andb_true_iff in Hcps as [Hcps H0]. apply andb_true_iff in Hcps as [Hv Hn].
  split; [split; [|done]|lia]. unfold IsValidCharacter in Hv. unfold scalar. lia.
Qed.

Lemma example_written levels : @written example_double example_doubles example_text (S (S (S levels))) example_value.
Proof.
  split; [by repeat constructor|]. constructor; [|constructor; [|constructor]].
  - split; [exact (written_text_of [10; 8364] eq_refl ltac:(vm_compute; discriminate))|].
    constructor; [by split; cbn; lia|]. do 2 (constructor; [done|]). constructor; [|constructor].
    exact (written_text_of (str "x<y") eq_refl ltac:(vm_compute; discriminate)).
  - split; [exact (written_text_of (str "a") eq_refl ltac:(vm_compute; discriminate))|done].
Qed.

Lemma example_short :
  match @WriteWithOptions example_build example_double example_doubles [] example_value OPTIONS_PRETTY_PRINT with
  | Ok t => zlen t <=? 2147483640 | _ => false end = true.
Proof. vm_compute. reflexivity. Qed.

(** A dictionary with a key of a line feed and the euro sign, written pretty;
    and the least denormal. *)
Lemma written_json_is_read_back_witness :
  let _ := example_build in let _ := example_doubles in
  (exists text root, WriteWithOptions [] example_value OPTIONS_PRETTY_PRINT = Ok text /\
    Read (text ++ [0]) (zlen text) JSON_PARSE_RFC = Ok (Some root) /\ copy_of root = Ok example_value) /\
  WriteWithOptions [] (DoubleValue Least) 0 = Ok (str "5e-324") /\
  Read (double := example_double) (str "5e-324" ++ [0]) 6 JSON_PARSE_RFC = Ok None.
Proof.
  intros B D. split; [|split; [reflexivity|]].
  - destruct (proj1 (@written_json_is_read_back B example_double D example_text OPTIONS_PRETTY_PRINT JSON_PARSE_RFC
      example_locale eq_refl eq_refl) example_value (example_written 96)) as (text & E & Hread).
    pose proof example_short as Hz. unfold B, D in *. rewrite E in Hz. apply Z.leb_le in Hz. destruct (Hread Hz) as (root & Er & Ec).
    by exists text, root.
  - destruct (proj2 (@written_json_is_read_back B example_double D example_text 0 JSON_PARSE_RFC
      example_locale eq_refl eq_refl) Least eq_refl eq_refl) as (text & E & Hread).
    vm_compute in E. injection E as <-. apply Hread. vm_compute. discriminate.
Defined.
