(* ===== verification/JsonCases.v ===== *)
(** Texts that the JSON parser and writer treat in a way that their comments,
    or the format, do not say. *)
From S2P Require Import Prelude CArrays NumberConversions Utf Values JsonParser JsonWriter JsonLogic.

#[local] Existing Instance example_doubles.

(** The two builds, with checks and without. *)
Definition with_checks : Build := example_build.
Definition without_checks : Build := {| DCHECK_IS_ON := false; LocalIsWhitespace := isspace |}.

(** The text of an [Example], where ['] stands for a quotation mark. *)
Definition json (text : string) : list Z := map (fun c => if c =? "'"%ch then 34 else c) (str text).

Definition read (text : string) : res (Root example_double + JsonParseError * list Z) :=
  let _ := without_checks in ReadAndReturnError (json text) (zlen (json text)) JSON_PARSE_RFC.
Definition read_checked (text : string) : res (Root example_double + JsonParseError * list Z) :=
  let _ := with_checks in ReadAndReturnError (json text) (zlen (json text)) JSON_PARSE_RFC.

(** An escaped null character is dropped: the bytes are appended as a C string. *)
Lemma null_escape_is_dropped : read "'a\u0000b'" = Ok (inl (PlainRoot (StringValue (str "ab")))).
Proof. vm_compute. reflexivity. Qed.

(** A slash that starts no comment is skipped, between values and at the end. *)
Lemma stray_slash_is_skipped :
  read "[1/,2]/" = Ok (inl (HiddenRoot (json "[1/,2]/" ++ [0]) (ListValue [IntegerValue 1; IntegerValue 2]))).
Proof. vm_compute. reflexivity. Qed.

(** The lines behind a number are counted twice: this text has two. *)
Lemma lines_behind_numbers_count_twice :
  ReadAndReturnError (H := without_checks) (double := example_double) ["["%ch; "1"%ch; 10; "}"%ch] 4 JSON_PARSE_RFC =
    Ok (inr (JSON_SYNTAX_ERROR, str "Line: 3, column: 2, Syntax error.")).
Proof. vm_compute. reflexivity. Qed.

(** A sign passes for a hexadecimal digit: the check in [Append] fails, or
    bytes that are no UTF-8 are appended. *)
Lemma signs_in_escapes :
  read_checked "'\x-1'" = Failed /\ read "'\x-1'" = Ok (inl (PlainRoot (StringValue [255]))) /\
  read_checked "'\u-123'" = Failed /\ read "'\u-123'" = Ok (inl (PlainRoot (StringValue [255; 191; 187; 157]))).
Proof. repeat split; vm_compute; reflexivity. Qed.

(** A noncharacter in an escape fails the check of [StringValue]. *)
Lemma noncharacter_escape_fails : read_checked "'\uFFFF'" = Failed.
Proof. vm_compute. reflexivity. Qed.

(** A number that no double has gives no value and no error. (The library of
    the example has few doubles; for that of the program, this is [7e999].) *)
Lemma overflow_reports_nothing : read "7e999" = Ok (inr (JSON_NO_ERROR, [])).
Proof. vm_compute. reflexivity. Qed.

(** Detachable values are parsed where they are: what is behind the text
    closes its last string, and goes on with its last number. *)
Lemma bytes_behind_detachable_text :
  ReadAndReturnError (H := without_checks) (double := example_double) (json "'ab'") 3 JSON_DETACHABLE_CHILDREN =
    Ok (inl (PlainRoot (StringValue (str "ab")))) /\
  ReadAndReturnError (H := without_checks) (double := example_double) (json "1.5") 1 JSON_DETACHABLE_CHILDREN =
    Ok (inr (JSON_SYNTAX_ERROR, str "Line: 1, column: 2, Syntax error.")) /\
  ReadAndReturnError (H := without_checks) (double := example_double) (json "1") 1 JSON_DETACHABLE_CHILDREN = Failed.
Proof. repeat split; vm_compute; reflexivity. Qed.

(** A binary value that is left out leaves its comma. *)
Lemma omitted_binary_leaves_a_comma :
  WriteWithOptions (H := without_checks) (double := example_double) [] (ListValue [BinaryValue [1]; IntegerValue 1]) OPTIONS_OMIT_BINARY_VALUES =
    Ok (str "[,1]").
Proof. vm_compute. reflexivity. Qed.

(** Without escaping, bytes of UTF-8 are written as characters of their own. *)
Lemma unescaped_bytes_are_escaped :
  WriteWithOptions (H := without_checks) (double := example_double) [] (StringValue [195; 169]) OPTIONS_DO_NOT_ESCAPE =
    Ok (json "'\u00C3\u00A9'").
Proof. vm_compute. reflexivity. Qed.
