(* ===== verification/BigEndian.v ===== *)
(** Integers in network order, net/base/big_endian.{h,cc}: reading and writing
    them in a buffer, and a reader that keeps its place. *)
From S2P Require Import Prelude CArrays Memory.

(** ** Reading and writing *)

(** The first byte is a [char], so its sign fills the integer, until the bytes
    behind it push it out; [size] is the size of the type in bytes. *)
(* src: net/base/big_endian.h 22-26! ReadBigEndian *)
Fixpoint read_loop (size : nat) (count : nat) (buf : list Z) (i out : Z) : option Z :=
  match count with
  | O => Some out
  | S count =>
      b ← get buf i;
      let w := 8 * Z.of_nat size in
      read_loop size count buf (i + 1) (Z.lor (wrap_u w (Z.shiftl out 8)) (wrap_u 8 b))
  end.

(** [buf] points at the index [i] of the memory. *)
(* src: net/base/big_endian.h 20-27! ReadBigEndian *)
Definition ReadBigEndian (size : nat) (buf : list Z) (i : Z) : option Z :=
  b ← get buf i;
  read_loop size (size - 1) buf (i + 1) (wrap_u (8 * Z.of_nat size) (wrap_s 8 b)).

(* src: net/base/big_endian.h 32-37! WriteBigEndian *)
Fixpoint WriteBigEndian (size : nat) (val : Z) (i : Z) (buf : list Z) : option (list Z) :=
  match size with
  | O => Some buf
  | S size =>
      buf ← put buf (i + Z.of_nat size) (Z.land val 0xFF);
      WriteBigEndian size (Z.shiftr val 8) i buf
  end.

(** ** The reader

    Pointers are indices of the memory that both point into. *)
(* src: net/base/big_endian.h 72-73! BigEndianReader *)
Record BigEndianReader := mkBigEndianReader {
  ptr_ : Z;
  end_ : Z
}.
#[export] Instance eta_BigEndianReader : Eta BigEndianReader := fun r =>
  mkBigEndianReader (ptr_ r) (end_ r).

(* src: net/base/big_endian.cc 11-12! BigEndianReader::BigEndianReader *)
Definition new_BigEndianReader (buf len : Z) : BigEndianReader := mkBigEndianReader buf (buf + len).

(* src: net/base/big_endian.h 57-57! remaining *)
Definition remaining (r : BigEndianReader) : Z := s32 (end_ r - ptr_ r).

(* src: net/base/big_endian.cc 14-19! BigEndianReader::Skip *)
Definition Skip (len : Z) (r : BigEndianReader) : bool * BigEndianReader :=
  if end_ r <? ptr_ r + len then (false, r) else (true, r <| ptr_ := ptr_ r + len |>).

Section Reader.
Context (memory : list Z).

(** What a read gives, and the reader behind it: [None] inside is the answer
    [false], which leaves the reader where it was. *)
(* src: net/base/big_endian.cc 21-27! BigEndianReader::ReadBytes *)
Definition ReadBytes (len : Z) (r : BigEndianReader)
    : option (option (list Z) * BigEndianReader) :=
  if end_ r <? ptr_ r + len then Some (None, r) else
  out ← load memory (ptr_ r) len;
  Some (Some out, r <| ptr_ := ptr_ r + len |>).

(** A piece of the buffer: where it begins, and its length. *)
(* src: net/base/big_endian.cc 29-35! BigEndianReader::ReadPiece *)
Definition ReadPiece (len : Z) (r : BigEndianReader) : option (Z * Z) * BigEndianReader :=
  if end_ r <? ptr_ r + len then (None, r)
  else (Some (ptr_ r, len), r <| ptr_ := ptr_ r + len |>).

(* src: net/base/big_endian.cc 37-44! BigEndianReader::Read *)
Definition Read (size : nat) (r : BigEndianReader) : option (option Z * BigEndianReader) :=
  if end_ r <? ptr_ r + Z.of_nat size then Some (None, r) else
  value ← ReadBigEndian size memory (ptr_ r);
  Some (Some value, r <| ptr_ := ptr_ r + Z.of_nat size |>).

(* src: net/base/big_endian.cc 46-48! BigEndianReader::ReadU8 *)
Definition ReadU8 : BigEndianReader -> option (option Z * BigEndianReader) := Read 1.
(* src: net/base/big_endian.cc 50-52! BigEndianReader::ReadU16 *)
Definition ReadU16 : BigEndianReader -> option (option Z * BigEndianReader) := Read 2.
(* src: net/base/big_endian.cc 54-56! BigEndianReader::ReadU32 *)
Definition ReadU32 : BigEndianReader -> option (option Z * BigEndianReader) := Read 4.
End Reader.

(** ** The writer

    A write outside the buffer of the writer is refused; the memory is passed
    along and returned. *)
(* src: net/base/big_endian.h 96-97! BigEndianWriter *)
Record BigEndianWriter := mkBigEndianWriter {
  wptr_ : Z;
  wend_ : Z
}.
#[export] Instance eta_BigEndianWriter : Eta BigEndianWriter := fun w =>
  mkBigEndianWriter (wptr_ w) (wend_ w).

(* src: net/base/big_endian.cc 58-59! BigEndianWriter::BigEndianWriter *)
Definition new_BigEndianWriter (buf len : Z) : BigEndianWriter := mkBigEndianWriter buf (buf + len).

(* src: net/base/big_endian.cc 61-66! BigEndianWriter::Skip *)
Definition writer_Skip (len : Z) (w : BigEndianWriter) : bool * BigEndianWriter :=
  if wend_ w <? wptr_ w + len then (false, w) else (true, w <| wptr_ := wptr_ w + len |>).

(* src: net/base/big_endian.cc 68-74! BigEndianWriter::WriteBytes *)
Definition WriteBytes (buf : list Z) (memory : list Z) (w : BigEndianWriter)
    : option (bool * list Z * BigEndianWriter) :=
  if wend_ w <? wptr_ w + zlen buf then Some (false, memory, w) else
  memory ← store (wptr_ w) buf memory;
  Some (true, memory, w <| wptr_ := wptr_ w + zlen buf |>).

(* src: net/base/big_endian.cc 76-83! BigEndianWriter::Write *)
Definition Write (size : nat) (value : Z) (memory : list Z) (w : BigEndianWriter)
    : option (bool * list Z * BigEndianWriter) :=
  if wend_ w <? wptr_ w + Z.of_nat size then Some (false, memory, w) else
  memory ← WriteBigEndian size value (wptr_ w) memory;
  Some (true, memory, w <| wptr_ := wptr_ w + Z.of_nat size |>).

(* src: net/base/big_endian.cc 85-87! BigEndianWriter::WriteU8 *)
Definition WriteU8 := Write 1.
(* src: net/base/big_endian.cc 89-91! BigEndianWriter::WriteU16 *)
Definition WriteU16 := Write 2.
(* src: net/base/big_endian.cc 93-95! BigEndianWriter::WriteU32 *)
Definition WriteU32 := Write 4.

(** ** Lemmas *)
Lemma lor_byte a b : a mod 256 = 0 -> is_byte b -> Z.lor a b = a + b.
Proof.
  intros Ha Hb. unfold is_byte in Hb. rewrite Z.lor_comm, (Z.div_mod a 256), Ha, Z.add_0_r by lia.
  rewrite (Z.mul_comm 256). change 256 with (2 ^ 8). rewrite lor_disjoint by lia. lia.
Qed.

Lemma byte_mod m b n : is_byte b -> 0 < n -> (256 * m + b) mod (256 * n) = 256 * (m mod n) + b.
Proof.
  intros Hb Hn. unfold is_byte in Hb. rewrite Z.rem_mul_r by lia.
  rewrite (Z.add_comm (256 * m)), (Z.mul_comm 256 m), Z.mod_add, Z.div_add by lia.
  rewrite Z.mod_small, Z.div_small by lia. rewrite Z.add_0_l. lia.
Qed.

(** [out] holds the value [v] of the [k] bytes read in its low bits. *)
Lemma read_loop_spec size buf bytes : forall k i out v,
  (0 < k)%nat -> (k + length bytes = size)%nat -> Forall is_byte bytes -> lies buf i bytes ->
  in_u (8 * Z.of_nat size) out -> out mod 256 ^ Z.of_nat k = v ->
  read_loop size (length bytes) buf i out = Some (fold_left (fun v b => v * 256 + b) bytes v).
Proof.
  induction bytes as [|b bytes IH]; intros k i out v Hk Hs Hf Hl Ho Hv; cbn [read_loop length].
  - cbn in Hs. f_equal. cbn. rewrite <- Hv, Z.mod_small; [done|].
    replace (256 ^ Z.of_nat k) with (2 ^ (8 * Z.of_nat size)); [done|].
    change 256 with (2 ^ 8). rewrite <- Z.pow_mul_r by lia. f_equal. lia.
  - rewrite (lies_get _ _ _ _ Hl). cbn [mbind option_bind].
    apply Forall_cons in Hf as [Hb Hf]. rewrite (wrap_u_id 8 b) by done.
    cbn [length] in Hs. set (w := 8 * Z.of_nat size) in *.
    assert (H8 : 2 ^ w = 2 ^ 8 * 2 ^ (w - 8)) by (rewrite <- Z.pow_add_r by lia; f_equal; lia).
    pose proof (pow2_pos (w - 8) ltac:(lia)) as Hw8.
    assert (E : wrap_u w (Z.shiftl out 8) = 256 * (out mod 2 ^ (w - 8))).
    { unfold wrap_u. rewrite Z.shiftl_mul_pow2, H8, (Z.mul_comm out) by lia.
      rewrite Zmult_mod_distr_l. done. }
    rewrite E, lor_byte; [|rewrite Z.mul_comm; by apply Z.mod_mul|done].
    pose proof (Z.mod_pos_bound out (2 ^ (w - 8)) Hw8). unfold is_byte in Hb.
    rewrite (IH (S k) (i + 1) _ (v * 256 + b)); [done|lia|lia|done|by eapply lies_tail| |].
    + unfold in_u. rewrite H8. lia.
    + assert (Hp : 0 < 256 ^ Z.of_nat k) by (apply Z.pow_pos_nonneg; lia).
      rewrite Nat2Z.inj_succ, Z.pow_succ_r, byte_mod by (lia || done).
      rewrite <- Hv.
      assert (Hd : (256 ^ Z.of_nat k | 2 ^ (w - 8))).
      { exists (2 ^ (w - 8 - 8 * Z.of_nat k)). change 256 with (2 ^ 8).
        rewrite <- Z.pow_mul_r, <- Z.pow_add_r by lia. f_equal. lia. }
      rewrite (Z.mod_mod_divide out) by done. lia.
Qed.

Lemma ReadBigEndian_spec size buf i bytes :
  (0 < size)%nat -> length bytes = size -> Forall is_byte bytes -> lies buf i bytes ->
  ReadBigEndian size buf i = Some (be_value bytes).
Proof.
  intros Hs Hl Hf Hlie. unfold ReadBigEndian. destruct bytes as [|b bytes]; [cbn in Hl; lia|].
  rewrite (lies_get _ _ _ _ Hlie). cbn [mbind option_bind]. cbn [length] in Hl.
  apply Forall_cons in Hf as [Hb Hf]. unfold is_byte in Hb.
  replace (size - 1)%nat with (length bytes) by lia.
  rewrite (read_loop_spec size buf bytes 1 _ _ b); [done|lia|lia|done|by eapply lies_tail| |].
  - apply wrap_u_range. lia.
  - unfold wrap_u, wrap_s. change (256 ^ Z.of_nat 1) with (2 ^ 8).
    rewrite Z.mod_mod_divide.
    + rewrite Zminus_mod_idemp_l. replace (b + 2 ^ (8 - 1) - 2 ^ (8 - 1)) with b by lia.
      by apply Z.mod_small.
    + exists (2 ^ (8 * Z.of_nat size - 8)). rewrite <- Z.pow_add_r by lia. f_equal. lia.
Qed.

(** Writing puts the bytes of the value in front of what was there. *)
Lemma WriteBigEndian_spec size : forall val pre old post,
  length old = size ->
  WriteBigEndian size val (zlen pre) (pre ++ old ++ post) = Some (pre ++ be_bytes size val ++ post).
Proof.
  induction size as [|size IH]; intros val pre old post Hl.
  - destruct old; [done|by cbn in Hl].
  - destruct old as [|x old' _] using rev_ind; [done|].
    rewrite length_app in Hl. cbn in Hl. cbn [WriteBigEndian be_bytes].
    assert (Hz : zlen pre + Z.of_nat size = zlen (pre ++ old')) by (rewrite zlen_app; unfold zlen; lia).
    replace (pre ++ (old' ++ [x]) ++ post) with ((pre ++ old') ++ x :: post) by (by rewrite <- !app_assoc).
    rewrite Hz, put_app. cbn [mbind option_bind]. rewrite <- app_assoc, IH by lia.
    change 0xFF with (Z.ones 8). rewrite Z.land_ones, Z.shiftr_div_pow2 by lia. by rewrite <- !app_assoc.
Qed.

Lemma be_value_range bytes : Forall is_byte bytes -> 0 <= be_value bytes < 256 ^ zlen bytes.
Proof.
  induction bytes as [|b bytes IH] using rev_ind; intros Hf; [done|].
  apply Forall_app in Hf as [Hf Hb]. apply Forall_cons in Hb as [Hb _]. specialize (IH Hf).
  unfold be_value in *. rewrite fold_left_app, zlen_app. cbn [fold_left].
  change (zlen [b]) with 1. rewrite Z.pow_add_r, Z.pow_1_r by (try apply zlen_nonneg; lia).
  unfold is_byte in Hb. lia.
Qed.
