(* ===== verification/WebSocketFrame.v ===== *)
(** Frames of WebSocket, net/websockets/websocket_frame.{h,cc}: their headers,
    how a header is written, and the masking of the payload. *)
From S2P Require Import Prelude CArrays Memory BigEndian.

(** ** Headers *)
Definition kFinalBit : Z := 0x80.
Definition kReserved1Bit : Z := 0x40.
Definition kReserved2Bit : Z := 0x20.
Definition kReserved3Bit : Z := 0x10.
Definition kOpCodeMask : Z := 0xF.
Definition kMaskBit : Z := 0x80.
Definition kMaxPayloadLengthWithoutExtendedLengthField : Z := 125.
Definition kPayloadLengthWithTwoByteExtendedLengthField : Z := 126.
Definition kPayloadLengthWithEightByteExtendedLengthField : Z := 127.
Definition kuint16max : Z := 0xFFFF.
Definition kint32max : Z := 0x7FFFFFFF.
Definition kint64max : Z := 0x7FFFFFFFFFFFFFFF.
Definition ERR_INVALID_ARGUMENT : Z := -4.

(* src: net/websockets/websocket_frame.h 56-60! WebSocketFrameHeader *)
Definition kBaseHeaderSize : Z := 2.
Definition kMaximumExtendedLengthSize : Z := 8.
Definition kMaskingKeyLength : Z := 4.

(* src: net/websockets/websocket_frame.h 78-86! WebSocketFrameHeader *)
Record WebSocketFrameHeader := mkWebSocketFrameHeader {
  final : bool;
  reserved1 : bool;
  reserved2 : bool;
  reserved3 : bool;
  opcode : Z;
  masked : bool;
  payload_length : Z
}.
#[export] Instance eta_WebSocketFrameHeader : Eta WebSocketFrameHeader := fun h =>
  mkWebSocketFrameHeader (final h) (reserved1 h) (reserved2 h) (reserved3 h) (opcode h)
    (masked h) (payload_length h).

(* src: net/websockets/websocket_frame.h 63-70! WebSocketFrameHeader::WebSocketFrameHeader *)
Definition new_WebSocketFrameHeader (opCode : Z) : WebSocketFrameHeader :=
  mkWebSocketFrameHeader false false false false opCode false 0.

(* src: net/websockets/websocket_frame.h 42-45! IsKnownDataOpCode *)
Definition IsKnownDataOpCode (opcode : Z) : bool :=
  (opcode =? 0x0) || (opcode =? 0x1) || (opcode =? 0x2).

(* src: net/websockets/websocket_frame.h 49-52! IsKnownControlOpCode *)
Definition IsKnownControlOpCode (opcode : Z) : bool :=
  (opcode =? 0x8) || (opcode =? 0x9) || (opcode =? 0xA).

(* src: net/websockets/websocket_frame.cc 50-58! WebSocketFrameHeader::CopyFrom *)
Definition CopyFrom (source h : WebSocketFrameHeader) : WebSocketFrameHeader :=
  h <| final := final source |>
    <| reserved1 := reserved1 source |>
    <| reserved2 := reserved2 source |>
    <| reserved3 := reserved3 source |>
    <| opcode := opcode source |>
    <| masked := masked source |>
    <| payload_length := payload_length source |>.

(* src: net/websockets/websocket_frame.cc 44-48! WebSocketFrameHeader::Clone *)
Definition Clone (h : WebSocketFrameHeader) : WebSocketFrameHeader :=
  CopyFrom h (new_WebSocketFrameHeader (opcode h)).

(* src: net/websockets/websocket_frame.cc 69-80! GetWebSocketFrameHeaderSize *)
Definition GetWebSocketFrameHeaderSize (header : WebSocketFrameHeader) : Z :=
  let extended_length_size :=
    if (kMaxPayloadLengthWithoutExtendedLengthField <? payload_length header) &&
       (payload_length header <=? kuint16max) then 2
    else if kuint16max <? payload_length header then 8 else 0 in
  kBaseHeaderSize + extended_length_size + (if masked header then kMaskingKeyLength else 0).

(** The two bytes every header begins with; the length of the field behind
    them comes with the second. *)
(* src: net/websockets/websocket_frame.cc 109-114! WriteWebSocketFrameHeader *)
Definition first_byte (header : WebSocketFrameHeader) : Z :=
  let bit (b : bool) (z : Z) := if b then z else 0 in
  Z.lor (Z.lor (Z.lor (Z.lor (Z.lor 0
    (bit (final header) kFinalBit))
    (bit (reserved1 header) kReserved1Bit))
    (bit (reserved2 header) kReserved2Bit))
    (bit (reserved3 header) kReserved3Bit))
    (Z.land (opcode header) kOpCodeMask).

(* src: net/websockets/websocket_frame.cc 117-128! WriteWebSocketFrameHeader *)
Definition second_byte (header : WebSocketFrameHeader) : Z * Z :=
  let second_byte := if masked header then kMaskBit else 0 in
  if payload_length header <=? kMaxPayloadLengthWithoutExtendedLengthField then
    (wrap_u 8 (Z.lor second_byte (payload_length header)), 0)
  else if payload_length header <=? kuint16max then
    (Z.lor second_byte kPayloadLengthWithTwoByteExtendedLengthField, 2)
  else
    (Z.lor second_byte kPayloadLengthWithEightByteExtendedLengthField, 8).

(** Byte for byte into the memory at [buffer_index]. *)
Fixpoint copy_to (bytes : list Z) (buffer_index : Z) (buffer : list Z) : option (list Z) :=
  match bytes with
  | [] => Some buffer
  | b :: bytes => buffer ← put buffer buffer_index b; copy_to bytes (buffer_index + 1) buffer
  end.

(** What is returned, and the buffer. *)
(* src: net/websockets/websocket_frame.cc 82-154! WriteWebSocketFrameHeader *)
Definition WriteWebSocketFrameHeader (header : WebSocketFrameHeader) (masking_key : option (list Z))
    (buffer : list Z) (buffer_size : Z) : option (Z * list Z) :=
  DCHECK (Z.land (opcode header) kOpCodeMask =? opcode header) ;;
  DCHECK (payload_length header <=? kint64max) ;;
  DCHECK (0 <=? buffer_size) ;;
  let header_size := GetWebSocketFrameHeaderSize header in
  if buffer_size <? header_size then Some (ERR_INVALID_ARGUMENT, buffer) else
  buffer ← put buffer 0 (first_byte header);
  let '(second, extended_length_size) := second_byte header in
  buffer ← put buffer 1 second;
  let buffer_index := 2 in
  '(buffer, buffer_index) ←
    (if extended_length_size =? 2 then
       buffer ← WriteBigEndian 2 (wrap_u 16 (payload_length header)) buffer_index buffer;
       Some (buffer, buffer_index + 2)
     else if extended_length_size =? 8 then
       buffer ← WriteBigEndian 8 (payload_length header) buffer_index buffer;
       Some (buffer, buffer_index + 8)
     else Some (buffer, buffer_index));
  '(buffer, buffer_index) ←
    (if masked header then
       key ← masking_key;
       key ← load key 0 kMaskingKeyLength;
       buffer ← copy_to key buffer_index buffer;
       Some (buffer, buffer_index + kMaskingKeyLength)
     else
       DCHECK (match masking_key with Some _ => false | None => true end) ;;
       Some (buffer, buffer_index));
  DCHECK (header_size =? buffer_index) ;;
  Some (header_size, buffer).

(** ** Masking

    The loop runs until the pointers are equal, so on fuel; [data] is the
    memory that the pointers point into. *)
(* src: net/websockets/websocket_frame.cc 33-37! MaskWebSocketFramePayloadByBytes *)
Fixpoint bytes_loop (fuel : nat) (masking_key : list Z) (masking_key_offset masked end_ : Z)
    (data : list Z) : res (list Z) :=
  match fuel with
  | O => NoFuel
  | S fuel =>
      if masked =? end_ then Ok data else
      b ← checked (get data masked);
      k ← checked (get masking_key masking_key_offset);
      data ← checked (put data masked (Z.lxor b k));
      let masking_key_offset := u64 (masking_key_offset + 1) in
      let masking_key_offset := if masking_key_offset =? kMaskingKeyLength then 0 else masking_key_offset in
      bytes_loop fuel masking_key masking_key_offset (masked + 1) end_ data
  end.
(* src: net/websockets/websocket_frame.cc 28-38! MaskWebSocketFramePayloadByBytes *)
Definition MaskWebSocketFramePayloadByBytes (masking_key : list Z) (masking_key_offset begin end_ : Z)
    (data : list Z) : res (list Z) :=
  bytes_loop (S (Z.to_nat (end_ - begin))) masking_key masking_key_offset begin end_ data.

(** A word is eight bytes in the order of the machine, the lowest first. *)
Definition kPackedMaskKeySize : Z := 8.

(* src: net/websockets/websocket_frame.cc 222-230! MaskWebSocketFramePayload *)
Fixpoint words_loop (fuel : nat) (packed_mask_key merged aligned_end : Z) (data : list Z)
    : res (list Z) :=
  match fuel with
  | O => NoFuel
  | S fuel =>
      if merged =? aligned_end then Ok data else
      word ← checked (load data merged kPackedMaskKeySize);
      data ← checked (store merged (to_bytes 8 (Z.lxor (of_bytes word) packed_mask_key)) data);
      words_loop fuel packed_mask_key (merged + kPackedMaskKeySize) aligned_end data
  end.

(** [address] is the address of the data; only its alignment matters. *)
(* src: net/websockets/websocket_frame.cc 165-237! MaskWebSocketFramePayload *)
Definition MaskWebSocketFramePayload (masking_key : list Z) (frame_offset address : Z)
    (data : list Z) (data_size : Z) : res (list Z) :=
  checked (DCHECK (0 <=? data_size)) ;;
  let end_ := data_size in
  if data_size <=? kPackedMaskKeySize * 2 then
    MaskWebSocketFramePayloadByBytes masking_key (frame_offset mod kMaskingKeyLength) 0 end_ data
  else
  let data_modulus := address mod kPackedMaskKeySize in
  let aligned_begin := if data_modulus =? 0 then 0 else kPackedMaskKeySize - data_modulus in
  checked (DCHECK (aligned_begin <? end_)) ;;
  data ← MaskWebSocketFramePayloadByBytes masking_key (frame_offset mod kMaskingKeyLength)
           0 aligned_begin data;
  let end_modulus := (address + end_) mod kPackedMaskKeySize in
  let aligned_end := end_ - end_modulus in
  checked (DCHECK (aligned_begin <? aligned_end)) ;;
  realigned_mask ← MaskWebSocketFramePayloadByBytes masking_key
                     (u64 (frame_offset + aligned_begin) mod kMaskingKeyLength)
                     0 kMaskingKeyLength [0; 0; 0; 0];
  let packed_mask_key := to_bytes 8 0 in
  packed_mask_key ← checked (store 0 realigned_mask packed_mask_key);
  packed_mask_key ← checked (store kMaskingKeyLength realigned_mask packed_mask_key);
  data ← words_loop (S (Z.to_nat (aligned_end - aligned_begin))) (of_bytes packed_mask_key)
           aligned_begin aligned_end data;
  MaskWebSocketFramePayloadByBytes masking_key
    (u64 (frame_offset + aligned_end) mod kMaskingKeyLength) aligned_end end_ data.
