(* ===== verification/WebSocketFrameParser.v ===== *)
(** The parser of WebSocket frames, net/websockets/websocket_frame_parser.cc:
    bytes come in pieces cut anywhere, and go out as chunks of frames. *)
From S2P Require Import Prelude CArrays Memory BigEndian WebSocketFrame.

(* src: net/websockets/websocket_errors.h 16-46! WebSocketError *)
Inductive WebSocketError :=
  | kWebSocketNormalClosure
  | kWebSocketErrorGoingAway
  | kWebSocketErrorProtocolError
  | kWebSocketErrorUnsupportedData
  | kWebSocketErrorNoStatusReceived
  | kWebSocketErrorAbnormalClosure
  | kWebSocketErrorInvalidFramePayloadData
  | kWebSocketErrorPolicyViolation
  | kWebSocketErrorMessageTooBig
  | kWebSocketErrorMandatoryExtension
  | kWebSocketErrorInternalServerError
  | kWebSocketErrorTlsHandshake
  | kWebSocketErrorProtocolReservedMax
  | kWebSocketErrorRegisteredReservedMin
  | kWebSocketErrorRegisteredReservedMax
  | kWebSocketErrorPrivateReservedMin
  | kWebSocketErrorPrivateReservedMax.

(* src: net/websockets/websocket_errors.h 20-45! WebSocketError *)
Definition WebSocketError_val (e : WebSocketError) : Z :=
  match e with
  | kWebSocketNormalClosure => 1000
  | kWebSocketErrorGoingAway => 1001
  | kWebSocketErrorProtocolError => 1002
  | kWebSocketErrorUnsupportedData => 1003
  | kWebSocketErrorNoStatusReceived => 1005
  | kWebSocketErrorAbnormalClosure => 1006
  | kWebSocketErrorInvalidFramePayloadData => 1007
  | kWebSocketErrorPolicyViolation => 1008
  | kWebSocketErrorMessageTooBig => 1009
  | kWebSocketErrorMandatoryExtension => 1010
  | kWebSocketErrorInternalServerError => 1011
  | kWebSocketErrorTlsHandshake => 1015
  | kWebSocketErrorProtocolReservedMax => 2999
  | kWebSocketErrorRegisteredReservedMin => 3000
  | kWebSocketErrorRegisteredReservedMax => 3999
  | kWebSocketErrorPrivateReservedMin => 4000
  | kWebSocketErrorPrivateReservedMax => 4999
  end.
#[export] Program Instance enum_WebSocketError : CxxEnum WebSocketError :=
  {| enum_val := WebSocketError_val |}.
Next Obligation. by intros [] []. Qed.

(** The data of a chunk may be null. *)
(* src: net/websockets/websocket_frame.h 125-139! WebSocketFrameChunk *)
Record WebSocketFrameChunk := mkWebSocketFrameChunk {
  header : option WebSocketFrameHeader;
  final_chunk : bool;
  data : option (list Z)
}.

(* src: net/websockets/websocket_frame_parser.h 67-82! WebSocketFrameParser *)
Record WebSocketFrameParser := mkWebSocketFrameParser {
  buffer_ : list Z;
  current_read_pos_ : Z;
  current_frame_header_ : option WebSocketFrameHeader;
  masking_key_ : list Z;
  frame_offset_ : Z;
  websocket_error_ : WebSocketError
}.
#[export] Instance eta_WebSocketFrameParser : Eta WebSocketFrameParser := fun p =>
  mkWebSocketFrameParser (buffer_ p) (current_read_pos_ p) (current_frame_header_ p)
    (masking_key_ p) (frame_offset_ p) (websocket_error_ p).

Definition no_key : list Z := [0; 0; 0; 0].

(* src: net/websockets/websocket_frame_parser.cc 36-43! WebSocketFrameParser::WebSocketFrameParser *)
Definition new_WebSocketFrameParser : WebSocketFrameParser :=
  mkWebSocketFrameParser [] 0 None no_key 0 kWebSocketNormalClosure.

(** ** The header of a frame

    The length of the payload: the seven bits of the second byte, or the field
    behind it, with the error that a length that is too short for its field or
    too long makes. [None] inside: the field is not there yet. *)
(* src: net/websockets/websocket_frame_parser.cc 122-143! DecodeFrameHeader *)
Definition extended_length (second_byte : Z) (buffer : list Z) (current end_ : Z)
    : option (option (Z * Z * WebSocketError)) :=
  let payload_length := Z.land second_byte 0x7F in
  if payload_length =? kPayloadLengthWithTwoByteExtendedLengthField then
    if end_ - current <? 2 then Some None else
    payload_length ← ReadBigEndian 2 buffer current;
    Some (Some (payload_length, current + 2,
      if payload_length <=? kMaxPayloadLengthWithoutExtendedLengthField
      then kWebSocketErrorProtocolError else kWebSocketNormalClosure))
  else if payload_length =? kPayloadLengthWithEightByteExtendedLengthField then
    if end_ - current <? 8 then Some None else
    payload_length ← ReadBigEndian 8 buffer current;
    Some (Some (payload_length, current + 8,
      if (payload_length <=? kuint16max) || (kint64max <? payload_length)
      then kWebSocketErrorProtocolError
      else if kint32max <? payload_length then kWebSocketErrorMessageTooBig
      else kWebSocketNormalClosure))
  else Some (Some (payload_length, current, kWebSocketNormalClosure)).

(** The buffer is not empty where this is called. *)
(* src: net/websockets/websocket_frame_parser.cc 98-170! DecodeFrameHeader *)
Definition DecodeFrameHeader (p : WebSocketFrameParser) : option WebSocketFrameParser :=
  DCHECK (match current_frame_header_ p with Some _ => false | None => true end) ;;
  let start := current_read_pos_ p in
  let end_ := zlen (buffer_ p) in
  if end_ - start <? 2 then Some p else
  first ← get (buffer_ p) start;
  second ← get (buffer_ p) (start + 1);
  let first_byte := wrap_u 8 first in
  let second_byte := wrap_u 8 second in
  let final' := !(Z.land first_byte kFinalBit =? 0) in
  let reserved1' := !(Z.land first_byte kReserved1Bit =? 0) in
  let reserved2' := !(Z.land first_byte kReserved2Bit =? 0) in
  let reserved3' := !(Z.land first_byte kReserved3Bit =? 0) in
  let opcode' := Z.land first_byte kOpCodeMask in
  let masked' := !(Z.land second_byte kMaskBit =? 0) in
  extended ← extended_length second_byte (buffer_ p) (start + 2) end_;
  match extended with
  | None => Some p
  | Some (length, current, error) =>
      if error != kWebSocketNormalClosure then
        Some (p <| websocket_error_ := error |> <| buffer_ := [] |> <| current_read_pos_ := 0 |>
                <| current_frame_header_ := None |> <| frame_offset_ := 0 |>)
      else
      let decoded (current : Z) (masking_key : list Z) :=
        let header := (new_WebSocketFrameHeader opcode')
          <| final := final' |> <| reserved1 := reserved1' |> <| reserved2 := reserved2' |>
          <| reserved3 := reserved3' |> <| masked := masked' |> <| payload_length := length |> in
        DCHECK (frame_offset_ p =? 0) ;;
        Some (p <| masking_key_ := masking_key |> <| current_frame_header_ := Some header |>
                <| current_read_pos_ := current_read_pos_ p + (current - start) |>) in
      if masked' then
        if end_ - current <? kMaskingKeyLength then Some p else
        key ← load (buffer_ p) current kMaskingKeyLength;
        decoded (current + kMaskingKeyLength) key
      else decoded current no_key
  end.

(** ** The payload

    [io_data] is the address of the buffer that is allocated for it. *)
(* src: net/websockets/websocket_frame_parser.cc 172-210! DecodeFramePayload *)
Definition DecodeFramePayload (first_chunk : bool) (io_data : Z) (p : WebSocketFrameParser)
    : res (WebSocketFrameChunk * WebSocketFrameParser) :=
  current_frame_header ← checked (current_frame_header_ p);
  let current := current_read_pos_ p in
  let end_ := zlen (buffer_ p) in
  let next_size := Z.min (u64 (end_ - current)) (u64 (payload_length current_frame_header - frame_offset_ p)) in
  checked (DCHECK (next_size <=? kint32max)) ;;
  let header := if first_chunk then Some (Clone current_frame_header) else None in
  '(data, p) ←
    (if next_size =? 0 then Ok (None, p) else
     data ← checked (load (buffer_ p) current next_size);
     data ← (if masked current_frame_header
             then MaskWebSocketFramePayload (masking_key_ p) (frame_offset_ p) io_data data next_size
             else Ok data);
     Ok (Some data, p <| current_read_pos_ := current_read_pos_ p + next_size |>
                      <| frame_offset_ := u64 (frame_offset_ p + next_size) |>));
  checked (DCHECK (frame_offset_ p <=? payload_length current_frame_header)) ;;
  if frame_offset_ p =? payload_length current_frame_header then
    Ok (mkWebSocketFrameChunk header true data,
        p <| current_frame_header_ := None |> <| frame_offset_ := 0 |>)
  else Ok (mkWebSocketFrameChunk header false data, p).

(** ** Decoding

    [allocate] gives the address of the buffer of the chunk with an index in
    [frame_chunks]. The loop stops with an answer, or is left. *)
(* src: net/websockets/websocket_frame_parser.cc 59-81! WebSocketFrameParser::Decode *)
Fixpoint decode_loop (fuel : nat) (allocate : Z -> Z) (frame_chunks : list WebSocketFrameChunk)
    (p : WebSocketFrameParser) : res (bool * list WebSocketFrameChunk * WebSocketFrameParser) :=
  match fuel with
  | O => NoFuel
  | S fuel =>
      if zlen (buffer_ p) <=? current_read_pos_ p then Ok (true, frame_chunks, p) else
      let first_chunk := match current_frame_header_ p with Some _ => false | None => true end in
      p ← (if first_chunk then checked (DecodeFrameHeader p) else Ok p);
      if first_chunk && (websocket_error_ p != kWebSocketNormalClosure) then Ok (false, frame_chunks, p) else
      match current_frame_header_ p with
      | None => Ok (true, frame_chunks, p)
      | Some _ =>
          '(frame_chunk, p) ← DecodeFramePayload first_chunk (allocate (zlen frame_chunks)) p;
          let frame_chunks := frame_chunks ++ [frame_chunk] in
          match current_frame_header_ p with
          | Some _ =>
              checked (DCHECK (current_read_pos_ p =? zlen (buffer_ p))) ;;
              Ok (true, frame_chunks, p)
          | None => decode_loop fuel allocate frame_chunks p
          end
      end
  end.

Definition kMaximumFrameHeaderSize : Z := kBaseHeaderSize + kMaximumExtendedLengthSize + kMaskingKeyLength.

(* src: net/websockets/websocket_frame_parser.cc 47-96! WebSocketFrameParser::Decode *)
Definition Decode (data : list Z) (allocate : Z -> Z) (frame_chunks : list WebSocketFrameChunk)
    (p : WebSocketFrameParser) : res (bool * list WebSocketFrameChunk * WebSocketFrameParser) :=
  if websocket_error_ p != kWebSocketNormalClosure then Ok (false, frame_chunks, p) else
  if zlen data =? 0 then Ok (true, frame_chunks, p) else
  let p := p <| buffer_ := buffer_ p ++ data |> in
  '(decoded, frame_chunks, p) ← decode_loop (S (length (buffer_ p))) allocate frame_chunks p;
  if !decoded then Ok (false, frame_chunks, p) else
  let p := p <| buffer_ := drop (Z.to_nat (current_read_pos_ p)) (buffer_ p) |>
             <| current_read_pos_ := 0 |> in
  checked (DCHECK (zlen (buffer_ p) <? kMaximumFrameHeaderSize)) ;;
  Ok (true, frame_chunks, p).
