(* ===== verification/WebSocketMasking.v ===== *)
(** Masking a word at a time is masking a byte at a time. *)
From S2P Require Import Prelude CArrays Memory BigEndian WebSocketFrame.
From Stdlib Require Import ZifyBool.

(** What masking does to data at an offset of the payload: byte for byte, the
    four bytes of the key over and over. *)
Fixpoint mask (key : list Z) (offset : Z) (data : list Z) : list Z :=
  match data with
  | [] => []
  | b :: data => Z.lxor b (at_ key (offset mod 4)) :: mask key (offset + 1) data
  end.

(** A key. *)
Definition is_key (key : list Z) : Prop := length key = 4%nat /\ Forall is_byte key.

Lemma mask_app key l1 : forall offset l2,
  mask key offset (l1 ++ l2) = mask key offset l1 ++ mask key (offset + zlen l1) l2.
Proof.
  induction l1 as [|b l1 IH]; intros offset l2; cbn [mask app].
  - by rewrite Z.add_0_r.
  - rewrite IH. cbn [app]. do 3 f_equal. unfold zlen. cbn [length]. lia.
Qed.

Lemma mask_period key data : forall o1 o2, o1 mod 4 = o2 mod 4 -> mask key o1 data = mask key o2 data.
Proof.
  induction data as [|b data IH]; intros o1 o2 H; cbn [mask]; [done|].
  rewrite H. f_equal. apply IH. rewrite <- Zplus_mod_idemp_l, H. apply Zplus_mod_idemp_l.
Qed.

Lemma length_mask key data : forall offset, length (mask key offset data) = length data.
Proof. induction data as [|b data IH]; intros offset; cbn; [done|]. by rewrite IH. Qed.

Lemma at_key_byte key i : is_key key -> 0 <= i < 4 -> get key i = Some (at_ key i) /\ is_byte (at_ key i).
Proof.
  intros [Hl Hf] Hi. destruct (get_some key i) as [k Hk]; [unfold zlen; lia|].
  pose proof (get_Forall _ _ _ _ Hk Hf). unfold get, at_ in *. destruct (i <? 0); [done|].
  rewrite Hk. done.
Qed.

Lemma lxor_byte a b : is_byte a -> is_byte b -> is_byte (Z.lxor a b).
Proof.
  unfold is_byte. intros Ha Hb. split; [apply Z.lxor_nonneg; lia|].
  rewrite <- (Z.mod_small a (2 ^ 8)), <- (Z.mod_small b (2 ^ 8)) by done.
  rewrite <- lxor_mod by lia. apply Z.mod_pos_bound. lia.
Qed.

Lemma mask_bytes key data : forall offset,
  is_key key -> Forall is_byte data -> Forall is_byte (mask key offset data).
Proof.
  induction data as [|b data IH]; intros offset Hk Hf; cbn [mask]; [done|].
  apply Forall_cons in Hf as [Hb Hf]. constructor; [|by apply IH].
  apply lxor_byte; [done|]. apply at_key_byte; [done|]. apply Z.mod_pos_bound. lia.
Qed.

(** Masking twice with the same key is nothing. *)
Lemma mask_mask key data : forall offset, mask key offset (mask key offset data) = data.
Proof.
  induction data as [|b data IH]; intros offset; cbn [mask]; [done|].
  by rewrite IH, Z.lxor_assoc, Z.lxor_nilpotent, Z.lxor_0_r.
Qed.

(** ** Byte for byte *)
Lemma bytes_loop_spec key mid : forall fuel offset pre post,
  is_key key -> 0 <= offset < 4 -> (length mid < fuel)%nat ->
  bytes_loop fuel key offset (zlen pre) (zlen pre + zlen mid) (pre ++ mid ++ post) =
  Ok (pre ++ mask key offset mid ++ post).
Proof.
  induction mid as [|b mid IH]; intros fuel offset pre post Hk Ho Hf; (destruct fuel as [|fuel]; [cbn in Hf; lia|]);
    cbn [bytes_loop].
  - rewrite (proj2 (Z.eqb_eq _ _)) by (unfold zlen; cbn; lia). done.
  - rewrite (proj2 (Z.eqb_neq _ _)) by (unfold zlen; cbn [length]; lia).
    cbn [app]. rewrite get_app. cbn [checked mbind res_bind].
    rewrite (proj1 (at_key_byte key offset Hk Ho)). cbn [checked mbind res_bind].
    rewrite put_app. cbn [checked mbind res_bind mask].
    rewrite (Z.mod_small offset) by lia.
    set (x := Z.lxor b _). cbn [app].
    replace (pre ++ x :: mid ++ post) with ((pre ++ [x]) ++ mid ++ post) by (by rewrite <- app_assoc).
    replace (pre ++ x :: mask key (offset + 1) mid ++ post)
      with ((pre ++ [x]) ++ mask key (offset + 1) mid ++ post) by (by rewrite <- app_assoc).
    replace (zlen pre + zlen (b :: mid)) with (zlen (pre ++ [x]) + zlen mid)
      by (rewrite zlen_app; unfold zlen; cbn [length]; lia).
    replace (zlen pre + 1) with (zlen (pre ++ [x])) by (rewrite zlen_app; done).
    unfold kMaskingKeyLength. rewrite (wrap_u_id 64) by (unfold in_u; lia). cbn [length] in Hf.
    destruct (Z.eqb_spec (offset + 1) 4) as [E|E].
    + rewrite IH by (done || lia). by rewrite (mask_period key mid (offset + 1) 0) by (rewrite E; done).
    + by rewrite IH by (done || lia).
Qed.

Lemma by_bytes_spec key offset pre mid post begin end_ :
  is_key key -> begin = zlen pre -> end_ = zlen pre + zlen mid ->
  MaskWebSocketFramePayloadByBytes key (offset mod 4) begin end_ (pre ++ mid ++ post) =
  Ok (pre ++ mask key offset mid ++ post).
Proof.
  intros Hk -> ->. unfold MaskWebSocketFramePayloadByBytes.
  rewrite bytes_loop_spec; [|done|apply Z.mod_pos_bound; lia|unfold zlen; lia].
  by rewrite (mask_period key mid (offset mod 4) offset) by (apply Z.mod_mod; lia).
Qed.

(** ** Word for word *)
Lemma to_bytes_lxor n : forall a b,
  to_bytes n (Z.lxor a b) = zip_with Z.lxor (to_bytes n a) (to_bytes n b).
Proof.
  induction n as [|n IH]; intros a b; cbn [to_bytes zip_with]; [done|]. rewrite <- IH.
  change 256 with (2 ^ 8). f_equal.
  - by apply lxor_mod.
  - by rewrite <- !Z.shiftr_div_pow2, Z.shiftr_lxor by lia.
Qed.

Lemma to_of_bytes l : Forall is_byte l -> to_bytes (length l) (of_bytes l) = l.
Proof.
  induction l as [|b l IH]; intros Hf; cbn; [done|]. apply Forall_cons in Hf as [Hb Hf].
  unfold is_byte in Hb. rewrite Z.add_comm, (Z.mul_comm 256), Z.add_comm, Z.mod_add, Z.div_add by lia.
  rewrite Z.mod_small, Z.div_small, Z.add_0_l by lia. by rewrite IH.
Qed.

Lemma mask_zeros key l : forall offset n,
  length l = n -> zip_with Z.lxor l (mask key offset (repeat 0 n)) = mask key offset l.
Proof.
  induction l as [|b l IH]; intros offset n <-; cbn; [done|]. by rewrite Z.lxor_0_l, IH.
Qed.

Lemma word_spec key offset word packed :
  is_key key -> Forall is_byte word -> length word = 8%nat ->
  packed = of_bytes (mask key offset (repeat 0 8)) ->
  to_bytes 8 (Z.lxor (of_bytes word) packed) = mask key offset word.
Proof.
  intros Hk Hf Hl ->. rewrite to_bytes_lxor. rewrite <- Hl at 1. rewrite to_of_bytes by done.
  change 8%nat with (length (repeat 0 8)) at 1. rewrite <- (length_mask key (repeat 0 8) offset).
  rewrite to_of_bytes; [by apply mask_zeros|].
  apply mask_bytes; [done|]. by repeat constructor.
Qed.

Lemma words_loop_spec key packed n : forall fuel offset pre mid post,
  is_key key -> Forall is_byte mid -> length mid = (8 * n)%nat -> (n < fuel)%nat ->
  packed = of_bytes (mask key offset (repeat 0 8)) ->
  words_loop fuel packed (zlen pre) (zlen pre + zlen mid) (pre ++ mid ++ post) =
  Ok (pre ++ mask key offset mid ++ post).
Proof.
  induction n as [|n IH]; intros fuel offset pre mid post Hk Hb Hl Hf Hp;
    (destruct fuel as [|fuel]; [lia|]); cbn [words_loop].
  - destruct mid; [|done]. by rewrite (proj2 (Z.eqb_eq _ _)) by (unfold zlen; cbn; lia).
  - rewrite (proj2 (Z.eqb_neq _ _)) by (unfold zlen; lia).
    destruct (split_at 8 mid) as (word & mid' & -> & Hw); [lia|].
    rewrite length_app in Hl. apply Forall_app in Hb as [Hbw Hb].
    rewrite <- (app_assoc word), (load_app pre word) by (unfold kPackedMaskKeySize, zlen; lia).
    cbn [checked mbind res_bind]. rewrite (word_spec key offset) by done.
    rewrite (store_app pre word) by (unfold zlen; rewrite ?length_mask; lia). cbn [checked mbind res_bind].
    rewrite mask_app, <- !app_assoc, (app_assoc pre), (app_assoc pre (mask key offset word)).
    assert (Hz : zlen (pre ++ mask key offset word) = zlen pre + 8)
      by (rewrite zlen_app; unfold zlen; rewrite length_mask; lia).
    unfold kPackedMaskKeySize. rewrite <- Hz.
    replace (zlen pre + zlen (word ++ mid')) with (zlen (pre ++ mask key offset word) + zlen mid')
      by (rewrite Hz, zlen_app; unfold zlen; lia).
    assert (Hm : (offset + zlen word) mod 4 = offset mod 4).
    { unfold zlen. rewrite Hw. change (Z.of_nat 8) with (2 * 4). apply Z.mod_add. lia. }
    apply IH; [done|done|lia|lia|]. by rewrite (mask_period key (repeat 0 8) _ offset Hm).
Qed.

(** ** The whole

    The mask that is turned to where the words begin, twice in a word. *)
Lemma packed_spec key o m :
  m = mask key o [0; 0; 0; 0] ->
  store 0 m (to_bytes 8 0) = Some (m ++ [0; 0; 0; 0]) /\
  store kMaskingKeyLength m (m ++ [0; 0; 0; 0]) = Some (mask key o (repeat 0 8)).
Proof.
  intros ->. assert (Hl : length (mask key o [0; 0; 0; 0]) = 4%nat) by apply length_mask. split.
  - by apply (store_head [0; 0; 0; 0] [0; 0; 0; 0]).
  - set (m := mask key o [0; 0; 0; 0]) in *. rewrite <- (app_nil_r [0; 0; 0; 0]) at 1.
    rewrite (store_app m) by (unfold kMaskingKeyLength; rewrite ?Hl; done).
    rewrite app_nil_r. change (repeat 0 8) with ([0; 0; 0; 0] ++ [0; 0; 0; 0]).
    rewrite mask_app. do 2 f_equal. subst m. apply mask_period. change (zlen [0; 0; 0; 0]) with (1 * 4). symmetry. by apply Z.mod_add.
Qed.

(** Where the words begin and end. *)
Lemma word_borders address size :
  16 < size ->
  let lo := if address mod 8 =? 0 then 0 else 8 - address mod 8 in
  let hi := size - (address + size) mod 8 in
  0 <= lo < 8 /\ size - 8 < hi <= size /\ (hi - lo) mod 8 = 0.
Proof.
  intros Hs lo hi. pose proof (Z.mod_pos_bound address 8). pose proof (Z.mod_pos_bound (address + size) 8).
  assert (Hlo : lo mod 8 = (- address) mod 8).
  { subst lo. destruct (Z.eqb_spec (address mod 8) 0) as [E|E].
    - symmetry. rewrite Z.mod_opp_l_z; done || lia.
    - rewrite Z.mod_opp_l_nz by lia. apply Z.mod_small. lia. }
  split; [subst lo; destruct (Z.eqb_spec (address mod 8) 0); lia|]. split; [lia|].
  rewrite Zminus_mod, Hlo, <- Zminus_mod. subst hi.
  replace (size - (address + size) mod 8 - - address) with ((address + size) - (address + size) mod 8) by lia.
  rewrite (Z.div_mod (address + size) 8) at 1 by lia.
  replace (_ + _ - _) with ((address + size) / 8 * 8) by lia. by apply Z.mod_mul.
Qed.

Lemma u64_mod4 z : u64 z mod 4 = z mod 4.
Proof. unfold wrap_u. apply Z.mod_mod_divide. by exists (2 ^ 62). Qed.

(** Three parts of the data, masked one after the other. *)
Lemma mask_parts key o front mid back post packed :
  is_key key -> Forall is_byte mid -> zlen mid mod 8 = 0 ->
  packed = of_bytes (mask key (o + zlen front) (repeat 0 8)) ->
  (data ← MaskWebSocketFramePayloadByBytes key (o mod 4) 0 (zlen front) (front ++ mid ++ back ++ post);
   data ← words_loop (S (Z.to_nat (zlen mid))) packed (zlen front) (zlen front + zlen mid) data;
   MaskWebSocketFramePayloadByBytes key (u64 (o + (zlen front + zlen mid)) mod 4)
     (zlen front + zlen mid) (zlen front + zlen mid + zlen back) data) =
  Ok (mask key o (front ++ mid ++ back) ++ post).
Proof.
  intros Hk Hb Hm Hp.
  assert (Hn : length mid = (8 * Z.to_nat (zlen mid / 8))%nat)
    by (pose proof (Z.div_mod (zlen mid) 8); unfold zlen in *; lia).
  rewrite (by_bytes_spec key o [] front (mid ++ back ++ post)) by done. cbn [mbind res_bind app].
  assert (Hz : zlen (mask key o front) = zlen front) by (unfold zlen; by rewrite length_mask).
  rewrite <- Hz. rewrite (words_loop_spec key packed (Z.to_nat (zlen mid / 8)) _ (o + zlen front));
    [|done|done|done|unfold zlen in *; lia|done].
  cbn [mbind res_bind]. rewrite u64_mod4, app_assoc.
  rewrite (by_bytes_spec key (o + (zlen (mask key o front) + zlen mid)) _ back post).
  - rewrite !mask_app, Hz, !Z.add_assoc. by rewrite <- !app_assoc.
  - done.
  - rewrite zlen_app. unfold zlen. rewrite !length_mask. lia.
  - rewrite zlen_app. unfold zlen. rewrite !length_mask. lia.
Qed.

Lemma MaskWebSocketFramePayload_spec key o address l post :
  is_key key -> Forall is_byte l ->
  MaskWebSocketFramePayload key o address (l ++ post) (zlen l) = Ok (mask key o l ++ post).
Proof.
  intros Hk Hb. unfold MaskWebSocketFramePayload. pose proof (zlen_nonneg l).
  rewrite (proj2 (Z.leb_le 0 _)) by done. cbn [DCHECK checked mbind res_bind].
  change (kPackedMaskKeySize * 2) with 16. change kMaskingKeyLength with 4. change kPackedMaskKeySize with 8.
  destruct (Z.leb_spec (zlen l) 16) as [Hs|Hs]; [by apply (by_bytes_spec key o [] l post)|].
  pose proof (word_borders address (zlen l) Hs) as Hw. cbv zeta in Hw.
  set (lo := if address mod 8 =? 0 then 0 else 8 - address mod 8) in *.
  set (hi := zlen l - (address + zlen l) mod 8) in *. destruct Hw as (Hlo & Hhi & Hmod).
  rewrite !(proj2 (Z.ltb_lt _ _)) by lia. cbn [DCHECK checked mbind res_bind].
  destruct (split_at (Z.to_nat lo) l) as (front & rest & -> & Hf); [unfold zlen in *; lia|].
  destruct (split_at (Z.to_nat (hi - lo)) rest) as (mid & back & -> & Hmid);
    [pose proof (zlen_app front rest); unfold zlen in *; lia|].
  rewrite !zlen_app in *. assert (E1 : lo = zlen front) by (unfold zlen; lia).
  assert (E2 : hi = zlen front + zlen mid) by (unfold zlen in *; lia). clearbody lo hi. subst lo hi.
  apply Forall_app in Hb as [_ Hb]. apply Forall_app in Hb as [Hb _].
  destruct (packed_spec key (o + zlen front) _ eq_refl) as [P1 P2].
  rewrite <- (mask_parts key o front mid back post
    (of_bytes (mask key (o + zlen front) (repeat 0 8))) Hk Hb); [|by rewrite <- Hmod; f_equal; lia|reflexivity].
  rewrite <- !app_assoc. destruct (MaskWebSocketFramePayloadByBytes key (o mod 4) 0 _ _); [|done..].
  cbn [mbind res_bind]. rewrite u64_mod4, (by_bytes_spec key _ [] [0; 0; 0; 0] []) by done.
  cbn [mbind res_bind app].
  rewrite app_nil_r, (mask_period key _ _ _ (u64_mod4 (o + zlen front))), P1. cbn [checked mbind res_bind].
  change kMaskingKeyLength with 4 in P2. rewrite P2. cbn [checked mbind res_bind].
  replace (zlen front + zlen mid - zlen front) with (zlen mid) by lia.
  by rewrite !Z.add_assoc.
Qed.

Lemma MaskWebSocketFramePayload_all key o address l :
  is_key key -> Forall is_byte l ->
  MaskWebSocketFramePayload key o address l (zlen l) = Ok (mask key o l).
Proof.
  intros Hk Hb. pose proof (MaskWebSocketFramePayload_spec key o address l [] Hk Hb) as E.
  by rewrite !app_nil_r in E.
Qed.
