(* ===== verification/WebSocketProperties.v ===== *)
(** Frames of WebSocket go through: what the parser makes of a stream does not
    depend on where it is cut, and frames that are written come out again. *)
From S2P Require Import Prelude CArrays Memory BigEndian WebSocketFrame WebSocketFrameParser WebSocketMasking.
From Stdlib Require Import ZifyBool.

(** ** What a stream says

    The header at the front of a stream: it is not all there, or its length is
    wrong, or it is read, with the key and with the bytes it takes. *)
Inductive verdict :=
  | Incomplete
  | Wrong (e : WebSocketError)
  | Complete (h : WebSocketFrameHeader) (key : list Z) (size : nat).

(** A bit of a byte. *)
Definition bit (b n : Z) : bool := Z.testbit b n.
#[local] Arguments bit : simpl never.

(** A length must not fit a shorter field, nor be longer than the parser takes. *)
Definition length_error (field : nat) (len : Z) : option WebSocketError :=
  match field with
  | 2%nat => if len <? 126 then Some kWebSocketErrorProtocolError else None
  | 8%nat => if (len <? 2 ^ 16) || (2 ^ 63 <=? len) then Some kWebSocketErrorProtocolError
             else if 2 ^ 31 <=? len then Some kWebSocketErrorMessageTooBig else None
  | _ => None
  end.

Definition header_at (s : list Z) : verdict :=
  match s with
  | b1 :: b2 :: s =>
      let field := if b2 mod 128 =? 126 then 2%nat else if b2 mod 128 =? 127 then 8%nat else 0%nat in
      let masked := bit b2 7 in
      if (length s <? field)%nat then Incomplete else
      let len := if (field =? 0)%nat then b2 mod 128 else be_value (take field s) in
      match length_error field len with
      | Some e => Wrong e
      | None =>
          let key := if masked then 4%nat else 0%nat in
          if (length s <? field + key)%nat then Incomplete else
          Complete (mkWebSocketFrameHeader (bit b1 7) (bit b1 6) (bit b1 5)
                      (bit b1 4) (b1 mod 16) masked len)
            (if masked then take 4 (drop field s) else no_key) (2 + field + key)
      end
  | _ => Incomplete
  end.

Lemma length_error_wrong field len e : length_error field len = Some e -> e <> kWebSocketNormalClosure.
Proof. unfold length_error. repeat case_match; intros; by simplify_eq. Qed.

Lemma wrong_differs e : e <> kWebSocketNormalClosure -> (e != kWebSocketNormalClosure) = true.
Proof. intros He. by destruct (enum_eqb_spec e kWebSocketNormalClosure). Qed.

(** What the client of the parser gets to know, but for the borders of chunks. *)
Inductive event :=
  | Begins (h : WebSocketFrameHeader)
  | Byte (b : Z)
  | Ends.

Definition events_of (c : WebSocketFrameChunk) : list event :=
  match header c with Some h => [Begins h] | None => [] end ++
  map Byte (default [] (data c)) ++ (if final_chunk c then [Ends] else []).

Definition outcome : Type := list event * WebSocketError.
Definition behind (es : list event) (r : outcome) : outcome := (es ++ fst r, snd r).

(** The payload of a frame from an offset on, and what is [next]. *)
Definition payload_in (next : list Z -> outcome) (len : Z) (key : list Z) (offset : Z) (s : list Z)
    : outcome :=
  if zlen s <? len - offset then (map Byte (mask key offset s), kWebSocketNormalClosure)
  else behind (map Byte (mask key offset (take (Z.to_nat (len - offset)) s)) ++ [Ends])
              (next (drop (Z.to_nat (len - offset)) s)).

Fixpoint frames_within (fuel : nat) (s : list Z) : outcome :=
  match fuel with
  | O => ([], kWebSocketNormalClosure)
  | S fuel =>
      match header_at s with
      | Incomplete => ([], kWebSocketNormalClosure)
      | Wrong e => ([], e)
      | Complete h key size =>
          behind [Begins h] (payload_in (frames_within fuel) (payload_length h) key 0 (drop size s))
      end
  end.

(** The frames of a stream. *)
Definition frames (s : list Z) : outcome := frames_within (S (length s)) s.

(** *** The header at the front *)
Lemma field_length field s :
  length_error field (be_value (take field s)) = None -> (field = 2 \/ field = 8)%nat ->
  Forall is_byte s -> 0 <= be_value (take field s) < 2 ^ 31.
Proof.
  intros Hl Hf Hb. pose proof (be_value_range (take field s) (Forall_take _ _ _ Hb)) as Hr.
  destruct Hf as [-> | ->]; cbn [length_error] in Hl; repeat case_if_in Hl; try done; [|lia].
  assert (256 ^ zlen (take 2 s) <= 256 ^ 2); [|lia].
  apply Z.pow_le_mono_r; [lia|]. unfold zlen. rewrite length_take. lia.
Qed.

Lemma header_at_complete s h key size :
  header_at s = Complete h key size ->
  (2 <= size <= length s)%nat /\ (masked h = false -> key = no_key) /\
  (Forall is_byte s -> 0 <= payload_length h < 2 ^ 31 /\ is_key key).
Proof.
  unfold header_at. destruct s as [|b1 [|b2 s]]; [done..|]. cbv zeta.
  pose proof (Z.mod_pos_bound b2 128 ltac:(lia)).
  destruct (Nat.ltb_spec (length s) (if b2 mod 128 =? 126 then 2 else if b2 mod 128 =? 127 then 8 else 0)); [done|].
  set (field := if b2 mod 128 =? 126 then _ else _) in *.
  destruct (length_error _ _) eqn:El; [done|].
  destruct (Nat.ltb_spec (length s) (field + (if bit b2 7 then 4 else 0))); [done|]. intros [= <- <- <-].
  cbn [length payload_length masked]. split; [lia|]. split; [by intros ->|].
  intros Hf. apply Forall_cons in Hf as [_ Hf]. apply Forall_cons in Hf as [_ Hf]. split.
  - destruct (Nat.eqb_spec field 0) as [E|E]; cbn [payload_length]; [lia|]. apply field_length; [done| |done].
    subst field. repeat case_if; lia.
  - destruct (bit b2 7); [|split; [done|by repeat constructor]].
    split; [rewrite length_take, length_drop; lia|]. by apply Forall_take, Forall_drop.
Qed.

Lemma wrong_error s e : header_at s = Wrong e -> e <> kWebSocketNormalClosure.
Proof.
  unfold header_at. destruct s as [|b1 [|b2 s]]; [done..|]. cbv zeta. case_match; [done|].
  destruct (length_error _ _) as [e'|] eqn:El; [|by repeat case_match]. intros [= <-].
  by eapply length_error_wrong.
Qed.

Lemma header_at_app s t : header_at s <> Incomplete -> header_at (s ++ t) = header_at s.
Proof.
  unfold header_at. destruct s as [|b1 [|b2 s]]; [done..|]. cbn [app]. cbv zeta.
  set (field := if b2 mod 128 =? 126 then _ else _). rewrite !length_app.
  destruct (Nat.ltb_spec (length s) field); [done|]. rewrite (proj2 (Nat.ltb_ge _ field)) by lia.
  rewrite take_app_le by lia. set (len := if (field =? 0)%nat then _ else _).
  destruct (length_error _ _); [done|]. set (key := if bit b2 7 then 4%nat else 0%nat).
  destruct (Nat.ltb_spec (length s) (field + key)); [done|]. rewrite (proj2 (Nat.ltb_ge _ (field + key))) by lia.
  intros _. do 2 f_equal. destruct (bit b2 7); [|done].
  rewrite drop_app_le, take_app_le; rewrite ?length_drop; [done|lia..].
Qed.

Lemma header_at_incomplete s : header_at s = Incomplete -> zlen s < 14.
Proof.
  unfold header_at. destruct s as [|b1 [|b2 s]]; [unfold zlen; cbn; lia..|]. cbv zeta.
  set (field := if b2 mod 128 =? 126 then _ else _).
  assert (Hf : (field <= 8)%nat) by (subst field; repeat case_if; lia). unfold zlen. cbn [length].
  destruct (Nat.ltb_spec (length s) field); [lia|]. destruct (length_error _ _); [done|].
  destruct (Nat.ltb_spec (length s) (field + (if bit b2 7 then 4 else 0))); [|done]. destruct (bit b2 7); lia.
Qed.

(** *** Fuel does not matter *)
Lemma payload_in_ext next next' len key offset s :
  (forall s', (length s' <= length s)%nat -> next s' = next' s') ->
  payload_in next len key offset s = payload_in next' len key offset s.
Proof.
  intros He. unfold payload_in. case_if; [done|]. rewrite He; [done|]. rewrite length_drop. lia.
Qed.

Lemma frames_within_enough m : forall n s,
  (length s < n)%nat -> (length s < m)%nat -> frames_within n s = frames_within m s.
Proof.
  induction m as [|m IH]; intros [|n] s Hn Hm; [lia..|]. cbn [frames_within].
  destruct (header_at s) as [| |h key size] eqn:E; [done..|]. f_equal.
  apply header_at_complete in E as [Hs _].
  apply payload_in_ext. intros s' Hl. rewrite length_drop in Hl. apply IH; lia.
Qed.

Lemma frames_eq s :
  frames s = match header_at s with
             | Incomplete => ([], kWebSocketNormalClosure)
             | Wrong e => ([], e)
             | Complete h key size =>
                 behind [Begins h] (payload_in frames (payload_length h) key 0 (drop size s))
             end.
Proof.
  unfold frames at 1. cbn [frames_within]. destruct (header_at s) as [| |h key size] eqn:E; [done..|].
  f_equal. apply header_at_complete in E as [Hs _].
  apply payload_in_ext. intros s' Hl. rewrite length_drop in Hl. apply frames_within_enough; lia.
Qed.

#[local] Arguments frames : simpl never.

Lemma behind_behind es es' r : behind es (behind es' r) = behind (es ++ es') r.
Proof. unfold behind. cbn. by rewrite app_assoc. Qed.

(** Some of the payload, and the rest of it. *)
Lemma payload_in_app next len key offset s t :
  zlen s <= len - offset ->
  payload_in next len key offset (s ++ t) =
  behind (map Byte (mask key offset s)) (payload_in next len key (offset + zlen s) t).
Proof.
  intros Hs. unfold payload_in. rewrite zlen_app. pose proof (zlen_nonneg t).
  replace (len - (offset + zlen s)) with (len - offset - zlen s) by lia.
  rewrite mask_app, map_app. destruct (Z.ltb_spec (zlen s + zlen t) (len - offset)).
  - by rewrite (proj2 (Z.ltb_lt _ _)) by lia.
  - rewrite (proj2 (Z.ltb_ge _ _)) by lia. rewrite behind_behind. unfold zlen in *.
    rewrite take_app_ge, drop_app_ge by lia. rewrite mask_app, map_app, <- app_assoc.
    by replace (Z.to_nat (len - offset - Z.of_nat (length s))) with (Z.to_nat (len - offset) - length s)%nat by lia.
Qed.

(** ** Reading a header *)
Lemma flags b : is_byte b ->
  !(Z.land b kFinalBit =? 0) = bit b 7 /\ !(Z.land b kReserved1Bit =? 0) = bit b 6 /\
  !(Z.land b kReserved2Bit =? 0) = bit b 5 /\ !(Z.land b kReserved3Bit =? 0) = bit b 4 /\
  Z.land b kOpCodeMask = b mod 16 /\ Z.land b 0x7F = b mod 128.
Proof.
  intros Hb. split_and!; revert b Hb; unfold is_byte, bit; compute_below 256%nat.
Qed.

Lemma lies_take (pre s : list Z) n : lies (pre ++ s) (zlen pre) (take n s).
Proof. rewrite <- (take_drop n s) at 1. apply lies_between. Qed.

Lemma extended_length_spec b2 pre s :
  is_byte b2 -> Forall is_byte s ->
  let field := if b2 mod 128 =? 126 then 2%nat else if b2 mod 128 =? 127 then 8%nat else 0%nat in
  let len := if (field =? 0)%nat then b2 mod 128 else be_value (take field s) in
  extended_length b2 (pre ++ s) (zlen pre) (zlen (pre ++ s)) =
  if (length s <? field)%nat then Some None
  else Some (Some (len, zlen pre + Z.of_nat field, default kWebSocketNormalClosure (length_error field len))).
Proof.
  intros Hb Hf. cbv zeta. unfold extended_length. rewrite zlen_app.
  destruct (flags b2 Hb) as (_ & _ & _ & _ & _ & ->).
  change kPayloadLengthWithTwoByteExtendedLengthField with 126.
  change kPayloadLengthWithEightByteExtendedLengthField with 127.
  assert (Hread : forall n, (0 < n)%nat -> (n <= length s)%nat ->
    ReadBigEndian n (pre ++ s) (zlen pre) = Some (be_value (take n s))).
  { intros n Hn Hs. apply ReadBigEndian_spec; [done| |by apply Forall_take|apply lies_take].
    rewrite length_take. lia. }
  destruct (Z.eqb_spec (b2 mod 128) 126); [|destruct (Z.eqb_spec (b2 mod 128) 127)].
  - destruct (Nat.ltb_spec (length s) 2); [by rewrite (proj2 (Z.ltb_lt _ _)) by (unfold zlen; lia)|].
    rewrite (proj2 (Z.ltb_ge _ _)), Hread by (unfold zlen; lia). cbn [mbind option_bind length_error Nat.eqb].
    change kMaxPayloadLengthWithoutExtendedLengthField with 125. do 3 f_equal.
    destruct (Z.leb_spec (be_value (take 2 s)) 125); [by rewrite (proj2 (Z.ltb_lt _ 126)) by lia|].
    by rewrite (proj2 (Z.ltb_ge _ 126)) by lia.
  - destruct (Nat.ltb_spec (length s) 8); [by rewrite (proj2 (Z.ltb_lt _ _)) by (unfold zlen; lia)|].
    rewrite (proj2 (Z.ltb_ge _ _)), Hread by (unfold zlen; lia). cbn [mbind option_bind length_error Nat.eqb].
    set (v := be_value (take 8 s)). do 3 f_equal. unfold kuint16max, kint64max, kint32max.
    replace ((v <=? 65535) || (9223372036854775807 <? v)) with ((v <? 2 ^ 16) || (2 ^ 63 <=? v)) by lia.
    replace (2147483647 <? v) with (2 ^ 31 <=? v) by lia. by repeat case_if.
  - cbn. by rewrite Z.add_0_r.
Qed.

Lemma load_slice (pre s : list Z) (i n : nat) offset size :
  offset = zlen pre + Z.of_nat i -> size = Z.of_nat n -> (i + n <= length s)%nat ->
  load (pre ++ s) offset size = Some (take n (drop i s)).
Proof.
  intros -> -> Hn. rewrite <- (take_drop i s) at 1. rewrite <- (take_drop n (drop i s)) at 1.
  rewrite app_assoc. apply load_app; unfold zlen; rewrite ?length_app, ?length_take, ?length_drop; lia.
Qed.

(** The parser behind a header. *)
Definition with_header (h : WebSocketFrameHeader) (key : list Z) (size : nat) (p : WebSocketFrameParser) :=
  p <| masking_key_ := key |> <| current_frame_header_ := Some h |>
    <| current_read_pos_ := current_read_pos_ p + Z.of_nat size |>.

Lemma DecodeFrameHeader_spec p pre s :
  current_frame_header_ p = None -> frame_offset_ p = 0 ->
  buffer_ p = pre ++ s -> current_read_pos_ p = zlen pre -> Forall is_byte s ->
  DecodeFrameHeader p = Some (match header_at s with
    | Incomplete => p
    | Wrong e => mkWebSocketFrameParser [] 0 None (masking_key_ p) 0 e
    | Complete h key size => with_header h key size p
    end).
Proof.
  intros Hn Ho Hbuf Hpos Hf. unfold DecodeFrameHeader. rewrite Hn, Hbuf, Hpos, Ho, zlen_app.
  cbn [DCHECK mbind option_bind].
  destruct s as [|b1 [|b2 s]].
  1,2: by rewrite (proj2 (Z.ltb_lt _ 2)) by (unfold zlen; cbn; lia).
  rewrite (proj2 (Z.ltb_ge _ 2)) by (unfold zlen; cbn [length]; lia).
  apply Forall_cons in Hf as [Hb1 Hf]. apply Forall_cons in Hf as [Hb2 Hf].
  rewrite get_app. cbn [mbind option_bind].
  replace (zlen pre + 1) with (zlen (pre ++ [b1])) by (rewrite zlen_app; done).
  replace (pre ++ b1 :: b2 :: s) with ((pre ++ [b1]) ++ b2 :: s) by (by rewrite <- app_assoc).
  rewrite get_app. cbn [mbind option_bind].
  replace ((pre ++ [b1]) ++ b2 :: s) with ((pre ++ [b1; b2]) ++ s) by (by rewrite <- !app_assoc).
  replace (zlen pre + 2) with (zlen (pre ++ [b1; b2])) by (rewrite zlen_app; done).
  replace (zlen pre + zlen (b1 :: b2 :: s)) with (zlen ((pre ++ [b1; b2]) ++ s))
    by (rewrite !zlen_app; unfold zlen; cbn [length]; lia).
  rewrite !(wrap_u_id 8) by done.
  destruct (flags b1 Hb1) as (-> & -> & -> & -> & -> & _). change kMaskBit with kFinalBit.
  destruct (flags b2 Hb2) as (-> & _).
  pose proof (extended_length_spec b2 (pre ++ [b1; b2]) s Hb2 Hf) as E. cbv zeta in E. rewrite E. clear E.
  cbn [header_at]. set (field := if b2 mod 128 =? 126 then _ else _).
  destruct (Nat.ltb_spec (length s) field) as [Hl|Hl]; [done|]. cbn [mbind option_bind].
  set (len := if (field =? 0)%nat then _ else _).
  destruct (length_error field len) as [e|] eqn:El; cbn [default].
  { rewrite wrong_differs by (by eapply length_error_wrong). done. }
  cbn [enum_eqb negb]. change (kWebSocketNormalClosure != kWebSocketNormalClosure) with false. cbv iota.
  assert (Hz : zlen (pre ++ [b1; b2]) = zlen pre + 2) by (by rewrite zlen_app).
  destruct (bit b2 7).
  - rewrite zlen_app. destruct (Nat.ltb_spec (length s) (field + 4)).
    + by rewrite (proj2 (Z.ltb_lt _ _)) by (unfold zlen, kMaskingKeyLength in *; lia).
    + rewrite (proj2 (Z.ltb_ge _ _)) by (unfold zlen, kMaskingKeyLength in *; lia).
      rewrite (load_slice _ s field 4) by (unfold kMaskingKeyLength; lia).
      cbn [mbind option_bind DCHECK Z.eqb]. unfold with_header. cbn. do 2 f_equal. unfold kMaskingKeyLength. lia.
  - rewrite Nat.add_0_r, (proj2 (Nat.ltb_ge _ _)) by lia.
    cbn [mbind option_bind DCHECK Z.eqb]. unfold with_header. cbn. do 2 f_equal. lia.
Qed.

(** ** Reading a payload *)
Lemma Clone_spec h : Clone h = h.
Proof. by destruct h. Qed.

Lemma at_no_key i : at_ no_key i = 0.
Proof.
  unfold at_. destruct (i <? 0); [done|]. destruct (no_key !! Z.to_nat i) as [x|] eqn:E; [|done].
  apply list_elem_of_lookup_2 in E. cbn in *. set_unfold. naive_solver.
Qed.

Lemma mask_no_key l : forall o, mask no_key o l = l.
Proof. induction l as [|b l IH]; intros o; cbn [mask]; [done|]. by rewrite at_no_key, Z.lxor_0_r, IH. Qed.

(** The parser in front of the rest [s] of a payload. *)
Record in_payload (p : WebSocketFrameParser) (h : WebSocketFrameHeader) (pre s : list Z) : Prop := {
  ip_header : current_frame_header_ p = Some h;
  ip_error : websocket_error_ p = kWebSocketNormalClosure;
  ip_buffer : buffer_ p = pre ++ s;
  ip_pos : current_read_pos_ p = zlen pre;
  ip_bytes : Forall is_byte s;
  ip_key : is_key (masking_key_ p);
  ip_plain : masked h = false -> masking_key_ p = no_key;
  ip_length : 0 <= frame_offset_ p <= payload_length h /\ payload_length h < 2 ^ 31
}.

(** The bytes of the payload that a buffer has. *)
Definition payload_size (p : WebSocketFrameParser) (h : WebSocketFrameHeader) (s : list Z) : Z :=
  Z.min (zlen s) (payload_length h - frame_offset_ p).

Lemma payload_data p h pre s io_data :
  in_payload p h pre s -> 0 < payload_size p h s ->
  (data ← checked (load (buffer_ p) (current_read_pos_ p) (payload_size p h s));
   if masked h then MaskWebSocketFramePayload (masking_key_ p) (frame_offset_ p) io_data data (payload_size p h s)
   else Ok data) =
  Ok (mask (masking_key_ p) (frame_offset_ p) (take (Z.to_nat (payload_size p h s)) s)).
Proof.
  intros Hp Hn. set (n := payload_size p h s) in *. pose proof (ip_length _ _ _ _ Hp).
  assert (Hs : n <= zlen s) by (unfold n, payload_size; lia).
  rewrite (ip_buffer _ _ _ _ Hp), (ip_pos _ _ _ _ Hp), (load_slice pre s 0 (Z.to_nat n)) by (unfold zlen in *; lia).
  cbn [checked mbind res_bind]. rewrite drop_0. set (l := take _ s) in *.
  assert (Hl : n = zlen l) by (subst l; rewrite zlen_take; lia).
  assert (Hb : Forall is_byte l) by (apply Forall_take, (ip_bytes _ _ _ _ Hp)).
  destruct (masked h) eqn:Em.
  - rewrite Hl. by apply MaskWebSocketFramePayload_all; [apply Hp|].
  - by rewrite (ip_plain _ _ _ _ Hp Em), mask_no_key.
Qed.

(** The chunk that is made, and the parser behind it. *)
Lemma DecodeFramePayload_spec p h pre s first io_data :
  in_payload p h pre s -> zlen (buffer_ p) < 2 ^ 63 ->
  let n := payload_size p h s in
  let ends := frame_offset_ p + n =? payload_length h in
  exists c, DecodeFramePayload first io_data p =
    Ok (c, mkWebSocketFrameParser (buffer_ p) (current_read_pos_ p + n) (if ends then None else Some h)
             (masking_key_ p) (if ends then 0 else frame_offset_ p + n) (websocket_error_ p)) /\
    events_of c = (if first : bool then [Begins h] else []) ++
      map Byte (mask (masking_key_ p) (frame_offset_ p) (take (Z.to_nat n) s)) ++ (if ends then [Ends] else []).
Proof.
  intros Hp Hz n ends. pose proof (ip_length _ _ _ _ Hp) as Hlen. pose proof (zlen_nonneg s).
  pose proof (zlen_nonneg pre). pose proof Hz as Hz'. rewrite (ip_buffer _ _ _ _ Hp), zlen_app in Hz'.
  unfold DecodeFramePayload. rewrite (ip_header _ _ _ _ Hp). cbn [checked mbind res_bind].
  assert (En : Z.min (u64 (zlen (buffer_ p) - current_read_pos_ p)) (u64 (payload_length h - frame_offset_ p)) = n).
  { rewrite (ip_buffer _ _ _ _ Hp), (ip_pos _ _ _ _ Hp), zlen_app, !wrap_u_id by (unfold in_u; lia).
    unfold n, payload_size. lia. }
  rewrite En. clear En. assert (Hn : 0 <= n < 2 ^ 31) by (unfold n, payload_size; lia).
  rewrite (proj2 (Z.leb_le n kint32max)) by (unfold kint32max; lia). cbn [DCHECK checked mbind res_bind].
  rewrite Clone_spec. set (hd := if first then _ else _).
  set (p' := p <| current_read_pos_ := current_read_pos_ p + n |> <| frame_offset_ := frame_offset_ p + n |>).
  set (d := mask (masking_key_ p) (frame_offset_ p) (take (Z.to_nat n) s)).
  match goal with |- context [(?r ≫= _) = _] =>
    assert (Hd : exists od, r = Ok (od, p') /\ default [] od = d) end.
  { destruct (Z.eqb_spec n 0) as [E|E].
    - exists None. subst d p'. rewrite E, !Z.add_0_r. split; [by destruct p|done].
    - exists (Some d). pose proof (payload_data p h pre s io_data Hp ltac:(lia)) as Ed. fold n in Ed. fold d in Ed.
      destruct (checked (load _ _ _)) as [l| |]; cbn [mbind res_bind] in *; [|done..].
      rewrite Ed. cbn [mbind res_bind]. subst p'. rewrite wrap_u_id by (unfold in_u; lia). done. }
  destruct Hd as (od & -> & Eod). cbn [mbind res_bind]. subst p'. cbn [frame_offset_ setter].
  unfold setter. cbn.
  rewrite (proj2 (Z.leb_le _ (payload_length h))) by (unfold n, payload_size; lia). cbn [DCHECK checked mbind res_bind].
  rewrite (ip_header _ _ _ _ Hp).
  fold ends. destruct ends; eexists; (split; [reflexivity|]); unfold events_of; cbn [header data final_chunk];
    rewrite Eod; subst hd; by destruct first.
Qed.

(** ** Where the parser is in a stream

    The parser has read [pre] of its buffer and has [s] left, without an error,
    and the rest of the stream means [future] to it. *)
Record standing (p : WebSocketFrameParser) (pre s : list Z) : Prop := {
  st_error : websocket_error_ p = kWebSocketNormalClosure;
  st_buffer : buffer_ p = pre ++ s;
  st_pos : current_read_pos_ p = zlen pre;
  st_bytes : Forall is_byte s;
  st_header : match current_frame_header_ p with
              | None => frame_offset_ p = 0
              | Some h => in_payload p h pre s /\ frame_offset_ p < payload_length h
              end
}.

Definition future (p : WebSocketFrameParser) (s : list Z) : outcome :=
  match current_frame_header_ p with
  | None => frames s
  | Some h => payload_in frames (payload_length h) (masking_key_ p) (frame_offset_ p) s
  end.

(** A chunk of payload takes the parser further. *)
Lemma payload_step p h pre s first io_data :
  in_payload p h pre s -> zlen (buffer_ p) < 2 ^ 63 ->
  exists c p' pre' s',
    DecodeFramePayload first io_data p = Ok (c, p') /\ standing p' pre' s' /\ buffer_ p' = buffer_ p /\
    (current_frame_header_ p' <> None -> s' = []) /\ (length s' <= length s)%nat /\
    (0 < zlen s -> frame_offset_ p < payload_length h -> (length s' < length s)%nat) /\
    forall t, behind (if first : bool then [Begins h] else []) (future p (s ++ t)) =
              behind (events_of c) (future p' (s' ++ t)).
Proof.
  intros Hp Hz. destruct (DecodeFramePayload_spec p h pre s first io_data Hp Hz) as (c & E & Ec).
  set (n := payload_size p h s) in *. set (ends := frame_offset_ p + n =? payload_length h) in *.
  pose proof (ip_length _ _ _ _ Hp) as Hlen. pose proof (zlen_nonneg s).
  assert (Hn : 0 <= n <= zlen s /\ n <= payload_length h - frame_offset_ p /\
               (n = zlen s \/ n = payload_length h - frame_offset_ p)) by (unfold n, payload_size; lia).
  eexists c, _, (pre ++ take (Z.to_nat n) s), (drop (Z.to_nat n) s).
  assert (Hpos : current_read_pos_ p + n = zlen (pre ++ take (Z.to_nat n) s)).
  { rewrite (ip_pos _ _ _ _ Hp), zlen_app, zlen_take; lia. }
  assert (Hbuf : buffer_ p = (pre ++ take (Z.to_nat n) s) ++ drop (Z.to_nat n) s).
  { by rewrite <- app_assoc, take_drop, (ip_buffer _ _ _ _ Hp). }
  assert (Hb : Forall is_byte (drop (Z.to_nat n) s)) by (apply Forall_drop, (ip_bytes _ _ _ _ Hp)).
  assert (Hdrop : ends = false -> n = zlen s /\ drop (Z.to_nat n) s = [] /\ frame_offset_ p + n < payload_length h).
  { subst ends. intros Ee%Z.eqb_neq. split; [lia|]. split; [apply drop_ge; unfold zlen in *; lia|lia]. }
  split; [exact E|]. split; [|split; [done|split; [|split; [|split]]]]; cbn.
  - constructor; cbn; [by apply Hp|done|done|done|]. destruct ends; cbn; [done|].
    destruct (Hdrop eq_refl) as (? & ? & ?). split; [|done].
    constructor; cbn; try done; try apply Hp. lia.
  - destruct ends; [done|]. intros _. by apply Hdrop.
  - rewrite length_drop. lia.
  - rewrite length_drop. unfold zlen in *. intros. destruct Hn as (? & ? & [? | ?]); lia.
  - intros t. rewrite Ec. unfold future. rewrite (ip_header _ _ _ _ Hp). cbn.
    destruct ends eqn:Ee; cbn [current_frame_header_ masking_key_ frame_offset_].
    + subst ends. apply Z.eqb_eq in Ee. unfold payload_in. rewrite zlen_app. pose proof (zlen_nonneg t).
      rewrite (proj2 (Z.ltb_ge _ _)), behind_behind by lia.
      replace (payload_length h - frame_offset_ p) with n by lia.
      rewrite take_app_le, drop_app_le by (unfold zlen in *; lia). done.
    + destruct (Hdrop eq_refl) as (En & -> & ?). rewrite app_nil_r, payload_in_app, behind_behind by lia.
      rewrite take_ge by (unfold zlen in *; lia). cbn [app]. by rewrite En.
Qed.

(** ** The loop *)
Definition decoded (p : WebSocketFrameParser) (s : list Z) (answer : bool)
    (chunks : list WebSocketFrameChunk) (p' : WebSocketFrameParser) : Prop :=
  if answer then
    exists pre' s', standing p' pre' s' /\ buffer_ p' = buffer_ p /\
      match current_frame_header_ p' with None => header_at s' = Incomplete | Some _ => s' = [] end /\
      forall t, future p (s ++ t) = behind (flat_map events_of chunks) (future p' (s' ++ t))
  else websocket_error_ p' <> kWebSocketNormalClosure /\
    forall t, future p (s ++ t) = (flat_map events_of chunks, websocket_error_ p').

Lemma decoded_cons p s p1 s1 c answer chunks p' :
  buffer_ p1 = buffer_ p ->
  (forall t, future p (s ++ t) = behind (events_of c) (future p1 (s1 ++ t))) ->
  decoded p1 s1 answer chunks p' -> decoded p s answer (c :: chunks) p'.
Proof.
  intros Hb Hf. unfold decoded. destruct answer.
  - intros (pre' & s' & Hst & Hb' & Hh & Ht). exists pre', s'. split; [done|]. split; [congruence|].
    split; [done|]. intros t. by rewrite Hf, Ht, behind_behind.
  - intros [He Ht]. split; [done|]. intros t. rewrite Hf, Ht. done.
Qed.

Lemma behind_nil r : behind [] r = r.
Proof. by destruct r. Qed.

(** The header is read where there is none yet. *)
Lemma header_step p pre s :
  standing p pre s -> current_frame_header_ p = None ->
  DecodeFrameHeader p = Some (match header_at s with
    | Incomplete => p
    | Wrong e => mkWebSocketFrameParser [] 0 None (masking_key_ p) 0 e
    | Complete h key size => with_header h key size p
    end) /\
  forall h key size, header_at s = Complete h key size ->
    in_payload (with_header h key size p) h (pre ++ take size s) (drop size s) /\
    (size <= length s)%nat /\ (2 <= size)%nat /\
    forall t, future p (s ++ t) = behind [Begins h] (future (with_header h key size p) (drop size s ++ t)).
Proof.
  intros [He Hb Hp Hf Hh] Hn. rewrite Hn in Hh. split; [by eapply DecodeFrameHeader_spec|].
  intros h key size E. pose proof (header_at_complete s h key size E) as (Hs & Hm & Hk).
  destruct (Hk Hf) as [Hl Hkey]. split; [|split; [lia|split; [lia|]]].
  - constructor; cbn; try done.
    + by rewrite <- app_assoc, take_drop.
    + rewrite Hp, zlen_app. unfold zlen. rewrite length_take. lia.
    + by apply Forall_drop.
    + lia.
  - intros t. unfold future. rewrite Hn. cbn. rewrite frames_eq, header_at_app by (by rewrite E).
    rewrite E, drop_app_le by lia. by rewrite Hh.
Qed.

(** A turn of the loop from the payload on, and what is decoded by the [next]
    turns. *)
Definition decodes (p : WebSocketFrameParser) (s : list Z) (chunks : list WebSocketFrameChunk)
    (r : res (bool * list WebSocketFrameChunk * WebSocketFrameParser)) : Prop :=
  exists answer cs p', r = Ok (answer, chunks ++ cs, p') /\ decoded p s answer cs p'.

Lemma payload_turn next io_data chunks p s first h p1 s1 pre1 :
  (forall chunks p2 pre2 s2, standing p2 pre2 s2 -> buffer_ p2 = buffer_ p ->
     (length s2 < length s)%nat -> decodes p2 s2 chunks (next chunks p2)) ->
  in_payload p1 h pre1 s1 -> buffer_ p1 = buffer_ p -> zlen (buffer_ p) < 2 ^ 63 ->
  (length s1 <= length s)%nat ->
  (length s1 < length s)%nat \/ frame_offset_ p1 < payload_length h /\ 0 < zlen s1 ->
  (forall t, future p (s ++ t) = behind (if first : bool then [Begins h] else []) (future p1 (s1 ++ t))) ->
  decodes p s chunks
    ('(c, p) ← DecodeFramePayload first io_data p1;
     match current_frame_header_ p with
     | Some _ => checked (DCHECK (current_read_pos_ p =? zlen (buffer_ p))) ;; Ok (true, chunks ++ [c], p)
     | None => next (chunks ++ [c]) p
     end).
Proof.
  intros Hnext Hin Hb Hz Hl Hdec Hfut.
  destruct (payload_step p1 h pre1 s1 first io_data Hin) as
    (c & p2 & pre2 & s2 & -> & Hst2 & Hb2 & Hh2 & Hl2 & Hlt2 & Hfut2); [by rewrite Hb|].
  cbn [mbind res_bind].
  assert (Hc : forall t, future p (s ++ t) = behind (events_of c) (future p2 (s2 ++ t)))
    by (intros t; by rewrite Hfut, Hfut2).
  assert (Hb2' : buffer_ p2 = buffer_ p) by congruence.
  destruct (current_frame_header_ p2) as [h2|] eqn:E2.
  - rewrite (Hh2 ltac:(done)) in *. pose proof Hst2 as [_ Hbuf2 Hpos2 _ _].
    rewrite Hbuf2, Hpos2, app_nil_r, Z.eqb_refl. cbn [DCHECK checked mbind res_bind].
    exists true, [c], p2. split; [done|]. eapply decoded_cons; [exact Hb2'|exact Hc|].
    exists pre2, []. rewrite E2. split; [done|]. split; [done|]. split; [done|].
    intros t. by rewrite behind_nil.
  - destruct (Hnext (chunks ++ [c]) p2 pre2 s2 Hst2 Hb2') as (answer & cs & p' & -> & Hdone).
    { destruct Hdec as [?|[? ?]]; [lia|]. specialize (Hlt2 ltac:(done) ltac:(done)). lia. }
    exists answer, (c :: cs), p'. split; [by rewrite <- app_assoc|]. by eapply decoded_cons.
Qed.

Lemma decode_loop_spec allocate fuel : forall chunks p pre s,
  standing p pre s -> (length s < fuel)%nat -> zlen (buffer_ p) < 2 ^ 63 ->
  decodes p s chunks (decode_loop fuel allocate chunks p).
Proof.
  induction fuel as [|fuel IH]; intros chunks p pre s Hst Hf Hz; [lia|]. cbn [decode_loop].
  assert (Hnext : forall chunks p2 pre2 s2, standing p2 pre2 s2 -> buffer_ p2 = buffer_ p ->
    (length s2 < length s)%nat -> decodes p2 s2 chunks (decode_loop fuel allocate chunks p2)).
  { intros chunks' p2 pre2 s2 Hst2 Hb2 Hl2. apply (IH _ _ pre2); [done|lia|by rewrite Hb2]. }
  pose proof Hst as [He Hb Hp Hfb Hh]. rewrite Hb, Hp, zlen_app. pose proof (zlen_nonneg s) as Hs0.
  destruct (Z.leb_spec (zlen pre + zlen s) (zlen pre)) as [Hs|Hs].
  { assert (s = []) as -> by (destruct s; [done|unfold zlen in *; cbn in *; lia]).
    exists true, [], p. split; [by rewrite app_nil_r|]. exists pre, []. split; [done|]. split; [done|].
    split; [by destruct (current_frame_header_ p)|]. intros t. by rewrite behind_nil. }
  destruct (current_frame_header_ p) as [h|] eqn:Eh.
  - cbn [mbind res_bind andb]. rewrite Eh. destruct Hh as [Hin Hoff].
    apply (payload_turn (decode_loop fuel allocate) _ chunks p s false h p s pre); try done; [right; lia|].
    intros t. by rewrite behind_nil.
  - destruct (header_step p pre s Hst Eh) as [-> Hcomplete]. cbn [checked mbind res_bind andb].
    destruct (header_at s) as [|e|h key size] eqn:E.
    + rewrite He, Eh. cbn. exists true, [], p. split; [by rewrite app_nil_r|]. exists pre, s.
      rewrite Eh. split; [done|]. split; [done|]. split; [done|]. intros t. by rewrite behind_nil.
    + cbn [websocket_error_]. assert (Hne : e <> kWebSocketNormalClosure) by (by eapply wrong_error).
      rewrite wrong_differs by done.
      exists false, [], (mkWebSocketFrameParser [] 0 None (masking_key_ p) 0 e).
      split; [by rewrite app_nil_r|]. split; [done|]. intros t. unfold future. rewrite Eh, frames_eq.
      rewrite header_at_app by (by rewrite E). by rewrite E.
    + destruct (Hcomplete h key size eq_refl) as (Hin & Hsz & Hsz2 & Hfut).
      cbn [websocket_error_ with_header setter current_frame_header_]. unfold setter. cbn [websocket_error_ current_frame_header_].
      rewrite He. cbn [enum_eqb negb]. change (kWebSocketNormalClosure != kWebSocketNormalClosure) with false. cbv iota.
      apply (payload_turn (decode_loop fuel allocate) _ chunks p s true h _ (drop size s) (pre ++ take size s)); try done.
      * rewrite length_drop. lia.
      * left. rewrite length_drop. lia.
Qed.

(** ** Piece for piece

    Between two calls the buffer holds the front of a header, or nothing. *)
Record between (p : WebSocketFrameParser) (s : list Z) : Prop := {
  bt_standing : standing p [] s;
  bt_rest : match current_frame_header_ p with None => header_at s = Incomplete | Some _ => s = [] end
}.

Lemma between_short p s : between p s -> zlen s < 14.
Proof.
  intros [_ Hr]. destruct (current_frame_header_ p); [by subst|]. by apply header_at_incomplete.
Qed.

Lemma standing_more p pre s data :
  standing p pre s -> Forall is_byte data -> standing (p <| buffer_ := buffer_ p ++ data |>) pre (s ++ data).
Proof.
  intros [He Hb Hp Hf Hh] Hd. assert (Hfd : Forall is_byte (s ++ data)) by (by apply Forall_app).
  constructor; cbn; [done| |done|done|]; [by rewrite Hb, <- app_assoc|].
  destruct (current_frame_header_ p) as [h|] eqn:Eh; [|done]. destruct Hh as [[] Ho]. split; [|done].
  constructor; cbn; try done. by rewrite Hb, <- app_assoc.
Qed.

Lemma standing_drained p pre s :
  standing p pre s ->
  standing (p <| buffer_ := drop (Z.to_nat (current_read_pos_ p)) (buffer_ p) |> <| current_read_pos_ := 0 |>) [] s.
Proof.
  intros [He Hb Hp Hf Hh].
  assert (Hd : drop (Z.to_nat (current_read_pos_ p)) (buffer_ p) = s).
  { rewrite Hb, Hp. unfold zlen. rewrite Nat2Z.id. apply drop_app_length. }
  constructor; cbn; [done|done|done|done|].
  destruct (current_frame_header_ p) as [h|] eqn:Eh; [|done]. destruct Hh as [[] Ho]. split; [|done].
  by constructor; cbn.
Qed.

Lemma Decode_spec p s data allocate chunks :
  between p s -> Forall is_byte data -> zlen s + zlen data < 2 ^ 63 ->
  exists answer cs p', Decode data allocate chunks p = Ok (answer, chunks ++ cs, p') /\
    if answer then
      exists s', between p' s' /\
        forall t, future p (s ++ data ++ t) = behind (flat_map events_of cs) (future p' (s' ++ t))
    else websocket_error_ p' <> kWebSocketNormalClosure /\
      forall t, future p (s ++ data ++ t) = (flat_map events_of cs, websocket_error_ p').
Proof.
  intros [Hst Hr] Hd Hz. unfold Decode. rewrite (st_error _ _ _ Hst).
  change (kWebSocketNormalClosure != kWebSocketNormalClosure) with false. cbv iota.
  destruct (Z.eqb_spec (zlen data) 0) as [E|E].
  { assert (data = []) as -> by (destruct data; [done|unfold zlen in E; cbn in E; lia]).
    exists true, [], p. split; [by rewrite app_nil_r|]. exists s. split; [done|].
    intros t. by rewrite behind_nil. }
  pose proof (standing_more p [] s data Hst Hd) as Hst'. cbv zeta. set (p1 := p <| buffer_ := _ |>) in *.
  assert (Hb1 : buffer_ p1 = s ++ data) by apply Hst'.
  destruct (decode_loop_spec allocate (S (length (buffer_ p1))) chunks p1 [] (s ++ data) Hst')
    as (answer & cs & p2 & -> & Hdone); [rewrite Hb1; lia|rewrite Hb1, zlen_app; lia|].
  cbn [mbind res_bind]. unfold decoded in Hdone. destruct answer; cbn [negb].
  - destruct Hdone as (pre' & s' & Hst2 & _ & Hr2 & Hfut). apply standing_drained in Hst2.
    set (p3 := p2 <| buffer_ := _ |> <| current_read_pos_ := 0 |>) in *.
    assert (Hbt : between p3 s') by (by split).
    rewrite (proj2 (Z.ltb_lt _ _)) by (rewrite (st_buffer _ _ _ Hst2); by eapply between_short).
    exists true, cs, p3. split; [done|]. exists s'. split; [done|].
    intros t. rewrite app_assoc. apply Hfut.
  - exists false, cs, p2. split; [done|]. destruct Hdone as [He Hfut]. split; [done|].
    intros t. rewrite app_assoc. apply Hfut.
Qed.

(** The pieces of a stream one after the other, each with the addresses that
    its calls allocate, and the answers. *)
Fixpoint decode_pieces (pieces : list (list Z * (Z -> Z))) (chunks : list WebSocketFrameChunk)
    (p : WebSocketFrameParser) : res (list bool * list WebSocketFrameChunk * WebSocketFrameParser) :=
  match pieces with
  | [] => Ok ([], chunks, p)
  | (data, allocate) :: pieces =>
      '(answer, chunks, p) ← Decode data allocate chunks p;
      '(answers, chunks, p) ← decode_pieces pieces chunks p;
      Ok (answer :: answers, chunks, p)
  end.

(** What the calls answer: whether the stream up to there is read without an
    error. *)
Fixpoint verdicts (read : list Z -> outcome) (before : list Z) (pieces : list (list Z * (Z -> Z))) : list bool :=
  match pieces with
  | [] => []
  | (data, _) :: pieces =>
      (snd (read (before ++ data)) == kWebSocketNormalClosure) :: verdicts read (before ++ data) pieces
  end.

Lemma verdicts_ext read read' pieces : forall before before',
  (forall t, snd (read (before ++ t)) = snd (read' (before' ++ t))) ->
  verdicts read before pieces = verdicts read' before' pieces.
Proof.
  induction pieces as [|[data allocate] pieces IH]; intros before before' H; [done|]. cbn [verdicts]. rewrite H. f_equal.
  apply IH. intros t. by rewrite <- !app_assoc, H.
Qed.

(** After an error every answer is [false]. *)
Lemma verdicts_wrong read pieces e : forall before,
  e <> kWebSocketNormalClosure -> (forall t, snd (read (before ++ t)) = e) ->
  verdicts read before pieces = replicate (length pieces) false.
Proof.
  induction pieces as [|[data allocate] pieces IH]; intros before He H; [done|]. cbn. rewrite H. f_equal.
  - by destruct (enum_eqb_spec e kWebSocketNormalClosure).
  - apply IH; [done|]. intros t. by rewrite <- app_assoc, H.
Qed.

Lemma refused pieces : forall chunks p,
  websocket_error_ p <> kWebSocketNormalClosure ->
  decode_pieces pieces chunks p = Ok (replicate (length pieces) false, chunks, p).
Proof.
  induction pieces as [|[data allocate] pieces IH]; intros chunks p He; cbn [decode_pieces]; [done|].
  unfold Decode. rewrite wrong_differs by done. cbn [mbind res_bind]. by rewrite (IH chunks p He).
Qed.

Lemma future_between p s : between p s -> future p s = ([], kWebSocketNormalClosure).
Proof.
  intros [[He _ _ _ Hh] Hr]. unfold future. destruct (current_frame_header_ p) as [h|].
  - subst s. destruct Hh as [_ Ho]. unfold payload_in. by rewrite (proj2 (Z.ltb_lt _ _)) by (unfold zlen; cbn [length]; lia).
  - by rewrite frames_eq, Hr.
Qed.

Lemma decode_pieces_spec pieces : forall p s chunks,
  between p s -> Forall is_byte (concat (map fst pieces)) -> 14 + zlen (concat (map fst pieces)) < 2 ^ 63 ->
  exists answers cs p', decode_pieces pieces chunks p = Ok (answers, chunks ++ cs, p') /\
    future p (s ++ concat (map fst pieces)) = (flat_map events_of cs, websocket_error_ p') /\
    forallb id answers = (websocket_error_ p' == kWebSocketNormalClosure) /\
    answers = verdicts (future p) s pieces /\
    exists k, answers = replicate k true ++ replicate (length pieces - k) false.
Proof.
  induction pieces as [|[data allocate] pieces IH]; intros p s chunks Hbt Hf Hz; cbn [map concat fst decode_pieces] in *.
  - exists [], [], p. rewrite !app_nil_r, (future_between p s Hbt). split; [done|].
    rewrite (st_error _ _ _ (bt_standing _ _ Hbt)). split; [done|]. split; [done|]. split; [done|]. by exists 0%nat.
  - rewrite zlen_app in Hz. apply Forall_app in Hf as [Hd Hf]. pose proof (between_short p s Hbt).
    pose proof (zlen_nonneg data). pose proof (zlen_nonneg (concat (map fst pieces))).
    destruct (Decode_spec p s data allocate chunks Hbt Hd) as (answer & cs & p1 & -> & Hdone); [lia|].
    cbn [mbind res_bind verdicts]. destruct answer.
    + destruct Hdone as (s1 & Hbt1 & Hfut).
      destruct (IH p1 s1 (chunks ++ cs) Hbt1 Hf) as (answers & cs' & p' & -> & Hfut' & Hans & Hv & k & Hk); [lia|].
      exists (true :: answers), (cs ++ cs'), p'. cbn [mbind res_bind]. split; [by rewrite app_assoc|].
      split; [by rewrite Hfut, Hfut', flat_map_app|]. split; [done|]. split.
      * rewrite Hv. f_equal.
        -- pose proof (Hfut []) as E. rewrite !app_nil_r, (future_between p1 s1 Hbt1) in E. by rewrite E.
        -- apply verdicts_ext. intros t. by rewrite <- app_assoc, Hfut.
      * exists (S k). cbn. by rewrite Hk.
    + destruct Hdone as [He Hfut]. rewrite (refused pieces (chunks ++ cs) p1 He).
      exists (false :: replicate (length pieces) false), cs, p1. cbn [mbind res_bind]. split; [done|]. split; [apply Hfut|].
      assert (Ee : (websocket_error_ p1 == kWebSocketNormalClosure) = false) by (by destruct (enum_eqb_spec (websocket_error_ p1) kWebSocketNormalClosure)).
      split; [by rewrite Ee|]. split; [|by exists 0%nat]. pose proof (Hfut []) as E. rewrite app_nil_r in E. rewrite E. cbn [snd]. rewrite Ee. f_equal.
      symmetry. apply (verdicts_wrong _ _ (websocket_error_ p1)); [done|]. intros t. by rewrite <- app_assoc, Hfut.
Qed.

Lemma between_new : between new_WebSocketFrameParser [].
Proof. by split; [split|]. Qed.

(** C23. What the parser makes of a stream does not depend on where it is cut:
    of any bytes whatever, passed in any pieces, and wherever in memory the
    buffers lie that it allocates, the headers, the bytes of the payload
    without their mask and the ends of frames come out as [frames] reads them
    from the stream as a whole; no check fails and no access leaves a buffer;
    each call answers whether the stream up to the end of its piece is read
    without an error, which is [true] until the one that meets a length that is
    wrong, with the error that [frames] finds, and [false] from there on. *)
Theorem parser_reads_the_stream pieces :
  Forall is_byte (concat (map fst pieces)) -> 14 + zlen (concat (map fst pieces)) < 2 ^ 63 ->
  exists answers chunks p,
    decode_pieces pieces [] new_WebSocketFrameParser = Ok (answers, chunks, p) /\
    (flat_map events_of chunks, websocket_error_ p) = frames (concat (map fst pieces)) /\
    answers = verdicts frames [] pieces /\
    (exists k, answers = replicate k true ++ replicate (length pieces - k) false) /\
    forallb id answers = (websocket_error_ p == kWebSocketNormalClosure).
Proof.
  intros Hf Hz. destruct (decode_pieces_spec pieces _ [] [] between_new Hf Hz) as (answers & cs & p & E & Hfut & Hans & Hv & Hk).
  exists answers, cs, p. split; [exact E|]. split; [by rewrite <- Hfut|]. by split; [|split].
Qed.

(** A masked frame and one that is not, then a length that is too long for its
    field, cut in the middle of the first header and in the first payload. *)
Definition example_pieces : list (list Z * (Z -> Z)) :=
  [([0x81; 0x83; 1], fun _ => 0); ([2; 3; 4; 64], fun i => 3 * i);
   ([64; 64; 0x02; 0x00; 0x80; 126; 0; 125; 7], fun i => i + 5); ([1], fun i => i)].

Lemma parser_reads_the_stream_witness :
  (exists answers chunks p,
    decode_pieces example_pieces [] new_WebSocketFrameParser = Ok (answers, chunks, p) /\
    (flat_map events_of chunks, websocket_error_ p) = frames (concat (map fst example_pieces)) /\
    answers = [true; true; false; false]) /\
  frames (concat (map fst example_pieces)) =
    ([Begins (mkWebSocketFrameHeader true false false false 1 true 3); Byte 65; Byte 66; Byte 67; Ends;
      Begins (mkWebSocketFrameHeader false false false false 2 false 0); Ends], kWebSocketErrorProtocolError).
Proof.
  split; [|vm_compute; reflexivity]. destruct (parser_reads_the_stream example_pieces) as (answers & chunks & p & E & Hfr & Ha & _ & _).
  - repeat constructor; unfold is_byte; lia.
  - vm_compute. reflexivity.
  - exists answers, chunks, p. split; [exact E|]. split; [exact Hfr|]. rewrite Ha. vm_compute. reflexivity.
Defined.

(** The comment on DecodeFramePayload says that the end of a frame clears the
    masking key; it stays. *)
Lemma key_outlives_its_frame :
  match Decode [0x81; 0x81; 1; 2; 3; 4; 64] (fun _ => 0) [] new_WebSocketFrameParser with
  | Ok (true, [c], p) =>
      final_chunk c = true /\ current_frame_header_ p = None /\ masking_key_ p = [1; 2; 3; 4]
  | _ => False
  end.
Proof. vm_compute. done. Qed.
