(* ===== verification/WebSocketRoundtrip.v ===== *)
(** Frames of WebSocket that are written come out of the parser. *)
From S2P Require Import Prelude CArrays Memory BigEndian WebSocketFrame WebSocketFrameParser WebSocketMasking.
From S2P Require Import WebSocketProperties.
From Stdlib Require Import ZifyBool.

(** ** Writing a header *)

(** The bytes of a header. *)
Definition extension (len : Z) : list Z :=
  if len <=? 125 then [] else if len <=? kuint16max then be_bytes 2 len else be_bytes 8 len.

Definition header_bytes (h : WebSocketFrameHeader) (key : list Z) : list Z :=
  [first_byte h; fst (second_byte h)] ++ extension (payload_length h) ++ (if masked h then key else []).

Lemma copy_to_spec bytes : forall pre old post,
  length old = length bytes ->
  copy_to bytes (zlen pre) (pre ++ old ++ post) = Some (pre ++ bytes ++ post).
Proof.
  induction bytes as [|b bytes IH]; intros pre [|x old] post Hl; cbn in Hl; [done..|].
  cbn [copy_to app]. rewrite put_app. cbn [mbind option_bind].
  replace (zlen pre + 1) with (zlen (pre ++ [b])) by (by rewrite zlen_app).
  replace (pre ++ b :: old ++ post) with ((pre ++ [b]) ++ old ++ post) by (by rewrite <- app_assoc).
  rewrite IH by lia. by rewrite <- app_assoc.
Qed.

Lemma extension_cases len :
  0 <= len < 2 ^ 63 ->
  len <= 125 /\ extension len = [] \/
  125 < len <= 65535 /\ extension len = be_bytes 2 len \/
  65535 < len /\ extension len = be_bytes 8 len.
Proof.
  intros Hl. unfold extension, kuint16max. destruct (Z.leb_spec len 125); [by left|].
  destruct (Z.leb_spec len 65535); [right; left|right; right]; (split; [lia|done]).
Qed.

Definition key_fits (h : WebSocketFrameHeader) (key : option (list Z)) : Prop :=
  match key with Some key => masked h = true /\ is_key key | None => masked h = false end.

Lemma header_size h key :
  0 <= payload_length h < 2 ^ 63 -> key_fits h key ->
  GetWebSocketFrameHeaderSize h = zlen (header_bytes h (default [] key)).
Proof.
  intros Hl Hk. unfold GetWebSocketFrameHeaderSize, header_bytes, kMaxPayloadLengthWithoutExtendedLengthField, kuint16max.
  rewrite !zlen_app. change (zlen [_; _]) with 2. unfold kBaseHeaderSize, kMaskingKeyLength.
  assert (Hm : zlen (if masked h then default [] key else []) = if masked h then 4 else 0).
  { destruct key as [key|]; cbn in Hk; [destruct Hk as [-> [Hk _]]; unfold zlen; cbn; by rewrite Hk|by rewrite Hk]. }
  rewrite Hm. destruct (extension_cases _ Hl) as [[H ->]|[[H ->]|[H ->]]]; unfold zlen; rewrite ?length_be_bytes.
  - rewrite (proj2 (Z.ltb_ge 125 _)), (proj2 (Z.ltb_ge 65535 _)) by lia. cbn [andb]. done.
  - rewrite (proj2 (Z.ltb_lt 125 _)), (proj2 (Z.leb_le _ 65535)) by lia. cbn [andb]. lia.
  - rewrite (proj2 (Z.leb_gt _ 65535)), (proj2 (Z.ltb_lt 65535 _)), andb_false_r by lia. lia.
Qed.

(** The field behind the first two bytes. *)
Lemma write_extension h pre old post :
  0 <= payload_length h < 2 ^ 63 -> zlen pre = 2 -> length old = length (extension (payload_length h)) ->
  (if snd (second_byte h) =? 2 then
     buffer ← WriteBigEndian 2 (wrap_u 16 (payload_length h)) 2 (pre ++ old ++ post); Some (buffer, 2 + 2)
   else if snd (second_byte h) =? 8 then
     buffer ← WriteBigEndian 8 (payload_length h) 2 (pre ++ old ++ post); Some (buffer, 2 + 8)
   else Some (pre ++ old ++ post, 2)) =
  Some (pre ++ extension (payload_length h) ++ post, 2 + zlen (extension (payload_length h))).
Proof.
  intros Hl Hpre Ho. unfold second_byte, kMaxPayloadLengthWithoutExtendedLengthField, kuint16max.
  destruct (extension_cases _ Hl) as [[H E]|[[H E]|[H E]]]; rewrite E in *.
  - rewrite (proj2 (Z.leb_le _ 125)) by lia. cbn [snd Z.eqb]. by destruct old.
  - rewrite (proj2 (Z.leb_gt _ 125)), (proj2 (Z.leb_le _ 65535)) by lia. cbn [snd Z.eqb Pos.eqb].
    rewrite length_be_bytes in Ho. rewrite (wrap_u_id 16) by (unfold in_u; lia).
    pose proof (WriteBigEndian_spec _ (payload_length h) pre old post Ho) as Ew. rewrite Hpre in Ew. rewrite Ew.
    cbn [mbind option_bind]. unfold zlen. by rewrite length_be_bytes.
  - rewrite (proj2 (Z.leb_gt _ 125)), (proj2 (Z.leb_gt _ 65535)) by lia. cbn [snd Z.eqb Pos.eqb].
    rewrite length_be_bytes in Ho.
    pose proof (WriteBigEndian_spec _ (payload_length h) pre old post Ho) as Ew. rewrite Hpre in Ew. rewrite Ew.
    cbn [mbind option_bind]. unfold zlen. by rewrite length_be_bytes.
Qed.

(** The key. *)
Lemma write_key h key pre old post :
  key_fits h key -> length old = length (if masked h then default [] key else []) ->
  (if masked h then
     key ← key; key ← load key 0 kMaskingKeyLength;
     buffer ← copy_to key (zlen pre) (pre ++ old ++ post);
     Some (buffer, zlen pre + kMaskingKeyLength)
   else DCHECK (match key with Some _ => false | None => true end) ;; Some (pre ++ old ++ post, zlen pre)) =
  Some (pre ++ (if masked h then default [] key else []) ++ post,
        zlen pre + zlen (if masked h then default [] key else [])).
Proof.
  intros Hk Ho. destruct key as [key|]; cbn in Hk.
  - destruct Hk as [Hm [Hl _]]. rewrite Hm in *. cbn [mbind option_bind from_option id] in *.
    unfold kMaskingKeyLength. replace 4 with (Z.of_nat (length key)) at 1 by lia. rewrite load_all.
    cbn [mbind option_bind]. rewrite copy_to_spec by done. cbn [mbind option_bind]. unfold zlen. by rewrite Hl.
  - rewrite Hk in *. destruct old; [|done]. by rewrite Z.add_0_r.
Qed.

Lemma put_first {A} (x y : A) l : put (x :: l) 0 y = Some (y :: l).
Proof. exact (put_app [] x y l). Qed.

Lemma put_second {A} (x y z : A) l : put (x :: y :: l) 1 z = Some (x :: z :: l).
Proof. exact (put_app [x] y z l). Qed.

Lemma WriteWebSocketFrameHeader_spec h key old spare :
  0 <= opcode h < 16 -> 0 <= payload_length h < 2 ^ 63 -> key_fits h key ->
  zlen old = GetWebSocketFrameHeaderSize h ->
  WriteWebSocketFrameHeader h key (old ++ spare) (zlen (old ++ spare)) =
  Some (GetWebSocketFrameHeaderSize h, header_bytes h (default [] key) ++ spare).
Proof.
  intros Ho Hl Hk Hold. unfold WriteWebSocketFrameHeader. pose proof (zlen_nonneg spare).
  assert (Hop : Z.land (opcode h) kOpCodeMask = opcode h).
  { change kOpCodeMask with (Z.ones 4). rewrite Z.land_ones by lia. by apply Z.mod_small. }
  rewrite Hop, Z.eqb_refl. rewrite (proj2 (Z.leb_le _ kint64max)) by (unfold kint64max; lia).
  rewrite (proj2 (Z.leb_le 0 _)) by apply zlen_nonneg. cbn [DCHECK mbind option_bind].
  rewrite (proj2 (Z.ltb_ge _ _)) by (rewrite zlen_app; lia).
  pose proof (header_size h key Hl Hk) as Hsize. unfold header_bytes in *.
  set (ext := extension (payload_length h)) in *. set (k := if masked h then _ else _) in *.
  rewrite Hsize in *. rewrite !zlen_app in Hold. change (zlen [_; _]) with 2 in Hold.
  pose proof (zlen_nonneg ext). pose proof (zlen_nonneg k).
  destruct old as [|x [|y old]]; [unfold zlen in *; cbn in *; lia..|].
  destruct (split_at (length ext) old) as (o1 & o2 & -> & Ho1); [unfold zlen in *; cbn [length] in *; lia|].
  assert (Ho2 : length o2 = length k) by (unfold zlen in *; cbn [length] in *; rewrite length_app in *; lia).
  cbn [app]. rewrite put_first. cbn [mbind option_bind].
  destruct (second_byte h) as [second len] eqn:E2. rewrite put_second. cbn [mbind option_bind].
  pose proof (write_extension h [first_byte h; second] o1 (o2 ++ spare) Hl eq_refl Ho1) as Ew.
  rewrite E2 in Ew. cbn [snd] in Ew. cbn [app fst]. rewrite <- (app_assoc o1). cbn [app] in Ew. rewrite Ew. clear Ew.
  cbn [mbind option_bind]. fold ext.
  replace (2 + zlen ext) with (zlen (first_byte h :: second :: ext)) by (unfold zlen; cbn [length]; lia).
  pose proof (write_key h key (first_byte h :: second :: ext) o2 spare Hk Ho2) as Ew. fold k in Ew.
  cbn [app] in Ew. rewrite Ew. clear Ew. cbn [mbind option_bind].
  rewrite (proj2 (Z.eqb_eq _ _)) by (unfold zlen; cbn [length]; rewrite length_app; lia).
  cbn [DCHECK mbind option_bind]. by rewrite <- app_assoc.
Qed.

(** ** Reading it back *)
Lemma first_byte_spec h : 0 <= opcode h < 16 ->
  is_byte (first_byte h) /\ bit (first_byte h) 7 = final h /\ bit (first_byte h) 6 = reserved1 h /\
  bit (first_byte h) 5 = reserved2 h /\ bit (first_byte h) 4 = reserved3 h /\ first_byte h mod 16 = opcode h.
Proof.
  destruct h as [f r1 r2 r3 o m l]. cbn. unfold first_byte, is_byte, bit. cbn.
  revert o. destruct f, r1, r2, r3; compute_below 16%nat.
Qed.

Lemma short_byte len : 0 <= len < 126 -> forall m : bool,
  let b := wrap_u 8 (Z.lor (if m then kMaskBit else 0) len) in
  is_byte b /\ b mod 128 = len /\ bit b 7 = m.
Proof. intros Hl m. revert len Hl. unfold is_byte, bit. destruct m; compute_below 126%nat. Qed.

Lemma second_byte_spec h : 0 <= payload_length h < 2 ^ 63 ->
  is_byte (fst (second_byte h)) /\ bit (fst (second_byte h)) 7 = masked h /\
  fst (second_byte h) mod 128 =
    (if payload_length h <=? 125 then payload_length h else if payload_length h <=? 65535 then 126 else 127).
Proof.
  intros Hl. unfold second_byte, kMaxPayloadLengthWithoutExtendedLengthField, kuint16max.
  destruct (Z.leb_spec (payload_length h) 125); [|destruct (Z.leb_spec (payload_length h) 65535)]; cbn [fst].
  - destruct (short_byte (payload_length h) ltac:(lia) (masked h)) as (? & ? & ?). done.
  - by destruct (masked h).
  - by destruct (masked h).
Qed.

Lemma extension_read len rest :
  0 <= len < 2 ^ 31 ->
  let b := if len <=? 125 then len else if len <=? 65535 then 126 else 127 in
  let field := if b =? 126 then 2%nat else if b =? 127 then 8%nat else 0%nat in
  field = length (extension len) /\
  (if (field =? 0)%nat then b else be_value (take field (extension len ++ rest))) = len /\
  length_error field len = None.
Proof.
  intros Hl. cbv zeta. unfold extension, kuint16max.
  destruct (Z.leb_spec len 125) as [H|H]; [|destruct (Z.leb_spec len 65535) as [H'|H']].
  - rewrite (proj2 (Z.eqb_neq len 126)), (proj2 (Z.eqb_neq len 127)) by lia. done.
  - cbn [Z.eqb Pos.eqb Nat.eqb length_error]. split; [done|].
    rewrite take_app_length' by (by rewrite length_be_bytes). rewrite be_value_bytes, Z.mod_small by lia.
    split; [done|]. by rewrite (proj2 (Z.ltb_ge len 126)) by lia.
  - cbn [Z.eqb Pos.eqb Nat.eqb length_error]. split; [done|].
    rewrite take_app_length' by (by rewrite length_be_bytes). rewrite be_value_bytes, Z.mod_small by lia.
    split; [done|].
    by rewrite (proj2 (Z.ltb_ge len (2 ^ 16))), (proj2 (Z.leb_gt (2 ^ 63) len)), (proj2 (Z.leb_gt (2 ^ 31) len)) by lia.
Qed.

Definition key_read (h : WebSocketFrameHeader) (key : option (list Z)) : list Z :=
  match key with Some key => key | None => no_key end.

Lemma header_is_read h key rest :
  0 <= opcode h < 16 -> 0 <= payload_length h < 2 ^ 31 -> key_fits h key ->
  header_at (header_bytes h (default [] key) ++ rest) =
  Complete h (key_read h key) (length (header_bytes h (default [] key))).
Proof.
  intros Ho Hl Hk. destruct (first_byte_spec h Ho) as (_ & H7 & H6 & H5 & H4 & Hop).
  destruct (second_byte_spec h ltac:(lia)) as (_ & Hm & Hlow).
  unfold header_bytes. rewrite <- !app_assoc. set (k := if masked h then _ else _). cbn [app header_at].
  rewrite Hlow, Hm, H7, H6, H5, H4, Hop.
  destruct (extension_read (payload_length h) (k ++ rest) Hl) as (Hf & Hv & He).
  set (b := if payload_length h <=? 125 then _ else _) in *. set (field := if b =? 126 then _ else _) in *.
  rewrite Hv, He. rewrite (proj2 (Nat.ltb_ge _ field)) by (rewrite length_app; lia).
  assert (Hkl : length k = (if masked h then 4 else 0)%nat).
  { subst k. destruct key as [key|]; cbn in *; [destruct Hk as [-> [? _]]|rewrite Hk]; done. }
  rewrite (proj2 (Nat.ltb_ge _ _)) by (rewrite !length_app; lia).
  f_equal; [by destruct h| |cbn [length]; rewrite length_app; lia].
  rewrite Hf, drop_app_length. subst k. destruct key as [key|]; cbn in *.
  - destruct Hk as [-> [Hlen _]]. rewrite <- Hlen. apply take_app_length.
  - by rewrite Hk.
Qed.

(** ** Frames *)

(** A frame to be sent, and where its payload lies in memory. *)
Record Frame := mkFrame {
  frame_header : WebSocketFrameHeader;
  frame_key : option (list Z);
  payload : list Z;
  payload_address : Z
}.

Record good_frame (f : Frame) : Prop := {
  gf_opcode : 0 <= opcode (frame_header f) < 16;
  gf_length : payload_length (frame_header f) = zlen (payload f);
  gf_limit : zlen (payload f) < 2 ^ 31;
  gf_key : key_fits (frame_header f) (frame_key f);
  gf_bytes : Forall is_byte (payload f)
}.

(** The header into a buffer, and the payload masked behind it. *)
Definition send (f : Frame) (buffer : list Z) : res (list Z) :=
  '(size, buffer) ← checked (WriteWebSocketFrameHeader (frame_header f) (frame_key f) buffer (zlen buffer));
  payload ← match frame_key f with
            | Some key => MaskWebSocketFramePayload key 0 (payload_address f) (payload f) (zlen (payload f))
            | None => Ok (payload f)
            end;
  Ok (take (Z.to_nat size) buffer ++ payload).

Fixpoint send_all (fs : list (Frame * list Z)) : res (list Z) :=
  match fs with
  | [] => Ok []
  | (f, buffer) :: fs => bytes ← send f buffer; rest ← send_all fs; Ok (bytes ++ rest)
  end.

(** What the other side has to get to know of it. *)
Definition events_of_frame (f : Frame) : list event :=
  Begins (frame_header f) :: map Byte (payload f) ++ [Ends].

(** A frame on the wire. *)
Definition wire (f : Frame) : list Z :=
  header_bytes (frame_header f) (default [] (frame_key f)) ++
  mask (key_read (frame_header f) (frame_key f)) 0 (payload f).

Lemma send_wire f buffer :
  good_frame f -> GetWebSocketFrameHeaderSize (frame_header f) <= zlen buffer ->
  send f buffer = Ok (wire f).
Proof.
  intros [Ho Hl Hlim Hk Hb] Hsize. unfold send, wire. pose proof (zlen_nonneg (payload f)).
  pose proof (header_size (frame_header f) (frame_key f) ltac:(lia) Hk) as Hs.
  destruct (split_at (Z.to_nat (GetWebSocketFrameHeaderSize (frame_header f))) buffer) as (old & spare & -> & Hold);
    [unfold zlen in *; lia|].
  rewrite WriteWebSocketFrameHeader_spec; [|done|lia|done|rewrite Hs in *; unfold zlen in *; lia].
  cbn [checked mbind res_bind]. rewrite Hs.
  rewrite take_app_length' by (unfold zlen; lia).
  destruct (frame_key f) as [key|]; cbn in Hk |- *.
  - destruct Hk as [_ Hk]. by rewrite MaskWebSocketFramePayload_all.
  - by rewrite mask_no_key.
Qed.

Lemma key_read_is_key h key : key_fits h key -> is_key (key_read h key).
Proof. destruct key; cbn; [by intros [_ ?]|]. intros _. split; [done|]. by repeat constructor. Qed.

Lemma header_bytes_byte h key :
  0 <= opcode h < 16 -> 0 <= payload_length h < 2 ^ 63 -> key_fits h key ->
  Forall is_byte (header_bytes h (default [] key)).
Proof.
  intros Ho Hl Hk. unfold header_bytes.
  apply Forall_app. split; [|apply Forall_app; split].
  - constructor; [by apply first_byte_spec|]. constructor; [by apply second_byte_spec|done].
  - destruct (extension_cases _ Hl) as [[_ ->]|[[_ ->]|[_ ->]]]; [done|apply be_bytes_byte..].
  - destruct key as [key|]; cbn in *; [destruct Hk as [-> [_ ?]]; done|by rewrite Hk].
Qed.

Lemma wire_byte f : good_frame f -> Forall is_byte (wire f).
Proof.
  intros [Ho Hl Hlim Hk Hb]. pose proof (zlen_nonneg (payload f)). apply Forall_app. split.
  - apply header_bytes_byte; [done|lia|done].
  - apply mask_bytes; [by apply (key_read_is_key (frame_header f))|done].
Qed.

Lemma frames_wire f rest :
  good_frame f -> frames (wire f ++ rest) = behind (events_of_frame f) (frames rest).
Proof.
  intros [Ho Hl Hlim Hk Hb]. pose proof (zlen_nonneg (payload f)). rewrite frames_eq. unfold wire.
  rewrite <- app_assoc, header_is_read, drop_app_length by (done || lia).
  set (key := key_read _ _).
  unfold payload_in. rewrite zlen_app, Z.sub_0_r, Hl.
  assert (Hz : zlen (mask key 0 (payload f)) = zlen (payload f)) by (unfold zlen; by rewrite length_mask).
  rewrite (proj2 (Z.ltb_ge _ _)) by (pose proof (zlen_nonneg rest); lia). rewrite <- Hz.
  unfold zlen. rewrite Nat2Z.id, take_app_length, drop_app_length, mask_mask, behind_behind. done.
Qed.

Lemma frames_all fs rest : Forall good_frame (map fst fs) ->
  Forall (fun f => GetWebSocketFrameHeaderSize (frame_header (fst f)) <= zlen (snd f)) fs ->
  exists stream, send_all fs = Ok stream /\ Forall is_byte stream /\
    frames (stream ++ rest) = behind (flat_map events_of_frame (map fst fs)) (frames rest).
Proof.
  induction fs as [|[f buffer] fs IH]; intros Hg Hs; cbn [map fst send_all flat_map].
  - exists []. split; [done|]. split; [done|]. by rewrite behind_nil.
  - apply Forall_cons in Hg as [Hf Hg]. apply Forall_cons in Hs as [Hb Hs].
    destruct (IH Hg Hs) as (stream & E & Hbytes & Hframes). exists (wire f ++ stream).
    rewrite (send_wire f buffer Hf Hb), E. split; [done|]. split.
    + apply Forall_app. by split; [apply wire_byte|].
    + by rewrite <- app_assoc, frames_wire, Hframes, behind_behind.
Qed.

(** C24. Frames that are written come out of the parser as they went in:
    whatever their headers and payloads, masked or not, with the header of
    each in any buffer that is large enough and the payload anywhere in
    memory, and however the stream is cut on its way, the parser accepts every
    piece and passes on the headers and the bytes of the payloads, frame by
    frame. *)
Theorem written_frames_are_read fs :
  Forall good_frame (map fst fs) ->
  Forall (fun f => GetWebSocketFrameHeaderSize (frame_header (fst f)) <= zlen (snd f)) fs ->
  exists stream, send_all fs = Ok stream /\
    forall pieces, concat (map fst pieces) = stream -> 14 + zlen stream < 2 ^ 63 ->
    exists answers chunks p,
      decode_pieces pieces [] new_WebSocketFrameParser = Ok (answers, chunks, p) /\
      flat_map events_of chunks = flat_map events_of_frame (map fst fs) /\
      forallb id answers = true.
Proof.
  intros Hg Hs. destruct (frames_all fs [] Hg Hs) as (stream & E & Hb & Hframes).
  exists stream. split; [done|]. intros pieces Hp Hz. rewrite <- Hp in Hb, Hz.
  destruct (decode_pieces_spec pieces _ [] [] between_new Hb Hz) as (answers & cs & p & Er & Hfut & Hans & _).
  exists answers, cs, p. split; [done|]. rewrite Hp in Hfut. unfold future in Hfut.
  cbn [new_WebSocketFrameParser current_frame_header_ app] in Hfut.
  rewrite app_nil_r in Hframes. rewrite Hframes in Hfut.
  change (frames []) with (@nil event, kWebSocketNormalClosure) in Hfut. unfold behind in Hfut. cbn [fst snd] in Hfut.
  rewrite app_nil_r in Hfut. injection Hfut as He Hv. split; [done|]. by rewrite Hans, <- Hv.
Qed.

(** A masked frame of text and a close frame without a mask. *)
Definition example_frames : list (Frame * list Z) :=
  [(mkFrame (mkWebSocketFrameHeader true false false false 1 true 20) (Some [1; 2; 3; 4])
      (map Z.of_nat (seq 65 20)) 3, repeat 7 6);
   (mkFrame (mkWebSocketFrameHeader true false true false 8 false 2) None [3; 232] 0, repeat 7 14)].

Lemma written_frames_are_read_witness :
  exists stream, send_all example_frames = Ok stream /\
    forall pieces, concat (map fst pieces) = stream -> 14 + zlen stream < 2 ^ 63 ->
    exists answers chunks p,
      decode_pieces pieces [] new_WebSocketFrameParser = Ok (answers, chunks, p) /\
      flat_map events_of chunks = flat_map events_of_frame (map fst example_frames) /\
      forallb id answers = true.
Proof.
  apply (written_frames_are_read example_frames).
  - constructor; [|constructor; [|constructor]]; constructor; cbn; try lia; try done.
    + split; [done|]. split; [done|]. repeat constructor; unfold is_byte; lia.
    + repeat constructor; unfold is_byte; lia.
    + repeat constructor; unfold is_byte; lia.
  - constructor; [|constructor; [|constructor]]; vm_compute; discriminate.
Defined.
