(* ===== verification/Dns.v ===== *)
(** DNS messages: queries and responses, net/dns/dns_query.cc and
    net/dns/dns_response.cc, and names, net/base/dns_util.cc. *)
From S2P Require Import Prelude CArrays Memory BigEndian.

(** ** Constants *)
Definition kLabelMask : Z := 0xc0.
Definition kLabelPointer : Z := 0xc0.
Definition kLabelDirect : Z := 0x0.
Definition kOffsetMask : Z := 0x3fff.
Definition kMaxUDPSize : Z := 512.
Definition kClassIN : Z := 1.
Definition kTypeA : Z := 1.
Definition kTypeCNAME : Z := 5.
Definition kTypeAAAA : Z := 28.
Definition kRcodeMask : Z := 0xf.
Definition kFlagRD : Z := 0x100.
Definition sizeof_uint16 : Z := 2.
Definition kIPv4AddressSize : Z := 4.
Definition kIPv6AddressSize : Z := 16.
Definition kuint32max : Z := 2 ^ 32 - 1.

(** *** The header

    Where its fields lie; they are in network order. *)
(* src: net/dns/dns_protocol.h 78-85! Header *)
Inductive header_field := id_ | flags_ | qdcount_ | ancount_ | nscount_ | arcount_.
Definition field_offset (f : header_field) : Z :=
  match f with id_ => 0 | flags_ => 2 | qdcount_ => 4 | ancount_ => 6 | nscount_ => 8 | arcount_ => 10 end.
Definition sizeof_Header : Z := 12.

(** [NetToHost16] of a field, and setting a field to a [HostToNet16]. *)
Definition header_get (f : header_field) (io_buffer : list Z) : option Z :=
  bytes ← load io_buffer (field_offset f) 2;
  Some (be_value bytes).
Definition header_set (f : header_field) (v : Z) (io_buffer : list Z) : option (list Z) :=
  store (field_offset f) (be_bytes 2 v) io_buffer.

(** ** Names

    A name in a message is a list of labels with their lengths in front, ended
    by the length 0; in dotted form, the labels are separated by dots. *)
Definition dot : Z := 46.

(** The label that is complete goes behind the others. [None] inside: the name
    is too long. *)
(* src: net/base/dns_util.cc 27-34! DNSDomainFromDot *)
Definition add_label (label : list Z) (labellen : Z) (name : list Z) (namelen : Z)
    : option (option (list Z * Z)) :=
  if labellen =? 0 then Some (Some (name, namelen)) else
  if 255 <? namelen + labellen + 1 then Some None else
  name ← put name namelen (wrap_u 8 labellen);
  bytes ← load label 0 labellen;
  name ← store (namelen + 1) bytes name;
  Some (Some (name, namelen + 1 + labellen)).

(** The two arrays, and how much of them is used. *)
(* src: net/base/dns_util.cc 21-40! DNSDomainFromDot *)
Fixpoint from_dot_loop (buf : list Z) (label : list Z) (labellen : Z) (name : list Z) (namelen : Z)
    : option (option (list Z * Z * list Z * Z)) :=
  match buf with
  | [] => Some (Some (label, labellen, name, namelen))
  | ch :: buf =>
      if ch =? dot then
        added ← add_label label labellen name namelen;
        match added with
        | None => Some None
        | Some (name, namelen) => from_dot_loop buf label 0 name namelen
        end
      else if 63 <=? labellen then Some None
      else
        label ← put label labellen ch;
        from_dot_loop buf label (labellen + 1) name namelen
  end.

(** [None] inside is [false]; the arrays hold anything at first. *)
(* src: net/base/dns_util.cc 12-59! DNSDomainFromDot *)
Definition DNSDomainFromDot (label name : list Z) (dotted : list Z) : option (option (list Z)) :=
  looped ← from_dot_loop (take (Z.to_nat (u32 (zlen dotted))) dotted) label 0 name 0;
  match looped with
  | None => Some None
  | Some (label, labellen, name, namelen) =>
      added ← add_label label labellen name namelen;
      match added with
      | None => Some None
      | Some (name, namelen) =>
          if 255 <? namelen + 1 then Some None else
          if namelen =? 0 then Some None else
          name ← put name namelen 0;
          out ← load name 0 (namelen + 1);
          Some (Some out)
      end
  end.

(** The elements of a string are of type [char]. *)
Definition char_at (s : list Z) (i : Z) : option Z := c ← get s i; Some (wrap_s 8 c).

(* src: net/base/dns_util.cc 64-79! DNSDomainToString *)
Fixpoint to_string_loop (fuel : nat) (domain : list Z) (i : Z) (ret : list Z) : res (list Z) :=
  match fuel with
  | O => NoFuel
  | S fuel =>
      if zlen domain <=? i then Ok ret else
      c ← checked (char_at domain i);
      if c =? 0 then Ok ret else
      if c <? 0 then Ok [] else
      if 63 <? c then Ok [] else
      let ret := if i =? 0 then ret else ret ++ [dot] in
      if zlen domain <? u32 (c + i + 1) then Ok [] else
      label ← checked (load domain (i + 1) c);
      to_string_loop fuel domain (u32 (i + c + 1)) (ret ++ label)
  end.
(* src: net/base/dns_util.cc 61-81! DNSDomainToString *)
Definition DNSDomainToString (domain : list Z) : res (list Z) :=
  to_string_loop (S (length domain)) domain 0 [].

(* src: net/base/dns_util.cc 83-90! TrimEndingDot *)
Definition TrimEndingDot (host : list Z) : option (list Z) :=
  let len := zlen host in
  if 1 <? len then
    c ← get host (len - 1);
    if c =? dot then load host 0 (len - 1) else Some host
  else Some host.

(** ** Queries *)
(* src: net/dns/dns_query.h 48-51! DnsQuery *)
Record DnsQuery := mkDnsQuery {
  qname_size_ : Z;
  query_buffer : list Z
}.

(** [memory] is what the buffer holds when it is allocated. *)
(* src: net/dns/dns_query.cc 21-40! DnsQuery::DnsQuery *)
Definition new_DnsQuery (memory : Z -> Z) (id : Z) (qname : list Z) (qtype : Z) : res DnsQuery :=
  name ← DNSDomainToString qname;
  checked (DCHECK (!(zlen name =? 0))) ;;
  let qname_size := zlen qname in
  let question_size := qname_size + sizeof_uint16 + sizeof_uint16 in
  let size := sizeof_Header + question_size in
  let io_buffer := map (fun i => memory (Z.of_nat i)) (seq 0 (Z.to_nat size)) in
  checked (
    io_buffer ← store 0 (repeat 0 12) io_buffer;
    io_buffer ← header_set id_ id io_buffer;
    io_buffer ← header_set flags_ kFlagRD io_buffer;
    io_buffer ← header_set qdcount_ 1 io_buffer;
    let writer := new_BigEndianWriter sizeof_Header question_size in
    '(_, io_buffer, writer) ← WriteBytes qname io_buffer writer;
    '(_, io_buffer, writer) ← WriteU16 qtype io_buffer writer;
    '(_, io_buffer, writer) ← WriteU16 kClassIN io_buffer writer;
    Some (mkDnsQuery qname_size io_buffer)).

(* src: net/dns/dns_query.cc 49-53! DnsQuery::id *)
Definition query_id (q : DnsQuery) : option Z := header_get id_ (query_buffer q).
(* src: net/dns/dns_query.cc 55-58! DnsQuery::qname *)
Definition query_qname (q : DnsQuery) : option (list Z) :=
  load (query_buffer q) sizeof_Header (qname_size_ q).
(* src: net/dns/dns_query.cc 60-66! DnsQuery::qtype *)
Definition query_qtype (q : DnsQuery) : option Z :=
  ReadBigEndian 2 (query_buffer q) (sizeof_Header + qname_size_ q).
(* src: net/dns/dns_query.cc 68-71! DnsQuery::question *)
Definition question (q : DnsQuery) : option (list Z) :=
  load (query_buffer q) sizeof_Header (qname_size_ q + sizeof_uint16 + sizeof_uint16).
(* src: net/dns/dns_query.cc 73-81! DnsQuery::DnsQuery *)
Definition CloneWithNewId (id : Z) (orig : DnsQuery) : option DnsQuery :=
  io_buffer ← header_set id_ id (query_buffer orig);
  Some (mkDnsQuery (qname_size_ orig) io_buffer).
(** These flags are in the order of the machine already. *)
(* src: net/dns/dns_query.cc 83-87! DnsQuery::set_flags *)
Definition set_flags (flags : Z) (q : DnsQuery) : option DnsQuery :=
  io_buffer ← store (field_offset flags_) (to_bytes 2 flags) (query_buffer q);
  Some (mkDnsQuery (qname_size_ q) io_buffer).

(** ** Records

    A pointer into the packet is an index, and a piece of it an index and a
    length. *)
(* src: net/dns/dns_response.h 28-37! DnsResourceRecord *)
Record DnsResourceRecord := mkDnsResourceRecord {
  name : list Z;
  type : Z;
  klass : Z;
  ttl : Z;
  rdata : Z * Z
}.
#[export] Instance eta_DnsResourceRecord : Eta DnsResourceRecord := fun r =>
  mkDnsResourceRecord (name r) (type r) (klass r) (ttl r) (rdata r).

(** [packet_] is the memory that the packet begins, or null. *)
(* src: net/dns/dns_response.h 74-77! DnsRecordParser *)
Record DnsRecordParser := mkDnsRecordParser {
  packet_ : option (list Z);
  length_ : Z;
  cur_ : Z
}.
#[export] Instance eta_DnsRecordParser : Eta DnsRecordParser := fun p =>
  mkDnsRecordParser (packet_ p) (length_ p) (cur_ p).

(* src: net/dns/dns_response.cc 25-26! DnsRecordParser::DnsRecordParser *)
Definition no_DnsRecordParser : DnsRecordParser := mkDnsRecordParser None 0 0.

(* src: net/dns/dns_response.cc 28-35! DnsRecordParser::DnsRecordParser *)
Definition new_DnsRecordParser (packet : list Z) (length offset : Z) : option DnsRecordParser :=
  DCHECK (offset <=? length) ;;
  Some (mkDnsRecordParser (Some packet) length offset).

(* src: net/dns/dns_response.h 50-50! IsValid *)
Definition IsValid (p : DnsRecordParser) : bool :=
  match packet_ p with Some _ => true | None => false end.
(* src: net/dns/dns_response.h 53-53! AtEnd *)
Definition AtEnd (p : DnsRecordParser) : bool := cur_ p =? length_ p.
(* src: net/dns/dns_response.h 56-56! GetOffset *)
Definition GetOffset (p : DnsRecordParser) : Z := cur_ p.

(** A label goes behind a dot, but for the first. *)
Definition append_label (out label : list Z) : list Z :=
  (if zlen out =? 0 then out else out ++ [dot]) ++ label.

(** A turn goes on with other values of [p], [seen], [consumed] and [out], or
    returns a number of bytes. *)
Inductive turn :=
  | Return (consumed : Z) (out : option (list Z))
  | Next (p seen consumed : Z) (out : option (list Z)).

(* src: net/dns/dns_response.cc 63-82! DnsRecordParser::ReadName *)
Definition pointer_turn (packet : list Z) (length pos : Z) (p seen consumed : Z) (out : option (list Z))
    : option turn :=
  if length <? p + sizeof_uint16 then Some (Return 0 out) else
  let first := consumed =? 0 in
  let consumed := if first then u32 (p - pos + sizeof_uint16) else consumed in
  if first && match out with None => true | Some _ => false end then Some (Return consumed out) else
  let seen := u32 (seen + sizeof_uint16) in
  if length <? seen then Some (Return 0 out) else
  offset ← ReadBigEndian 2 packet p;
  let p := Z.land offset kOffsetMask in
  if length <=? p then Some (Return 0 out) else Some (Next p seen consumed out).

(* src: net/dns/dns_response.cc 83-103! DnsRecordParser::ReadName *)
Definition label_turn (packet : list Z) (length pos : Z) (p seen consumed : Z) (out : option (list Z))
    : option turn :=
  label_len ← get packet p;
  let label_len := wrap_u 8 label_len in
  let p := p + 1 in
  if label_len =? 0 then
    Some (Return (if consumed =? 0 then u32 (p - pos) else consumed) out)
  else if length <=? p + label_len then Some (Return 0 out) else
  out ← (match out with
         | None => Some None
         | Some out => label ← load packet p label_len; Some (Some (append_label out label))
         end);
  Some (Next (p + label_len) (u32 (seen + (1 + label_len))) consumed out).

(* src: net/dns/dns_response.cc 59-108! DnsRecordParser::ReadName *)
Fixpoint name_loop (fuel : nat) (packet : list Z) (length pos : Z) (p seen consumed : Z)
    (out : option (list Z)) : res (Z * option (list Z)) :=
  match fuel with
  | O => NoFuel
  | S fuel =>
      b ← checked (get packet p);
      let kind := Z.land (wrap_u 8 b) kLabelMask in
      next ← (if kind =? kLabelPointer then checked (pointer_turn packet length pos p seen consumed out)
              else if kind =? kLabelDirect then checked (label_turn packet length pos p seen consumed out)
              else Ok (Return 0 out));
      match next with
      | Return consumed out => Ok (consumed, out)
      | Next p seen consumed out => name_loop fuel packet length pos p seen consumed out
      end
  end.

(** The bytes consumed, and the output: [out] is null, or a string. *)
(* src: net/dns/dns_response.cc 37-109! DnsRecordParser::ReadName *)
Definition ReadName (pos : Z) (out : option (list Z)) (p : DnsRecordParser)
    : res (Z * option (list Z)) :=
  packet ← checked (packet_ p);
  checked (DCHECK (0 <=? pos)) ;;
  checked (DCHECK (pos <=? length_ p)) ;;
  if length_ p <=? pos then Ok (0, out) else
  let out := match out with None => None | Some _ => Some [] end in
  name_loop (S (S (2 * Z.to_nat (length_ p)))) packet (length_ p) pos pos 0 0 out.

(** The record keeps what has been read when a read fails. *)
(* src: net/dns/dns_response.cc 118-127! DnsRecordParser::ReadRecord *)
Definition read_fields (packet : list Z) (reader : BigEndianReader) (out : DnsResourceRecord)
    : option (bool * DnsResourceRecord * BigEndianReader) :=
  '(v, reader) ← ReadU16 packet reader;
  match v with None => Some (false, out, reader) | Some v =>
  let out := out <| type := v |> in
  '(v, reader) ← ReadU16 packet reader;
  match v with None => Some (false, out, reader) | Some v =>
  let out := out <| klass := v |> in
  '(v, reader) ← ReadU32 packet reader;
  match v with None => Some (false, out, reader) | Some v =>
  let out := out <| ttl := v |> in
  '(rdlen, reader) ← ReadU16 packet reader;
  match rdlen with None => Some (false, out, reader) | Some rdlen =>
  let '(piece, reader) := ReadPiece rdlen reader in
  match piece with None => Some (false, out, reader) | Some piece =>
  Some (true, out <| rdata := piece |>, reader)
  end end end end end.

(* src: net/dns/dns_response.cc 111-128! DnsRecordParser::ReadRecord *)
Definition ReadRecord (out : DnsResourceRecord) (p : DnsRecordParser)
    : res (bool * DnsResourceRecord * DnsRecordParser) :=
  packet ← checked (packet_ p);
  '(consumed, name') ← ReadName (cur_ p) (Some (name out)) p;
  let out := out <| name := default [] name' |> in
  if consumed =? 0 then Ok (false, out, p) else
  let reader := new_BigEndianReader (cur_ p + consumed) (length_ p - (cur_ p + consumed)) in
  '(done, out, reader) ← checked (read_fields packet reader out);
  if done : bool then Ok (true, out, p <| cur_ := ptr_ reader |>) else Ok (false, out, p).

(* src: net/dns/dns_response.cc 130-142! DnsRecordParser::SkipQuestion *)
Definition SkipQuestion (p : DnsRecordParser) : res (bool * DnsRecordParser) :=
  '(consumed, _) ← ReadName (cur_ p) None p;
  if consumed =? 0 then Ok (false, p) else
  let next := cur_ p + consumed + 2 * sizeof_uint16 in
  if length_ p <? next then Ok (false, p) else Ok (true, p <| cur_ := next |>).

(** ** Responses *)
(* src: net/dns/dns_response.h 157-162! DnsResponse *)
Record DnsResponse := mkDnsResponse {
  io_buffer_ : list Z;
  parser_ : DnsRecordParser
}.
#[export] Instance eta_DnsResponse : Eta DnsResponse := fun r =>
  mkDnsResponse (io_buffer_ r) (parser_ r).

(** A buffer with the bytes that have been received into it. *)
(* src: net/dns/dns_response.cc 144-150! DnsResponse::DnsResponse *)
Definition new_DnsResponse (io_buffer : list Z) : DnsResponse :=
  mkDnsResponse io_buffer no_DnsRecordParser.

(* src: net/dns/dns_response.cc 152-159! DnsResponse::DnsResponse *)
Definition DnsResponse_of_data (data : list Z) (answer_offset : Z) : option DnsResponse :=
  parser ← new_DnsRecordParser data (zlen data) answer_offset;
  Some (mkDnsResponse data parser).

(* src: net/dns/dns_response.cc 164-191! DnsResponse::InitParse *)
Definition InitParse (nbytes : Z) (query : DnsQuery) (r : DnsResponse) : option (bool * DnsResponse) :=
  DCHECK (0 <=? nbytes) ;;
  if (nbytes <? zlen (query_buffer query)) || (zlen (io_buffer_ r) <=? nbytes) then Some (false, r) else
  id ← header_get id_ (io_buffer_ r);
  expected ← query_id query;
  if !(id =? expected) then Some (false, r) else
  qdcount ← header_get qdcount_ (io_buffer_ r);
  if !(qdcount =? 1) then Some (false, r) else
  let hdr_size := sizeof_Header in
  question ← question query;
  bytes ← load (io_buffer_ r) hdr_size (zlen question);
  if !(bool_decide (question = bytes)) then Some (false, r) else
  parser ← new_DnsRecordParser (io_buffer_ r) nbytes (hdr_size + zlen question);
  Some (true, r <| parser_ := parser |>).

(* src: net/dns/dns_response.cc 204-210! DnsResponse::InitParseWithoutQuery *)
Fixpoint skip_questions (count : nat) (p : DnsRecordParser) : res (bool * DnsRecordParser) :=
  match count with
  | O => Ok (true, p)
  | S count =>
      '(skipped, p) ← SkipQuestion p;
      if skipped : bool then skip_questions count p else Ok (false, no_DnsRecordParser)
  end.

(* src: net/dns/dns_response.cc 193-213! DnsResponse::InitParseWithoutQuery *)
Definition InitParseWithoutQuery (nbytes : Z) (r : DnsResponse) : res (bool * DnsResponse) :=
  checked (DCHECK (0 <=? nbytes)) ;;
  let hdr_size := sizeof_Header in
  if (nbytes <? hdr_size) || (zlen (io_buffer_ r) <=? nbytes) then Ok (false, r) else
  parser ← checked (new_DnsRecordParser (io_buffer_ r) nbytes hdr_size);
  qdcount ← checked (header_get qdcount_ (io_buffer_ r));
  '(skipped, parser) ← skip_questions (Z.to_nat qdcount) parser;
  Ok (skipped, r <| parser_ := parser |>).

(** *** Accessors *)
(* src: net/dns/dns_response.cc 219-222! DnsResponse::flags *)
Definition flags (r : DnsResponse) : option Z :=
  DCHECK (IsValid (parser_ r)) ;;
  flags ← header_get flags_ (io_buffer_ r);
  Some (Z.land flags (Z.lnot kRcodeMask)).
(* src: net/dns/dns_response.cc 224-227! DnsResponse::rcode *)
Definition rcode (r : DnsResponse) : option Z :=
  DCHECK (IsValid (parser_ r)) ;;
  flags ← header_get flags_ (io_buffer_ r);
  Some (Z.land flags kRcodeMask).
(* src: net/dns/dns_response.cc 229-232! DnsResponse::answer_count *)
Definition answer_count (r : DnsResponse) : option Z :=
  DCHECK (IsValid (parser_ r)) ;; header_get ancount_ (io_buffer_ r).
(* src: net/dns/dns_response.cc 234-237! DnsResponse::additional_answer_count *)
Definition additional_answer_count (r : DnsResponse) : option Z :=
  DCHECK (IsValid (parser_ r)) ;; header_get arcount_ (io_buffer_ r).

(** The bytes of the piece. *)
(* src: net/dns/dns_response.cc 239-247! DnsResponse::qname *)
Definition qname (r : DnsResponse) : option (list Z) :=
  DCHECK (IsValid (parser_ r)) ;;
  let hdr_size := sizeof_Header in
  let qname_size := u64 (GetOffset (parser_ r) - 2 * sizeof_uint16 - hdr_size) in
  load (io_buffer_ r) hdr_size qname_size.
(* src: net/dns/dns_response.cc 249-256! DnsResponse::qtype *)
Definition qtype (r : DnsResponse) : option Z :=
  DCHECK (IsValid (parser_ r)) ;;
  let type_offset := GetOffset (parser_ r) - 2 * sizeof_uint16 in
  ReadBigEndian 2 (io_buffer_ r) type_offset.
(* src: net/dns/dns_response.cc 258-260! DnsResponse::GetDottedName *)
Definition GetDottedName (r : DnsResponse) : res (list Z) :=
  name ← checked (qname r); DNSDomainToString name.
(* src: net/dns/dns_response.cc 262-266! DnsResponse::Parser *)
Definition Parser (r : DnsResponse) : option DnsRecordParser :=
  DCHECK (IsValid (parser_ r)) ;; Some (parser_ r).

(** ** Addresses *)
(* src: net/dns/dns_response.h 86-98! DnsResponse::Result *)
Inductive Result :=
  | DNS_PARSE_OK
  | DNS_MALFORMED_RESPONSE
  | DNS_MALFORMED_CNAME
  | DNS_NAME_MISMATCH
  | DNS_SIZE_MISMATCH
  | DNS_CNAME_AFTER_ADDRESS
  | DNS_ADDRESS_TTL_MISMATCH
  | DNS_NO_ADDRESSES
  | DNS_PARSE_RESULT_MAX.

(** A C string ends at its first null; [strcasecmp] of the C locale finds no
    difference in case. *)
Fixpoint c_str (s : list Z) : list Z :=
  match s with [] => [] | c :: s => if c =? 0 then [] else c :: c_str s end.
Definition tolower (c : Z) : Z := if (65 <=? c) && (c <=? 90) then c + 32 else c.
Definition strcasecmp_differs (a b : list Z) : bool :=
  !(bool_decide (map tolower (c_str a) = map tolower (c_str b))).

(** The addresses with port 0, and the name of them. *)
Record AddressList := mkAddressList {
  addresses : list (list Z * Z);
  canonical_name : list Z
}.
(* src: net/base/address_list.cc 48-58! AddressList::CreateFromIPAddressList *)
Definition CreateFromIPAddressList (addresses : list (list Z)) (canonical_name : list Z) : AddressList :=
  mkAddressList (map (fun address => (address, 0)) addresses) canonical_name.

(** What the loop keeps. *)
Record Found := mkFound {
  expected_name : list Z;
  ttl_sec : Z;
  ip_addresses : list (list Z)
}.

(** One record: what is wrong with it, or what is known after it. *)
(* src: net/dns/dns_response.cc 301-324! DnsResponse::ParseToAddressList *)
Definition take_record (expected_type expected_size : Z) (parser : DnsRecordParser)
    (record : DnsResourceRecord) (found : Found) : res (Result + Found) :=
  let '(mkFound expected_name ttl_sec ip_addresses) := found in
  let '(begin, size) := rdata record in
  if type record =? kTypeCNAME then
    if !(zlen ip_addresses =? 0) then Ok (inl DNS_CNAME_AFTER_ADDRESS) else
    if strcasecmp_differs (name record) expected_name then Ok (inl DNS_NAME_MISMATCH) else
    '(consumed, out) ← ReadName begin (Some expected_name) parser;
    let expected_name := default [] out in
    if !(size =? consumed) then Ok (inl DNS_MALFORMED_CNAME) else
    Ok (inr (mkFound expected_name (Z.min ttl_sec (ttl record)) ip_addresses))
  else if type record =? expected_type then
    if !(size =? expected_size) then Ok (inl DNS_SIZE_MISMATCH) else
    if strcasecmp_differs (name record) expected_name then Ok (inl DNS_NAME_MISMATCH) else
    packet ← checked (packet_ parser);
    address ← checked (load packet begin size);
    Ok (inr (mkFound expected_name (Z.min ttl_sec (ttl record)) (ip_addresses ++ [address])))
  else Ok (inr found).

(* src: net/dns/dns_response.cc 297-325! DnsResponse::ParseToAddressList *)
Fixpoint records_loop (count : nat) (expected_type expected_size : Z) (parser : DnsRecordParser)
    (record : DnsResourceRecord) (found : Found) : res (Result + Found) :=
  match count with
  | O => Ok (inr found)
  | S count =>
      '(read, record, parser) ← ReadRecord record parser;
      if negb read then Ok (inl DNS_MALFORMED_RESPONSE) else
      taken ← take_record expected_type expected_size parser record found;
      match taken with
      | inl result => Ok (inl result)
      | inr found => records_loop count expected_type expected_size parser record found
      end
  end.

(** What is returned, and the list and its time to live in microseconds when
    they are set. [record] is what is on the stack before a record is read. *)
(* src: net/dns/dns_response.cc 272-335! DnsResponse::ParseToAddressList *)
Definition ParseToAddressList (record : DnsResourceRecord) (r : DnsResponse)
    : res (Result * option (AddressList * Z)) :=
  checked (DCHECK (IsValid (parser_ r))) ;;
  expected_name ← GetDottedName r;
  expected_type ← checked (qtype r);
  checked (DCHECK ((expected_type =? kTypeA) || (expected_type =? kTypeAAAA))) ;;
  let expected_size := if expected_type =? kTypeAAAA then kIPv6AddressSize else kIPv4AddressSize in
  parser ← checked (Parser r);
  ancount ← checked (answer_count r);
  found ← records_loop (Z.to_nat ancount) expected_type expected_size parser record
            (mkFound expected_name kuint32max []);
  match found with
  | inl result => Ok (result, None)
  | inr (mkFound expected_name ttl_sec ip_addresses) =>
      Ok (DNS_PARSE_OK, Some (CreateFromIPAddressList ip_addresses expected_name, ttl_sec * 1000000))
  end.
