(* ===== verification/DnsNames.v ===== *)
(** Names in DNS messages: what ReadName finds is what RFC 1035 means by the
    bytes, compression included, and it ends on any packet. *)
From S2P Require Import Prelude CArrays Memory BigEndian Dns.
From Stdlib Require Import ZifyBool.

(** ** The meaning of a name

    In the [length] bytes of a packet, the name at a position has these labels
    and takes so many bytes there; [seen] counts the bytes up to and with the
    last pointer that is followed. *)
Section Names.
Context (packet : list Z) (length_ : Z).

Inductive resolves : Z -> list (list Z) -> Z -> Z -> Prop :=
  | resolves_root p : get packet p = Some 0 -> resolves p [] 1 0
  | resolves_label p n label labels size seen :
      get packet p = Some n -> 0 < n < 64 -> p + 1 + n < length_ ->
      load packet (p + 1) n = Some label ->
      resolves (p + 1 + n) labels size seen ->
      resolves p (label :: labels) (1 + n + size) (if seen =? 0 then 0 else 1 + n + seen)
  | resolves_pointer p hi lo labels size seen :
      get packet p = Some hi -> get packet (p + 1) = Some lo -> 192 <= hi -> p + 2 <= length_ ->
      (hi - 192) * 256 + lo < length_ ->
      resolves ((hi - 192) * 256 + lo) labels size seen ->
      resolves p labels 2 (2 + seen).

(** How many bytes a name takes where it is, pointers not followed. *)
Inductive spans : Z -> Z -> Prop :=
  | spans_root p : get packet p = Some 0 -> spans p 1
  | spans_label p n size :
      get packet p = Some n -> 0 < n < 64 -> p + 1 + n < length_ ->
      spans (p + 1 + n) size -> spans p (1 + n + size)
  | spans_pointer p hi : get packet p = Some hi -> 192 <= hi -> p + 2 <= length_ -> spans p 2.

Context (Hbytes : Forall is_byte packet) (Hlen : length_ <= zlen packet) (Hmax : length_ < 2 ^ 30).

Lemma byte_at p : 0 <= p < length_ -> exists b, get packet p = Some b /\ is_byte b.
Proof.
  intros Hp. destruct (get_some packet p) as [b Hb]; [lia|]. exists b. split; [done|]. by eapply get_Forall.
Qed.

Lemma resolves_range p labels size seen : resolves p labels size seen -> 0 < size /\ 0 <= seen.
Proof. induction 1; [lia| |lia]. destruct (Z.eqb_spec seen 0); lia. Qed.

(** The three kinds of a first byte. *)
Lemma kind_of b : is_byte b ->
  (Z.land b kLabelMask =? kLabelPointer) = (192 <=? b) /\ (Z.land b kLabelMask =? kLabelDirect) = (b <? 64).
Proof. intros Hb. split; revert b Hb; unfold is_byte, kLabelMask, kLabelPointer, kLabelDirect; compute_below 256%nat. Qed.

(** *** A pointer *)
Lemma target hi lo : 192 <= hi < 256 -> is_byte lo ->
  Z.land (be_value [hi; lo]) kOffsetMask = (hi - 192) * 256 + lo.
Proof.
  intros Hhi Hlo. unfold is_byte in Hlo. change kOffsetMask with (Z.ones 14). rewrite Z.land_ones by lia.
  change (be_value [hi; lo]) with (hi * 256 + lo). change (2 ^ 14) with 16384.
  replace (hi * 256 + lo) with (3 * 16384 + ((hi - 192) * 256 + lo)) by lia.
  rewrite Z.add_comm, Z.mod_add by lia. apply Z.mod_small. lia.
Qed.

Lemma two_bytes p hi lo :
  get packet p = Some hi -> get packet (p + 1) = Some lo -> ReadBigEndian 2 packet p = Some (be_value [hi; lo]).
Proof.
  intros Hhi Hlo. pose proof (get_range _ _ _ Hlo).
  apply ReadBigEndian_spec; [lia|done| |].
  - constructor; [by eapply get_Forall|]. constructor; [by eapply get_Forall|done].
  - apply lies_cons; [done|]. apply lies_cons; [done|]. apply lies_nil. lia.
Qed.

(** ** The loop

    What is returned: the bytes taken in front of the first pointer, if there
    was none yet, and the labels behind what has been read. *)
Definition joined (out : option (list Z)) (labels : list (list Z)) : option (list Z) :=
  match out with None => None | Some out => Some (fold_left append_label labels out) end.

(** The name at [p] is found, with [seen] bytes counted on the way there. *)
Definition found (pos p seen consumed : Z) (out : option (list Z)) (r : Z * option (list Z)) : Prop :=
  exists labels size more, resolves p labels size more /\ (more = 0 \/ seen + more <= length_) /\
    r = ((if consumed =? 0 then p - pos + size else consumed), joined out labels).

(** It is not found: it has no meaning, or too many bytes are counted. *)
Definition missed (p seen : Z) (r : Z * option (list Z)) : Prop :=
  fst r = 0 /\
  forall labels size more, resolves p labels size more -> more <> 0 /\ length_ < seen + more.

(** The turns that are left. *)
Definition turns (p seen : Z) : Z :=
  if seen <=? length_ then (length_ - seen) + length_ + 2 else length_ - p + 1.

Record going (pos p seen consumed : Z) : Prop := {
  go_pos : 0 <= pos;
  go_p : 0 <= p < length_;
  go_seen : 0 <= seen /\ seen + (length_ - p) <= 2 * length_;
  go_consumed : 0 <= consumed;
  go_front : consumed = 0 -> pos <= p
}.

Lemma pointer_step pos p seen consumed out hi :
  going pos p seen consumed -> get packet p = Some hi -> 192 <= hi ->
  consumed <> 0 \/ out <> None ->
  (exists lo, pointer_turn packet length_ pos p seen consumed out =
     Some (Next ((hi - 192) * 256 + lo) (seen + 2) (if consumed =? 0 then p - pos + 2 else consumed) out) /\
     get packet (p + 1) = Some lo /\ p + 2 <= length_ /\ seen + 2 <= length_ /\
     0 <= (hi - 192) * 256 + lo < length_) \/
  (pointer_turn packet length_ pos p seen consumed out = Some (Return 0 out) /\
     forall labels size more, resolves p labels size more -> length_ < seen + more /\ more <> 0).
Proof.
  intros [Hpos Hp Hseen Hc Hfront] Hhi H192 Hout. unfold pointer_turn, sizeof_uint16.
  assert (Hb : is_byte hi) by (by eapply get_Forall). unfold is_byte in Hb.
  destruct (Z.ltb_spec length_ (p + 2)) as [H2|H2].
  { right. split; [done|]. intros labels size more Hr. inversion Hr; simplify_eq; lia. }
  destruct (get_some packet (p + 1)) as [lo Hlo]; [lia|].
  assert (Hbl : is_byte lo) by (by eapply get_Forall). pose proof Hbl as Hbl'. unfold is_byte in Hbl'.
  replace ((consumed =? 0) && match out with None => true | Some _ => false end) with false
    by (destruct (Z.eqb_spec consumed 0), out; naive_solver).
  rewrite (wrap_u_id 32 (seen + 2)) by (unfold in_u; lia).
  assert (Hinv : forall labels size more, resolves p labels size more ->
    2 <= more /\ (hi - 192) * 256 + lo < length_).
  { intros labels size more Hr. inversion Hr; simplify_eq; [lia|lia|].
    match goal with H : resolves _ _ _ _ |- _ => apply resolves_range in H end. lia. }
  destruct (Z.ltb_spec length_ (seen + 2)) as [Hs|Hs].
  { right. split; [done|]. intros labels size more Hr. specialize (Hinv _ _ _ Hr). lia. }
  rewrite (two_bytes p hi lo) by done. cbn [mbind option_bind]. rewrite target by (lia || done).
  destruct (Z.leb_spec length_ ((hi - 192) * 256 + lo)) as [Ht|Ht].
  { right. split; [done|]. intros labels size more Hr. specialize (Hinv _ _ _ Hr). lia. }
  left. exists lo. split_and!; try done; [|lia]. do 2 f_equal.
  destruct (Z.eqb_spec consumed 0); [|done]. apply wrap_u_id. unfold in_u. lia.
Qed.

Lemma label_step pos p seen consumed out n :
  going pos p seen consumed -> get packet p = Some n -> 0 < n < 64 ->
  (exists label, label_turn packet length_ pos p seen consumed out =
     Some (Next (p + 1 + n) (seen + (1 + n)) consumed (joined out [label])) /\
     load packet (p + 1) n = Some label /\ p + 1 + n < length_) \/
  (label_turn packet length_ pos p seen consumed out = Some (Return 0 out) /\
     forall labels size more, ~ resolves p labels size more).
Proof.
  intros [Hpos Hp Hseen Hc Hfront] Hn Hr. unfold label_turn. rewrite Hn. cbn [mbind option_bind].
  rewrite (wrap_u_id 8) by (unfold in_u; lia). rewrite (proj2 (Z.eqb_neq n 0)) by lia.
  destruct (Z.leb_spec length_ (p + 1 + n)) as [Hl|Hl].
  - right. split; [done|]. intros labels size more Hres. inversion Hres; simplify_eq; lia.
  - left. destruct (load_total packet (p + 1) n) as [label Hlabel]; [lia..|unfold zlen in *; lia|].
    exists label. rewrite wrap_u_id by (unfold in_u; lia).
    split; [|done]. by destruct out as [out|]; [rewrite Hlabel|].
Qed.
Lemma turns_label p seen k : 0 <= p -> 0 < k -> turns (p + k) (seen + k) < turns p seen.
Proof.
  intros Hp Hk. unfold turns.
  destruct (Z.leb_spec seen length_), (Z.leb_spec (seen + k) length_); lia.
Qed.

Lemma turns_pointer p q seen : seen + 2 <= length_ -> turns q (seen + 2) < turns p seen.
Proof. intros Hs. unfold turns. rewrite !(proj2 (Z.leb_le _ length_)) by lia. lia. Qed.

Lemma joined_cons out label labels : joined (joined out [label]) labels = joined out (label :: labels).
Proof. by destruct out. Qed.

Lemma name_loop_spec fuel : forall pos p seen consumed out,
  going pos p seen consumed -> consumed <> 0 \/ out <> None -> turns p seen <= Z.of_nat fuel ->
  exists r, name_loop fuel packet length_ pos p seen consumed out = Ok r /\
    (found pos p seen consumed out r \/ missed p seen r).
Proof.
  induction fuel as [|fuel IH]; intros pos p seen consumed out Hgo Hout Hf.
  { exfalso. destruct Hgo. unfold turns in Hf. destruct (Z.leb_spec seen length_); lia. }
  pose proof Hgo as [Hpos Hp Hseen Hc Hfront]. cbn [name_loop].
  destruct (byte_at p Hp) as (b & Hb & Hbb). rewrite Hb. cbn [checked mbind res_bind].
  rewrite (wrap_u_id 8) by done. destruct (kind_of b Hbb) as [-> ->]. unfold is_byte in Hbb.
  destruct (Z.leb_spec 192 b) as [H192|H192]; [|destruct (Z.ltb_spec b 64) as [H64|H64]].
  - destruct (pointer_step pos p seen consumed out b Hgo Hb H192 Hout) as
      [(lo & -> & Hlo & H2 & Hs2 & Ht)|[-> Hno]]; cbn [checked mbind res_bind].
    + edestruct (IH pos ((b - 192) * 256 + lo) (seen + 2) (if consumed =? 0 then p - pos + 2 else consumed) out)
        as (r & -> & Hr).
      { constructor; [done|done|lia| |]; destruct (Z.eqb_spec consumed 0); lia. }
      { destruct (Z.eqb_spec consumed 0); [left; lia|by left]. }
      { pose proof (turns_pointer p ((b - 192) * 256 + lo) seen Hs2). lia. }
      exists r. split; [done|]. destruct Hr as [(labels & size & more & Hres & Hmore & ->)|[Hr Hno]].
      * left. exists labels, 2, (2 + more). split; [by eapply resolves_pointer; eauto; lia|]. split; [right; lia|].
        destruct (Z.eqb_spec consumed 0) as [E|E]; [|by rewrite (proj2 (Z.eqb_neq consumed 0))].
        by rewrite (proj2 (Z.eqb_neq (p - pos + 2) 0)) by lia.
      * right. split; [done|]. intros labels size more Hres. inversion Hres; simplify_eq; [lia..|].
        match goal with H : resolves (_ + _) _ _ _ |- _ => apply Hno in H end. lia.
    + exists (0, out). split; [done|]. right. split; [done|]. intros labels size more Hres.
      specialize (Hno _ _ _ Hres). lia.
  - destruct (Z.eqb_spec b 0) as [E|E].
    + subst b. unfold label_turn. rewrite Hb. cbn [mbind option_bind checked res_bind].
      change (wrap_u 8 0) with 0. cbn [Z.eqb checked mbind res_bind].
      eexists. split; [reflexivity|]. left. exists [], 1, 0. split; [by apply resolves_root|]. split; [by left|].
      f_equal; [|by destruct out]. destruct (Z.eqb_spec consumed 0); [|done].
      rewrite wrap_u_id by (unfold in_u; lia). lia.
    + destruct (label_step pos p seen consumed out b Hgo Hb ltac:(lia)) as [(label & -> & Hl & Hend)|[-> Hno]];
        cbn [checked mbind res_bind].
      2:{ exists (0, out). split; [done|]. right. split; [done|]. intros labels size more Hres.
          exfalso. by eapply Hno. }
      edestruct (IH pos (p + 1 + b) (seen + (1 + b)) consumed (joined out [label])) as (r & -> & Hr).
      { constructor; lia. }
      { destruct Hout as [?|?]; [by left|right]. by destruct out. }
      { pose proof (turns_label p seen (1 + b)) as Ht. rewrite (Z.add_assoc p) in Ht. lia. }
      exists r. split; [done|]. destruct Hr as [(labels & size & more & Hres & Hmore & ->)|[Hr Hno]].
      * left. exists (label :: labels), (1 + b + size), (if more =? 0 then 0 else 1 + b + more).
        split; [by eapply resolves_label; eauto; lia|].
        split; [destruct (Z.eqb_spec more 0); lia|]. rewrite joined_cons. f_equal.
        destruct (Z.eqb_spec consumed 0); lia.
      * right. split; [done|]. intros labels size more Hres. inversion Hres; simplify_eq; [|lia].
        match goal with H : resolves (p + 1 + _) _ _ ?m |- _ =>
          pose proof (resolves_range _ _ _ _ H); apply Hno in H; destruct (Z.eqb_spec m 0) end; lia.
  - exists (0, out). cbn [mbind res_bind]. split; [done|]. right. split; [done|].
    intros labels size more Hres. inversion Hres; simplify_eq; lia.
Qed.
(** A name has one meaning. *)
Lemma resolves_fun p labels size seen : resolves p labels size seen ->
  forall labels' size' seen', resolves p labels' size' seen' -> labels' = labels /\ size' = size /\ seen' = seen.
Proof.
  induction 1 as [p H0|p n label labels size seen Hn Hr Hl Hload Hres IH|p hi lo labels size seen Hhi Hlo H192 H2 Ht Hres IH];
    intros labels' size' seen' Hres'; inversion Hres'; simplify_eq; try lia; try done.
  - match goal with H : resolves (p + 1 + n) _ _ _ |- _ => apply IH in H as (-> & -> & ->) end. done.
  - match goal with H : resolves (_ + _) _ _ _ |- _ => apply IH in H as (-> & -> & ->) end. done.
Qed.

(** *** Names that are passed over *)
Lemma skip_loop_spec fuel : forall pos p seen,
  0 <= pos <= p -> p < length_ -> 0 <= seen -> seen + (length_ - p) <= 2 * length_ ->
  length_ - p < Z.of_nat fuel ->
  exists size, name_loop fuel packet length_ pos p seen 0 None = Ok (size, None) /\
    ((exists n, spans p n /\ size = p - pos + n) \/ (size = 0 /\ forall n, ~ spans p n)).
Proof.
  induction fuel as [|fuel IH]; intros pos p seen Hpos Hp Hseen Hbound Hf; [lia|]. cbn [name_loop].
  destruct (byte_at p ltac:(lia)) as (b & Hb & Hbb). rewrite Hb. cbn [checked mbind res_bind].
  rewrite (wrap_u_id 8) by done. destruct (kind_of b Hbb) as [-> ->]. unfold is_byte in Hbb.
  destruct (Z.leb_spec 192 b) as [H192|H192]; [|destruct (Z.ltb_spec b 64) as [H64|H64]].
  - unfold pointer_turn, sizeof_uint16. destruct (Z.ltb_spec length_ (p + 2)) as [H2|H2]; cbn [checked mbind res_bind].
    + exists 0. split; [done|]. right. split; [done|]. intros n Hn. inversion Hn; simplify_eq; lia.
    + cbn [Z.eqb andb checked mbind res_bind]. eexists. split; [reflexivity|]. left. exists 2.
      split; [by eapply spans_pointer; eauto; lia|]. rewrite wrap_u_id by (unfold in_u; lia). lia.
  - destruct (Z.eqb_spec b 0) as [E|E].
    + subst b. unfold label_turn. rewrite Hb. cbn [mbind option_bind checked res_bind].
      change (wrap_u 8 0) with 0. cbn [Z.eqb checked mbind res_bind].
      eexists. split; [reflexivity|]. left. exists 1. split; [by apply spans_root|].
      rewrite wrap_u_id by (unfold in_u; lia). lia.
    + unfold label_turn. rewrite Hb. cbn [mbind option_bind]. rewrite (wrap_u_id 8) by (unfold in_u; lia).
      rewrite (proj2 (Z.eqb_neq b 0)) by lia.
      destruct (Z.leb_spec length_ (p + 1 + b)) as [Hl|Hl]; cbn [checked mbind res_bind option_bind].
      * exists 0. split; [done|]. right. split; [done|]. intros n Hn. inversion Hn; simplify_eq; lia.
      * rewrite wrap_u_id by (unfold in_u; lia).
        destruct (IH pos (p + 1 + b) (seen + (1 + b))) as (size & -> & Hs); [lia..|].
        exists size. split; [done|]. destruct Hs as [(n & Hn & ->)|[-> Hno]].
        -- left. exists (1 + b + n). split; [by eapply spans_label; eauto; lia|lia].
        -- right. split; [done|]. intros n Hn. inversion Hn; simplify_eq; [|lia]. by eapply Hno.
  - exists 0. cbn [mbind res_bind]. split; [done|]. right. split; [done|].
    intros n Hn. inversion Hn; simplify_eq; lia.
Qed.

(** ** ReadName *)

(** The dotted form. *)
Definition dotted (labels : list (list Z)) : list Z :=
  match labels with
  | [] => []
  | label :: labels => label ++ flat_map (fun label => dot :: label) labels
  end.

Lemma append_labels labels : Forall (fun label => label <> []) labels -> forall out,
  fold_left append_label labels out =
  if zlen out =? 0 then dotted labels else out ++ flat_map (fun label => dot :: label) labels.
Proof.
  induction 1 as [|label labels Hl Hf IH]; intros out; cbn [fold_left].
  - destruct (Z.eqb_spec (zlen out) 0) as [E|E]; cbn; [|by rewrite app_nil_r].
    destruct out; [done|unfold zlen in E; cbn in E; lia].
  - rewrite IH. unfold append_label. assert (Hz : 0 < zlen label) by (destruct label; [done|unfold zlen; cbn; lia]).
    pose proof (zlen_nonneg out). destruct (Z.eqb_spec (zlen out) 0) as [E|E].
    + destruct out; [|unfold zlen in E; cbn in E; lia]. cbn [app]. by rewrite (proj2 (Z.eqb_neq _ 0)) by lia.
    + rewrite (proj2 (Z.eqb_neq _ 0)) by (rewrite !zlen_app; change (zlen [dot]) with 1; lia).
      cbn [flat_map]. by rewrite <- !app_assoc.
Qed.

Lemma resolves_labels p labels size seen :
  resolves p labels size seen -> Forall (fun label => 0 < zlen label < 64) labels.
Proof.
  induction 1 as [|p n label labels size seen Hn Hr Hl Hload Hres IH|]; [done| |done].
  constructor; [|done]. unfold load in Hload. destruct (_ && _) eqn:E; [|done]. injection Hload as <-.
  to_prop. unfold zlen. rewrite length_take, length_drop. lia.
Qed.

Lemma resolves_dotted p labels size seen :
  resolves p labels size seen -> fold_left append_label labels [] = dotted labels.
Proof.
  intros Hres. apply (append_labels labels). eapply Forall_impl; [by eapply resolves_labels|].
  intros label Hl ->. unfold zlen in Hl. cbn in Hl. lia.
Qed.

(** What is found at a position, and what it takes there; [size] is 0 for a
    name that is not there or that is taken for a loop. *)
Definition name_read (pos : Z) (size : Z) (out : option (list Z)) : Prop :=
  (exists labels seen, resolves pos labels size seen /\ seen <= length_ /\ out = Some (dotted labels)) \/
  (size = 0 /\ forall labels size seen, resolves pos labels size seen -> length_ < seen).

Lemma ReadName_spec pos out cur :
  0 <= pos < length_ ->
  exists size out', ReadName pos (Some out) (mkDnsRecordParser (Some packet) length_ cur) = Ok (size, out') /\
    name_read pos size out'.
Proof.
  intros Hp. unfold ReadName. cbn [packet_ Dns.length_ checked mbind res_bind].
  rewrite (proj2 (Z.leb_le 0 pos)), (proj2 (Z.leb_le pos length_)), (proj2 (Z.leb_gt length_ pos)) by lia.
  cbn [DCHECK checked mbind res_bind].
  destruct (name_loop_spec (S (S (2 * Z.to_nat length_))) pos pos 0 0 (Some [])) as ([size out'] & -> & Hr).
  - constructor; lia.
  - by right.
  - unfold turns. rewrite (proj2 (Z.leb_le 0 length_)) by lia. lia.
  - exists size, out'. split; [done|]. destruct Hr as [(labels & size' & more & Hres & Hmore & Er)|[Hr Hno]].
    + left. cbn [Z.eqb joined] in Er. injection Er as -> ->. exists labels, more.
      rewrite (resolves_dotted _ _ _ _ Hres). replace (pos - pos + size') with size' by lia. split; [done|]. split; [lia|done].
    + right. cbn in Hr. split; [done|]. intros labels size' seen Hres. apply Hno in Hres. lia.
Qed.

Lemma ReadName_skips pos cur :
  0 <= pos < length_ ->
  exists size, ReadName pos None (mkDnsRecordParser (Some packet) length_ cur) = Ok (size, None) /\
    (spans pos size \/ (size = 0 /\ forall n, ~ spans pos n)).
Proof.
  intros Hp. unfold ReadName. cbn [packet_ Dns.length_ checked mbind res_bind].
  rewrite (proj2 (Z.leb_le 0 pos)), (proj2 (Z.leb_le pos length_)), (proj2 (Z.leb_gt length_ pos)) by lia.
  cbn [DCHECK checked mbind res_bind].
  destruct (skip_loop_spec (S (S (2 * Z.to_nat length_))) pos pos 0) as (size & -> & Hs); [lia..|].
  exists size. split; [done|]. destruct Hs as [(n & Hn & ->)|Hno]; [left|by right].
  by replace (pos - pos + n) with n by lia.
Qed.

Lemma ReadName_end out cur :
  0 <= length_ ->
  ReadName length_ out (mkDnsRecordParser (Some packet) length_ cur) = Ok (0, out).
Proof.
  intros Hl. unfold ReadName. cbn [packet_ Dns.length_ checked mbind res_bind].
  by rewrite (proj2 (Z.leb_le 0 length_)), (Z.leb_refl length_).
Qed.
End Names.

Lemma spans_positive packet len p n : spans packet len p n -> 0 < n.
Proof. induction 1; lia. Qed.

(** C25. A name in a message is what RFC 1035 means by it, on any bytes: from
    any position of a packet ReadName ends and reads nothing outside the
    packet. When it returns a number that is not zero, the bytes there mean
    labels, through the pointers in them, that number is what they take in
    place, and the output is the labels with dots between them. When it
    returns zero, the bytes mean no name, or the name was taken for a loop
    because more bytes were counted, up to its last pointer, than the packet
    has. Without an output, it returns what the name takes in place. *)
Theorem compressed_names_are_resolved packet len pos cur out :
  Forall is_byte packet -> len <= zlen packet -> len < 2 ^ 30 -> 0 <= pos <= len ->
  let p := mkDnsRecordParser (Some packet) len cur in
  (exists size out', ReadName pos (Some out) p = Ok (size, out') /\
    ((0 < size /\ exists labels seen,
        resolves packet len pos labels size seen /\ seen <= len /\ out' = Some (dotted labels)) \/
     (size = 0 /\ forall labels size seen, pos < len -> resolves packet len pos labels size seen -> len < seen))) /\
  (exists size, ReadName pos None p = Ok (size, None) /\
    ((0 < size /\ spans packet len pos size) \/
     (size = 0 /\ forall n, pos < len -> ~ spans packet len pos n))).
Proof.
  intros Hb Hl Hmax Hpos p. destruct (decide (pos = len)) as [->|Hne].
  - unfold p. rewrite !ReadName_end by lia. split.
    + exists 0, (Some out). split; [done|]. right. split; [done|]. lia.
    + exists 0. split; [done|]. right. split; [done|]. lia.
  - split.
    + destruct (ReadName_spec packet len Hb Hl Hmax pos out cur ltac:(lia)) as (size & out' & E & Hr).
      exists size, out'. split; [exact E|]. destruct Hr as [(labels & seen & Hres & Hs & ->)|[-> Hno]].
      * left. pose proof (resolves_range _ _ _ _ _ _ Hres). split; [lia|]. by exists labels, seen.
      * right. split; [done|]. intros labels size seen _. apply Hno.
    + destruct (ReadName_skips packet len Hb Hl Hmax pos cur ltac:(lia)) as (size & E & Hr).
      exists size. split; [exact E|]. destruct Hr as [Hs|[-> Hno]]; [|by right].
      left. split; [by eapply spans_positive|done].
Qed.

(** "a", then "b" and a pointer to "a", then a pointer to itself. *)
Definition example_packet : list Z := [1; 97; 0; 1; 98; 192; 0; 192; 7].

Lemma compressed_names_are_resolved_witness :
  let p := mkDnsRecordParser (Some example_packet) 9 0 in
  (exists size out', ReadName 3 (Some []) p = Ok (size, out') /\
    ((0 < size /\ exists labels seen,
        resolves example_packet 9 3 labels size seen /\ seen <= 9 /\ out' = Some (dotted labels)) \/
     (size = 0 /\ forall labels size seen, 3 < 9 -> resolves example_packet 9 3 labels size seen -> 9 < seen))) /\
  (exists size, ReadName 3 None p = Ok (size, None) /\
    ((0 < size /\ spans example_packet 9 3 size) \/
     (size = 0 /\ forall n, 3 < 9 -> ~ spans example_packet 9 3 n))).
Proof.
  apply (compressed_names_are_resolved example_packet 9 3 0 []).
  - repeat constructor; unfold is_byte; lia.
  - vm_compute. discriminate.
  - lia.
  - lia.
Defined.

Example example_names :
  ReadName 3 (Some []) (mkDnsRecordParser (Some example_packet) 9 0) = Ok (4, Some [98; dot; 97]) /\
  ReadName 7 (Some []) (mkDnsRecordParser (Some example_packet) 9 0) = Ok (0, Some []).
Proof. by vm_compute. Qed.

(** The comment in ReadName says that a name whose bytes are as many as those
    of the packet must be a loop. Labels that overlap are counted twice: this
    name ends, and is refused. *)
Definition overlapping_packet : list Z := [9; 9; 97; 97; 97; 97; 97; 97; 97; 97; 192; 1; 98; 192; 15; 0].

Lemma a_name_taken_for_a_loop :
  (exists labels size seen, resolves overlapping_packet 16 0 labels size seen) /\
  exists out, ReadName 0 (Some []) (mkDnsRecordParser (Some overlapping_packet) 16 0) = Ok (0, out).
Proof.
  split; [|eexists; vm_compute; reflexivity]. do 3 eexists.
  eapply resolves_label; [reflexivity|lia|lia|reflexivity|].
  eapply resolves_pointer; [reflexivity|reflexivity|lia|lia|lia|].
  eapply resolves_label; [reflexivity|lia|lia|reflexivity|].
  eapply resolves_label; [reflexivity|lia|lia|reflexivity|].
  eapply resolves_pointer; [reflexivity|reflexivity|lia|lia|lia|].
  apply resolves_root. reflexivity.
Qed.
