(* ===== verification/DnsText.v ===== *)
(** Host names and their form in DNS messages: what DNSDomainFromDot writes,
    DNSDomainToString and ReadName read. *)
From S2P Require Import Prelude CArrays Memory BigEndian Dns DnsNames.
From Stdlib Require Import ZifyBool.

(** ** The labels of a host name: what is between dots and not empty *)
Fixpoint pieces (label s : list Z) : list (list Z) :=
  match s with
  | [] => [label]
  | c :: s => if c =? dot then label :: pieces [] s else pieces (label ++ [c]) s
  end.

Definition labels_of (s : list Z) : list (list Z) := filter (fun label => label <> []) (pieces [] s).

(** A label with its length, nothing for an empty piece. *)
Definition entry (label : list Z) : list Z :=
  match label with [] => [] | _ => zlen label :: label end.
Definition wire (labels : list (list Z)) : list Z := flat_map entry labels ++ [0].

Lemma entries_labels l : flat_map entry (filter (fun label => label <> []) l) = flat_map entry l.
Proof.
  induction l as [|label l IH]; [done|]. rewrite filter_cons. destruct label as [|c label].
  - rewrite decide_False by naive_solver. done.
  - rewrite decide_True by done. cbn [flat_map]. by rewrite IH.
Qed.

(** The arrays: what is used of them, and the rest. *)
Lemma add_label_spec cur lrest nm nrest :
  zlen (cur ++ lrest) = 63 -> zlen (nm ++ nrest) = 255 ->
  exists o, add_label (cur ++ lrest) (zlen cur) (nm ++ nrest) (zlen nm) = Some o /\
    match o with
    | None => 255 < zlen (nm ++ entry cur)
    | Some (name, namelen) => exists nrest', name = (nm ++ entry cur) ++ nrest' /\ zlen name = 255 /\
                                namelen = zlen (nm ++ entry cur)
    end.
Proof.
  intros Hl Hn. unfold add_label. pose proof (zlen_nonneg lrest). pose proof (zlen_nonneg nrest).
  rewrite zlen_app in Hl, Hn. destruct (decide (cur = [])) as [->|Hne].
  { cbn [Z.eqb zlen length]. eexists. split; [reflexivity|]. exists nrest. cbn [entry].
    rewrite !app_nil_r, zlen_app. done. }
  assert (Hc : 0 < zlen cur) by (destruct cur; [done|unfold zlen; cbn; lia]).
  assert (He : entry cur = zlen cur :: cur) by (by destruct cur).
  assert (Hze : zlen (nm ++ entry cur) = zlen nm + zlen cur + 1)
    by (rewrite He, zlen_app; unfold zlen; cbn [length]; lia).
  rewrite (proj2 (Z.eqb_neq (zlen cur) 0)) by lia.
  destruct (Z.ltb_spec 255 (zlen nm + zlen cur + 1)) as [Hf|Hf]; [exists None; split; [done|]; lia|].
  destruct (split_at (S (length cur)) nrest) as (old & nrest' & -> & Hold); [unfold zlen in *; lia|].
  destruct old as [|x old]; [done|]. cbn in Hold. cbn [app]. rewrite put_app. cbn [mbind option_bind].
  rewrite (wrap_u_id 8) by (unfold in_u; lia). rewrite load_head by done. cbn [mbind option_bind].
  replace (nm ++ zlen cur :: old ++ nrest') with ((nm ++ [zlen cur]) ++ old ++ nrest') by (by rewrite <- app_assoc).
  rewrite (store_app (nm ++ [zlen cur])) by (rewrite ?length_app; unfold zlen; cbn [length]; lia).
  cbn [mbind option_bind]. eexists. split; [reflexivity|]. exists nrest'. rewrite Hze, He.
  replace (zlen ((x :: old) ++ nrest')) with (zlen cur + 1 + zlen nrest') in Hn
    by (rewrite zlen_app; unfold zlen; cbn [length]; lia).
  split; [by rewrite <- !app_assoc|]. split; [|lia].
  rewrite !zlen_app. change (zlen [zlen cur]) with 1. lia.
Qed.

Lemma pieces_last s : forall label, exists init last, pieces label s = init ++ [last].
Proof.
  induction s as [|c s IH]; intros label; cbn [pieces]; [by exists [], label|].
  destruct (c =? dot); [|apply IH]. destruct (IH []) as (init & last & ->). by exists (label :: init), last.
Qed.

Definition short (l : list (list Z)) : Prop := Forall (fun label => zlen label <= 63) l.

Lemma first_piece s : forall label, exists more rest, pieces label s = (label ++ more) :: rest.
Proof.
  induction s as [|c s IH]; intros label; cbn [pieces]; [exists [], []; by rewrite app_nil_r|].
  destruct (c =? dot); [by exists [], (pieces [] s); rewrite app_nil_r|].
  destruct (IH (label ++ [c])) as (more & rest & ->). exists (c :: more), rest. by rewrite <- app_assoc.
Qed.

Lemma from_dot_loop_spec buf : forall cur lrest nm nrest,
  zlen (cur ++ lrest) = 63 -> zlen (nm ++ nrest) = 255 ->
  exists o, from_dot_loop buf (cur ++ lrest) (zlen cur) (nm ++ nrest) (zlen nm) = Some o /\
    match o with
    | None => ~ (short (pieces cur buf) /\ zlen (nm ++ flat_map entry (pieces cur buf)) < 255)
    | Some (label, labellen, name, namelen) => exists init last lrest' nrest',
        pieces cur buf = init ++ [last] /\ short (pieces cur buf) /\
        label = last ++ lrest' /\ zlen label = 63 /\ labellen = zlen last /\
        name = (nm ++ flat_map entry init) ++ nrest' /\ zlen name = 255 /\
        namelen = zlen (nm ++ flat_map entry init)
    end.
Proof.
  induction buf as [|ch buf IH]; intros cur lrest nm nrest Hl Hn; cbn [from_dot_loop pieces].
  - eexists. split; [reflexivity|]. exists [], cur, lrest, nrest. cbn [flat_map app]. rewrite app_nil_r.
    pose proof (zlen_nonneg lrest). rewrite zlen_app in Hl.
    split_and!; try done; [|by rewrite zlen_app]. constructor; [lia|done].
  - destruct (ch =? dot).
    + destruct (add_label_spec cur lrest nm nrest Hl Hn) as (o & -> & Ho). cbn [mbind option_bind].
      destruct o as [[name namelen]|].
      * destruct Ho as (nrest' & -> & Hn' & ->).
        destruct (IH [] (cur ++ lrest) (nm ++ entry cur) nrest' Hl Hn') as (o & E & Ho).
        cbn [app] in E. change (zlen (@nil Z)) with 0 in E. rewrite E. exists o. split; [done|].
        assert (Hc : zlen cur <= 63) by (pose proof (zlen_nonneg lrest); rewrite zlen_app in Hl; lia).
        destruct o as [[[[label labellen] name] namelen]|].
        -- destruct Ho as (init & last & lrest' & nrest'' & Hp & Hs & -> & Hlab & -> & -> & Hname & ->).
           exists (cur :: init), last, lrest', nrest''. rewrite Hp in *. cbn [flat_map].
           rewrite !app_assoc in *. split_and!; try done. by constructor.
        -- cbn [flat_map]. rewrite app_assoc. intros [Hs Hz]. apply Ho. by apply Forall_cons in Hs as [_ Hs].
      * exists None. split; [done|]. intros [_ Hz]. cbn [flat_map] in Hz. rewrite app_assoc, zlen_app in Hz.
        pose proof (zlen_nonneg (flat_map entry (pieces [] buf))). lia.
    + rewrite zlen_app in Hl. destruct (Z.leb_spec 63 (zlen cur)) as [H63|H63].
      * exists None. split; [done|]. intros [Hs _].
        destruct (first_piece buf (cur ++ [ch])) as (more & rest & E). rewrite E in Hs.
        apply Forall_cons in Hs as [Hs _]. rewrite !zlen_app in Hs. change (zlen [ch]) with 1 in Hs.
        pose proof (zlen_nonneg more). lia.
      * destruct lrest as [|x lrest]; [unfold zlen in *; cbn in *; lia|]. rewrite put_app. cbn [mbind option_bind].
        destruct (IH (cur ++ [ch]) lrest nm nrest) as (o & E & Ho); [|done|].
        { rewrite !zlen_app. change (zlen [ch]) with 1. unfold zlen in *. cbn [length] in Hl. lia. }
        rewrite <- app_assoc in E. cbn [app] in E. rewrite zlen_app in E. change (zlen [ch]) with 1 in E.
        by exists o.
Qed.

(** DNSDomainFromDot writes the labels of any text; it fails just on a label
    of more than 63 bytes, on more than 255 bytes, and on no labels. *)
Definition proper (labels : list (list Z)) : Prop :=
  labels <> [] /\ short labels /\ zlen (wire labels) <= 255.

Lemma proper_pieces s :
  (short (pieces [] s) /\ zlen (flat_map entry (pieces [] s)) < 255 /\ flat_map entry (pieces [] s) <> []) <->
  proper (labels_of s).
Proof.
  unfold proper, labels_of, wire. rewrite entries_labels, zlen_app. change (zlen [0]) with 1.
  assert (Hs : short (pieces [] s) <-> short (filter (fun label => label <> []) (pieces [] s))).
  { unfold short. rewrite !Forall_forall. split; intros H x Hx.
    - apply list_elem_of_filter in Hx as [_ Hx]. by apply H.
    - destruct (decide (x = [])) as [->|Hne]; [unfold zlen; cbn; lia|]. by apply H, list_elem_of_filter. }
  rewrite Hs, <- (entries_labels (pieces [] s)).
  assert (Hne : flat_map entry (filter (fun label => label <> []) (pieces [] s)) <> [] <->
                filter (fun label => label <> []) (pieces [] s) <> []).
  { destruct (filter _ _) as [|label l] eqn:E; [done|].
    assert (Hl : label ∈ filter (fun label => label <> []) (pieces [] s)) by (rewrite E; apply list_elem_of_here).
    apply list_elem_of_filter in Hl as [Hl _]. destruct label; [done|]. done. }
  rewrite Hne. intuition lia.
Qed.

Lemma DNSDomainFromDot_spec label name s :
  zlen label = 63 -> zlen name = 255 -> zlen s < 2 ^ 32 ->
  (proper (labels_of s) /\ DNSDomainFromDot label name s = Some (Some (wire (labels_of s)))) \/
  (~ proper (labels_of s) /\ DNSDomainFromDot label name s = Some None).
Proof.
  intros Hl Hn Hs. unfold DNSDomainFromDot. pose proof (zlen_nonneg s). rewrite <- proper_pieces.
  rewrite wrap_u_id by (unfold in_u; lia). rewrite take_ge by (unfold zlen; lia).
  destruct (from_dot_loop_spec s [] label [] name Hl Hn) as (o & E & Ho).
  cbn [app] in E, Ho. change (zlen (@nil Z)) with 0 in E. rewrite E. cbn [mbind option_bind].
  destruct o as [[[[label' labellen] name'] namelen]|]; [|right; split; [tauto|done]].
  destruct Ho as (init & last & lrest & nrest & Hp & Hsh & -> & Hlab & -> & -> & Hname & ->).
  destruct (add_label_spec last lrest (flat_map entry init) nrest Hlab Hname) as (o & -> & Ho).
  assert (Ef : flat_map entry (pieces [] s) = flat_map entry init ++ entry last)
    by (rewrite Hp, flat_map_app; cbn [flat_map]; by rewrite app_nil_r).
  cbn [mbind option_bind]. rewrite Ef.
  destruct o as [[name'' namelen]|]; [|right; split; [intros (_ & Hz & _); lia|done]].
  destruct Ho as (nrest' & -> & Hname' & ->). set (w := flat_map entry init ++ entry last) in *.
  destruct (Z.ltb_spec 255 (zlen w + 1)) as [Hw|Hw]; [right; split; [intros (_ & Hz & _); lia|done]|].
  destruct (Z.eqb_spec (zlen w) 0) as [Hw0|Hw0].
  { right. split; [|done]. intros (_ & _ & Hne). apply Hne. destruct w; [done|unfold zlen in Hw0; cbn in Hw0; lia]. }
  left. split; [split; [done|]; split; [lia|by intros ->]|].
  rewrite zlen_app in Hname'. destruct nrest' as [|x nrest']; [unfold zlen in *; cbn in *; lia|].
  rewrite put_app. cbn [mbind option_bind].
  replace (w ++ 0 :: nrest') with ((w ++ [0]) ++ nrest') by (by rewrite <- app_assoc).
  rewrite load_head by (unfold zlen; rewrite length_app; cbn [length]; lia). cbn [mbind option_bind].
  unfold wire, labels_of. by rewrite entries_labels, Ef.
Qed.

(** ** Reading it back *)
Lemma labels_of_nonempty s : Forall (fun label => label <> []) (labels_of s).
Proof. apply Forall_forall. intros label Hl. by apply list_elem_of_filter in Hl as [Hl _]. Qed.

Lemma entry_cons label : label <> [] -> entry label = zlen label :: label.
Proof. by destruct label. Qed.

Definition good_label (label : list Z) : Prop := label <> [] /\ zlen label <= 63.

Lemma good_label_size label : good_label label -> 0 < zlen label < 64.
Proof. intros [Hne Hl]. destruct label; [done|]. unfold zlen in *. cbn [length] in *. lia. Qed.

Lemma to_string_loop_spec ls : Forall good_label ls -> forall fuel pre ret,
  (length ls < fuel)%nat -> zlen (pre ++ wire ls) < 2 ^ 31 ->
  to_string_loop fuel (pre ++ wire ls) (zlen pre) ret =
  Ok (if zlen pre =? 0 then ret ++ dotted ls else ret ++ flat_map (fun label => dot :: label) ls).
Proof.
  induction 1 as [|label ls Hg Hf IH]; intros fuel pre ret Hfuel Hz; (destruct fuel as [|fuel]; [cbn in Hfuel; lia|]);
    cbn [to_string_loop]; unfold wire in *; cbn [flat_map app] in *.
  - rewrite zlen_app. change (zlen [0]) with 1. rewrite (proj2 (Z.leb_gt _ _)) by lia.
    unfold char_at. rewrite get_app. cbn [checked mbind option_bind res_bind]. change (wrap_s 8 0) with 0. cbn [Z.eqb].
    by rewrite !app_nil_r, Tauto.if_same.
  - pose proof (good_label_size label Hg) as Hsize. rewrite entry_cons in * by apply Hg.
    set (rest := flat_map entry ls ++ [0]) in *. rewrite <- app_assoc in Hz |- *. fold rest in Hz |- *. cbn [app] in Hz |- *.
    assert (Hlen : zlen (pre ++ zlen label :: label ++ rest) = zlen pre + 1 + zlen label + zlen rest).
    { rewrite zlen_app. unfold zlen. cbn [length]. rewrite length_app. lia. }
    pose proof (zlen_nonneg pre). pose proof (zlen_nonneg rest). rewrite Hlen in *.
    rewrite (proj2 (Z.leb_gt _ _)) by lia. unfold char_at. rewrite get_app. cbn [checked mbind option_bind res_bind].
    rewrite (wrap_s_id 8) by (unfold in_s; lia).
    rewrite (proj2 (Z.eqb_neq (zlen label) 0)), (proj2 (Z.ltb_ge (zlen label) 0)), (proj2 (Z.ltb_ge 63 (zlen label))) by lia.
    rewrite !wrap_u_id by (unfold in_u; lia). rewrite (proj2 (Z.ltb_ge _ _)) by lia.
    replace (pre ++ zlen label :: label ++ rest) with ((pre ++ [zlen label]) ++ label ++ rest) by (by rewrite <- app_assoc).
    assert (Hpre : zlen (pre ++ [zlen label]) = zlen pre + 1) by (by rewrite zlen_app).
    rewrite load_app by (rewrite <- ?Hpre; done). cbn [checked mbind res_bind]. rewrite app_assoc.
    replace (zlen pre + zlen label + 1) with (zlen ((pre ++ [zlen label]) ++ label)) by (rewrite zlen_app; lia).
    rewrite IH; [|cbn in Hfuel; lia|rewrite zlen_app; change (flat_map entry ls ++ [0]) with rest; rewrite zlen_app; lia].
    rewrite (proj2 (Z.eqb_neq (zlen ((pre ++ [zlen label]) ++ label)) 0)) by (rewrite !zlen_app; change (zlen [zlen label]) with 1; lia).
    destruct (Z.eqb_spec (zlen pre) 0); cbn [dotted]; by rewrite <- !app_assoc.
Qed.

Lemma DNSDomainToString_spec ls :
  Forall good_label ls -> zlen (wire ls) < 2 ^ 31 -> DNSDomainToString (wire ls) = Ok (dotted ls).
Proof.
  intros Hg Hz. unfold DNSDomainToString.
  assert (Hl : (length ls <= length (wire ls))%nat).
  { unfold wire. rewrite length_app. clear Hz. induction Hg as [|label ls Hg Hf IH]; [cbn; lia|]. cbn [flat_map].
    rewrite length_app, entry_cons by apply Hg. cbn [length] in *. lia. }
  pose proof (to_string_loop_spec ls Hg (S (length (wire ls))) [] [] ltac:(lia) Hz) as E.
  cbn [app] in E. exact E.
Qed.

(** The name in a packet, uncompressed. *)
Lemma wire_resolves ls : Forall good_label ls -> forall pre post len,
  zlen (pre ++ wire ls) <= len ->
  resolves (pre ++ wire ls ++ post) len (zlen pre) ls (zlen (wire ls)) 0.
Proof.
  induction 1 as [|label ls Hg Hf IH]; intros pre post len Hz; unfold wire in *; cbn [flat_map app] in *.
  - apply resolves_root. apply get_app.
  - pose proof (good_label_size label Hg) as Hsize. rewrite entry_cons in * by apply Hg. cbn [app] in *.
    rewrite <- app_assoc in Hz. set (rest := flat_map entry ls ++ [0]) in *.
    assert (Hrest : 0 < zlen rest) by (unfold rest; rewrite zlen_app; pose proof (zlen_nonneg (flat_map entry ls)); change (zlen [0]) with 1; lia).
    assert (Hlen : zlen (zlen label :: label ++ rest) = 1 + zlen label + zlen rest).
    { unfold zlen. cbn [length]. rewrite length_app. lia. }
    rewrite zlen_app, Hlen in Hz.
    replace ((label ++ flat_map entry ls) ++ [0]) with (label ++ rest) by (unfold rest; by rewrite app_assoc).
    rewrite Hlen. replace (pre ++ zlen label :: (label ++ rest) ++ post) with ((pre ++ [zlen label]) ++ label ++ rest ++ post)
      by (unfold rest; by rewrite <- !app_assoc).
    assert (Hpre : zlen (pre ++ [zlen label]) = zlen pre + 1) by (by rewrite zlen_app).
    specialize (IH ((pre ++ [zlen label]) ++ label) post len). fold rest in IH. rewrite !zlen_app in IH.
    change (zlen [zlen label]) with 1 in IH. specialize (IH ltac:(lia)).
    refine (resolves_label _ _ (zlen pre) (zlen label) label ls (zlen rest) 0 _ _ _ _ _).
    + rewrite <- app_assoc. apply get_app.
    + done.
    + lia.
    + rewrite <- Hpre. by apply load_app.
    + by rewrite app_assoc.
Qed.

Lemma proper_labels s : proper (labels_of s) -> Forall good_label (labels_of s).
Proof.
  intros (_ & Hs & _). pose proof (labels_of_nonempty s) as Hn. unfold short in Hs.
  rewrite Forall_forall in Hs, Hn |- *. intros label Hl. by split; [apply Hn|apply Hs].
Qed.

(** C26. Host names keep their labels on the way through DNS messages: of any
    text, whatever is in the arrays it uses, DNSDomainFromDot makes the labels
    between the dots, each behind its length and the last before a zero, and
    refuses just the names that have a label of more than 63 bytes, more than
    255 bytes or no label; DNSDomainToString gives the labels with single dots
    between them, and so does ReadName at the place of the name in any
    message, taking just its bytes. *)
Theorem host_names_round_trip label name s out cur :
  zlen label = 63 -> zlen name = 255 -> zlen s < 2 ^ 32 ->
  (DNSDomainFromDot label name s = Some None <-> ~ proper (labels_of s)) /\
  (proper (labels_of s) -> DNSDomainFromDot label name s = Some (Some (wire (labels_of s))) /\
     DNSDomainToString (wire (labels_of s)) = Ok (dotted (labels_of s)) /\
     forall pre post len, Forall is_byte (pre ++ wire (labels_of s) ++ post) ->
       zlen (pre ++ wire (labels_of s)) <= len <= zlen (pre ++ wire (labels_of s) ++ post) -> len < 2 ^ 30 ->
       ReadName (zlen pre) (Some out) (mkDnsRecordParser (Some (pre ++ wire (labels_of s) ++ post)) len cur) =
       Ok (zlen (wire (labels_of s)), Some (dotted (labels_of s)))).
Proof.
  intros Hl Hn Hs. destruct (DNSDomainFromDot_spec label name s Hl Hn Hs) as [[Hp E]|[Hp E]]; rewrite E;
    [|split; [done|by intros ?]].
  split; [split; [done|by intros ?]|]. intros _. split; [done|]. pose proof (proper_labels s Hp) as Hg.
  destruct Hp as (_ & _ & Hw). split; [apply DNSDomainToString_spec; [done|lia]|].
  intros pre post len Hb Hlen Hmax. pose proof (wire_resolves _ Hg pre post len ltac:(lia)) as Hres.
  pose proof (resolves_range _ _ _ _ _ _ Hres). rewrite zlen_app in Hlen. pose proof (zlen_nonneg pre).
  destruct (ReadName_spec _ len Hb ltac:(lia) Hmax (zlen pre) out cur ltac:(lia)) as (size & out' & -> & Hr).
  destruct Hr as [(labels & seen & Hres' & _ & ->)|[-> Hno]]; [|apply Hno in Hres; lia].
  by destruct (resolves_fun _ _ _ _ _ _ Hres _ _ _ Hres') as (-> & -> & _).
Qed.

Lemma host_names_round_trip_witness :
  let label := repeat 7 63 in let name := repeat 9 255 in let s := str "www..example.com." in
  labels_of s = [str "www"; str "example"; str "com"] /\
  (DNSDomainFromDot label name s = Some None <-> ~ proper (labels_of s)) /\
  (proper (labels_of s) -> DNSDomainFromDot label name s = Some (Some (wire (labels_of s))) /\
     DNSDomainToString (wire (labels_of s)) = Ok (dotted (labels_of s)) /\
     forall pre post len, Forall is_byte (pre ++ wire (labels_of s) ++ post) ->
       zlen (pre ++ wire (labels_of s)) <= len <= zlen (pre ++ wire (labels_of s) ++ post) -> len < 2 ^ 30 ->
       ReadName (zlen pre) (Some []) (mkDnsRecordParser (Some (pre ++ wire (labels_of s) ++ post)) len 0) =
       Ok (zlen (wire (labels_of s)), Some (dotted (labels_of s)))).
Proof.
  split; [vm_compute; reflexivity|].
  apply (host_names_round_trip (repeat 7 63) (repeat 9 255) (str "www..example.com.") [] 0); vm_compute; reflexivity.
Defined.
