(* ===== verification/DnsRecords.v ===== *)
(** Records of DNS responses: what ReadRecord and SkipQuestion take from a
    packet, and what ParseToAddressList makes of the records. *)
From S2P Require Import Prelude CArrays Memory BigEndian Dns DnsNames.
From Stdlib Require Import ZifyBool.

Lemma load_lies block offset size bytes :
  load block offset size = Some bytes -> lies block offset bytes /\ zlen bytes = size.
Proof.
  unfold load. destruct (_ && _) eqn:E; [|done]. to_prop. intros [= <-]. split.
  - apply lies_slice; unfold zlen; lia.
  - apply zlen_take. rewrite zlen_drop; unfold zlen; lia.
Qed.

Section Records.
Context (packet : list Z) (len : Z).
Context (Hbytes : Forall is_byte packet) (Hlen : len <= zlen packet) (Hmax : len < 2 ^ 30).

(** ** What a record is *)

(** The [n] bytes at a position are a number. *)
Definition word (n : nat) (q v : Z) : Prop :=
  exists bytes, load packet q (Z.of_nat n) = Some bytes /\ v = be_value bytes.

(** There is a record at a position, and the next one is behind it. *)
Record record_at (pos : Z) (r : DnsResourceRecord) (next : Z) : Prop := {
  ra_inside : 0 <= pos < len;
  ra_name : exists labels size seen q, resolves packet len pos labels size seen /\ seen <= len /\
    name r = dotted labels /\ q = pos + size /\
    word 2 q (type r) /\ word 2 (q + 2) (klass r) /\ word 4 (q + 4) (ttl r) /\
    word 2 (q + 8) (snd (rdata r)) /\ fst (rdata r) = q + 10 /\ next = q + 10 + snd (rdata r);
  ra_end : next <= len
}.

Lemma word_fun n q v v' : word n q v -> word n q v' -> v' = v.
Proof. intros (b & Hb & ->) (b' & Hb' & ->). congruence. Qed.

Lemma word_range n q v : word n q v -> 0 <= v < 256 ^ Z.of_nat n.
Proof.
  intros (b & Hb & ->). apply load_lies in Hb as Hl. destruct Hl as [Hl <-]. apply be_value_range.
  destruct Hl as (pre & post & E & _). pose proof Hbytes as Hb'. rewrite E in Hb'.
  apply Forall_app in Hb' as [_ Hb']. by apply Forall_app in Hb' as [Hb' _].
Qed.

Lemma record_fun pos r next r' next' :
  record_at pos r next -> record_at pos r' next' -> r' = r /\ next' = next.
Proof.
  intros [_ (labels & size & seen & q & Hres & _ & En & -> & Ht & Hk & Httl & Hl & Hr & ->) _]
         [_ (labels' & size' & seen' & q' & Hres' & _ & En' & -> & Ht' & Hk' & Httl' & Hl' & Hr' & ->) _].
  destruct (resolves_fun _ _ _ _ _ _ Hres _ _ _ Hres') as (-> & -> & ->).
  destruct r as [n t k tt [b s]], r' as [n' t' k' tt' [b' s']]. cbn in *.
  rewrite (word_fun _ _ _ _ Ht Ht'), (word_fun _ _ _ _ Hk Hk'), (word_fun _ _ _ _ Httl Httl'),
    (word_fun _ _ _ _ Hl Hl'), En, En', Hr, Hr'. done.
Qed.

(** ** Reading *)
Lemma Read_spec n m q :
  m = Z.of_nat n -> (0 < n)%nat -> 0 <= q ->
  (exists v, Read packet n (mkBigEndianReader q len) = Some (Some v, mkBigEndianReader (q + m) len) /\
     word n q v /\ q + m <= len) \/
  (Read packet n (mkBigEndianReader q len) = Some (None, mkBigEndianReader q len) /\ len < q + m).
Proof.
  intros -> Hn Hq. unfold Read. cbn [ptr_ end_]. destruct (Z.ltb_spec len (q + Z.of_nat n)) as [H|H]; [by right|left].
  destruct (load_total packet q (Z.of_nat n)) as [bytes Hb]; [lia..|unfold zlen in *; lia|].
  destruct (load_lies _ _ _ _ Hb) as [Hl Hz]. rewrite (ReadBigEndian_spec n packet q bytes); [|done| | |done].
  - cbn [mbind option_bind]. exists (be_value bytes). split; [done|]. split; [by exists bytes|done].
  - unfold zlen in Hz. lia.
  - destruct Hl as (pre & post & E & _). pose proof Hbytes as Hb'. rewrite E in Hb'.
    apply Forall_app in Hb' as [_ Hb']. by apply Forall_app in Hb' as [Hb' _].
Qed.

(** The fields behind the name of a record, at [q]. *)
Definition fields_at (q : Z) (r : DnsResourceRecord) (next : Z) : Prop :=
  word 2 q (type r) /\ word 2 (q + 2) (klass r) /\ word 4 (q + 4) (ttl r) /\
  word 2 (q + 8) (snd (rdata r)) /\ fst (rdata r) = q + 10 /\ next = q + 10 + snd (rdata r) /\ next <= len.

Lemma read_fields_spec q out :
  0 <= q ->
  exists done out' reader, read_fields packet (mkBigEndianReader q len) out = Some (done, out', reader) /\
    name out' = name out /\
    if done : bool then fields_at q out' (ptr_ reader) else forall r next, ~ fields_at q r next.
Proof.
  intros Hq. unfold read_fields, ReadU16, ReadU32.
  assert (Hno : forall r next, fields_at q r next -> q + 10 + snd (rdata r) <= len /\ 0 <= snd (rdata r)).
  { intros r next (_ & _ & _ & Hl & _ & -> & Hn). apply word_range in Hl. lia. }
  destruct (Read_spec 2 2 q eq_refl ltac:(lia) ltac:(lia)) as [(t & -> & Ht & H2)|[-> H2]]; cbn [mbind option_bind].
  2:{ do 3 eexists. split; [reflexivity|]. split; [done|]. intros r next Hf. apply Hno in Hf. lia. }
  destruct (Read_spec 2 2 (q + 2) eq_refl ltac:(lia) ltac:(lia)) as [(k & -> & Hk & H4)|[-> H4]]; cbn [mbind option_bind].
  2:{ do 3 eexists. split; [reflexivity|]. split; [done|]. intros r next Hf. apply Hno in Hf. lia. }
  destruct (Read_spec 4 4 (q + 2 + 2) eq_refl ltac:(lia) ltac:(lia)) as [(tt & -> & Htt & H8)|[-> H8]]; cbn [mbind option_bind].
  2:{ do 3 eexists. split; [reflexivity|]. split; [done|]. intros r next Hf. apply Hno in Hf. lia. }
  destruct (Read_spec 2 2 (q + 2 + 2 + 4) eq_refl ltac:(lia) ltac:(lia)) as [(l & -> & Hl & H10)|[-> H10]]; cbn [mbind option_bind].
  2:{ do 3 eexists. split; [reflexivity|]. split; [done|]. intros r next Hf. apply Hno in Hf. lia. }
  unfold ReadPiece. cbn [ptr_ end_].
  replace (q + 2 + 2 + 4) with (q + 8) in * by lia. replace (q + 2 + 2) with (q + 4) in * by lia.
  destruct (Z.ltb_spec len (q + 8 + 2 + l)) as [Hp|Hp].
  - do 3 eexists. split; [reflexivity|]. split; [done|]. intros r next (_ & _ & _ & Hl' & _ & -> & Hn).
    rewrite (word_fun _ _ _ _ Hl Hl') in Hn. lia.
  - do 3 eexists. split; [reflexivity|]. split; [done|]. unfold fields_at. cbn.
    split_and!; try done; lia.
Qed.

Lemma ReadRecord_spec pos out :
  0 <= pos <= len ->
  exists done out' p', ReadRecord out (mkDnsRecordParser (Some packet) len pos) = Ok (done, out', p') /\
    if done : bool then record_at pos out' (cur_ p') /\ p' = mkDnsRecordParser (Some packet) len (cur_ p')
    else forall r next, ~ record_at pos r next.
Proof.
  intros Hpos. unfold ReadRecord. cbn [packet_ checked mbind res_bind cur_].
  destruct (decide (pos = len)) as [->|Hne].
  { rewrite ReadName_end by lia. cbn [mbind res_bind Z.eqb]. do 3 eexists. split; [reflexivity|].
    intros r next [Hi _ _]. lia. }
  destruct (ReadName_spec packet len Hbytes Hlen Hmax pos (name out) pos ltac:(lia)) as (size & out1 & -> & Hr).
  cbn [mbind res_bind]. destruct (Z.eqb_spec size 0) as [E|E].
  { do 3 eexists. split; [reflexivity|]. intros r next [_ (labels & size' & seen & q & Hres & Hs & _) _].
    destruct Hr as [(labels' & seen' & Hres' & _)|[_ Hno]]; [|apply Hno in Hres; lia].
    apply resolves_range in Hres'. lia. }
  destruct Hr as [(labels & seen & Hres & Hs & ->)|[-> _]]; [|done].
  pose proof (resolves_range _ _ _ _ _ _ Hres). unfold new_BigEndianReader.
  replace (pos + size + (len - (pos + size))) with len by lia. cbn [Dns.length_].
  replace (pos + size + (len - (pos + size))) with len by lia.
  destruct (read_fields_spec (pos + size) (out <| name := default [] (Some (dotted labels)) |>))
    as (done & out' & reader & -> & Hname & Hf); [lia|].
  cbn [checked mbind res_bind]. destruct done.
  - do 3 eexists. split; [reflexivity|]. cbn. split; [|done].
    destruct Hf as (? & ? & ? & ? & ? & ? & ?). constructor; [lia| |done].
    exists labels, size, seen, (pos + size). by rewrite Hname.
  - do 3 eexists. split; [reflexivity|].
    intros r next [_ (labels' & size' & seen' & q & Hres' & _ & _ & -> & ? & ? & ? & ? & ? & ->) Hend].
    destruct (resolves_fun _ _ _ _ _ _ Hres _ _ _ Hres') as (-> & -> & _). by eapply (Hf r).
Qed.
End Records.
