(* ===== verification/DnsAddresses.v ===== *)
(** What a DNS response says about addresses: the records that lead from the
    name that was asked for to the addresses of its last alias. *)
From S2P Require Import Prelude CArrays Memory BigEndian Dns DnsNames DnsText DnsRecords.
From Stdlib Require Import ZifyBool.

(** The names are the same, for a C string whose case does not matter. *)
Definition same_name (a b : list Z) : Prop := map tolower (c_str a) = map tolower (c_str b).

Lemma strcasecmp_spec a b : strcasecmp_differs a b = false <-> same_name a b.
Proof. unfold strcasecmp_differs. rewrite negb_false_iff. apply bool_decide_eq_true. Qed.

Section Addresses.
Context (packet : list Z) (len : Z).
Context (Hbytes : Forall is_byte packet) (Hlen : len <= zlen packet) (Hmax : len < 2 ^ 30).
Context (expected_type expected_size : Z).
Context (Htype : expected_type = kTypeA \/ expected_type = kTypeAAAA).

Let parser (cur : Z) : DnsRecordParser := mkDnsRecordParser (Some packet) len cur.

(** ** The meaning of the records *)

(** The records of a section from a position on. *)
Inductive section : nat -> Z -> list DnsResourceRecord -> Prop :=
  | section_end pos : section 0 pos []
  | section_record count pos r next rs :
      record_at packet len pos r next -> section count next rs -> section (S count) pos (r :: rs).

(** The name that an alias stands for fills its data. *)
Definition alias_of (r : DnsResourceRecord) (target : list Z) : Prop :=
  fst (rdata r) < len /\ exists labels seen,
    resolves packet len (fst (rdata r)) labels (snd (rdata r)) seen /\ seen <= len /\ target = dotted labels.

(** From name to name along aliases. *)
Inductive chain : list Z -> list DnsResourceRecord -> list Z -> Prop :=
  | chain_end n : chain n [] n
  | chain_alias n r target rs m :
      type r = kTypeCNAME -> same_name (name r) n -> alias_of r target -> chain target rs m ->
      chain n (r :: rs) m.

(** An address of a name. *)
Definition address_of (n : list Z) (r : DnsResourceRecord) (address : list Z) : Prop :=
  type r = expected_type /\ snd (rdata r) = expected_size /\ same_name (name r) n /\
  load packet (fst (rdata r)) expected_size = Some address.

(** The records that count are aliases, then addresses of the last name. *)
Definition counts (r : DnsResourceRecord) : Prop := type r = kTypeCNAME \/ type r = expected_type.
#[local] Instance counts_dec r : Decision (counts r).
Proof. unfold counts. apply _. Defined.

Definition least_ttl (rs : list DnsResourceRecord) (t : Z) : Z := fold_left (fun t r => Z.min t (ttl r)) rs t.

Definition answers (n : list Z) (t : Z) (rs : list DnsResourceRecord) (f : Found) : Prop :=
  exists aliases hosts,
    filter counts rs = aliases ++ hosts /\ chain n aliases (expected_name f) /\
    Forall2 (address_of (expected_name f)) hosts (ip_addresses f) /\
    ttl_sec f = least_ttl (filter counts rs) t.

(** ** Record for record *)
Inductive step : Found -> DnsResourceRecord -> Found -> Prop :=
  | step_other f r : ~ counts r -> step f r f
  | step_alias n t r target :
      type r = kTypeCNAME -> same_name (name r) n -> alias_of r target ->
      step (mkFound n t []) r (mkFound target (Z.min t (ttl r)) [])
  | step_address n t a r address :
      address_of n r address -> step (mkFound n t a) r (mkFound n (Z.min t (ttl r)) (a ++ [address])).

Inductive steps : Found -> list DnsResourceRecord -> Found -> Prop :=
  | steps_end f : steps f [] f
  | steps_record f r f' rs f'' : step f r f' -> steps f' rs f'' -> steps f (r :: rs) f''.

Lemma types_differ : expected_type <> kTypeCNAME.
Proof. destruct Htype as [-> | ->]; done. Qed.

(** Behind an address, there are only addresses. *)
Lemma steps_addresses rs : forall n t a f, a <> [] -> steps (mkFound n t a) rs f ->
  exists b, f = mkFound n (least_ttl (filter counts rs) t) (a ++ b) /\ Forall2 (address_of n) (filter counts rs) b.
Proof.
  induction rs as [|r rs IH]; intros n t a f Ha Hs; inversion Hs; subst.
  - exists []. by rewrite app_nil_r.
  - match goal with H : step _ _ _ |- _ => inversion H; subst end.
    + destruct (IH n t a f Ha) as (b & -> & Hb); [done|]. exists b. by rewrite filter_cons_False.
    + done.
    + match goal with H : address_of _ _ _ |- _ => pose proof H as [Hty _] end.
      destruct (IH n (Z.min t (ttl r)) (a ++ [address]) f) as (b & -> & Hb); [by destruct a|done|].
      exists (address :: b). rewrite filter_cons_True by (by right). rewrite <- app_assoc. split; [done|].
      by constructor.
Qed.

Lemma steps_answers rs : forall n t f, steps (mkFound n t []) rs f -> answers n t rs f.
Proof.
  induction rs as [|r rs IH]; intros n t f Hs; inversion Hs; subst.
  - exists [], []. split_and!; [done|constructor|constructor|done].
  - match goal with H : step _ _ _ |- _ => inversion H; subst end.
    + destruct (IH n t f) as (al & ho & E & Hc & Hf & Ht); [done|].
      exists al, ho. by rewrite filter_cons_False.
    + destruct (IH target (Z.min t (ttl r)) f) as (al & ho & E & Hc & Hf & Ht); [done|].
      exists (r :: al), ho. rewrite filter_cons_True by (by left). rewrite E, Ht, E. split_and!; try done.
      by econstructor.
    + match goal with H : address_of _ _ _ |- _ => pose proof H as [Hty _] end.
      destruct (steps_addresses rs n (Z.min t (ttl r)) [address] f) as (b & -> & Hb); [done|done|].
      exists [], (r :: filter counts rs). rewrite filter_cons_True by (by right). cbn.
      split_and!; [done|constructor|by constructor|done].
Qed.

Lemma addresses_steps rs : forall n t a b, Forall2 (address_of n) (filter counts rs) b ->
  steps (mkFound n t a) rs (mkFound n (least_ttl (filter counts rs) t) (a ++ b)).
Proof.
  induction rs as [|r rs IH]; intros n t a b Hb.
  - inversion Hb; subst. rewrite app_nil_r. constructor.
  - destruct (decide (counts r)) as [Hc|Hc].
    + rewrite filter_cons_True in * by done. inversion Hb as [|? address ? b' Hr Hb']; subst.
      econstructor; [by apply step_address|]. replace (a ++ address :: b') with ((a ++ [address]) ++ b') by (by rewrite <- app_assoc).
      by apply IH.
    + rewrite filter_cons_False in * by done. econstructor; [by apply step_other|]. by apply IH.
Qed.

Lemma answers_steps rs : forall n t f, answers n t rs f -> steps (mkFound n t []) rs f.
Proof.
  induction rs as [|r rs IH]; intros n t [m tt a] (al & ho & E & Hc & Hf & Ht); cbn [expected_name ip_addresses ttl_sec] in *.
  - symmetry in E. apply app_eq_nil in E as [-> ->]. inversion Hc; subst. inversion Hf; subst. constructor.
  - destruct (decide (counts r)) as [Hr|Hr].
    + rewrite filter_cons_True in * by done. destruct al as [|r' al].
      * cbn in E. subst ho. inversion Hc; subst. inversion Hf as [|? address ? b Ha Hb]; subst.
        econstructor; [by apply step_address|]. apply (addresses_steps rs m _ [address] b Hb).
      * cbn in E. injection E as <- E. inversion Hc; subst. econstructor; [by apply step_alias|].
        apply IH. exists al, ho. done.
    + rewrite filter_cons_False in * by done. econstructor; [by apply step_other|]. apply IH. by exists al, ho.
Qed.

(** ** The code *)

(** The data of a record lies in the packet; an alias has data. *)
Definition in_packet (r : DnsResourceRecord) : Prop :=
  0 <= fst (rdata r) /\ 0 <= snd (rdata r) /\ fst (rdata r) + snd (rdata r) <= len.
Definition filled (r : DnsResourceRecord) : Prop := type r = kTypeCNAME -> snd (rdata r) <> 0.

Lemma ReadName_total pos out cur : 0 <= pos <= len ->
  exists size out', ReadName pos (Some out) (parser cur) = Ok (size, out').
Proof.
  intros Hp. destruct (decide (pos = len)) as [->|Hne]; [unfold parser; rewrite ReadName_end by lia; by do 2 eexists|].
  destruct (ReadName_spec packet len Hbytes Hlen Hmax pos out cur ltac:(lia)) as (size & out' & E & _). by do 2 eexists.
Qed.

Lemma ReadName_alias r target cur :
  in_packet r -> filled r -> type r = kTypeCNAME ->
  exists size out, ReadName (fst (rdata r)) (Some target) (parser cur) = Ok (size, out) /\
    ((snd (rdata r) = size /\ exists t, out = Some t /\ alias_of r t) \/
     (snd (rdata r) <> size /\ forall t, ~ alias_of r t)).
Proof.
  intros (Hb & Hs & He) Hne Ht. specialize (Hne Ht).
  destruct (ReadName_spec packet len Hbytes Hlen Hmax (fst (rdata r)) target cur ltac:(lia)) as (size & out & E & Hr).
  exists size, out. split; [exact E|]. destruct Hr as [(labels & seen & Hres & Hseen & ->)|[-> Hno]].
  - destruct (decide (snd (rdata r) = size)) as [<-|Hd].
    + left. split; [done|]. eexists. split; [done|]. split; [lia|]. by exists labels, seen.
    + right. split; [done|]. intros t (_ & labels' & seen' & Hres' & _).
      destruct (resolves_fun _ _ _ _ _ _ Hres _ _ _ Hres') as (_ & ? & _). done.
  - right. split; [done|]. intros t (_ & labels' & seen' & Hres' & Hs' & _). apply Hno in Hres'. lia.
Qed.

Lemma alias_fun r t t' : alias_of r t -> alias_of r t' -> t' = t.
Proof.
  intros (_ & labels & seen & Hres & _ & ->) (_ & labels' & seen' & Hres' & _ & ->).
  by destruct (resolves_fun _ _ _ _ _ _ Hres _ _ _ Hres') as [-> _].
Qed.

Lemma step_fun f r f1 f2 : step f r f1 -> step f r f2 -> f2 = f1.
Proof.
  pose proof types_differ as Hd. intros H1 H2.
  destruct H1 as [f r Hn|n t r target Hc Hs Ha|n t a r address (Hty & Hz & Hs & Ha)];
    inversion H2 as [f' r' Hn' | n' t' r' target' Hc' Hs' Ha'|n' t' a' r' address' (Hty' & Hz' & Hs' & Ha')];
    subst; try done; try congruence; try (exfalso; first [apply Hn | apply Hn']; by (left + right)).
  by rewrite (alias_fun r target target').
Qed.

(** What a record does to what is known. *)
Definition taken (r : DnsResourceRecord) (f : Found) (t : Result + Found) : Prop :=
  match t with
  | inr f' => step f r f'
  | inl result => result <> DNS_PARSE_OK /\ forall f', ~ step f r f'
  end.

Lemma no_alias n t a r :
  type r = kTypeCNAME -> a <> [] \/ ~ same_name (name r) n \/ (forall target, ~ alias_of r target) ->
  forall f', ~ step (mkFound n t a) r f'.
Proof.
  intros Hc Hw f' Hs. inversion Hs; subst; [by match goal with H : ~ counts _ |- _ => apply H; left end| |].
  - destruct Hw as [?|[?|Hw]]; [done..|]. by eapply Hw.
  - match goal with H : address_of _ _ _ |- _ => destruct H as [? _] end. pose proof types_differ. congruence.
Qed.

Lemma no_address n t a r :
  type r = expected_type -> snd (rdata r) <> expected_size \/ ~ same_name (name r) n ->
  forall f', ~ step (mkFound n t a) r f'.
Proof.
  intros Ht Hw f' Hs. pose proof types_differ.
  inversion Hs; subst; [by match goal with H : ~ counts _ |- _ => apply H; right end|congruence|].
  match goal with H : address_of _ _ _ |- _ => destruct H as (_ & Hz & Hn & _) end. by destruct Hw.
Qed.

Lemma take_alias r n t a cur :
  in_packet r -> type r = kTypeCNAME ->
  exists result, take_record expected_type expected_size (parser cur) r (mkFound n t a) = Ok result /\
    result <> inl DNS_PARSE_OK /\ (filled r -> taken r (mkFound n t a) result).
Proof.
  intros Hr Hc. unfold take_record. destruct (rdata r) as [begin size] eqn:Erd. rewrite Hc, Z.eqb_refl.
  destruct (Z.eqb_spec (zlen a) 0) as [Ha|Ha]; cbn [negb].
  2:{ eexists. split; [done|]. split; [done|]. intros _. split; [done|]. apply no_alias; [done|]. left. by intros ->. }
  assert (a = []) as -> by (destruct a; [done|unfold zlen in Ha; cbn in Ha; lia]).
  destruct (strcasecmp_differs (name r) n) eqn:En.
  { eexists. split; [done|]. split; [done|]. intros _. split; [done|]. apply no_alias; [done|].
    right; left. rewrite <- strcasecmp_spec. congruence. }
  destruct (ReadName_total begin n cur) as (consumed & out & E).
  { destruct Hr as (? & ? & ?). rewrite Erd in *. cbn [fst snd] in *. lia. }
  rewrite E. cbn [mbind res_bind].
  assert (Hal : filled r -> (size = consumed /\ exists target, out = Some target /\ alias_of r target) \/
                            (size <> consumed /\ forall target, ~ alias_of r target)).
  { intros Hf. destruct (ReadName_alias r n cur Hr Hf Hc) as (consumed' & out' & E' & Ho).
    rewrite Erd in E', Ho. cbn [fst snd] in E', Ho. rewrite E in E'. by injection E' as <- <-. }
  destruct (Z.eqb_spec size consumed) as [Hz|Hz]; cbn [negb];
    eexists; (split; [done|]; split; [done|]); intros Hf; destruct (Hal Hf) as [[Hz' Ho]|[Hz' Ho]]; try done.
  - destruct Ho as (target & -> & Ho). apply step_alias; [done|by apply strcasecmp_spec|done].
  - split; [done|]. apply no_alias; [done|]. by right; right.
Qed.

Lemma take_record_spec r f cur :
  in_packet r ->
  exists result, take_record expected_type expected_size (parser cur) r f = Ok result /\
    result <> inl DNS_PARSE_OK /\ (filled r -> taken r f result).
Proof.
  intros Hr. destruct f as [n t a]. destruct (decide (type r = kTypeCNAME)) as [Hc|Hc]; [by apply take_alias|].
  unfold take_record. destruct (rdata r) as [begin size] eqn:Erd. rewrite (proj2 (Z.eqb_neq _ _) Hc).
  destruct (Z.eqb_spec (type r) expected_type) as [Ht|Ht].
  2:{ eexists. split; [done|]. split; [done|]. intros _. apply step_other. intros [?|?]; done. }
  destruct (Z.eqb_spec size expected_size) as [Hz|Hz]; cbn [negb].
  2:{ eexists. split; [done|]. split; [done|]. intros _. split; [done|]. apply no_address; [done|]. left. by rewrite Erd. }
  destruct (strcasecmp_differs (name r) n) eqn:En.
  { eexists. split; [done|]. split; [done|]. intros _. split; [done|]. apply no_address; [done|].
    right. rewrite <- strcasecmp_spec. congruence. }
  destruct Hr as (H0 & H1 & H2). rewrite Erd in H0, H1, H2. cbn [fst snd] in H0, H1, H2.
  destruct (load_total packet begin size) as [address Haddr]; [lia..|unfold zlen in *; lia|].
  cbn [parser packet_ checked mbind res_bind]. rewrite Haddr. cbn [checked mbind res_bind].
  eexists. split; [done|]. split; [done|]. intros _. apply step_address.
  split_and!; [done|by rewrite Erd|by apply strcasecmp_spec|]. rewrite Erd. cbn [fst]. by rewrite <- Hz.
Qed.

Lemma record_in_packet pos r next : record_at packet len pos r next -> in_packet r /\ 0 <= next <= len.
Proof.
  intros [Hi (labels & size & seen & q & Hres & _ & _ & -> & _ & _ & _ & Hl & Hb & ->) He].
  apply (word_range packet Hbytes) in Hl. apply resolves_range in Hres. unfold in_packet. lia.
Qed.

(** The records one after the other. *)
Lemma records_loop_spec count : forall pos record f,
  0 <= pos <= len ->
  exists result, records_loop count expected_type expected_size (parser pos) record f = Ok result /\
    result <> inl DNS_PARSE_OK /\
    (forall f', result = inr f' -> exists rs, section count pos rs) /\
    forall rs, section count pos rs -> Forall filled rs ->
      match result with inr f' => steps f rs f' | inl _ => forall f', ~ steps f rs f' end.
Proof.
  induction count as [|count IH]; intros pos record f Hpos; cbn [records_loop].
  - eexists. split; [done|]. split; [done|]. split; [intros; exists []; constructor|].
    intros rs Hs _. inversion Hs; subst. constructor.
  - destruct (ReadRecord_spec packet len Hbytes Hlen Hmax pos record Hpos) as (done & r & p' & E & Hr).
    unfold parser at 1. rewrite E. cbn [mbind res_bind]. destruct done; cbn [negb].
    2:{ eexists. split; [done|]. split; [done|]. split; [done|]. intros rs Hs _. inversion Hs; subst.
        exfalso. by eapply Hr. }
    destruct Hr as [Hr ->]. set (next := cur_ p') in *. fold (parser next).
    destruct (record_in_packet pos r next Hr) as [Hin Hnext].
    destruct (take_record_spec r f next Hin) as (result & -> & Hne & Htaken). cbn [mbind res_bind].
    destruct result as [result|f1].
    + eexists. split; [done|]. split; [done|]. split; [done|]. intros rs Hs Hf. inversion Hs; subst.
      match goal with H : record_at _ _ _ _ _ |- _ => destruct (record_fun _ _ _ _ _ _ _ Hr H) as [-> ->] end.
      apply Forall_cons in Hf as [Hf _]. destruct (Htaken Hf) as [_ Hno].
      intros f' Hsteps. inversion Hsteps; subst. by eapply Hno.
    + destruct (IH next r f1 Hnext) as (result & -> & Hok & Hsec & Hsteps). exists result. split; [done|].
      split; [done|]. split.
      * intros f' ->. destruct (Hsec f' eq_refl) as [rs Hs]. exists (r :: rs). by econstructor.
      * intros rs Hs Hf. inversion Hs; subst.
        match goal with H : record_at _ _ _ _ _ |- _ => destruct (record_fun _ _ _ _ _ _ _ Hr H) as [-> ->] end.
        apply Forall_cons in Hf as [Hf Hfs]. specialize (Hsteps _ ltac:(eassumption) Hfs). specialize (Htaken Hf). cbn in Htaken.
        destruct result as [result|f2]; [|by econstructor].
        intros f' Hst. inversion Hst as [|? ? f2 ? ? Hstep Hrest]; subst.
        rewrite (step_fun f r f1 f2 Htaken Hstep) in Hrest. by eapply Hsteps.
Qed.
End Addresses.
