(* ===== verification/DnsMessages.v ===== *)
(** A DNS query and the response to it: the bytes of the query, which
    responses are parsed, and the addresses that are found in them. *)
From S2P Require Import Prelude CArrays Memory BigEndian Dns DnsNames DnsText DnsRecords DnsAddresses.
From Stdlib Require Import ZifyBool.

(** ** The query *)

(** The bytes of a query: one question, of class IN, recursion desired. *)
Definition query_bytes (id : Z) (qname : list Z) (qtype : Z) : list Z :=
  (be_bytes 2 id ++ be_bytes 2 kFlagRD ++ be_bytes 2 1 ++ repeat 0 6) ++ qname ++ be_bytes 2 qtype ++ be_bytes 2 kClassIN.

Lemma Write_app size value pre old post fin :
  length old = size -> zlen pre + Z.of_nat size <= fin ->
  Write size value (pre ++ old ++ post) (mkBigEndianWriter (zlen pre) fin) =
  Some (true, pre ++ be_bytes size value ++ post, mkBigEndianWriter (zlen pre + Z.of_nat size) fin).
Proof.
  intros Hl Hf. unfold Write. cbn [wptr_ wend_]. rewrite (proj2 (Z.ltb_ge _ _)) by lia.
  by rewrite WriteBigEndian_spec.
Qed.

Lemma WriteBytes_app buf pre old post fin :
  length old = length buf -> zlen pre + zlen buf <= fin ->
  WriteBytes buf (pre ++ old ++ post) (mkBigEndianWriter (zlen pre) fin) =
  Some (true, pre ++ buf ++ post, mkBigEndianWriter (zlen pre + zlen buf) fin).
Proof.
  intros Hl Hf. unfold WriteBytes. cbn [wptr_ wend_]. rewrite (proj2 (Z.ltb_ge _ _)) by lia.
  by rewrite store_app.
Qed.

Lemma header_set_app f v pre old post :
  zlen pre = field_offset f -> length old = 2%nat ->
  header_set f v (pre ++ old ++ post) = Some (pre ++ be_bytes 2 v ++ post).
Proof. intros Hp Hl. unfold header_set. by apply store_app; rewrite ?length_be_bytes. Qed.

Lemma header_set_id v old post : length old = 2%nat -> header_set id_ v (old ++ post) = Some (be_bytes 2 v ++ post).
Proof. intros Hl. by apply (header_set_app id_ v []). Qed.

Lemma new_DnsQuery_spec memory id qname qtype n0 :
  DNSDomainToString qname = Ok n0 -> n0 <> [] ->
  new_DnsQuery memory id qname qtype = Ok (mkDnsQuery (zlen qname) (query_bytes id qname qtype)).
Proof.
  intros Hn Hne. unfold new_DnsQuery. rewrite Hn. cbn [mbind res_bind].
  assert ((zlen n0 =? 0) = false) as -> by (destruct n0; [done|]; apply Z.eqb_neq; unfold zlen; cbn; lia).
  cbn [negb DCHECK checked mbind res_bind].
  set (mem := map _ _). assert (Hm : length mem = (12 + (length qname + 4))%nat).
  { unfold mem, sizeof_Header, sizeof_uint16, zlen. rewrite length_map, length_seq. lia. }
  clearbody mem. destruct (split_at 12 mem ltac:(lia)) as (m1 & rest & -> & H1). rewrite length_app in Hm.
  destruct (split_at (length qname) rest ltac:(lia)) as (m2 & m3 & -> & H2). rewrite length_app in Hm.
  destruct (split_at 2 m3 ltac:(lia)) as (m4 & m5 & -> & H4). rewrite length_app in Hm.
  rewrite (store_head m1) by done. cbn [mbind option_bind].
  change (repeat 0 12) with (repeat 0 2 ++ repeat 0 2 ++ repeat 0 2 ++ repeat 0 6). rewrite <- !app_assoc.
  rewrite header_set_id by done. cbn [mbind option_bind].
  rewrite (header_set_app flags_ _ (be_bytes 2 id)) by done. cbn [mbind option_bind].
  rewrite (app_assoc (be_bytes 2 id)), (header_set_app qdcount_ 1 (be_bytes 2 id ++ be_bytes 2 kFlagRD)) by done.
  cbn [mbind option_bind].
  set (header := be_bytes 2 id ++ be_bytes 2 kFlagRD ++ be_bytes 2 1 ++ repeat 0 6).
  replace ((be_bytes 2 id ++ be_bytes 2 kFlagRD) ++ be_bytes 2 1 ++ repeat 0 6 ++ m2 ++ m4 ++ m5)
    with (header ++ m2 ++ m4 ++ m5) by (unfold header; by rewrite <- !app_assoc).
  assert (Hh : zlen header = 12) by done. unfold new_BigEndianWriter, sizeof_Header, sizeof_uint16.
  pose proof (zlen_nonneg qname). rewrite <- Hh.
  rewrite WriteBytes_app by lia. cbn [mbind option_bind].
  replace (zlen header + zlen qname) with (zlen (header ++ qname)) by apply zlen_app.
  rewrite (app_assoc header). unfold WriteU16. rewrite Write_app by (rewrite ?zlen_app; lia). cbn [mbind option_bind].
  replace (zlen (header ++ qname) + Z.of_nat 2) with (zlen ((header ++ qname) ++ be_bytes 2 qtype)) by (by rewrite zlen_app).
  rewrite (app_assoc (header ++ qname)), <- (app_nil_r m5), Write_app.
  - cbn [mbind option_bind checked]. by rewrite app_nil_r, <- !app_assoc.
  - lia.
  - rewrite !zlen_app. change (zlen (be_bytes 2 qtype)) with 2. lia.
Qed.

Lemma question_bytes id qname qtype :
  question (mkDnsQuery (zlen qname) (query_bytes id qname qtype)) = Some (qname ++ be_bytes 2 qtype ++ be_bytes 2 kClassIN).
Proof.
  unfold question, query_bytes. cbn [query_buffer qname_size_].
  rewrite <- (app_nil_r (be_bytes 2 kClassIN)) at 1. rewrite !(app_assoc qname), (app_assoc (qname ++ _)).
  apply load_app; [done|]. rewrite !length_app, !length_be_bytes. unfold sizeof_uint16, zlen. lia.
Qed.

(** ** The response *)
Lemma InitParse_true nbytes q io r qs :
  question q = Some qs ->
  InitParse nbytes q (new_DnsResponse io) = Some (true, r) ->
  r = mkDnsResponse io (mkDnsRecordParser (Some io) nbytes (12 + zlen qs)) /\
  zlen (query_buffer q) <= nbytes < zlen io /\ 12 + zlen qs <= nbytes /\ lies io 12 qs.
Proof.
  intros Hq. unfold InitParse. cbn [new_DnsResponse io_buffer_]. rewrite Hq, DCHECK_bind.
  destruct (0 <=? nbytes); [|done]. destruct (_ || _) eqn:E1; [done|].
  destruct (header_get id_ io) as [i|]; [|done]. cbn [mbind option_bind].
  destruct (query_id q) as [e|]; [|done]. cbn [mbind option_bind]. destruct (negb (i =? e)); [done|].
  destruct (header_get qdcount_ io) as [c|]; [|done]. cbn [mbind option_bind]. destruct (negb (c =? 1)); [done|].
  destruct (load io sizeof_Header (zlen qs)) as [b|] eqn:Hl; [|done]. cbn [mbind option_bind].
  destruct (bool_decide_reflect (qs = b)) as [<-|]; cbn [negb]; [|done].
  unfold new_DnsRecordParser. rewrite DCHECK_bind. destruct (sizeof_Header + zlen qs <=? nbytes) eqn:E2; [|done]. cbn [mbind option_bind].
  intros [= <-]. apply load_lies in Hl as [Hl _]. unfold sizeof_Header in *. cbn in E1. split; [done|]. split; [lia|]. split; [lia|done].
Qed.

Lemma lies_load io i bytes : lies io i bytes -> load io i (zlen bytes) = Some bytes.
Proof. intros (pre & post & -> & Hi). by apply load_app. Qed.

Lemma header_word f io v : header_get f io = Some v -> word io 2 (field_offset f) v.
Proof.
  unfold header_get. destruct (load _ _ _) as [bytes|] eqn:E; [|done]. intros [= <-]. by exists bytes.
Qed.

(** The size of an address of a type. *)
Definition address_size (qtype : Z) : Z := if qtype =? kTypeAAAA then kIPv6AddressSize else kIPv4AddressSize.

(** What is found in the records, as the code gives it away. *)
Definition list_of (f : Found) : AddressList * Z :=
  (CreateFromIPAddressList (ip_addresses f) (expected_name f), ttl_sec f * 1000000).

Section Response.
Context (qname : list Z) (qtype : Z) (n0 : list Z) (io : list Z) (nbytes : Z).
Context (Hname : DNSDomainToString qname = Ok n0) (Hqtype : qtype = kTypeA \/ qtype = kTypeAAAA).
Context (Hio : Forall is_byte io) (Hsize : zlen io < 2 ^ 30).
Context (Hquestion : lies io 12 (qname ++ be_bytes 2 qtype ++ be_bytes 2 kClassIN)).
Let response (next : Z) : DnsResponse := mkDnsResponse io (mkDnsRecordParser (Some io) nbytes next).

Lemma question_end : 0 <= zlen qname /\ 16 + zlen qname <= zlen io.
Proof.
  apply lies_bounds in Hquestion as [_ Hb]. rewrite !zlen_app in Hb.
  change (zlen (be_bytes 2 _)) with 2 in Hb. pose proof (zlen_nonneg qname). lia.
Qed.

Lemma question_of_response next :
  next = 16 + zlen qname ->
  GetDottedName (response next) = Ok n0 /\ Dns.qtype (response next) = Some qtype.
Proof.
  intros ->. pose proof question_end as Hq.
  unfold GetDottedName, Dns.qname, Dns.qtype, GetOffset, sizeof_uint16, sizeof_Header. cbn [parser_ IsValid packet_ response DCHECK mbind option_bind cur_ io_buffer_].
  rewrite wrap_u_id by (unfold in_u; lia). destruct (lies_app _ _ _ _ Hquestion) as [Hl Hrest]. split.
  - replace (16 + zlen qname - 2 * 2 - 12) with (zlen qname) by lia. by rewrite (lies_load _ _ _ Hl).
  - replace (16 + zlen qname - 2 * 2) with (12 + zlen qname) by lia. destruct (lies_app _ _ _ _ Hrest) as [Ht _].
    rewrite (ReadBigEndian_spec 2 io (12 + zlen qname) (be_bytes 2 qtype)); [|lia|done|apply be_bytes_byte|done].
    f_equal. rewrite be_value_bytes. apply Z.mod_small. by destruct Hqtype as [-> | ->].
Qed.

Lemma addresses_spec record :
  16 + zlen qname <= nbytes <= zlen io ->
  exists count result list, word io 2 6 count /\
    ParseToAddressList record (response (16 + zlen qname)) = Ok (result, list) /\
    (result = DNS_PARSE_OK -> exists rs, section io nbytes (Z.to_nat count) (16 + zlen qname) rs) /\
    forall rs, section io nbytes (Z.to_nat count) (16 + zlen qname) rs -> Forall filled rs ->
      (result = DNS_PARSE_OK /\ exists f, answers io nbytes qtype (address_size qtype) n0 kuint32max rs f /\ list = Some (list_of f)) \/
      (result <> DNS_PARSE_OK /\ list = None /\ forall f, ~ answers io nbytes qtype (address_size qtype) n0 kuint32max rs f).
Proof.
  intros Hn. pose proof question_end as Hq. destruct (question_of_response _ eq_refl) as [Hd Ht].
  unfold ParseToAddressList. rewrite Hd, Ht. unfold response, Parser, answer_count.
  cbn [parser_ io_buffer_ IsValid packet_ DCHECK checked mbind res_bind option_bind].
  assert (((qtype =? kTypeA) || (qtype =? kTypeAAAA)) = true) as -> by (by destruct Hqtype as [-> | ->]).
  cbn [DCHECK checked mbind res_bind option_bind].
  destruct (header_get ancount_ io) as [count|] eqn:Hc.
  2:{ exfalso. unfold header_get in Hc. destruct (load_total io (field_offset ancount_) 2) as [bytes Hb];
      [done|done|unfold zlen in *; cbn; lia|]. by rewrite Hb in Hc. }
  cbn [checked mbind res_bind]. fold (address_size qtype).
  destruct (records_loop_spec io nbytes Hio ltac:(lia) ltac:(lia) qtype (address_size qtype) Hqtype
    (Z.to_nat count) (16 + zlen qname) record (mkFound n0 kuint32max []) ltac:(lia)) as (result & -> & Hne & Hsec & Hsteps).
  cbn [mbind res_bind]. exists count. apply header_word in Hc. destruct result as [result|[n t a]].
  - do 2 eexists. split; [done|]. split; [reflexivity|]. split; [naive_solver|]. intros rs Hrs Hf. right.
    split; [naive_solver|]. split; [done|]. intros f Ha. by eapply Hsteps, answers_steps.
  - do 2 eexists. split; [done|]. split; [reflexivity|]. split; [naive_solver|]. intros rs Hrs Hf. left. split; [done|].
    exists (mkFound n t a). split; [|done]. apply steps_answers; auto.
Qed.
End Response.

(** C27. From a query to its addresses. A query for the addresses of a name is
    made without a failure and is the bytes of one question with that name.
    Any response that InitParse takes as one to this query, whatever bytes it
    has, is read to an end without a read outside of it, and addresses are
    given only if the records that it announces are all there. If they are,
    and each alias among them has data, addresses are given just if the
    records that count are a chain of aliases from the name of the question
    and then only addresses of the last name, of the type asked for; they are
    these addresses in order, with the last name and the least time to live of
    all the records that count. *)
Theorem responses_name_the_addresses memory id qname qtype n0 :
  DNSDomainToString qname = Ok n0 -> n0 <> [] -> qtype = kTypeA \/ qtype = kTypeAAAA ->
  exists q, new_DnsQuery memory id qname qtype = Ok q /\ query_buffer q = query_bytes id qname qtype /\
  forall io nbytes r record,
    Forall is_byte io -> zlen io < 2 ^ 30 -> InitParse nbytes q (new_DnsResponse io) = Some (true, r) ->
    let first := zlen (query_buffer q) in
    exists count result list, word io 2 6 count /\ ParseToAddressList record r = Ok (result, list) /\
      (result = DNS_PARSE_OK -> exists rs, section io nbytes (Z.to_nat count) first rs) /\
      forall rs, section io nbytes (Z.to_nat count) first rs -> Forall filled rs ->
        (result = DNS_PARSE_OK /\ exists f,
           answers io nbytes qtype (address_size qtype) n0 kuint32max rs f /\ list = Some (list_of f)) \/
        (result <> DNS_PARSE_OK /\ list = None /\
           forall f, ~ answers io nbytes qtype (address_size qtype) n0 kuint32max rs f).
Proof.
  intros Hn Hne Ht. exists (mkDnsQuery (zlen qname) (query_bytes id qname qtype)).
  split; [by apply new_DnsQuery_spec with n0|]. split; [done|]. intros io nbytes r record Hio Hz Hr.
  destruct (InitParse_true _ _ _ _ _ (question_bytes id qname qtype) Hr) as (-> & Hz' & Hlen & Hl).
  assert (Hq : zlen (qname ++ be_bytes 2 qtype ++ be_bytes 2 kClassIN) = 4 + zlen qname)
    by (rewrite !zlen_app; change (zlen (be_bytes 2 _)) with 2; lia).
  assert (Hf : zlen (query_bytes id qname qtype) = 16 + zlen qname)
    by (unfold query_bytes; rewrite zlen_app, Hq; change (zlen (_ ++ _ ++ _ ++ _)) with 12; lia).
  cbn [query_buffer]. rewrite Hf, Hq in *. replace (12 + (4 + zlen qname)) with (16 + zlen qname) in * by lia.
  apply addresses_spec; try done. lia.
Qed.

(** "a.b" and a response with an alias "c" and an address of it. *)
Definition example_qname : list Z := [1; 97; 1; 98; 0].
Definition example_records : list Z :=
  [192; 12; 0; 5; 0; 1; 0; 0; 0; 60; 0; 3; 1; 99; 0] ++ [1; 67; 0; 0; 1; 0; 1; 0; 0; 0; 50; 0; 4; 10; 0; 0; 1].
Definition example_response (count : Z) (records : list Z) : list Z :=
  let query := query_bytes 7 example_qname kTypeA in
  take 6 query ++ [0; count] ++ drop 8 query ++ records ++ [0].

Lemma responses_name_the_addresses_witness :
  exists q, new_DnsQuery (fun _ => 9) 7 example_qname kTypeA = Ok q /\
    query_buffer q = query_bytes 7 example_qname kTypeA /\
  let io := example_response 2 example_records in let nbytes := zlen io - 1 in
  exists r, InitParse nbytes q (new_DnsResponse io) = Some (true, r) /\
    let first := zlen (query_buffer q) in let record := mkDnsResourceRecord [] 0 0 0 (0, 0) in
    exists count result list, word io 2 6 count /\ ParseToAddressList record r = Ok (result, list) /\
      (result = DNS_PARSE_OK -> exists rs, section io nbytes (Z.to_nat count) first rs) /\
      forall rs, section io nbytes (Z.to_nat count) first rs -> Forall filled rs ->
        (result = DNS_PARSE_OK /\ exists f,
           answers io nbytes kTypeA (address_size kTypeA) [97; dot; 98] kuint32max rs f /\ list = Some (list_of f)) \/
        (result <> DNS_PARSE_OK /\ list = None /\
           forall f, ~ answers io nbytes kTypeA (address_size kTypeA) [97; dot; 98] kuint32max rs f).
Proof.
  destruct (responses_name_the_addresses (fun _ => 9) 7 example_qname kTypeA [97; dot; 98]
    ltac:(vm_compute; reflexivity) ltac:(discriminate) ltac:(left; reflexivity)) as (q & Hq & Hb & H).
  exists q. split; [exact Hq|]. split; [exact Hb|].
  assert (Hr : exists r, InitParse (zlen (example_response 2 example_records) - 1) q
    (new_DnsResponse (example_response 2 example_records)) = Some (true, r)).
  { eexists. vm_compute in Hq. injection Hq as <-. vm_compute. reflexivity. }
  destruct Hr as [r Hr]. exists r. split; [exact Hr|]. apply H; [|vm_compute; reflexivity|exact Hr].
  apply (bool_decide_unpack _). vm_compute. exact I.
Defined.

Definition parse_example (count : Z) (records : list Z) : res (Result * option (AddressList * Z)) :=
  q ← new_DnsQuery (fun _ => 9) 7 example_qname kTypeA;
  let io := example_response count records in
  '(_, r) ← checked (InitParse (zlen io - 1) q (new_DnsResponse io));
  ParseToAddressList (mkDnsResourceRecord [] 0 0 0 (0, 0)) r.

Example example_addresses :
  parse_example 2 example_records = Ok (DNS_PARSE_OK, Some (mkAddressList [([10; 0; 0; 1], 0)] [99], 50000000)).
Proof. vm_compute. reflexivity. Qed.

(** An alias without data is refused in the middle of a packet but not at the
    end: ReadName returns the size 0 there for a name that it cannot read. *)
Example an_empty_alias_at_the_end :
  parse_example 1 [192; 12; 0; 5; 0; 1; 0; 0; 0; 60; 0; 0] =
    Ok (DNS_PARSE_OK, Some (mkAddressList [] [97; dot; 98], 60000000)) /\
  parse_example 1 [192; 12; 0; 5; 0; 1; 0; 0; 0; 60; 0; 0; 0] = Ok (DNS_MALFORMED_CNAME, None).
Proof. vm_compute. done. Qed.

(** Names with a null byte are the same if they are up to it: "c", a null and
    "x" in one label are as good as "c". *)
Example names_are_cut_at_a_null :
  parse_example 2 ([192; 12; 0; 5; 0; 1; 0; 0; 0; 60; 0; 3; 1; 99; 0] ++
                   [3; 99; 0; 120; 0; 0; 1; 0; 1; 0; 0; 0; 50; 0; 4; 10; 0; 0; 1]) =
    Ok (DNS_PARSE_OK, Some (mkAddressList [([10; 0; 0; 1], 0)] [99], 50000000)).
Proof. vm_compute. reflexivity. Qed.
