(* ===== verification/Ghash.v ===== *)
(** GHASH, the authenticator of GCM: crypto/ghash.cc. A field element of 2^128
    is a pair of 64-bit words whose most significant bit is the coefficient of
    the lowest power; products with the key go through a table of its
    multiples, four bits at a time. *)
From S2P Require Import Prelude CArrays Memory.

(* src: crypto/ghash.cc 30-34! Get64 *)
Definition Get64 (bytes : list Z) (p : Z) : option Z := b ← load bytes p 8; Some (be_value b).
(* src: crypto/ghash.cc 37-40! Put64 *)
Definition Put64 (p : Z) (x : Z) (bytes : list Z) : option (list Z) := store p (be_bytes 8 x) bytes.
(* src: crypto/ghash.cc 43-47! Reverse *)
Definition Reverse (i : Z) : Z :=
  let i := Z.lor (Z.land (Z.shiftl i 2) 0xc) (Z.land (Z.shiftr i 2) 0x3) in
  Z.lor (Z.land (Z.shiftl i 1) 0xa) (Z.land (Z.shiftr i 1) 0x5).

(* src: crypto/ghash.h 49-53! State *)
Inductive State := kHashingAdditionalData | kHashingCiphertext | kComplete.
#[export] Program Instance State_enum : CxxEnum State := {|
  enum_val s := match s with kHashingAdditionalData => 0 | kHashingCiphertext => 1 | kComplete => 2 end |}.
Next Obligation. by intros [] []. Qed.

(* src: crypto/ghash.h 55-57! FieldElement *)
Record FieldElement := mkFieldElement {
  low : Z;
  hi : Z
}.

(* src: crypto/ghash.h 77-83! GaloisHash *)
Record GaloisHash := mkGaloisHash {
  y_ : FieldElement;
  state_ : State;
  additional_bytes_ : Z;
  ciphertext_bytes_ : Z;
  buf_ : list Z;
  buf_used_ : Z;
  product_table_ : list FieldElement
}.
#[export] Instance eta_GaloisHash : Eta GaloisHash := fun g =>
  mkGaloisHash (y_ g) (state_ g) (additional_bytes_ g) (ciphertext_bytes_ g) (buf_ g) (buf_used_ g) (product_table_ g).
Definition sizeof_buf : Z := 16.

(** ** Field elements *)
(* src: crypto/ghash.cc 136-142! GaloisHash::Add *)
Definition Add (x y : FieldElement) : FieldElement :=
  mkFieldElement (Z.lxor (low x) (low y)) (Z.lxor (hi x) (hi y)).

(* src: crypto/ghash.cc 145-164! GaloisHash::Double *)
Definition Double (x : FieldElement) : FieldElement :=
  let msb_set := Z.testbit (hi x) 0 in
  let xx_hi := Z.lor (Z.shiftr (hi x) 1) (u64 (Z.shiftl (low x) 63)) in
  let xx_low := Z.shiftr (low x) 1 in
  mkFieldElement (if msb_set then Z.lxor xx_low 0xe100000000000000 else xx_low) xx_hi.

(* src: crypto/ghash.cc 208-211! kReductionTable *)
Definition kReductionTable : list Z :=
  [0x0000; 0x1c20; 0x3840; 0x2460; 0x7080; 0x6ca0; 0x48c0; 0x54e0;
   0xe100; 0xfd20; 0xd940; 0xc560; 0x9180; 0x8da0; 0xa9c0; 0xb5e0].

(* src: crypto/ghash.cc 214-220! GaloisHash::Mul16 *)
Definition Mul16 (x : FieldElement) : option FieldElement :=
  let msw := Z.land (hi x) 0xf in
  let x_hi := Z.lor (Z.shiftr (hi x) 4) (u64 (Z.shiftl (low x) 60)) in
  let x_low := Z.shiftr (low x) 4 in
  reduction ← get kReductionTable msw;
  Some (mkFieldElement (Z.lxor x_low (u64 (Z.shiftl reduction 48))) x_hi).

(* src: crypto/ghash.cc 187-195! GaloisHash::MulAfterPrecomputation *)
Fixpoint word_loop (j : nat) (table : list FieldElement) (word : Z) (z : FieldElement) : option FieldElement :=
  match j with
  | O => Some z
  | S j =>
      z ← Mul16 z;
      t ← get table (Z.land word 0xf);
      word_loop j table (Z.shiftr word 4) (mkFieldElement (Z.lxor (low z) (low t)) (Z.lxor (hi z) (hi t)))
  end.

(* src: crypto/ghash.cc 166-199! GaloisHash::MulAfterPrecomputation *)
Definition MulAfterPrecomputation (table : list FieldElement) (x : FieldElement) : option FieldElement :=
  z ← word_loop 16 table (hi x) (mkFieldElement 0 0);
  word_loop 16 table (low x) z.

(** ** The hash *)
(* src: crypto/ghash.cc 222-230! GaloisHash::UpdateBlocks *)
Fixpoint UpdateBlocks (bytes : list Z) (p : Z) (num_blocks : nat) (g : GaloisHash) : option GaloisHash :=
  match num_blocks with
  | O => Some g
  | S num_blocks =>
      b1 ← Get64 bytes p;
      b2 ← Get64 bytes (p + 8);
      y ← MulAfterPrecomputation (product_table_ g)
            (mkFieldElement (Z.lxor (low (y_ g)) b1) (Z.lxor (hi (y_ g)) b2));
      UpdateBlocks bytes (p + 16) num_blocks (g <| y_ := y |>)
  end.

(** The block in [buf_] is full. *)
(* src: crypto/ghash.cc 241-242! GaloisHash::Update *)
Definition update_buf (g : GaloisHash) : option GaloisHash :=
  g ← UpdateBlocks (buf_ g) 0 1 g;
  Some (g <| buf_used_ := 0 |>).

(** The bytes go behind those that are in [buf_] already: how many do. *)
(* src: crypto/ghash.cc 233-244! GaloisHash::Update *)
Definition fill_buf (data : list Z) (length : Z) (g : GaloisHash) : option (Z * GaloisHash) :=
  if 0 <? buf_used_ g then
    let n := Z.min length (sizeof_buf - buf_used_ g) in
    bytes ← load data 0 n;
    buf ← store (buf_used_ g) bytes (buf_ g);
    let g := g <| buf_ := buf |> <| buf_used_ := buf_used_ g + n |> in
    g ← (if buf_used_ g =? sizeof_buf then update_buf g else Some g);
    Some (n, g)
  else Some (0, g).

(* src: crypto/ghash.cc 232-257! GaloisHash::Update *)
Definition Update (data : list Z) (length : Z) (g : GaloisHash) : option GaloisHash :=
  '(p, g) ← fill_buf data length g;
  let length := length - p in
  '(p, length, g) ← (if 16 <=? length then
                       let n := length / 16 in
                       g ← UpdateBlocks data p (Z.to_nat n) g;
                       Some (p + n * 16, length - n * 16, g)
                     else Some (p, length, g));
  if 0 <? length then
    bytes ← load data p length;
    buf ← store 0 bytes (buf_ g);
    Some (g <| buf_ := buf |> <| buf_used_ := length |>)
  else Some g.

(** What is in [buf_] is padded with zeros to a block. *)
(* src: crypto/ghash.cc 105-111! GaloisHash::Finish *)
Definition pad_buf (g : GaloisHash) : option GaloisHash :=
  if 0 <? buf_used_ g then
    buf ← store (buf_used_ g) (repeat 0 (Z.to_nat (sizeof_buf - buf_used_ g))) (buf_ g);
    update_buf (g <| buf_ := buf |>)
  else Some g.

(* src: crypto/ghash.cc 70-77! GaloisHash::Reset *)
Definition Reset (g : GaloisHash) : GaloisHash :=
  g <| state_ := kHashingAdditionalData |> <| additional_bytes_ := 0 |> <| ciphertext_bytes_ := 0 |>
    <| buf_used_ := 0 |> <| y_ := mkFieldElement 0 0 |>.

(** The multiples of the key from [i] on, two in each of the [count] turns. *)
(* src: crypto/ghash.cc 64-67! GaloisHash::GaloisHash *)
Fixpoint table_loop (count : nat) (i : Z) (x : FieldElement) (table : list FieldElement)
    : option (list FieldElement) :=
  match count with
  | O => Some table
  | S count =>
      half ← get table (Reverse (Z.quot i 2));
      table ← put table (Reverse i) (Double half);
      same ← get table (Reverse i);
      table ← put table (Reverse (i + 1)) (Add same x);
      table_loop count (i + 2) x table
  end.

(** [memory] is what the object holds before it is constructed. *)
(* src: crypto/ghash.cc 51-68! GaloisHash::GaloisHash *)
Definition new_GaloisHash (memory : GaloisHash) (key : list Z) : option GaloisHash :=
  let g := Reset memory in
  key1 ← Get64 key 0;
  key2 ← Get64 key 8;
  let x := mkFieldElement key1 key2 in
  table ← put (product_table_ g) 0 (mkFieldElement 0 0);
  table ← put table (Reverse 1) x;
  table ← table_loop 8 0 x table;
  Some (g <| product_table_ := table |>).

(* src: crypto/ghash.cc 79-83! GaloisHash::UpdateAdditional *)
Definition UpdateAdditional (data : list Z) (length : Z) (g : GaloisHash) : option GaloisHash :=
  DCHECK (state_ g == kHashingAdditionalData) ;;
  Update data length (g <| additional_bytes_ := u64 (additional_bytes_ g + length) |>).

(* src: crypto/ghash.cc 85-100! GaloisHash::UpdateCiphertext *)
Definition UpdateCiphertext (data : list Z) (length : Z) (g : GaloisHash) : option GaloisHash :=
  g ← (if state_ g == kHashingAdditionalData then
         g ← pad_buf g;
         Some (g <| state_ := kHashingCiphertext |>)
       else Some g);
  DCHECK (state_ g == kHashingCiphertext) ;;
  Update data length (g <| ciphertext_bytes_ := u64 (ciphertext_bytes_ g + length) |>).

(** [output] is the memory at the pointer, and [result_tmp] what is on the
    stack. *)
(* src: crypto/ghash.cc 102-133! GaloisHash::Finish *)
Definition Finish (result_tmp output : list Z) (len : Z) (g : GaloisHash) : option (list Z * GaloisHash) :=
  DCHECK (state_ g != kComplete) ;;
  g ← pad_buf g;
  let g := g <| state_ := kComplete |> in
  y ← MulAfterPrecomputation (product_table_ g)
        (mkFieldElement (Z.lxor (low (y_ g)) (u64 (additional_bytes_ g * 8)))
                        (Z.lxor (hi (y_ g)) (u64 (ciphertext_bytes_ g * 8))));
  let g := g <| y_ := y |> in
  result ← Put64 0 (low y) (if 16 <=? len then output else result_tmp);
  result ← Put64 8 (hi y) result;
  output ← (if len <? 16 then bytes ← load result 0 len; store 0 bytes output else Some result);
  Some (output, g).
