(* ===== verification/GhashField.v ===== *)
(** The field of GHASH: products through the table are the products that the
    specification of GCM defines bit by bit. *)
From S2P Require Import Prelude CArrays Memory Ghash.
From Stdlib Require Import ZifyBool.

(** ** The specification: NIST SP 800-38D, section 6.3

    A block of 128 bits is a number whose most significant bit is the first,
    the coefficient of the lowest power. *)
Definition R : Z := 0xe1 * 2 ^ 120.
Definition times_x (v : Z) : Z :=
  let w := Z.shiftr v 1 in if Z.testbit v 0 then Z.lxor w R else w.
Fixpoint product_loop (n : nat) (x v z : Z) : Z :=
  match n with
  | O => z
  | S n => product_loop n x (times_x v) (if Z.testbit x (Z.of_nat n) then Z.lxor z v else z)
  end.
Definition product (x y : Z) : Z := product_loop 128 x y 0.

(** ** Pairs of words *)
Definition val (x : FieldElement) : Z := hi x + low x * 2 ^ 64.
Definition fe_ok (x : FieldElement) : Prop := in_u 64 (low x) /\ in_u 64 (hi x).

Lemma val_lor x : fe_ok x -> val x = Z.lor (hi x) (Z.shiftl (low x) 64).
Proof. intros [_ Hh]. unfold val. by rewrite Z.shiftl_mul_pow2, lor_disjoint by (done || lia). Qed.

Lemma lxor_in_u w a b : 0 <= w -> in_u w a -> in_u w b -> in_u w (Z.lxor a b).
Proof.
  intros Hw Ha Hb. unfold in_u in *. rewrite <- (Z.mod_small a (2 ^ w)), <- (Z.mod_small b (2 ^ w)) by done.
  rewrite <- lxor_mod by done. apply Z.mod_pos_bound. by apply pow2_pos.
Qed.

Lemma Add_val x y : fe_ok x -> fe_ok y -> fe_ok (Add x y) /\ val (Add x y) = Z.lxor (val x) (val y).
Proof.
  intros Hx Hy. assert (H : fe_ok (Add x y)) by (destruct Hx, Hy; split; by apply lxor_in_u).
  split; [done|]. rewrite !val_lor by done. cbn [low hi Add]. apply Z.bits_inj'. intros i Hi.
  rewrite Z.lxor_spec, !Z.lor_spec, !Z.shiftl_spec, !Z.lxor_spec by done.
  destruct Hx as [_ Hxh], Hy as [_ Hyh]. unfold in_u in Hxh, Hyh. destruct (Z.lt_ge_cases i 64).
  - rewrite !(Z.testbit_neg_r _ (i - 64)) by lia. by rewrite !orb_false_r.
  - rewrite <- (Z.mod_small (hi x) (2 ^ 64)), <- (Z.mod_small (hi y) (2 ^ 64)) by done.
    by rewrite !Z.mod_pow2_bits_high by lia.
Qed.

(** Shifting by [k] bits, which go from one word to the other. *)
Lemma shift_val k x : 0 < k < 64 -> fe_ok x ->
  let y := mkFieldElement (Z.shiftr (low x) k) (Z.lor (Z.shiftr (hi x) k) (u64 (Z.shiftl (low x) (64 - k)))) in
  fe_ok y /\ val y = Z.shiftr (val x) k.
Proof.
  intros Hk [Hl Hh]. cbn zeta. unfold in_u in *. rewrite !Z.shiftr_div_pow2, Z.shiftl_mul_pow2 by lia.
  assert (Hu : u64 (low x * 2 ^ (64 - k)) = (low x mod 2 ^ k) * 2 ^ (64 - k)).
  { unfold wrap_u. replace (2 ^ 64) with (2 ^ k * 2 ^ (64 - k)) by (rewrite <- Z.pow_add_r by lia; f_equal; lia).
    apply Z.mul_mod_distr_r; apply Z.pow_nonzero; lia. }
  pose proof (pow2_pos k ltac:(lia)). pose proof (pow2_pos (64 - k) ltac:(lia)).
  pose proof (Z.mod_pos_bound (low x) (2 ^ k) ltac:(lia)). pose proof (Z.div_mod (low x) (2 ^ k) ltac:(lia)).
  assert (E64 : 2 ^ 64 = 2 ^ k * 2 ^ (64 - k)) by (rewrite <- Z.pow_add_r by lia; f_equal; lia).
  assert (Hd : 0 <= hi x / 2 ^ k < 2 ^ (64 - k)).
  { split; [apply Z.div_pos; lia|]. apply Z.div_lt_upper_bound; lia. }
  assert (Hq : 0 <= low x / 2 ^ k < 2 ^ (64 - k)).
  { split; [apply Z.div_pos; lia|]. apply Z.div_lt_upper_bound; lia. }
  rewrite Hu, lor_disjoint by lia. split.
  - split; cbn [low hi]; unfold in_u; nia.
  - unfold val. cbn [low hi].
    replace (hi x + low x * 2 ^ 64) with (hi x + (low x * 2 ^ (64 - k)) * 2 ^ k) by (rewrite E64; ring).
    rewrite Z.div_add by lia. rewrite E64. nia.
Qed.

Lemma val_odd x n : fe_ok x -> 0 <= n <= 64 -> Z.land (val x) (Z.ones n) = Z.land (hi x) (Z.ones n).
Proof.
  intros _ Hn. rewrite !Z.land_ones by lia. unfold val.
  replace (2 ^ 64) with (2 ^ (64 - n) * 2 ^ n) by (rewrite <- Z.pow_add_r by lia; f_equal; lia).
  by rewrite Z.mul_assoc, Z.mod_add by (apply Z.pow_nonzero; lia).
Qed.

Lemma val_low_bit x : Z.testbit (val x) 0 = Z.testbit (hi x) 0.
Proof.
  unfold val. rewrite !Z.bit0_odd. rewrite Z.odd_add, Z.odd_mul. by rewrite andb_false_r, xorb_false_r.
Qed.

Lemma Double_val x : fe_ok x -> fe_ok (Double x) /\ val (Double x) = times_x (val x).
Proof.
  intros Hx. destruct (shift_val 1 x ltac:(lia) Hx) as [Hy Ey]. change (64 - 1) with 63 in Hy, Ey. unfold times_x. rewrite val_low_bit, <- Ey.
  unfold Double. destruct (Z.testbit (hi x) 0); [|done].
  destruct (Add_val _ (mkFieldElement 0xe100000000000000 0) Hy) as [Ha Ea]; [by split|].
  unfold Add in Ha, Ea. cbn [low hi] in Ha, Ea. rewrite Z.lxor_0_r in Ha, Ea. by rewrite Ea.
Qed.

(** ** [times_x] *)
Lemma times_x_lxor a b : times_x (Z.lxor a b) = Z.lxor (times_x a) (times_x b).
Proof.
  unfold times_x. rewrite Z.lxor_spec, Z.shiftr_lxor.
  destruct (Z.testbit a 0), (Z.testbit b 0); cbn [xorb]; try done.
  - apply Z.bits_inj'. intros i Hi. rewrite !Z.lxor_spec. by destruct (Z.testbit _ i), (Z.testbit _ i), (Z.testbit R i).
  - by rewrite !Z.lxor_assoc, (Z.lxor_comm R).
  - by rewrite Z.lxor_assoc.
Qed.

Lemma times_x_shiftl q n : 0 < n -> times_x (Z.shiftl q n) = Z.shiftl q (n - 1).
Proof.
  intros Hn. unfold times_x. rewrite Z.shiftl_spec_low by lia. by rewrite Z.shiftr_shiftl_l by lia.
Qed.

Lemma times_16 v :
  times_x (times_x (times_x (times_x v))) =
  Z.lxor (Z.shiftr v 4) (Z.shiftl (at_ kReductionTable (Z.land v 15)) 112).
Proof.
  assert (E : v = Z.lxor (Z.shiftl (Z.shiftr v 4) 4) (Z.land v 15)).
  { change 15 with (Z.ones 4). apply Z.bits_inj'. intros i Hi.
    rewrite Z.lxor_spec, Z.land_spec, Z.shiftl_spec, Z.testbit_ones_nonneg by lia. destruct (Z.lt_ge_cases i 4).
    - rewrite (Z.testbit_neg_r _ (i - 4)) by lia. rewrite (proj2 (Z.ltb_lt _ _)) by lia. by rewrite andb_true_r.
    - rewrite Z.shiftr_spec, (proj2 (Z.ltb_ge _ _)), andb_false_r, xorb_false_r by lia. f_equal. lia. }
  rewrite E at 1. rewrite !times_x_lxor.
  rewrite !times_x_shiftl by lia. change (4 - 1 - 1 - 1 - 1) with 0.
  rewrite Z.shiftl_0_r. f_equal.
  assert (Hr : 0 <= Z.land v 15 < 16) by (change 15 with (Z.ones 4); rewrite Z.land_ones by lia; apply Z.mod_pos_bound; lia).
  revert Hr. generalize (Z.land v 15). compute_below 16%nat.
Qed.

Lemma Mul16_val x : fe_ok x ->
  exists y, Mul16 x = Some y /\ fe_ok y /\ val y = times_x (times_x (times_x (times_x (val x)))).
Proof.
  intros Hx. destruct (shift_val 4 x ltac:(lia) Hx) as [Hy Ey]. change (64 - 4) with 60 in Hy, Ey. rewrite times_16, <- Ey. unfold Mul16.
  change 0xf with (Z.ones 4). rewrite <- val_odd by (done || lia). change (Z.ones 4) with 15.
  assert (Hr : 0 <= Z.land (val x) 15 < 16) by (change 15 with (Z.ones 4); rewrite Z.land_ones by lia; apply Z.mod_pos_bound; lia).
  revert Hr. generalize (Z.land (val x) 15). intros r Hr.
  assert (Ht : get kReductionTable r = Some (at_ kReductionTable r) /\ in_u 16 (at_ kReductionTable r))
    by (revert r Hr; unfold in_u; compute_below 16%nat).
  destruct Ht as [-> Ht]. cbn [mbind option_bind]. unfold in_u in Ht.
  rewrite (wrap_u_id 64) by (unfold in_u; rewrite Z.shiftl_mul_pow2 by lia; lia).
  eexists. split; [done|].
  destruct (Add_val _ (mkFieldElement (Z.shiftl (at_ kReductionTable r) 48) 0) Hy) as [Ha Ea].
  { split; cbn [low hi]; unfold in_u; rewrite ?Z.shiftl_mul_pow2; lia. }
  unfold Add in Ha, Ea. cbn [low hi] in Ha, Ea. rewrite Z.lxor_0_r in Ha, Ea. split; [exact Ha|].
  etransitivity; [exact Ea|]. f_equal. unfold val. cbn [low hi]. rewrite !Z.shiftl_mul_pow2 by lia. lia.
Qed.

(** ** From the last bit to the first *)
Fixpoint horner (n : nat) (w k z : Z) : Z :=
  match n with
  | O => z
  | S n => horner n (Z.shiftr w 1) k (Z.lxor (times_x z) (if Z.testbit w 0 then k else 0))
  end.

Lemma horner_app n m w k z : horner (n + m) w k z = horner m (Z.shiftr w (Z.of_nat n)) k (horner n w k z).
Proof.
  revert w z. induction n as [|n IH]; intros w z; cbn [Nat.add horner]; [by rewrite Z.shiftr_0_r|].
  rewrite IH, Z.shiftr_shiftr by lia. do 2 f_equal. lia.
Qed.

Lemma horner_linear n w k z z' : horner n w k (Z.lxor z z') = Z.lxor (Nat.iter n times_x z) (horner n w k z').
Proof.
  revert w z z'. induction n as [|n IH]; intros w z z'; [done|]. cbn [horner].
  rewrite times_x_lxor, Z.lxor_assoc, IH. by rewrite Nat.iter_succ_r.
Qed.

Lemma horner_times_x n w k z : horner n w (times_x k) (times_x z) = times_x (horner n w k z).
Proof.
  revert w z. induction n as [|n IH]; intros w z; [done|]. cbn [horner]. rewrite <- IH, times_x_lxor.
  by destruct (Z.testbit w 0).
Qed.

(** Only the lowest [n] bits count. *)
Lemma horner_low n : forall w w' k z, (forall i, 0 <= i < Z.of_nat n -> Z.testbit w i = Z.testbit w' i) ->
  horner n w k z = horner n w' k z.
Proof.
  induction n as [|n IH]; intros w w' k z Hw; [done|]. cbn [horner]. rewrite (Hw 0) by lia. apply IH.
  intros i Hi. rewrite !Z.shiftr_spec by lia. apply Hw. lia.
Qed.

Lemma product_loop_horner n : forall x v z, product_loop n x v z = Z.lxor z (horner n x v 0).
Proof.
  induction n as [|n IH]; intros x v z; cbn [product_loop]; [by rewrite Z.lxor_0_r|].
  rewrite IH. replace (S n) with (n + 1)%nat by lia. rewrite horner_app. cbn [horner].
  rewrite Z.shiftr_spec, Z.add_0_l by lia. change 0 with (times_x 0) at 1. rewrite horner_times_x.
  destruct (Z.testbit x (Z.of_nat n)); [|by rewrite Z.lxor_0_r].
  by rewrite (Z.lxor_comm (times_x _)), Z.lxor_assoc.
Qed.

(** ** The table *)
Definition table_ok (key : Z) (table : list FieldElement) : Prop :=
  zlen table = 16 /\
  forall n, 0 <= n < 16 -> exists t, get table n = Some t /\ fe_ok t /\ val t = horner 4 n key 0.

Lemma word_loop_val key table : table_ok key table -> forall j w z, 0 <= w -> fe_ok z ->
  exists z', word_loop j table w z = Some z' /\ fe_ok z' /\ val z' = horner (4 * j) w key (val z).
Proof.
  intros [_ Ht]. induction j as [|j IH]; intros w z Hw Hz; [by exists z|]. cbn [word_loop].
  destruct (Mul16_val z Hz) as (y & -> & Hy & Ey). cbn [mbind option_bind]. change 0xf with (Z.ones 4).
  rewrite Z.land_ones by lia. destruct (Ht (w mod 2 ^ 4)) as (t & -> & Hok & Et); [apply Z.mod_pos_bound; lia|].
  cbn [mbind option_bind]. destruct (Add_val y t Hy Hok) as [Ha Ea].
  destruct (IH (Z.shiftr w 4) (Add y t)) as (z' & E' & Hz' & Ez'); [by apply Z.shiftr_nonneg|done|].
  exists z'. split; [exact E'|]. split; [done|]. rewrite Ez', Ea, Ey, Et.
  replace (4 * S j)%nat with (4 + 4 * j)%nat by lia. rewrite horner_app. f_equal.
  rewrite <- (Z.lxor_0_r (val z)) at 2. rewrite horner_linear. f_equal. apply horner_low.
  intros i Hi. apply Z.mod_pow2_bits_low. lia.
Qed.

Lemma MulAfterPrecomputation_val key table x : table_ok key table -> fe_ok x ->
  exists z, MulAfterPrecomputation table x = Some z /\ fe_ok z /\ val z = product (val x) key.
Proof.
  intros Ht [Hl Hh]. unfold MulAfterPrecomputation, in_u in *.
  destruct (word_loop_val key table Ht 16 (hi x) (mkFieldElement 0 0)) as (z1 & -> & H1 & E1); [lia|by split|].
  cbn [mbind option_bind].
  destruct (word_loop_val key table Ht 16 (low x) z1) as (z2 & -> & H2 & E2); [lia|done|].
  exists z2. split; [done|]. split; [done|]. unfold product. rewrite product_loop_horner, Z.lxor_0_l, E2, E1.
  change 128%nat with (4 * 16 + 4 * 16)%nat. rewrite horner_app. f_equal.
  - unfold val. rewrite Z.shiftr_div_pow2 by lia. change (2 ^ Z.of_nat (4 * 16)) with (2 ^ 64).
    rewrite Z.div_add, Z.div_small by lia. lia.
  - apply horner_low. intros i Hi. unfold val. rewrite <- (Z.mod_small (hi x) (2 ^ 64)) at 1 by done.
    rewrite <- (Z.mod_pow2_bits_low (hi x + _) 64) by lia. by rewrite Z.mod_add.
Qed.

Definition is_val (t : FieldElement) (v : Z) : Prop := fe_ok t /\ val t = v.

Lemma is_zero : is_val (mkFieldElement 0 0) 0.
Proof. by repeat split. Qed.
Lemma is_Double t v : is_val t v -> is_val (Double t) (times_x v).
Proof. intros [Ht <-]. by apply Double_val. Qed.
Lemma is_Add t v t' v' : is_val t v -> is_val t' v' -> is_val (Add t t') (Z.lxor v v').
Proof. intros [Ht <-] [Ht' <-]. by apply Add_val. Qed.

Lemma new_table_ok x table : fe_ok x -> zlen table = 16 ->
  exists table', (table ← put table 0 (mkFieldElement 0 0); table ← put table (Reverse 1) x; table_loop 8 0 x table)
    = Some table' /\ table_ok (val x) table'.
Proof.
  intros Hx Hl. assert (Hv : is_val x (val x)) by done. generalize (val x) Hv. clear Hx Hv. intros key Hx. unfold zlen in Hl.
  do 16 (destruct table as [|? table]; [done|]). destruct table; [|cbn in Hl; lia].
  cbn -[Add Double]. eexists. split; [reflexivity|]. split; [done|]. intros n Hn.
  assert (H : n ∈ [0; 1; 2; 3; 4; 5; 6; 7; 8; 9; 10; 11; 12; 13; 14; 15]) by (rewrite !elem_of_cons; lia).
  clear Hn. repeat (apply elem_of_cons in H as [->|H]); [..|by apply elem_of_nil in H];
    (eexists; split; [reflexivity|]);
    (match goal with |- fe_ok ?t /\ _ => eassert (Hv : is_val t _) end;
     [repeat first [apply is_zero | exact Hx | apply is_Double | apply is_Add]
     |destruct Hv as [Hok Hv]; split; [exact Hok|etransitivity; [exact Hv|]]]);
    cbn -[times_x Z.lxor]; change (times_x 0) with 0; by rewrite ?Z.lxor_0_l, ?Z.lxor_0_r.
Qed.
