(* ===== verification/GhashProperties.v ===== *)
(** GHASH of a message that comes in pieces: the object computes the function
    that the specification of GCM defines, however the message is cut. *)
From S2P Require Import Prelude CArrays Memory BigEndian Ghash GhashField.
From Stdlib Require Import ZifyBool.

(** ** The specification: NIST SP 800-38D, section 6.4 *)

(** The first [n] blocks of a text, the last one filled with zeros. *)
Fixpoint first_blocks (n : nat) (l : list Z) : list Z :=
  match n with
  | O => []
  | S n => be_value (take 16 l) :: first_blocks n (drop 16 l)
  end.
Definition blocks (l : list Z) : list Z :=
  first_blocks (Z.to_nat ((zlen l + 15) / 16)) (l ++ repeat 0 15).

Definition GHASH (h : Z) (xs : list Z) (y : Z) : Z := fold_left (fun y x => product (Z.lxor y x) h) xs y.

(** Additional data, the ciphertext, and how many bits they have. *)
Definition ghash (key additional ciphertext : list Z) : Z :=
  GHASH (be_value key)
    (blocks additional ++ blocks ciphertext ++ [u64 (8 * zlen additional) * 2 ^ 64 + u64 (8 * zlen ciphertext)]) 0.

Lemma GHASH_app h xs ys y : GHASH h (xs ++ ys) y = GHASH h ys (GHASH h xs y).
Proof. apply fold_left_app. Qed.

Lemma fold_left_cons {A B} (f : A -> B -> A) x xs y : fold_left f (x :: xs) y = fold_left f xs (f y x).
Proof. reflexivity. Qed.

Lemma GHASH_cons h x xs y : GHASH h (x :: xs) y = GHASH h xs (product (Z.lxor y x) h).
Proof. exact (fold_left_cons (fun y x => product (Z.lxor y x) h) x xs y). Qed.

Lemma GHASH_nil h y : GHASH h [] y = y.
Proof. reflexivity. Qed.

(** Whole blocks, and a rest that is less than one. *)
Lemma first_blocks_concat bs l :
  Forall (fun b => zlen b = 16) bs -> first_blocks (length bs) (concat bs ++ l) = map be_value bs.
Proof.
  induction 1 as [|b bs Hb _ IH]; [done|]. cbn [length concat first_blocks map].
  replace 16%nat with (length b) by (unfold zlen in Hb; lia).
  by rewrite <- app_assoc, take_app_length, drop_app_length, IH.
Qed.

Definition padded (pend : list Z) : list Z := pend ++ repeat 0 (16 - length pend).

Lemma zlen_concat bs : Forall (fun b : list Z => zlen b = 16) bs -> zlen (concat bs) = 16 * zlen bs.
Proof. induction 1 as [|b bs Hb _ IH]; [done|]. cbn [concat]. rewrite zlen_app, IH, Hb. unfold zlen. cbn [length]. lia. Qed.

Lemma blocks_concat bs pend : Forall (fun b => zlen b = 16) bs -> zlen pend < 16 ->
  blocks (concat bs ++ pend) = map be_value bs ++ if zlen pend =? 0 then [] else [be_value (padded pend)].
Proof.
  intros Hbs Hp. unfold blocks. rewrite zlen_app, zlen_concat by done. pose proof (zlen_nonneg pend).
  destruct (Z.eqb_spec (zlen pend) 0) as [E|E].
  - replace (16 * zlen bs + zlen pend + 15) with (15 + zlen bs * 16) by lia. rewrite Z.div_add by lia.
    change (15 / 16) with 0. replace (Z.to_nat (0 + zlen bs)) with (length bs) by (unfold zlen; lia).
    by rewrite app_nil_r, <- app_assoc, first_blocks_concat.
  - replace (16 * zlen bs + zlen pend + 15) with ((zlen pend - 1) + (zlen bs + 1) * 16) by lia.
    rewrite Z.div_add, Z.div_small by lia.
    assert (Hf : Forall (fun b => zlen b = 16) (bs ++ [padded pend])).
    { apply Forall_app. split; [done|]. constructor; [|done]. unfold padded. rewrite zlen_app. unfold zlen in *. rewrite repeat_length. lia. }
    replace (Z.to_nat (0 + (zlen bs + 1))) with (length (bs ++ [padded pend])) by (rewrite length_app; unfold zlen; cbn; lia).
    replace ((concat bs ++ pend) ++ repeat 0 15) with (concat (bs ++ [padded pend]) ++ repeat 0 (length pend - 1)).
    + rewrite first_blocks_concat by done. by rewrite map_app.
    + rewrite concat_app. cbn [concat]. rewrite app_nil_r. unfold padded. rewrite <- !app_assoc. do 2 f_equal.
      rewrite <- repeat_app. f_equal. unfold zlen in *. lia.
Qed.

(** ** The object *)

Lemma Get64_lies bytes p b : lies bytes p b -> zlen b = 8 -> Get64 bytes p = Some (be_value b).
Proof. intros (pre & post & -> & Hp) Hb. unfold Get64. rewrite load_app by (unfold zlen in *; lia). done. Qed.

Lemma be_value_app a b : be_value (a ++ b) = be_value a * 256 ^ zlen b + be_value b.
Proof.
  induction b as [|x b IH] using rev_ind; [rewrite app_nil_r; change (be_value []) with 0; change (256 ^ zlen []) with 1; lia|].
  rewrite app_assoc. unfold be_value in *. rewrite !(fold_left_app _ _ [x]), IH. cbn [fold_left].
  rewrite zlen_app. change (zlen [x]) with 1. pose proof (zlen_nonneg b). rewrite Z.pow_add_r by lia. lia.
Qed.

(** A block as a field element. *)
Lemma block_val bytes p b : lies bytes p b -> Forall is_byte b -> zlen b = 16 ->
  exists b1 b2, Get64 bytes p = Some b1 /\ Get64 bytes (p + 8) = Some b2 /\
    fe_ok (mkFieldElement b1 b2) /\ val (mkFieldElement b1 b2) = be_value b.
Proof.
  intros Hl Hb Hz. destruct (split_at 8 b) as (l1 & l2 & -> & H1); [unfold zlen in Hz; lia|].
  apply Forall_app in Hb as [Hb1 Hb2]. rewrite zlen_app in Hz. assert (Hz1 : zlen l1 = 8) by (unfold zlen; lia).
  destruct (lies_app _ _ _ _ Hl) as [Hl1 Hl2]. rewrite Hz1 in Hl2.
  exists (be_value l1), (be_value l2). rewrite (Get64_lies _ _ l1), (Get64_lies _ _ l2) by (done || lia).
  assert (Hz2 : zlen l2 = 8) by lia.
  do 2 (split; [done|]). pose proof (be_value_range l1 Hb1) as Hr1. pose proof (be_value_range l2 Hb2) as Hr2.
  rewrite Hz1 in Hr1. rewrite Hz2 in Hr2. change (256 ^ 8) with (2 ^ 64) in Hr1, Hr2. split; [by split|].
  rewrite be_value_app, Hz2. unfold val. cbn [low hi]. change (256 ^ 8) with (2 ^ 64). lia.
Qed.

Section Object.
Context (key : Z).

(** The key is in the table, and [y] is the hash up to here. *)
Definition keyed (y : Z) (g : GaloisHash) : Prop :=
  table_ok key (product_table_ g) /\ fe_ok (y_ g) /\ val (y_ g) = y /\ zlen (buf_ g) = 16.

(** [pend] waits in the buffer. *)
Definition pending (pend : list Z) (g : GaloisHash) : Prop :=
  zlen pend = buf_used_ g /\ zlen pend < 16 /\ Forall is_byte pend /\ take (length pend) (buf_ g) = pend.

Lemma UpdateBlocks_spec bs : forall bytes p y g,
  lies bytes p (concat bs) -> Forall (fun b => zlen b = 16 /\ Forall is_byte b) bs -> keyed y g ->
  exists z, UpdateBlocks bytes p (length bs) g = Some (g <| y_ := z |>) /\
    keyed (GHASH key (map be_value bs) y) (g <| y_ := z |>).
Proof.
  induction bs as [|b bs IH]; intros bytes p y g Hl Hbs Hg; cbn [length UpdateBlocks map].
  { exists (y_ g). destruct g. by split. }
  apply Forall_cons in Hbs as [[Hz Hb] Hbs]. cbn [concat] in Hl. destruct (lies_app _ _ _ _ Hl) as [Hl1 Hl2].
  destruct (block_val bytes p b Hl1 Hb Hz) as (b1 & b2 & -> & -> & Hok & Ev). cbn [mbind option_bind].
  destruct Hg as (Ht & Hy & <- & Hbuf).
  destruct (Add_val (y_ g) _ Hy Hok) as [Ha Ea]. unfold Add in Ha, Ea. cbn [low hi] in Ha, Ea.
  destruct (MulAfterPrecomputation_val key _ _ Ht Ha) as (z & -> & Hz' & Ez). cbn [mbind option_bind].
  rewrite Hz in Hl2. destruct (IH bytes (p + 16) (val z) (g <| y_ := z |>) Hl2 Hbs) as (z' & E & Hk);
    [exact (conj Ht (conj Hz' (conj eq_refl Hbuf)))|].
  exists z'. split; [exact E|]. rewrite Ez, Ea, Ev in Hk. rewrite GHASH_cons. exact Hk.
Qed.

(** A part of the message has been taken: whole blocks are in the hash, which
    was [start] before them, and the rest waits. *)
Definition block (b : list Z) : Prop := zlen b = 16 /\ Forall is_byte b.
Definition absorbed (start : Z) (text : list Z) (g : GaloisHash) : Prop :=
  exists bs pend, text = concat bs ++ pend /\ Forall block bs /\
    keyed (GHASH key (map be_value bs) start) g /\ pending pend g.

(** What the operations on blocks leave as it was. *)
Definition same_counts (g g' : GaloisHash) : Prop :=
  state_ g' = state_ g /\ additional_bytes_ g' = additional_bytes_ g /\ ciphertext_bytes_ g' = ciphertext_bytes_ g.

Lemma pending_nil g : buf_used_ g = 0 -> pending [] g.
Proof. intros E. unfold pending. rewrite E. split_and!; done || constructor. Qed.

Lemma absorb_blocks start text bs bytes p g :
  absorbed start text g -> buf_used_ g = 0 -> lies bytes p (concat bs) -> Forall block bs ->
  exists g', UpdateBlocks bytes p (length bs) g = Some g' /\ absorbed start (text ++ concat bs) g' /\
    buf_used_ g' = 0 /\ same_counts g g'.
Proof.
  intros (bs0 & pend & -> & Hbs0 & Hk & Hp & _ & _ & _) Hu Hl Hbs. rewrite Hu in Hp.
  assert (pend = []) as -> by (destruct pend; [done|unfold zlen in Hp; cbn in Hp; lia]).
  destruct (UpdateBlocks_spec bs bytes p _ g Hl Hbs Hk) as (z & E & Hk').
  eexists. split; [exact E|]. split; [|by repeat split].
  exists (bs0 ++ bs), []. rewrite concat_app, !app_nil_r, map_app, GHASH_app.
  split; [done|]. split; [by apply Forall_app|]. split; [exact Hk'|]. by apply pending_nil.
Qed.

(** Bytes go behind those that wait. *)
Lemma store_pending pend bytes g :
  zlen (buf_ g) = 16 -> pending pend g -> zlen (pend ++ bytes) <= 16 ->
  exists buf, store (buf_used_ g) bytes (buf_ g) = Some buf /\ zlen buf = 16 /\
    take (length (pend ++ bytes)) buf = pend ++ bytes.
Proof.
  intros Hb (Hu & _ & _ & Ht) Hz. rewrite zlen_app in Hz.
  assert (E : buf_ g = pend ++ drop (length pend) (buf_ g)) by (rewrite <- Ht at 1; by rewrite take_drop).
  destruct (split_at (length bytes) (drop (length pend) (buf_ g))) as (old & post & E2 & Hl).
  { rewrite length_drop. unfold zlen in *. lia. }
  rewrite E2 in E. exists (pend ++ bytes ++ post). rewrite E, <- Hu. split; [by apply store_app|].
  rewrite E, !zlen_app in Hb. split; [rewrite !zlen_app; unfold zlen in *; lia|]. by rewrite app_assoc, take_app_length.
Qed.

Lemma pending_fun pend pend' g : pending pend g -> pending pend' g -> pend' = pend.
Proof. intros (H1 & _ & _ & H2) (H1' & _ & _ & H2'). rewrite <- H2, <- H2'. f_equal. unfold zlen in *. lia. Qed.

Lemma update_buf_spec start text pend bytes used g :
  absorbed start text g -> pending pend g -> zlen (pend ++ bytes) = 16 -> Forall is_byte bytes ->
  exists buf g', store (buf_used_ g) bytes (buf_ g) = Some buf /\
    update_buf (g <| buf_ := buf |> <| buf_used_ := used |>) = Some g' /\
    absorbed start (text ++ bytes) g' /\ buf_used_ g' = 0 /\ same_counts g g'.
Proof.
  intros (bs & pend' & -> & Hbs & (Ht & Hy & Ey & Hbuf) & Hp') Hp Hz Hb.
  rewrite (pending_fun _ _ _ Hp Hp'). clear Hp'.
  destruct (store_pending pend bytes g Hbuf Hp) as (buf & E & Hl & Htake); [lia|].
  assert (buf = pend ++ bytes) as ->.
  { rewrite <- Htake. symmetry. apply take_ge. unfold zlen in *. lia. }
  assert (Hblock : block (pend ++ bytes)) by (split; [done|]; apply Forall_app; split; [apply Hp|done]).
  set (g1 := g <| buf_ := pend ++ bytes |> <| buf_used_ := used |>).
  assert (Hl1 : lies (pend ++ bytes) 0 (concat [pend ++ bytes])) by (cbn [concat]; rewrite app_nil_r; apply lies_all).
  destruct (UpdateBlocks_spec [pend ++ bytes] (pend ++ bytes) 0 (val (y_ g)) g1 Hl1 ltac:(by constructor)
    (conj Ht (conj Hy (conj eq_refl Hz)))) as (z & Eu & Hk).
  exists (pend ++ bytes), (g1 <| y_ := z |> <| buf_used_ := 0 |>). split; [done|].
  split; [fold g1; unfold update_buf; change (buf_ g1) with (pend ++ bytes); cbn [length] in Eu; by rewrite Eu|].
  split; [|by repeat split]. exists (bs ++ [pend ++ bytes]), [].
  rewrite concat_app, map_app, GHASH_app, <- Ey. cbn [concat]. rewrite !app_nil_r, app_assoc.
  split; [done|]. split; [apply Forall_app; split; [done|by constructor]|]. split; [exact Hk|]. by apply pending_nil.
Qed.

Lemma fill_buf_spec start text data g :
  absorbed start text g -> Forall is_byte data ->
  exists p g', fill_buf data (zlen data) g = Some (p, g') /\ 0 <= p <= zlen data /\
    absorbed start (text ++ take (Z.to_nat p) data) g' /\ (buf_used_ g' = 0 \/ p = zlen data) /\ same_counts g g'.
Proof.
  intros Ha Hd. pose proof Ha as (bs & pend & Etext & Hbs & Hk & Hp). pose proof Hp as (Hu & H16 & Hpb & _).
  pose proof (zlen_nonneg pend). pose proof (zlen_nonneg data). unfold fill_buf, sizeof_buf.
  destruct (Z.ltb_spec 0 (buf_used_ g)).
  2:{ exists 0, g. rewrite app_nil_r. split_and!; [done|lia|lia|done|left; lia|done..]. }
  set (n := Z.min (zlen data) (16 - buf_used_ g)).
  destruct (load_total data 0 n) as [bytes Hload]; [lia|lia|unfold zlen in *; lia|]. rewrite Hload. cbn [mbind option_bind].
  assert (Eb : bytes = take (Z.to_nat n) data) by (unfold load in Hload; destruct (_ && _); by simplify_eq).
  assert (Hn : zlen bytes = n) by (rewrite Eb; apply zlen_take; lia).
  assert (Hb : Forall is_byte bytes) by (rewrite Eb; by apply Forall_take).
  assert (Hz : zlen (pend ++ bytes) = buf_used_ g + n) by (rewrite zlen_app; lia).
  destruct (decide (buf_used_ g + n = 16)) as [E|E].
  - destruct (update_buf_spec start text pend bytes (buf_used_ g + n) g Ha Hp ltac:(lia) Hb)
      as (buf & g' & -> & Eu & Ha' & Hu' & Hs). cbn [mbind option_bind].
    change (buf_used_ (g <| buf_ := buf |> <| buf_used_ := buf_used_ g + n |>)) with (buf_used_ g + n).
    rewrite (proj2 (Z.eqb_eq _ _) E), Eu. cbn [mbind option_bind]. exists n, g'. rewrite <- Eb. split_and!; try done; [lia..|by left].
  - destruct (store_pending pend bytes g ltac:(apply Hk) Hp ltac:(lia)) as (buf & -> & Hl & Ht). cbn [mbind option_bind].
    change (buf_used_ (g <| buf_ := buf |> <| buf_used_ := buf_used_ g + n |>)) with (buf_used_ g + n).
    rewrite (proj2 (Z.eqb_neq _ _) E). cbn [mbind option_bind]. exists n. eexists. split; [reflexivity|]. rewrite <- Eb.
    split; [lia|]. split; [|split; [right; lia|done]]. exists bs, (pend ++ bytes). rewrite Etext, app_assoc.
    split; [done|]. split; [done|]. split; [destruct Hk as (Hk1 & Hk2 & Hk3 & _); exact (conj Hk1 (conj Hk2 (conj Hk3 Hl)))|].
    split; [cbn; lia|]. split; [lia|]. split; [by apply Forall_app|done].
Qed.

(** Whole blocks, and what is left. *)
Lemma chop l : Forall is_byte l ->
  exists bs rest, l = concat bs ++ rest /\ Forall block bs /\ zlen rest < 16 /\ zlen bs = zlen l / 16.
Proof.
  remember (length l) as n eqn:En. revert l En. induction n as [n IH] using lt_wf_ind. intros l -> Hl.
  destruct (decide (zlen l < 16)) as [Hlt|Hge].
  - exists [], l. pose proof (zlen_nonneg l). by rewrite Z.div_small.
  - destruct (split_at 16 l) as (b & l' & -> & Hb); [unfold zlen in Hge; lia|]. apply Forall_app in Hl as [Hb' Hl'].
    destruct (IH (length l') ltac:(rewrite length_app; lia) l' eq_refl Hl') as (bs & rest & -> & Hbs & Hr & Hz).
    exists (b :: bs), rest. cbn [concat]. rewrite <- app_assoc. split; [done|]. split; [constructor; [split; [unfold zlen; lia|done]|done]|].
    split; [done|]. rewrite zlen_app. replace (zlen b + zlen (concat bs ++ rest)) with (zlen (concat bs ++ rest) + 1 * 16) by (unfold zlen; lia).
    rewrite Z.div_add, <- Hz by lia. unfold zlen. cbn [length]. lia.
Qed.

Lemma block_sizes bs : Forall block bs -> Forall (fun b => zlen b = 16) bs.
Proof. intros Hbs. eapply Forall_impl; [exact Hbs|]. by intros b [? _]. Qed.

Lemma same_counts_trans g1 g2 g3 : same_counts g1 g2 -> same_counts g2 g3 -> same_counts g1 g3.
Proof. unfold same_counts. intuition congruence. Qed.

(** The blocks that are whole are taken from the data. *)
Lemma whole_blocks start text data p g :
  absorbed start text g -> Forall is_byte data -> 0 <= p <= zlen data -> buf_used_ g = 0 \/ p = zlen data ->
  exists whole rest g', drop (Z.to_nat p) data = whole ++ rest /\ zlen rest < 16 /\
    (if 16 <=? zlen data - p
     then g ← UpdateBlocks data p (Z.to_nat ((zlen data - p) / 16)) g;
          Some (p + (zlen data - p) / 16 * 16, zlen data - p - (zlen data - p) / 16 * 16, g)
     else Some (p, zlen data - p, g)) = Some (p + zlen whole, zlen rest, g') /\
    absorbed start (text ++ whole) g' /\ (buf_used_ g' = 0 \/ rest = []) /\ same_counts g g'.
Proof.
  intros Ha Hd Hp Hu. destruct (chop (drop (Z.to_nat p) data) (Forall_drop _ _ _ Hd)) as (bs & rest & E & Hbs & Hr & Hz).
  rewrite zlen_drop in Hz by done. exists (concat bs), rest.
  assert (Hzr : zlen (concat bs) + zlen rest = zlen data - p) by (by rewrite <- zlen_app, <- E, zlen_drop).
  rewrite zlen_concat in * by (by apply block_sizes). destruct (Z.leb_spec 16 (zlen data - p)).
  - destruct (absorb_blocks start text bs data p g Ha) as (g2 & Eu & Ha2 & Hu2 & Hs2); [lia| |done|].
    { exists (take (Z.to_nat p) data), rest. by rewrite <- E, take_drop, zlen_take. }
    exists g2. rewrite <- Hz. replace (Z.to_nat (zlen bs)) with (length bs) by (unfold zlen; lia).
    rewrite Eu. cbn [mbind option_bind]. split_and!; try done; [|by left]. by replace (zlen data - p - zlen bs * 16) with (zlen rest) by lia; rewrite Z.mul_comm.
  - rewrite Z.div_small in Hz by lia. rewrite (zlen_nil bs Hz) in *. change (zlen []) with 0 in *. cbn [concat].
    exists g. rewrite app_nil_r. split_and!; try done; [by replace (zlen rest) with (zlen data - p) by lia; rewrite Z.add_0_r|].
    destruct Hu as [?|?]; [by left|right]. apply zlen_nil. pose proof (zlen_nonneg rest). lia.
Qed.

(** The rest waits. *)
Lemma keep_rest start text data p rest g :
  absorbed start text g -> lies data p rest -> zlen rest < 16 -> Forall is_byte rest -> buf_used_ g = 0 \/ rest = [] ->
  exists g', (if 0 <? zlen rest then
      bytes ← load data p (zlen rest);
      buf ← store 0 bytes (buf_ g);
      Some (g <| buf_ := buf |> <| buf_used_ := zlen rest |>)
    else Some g) = Some g' /\ absorbed start (text ++ rest) g' /\ same_counts g g'.
Proof.
  intros Ha Hl H16 Hb Hu. pose proof (zlen_nonneg rest). destruct (Z.ltb_spec 0 (zlen rest)).
  2:{ rewrite (zlen_nil rest) by lia. exists g. by rewrite app_nil_r. }
  assert (Hu0 : buf_used_ g = 0) by (destruct Hu as [?| ->]; [done|by unfold zlen in *]).
  destruct Ha as (bs & pend & E & Hbs & (Hk1 & Hk2 & Hk3 & Hk4) & Hpend).
  rewrite (pending_fun _ _ _ (pending_nil _ Hu0) Hpend), app_nil_r in E.
  destruct Hl as (pre & post & Ed & Hpre). rewrite Ed, load_app by done. cbn [mbind option_bind].
  destruct (store_pending [] rest g Hk4 (pending_nil _ Hu0)) as (buf & Es & Hl & Ht); [cbn [app]; lia|].
  rewrite Hu0 in Es. rewrite Es. cbn [mbind option_bind]. eexists. split; [reflexivity|]. split; [|done].
  exists bs, rest. rewrite E. split; [done|]. split; [done|].
  split; [exact (conj Hk1 (conj Hk2 (conj Hk3 Hl)))|]. by split_and!.
Qed.

Lemma Update_spec start text data g :
  absorbed start text g -> Forall is_byte data ->
  exists g', Update data (zlen data) g = Some g' /\ absorbed start (text ++ data) g' /\ same_counts g g'.
Proof.
  intros Ha Hd. unfold Update.
  destruct (fill_buf_spec start text data g Ha Hd) as (p & g1 & -> & Hp & Ha1 & Hu1 & Hs1). cbn [mbind option_bind].
  destruct (whole_blocks start _ data p g1 Ha1 Hd Hp Hu1) as (whole & rest & g2 & E & Hr & -> & Ha2 & Hu2 & Hs2).
  cbn [mbind option_bind]. pose proof (take_drop (Z.to_nat p) data) as Ed. rewrite E in Ed.
  destruct (keep_rest start _ data (p + zlen whole) rest g2 Ha2) as (g3 & -> & Ha3 & Hs3); [|done| |done|].
  - exists (take (Z.to_nat p) data ++ whole), []. rewrite app_nil_r, zlen_app, zlen_take by done. by rewrite <- app_assoc.
  - rewrite <- Ed in Hd. apply Forall_app in Hd as [_ Hd]. by apply Forall_app in Hd as [_ Hd].
  - exists g3. split; [done|]. split; [|by eapply same_counts_trans, same_counts_trans].
    rewrite <- Ed. by rewrite <- !app_assoc in Ha3.
Qed.

(** Nothing waits: the text is in the hash. *)
Lemma absorbed_whole start text g :
  absorbed start text g -> buf_used_ g = 0 -> keyed (GHASH key (blocks text) start) g.
Proof.
  intros (bs & pend & -> & Hbs & Hk & Hp) Hu. rewrite (pending_fun _ _ _ (pending_nil _ Hu) Hp).
  rewrite blocks_concat by (done || by apply block_sizes). cbn [zlen length]. change (zlen [] =? 0) with true.
  cbn [Z.eqb]. by rewrite app_nil_r.
Qed.

(** The zeros that fill the last block count as it does. *)
Lemma blocks_padded bs pend : Forall (fun b => zlen b = 16) bs -> 0 < zlen pend < 16 ->
  blocks ((concat bs ++ pend) ++ repeat 0 (16 - length pend)) = blocks (concat bs ++ pend).
Proof.
  intros Hbs Hp. rewrite blocks_concat, (proj2 (Z.eqb_neq _ _)) by (done || lia).
  assert (Hz : zlen (padded pend) = 16) by (unfold padded; rewrite zlen_app; unfold zlen in *; rewrite repeat_length; lia).
  assert (E : (concat bs ++ pend) ++ repeat 0 (16 - length pend) = concat (bs ++ [padded pend]) ++ []).
  { rewrite concat_app. cbn [concat]. by rewrite !app_nil_r, <- app_assoc. }
  rewrite E, blocks_concat; [|apply Forall_app; by repeat constructor|done]. change (zlen [] =? 0) with true.
  cbn [Z.eqb]. by rewrite app_nil_r, map_app.
Qed.

Lemma pad_buf_spec start text g :
  absorbed start text g ->
  exists g', pad_buf g = Some g' /\ keyed (GHASH key (blocks text) start) g' /\ buf_used_ g' = 0 /\ same_counts g g'.
Proof.
  intros Ha. pose proof Ha as (bs & pend & -> & Hbs & _ & Hp). pose proof Hp as (Hu & H16 & _).
  unfold pad_buf, sizeof_buf. pose proof (zlen_nonneg pend). destruct (Z.ltb_spec 0 (buf_used_ g)).
  - replace (Z.to_nat (16 - buf_used_ g)) with (16 - length pend)%nat by (unfold zlen in Hu; lia).
    destruct (update_buf_spec start _ pend (repeat 0 (16 - length pend)) (buf_used_ g) g Ha Hp)
      as (buf & g' & -> & Eu & Ha' & Hu' & Hs).
    { unfold zlen in *. rewrite length_app, repeat_length. lia. }
    { apply Forall_forall. intros b Hb. by apply list_elem_of_In, repeat_spec in Hb as ->. }
    cbn [mbind option_bind]. exists g'. split; [exact Eu|]. split; [|done].
    rewrite <- blocks_padded by (by apply block_sizes || lia). by apply absorbed_whole.
  - exists g. split; [done|]. split; [|split; [lia|done]]. apply absorbed_whole; [done|lia].
Qed.
End Object.

(** ** A message *)

(** The calls that hash a message: pieces of additional data, pieces of the
    ciphertext, and the end. *)
Definition updates (update : list Z -> Z -> GaloisHash -> option GaloisHash) (pieces : list (list Z))
    (g : GaloisHash) : option GaloisHash :=
  fold_left (fun g data => g ← g; update data (zlen data) g) pieces (Some g).
Definition hash_message (result_tmp output : list Z) (len : Z) (additional ciphertext : list (list Z)) (g : GaloisHash)
    : option (list Z * GaloisHash) :=
  g ← updates UpdateAdditional additional g;
  g ← updates UpdateCiphertext ciphertext g;
  Finish result_tmp output len g.

Section Message.
Context (key : Z).

(** What has been hashed so far. *)
Definition taken (additional ciphertext : list Z) (g : GaloisHash) : Prop :=
  (state_ g = kHashingAdditionalData /\ ciphertext = [] /\ absorbed key 0 additional g \/
   state_ g = kHashingCiphertext /\ absorbed key (GHASH key (blocks additional) 0) ciphertext g) /\
  additional_bytes_ g = u64 (zlen additional) /\ ciphertext_bytes_ g = u64 (zlen ciphertext).

Lemma u64_add a b : u64 (u64 a + b) = u64 (a + b).
Proof. unfold wrap_u. by rewrite Zplus_mod_idemp_l. Qed.

Lemma UpdateAdditional_spec additional data g :
  taken additional [] g -> state_ g = kHashingAdditionalData -> Forall is_byte data ->
  exists g', UpdateAdditional data (zlen data) g = Some g' /\
    taken (additional ++ data) [] g' /\ state_ g' = kHashingAdditionalData.
Proof.
  intros [[(_ & _ & Ha)|[Hs _]] [H1 H2]] Hs' Hd; [|congruence]. unfold UpdateAdditional. rewrite Hs', DCHECK_bind. cbn [enum_eqb enum_val State_enum Z.eqb].
  set (g1 := g <| additional_bytes_ := _ |>).
  destruct (Update_spec key 0 additional data g1 Ha Hd) as (g' & E & Ha' & Hst & Hc1 & Hc2). exists g'. split; [exact E|].
  split; [|by rewrite Hst]. split; [left; split_and!; [by rewrite Hst|done|done]|]. rewrite Hc1, Hc2. cbn.
  by rewrite H1, u64_add, zlen_app.
Qed.

Lemma UpdateCiphertext_spec additional ciphertext data g :
  taken additional ciphertext g -> Forall is_byte data ->
  exists g', UpdateCiphertext data (zlen data) g = Some g' /\ taken additional (ciphertext ++ data) g'.
Proof.
  intros [Hst [H1 H2]] Hd. unfold UpdateCiphertext.
  assert (exists g1, (if state_ g == kHashingAdditionalData
      then g ← pad_buf g; Some (g <| state_ := kHashingCiphertext |>) else Some g) = Some g1 /\
    state_ g1 = kHashingCiphertext /\ absorbed key (GHASH key (blocks additional) 0) ciphertext g1 /\
    additional_bytes_ g1 = additional_bytes_ g /\ ciphertext_bytes_ g1 = ciphertext_bytes_ g)
    as (g1 & -> & Hs1 & Ha1 & Hc1 & Hc2).
  { destruct Hst as [(Hs & -> & Ha)|[Hs Ha]]; rewrite Hs.
    - destruct (pad_buf_spec key 0 additional g Ha) as (g1 & E & Hk & Hu & _ & Hc1 & Hc2).
      cbn [enum_eqb enum_val State_enum Z.eqb]. rewrite E. cbn [mbind option_bind]. eexists. split; [reflexivity|].
      split; [done|]. split; [|by split]. exists [], []. split; [done|]. split; [constructor|]. split; [exact Hk|].
      by apply pending_nil.
    - exists g. by split_and!. }
  cbn [mbind option_bind]. rewrite DCHECK_bind, Hs1. cbn [enum_eqb enum_val State_enum Z.eqb].
  set (g2 := g1 <| ciphertext_bytes_ := _ |>).
  destruct (Update_spec key _ ciphertext data g2 Ha1 Hd) as (g' & E & Ha' & Hs' & Hc1' & Hc2'). exists g'. split; [exact E|].
  split; [right; by split; [rewrite Hs'|]|]. rewrite Hc1', Hc2'. cbn. rewrite Hc1, Hc2, H1, H2. by rewrite u64_add, zlen_app.
Qed.

Lemma updates_app f xs x g : updates f (xs ++ [x]) g = (g ← updates f xs g; f x (zlen x) g).
Proof. unfold updates. by rewrite fold_left_app. Qed.

Lemma updates_spec f P : (forall text data g, P text g -> Forall is_byte data -> exists g', f data (zlen data) g = Some g' /\ P (text ++ data) g') ->
  forall pieces text g, P text g -> Forall (Forall is_byte) pieces ->
  exists g', updates f pieces g = Some g' /\ P (text ++ concat pieces) g'.
Proof.
  intros Hf pieces. induction pieces as [|x xs IH] using rev_ind; intros text g Hg Hb.
  - exists g. by rewrite app_nil_r.
  - apply Forall_app in Hb as [Hb Hx]. apply Forall_cons in Hx as [Hx _].
    destruct (IH text g Hg Hb) as (g1 & E1 & H1). destruct (Hf _ x g1 H1 Hx) as (g2 & E2 & H2).
    exists g2. rewrite updates_app, E1. split; [exact E2|]. rewrite concat_app, app_assoc. cbn [concat]. by rewrite app_nil_r.
Qed.

(** *** The end *)
Lemma be_bytes_app n m v : be_bytes (n + m) v = be_bytes n (v / 256 ^ Z.of_nat m) ++ be_bytes m v.
Proof.
  revert v. induction m as [|m IH]; intros v.
  - by rewrite Nat.add_0_r, Z.pow_0_r, Z.div_1_r, app_nil_r.
  - rewrite Nat.add_succ_r. cbn [be_bytes]. rewrite IH, <- app_assoc. do 2 f_equal.
    rewrite Nat2Z.inj_succ, Z.pow_succ_r, Z.div_div by lia. done.
Qed.

Lemma be_bytes_low n a b : be_bytes n (a + b * 256 ^ Z.of_nat n) = be_bytes n a.
Proof.
  revert a b. induction n as [|n IH]; intros a b; [done|]. cbn [be_bytes].
  rewrite Nat2Z.inj_succ, Z.pow_succ_r by lia. replace (b * (256 * 256 ^ Z.of_nat n)) with (b * 256 ^ Z.of_nat n * 256) by ring.
  rewrite Z.div_add, Z.mod_add by lia. by rewrite IH.
Qed.

Lemma element_bytes y : fe_ok y -> be_bytes 8 (low y) ++ be_bytes 8 (hi y) = be_bytes 16 (val y).
Proof.
  intros [Hl Hh]. unfold in_u in *. rewrite (be_bytes_app 8 8). unfold val. change (256 ^ Z.of_nat 8) with (2 ^ 64).
  rewrite Z.div_add, Z.div_small by lia. f_equal. symmetry. exact (be_bytes_low 8 (hi y) (low y)).
Qed.

(** Two words into memory. *)
Lemma Put64_twice y memory : fe_ok y -> 16 <= zlen memory ->
  (result ← Put64 0 (low y) memory; Put64 8 (hi y) result) = Some (be_bytes 16 (val y) ++ drop 16 memory).
Proof.
  intros Hy Hm. destruct (split_at 8 memory) as (m1 & m' & -> & H1); [unfold zlen in Hm; lia|]. rewrite zlen_app in Hm.
  destruct (split_at 8 m') as (m2 & m3 & -> & H2); [unfold zlen in Hm; lia|]. unfold Put64.
  rewrite store_head by (by rewrite length_be_bytes). cbn [mbind option_bind].
  rewrite (store_app (be_bytes 8 (low y)) m2 m3) by (by rewrite ?length_be_bytes).
  rewrite app_assoc, element_bytes by done. do 2 f_equal.
  rewrite app_assoc. replace 16%nat with (length (m1 ++ m2)) by (rewrite length_app; lia). by rewrite drop_app_length.
Qed.

(** The hash with its last block: how many bits there are. *)
Definition sizes (additional ciphertext : list Z) : Z :=
  u64 (8 * zlen additional) * 2 ^ 64 + u64 (8 * zlen ciphertext).

Lemma sizes_val a c : fe_ok (mkFieldElement (u64 (u64 a * 8)) (u64 (u64 c * 8))) /\
  val (mkFieldElement (u64 (u64 a * 8)) (u64 (u64 c * 8))) = u64 (8 * a) * 2 ^ 64 + u64 (8 * c).
Proof.
  assert (E : forall z, u64 (u64 z * 8) = u64 (8 * z)) by (intros z; unfold wrap_u; by rewrite Zmult_mod_idemp_l, Z.mul_comm).
  rewrite !E. split; [split; by apply wrap_u_range|]. unfold val. cbn [low hi]. lia.
Qed.

Lemma Finish_spec additional ciphertext result_tmp output len g :
  taken additional ciphertext g -> zlen result_tmp = 16 -> 0 <= len -> Z.min len 16 <= zlen output ->
  let digest := be_bytes 16 (GHASH key (blocks additional ++ blocks ciphertext ++ [sizes additional ciphertext]) 0) in
  let n := Z.to_nat (Z.min len 16) in
  exists g', Finish result_tmp output len g = Some (take n digest ++ drop n output, g') /\
    state_ g' = kComplete /\ table_ok key (product_table_ g') /\ zlen (buf_ g') = 16.
Proof.
  intros [Hst [H1 H2]] Ht Hl Ho digest n.
  assert (exists g1, pad_buf g = Some g1 /\ keyed key (GHASH key (blocks additional ++ blocks ciphertext) 0) g1 /\
    same_counts g g1 /\ (state_ g != kComplete) = true) as (g1 & Ep & (Hk1 & Hk2 & Hk3 & Hk4) & (_ & Hc1 & Hc2) & Hs).
  { destruct Hst as [(Hs & -> & Ha)|[Hs Ha]]; destruct (pad_buf_spec _ _ _ _ Ha) as (g1 & E & Hk & _ & Hsc);
      exists g1; (split; [exact E|]); rewrite Hs; (split; [|done]).
    - change (blocks []) with (@nil Z). by rewrite app_nil_r.
    - by rewrite GHASH_app. }
  unfold Finish. rewrite DCHECK_bind, Hs, Ep. cbn [mbind option_bind].
  change (additional_bytes_ (g1 <| state_ := kComplete |>)) with (additional_bytes_ g1).
  change (ciphertext_bytes_ (g1 <| state_ := kComplete |>)) with (ciphertext_bytes_ g1).
  change (y_ (g1 <| state_ := kComplete |>)) with (y_ g1). rewrite Hc1, Hc2, H1, H2.
  destruct (sizes_val (zlen additional) (zlen ciphertext)) as [Hz Ez].
  destruct (Add_val (y_ g1) _ Hk2 Hz) as [Ha Ea]. unfold Add in Ha, Ea. cbn [low hi] in Ha, Ea.
  destruct (MulAfterPrecomputation_val key _ _ Hk1 Ha) as (y & Ey & Hy & Ev).
  change (product_table_ (g1 <| state_ := kComplete |>)) with (product_table_ g1). rewrite Ey. cbn [mbind option_bind].
  assert (Ed : be_bytes 16 (val y) = digest).
  { unfold digest. rewrite (app_assoc (blocks additional)), GHASH_app, GHASH_cons, GHASH_nil, Ev, Ea, Ez, Hk3. reflexivity. }
  set (g2 := g1 <| state_ := kComplete |> <| y_ := y |>). exists g2.
  split; [|split; [done|split; [exact Hk1|exact Hk4]]]. unfold n.
  destruct (Z.leb_spec 16 len) as [H16|H16].
  - pose proof (Put64_twice y output Hy ltac:(lia)) as Hput. rewrite Ed in Hput.
    destruct (Put64 0 (low y) output) as [r|]; [|done]. cbn [mbind option_bind] in Hput |- *. rewrite Hput. cbn [mbind option_bind].
    rewrite (proj2 (Z.ltb_ge len 16)) by lia. cbn [mbind option_bind]. rewrite Z.min_r by lia.
    by rewrite (take_ge digest) by (unfold digest; by rewrite length_be_bytes).
  - pose proof (Put64_twice y result_tmp Hy ltac:(lia)) as Hput. rewrite Ed, drop_ge, app_nil_r in Hput by (unfold zlen in Ht; lia).
    destruct (Put64 0 (low y) result_tmp) as [r|]; [|done]. cbn [mbind option_bind] in Hput |- *. rewrite Hput. cbn [mbind option_bind].
    rewrite (proj2 (Z.ltb_lt len 16)), Z.min_l by lia.
    assert (Hd : length digest = 16%nat) by (unfold digest; by rewrite length_be_bytes).
    rewrite <- (take_drop (Z.to_nat len) digest) at 1. rewrite load_head by (rewrite length_take; lia). cbn [mbind option_bind].
    rewrite Z.min_l in Ho by lia. rewrite <- (take_drop (Z.to_nat len) output) at 1.
    rewrite store_head by (rewrite !length_take; unfold zlen in Ho; lia). done.
Qed.

Lemma taken_start g :
  table_ok key (product_table_ g) -> zlen (buf_ g) = 16 -> taken [] [] (Reset g) /\ state_ (Reset g) = kHashingAdditionalData.
Proof.
  intros Ht Hb. split; [|done]. split; [|done]. left. split; [done|]. split; [done|]. exists [], [].
  split; [done|]. split; [constructor|]. split; [by repeat split; try apply Ht|]. by apply pending_nil.
Qed.

Lemma hash_message_spec result_tmp output len additional ciphertext g :
  taken [] [] g -> state_ g = kHashingAdditionalData ->
  Forall (Forall is_byte) additional -> Forall (Forall is_byte) ciphertext ->
  zlen result_tmp = 16 -> 0 <= len -> Z.min len 16 <= zlen output ->
  let a := concat additional in let c := concat ciphertext in
  let digest := be_bytes 16 (GHASH key (blocks a ++ blocks c ++ [sizes a c]) 0) in
  let n := Z.to_nat (Z.min len 16) in
  exists g', hash_message result_tmp output len additional ciphertext g = Some (take n digest ++ drop n output, g') /\
    table_ok key (product_table_ g') /\ zlen (buf_ g') = 16.
Proof.
  intros Hg Hs Ha Hc Ht Hl Ho a c digest n. unfold hash_message.
  destruct (updates_spec UpdateAdditional (fun t g => taken t [] g /\ state_ g = kHashingAdditionalData)) with
    (pieces := additional) (text := @nil Z) (g := g) as (g1 & E1 & H1 & _); [|done|done|].
  { intros text data g0 [H1 H2] Hd. by apply UpdateAdditional_spec. }
  rewrite E1. cbn [mbind option_bind].
  destruct (updates_spec UpdateCiphertext (taken a)) with (pieces := ciphertext) (text := @nil Z) (g := g1) as (g2 & E2 & H2); [|done|done|].
  { intros text data g0 H2 Hd. by apply UpdateCiphertext_spec. }
  rewrite E2. cbn [mbind option_bind].
  destruct (Finish_spec a c result_tmp output len g2 H2 Ht Hl Ho) as (g3 & E3 & _ & H3 & H4). by exists g3.
Qed.
End Message.

Lemma new_GaloisHash_spec memory key :
  zlen key = 16 -> Forall is_byte key -> zlen (product_table_ memory) = 16 ->
  exists table, new_GaloisHash memory key = Some (Reset (memory <| product_table_ := table |>)) /\
    table_ok (be_value key) table.
Proof.
  intros Hk Hb Hm. destruct (block_val key 0 key (lies_all key) Hb Hk) as (b1 & b2 & E1 & E2 & Hok & Ev).
  change (0 + 8) with 8 in E2. destruct (new_table_ok _ (product_table_ memory) Hok Hm) as (table & E & Ht). rewrite Ev in Ht.
  exists table. split; [|done]. unfold new_GaloisHash. rewrite E1. cbn [mbind option_bind]. rewrite E2. cbn [mbind option_bind].
  change (product_table_ (Reset memory)) with (product_table_ memory). revert E.
  destruct (put (product_table_ memory) 0 _) as [t1|]; [|done]. cbn [mbind option_bind].
  destruct (put t1 (Reverse 1) _) as [t2|]; [|done]. cbn [mbind option_bind]. intros ->. done.
Qed.

(** A message in pieces, how many bytes of the digest are asked for, and the
    memory they go to. *)
Record Message := mkMessage {
  additional_pieces : list (list Z);
  ciphertext_pieces : list (list Z);
  digest_len : Z;
  digest_memory : list Z
}.
Definition message_ok (m : Message) : Prop :=
  Forall (Forall is_byte) (additional_pieces m) /\ Forall (Forall is_byte) (ciphertext_pieces m) /\
  0 <= digest_len m /\ Z.min (digest_len m) 16 <= zlen (digest_memory m).
Definition expected (key : list Z) (m : Message) : list Z :=
  let n := Z.to_nat (Z.min (digest_len m) 16) in
  take n (be_bytes 16 (ghash key (concat (additional_pieces m)) (concat (ciphertext_pieces m)))) ++
  drop n (digest_memory m).

(** One message after the other, with [Reset] between them. *)
Fixpoint hash_messages (result_tmp : list Z) (messages : list Message) (g : GaloisHash) : option (list (list Z)) :=
  match messages with
  | [] => Some []
  | m :: messages =>
      '(output, g) ← hash_message result_tmp (digest_memory m) (digest_len m) (additional_pieces m) (ciphertext_pieces m) g;
      outputs ← hash_messages result_tmp messages (Reset g);
      Some (output :: outputs)
  end.

Lemma hash_messages_spec key result_tmp messages :
  zlen result_tmp = 16 -> Forall message_ok messages ->
  forall g, table_ok (be_value key) (product_table_ g) -> zlen (buf_ g) = 16 ->
  hash_messages result_tmp messages (Reset g) = Some (map (expected key) messages).
Proof.
  intros Ht. induction 1 as [|m ms (Ha & Hc & Hl & Ho) _ IH]; intros g Hg Hb; [done|]. cbn [hash_messages map].
  destruct (taken_start _ g Hg Hb) as [Hs Hst].
  destruct (hash_message_spec _ result_tmp (digest_memory m) (digest_len m) _ _ _ Hs Hst Ha Hc Ht Hl Ho) as (g' & E & Hg' & Hb').
  rewrite E. cbn [mbind option_bind]. rewrite IH by done. done.
Qed.

(** C29. The object computes GHASH. For any key, whatever the memory of the
    object held, messages hashed one after the other with Reset between them,
    each handed over in pieces of any sizes, first additional data and then
    ciphertext, give the bytes that are asked for of the function that NIST SP
    800-38D defines by multiplying bit by bit; all checks hold, and nothing is
    read or written outside of the arrays. *)
Theorem digests_are_those_of_the_specification memory key result_tmp messages :
  zlen key = 16 -> Forall is_byte key -> zlen (product_table_ memory) = 16 -> zlen (buf_ memory) = 16 ->
  zlen result_tmp = 16 -> Forall message_ok messages ->
  (g ← new_GaloisHash memory key; hash_messages result_tmp messages g) = Some (map (expected key) messages).
Proof.
  intros Hk Hb Hm Hbuf Ht Hms. destruct (new_GaloisHash_spec memory key Hk Hb Hm) as (table & E & Htable).
  rewrite E. cbn [mbind option_bind]. by apply hash_messages_spec.
Qed.

Definition example_key : list Z :=
  [0x66; 0xe9; 0x4b; 0xd4; 0xef; 0x8a; 0x2c; 0x3b; 0x88; 0x4c; 0xfa; 0x59; 0xca; 0x34; 0x2b; 0x2e].
(** Test case 2 of the GCM specification, in two pieces, and a short digest. *)
Definition example_messages : list Message :=
  [mkMessage [] [[0x03; 0x88; 0xda; 0xce; 0x60]; [0xb6; 0xa3; 0x92; 0xf3; 0x28; 0xc2; 0xb9; 0x71; 0xb2; 0xfe; 0x78]] 16 (repeat 7 16);
   mkMessage [repeat 1 17; [2]] [] 3 (repeat 7 4)].
Definition example_memory : GaloisHash :=
  mkGaloisHash (mkFieldElement 1 2) kComplete 3 4 (repeat 5 16) 6 (repeat (mkFieldElement 7 8) 16).

Lemma digests_are_those_of_the_specification_witness :
  (g ← new_GaloisHash example_memory example_key; hash_messages (repeat 9 16) example_messages g) =
    Some (map (expected example_key) example_messages) /\
  map (expected example_key) (take 1 example_messages) =
    [[0xf3; 0x8c; 0xbb; 0x1a; 0xd6; 0x92; 0x23; 0xdc; 0xc3; 0x45; 0x7a; 0xe5; 0xb6; 0xb0; 0xf8; 0x85]].
Proof.
  split; [|vm_compute; reflexivity].
  apply (digests_are_those_of_the_specification example_memory example_key (repeat 9 16) example_messages);
    [reflexivity| |reflexivity|reflexivity|reflexivity|].
  - repeat constructor; unfold is_byte; lia.
  - repeat constructor; cbn; unfold is_byte; lia || (intros; discriminate).
Defined.
