(* ===== verification/HttpChunkedDecoder.v ===== *)
(** The decoder of chunked HTTP bodies: net/http/http_chunked_decoder.cc. It
    takes the chunk markers out of a buffer in place, and keeps a line that
    the end of a buffer cuts for the next call. *)
From S2P Require Import Prelude CArrays Memory NumberConversions.

(* src: net/http/http_chunked_decoder.cc 59-59! kMaxLineBufLen *)
Definition kMaxLineBufLen : Z := 16384.
Definition ERR_INVALID_CHUNKED_ENCODING : Z := -321.
Definition LF : Z := 10.
Definition CR : Z := 13.
Definition space : Z := 32.
Definition semicolon : Z := 59.

(* src: net/http/http_chunked_decoder.h 109-127! HttpChunkedDecoder *)
Record HttpChunkedDecoder := mkHttpChunkedDecoder {
  chunk_remaining_ : Z;
  line_buf_ : list Z;
  chunk_terminator_remaining_ : bool;
  reached_last_chunk_ : bool;
  reached_eof_ : bool;
  bytes_after_eof_ : Z
}.
#[export] Instance eta_HttpChunkedDecoder : Eta HttpChunkedDecoder := fun d =>
  mkHttpChunkedDecoder (chunk_remaining_ d) (line_buf_ d) (chunk_terminator_remaining_ d)
    (reached_last_chunk_ d) (reached_eof_ d) (bytes_after_eof_ d).

(* src: net/http/http_chunked_decoder.cc 61-67! HttpChunkedDecoder::HttpChunkedDecoder *)
Definition new_HttpChunkedDecoder : HttpChunkedDecoder := mkHttpChunkedDecoder 0 [] false false false 0.

(** [StringPiece::find] of a character. *)
Fixpoint find (c : Z) (l : list Z) : option Z :=
  match l with
  | [] => None
  | x :: l => if x =? c then Some 0 else i ← find c l; Some (i + 1)
  end.

(* src: net/http/http_chunked_decoder.cc 196-197! HttpChunkedDecoder::ParseChunkSize *)
Fixpoint strip_spaces (fuel : nat) (start : list Z) (len : Z) : res Z :=
  match fuel with
  | O => NoFuel
  | S fuel =>
      if len =? 0 then Ok len else
      c ← checked (get start (len - 1));
      if c =? space then strip_spaces fuel start (len - 1) else Ok len
  end.

(** The characters of "0123456789abcdefABCDEF". *)
Definition is_hex (c : Z) : bool :=
  ((48 <=? c) && (c <=? 57)) || ((97 <=? c) && (c <=? 102)) || ((65 <=? c) && (c <=? 70)).

(** [None] inside is [false]; [ws] is [LocalIsWhitespace]. *)
(* src: net/http/http_chunked_decoder.cc 192-214! HttpChunkedDecoder::ParseChunkSize *)
Definition ParseChunkSize (ws : Z -> bool) (start : list Z) (len : Z) : res (option Z) :=
  checked (DCHECK (0 <=? len)) ;;
  len ← strip_spaces (S (Z.to_nat len)) start len;
  chunk_size ← checked (load start 0 len);
  if negb (forallb is_hex chunk_size) then Ok None else
  let '(ok, parsed_number) := HexStringToInt ws chunk_size 0 in
  if ok && (0 <=? parsed_number) then Ok (Some parsed_number) else Ok None.

(** A line: an error, or the decoder after it. *)
(* src: net/http/http_chunked_decoder.cc 123-151! HttpChunkedDecoder::ScanForChunkRemaining *)
Definition take_line (ws : Z -> bool) (buf : list Z) (buf_len : Z) (d : HttpChunkedDecoder)
    : res (option Z * HttpChunkedDecoder) :=
  if reached_last_chunk_ d then
    if !(buf_len =? 0) then Ok (None, d) else Ok (None, d <| reached_eof_ := true |>)
  else if chunk_terminator_remaining_ d then
    if !(buf_len =? 0) then Ok (Some ERR_INVALID_CHUNKED_ENCODING, d)
    else Ok (None, d <| chunk_terminator_remaining_ := false |>)
  else if !(buf_len =? 0) then
    line ← checked (load buf 0 buf_len);
    let buf_len := match find semicolon line with Some i => i | None => buf_len end in
    size ← ParseChunkSize ws buf buf_len;
    match size with
    | None => Ok (Some ERR_INVALID_CHUNKED_ENCODING, d)
    | Some size =>
        let d := d <| chunk_remaining_ := size |> in
        Ok (None, if size =? 0 then d <| reached_last_chunk_ := true |> else d)
    end
  else Ok (Some ERR_INVALID_CHUNKED_ENCODING, d).

(** A carriage return at the end does not count. *)
(* src: net/http/http_chunked_decoder.cc 112-113! HttpChunkedDecoder::ScanForChunkRemaining *)
Definition without_cr (buf : list Z) (buf_len : Z) : option Z :=
  if buf_len =? 0 then Some buf_len else
  c ← get buf (buf_len - 1);
  Some (if c =? CR then buf_len - 1 else buf_len).

(** [buf] is what the pointer and the length stand for. *)
(* src: net/http/http_chunked_decoder.cc 103-169! HttpChunkedDecoder::ScanForChunkRemaining *)
Definition ScanForChunkRemaining (ws : Z -> bool) (buf : list Z) (d : HttpChunkedDecoder)
    : res (Z * HttpChunkedDecoder) :=
  checked (DCHECK (0 =? chunk_remaining_ d)) ;;
  checked (DCHECK (0 <? zlen buf)) ;;
  match find LF buf with
  | Some index_of_lf =>
      buf_len ← checked (without_cr buf index_of_lf);
      let bytes_consumed := index_of_lf + 1 in
      '(buf, buf_len, d) ← (if negb (zlen (line_buf_ d) =? 0) then
                              rest ← checked (load buf 0 buf_len);
                              let d := d <| line_buf_ := line_buf_ d ++ rest |> in
                              Ok (line_buf_ d, s32 (zlen (line_buf_ d)), d)
                            else Ok (buf, buf_len, d));
      '(error, d) ← take_line ws buf buf_len d;
      match error with
      | Some error => Ok (error, d)
      | None => Ok (bytes_consumed, d <| line_buf_ := [] |>)
      end
  | None =>
      let bytes_consumed := zlen buf in
      buf_len ← checked (without_cr buf (zlen buf));
      if kMaxLineBufLen <? zlen (line_buf_ d) + buf_len then Ok (ERR_INVALID_CHUNKED_ENCODING, d) else
      rest ← checked (load buf 0 buf_len);
      Ok (bytes_consumed, d <| line_buf_ := line_buf_ d ++ rest |>)
  end.

(** [buf] is an index into the memory. *)
(* src: net/http/http_chunked_decoder.cc 72-98! HttpChunkedDecoder::FilterBuf *)
Fixpoint filter_loop (fuel : nat) (ws : Z -> bool) (memory : list Z) (buf buf_len result : Z) (d : HttpChunkedDecoder)
    : res (Z * list Z * HttpChunkedDecoder) :=
  match fuel with
  | O => NoFuel
  | S fuel =>
      if buf_len =? 0 then Ok (result, memory, d) else
      if !(chunk_remaining_ d =? 0) then
        let num := Z.min (chunk_remaining_ d) buf_len in
        let buf_len := buf_len - num in
        let d := d <| chunk_remaining_ := chunk_remaining_ d - num |> in
        let result := result + num in
        let buf := buf + num in
        let d := if chunk_remaining_ d =? 0 then d <| chunk_terminator_remaining_ := true |> else d in
        filter_loop fuel ws memory buf buf_len result d
      else if reached_eof_ d then
        Ok (result, memory, d <| bytes_after_eof_ := s32 (bytes_after_eof_ d + buf_len) |>)
      else
        piece ← checked (load memory buf buf_len);
        '(bytes_consumed, d) ← ScanForChunkRemaining ws piece d;
        if bytes_consumed <? 0 then Ok (bytes_consumed, memory, d) else
        let buf_len := buf_len - bytes_consumed in
        memory ← (if !(buf_len =? 0) then
                    rest ← checked (load memory (buf + bytes_consumed) buf_len);
                    checked (store buf rest memory)
                  else Ok memory);
        filter_loop fuel ws memory buf buf_len result d
  end.

(** What is returned, and the memory at [buf]. *)
(* src: net/http/http_chunked_decoder.cc 69-101! HttpChunkedDecoder::FilterBuf *)
Definition FilterBuf (ws : Z -> bool) (memory : list Z) (buf_len : Z) (d : HttpChunkedDecoder)
    : res (Z * list Z * HttpChunkedDecoder) :=
  filter_loop (S (Z.to_nat buf_len)) ws memory 0 buf_len 0 d.
