(* ===== verification/HttpChunkedProperties.v ===== *)
(** Chunked bodies are decoded: however the bytes of a body are cut into
    buffers, the data of its chunks come out, and its end is found. *)
From S2P Require Import Prelude CArrays Memory NumberConversions NumberProperties HttpChunkedDecoder.
From Stdlib Require Import ZifyBool.

(** ** The grammar

    As in the comment of the source: lines end with a line feed, which may
    have a carriage return in front; the size of a chunk may have spaces
    behind it and an extension behind a semicolon. *)
Definition eol (e : list Z) : Prop := e = [LF] \/ e = [CR; LF].
Definition line_text (line : list Z) : Prop := (LF ∉ line) /\ zlen line <= kMaxLineBufLen.
Definition hex_number (text : list Z) : Z := num 16 (digits_of 16 text).1 0.

Definition size_line (line : list Z) (n : Z) : Prop :=
  line_text line /\ exists hex spaces ext, line = hex ++ spaces ++ ext /\
    hex <> [] /\ Forall (fun c => is_hex c = true) hex /\ Forall (fun c => c = space) spaces /\
    (ext = [] \/ exists t, ext = semicolon :: t) /\ hex_number hex = n /\ n < 2 ^ 31.

Inductive Mode := SizeLine | TerminatorLine | TrailerLine.

(** What is left of a body from a line on, the data in it, and the bytes
    behind it. *)
Inductive encodes : Mode -> list Z -> list Z -> list Z -> Prop :=
  | encodes_chunk line e data stream body after :
      size_line line (zlen data) -> eol e -> data <> [] -> encodes TerminatorLine stream body after ->
      encodes SizeLine (line ++ e ++ data ++ stream) (data ++ body) after
  | encodes_last line e stream after :
      size_line line 0 -> eol e -> encodes TrailerLine stream [] after ->
      encodes SizeLine (line ++ e ++ stream) [] after
  | encodes_terminator e stream body after :
      eol e -> encodes SizeLine stream body after -> encodes TerminatorLine (e ++ stream) body after
  | encodes_trailer line e stream after :
      line_text line -> (exists c, c ∈ line /\ c <> CR) -> eol e -> encodes TrailerLine stream [] after ->
      encodes TrailerLine (line ++ e ++ stream) [] after
  | encodes_end e after : eol e -> encodes TrailerLine (e ++ after) [] after.

(** ** Lines and carriage returns *)

(** A line without some of its carriage returns. *)
Inductive drops : list Z -> list Z -> Prop :=
  | drops_nil : drops [] []
  | drops_keep c l l' : drops l l' -> drops (c :: l) (c :: l')
  | drops_cr l l' : drops l l' -> drops (CR :: l) l'.

(** Without the one at its end. *)
Definition chomp (l : list Z) : list Z :=
  match rev l with [] => [] | c :: r => if c =? CR then rev r else l end.

Lemma chomp_snoc l c : chomp (l ++ [c]) = if c =? CR then l else l ++ [c].
Proof. unfold chomp. rewrite rev_app_distr. cbn [rev app]. by rewrite rev_involutive. Qed.

Lemma chomp_app s q : q <> [] -> chomp (s ++ q) = s ++ chomp q.
Proof.
  destruct q as [|c q _] using rev_ind; [done|]. intros _. rewrite app_assoc, !chomp_snoc.
  case_match; [done|]. by rewrite app_assoc.
Qed.

Lemma drops_refl l : drops l l.
Proof. induction l; by constructor. Qed.

Lemma drops_app l1 l2 m1 m2 : drops l1 m1 -> drops l2 m2 -> drops (l1 ++ l2) (m1 ++ m2).
Proof. induction 1; intros; [done|constructor; auto..]. Qed.

Lemma drops_trans l m n : drops l m -> drops m n -> drops l n.
Proof.
  intros H. revert n. induction H as [|c l m H IH|l m H IH]; intros n Hn; [done| |by constructor; auto].
  inversion Hn; subst; by constructor; auto.
Qed.

Lemma drops_length l m : drops l m -> zlen m <= zlen l.
Proof. induction 1; unfold zlen in *; cbn [length]; lia. Qed.

Lemma drops_chomp l : drops l (chomp l).
Proof.
  destruct l as [|c l _] using rev_ind; [constructor|]. rewrite chomp_snoc. destruct (Z.eqb_spec c CR) as [->|].
  - rewrite <- (app_nil_r l) at 2. apply drops_app; [apply drops_refl|]. by repeat constructor.
  - apply drops_refl.
Qed.

Lemma drops_clean l m : CR ∉ l -> drops l m -> m = l.
Proof.
  intros Hc. induction 1 as [|c l m _ IH|l m _ _]; [done| |].
  - rewrite elem_of_cons in Hc. rewrite IH; naive_solver.
  - exfalso. apply Hc. by left.
Qed.

Lemma drops_app_inv l1 l2 m : CR ∉ l1 -> drops (l1 ++ l2) m -> exists m2, m = l1 ++ m2 /\ drops l2 m2.
Proof.
  revert m. induction l1 as [|c l1 IH]; intros m Hc Hm; [by exists m|]. rewrite elem_of_cons in Hc. cbn [app] in Hm.
  inversion Hm as [|c' l l' H|l l' H]; subst; [|naive_solver].
  destruct (IH l') as (m2 & -> & H2); [naive_solver|done|]. by exists m2.
Qed.

(** What a line gives after it was put together from pieces. *)
Lemma pieces_of_line s b q : drops (chomp s) b -> drops (chomp (s ++ q)) (b ++ chomp q).
Proof.
  intros Hb. destruct (decide (q = [])) as [->|Hq].
  - by rewrite !app_nil_r.
  - rewrite chomp_app by done. apply drops_app; [|apply drops_refl].
    eapply drops_trans; [apply drops_chomp|done].
Qed.

Lemma without_cr_spec t rest : without_cr (t ++ rest) (zlen t) = Some (zlen (chomp t)).
Proof.
  unfold without_cr. destruct t as [|c t _] using rev_ind; [done|]. rewrite zlen_app. change (zlen [c]) with 1.
  pose proof (zlen_nonneg t). rewrite (proj2 (Z.eqb_neq _ _)) by lia.
  replace (zlen t + 1 - 1) with (zlen t) by lia. rewrite <- app_assoc. cbn [app]. rewrite get_app. cbn [mbind option_bind].
  rewrite chomp_snoc. destruct (c =? CR); [done|]. by rewrite zlen_app.
Qed.

Lemma chomp_prefix t : exists r, t = chomp t ++ r.
Proof.
  destruct t as [|c t _] using rev_ind; [by exists []|]. rewrite chomp_snoc. destruct (Z.eqb_spec c CR); [by exists [c]|].
  exists []. by rewrite app_nil_r.
Qed.

Lemma find_spec c l :
  match find c l with
  | Some i => exists q r, l = q ++ c :: r /\ (c ∉ q) /\ i = zlen q
  | None => c ∉ l
  end.
Proof.
  induction l as [|x l IH]; [apply not_elem_of_nil|]. cbn [find]. destruct (Z.eqb_spec x c) as [->|Hne].
  { exists [], l. by split_and!; [|apply not_elem_of_nil|]. }
  destruct (find c l) as [i|]; cbn [mbind option_bind].
  - destruct IH as (q & r & -> & Hq & ->). exists (x :: q), r. split; [done|]. split; [|unfold zlen; cbn [length]; lia].
    rewrite elem_of_cons. naive_solver.
  - rewrite elem_of_cons. naive_solver.
Qed.

Lemma first_unique (c : Z) u x v y : c ∉ u -> c ∉ v -> u ++ c :: x = v ++ c :: y -> u = v /\ x = y.
Proof.
  revert v. induction u as [|a u IH]; intros [|b v] Hu Hv E; cbn [app] in E; rewrite ?elem_of_cons in *; simplify_eq; try naive_solver.
  destruct (IH v) as [-> ->]; naive_solver.
Qed.

(** ** The size of a chunk *)
Section Decoding.
Context (ws : Z -> bool) (Hws : forall c, is_hex c = true -> ws c = false).

Lemma is_hex_cases c : is_hex c = true -> exists d, CharToDigit 16 c = Some d.
Proof.
  unfold is_hex, CharToDigit. intros Hc. cbn. repeat case_if; try (by eexists); lia.
Qed.

Lemma digits_of_hex hex : Forall (fun c => is_hex c = true) hex ->
  exists ds, digits_of 16 hex = (ds, []) /\ length ds = length hex.
Proof.
  induction 1 as [|c hex Hc _ (ds & IH & Hl)]; [by exists []|]. cbn [digits_of].
  destruct (is_hex_cases c Hc) as [d ->]. rewrite IH. exists (d :: ds). cbn [length]. by rewrite Hl.
Qed.

Lemma HexStringToInt_hex hex : Forall (fun c => is_hex c = true) hex ->
  HexStringToInt ws hex 0 = ((negb (is_nil hex)) && (hex_number hex <=? 2 ^ 31 - 1), Z.min (2 ^ 31 - 1) (hex_number hex)).
Proof.
  intros Hh. assert (E : HexStringToInt ws hex 0 = let '(ok, v) := Base_Invoke Positive Int 16 hex in (ok, v)).
  { unfold HexStringToInt, Invoke. destruct hex as [|c rest]; [done|]. apply Forall_cons in Hh as [Hc _].
    cbn [skip_whitespace]. rewrite (Hws c Hc). cbn iota. unfold is_hex in Hc.
    rewrite (proj2 (Z.eqb_neq c "-"%ch)), (proj2 (Z.eqb_neq c "+"%ch)) by (cbn; lia).
    by destruct (Base_Invoke _ _ _ _) as [[] v]. }
  rewrite E, (Base_Invoke_spec Int ltac:(by left) 16 ltac:(lia) Positive ltac:(done)).
  assert (Hs : strip_prefix 16 hex = hex).
  { unfold strip_prefix. destruct hex as [|c1 [|c2 rest]]; [done..|]. apply Forall_cons in Hh as [_ Hh].
    apply Forall_cons in Hh as [Hc _]. cbn [at_ nth Z.to_nat]. unfold is_hex in Hc. cbn [at_]. 
    change (at_ (c1 :: c2 :: rest) 1) with c2.
    rewrite (proj2 (Z.eqb_neq c2 "x"%ch)), (proj2 (Z.eqb_neq c2 "X"%ch)) by (cbn; lia). by rewrite andb_false_r. }
  rewrite Hs. unfold parse_result, hex_number. destruct (digits_of_hex hex Hh) as (ds & -> & Hl).
  cbn [fst is_nil]. rewrite andb_true_r. change (limit Positive Int) with (2 ^ 31 - 1). cbn [signed_value].
  by destruct ds, hex.
Qed.

Lemma strip_spaces_spec fuel : forall t spaces rest, Forall (fun c => c = space) spaces -> (length spaces < fuel)%nat ->
  (t = [] \/ exists t' c, t = t' ++ [c] /\ c <> space) ->
  strip_spaces fuel (t ++ spaces ++ rest) (zlen (t ++ spaces)) = Ok (zlen t).
Proof.
  induction fuel as [|fuel IH]; intros t spaces rest Hs Hf Ht; [lia|]. cbn [strip_spaces].
  destruct spaces as [|c spaces _] using rev_ind.
  - rewrite app_nil_r. destruct Ht as [->|(t' & c & -> & Hc)]; [done|]. rewrite zlen_app. change (zlen [c]) with 1.
    pose proof (zlen_nonneg t'). rewrite (proj2 (Z.eqb_neq _ _)) by lia.
    replace (zlen t' + 1 - 1) with (zlen t') by lia. rewrite <- app_assoc. cbn [app]. rewrite get_app. cbn [checked mbind res_bind].
    rewrite (proj2 (Z.eqb_neq c space)) by done. done.
  - apply Forall_app in Hs as [Hs Hc]. apply Forall_cons in Hc as [-> _]. rewrite length_app in Hf. cbn [length] in Hf.
    rewrite app_assoc, zlen_app. change (zlen [space]) with 1. pose proof (zlen_nonneg (t ++ spaces)).
    rewrite (proj2 (Z.eqb_neq _ _)) by lia. replace (zlen (t ++ spaces) + 1 - 1) with (zlen (t ++ spaces)) by lia.
    replace (t ++ (spaces ++ [space]) ++ rest) with ((t ++ spaces) ++ space :: rest) by (by rewrite <- !app_assoc).
    rewrite get_app. cbn [checked mbind res_bind]. rewrite Z.eqb_refl. rewrite <- app_assoc. apply IH; [done|lia|done].
Qed.

Lemma ParseChunkSize_spec hex spaces rest : hex <> [] -> Forall (fun c => is_hex c = true) hex ->
  Forall (fun c => c = space) spaces -> hex_number hex < 2 ^ 31 -> 0 <= hex_number hex ->
  ParseChunkSize ws (hex ++ spaces ++ rest) (zlen (hex ++ spaces)) = Ok (Some (hex_number hex)).
Proof.
  intros Hne Hh Hs Hn H0. unfold ParseChunkSize. rewrite (proj2 (Z.leb_le 0 _)) by apply zlen_nonneg.
  cbn [DCHECK checked mbind res_bind].
  rewrite strip_spaces_spec; [|done|rewrite zlen_app; unfold zlen; lia|].
  2:{ right. destruct hex as [|c t _] using rev_ind; [done|]. exists t, c. split; [done|]. apply Forall_app in Hh as [_ Hh].
      apply Forall_cons in Hh as [Hc _]. intros ->. done. }
  cbn [mbind res_bind]. rewrite load_head by done. cbn [checked mbind res_bind].
  assert (forallb is_hex hex = true) as -> by (rewrite forallb_forall; intros c Hc; rewrite Forall_forall in Hh; apply Hh; by apply list_elem_of_In).
  cbn [negb]. rewrite HexStringToInt_hex by done. rewrite Z.min_r by lia.
  rewrite (proj2 (Z.leb_le _ _)), (proj2 (Z.leb_le 0 _)) by lia. by destruct hex.
Qed.

(** ** Where the decoder is *)
Definition mode_of (d : HttpChunkedDecoder) (m : Mode) : Prop :=
  chunk_remaining_ d = 0 /\ reached_eof_ d = false /\ bytes_after_eof_ d = 0 /\
  chunk_terminator_remaining_ d = (match m with TerminatorLine => true | _ => false end) /\
  reached_last_chunk_ d = (match m with TrailerLine => true | _ => false end).

(** What is left of the stream and of the body: in the data of a chunk, in a
    line of which [s] has been read, or behind the end. *)
Inductive here (after : list Z) (d : HttpChunkedDecoder) : list Z -> list Z -> Prop :=
  | here_data data stream body :
      chunk_remaining_ d = zlen data -> data <> [] -> line_buf_ d = [] -> reached_eof_ d = false -> bytes_after_eof_ d = 0 ->
      reached_last_chunk_ d = false -> chunk_terminator_remaining_ d = false ->
      encodes TerminatorLine stream body after -> here after d (data ++ stream) (data ++ body)
  | here_line m s stream body :
      mode_of d m -> (LF ∉ s) -> drops (chomp s) (line_buf_ d) -> encodes m (s ++ stream) body after -> here after d stream body
  | here_end read stream :
      chunk_remaining_ d = 0 -> reached_eof_ d = true -> after = read ++ stream -> bytes_after_eof_ d = zlen read ->
      here after d stream [].

Lemma here_start m d stream body after :
  mode_of d m -> line_buf_ d = [] -> encodes m stream body after -> here after d stream body.
Proof. intros Hm Hl He. apply (here_line after d m []); [done|apply not_elem_of_nil|rewrite Hl; constructor|done]. Qed.

(** A line that is put together is taken, and leads on. *)
Lemma take_size_line d line n t junk :
  mode_of d SizeLine -> size_line line n -> drops line t ->
  0 <= n -> exists d', take_line ws (t ++ junk) (zlen t) d = Ok (None, d') /\
    d' = (if n =? 0 then d <| chunk_remaining_ := n |> <| reached_last_chunk_ := true |> else d <| chunk_remaining_ := n |>).
Proof.
  intros (_ & _ & _ & Ht & Hl) (_ & hex & spaces & ext & -> & Hne & Hh & Hs & Hext & En & Hn) Hd H0.
  assert (Hcr : CR ∉ hex ++ spaces).
  { rewrite elem_of_app. rewrite Forall_forall in Hh, Hs. intros [Hin|Hin]; [by apply Hh in Hin|by apply Hs in Hin]. }
  rewrite app_assoc in Hd. destruct (drops_app_inv _ _ _ Hcr Hd) as (ext' & -> & Hext').
  assert (Hsemi : ext' = [] \/ exists u, ext' = semicolon :: u).
  { destruct Hext as [->|[u ->]]; inversion Hext'; subst; [by left|by right; eexists]. }
  unfold take_line. rewrite Hl, Ht. assert (Hz : 0 < zlen (hex ++ spaces)).
  { rewrite zlen_app. pose proof (zlen_nonneg spaces). destruct hex; [done|]. unfold zlen in *. cbn [length]. lia. }
  rewrite zlen_app. pose proof (zlen_nonneg ext'). rewrite (proj2 (Z.eqb_neq _ _)) by lia. cbn [negb].
  rewrite <- zlen_app, load_head by done. cbn [checked mbind res_bind].
  assert (Hfind : match find semicolon ((hex ++ spaces) ++ ext') with Some i => i | None => zlen ((hex ++ spaces) ++ ext') end = zlen (hex ++ spaces)).
  { assert (Hno : semicolon ∉ hex ++ spaces).
    { rewrite elem_of_app. rewrite Forall_forall in Hh, Hs. intros [Hin|Hin]; [by apply Hh in Hin|by apply Hs in Hin]. }
    pose proof (find_spec semicolon ((hex ++ spaces) ++ ext')) as Hf. destruct (find _ _) as [i|].
    - destruct Hf as (q & r & E & Hq & ->). destruct Hsemi as [->|[u ->]].
      + rewrite app_nil_r in E. exfalso. apply Hno. rewrite E, elem_of_app. right. by left.
      + destruct (first_unique _ _ _ _ _ Hno Hq E) as [-> _]. done.
    - destruct Hsemi as [->|[u ->]]; [by rewrite app_nil_r|]. exfalso. apply Hf. rewrite elem_of_app. right. by left. }
  rewrite Hfind. replace (((hex ++ spaces) ++ ext') ++ junk) with (hex ++ spaces ++ ext' ++ junk) by (by rewrite <- !app_assoc).
  rewrite ParseChunkSize_spec by (done || lia). cbn [mbind res_bind]. rewrite En. by eexists.
Qed.

Lemma drops_nil_inv t : drops [] t -> t = [].
Proof. by inversion 1. Qed.

Lemma drops_other l t c : drops l t -> c ∈ l -> c <> CR -> c ∈ t.
Proof. induction 1; rewrite ?elem_of_nil, ?elem_of_cons; naive_solver. Qed.

Lemma line_leads m stream body after :
  encodes m stream body after ->
  exists content e rest, stream = content ++ e ++ rest /\ eol e /\ line_text content /\
    forall d t junk, mode_of d m -> drops content t ->
      exists d', take_line ws (t ++ junk) (zlen t) d = Ok (None, d') /\ here after (d' <| line_buf_ := [] |>) rest body.
Proof.
  assert (Hempty : line_text []) by (split; [apply not_elem_of_nil|done]).
  intros He. destruct He as [line e data stream body after Hs He Hne Henc|line e stream after Hs He Henc
    |e stream body after He Henc|line e stream after Hl (c & Hc & Hcr) He Henc|e after He].
  - exists line, e, (data ++ stream). split; [done|]. split; [done|]. split; [apply Hs|]. intros d t junk Hm Hd.
    destruct (take_size_line d line (zlen data) t junk Hm Hs Hd ltac:(apply zlen_nonneg)) as (d' & -> & ->).
    rewrite (proj2 (Z.eqb_neq _ _)) by (destruct data; [done|unfold zlen; cbn [length]; lia]).
    eexists. split; [done|]. destruct Hm as (H1 & H2 & H3 & H4 & H5). by constructor.
  - exists line, e, stream. split; [done|]. split; [done|]. split; [apply Hs|]. intros d t junk Hm Hd.
    destruct (take_size_line d line 0 t junk Hm Hs Hd ltac:(done)) as (d' & -> & ->).
    eexists. split; [done|]. destruct Hm as (H1 & H2 & H3 & H4 & H5). by apply here_start with TrailerLine.
  - exists [], e, stream. split; [done|]. split; [done|]. split; [done|]. intros d t junk Hm ->%drops_nil_inv.
    destruct Hm as (H1 & H2 & H3 & H4 & H5). unfold take_line. rewrite H5, H4. cbn [zlen length].
    eexists. split; [reflexivity|]. by apply here_start with SizeLine.
  - exists line, e, stream. split; [done|]. split; [done|]. split; [done|]. intros d t junk Hm Hd.
    destruct Hm as (H1 & H2 & H3 & H4 & H5). unfold take_line. rewrite H5.
    pose proof (drops_other _ _ _ Hd Hc Hcr) as Hin. rewrite (proj2 (Z.eqb_neq _ _)) by (destruct t; [by apply elem_of_nil in Hin|unfold zlen; cbn [length]; lia]).
    eexists. split; [reflexivity|]. by apply here_start with TrailerLine.
  - exists [], e, after. split; [done|]. split; [done|]. split; [done|]. intros d t junk Hm ->%drops_nil_inv.
    destruct Hm as (H1 & H2 & H3 & H4 & H5). unfold take_line. rewrite H5. eexists. split; [reflexivity|].
    by apply (here_end after _ []).
Qed.

(** The part of a line that is read, with what is in front of its end. *)
Lemma read_of_line s q content e rest stream :
  eol e -> (LF ∉ content) -> (LF ∉ s ++ q) -> s ++ q ++ LF :: stream = content ++ e ++ rest ->
  stream = rest /\ drops content (chomp (s ++ q)).
Proof.
  intros He Hc Hs E. rewrite app_assoc in E. destruct He as [-> | ->].
  - destruct (first_unique _ _ _ _ _ Hs Hc E) as [-> ->]. split; [done|apply drops_chomp].
  - assert (Hcr : LF ∉ content ++ [CR]) by (rewrite elem_of_app, list_elem_of_singleton; naive_solver).
    replace (content ++ [CR; LF] ++ rest) with ((content ++ [CR]) ++ LF :: rest) in E by (by rewrite <- app_assoc).
    destruct (first_unique _ _ _ _ _ Hs Hcr E) as [-> ->]. split; [done|]. rewrite chomp_snoc. apply drops_refl.
Qed.

Lemma zlen_chomp l : zlen (chomp l) <= zlen l.
Proof. apply drops_length, drops_chomp. Qed.

Lemma part_of_line s stream content e rest :
  eol e -> line_text content -> (LF ∉ s) -> s ++ stream = content ++ e ++ rest ->
  zlen (chomp s) <= kMaxLineBufLen /\ (LF ∈ stream).
Proof.
  intros He [Hc Hz] Hs E.
  assert (Hst : LF ∈ stream).
  { assert (Hin : LF ∈ s ++ stream) by (rewrite E, !elem_of_app; destruct He as [-> | ->]; set_solver).
    rewrite elem_of_app in Hin. naive_solver. }
  split; [|done]. pose proof (find_spec LF stream) as Hf. destruct (find LF stream) as [i|]; [|done].
  destruct Hf as (q & r & -> & Hq & _).
  destruct (read_of_line s q content e rest r He Hc) as [_ Hd%drops_length]; [rewrite elem_of_app; naive_solver|done|].
  destruct (decide (q = [])) as [->|Hne]; [rewrite app_nil_r in Hd; lia|].
  rewrite chomp_app, zlen_app in Hd by done. pose proof (zlen_chomp s). pose proof (zlen_nonneg (chomp q)). lia.
Qed.

(** A piece of the stream is scanned. *)
Lemma scan_part_of_line after m s d piece later body :
  mode_of d m -> (LF ∉ s) -> drops (chomp s) (line_buf_ d) -> encodes m (s ++ piece ++ later) body after ->
  piece <> [] -> (LF ∉ piece) ->
  exists d', ScanForChunkRemaining ws piece d = Ok (zlen piece, d') /\ here after d' later body.
Proof.
  intros Hm Hs Hd He Hne Hno. unfold ScanForChunkRemaining. destruct Hm as (H1 & H2 & H3 & H4 & H5).
  rewrite H1. assert (Hz : 0 < zlen piece) by (destruct piece; [done|unfold zlen; cbn [length]; lia]).
  rewrite (proj2 (Z.ltb_lt 0 _)) by done. cbn [DCHECK checked mbind res_bind Z.eqb].
  pose proof (find_spec LF piece) as Hf. destruct (find LF piece) as [i|].
  { destruct Hf as (q & r & -> & _). exfalso. apply Hno. rewrite elem_of_app. right. by left. }
  pose proof (without_cr_spec piece []) as Hcr. rewrite app_nil_r in Hcr. rewrite Hcr. cbn [checked mbind res_bind].
  destruct (line_leads _ _ _ _ He) as (content & e & rest & E & Heol & Hline & _).
  assert (Hno2 : LF ∉ s ++ piece) by (rewrite elem_of_app; naive_solver).
  rewrite app_assoc in E, He. destruct (part_of_line _ _ _ _ _ Heol Hline Hno2 E) as [Hmax _].
  pose proof (pieces_of_line s (line_buf_ d) piece Hd) as Hb. pose proof (drops_length _ _ Hb) as Hlen. rewrite zlen_app in Hlen.
  rewrite (proj2 (Z.ltb_ge _ _)) by lia. destruct (chomp_prefix piece) as [r Er].
  replace (load piece 0 (zlen (chomp piece))) with (Some (chomp piece)) by (by rewrite Er at 2; rewrite load_head).
  cbn [checked mbind res_bind]. eexists. split; [done|]. by apply here_line with m (s ++ piece).
Qed.

Lemma scan_end_of_line after m s d q tail later body :
  mode_of d m -> (LF ∉ s) -> drops (chomp s) (line_buf_ d) -> encodes m (s ++ (q ++ LF :: tail) ++ later) body after ->
  (LF ∉ q) ->
  exists d', ScanForChunkRemaining ws (q ++ LF :: tail) d = Ok (zlen q + 1, d') /\ here after d' (tail ++ later) body.
Proof.
  intros Hm Hs Hd He Hq. unfold ScanForChunkRemaining. pose proof Hm as (H1 & _). rewrite H1.
  pose proof (zlen_nonneg q). pose proof (zlen_nonneg tail).
  assert (Hz : zlen (q ++ LF :: tail) = zlen q + 1 + zlen tail) by (rewrite zlen_app; unfold zlen; cbn [length]; lia).
  rewrite (proj2 (Z.ltb_lt 0 _)) by lia. cbn [DCHECK checked mbind res_bind Z.eqb].
  pose proof (find_spec LF (q ++ LF :: tail)) as Hf. destruct (find LF _) as [i|].
  2:{ exfalso. apply Hf. rewrite elem_of_app. right. by left. }
  destruct Hf as (q' & r & E' & Hq' & ->). destruct (first_unique _ _ _ _ _ Hq Hq' E') as [<- <-].
  rewrite without_cr_spec. cbn [checked mbind res_bind].
  destruct (line_leads _ _ _ _ He) as (content & e & rest & E & Heol & Hline & Hleads).
  replace (s ++ (q ++ LF :: tail) ++ later) with (s ++ q ++ LF :: (tail ++ later)) in E by (by rewrite <- !app_assoc).
  assert (Hsq : LF ∉ s ++ q) by (rewrite elem_of_app; naive_solver).
  destruct (read_of_line s q _ _ _ _ Heol (proj1 Hline) Hsq E) as [-> Hdrop].
  pose proof (pieces_of_line s (line_buf_ d) q Hd) as Hb. pose proof (drops_trans _ _ _ Hdrop Hb) as Ht.
  destruct (chomp_prefix q) as [r Er].
  assert (Eq : q ++ LF :: tail = chomp q ++ r ++ LF :: tail) by (rewrite app_assoc; by rewrite <- Er).
  assert (Hload : load (q ++ LF :: tail) 0 (zlen (chomp q)) = Some (chomp q)) by (rewrite Eq; by rewrite load_head).
  destruct (Z.eqb_spec (zlen (line_buf_ d)) 0) as [E0|E0]; cbn [negb].
  - assert (Hnil : line_buf_ d = []) by (destruct (line_buf_ d); [done|unfold zlen in E0; cbn in E0; lia]).
    rewrite Hnil in Ht. cbn [app] in Ht. cbn [mbind res_bind]. rewrite Eq.
    destruct (Hleads d (chomp q) (r ++ LF :: tail) Hm Ht) as (d' & -> & Hh). cbn [mbind res_bind].
    eexists. split; [reflexivity|done].
  - rewrite Hload. cbn [checked mbind res_bind]. set (d1 := d <| line_buf_ := line_buf_ d ++ chomp q |>).
    change (line_buf_ d1) with (line_buf_ d ++ chomp q).
    pose proof (drops_length _ _ Ht). destruct Hline as [_ Hmax]. unfold kMaxLineBufLen in Hmax.
    pose proof (zlen_nonneg (line_buf_ d ++ chomp q)). rewrite s32_id by lia.
    destruct (Hleads d1 (line_buf_ d ++ chomp q) [] Hm Ht) as (d' & Etl & Hh). rewrite app_nil_r in Etl. rewrite Etl.
    cbn [mbind res_bind]. eexists. split; [reflexivity|done].
Qed.

(** ** A buffer *)
Section Buffer.
Context (after later : list Z) (Hafter : zlen after < 2 ^ 31).

(** What the rest of a call does from where it is. *)
Definition filters (fuel : nat) (out cur junk : list Z) (d : HttpChunkedDecoder) (body : list Z) : Prop :=
  exists out' memory d' body', filter_loop fuel ws (out ++ cur ++ junk) (zlen out) (zlen cur) (zlen out) d =
      Ok (zlen (out ++ out'), memory, d') /\ load memory 0 (zlen (out ++ out')) = Some (out ++ out') /\
    body = out' ++ body' /\ here after d' later body'.

Lemma filters_end fuel out junk d body : (0 < fuel)%nat -> here after d later body -> filters fuel out [] junk d body.
Proof.
  intros Hf Hh. exists [], (out ++ junk), d, body. destruct fuel; [lia|]. rewrite app_nil_r. by rewrite load_head.
Qed.

(** The rest of the buffer is moved up. *)
Lemma move_up out c cur junk :
  exists junk', (if negb (zlen cur =? 0) then
      rest ← checked (load (out ++ (c ++ cur) ++ junk) (zlen out + zlen c) (zlen cur));
      checked (store (zlen out) rest (out ++ (c ++ cur) ++ junk))
    else Ok (out ++ (c ++ cur) ++ junk)) = Ok (out ++ cur ++ junk').
Proof.
  destruct (Z.eqb_spec (zlen cur) 0) as [E|E]; cbn [negb].
  - assert (cur = []) as -> by (destruct cur; [done|unfold zlen in E; cbn in E; lia]). by eexists.
  - assert (Hload : load (out ++ (c ++ cur) ++ junk) (zlen out + zlen c) (zlen cur) = Some cur).
    { replace (out ++ (c ++ cur) ++ junk) with ((out ++ c) ++ cur ++ junk) by (by rewrite <- !app_assoc).
      apply load_app; [by rewrite length_app; unfold zlen; lia|done]. }
    rewrite Hload. cbn [checked mbind res_bind].
    destruct (split_at (length cur) ((c ++ cur) ++ junk)) as (old & junk' & -> & Hl); [rewrite !length_app; lia|].
    exists junk'. by rewrite store_app.
Qed.

Lemma filters_data fuel out data cur junk d body :
  chunk_remaining_ d = zlen data -> data <> [] ->
  (forall d1, d1 = d <| chunk_remaining_ := 0 |> <| chunk_terminator_remaining_ := true |> ->
     filters fuel (out ++ data) cur junk d1 body) ->
  filters (S fuel) out (data ++ cur) junk d (data ++ body).
Proof.
  intros Hc Hne Hf. destruct (Hf _ eq_refl) as (out' & memory & d' & body' & E & Hload & -> & Hh).
  assert (0 < zlen data) by (destruct data; [done|unfold zlen; cbn [length]; lia]). pose proof (zlen_nonneg cur).
  exists (data ++ out'), memory, d', body'. rewrite (app_assoc out data out'). split; [|split; [done|split; [by rewrite <- app_assoc|done]]].
  cbn [filter_loop]. rewrite zlen_app, Hc. rewrite !(proj2 (Z.eqb_neq _ _)) by lia. cbn [negb].
  rewrite Z.min_l by lia. change (chunk_remaining_ (d <| chunk_remaining_ := zlen data - zlen data |>)) with (zlen data - zlen data).
  rewrite Z.sub_diag. cbn [Z.eqb]. replace (zlen data + zlen cur - zlen data) with (zlen cur) by lia.
  rewrite <- zlen_app. rewrite <- (app_assoc out data) in E. rewrite <- (app_assoc data cur). exact E.
Qed.

Lemma filters_scan fuel out c cur junk d d' body :
  chunk_remaining_ d = 0 -> reached_eof_ d = false -> c <> [] ->
  ScanForChunkRemaining ws (c ++ cur) d = Ok (zlen c, d') ->
  (forall junk', filters fuel out cur junk' d' body) ->
  filters (S fuel) out (c ++ cur) junk d body.
Proof.
  intros Hc He Hne Hs Hf. destruct (move_up out c cur junk) as (junk' & Em).
  destruct (Hf junk') as (out' & memory & d2 & body' & E & Hload & -> & Hh). exists out', memory, d2, body'.
  split; [|done]. assert (0 < zlen c) by (destruct c; [done|unfold zlen; cbn [length]; lia]). pose proof (zlen_nonneg cur).
  cbn [filter_loop]. rewrite Hc, He. assert (Hz : zlen (c ++ cur) = zlen c + zlen cur) by apply zlen_app.
  rewrite (proj2 (Z.eqb_neq _ _)) by lia. cbn [Z.eqb negb]. rewrite load_app by done. cbn [checked mbind res_bind].
  rewrite Hs. cbn [mbind res_bind]. rewrite (proj2 (Z.ltb_ge _ _)) by lia.
  replace (zlen (c ++ cur) - zlen c) with (zlen cur) by lia. rewrite Em. cbn [mbind res_bind]. exact E.
Qed.

Lemma filter_loop_spec fuel : forall out cur junk d body,
  here after d (cur ++ later) body -> (length cur < fuel)%nat -> filters fuel out cur junk d body.
Proof.
  induction fuel as [|fuel IH]; intros out cur junk d body Hh Hf; [lia|].
  destruct (decide (cur = [])) as [->|Hne]; [apply filters_end; [lia|done]|].
  inversion Hh as [data stream body1 Hc Hdata Hl He Hb Hlast Hterm Henc Estream Ebody
                  |m s stream body1 Hm Hs Hd Henc Estream Ebody|read stream Hc He Ea Hb Estream Ebody]; subst.
  - (* data *)
    destruct (decide (length cur < length data)%nat) as [Hlt|Hge].
    + destruct (split_at (length cur) data) as (d1 & d2 & -> & Hl1); [lia|]. rewrite <- app_assoc in Estream.
      assert (Hpart : d1 = cur /\ d2 ++ stream = later) by (apply app_inj_1; done). destruct Hpart as [-> Hlater].
      assert (Hlt2 : 0 < zlen cur < zlen (cur ++ d2)).
      { rewrite length_app in Hlt. rewrite zlen_app. destruct cur; [done|]. unfold zlen in *. cbn [length] in *. lia. }
      exists cur, (out ++ cur ++ junk), (d <| chunk_remaining_ := zlen d2 |>), (d2 ++ body1).
      split; [|split; [rewrite app_assoc; by rewrite load_head|split; [by rewrite app_assoc|]]].
      * cbn [filter_loop]. rewrite Hc. rewrite !(proj2 (Z.eqb_neq _ _)) by lia. cbn [negb]. rewrite Z.min_r by lia.
        replace (zlen (cur ++ d2) - zlen cur) with (zlen d2) by (rewrite zlen_app; lia).
        change (chunk_remaining_ (d <| chunk_remaining_ := zlen d2 |>)) with (zlen d2).
        rewrite (proj2 (Z.eqb_neq (zlen d2) 0)) by (rewrite zlen_app in Hlt2; lia). rewrite Z.sub_diag.
        destruct fuel; [destruct cur; [done|cbn [length] in Hf; lia]|]. cbn [filter_loop Z.eqb]. by rewrite zlen_app.
      * rewrite <- Hlater. apply here_data; try done. intros ->. rewrite app_nil_r in Hlt2. lia.
    + destruct (split_at (length data) cur) as (c1 & c2 & -> & Hl1); [lia|]. rewrite <- app_assoc in Estream.
      assert (Hpart : c1 = data /\ c2 ++ later = stream) by (apply app_inj_1; done). destruct Hpart as [-> <-].
      apply filters_data; [done|done|]. intros d1 ->. apply IH; [|rewrite length_app in Hf; destruct data; [done|cbn [length] in Hf; lia]].
      by apply here_start with TerminatorLine.
  - (* a line *)
    pose proof Hm as (Hc & He & _). pose proof (find_spec LF cur) as Hfind. destruct (find LF cur) as [i|].
    + destruct Hfind as (q & tail & -> & Hq & _).
      destruct (scan_end_of_line after m s d q tail later body Hm Hs Hd Henc Hq) as (d' & Hscan & Hh').
      replace (q ++ LF :: tail) with ((q ++ [LF]) ++ tail) in * by (by rewrite <- app_assoc).
      apply filters_scan with d'; [done|done|by destruct q| |].
      * rewrite Hscan. by rewrite zlen_app.
      * intros junk'. apply IH; [done|]. rewrite !length_app in Hf. cbn [length] in Hf. lia.
    + destruct (scan_part_of_line after m s d cur later body Hm Hs Hd Henc Hne Hfind) as (d' & Hscan & Hh').
      rewrite <- (app_nil_r cur). apply filters_scan with d'; [done|done|done|by rewrite app_nil_r|].
      intros junk'. apply IH; [done|]. destruct cur; [done|cbn [length] in *; lia].
  - (* behind the end *)
    exists [], (out ++ cur ++ junk), (d <| bytes_after_eof_ := s32 (bytes_after_eof_ d + zlen cur) |>), [].
    rewrite app_nil_r. split; [|split; [by rewrite load_head|split; [done|]]].
    + cbn [filter_loop]. rewrite Hc, He. rewrite (proj2 (Z.eqb_neq _ _)); [done|]. destruct cur; [done|unfold zlen; cbn [length]; lia].
    + apply here_end with (read ++ cur); [done|done|by rewrite <- app_assoc|]. cbn. rewrite Hb, zlen_app.
      rewrite Ea, !zlen_app in Hafter. pose proof (zlen_nonneg read). pose proof (zlen_nonneg cur). pose proof (zlen_nonneg later).
      apply s32_id. lia.
Qed.
End Buffer.

(** ** Any bytes *)
Lemma strip_spaces_total fuel : forall start len, 0 <= len <= zlen start -> (Z.to_nat len < fuel)%nat ->
  exists l, strip_spaces fuel start len = Ok l /\ 0 <= l <= len.
Proof.
  induction fuel as [|fuel IH]; intros start len Hl Hf; [lia|]. cbn [strip_spaces].
  destruct (Z.eqb_spec len 0); [exists len; split; [done|lia]|]. destruct (get_some start (len - 1)) as [c ->]; [lia|].
  cbn [checked mbind res_bind]. case_match; [|exists len; split; [done|lia]].
  destruct (IH start (len - 1)) as (l & -> & Hr); [lia|lia|]. exists l. split; [done|lia].
Qed.

Lemma ParseChunkSize_total start len : 0 <= len <= zlen start ->
  exists size, ParseChunkSize ws start len = Ok size /\ forall n, size = Some n -> 0 <= n.
Proof.
  intros Hl. unfold ParseChunkSize. rewrite (proj2 (Z.leb_le 0 len)) by lia. cbn [DCHECK checked mbind res_bind].
  destruct (strip_spaces_total (S (Z.to_nat len)) start len Hl ltac:(lia)) as (l & -> & Hr). cbn [mbind res_bind].
  destruct (load_total start 0 l) as [size ->]; [lia|lia|unfold zlen in *; lia|]. cbn [checked mbind res_bind].
  destruct (forallb is_hex size); cbn [negb]; [|by eexists].
  destruct (HexStringToInt ws size 0) as [ok n]. destruct ok, (Z.leb_spec 0 n); eexists; (split; [reflexivity|]); naive_solver.
Qed.

Lemma find_range c l i : find c l = Some i -> 0 <= i < zlen l.
Proof.
  intros E. pose proof (find_spec c l) as Hf. rewrite E in Hf. destruct Hf as (q & r & -> & _ & ->).
  rewrite zlen_app. pose proof (zlen_nonneg q). unfold zlen. cbn [length]. lia.
Qed.

Definition decoder_ok (d : HttpChunkedDecoder) : Prop := 0 <= chunk_remaining_ d /\ zlen (line_buf_ d) <= kMaxLineBufLen.

Lemma take_line_total buf buf_len d : 0 <= buf_len <= zlen buf -> 0 <= chunk_remaining_ d ->
  exists error d', take_line ws buf buf_len d = Ok (error, d') /\ 0 <= chunk_remaining_ d' /\
    (error = None \/ error = Some ERR_INVALID_CHUNKED_ENCODING).
Proof.
  intros Hl Hd. unfold take_line. destruct (reached_last_chunk_ d), (chunk_terminator_remaining_ d), (Z.eqb_spec buf_len 0); cbn [negb];
    try (do 2 eexists; (split; [reflexivity|]; split; [done|tauto])).
  destruct (load_total buf 0 buf_len) as [line Hline]; [lia|lia|unfold zlen in *; lia|]. rewrite Hline. cbn [checked mbind res_bind].
  set (len := match find semicolon line with Some i => i | None => buf_len end).
  assert (Hlen : 0 <= len <= zlen buf).
  { unfold len. destruct (find semicolon line) as [i|] eqn:E; [|done]. apply find_range in E.
    assert (zlen line = buf_len); [|lia]. unfold load in Hline. destruct (_ && _); [|done]. injection Hline as <-. by apply zlen_take. }
  destruct (ParseChunkSize_total buf len Hlen) as ([size|] & -> & Hn); cbn [mbind res_bind].
  - do 2 eexists. split; [reflexivity|]. split; [|by left]. specialize (Hn size eq_refl). by destruct (size =? 0).
  - do 2 eexists. split; [reflexivity|]. tauto.
Qed.

Lemma without_cr_total buf len : 0 <= len <= zlen buf ->
  exists l, without_cr buf len = Some l /\ 0 <= l <= len /\ exists bytes, load buf 0 l = Some bytes /\ zlen bytes = l.
Proof.
  intros Hl. pose proof (without_cr_spec (take (Z.to_nat len) buf) (drop (Z.to_nat len) buf)) as E.
  rewrite take_drop, zlen_take in E by done. eexists. split; [exact E|].
  pose proof (zlen_chomp (take (Z.to_nat len) buf)) as Hc. rewrite zlen_take in Hc by done.
  split; [split; [apply zlen_nonneg|done]|]. destruct (chomp_prefix (take (Z.to_nat len) buf)) as [r Er].
  exists (chomp (take (Z.to_nat len) buf)). split; [|done]. rewrite <- (take_drop (Z.to_nat len) buf) at 1.
  rewrite Er at 1. rewrite <- app_assoc. by apply load_head.
Qed.

Lemma scan_total piece d : chunk_remaining_ d = 0 -> decoder_ok d -> 0 < zlen piece < 2 ^ 30 ->
  exists n d', ScanForChunkRemaining ws piece d = Ok (n, d') /\
    (n = ERR_INVALID_CHUNKED_ENCODING \/ 0 < n <= zlen piece /\ decoder_ok d').
Proof.
  intros Hc [_ Hb] Hp. unfold ScanForChunkRemaining, decoder_ok, kMaxLineBufLen in *. rewrite Hc, (proj2 (Z.ltb_lt 0 _)) by lia.
  cbn [DCHECK checked mbind res_bind Z.eqb]. pose proof (zlen_nonneg (line_buf_ d)). destruct (find LF piece) as [i|] eqn:E.
  - apply find_range in E. destruct (without_cr_total piece i) as (l & -> & Hl & bytes & Hbytes & Hz); [lia|].
    cbn [checked mbind res_bind]. destruct (zlen (line_buf_ d) =? 0); cbn [negb].
    + destruct (take_line_total piece l d) as (error & d' & Et & Hr & He); [lia|lia|]. cbn [mbind res_bind]. rewrite Et.
      cbn [mbind res_bind]. destruct He as [-> | ->]; [|by do 2 eexists; split; [done|left]].
      do 2 eexists. split; [reflexivity|]. right. split; [lia|]. by split.
    + rewrite Hbytes. cbn [checked mbind res_bind]. set (d1 := d <| line_buf_ := line_buf_ d ++ bytes |>).
      change (line_buf_ d1) with (line_buf_ d ++ bytes). rewrite s32_id by (rewrite zlen_app; lia).
      destruct (take_line_total (line_buf_ d ++ bytes) (zlen (line_buf_ d ++ bytes)) d1) as (error & d' & Et & Hr & He);
        [rewrite zlen_app; lia|cbn; lia|]. rewrite Et. cbn [mbind res_bind].
      destruct He as [-> | ->]; [|by do 2 eexists; split; [done|left]].
      do 2 eexists. split; [reflexivity|]. right. split; [lia|]. by split.
  - destruct (without_cr_total piece (zlen piece)) as (l & -> & Hl & bytes & Hbytes & Hz); [lia|]. cbn [checked mbind res_bind].
    destruct (Z.ltb_spec 16384 (zlen (line_buf_ d) + l)); [by do 2 eexists; split; [done|left]|].
    rewrite Hbytes. cbn [checked mbind res_bind]. do 2 eexists. split; [reflexivity|]. right. split; [lia|]. cbn.
    rewrite zlen_app. lia.
Qed.

Lemma filter_loop_total fuel : forall memory buf buf_len d,
  0 <= buf -> 0 <= buf_len -> buf + buf_len <= zlen memory -> zlen memory < 2 ^ 30 -> decoder_ok d -> (Z.to_nat buf_len < fuel)%nat ->
  exists n memory' d', filter_loop fuel ws memory buf buf_len buf d = Ok (n, memory', d') /\
    (n = ERR_INVALID_CHUNKED_ENCODING \/ 0 <= n <= zlen memory' /\ decoder_ok d').
Proof.
  induction fuel as [|fuel IH]; intros memory buf buf_len d H0 H1 Hm Hmax Hd Hf; [lia|]. cbn [filter_loop].
  destruct (Z.eqb_spec buf_len 0) as [_|E0]; [do 3 eexists; split; [reflexivity|]; right; split; [lia|done]|].
  destruct (Z.eqb_spec (chunk_remaining_ d) 0) as [Hc|Hc]; cbn [negb].
  - destruct (reached_eof_ d); [do 3 eexists; split; [reflexivity|]; right; split; [lia|done]|].
    destruct (load_total memory buf buf_len) as [piece Hpiece]; [lia|lia|unfold zlen in *; lia|]. rewrite Hpiece. cbn [checked mbind res_bind].
    assert (Hz : zlen piece = buf_len).
    { unfold load in Hpiece. destruct (_ && _); [|done]. injection Hpiece as <-. apply zlen_take. rewrite zlen_drop; lia. }
    destruct (scan_total piece d Hc Hd ltac:(lia)) as (n & d' & -> & [->|[Hn Hd']]); cbn [mbind res_bind].
    { cbn [ERR_INVALID_CHUNKED_ENCODING Z.ltb Z.compare]. do 3 eexists. split; [reflexivity|]. by left. }
    rewrite (proj2 (Z.ltb_ge n 0)) by lia. destruct (Z.eqb_spec (buf_len - n) 0) as [E|E]; cbn [negb mbind res_bind].
    { apply IH; try done; lia. }
    destruct (load_total memory (buf + n) (buf_len - n)) as [rest Hrest]; [lia|lia|unfold zlen in *; lia|]. rewrite Hrest. cbn [checked mbind res_bind].
    assert (Hzr : zlen rest = buf_len - n).
    { unfold load in Hrest. destruct (_ && _); [|done]. injection Hrest as <-. apply zlen_take. rewrite zlen_drop; lia. }
    destruct (split_at (Z.to_nat buf) memory) as (m1 & m2 & -> & Hl1); [unfold zlen in *; lia|].
    destruct (split_at (length rest) m2) as (m3 & m4 & -> & Hl2); [unfold zlen in *; rewrite length_app in Hm; lia|].
    rewrite store_app by (unfold zlen in *; lia). cbn [checked mbind res_bind].
    rewrite !zlen_app in *. apply IH; try done; rewrite ?zlen_app; unfold zlen in *; lia.
  - destruct Hd as [Hd1 Hd2].
    set (d1 := d <| chunk_remaining_ := chunk_remaining_ d - Z.min (chunk_remaining_ d) buf_len |>).
    apply IH; try lia. destruct (chunk_remaining_ d1 =? 0); split; cbn; lia || done.
Qed.

(** ** A body *)

(** One buffer after the other: what comes out of them, unless one is
    refused. *)
Fixpoint decode (pieces : list (list Z)) (d : HttpChunkedDecoder) : res (option (list Z * HttpChunkedDecoder)) :=
  match pieces with
  | [] => Ok (Some ([], d))
  | piece :: pieces =>
      '(n, memory, d) ← FilterBuf ws piece (zlen piece) d;
      if n <? 0 then Ok None else
      out ← checked (load memory 0 n);
      rest ← decode pieces d;
      Ok (match rest with None => None | Some (rest, d) => Some (out ++ rest, d) end)
  end.

Lemma decode_total pieces : Forall (fun p => zlen p < 2 ^ 30) pieces -> forall d, decoder_ok d ->
  exists r, decode pieces d = Ok r.
Proof.
  induction 1 as [|piece pieces Hp _ IH]; intros d Hd; [by eexists|]. cbn [decode]. unfold FilterBuf.
  pose proof (zlen_nonneg piece).
  destruct (filter_loop_total (S (Z.to_nat (zlen piece))) piece 0 (zlen piece) d) as (n & memory & d' & -> & Hn); try done; [lia..|].
  cbn [mbind res_bind]. destruct Hn as [->|[Hn Hd']]; [by eexists|]. rewrite (proj2 (Z.ltb_ge n 0)) by lia.
  destruct (load_total memory 0 n) as [out ->]; [lia|lia|unfold zlen in *; lia|]. cbn [checked mbind res_bind].
  destruct (IH d' Hd') as [r ->]. by eexists.
Qed.

Lemma decode_spec pieces after later : zlen after < 2 ^ 31 -> forall d body,
  here after d (concat pieces ++ later) body ->
  exists out d' rest, decode pieces d = Ok (Some (out, d')) /\ body = out ++ rest /\ here after d' later rest.
Proof.
  intros Ha. induction pieces as [|piece pieces IH]; intros d body Hh; [by exists [], d, body|].
  cbn [concat] in Hh. rewrite <- app_assoc in Hh. cbn [decode]. unfold FilterBuf.
  destruct (filter_loop_spec after (concat pieces ++ later) Ha (S (Z.to_nat (zlen piece))) [] piece [] d body Hh)
    as (out & memory & d' & body' & E & Hload & -> & Hh'); [unfold zlen; lia|].
  cbn [app] in E, Hload. rewrite app_nil_r in E. change (zlen []) with 0 in E. rewrite E. cbn [mbind res_bind].
  rewrite (proj2 (Z.ltb_ge _ 0)) by apply zlen_nonneg. rewrite Hload. cbn [checked mbind res_bind].
  destruct (IH d' body' Hh') as (out' & d2 & rest & -> & -> & Hh2). cbn [mbind res_bind].
  exists (out ++ out'), d2, rest. by rewrite <- app_assoc.
Qed.

(** At the end of the stream, the decoder is behind the end of the body. *)
Lemma here_is_end after d body : here after d [] body -> body = [] /\ reached_eof_ d = true /\ bytes_after_eof_ d = zlen after.
Proof.
  intros Hh. inversion Hh as [data stream body1 Hc Hdata Hl He Hb Hlast Hterm Henc Estream Ebody
                             |m s stream body1 Hm Hs Hd Henc Estream Ebody|read stream Hc He Ea Hb Estream Ebody]; subst.
  - exfalso. apply app_eq_nil in Estream as [-> ->]. by apply Hdata.
  - exfalso. destruct (line_leads _ _ _ _ Henc) as (content & e & rest & E & Heol & Hline & _).
    destruct (part_of_line _ _ _ _ _ Heol Hline Hs E) as [_ Hin]. by apply elem_of_nil in Hin.
  - by rewrite app_nil_r.
Qed.
End Decoding.

(** C28. Chunked bodies are decoded however they are cut. Any bytes, in buffers
    of any sizes, are decoded without an access outside of a buffer, or are
    refused. If they are a body as the comment of the source has it - chunks
    with their sizes in hexadecimal, spaces and extensions, line feeds with or
    without a carriage return, trailers and an empty line - and whatever
    follows it, cut anywhere, in a line end or in a size, what comes out is
    the data of the chunks in order, the end of the body is noticed, and the
    bytes behind it are counted. *)
Theorem chunked_bodies_are_decoded ws pieces :
  (forall c, is_hex c = true -> ws c = false) -> Forall (fun p => zlen p < 2 ^ 30) pieces ->
  (exists r, decode ws pieces new_HttpChunkedDecoder = Ok r) /\
  forall body after, encodes SizeLine (concat pieces) body after -> zlen after < 2 ^ 31 ->
    exists d, decode ws pieces new_HttpChunkedDecoder = Ok (Some (body, d)) /\
      reached_eof_ d = true /\ bytes_after_eof_ d = zlen after.
Proof.
  intros Hws Hp. split; [apply decode_total; [done|by split]|]. intros body after He Ha.
  destruct (decode_spec ws Hws pieces after [] Ha new_HttpChunkedDecoder body) as (out & d & rest & E & -> & Hh).
  { rewrite app_nil_r. by apply here_start with SizeLine. }
  destruct (here_is_end ws Hws after d rest Hh) as (-> & H1 & H2). exists d. by rewrite app_nil_r.
Qed.

(** Two chunks, an extension and a trailer, cut in a size and in line ends. *)
Definition example_body : list (list Z) :=
  [str "0"; str "3 ;x" ++ [CR]; [LF] ++ str "ab"; str "c" ++ [CR]; [LF] ++ str "A" ++ [LF] ++ str "0123456";
   str "789" ++ [LF] ++ str "0" ++ [CR; LF] ++ str "T:u" ++ [CR; LF; CR]; [LF] ++ str "more"].

Lemma chunked_bodies_are_decoded_witness :
  (exists r, decode isspace example_body new_HttpChunkedDecoder = Ok r) /\
  exists d, decode isspace example_body new_HttpChunkedDecoder = Ok (Some (str "abc0123456789", d)) /\
    reached_eof_ d = true /\ bytes_after_eof_ d = 4.
Proof.
  destruct (chunked_bodies_are_decoded isspace example_body) as [H1 H2].
  { intros c Hc. unfold is_hex in Hc. unfold isspace. lia. }
  { repeat constructor. }
  split; [exact H1|]. apply (H2 (str "abc0123456789") (str "more")); [|reflexivity].
  change (concat example_body) with (str "03 ;x" ++ [CR; LF] ++ str "abc" ++ [CR; LF] ++ str "A" ++ [LF] ++ str "0123456789" ++
    [LF] ++ str "0" ++ [CR; LF] ++ str "T:u" ++ [CR; LF] ++ [CR; LF] ++ str "more").
  assert (Hsize : forall line hex spaces ext n, line = hex ++ spaces ++ ext -> (LF ∉ line) -> zlen line <= 16384 -> hex <> [] ->
    Forall (fun c => is_hex c = true) hex -> Forall (fun c => c = space) spaces -> (ext = [] \/ exists t, ext = semicolon :: t) ->
    hex_number hex = n -> n < 2 ^ 31 -> size_line line n).
  { intros line hex spaces ext n **. split; [by split|]. by exists hex, spaces, ext. }
  apply (encodes_chunk (str "03 ;x") [CR; LF] (str "abc") _ (str "0123456789")); [|by right|done|].
  { apply (Hsize _ (str "03") (str " ") (str ";x")); try done; [by apply (bool_decide_unpack _)|by repeat constructor..|right; by eexists]. }
  apply (encodes_terminator [CR; LF]); [by right|]. rewrite <- (app_nil_r (str "0123456789")) at 2.
  apply (encodes_chunk (str "A") [LF] (str "0123456789") _ []); [|by left|done|].
  { apply (Hsize _ (str "A") [] []); try done; [by apply (bool_decide_unpack _)|by repeat constructor|by left]. }
  apply (encodes_terminator [LF]); [by left|]. apply (encodes_last (str "0") [CR; LF]); [|by right|].
  { apply (Hsize _ (str "0") [] []); try done; [by apply (bool_decide_unpack _)|by repeat constructor|by left]. }
  apply (encodes_trailer (str "T:u") [CR; LF]); [split; [by apply (bool_decide_unpack _)|done]|exists 84; split; [left|done]|by right|].
  apply (encodes_end [CR; LF]). by right.
Defined.

(** A carriage return at the end of a buffer is dropped wherever it is, so
    that what is refused in one piece is taken in two. *)
Example cuts_hide_carriage_returns :
  decode isspace [str "1" ++ [LF] ++ str "a" ++ [CR; CR; LF] ++ str "0" ++ [LF; LF]] new_HttpChunkedDecoder = Ok None /\
  match decode isspace [str "1" ++ [LF] ++ str "a" ++ [CR]; [CR; LF] ++ str "0" ++ [LF; LF]] new_HttpChunkedDecoder with
  | Ok (Some (out, d)) => out = str "a" /\ reached_eof_ d = true
  | _ => False
  end.
Proof. vm_compute. done. Qed.
